(* ===== verification/_CoqProject ===== *)
-Q . S2P
Prelude.v
Setters.v
Replay.v
Tai64n.v
Ratelimiter.v
Checksum.v
AllowedIPs.v
BitTrie.v
Trie.v
AllowedIPsCorrect.v
AllowedIPsTable.v
Crypto.v
GoStrings.v
Netip.v
NetipCorrect.v
Messages.v
Env.v
Cookie.v
NoiseTypes.v
DeviceState.v
Noise.v
NoiseCorrect.v
NoiseComplete.v
NoiseReplay.v
Timers.v
PeerOps.v
Send.v
Receive.v
Device.v
Uapi.v
System.v
Frame.v
DeviceFrame.v
Config.v
Delivery.v
Routing.v
Nonces.v
Transport.v
Staging.v
Staged.v
Corners.v
Demo.v
Encoding.v
Pools.v
Slices.v
Gso.v
GsoCorrect.v
Gro.v
GroBytes.v
GroMerge.v
GroGroups.v
GroTable.v
GroCore.v
GroOrder.v
GroStep.v
GroBatch.v
GroAccount.v
GroCorrect.v
Control.v
Bind.v
BindCoalesce.v
BindSend.v
BindReceive.v
BindOpen.v
GoText.v
Resolver.v
ResolverCorrect.v
Netstack.v
NetstackCorrect.v
Upload.v
UploadConfig.v
UploadServer.v
