(* ===== verification/Prelude.v ===== *)
(** * webos-wireguard: a verification development

    The repository is a WireGuard client for a television. Its parts are the
    tunnel daemon (src/wireguard-go), the command-line tool that configures it
    (src/wireguard-tools), a small web server that accepts a configuration from
    another machine on the network (src/uploader) and a user interface (src/app).
    The web server stores a configuration that the tool feeds to the daemon over
    the text protocol of device/uapi.go; the daemon reads packets from a TUN
    device, routes and encrypts them, sends them as datagrams, and the other way
    round. The library models these parts and proves them correct.

    ** How the code is modelled

    A machine integer is a [Z] with its wrap-around written out ([u8], [u16],
    [u32], [u64]); a byte string is a [list Z]; a fixed-size array is a list whose
    length a predicate fixes. A slice that is extended in place is an [In]: the
    bytes up to its capacity, and its length. [None] is a run-time panic or an
    error, as the definition says. Stateful code is a state-passing function or a
    program in the monad [ST] of [Env]; structures that several others point to
    are in heaps indexed by addresses. Every definition that models code is
    executable, and the witnesses run them.

    What is not in the sources is a parameter: the primitives of golang.org/x/crypto
    are the class [Crypto] with the laws [CryptoLaws] ([Crypto.v], which ends with
    an instance), the endpoints of a bind are the class [Endpoints], the layout of
    control messages in golang.org/x/sys/unix is the class [Unix] with the laws
    [UnixLaws] and the instance [linux64], the DNS messages of golang.org/x/net are
    the class [Dns] with the laws [DnsLaws] and the instance [wire], and the gVisor
    stack is the class [Stack]. The results of system calls are inputs: [Outside] of
    the device, the [file] of the TUN device, the [listener] and the batch readers
    and writers of a bind, the connections of the resolver, the calls of the upload
    server. Go's standard library is modelled where the code uses it: [GoStrings],
    [Netip] and [GoText]. Go leaves the order of a loop over a map open: in [Gro] it
    is an argument; in [Device] the loops follow the order of the model's map.

    Code that runs in parallel is a transition system ([System.v]): a step is one
    round of a routine, one timer, one event or one configuration request, and
    theorems about runs quantify over all sequences of steps. Only in [Pools] are
    the steps those between two operations on a lock. Elsewhere finer interleavings
    than a round are not modelled, and locks are left out. For most rounds this is
    justified by the locks they hold; two of them release a lock in between:
    [ConsumeMessageInitiation] checks a message under a read lock of the handshake
    and updates it under a write lock taken afterwards, and [Allow] of the rate
    limiter looks an address up under a read lock and inserts it under a write lock.
    What another routine could do in between is not covered.

    ** The files

    Shared: [Prelude] (words, lists, tactics, hints), [Setters] (record updates),
    [Slices] (reading and writing inside byte slices), [Env] (the monad, clock and
    random source).

    - replay/replay.go is [Replay]: the window refines a filter that remembers all
      counters, and accepts none twice.
    - tai64n/tai64n.go is [Tai64n]; ratelimiter/ratelimiter.go is [Ratelimiter]
      with the bound on what an address gets through.
    - device/allowedips.go is [AllowedIPs], the trie on a heap with back pointers.
      [BitTrie] and [Trie] are the functional trie and its specification,
      [AllowedIPsCorrect] relates the heap to it, [AllowedIPsTable] concludes:
      after any updates a lookup is longest-prefix match.
    - device/noise-helpers.go is [Crypto], noise-types.go is [NoiseTypes], the
      messages of noise-protocol.go are [Messages], cookie.go is [Cookie].
    - The structs of package device are [DeviceState]. noise-protocol.go,
      indextable.go and keypair.go are [Noise]; [NoiseCorrect] and [NoiseComplete]
      show that a handshake completes and gives both ends the same keys,
      [NoiseReplay] that initiations are consumed once and refused messages change
      nothing.
    - timers.go is [Timers], peer.go is [PeerOps], send.go is [Send], receive.go is
      [Receive], device.go, channels.go and tun.go are [Device], uapi.go is [Uapi].
      [System] puts them together. [Frame] and [DeviceFrame] reduce an invariant of
      the system to its primitive actions; [Config] (peers, routes and the lines
      that change them), [Delivery] (what is written to the TUN device has arrived,
      is authentic and not a replay), [Routing], [Nonces], [Transport], [Staging] and
      [Staged] (sending what is staged returns, and what it sends) are the invariants
      and the functional theorems, [Corners] edge cases, [Demo] a run of two devices
      that the witnesses use.
    - device/pools.go is [Pools]: a bounded pool, under every interleaving of its
      clients.
    - tun/checksum.go is [Checksum]: the unrolled sum is the one of RFC 1071.
    - tun/offload_linux.go and the reads and writes of tun/tun_linux.go are [Gso]
      and [Gro]. [GsoCorrect] is about reading: a large packet becomes segments
      with valid headers. [GroBytes] to [GroCorrect] are about writing: a batch is
      merged into frames that stand for each packet once.
    - The bind of conn/bind_std.go is [Bind], with the control messages of
      conn/gso_linux.go and sticky_linux.go in [Control]. [BindCoalesce] and
      [BindSend] are about sending: the messages written stand for the datagrams
      given; [BindReceive] about receiving: the datagrams handed out are those that
      arrived; [BindOpen] about opening and closing the sockets.
    - tun/netstack/tun.go is [Resolver] (names and DNS exchanges) and [Netstack] (the
      device, dialing, ping sockets); [ResolverCorrect] shows that an answer belongs
      to its question, [NetstackCorrect] which address a dial reaches and when.
    - The key encodings of wireguard-tools/src/encoding.c and ctype.h are [Encoding].
    - uploader/wg-upload.go is [Upload]; [UploadConfig] shows that no command of a
      configuration survives, [UploadServer] who may write which file and that the
      server ends.

    ** Fuel

    Loops that are not structural take fuel that the model computes from the state,
    and theorems show it is enough: the walks of the trie take at most 129 steps of
    [path_fuel]; the draws of [new_index] end with the random source; the loops over
    staged packets are bounded by the queue ([SendStagedPackets_terminates] shows
    that they return and that more rounds change nothing); the checksum and the text
    loops take the length of their input.

    ** Not modelled

    The Windows bind, the options of sockets, named pipes and Unix sockets,
    cancellable reads, creation of TUN interfaces and of the user-space stack, and
    other platforms are system calls with little logic around them. Log lines, the
    command line and the reuse of buffers have no effect on what the theorems state.
    Of the C tool only the key encodings are modelled. The user interface is
    JavaScript over the service bus of the television. *)

From stdpp Require Import base numbers list.

Open Scope Z_scope.

(** ** Machine words

    A Go [uintN] is a [Z] kept in range by the wrap-around written out where
    the source computes.  [int] and [int64] values are plain [Z] unless the
    code can overflow, where [i64] is written. *)

Definition u8 (x : Z) : Z := x mod 2 ^ 8.

Definition u16 (x : Z) : Z := x mod 2 ^ 16.

Definition u32 (x : Z) : Z := x mod 2 ^ 32.

Definition u64 (x : Z) : Z := x mod 2 ^ 64.

Definition i64 (x : Z) : Z := (x + 2 ^ 63) mod 2 ^ 64 - 2 ^ 63.

Definition is_u8 (x : Z) : Prop := 0 <= x < 2 ^ 8.

Definition is_u16 (x : Z) : Prop := 0 <= x < 2 ^ 16.

Definition is_u32 (x : Z) : Prop := 0 <= x < 2 ^ 32.

Definition is_u64 (x : Z) : Prop := 0 <= x < 2 ^ 64.

(** ** Byte slices *)

(** A byte slice or array is a [list Z] of values below 256. *)
Definition is_bytes (bs : list Z) : Prop := Forall is_u8 bs.

(** [b[i]] for a Go [int] index; [None] is the run-time panic. *)
Definition byte_at (b : list Z) (i : Z) : option Z :=
  if decide (0 <= i) then b !! Z.to_nat i else None.

(** [b[lo:hi]] of a slice whose capacity is its length; [None] is the panic. *)
Definition slice (b : list Z) (lo hi : Z) : option (list Z) :=
  if decide (0 <= lo <= hi /\ hi <= Z.of_nat (length b))
  then Some (take (Z.to_nat (hi - lo)) (drop (Z.to_nat lo) b)) else None.

(** [len(b)] *)
Definition zlen {A} (b : list A) : Z := Z.of_nat (length b).

(** [copy(dst, src)]: the first [min(len(dst), len(src))] bytes of [dst] are
    replaced. *)
Definition copy (dst src : list Z) : list Z :=
  take (length dst) src ++ drop (length src) dst.

(** [copy(dst[at:], src)] *)
Definition copy_at (dst : list Z) (at_ : nat) (src : list Z) : list Z :=
  take at_ dst ++ copy (drop at_ dst) src.

(** [var a [n]byte] *)
Definition zeros (n : nat) : list Z := replicate n 0.

(** ** Byte order: the [encoding/binary] accessors *)

Fixpoint le_uint (bs : list Z) : Z :=
  match bs with
  | [] => 0
  | b :: bs => b + 256 * le_uint bs
  end.

Fixpoint le_put (n : nat) (x : Z) : list Z :=
  match n with
  | O => []
  | S n => x mod 256 :: le_put n (x / 256)
  end.

Definition be_uint (bs : list Z) : Z := le_uint (rev bs).

Definition be_put (n : nat) (x : Z) : list Z := rev (le_put n x).

(** [binary.LittleEndian.UintN(b)] reads the first bytes of a longer slice
    and panics on a shorter one. *)
Definition le_get (n : nat) (b : list Z) : option Z :=
  if decide (n <= length b)%nat then Some (le_uint (take n b)) else None.

Definition be_get (n : nat) (b : list Z) : option Z :=
  if decide (n <= length b)%nat then Some (be_uint (take n b)) else None.

(** ** Lexicographic order of byte strings: [bytes.Compare] *)

Fixpoint bytes_compare (a b : list Z) : comparison :=
  match a, b with
  | [], [] => Eq
  | [], _ => Lt
  | _, [] => Gt
  | x :: a, y :: b =>
      match x ?= y with
      | Eq => bytes_compare a b
      | c => c
      end
  end.

(** [bytes.Equal], [hmac.Equal] and [subtle.ConstantTimeCompare(..) == 1]:
    they differ in running time only. *)
Definition bytes_eqb (a b : list Z) : bool := bool_decide (a = b).

#[export] Instance is_u8_dec x : Decision (is_u8 x).
Proof. unfold is_u8. apply _. Defined.

#[export] Instance is_u16_dec x : Decision (is_u16 x).
Proof. unfold is_u16. apply _. Defined.

#[export] Instance is_u32_dec x : Decision (is_u32 x).
Proof. unfold is_u32. apply _. Defined.

#[export] Instance is_u64_dec x : Decision (is_u64 x).
Proof. unfold is_u64. apply _. Defined.

#[export] Instance is_bytes_dec bs : Decision (is_bytes bs).
Proof. unfold is_bytes. apply _. Defined.

(** ** Automation *)

(** Closed decidable goals, by evaluation. *)
Ltac decide_closed := refine (bool_decide_unpack _ _); vm_compute; exact I.

Create HintDb words.

Create Rewrite HintDb words.

(** Turns the boolean tests of the modelled code into propositions. *)
Ltac zbool :=
  repeat match goal with
  | H : (_ <=? _) = true |- _ => apply Z.leb_le in H
  | H : (_ <=? _) = false |- _ => apply Z.leb_gt in H
  | H : (_ <? _) = true |- _ => apply Z.ltb_lt in H
  | H : (_ <? _) = false |- _ => apply Z.ltb_ge in H
  | H : (_ =? _) = true |- _ => apply Z.eqb_eq in H
  | H : (_ =? _) = false |- _ => apply Z.eqb_neq in H
  | H : (_ >? _) = true |- _ => rewrite Z.gtb_ltb in H
  | H : (_ >? _) = false |- _ => rewrite Z.gtb_ltb in H
  | H : (_ >=? _) = true |- _ => rewrite Z.geb_leb in H
  | H : (_ >=? _) = false |- _ => rewrite Z.geb_leb in H
  | H : (_ && _) = true |- _ => apply andb_true_iff in H as [? ?]
  | H : (_ || _) = false |- _ => apply orb_false_iff in H as [? ?]
  | H : negb _ = true |- _ => apply negb_true_iff in H
  | H : negb _ = false |- _ => apply negb_false_iff in H
  | H : bool_decide _ = true |- _ => apply bool_decide_eq_true in H
  | H : bool_decide _ = false |- _ => apply bool_decide_eq_false in H
  end.

(** Splits the first conditional of the goal and decodes the test. *)
Ltac case_if :=
  match goal with
  | |- context [if ?b then _ else _] =>
      match type of b with
      | bool => destruct b eqn:?; zbool
      | _ => destruct b
      end
  end.

Ltac unfold_words :=
  unfold u8, u16, u32, u64, i64, is_u8, is_u16, is_u32, is_u64 in *;
  change (2 ^ 8) with 256 in *; change (2 ^ 16) with 65536 in *;
  change (2 ^ 32) with 4294967296 in *;
  change (2 ^ 63) with 9223372036854775808 in *;
  change (2 ^ 64) with 18446744073709551616 in *.

(** Arithmetic with [div] and [mod] by constants. *)
Ltac zdm := Z.div_mod_to_equations; lia.

(** ** Word lemmas *)

Lemma is_u8_u8 x : is_u8 (u8 x).
Proof. unfold is_u8, u8. apply Z.mod_pos_bound. lia. Qed.

Lemma is_u16_u16 x : is_u16 (u16 x).
Proof. unfold is_u16, u16. apply Z.mod_pos_bound. lia. Qed.

Lemma is_u32_u32 x : is_u32 (u32 x).
Proof. unfold is_u32, u32. apply Z.mod_pos_bound. lia. Qed.

Lemma is_u64_u64 x : is_u64 (u64 x).
Proof. unfold is_u64, u64. apply Z.mod_pos_bound. lia. Qed.

Lemma u64_small x : is_u64 x -> u64 x = x.
Proof. intros ?. apply Z.mod_small. done. Qed.

Lemma u32_small x : is_u32 x -> u32 x = x.
Proof. intros ?. apply Z.mod_small. done. Qed.

Lemma u16_small x : is_u16 x -> u16 x = x.
Proof. intros ?. apply Z.mod_small. done. Qed.

Lemma u8_small x : is_u8 x -> u8 x = x.
Proof. intros ?. apply Z.mod_small. done. Qed.

#[export] Hint Resolve is_u8_u8 is_u16_u16 is_u32_u32 is_u64_u64 : words.

Lemma land_mask x n : 0 <= n -> Z.land x (2 ^ n - 1) = x mod 2 ^ n.
Proof. intros. rewrite <- Z.land_ones by lia. f_equal. rewrite Z.ones_equiv. lia. Qed.

Lemma shiftr_div x n : 0 <= n -> Z.shiftr x n = x / 2 ^ n.
Proof. apply Z.shiftr_div_pow2. Qed.

(** A bitwise-or stays within the width of its operands. *)
Lemma lor_bound a b n :
  0 <= n -> 0 <= a < 2 ^ n -> 0 <= b < 2 ^ n -> 0 <= Z.lor a b < 2 ^ n.
Proof.
  intros Hn Ha Hb. split; [apply Z.lor_nonneg; lia|].
  assert (Z.lor a b = Z.lor a b mod 2 ^ n) as ->; [|apply Z.mod_pos_bound; lia].
  rewrite <- Z.land_ones by lia. rewrite Z.land_lor_distr_l.
  rewrite !Z.land_ones, !Z.mod_small by lia. done.
Qed.

(** ** Byte-string lemmas *)

Lemma length_zeros n : length (zeros n) = n.
Proof. apply length_replicate. Qed.

Lemma is_bytes_zeros n : is_bytes (zeros n).
Proof. apply Forall_replicate. unfold_words. lia. Qed.

Lemma is_bytes_app a b : is_bytes (a ++ b) <-> is_bytes a /\ is_bytes b.
Proof. apply Forall_app. Qed.

Lemma length_le_put n x : length (le_put n x) = n.
Proof. revert x. induction n; simpl; auto. Qed.

Lemma length_be_put n x : length (be_put n x) = n.
Proof. unfold be_put. by rewrite length_rev, length_le_put. Qed.

Lemma is_bytes_le_put n x : is_bytes (le_put n x).
Proof.
  revert x. induction n as [|n IH]; simpl; intros; constructor; [|apply IH].
  unfold_words. zdm.
Qed.

Lemma is_bytes_be_put n x : is_bytes (be_put n x).
Proof. apply Forall_rev, is_bytes_le_put. Qed.

#[export] Hint Resolve is_bytes_zeros is_bytes_le_put is_bytes_be_put : words.

#[export] Hint Rewrite @length_app length_zeros length_le_put length_be_put : words.

Lemma pow256_S n : 256 ^ Z.of_nat (S n) = 256 * 256 ^ Z.of_nat n.
Proof. rewrite Nat2Z.inj_succ, Z.pow_succ_r; lia. Qed.

Lemma le_uint_bound bs : is_bytes bs -> 0 <= le_uint bs < 256 ^ zlen bs.
Proof.
  unfold zlen. induction 1 as [|b bs Hb _ IH]; [simpl; lia|].
  cbn [le_uint length]. rewrite pow256_S. unfold_words. lia.
Qed.

Lemma le_uint_put n x : le_uint (le_put n x) = x mod 256 ^ Z.of_nat n.
Proof.
  revert x. induction n as [|n IH]; intros; [simpl; by rewrite Z.mod_1_r|].
  cbn [le_uint le_put]. rewrite IH, pow256_S, Z.rem_mul_r; lia.
Qed.

Lemma le_put_uint bs : is_bytes bs -> le_put (length bs) (le_uint bs) = bs.
Proof.
  induction 1 as [|b bs Hb _ IH]; [done|].
  cbn [le_uint le_put length]. unfold_words. f_equal.
  - rewrite Z.mul_comm, Z.mod_add by lia. apply Z.mod_small. lia.
  - rewrite Z.mul_comm, Z.div_add by lia. rewrite Z.div_small by lia. apply IH.
Qed.

Lemma be_uint_put n x : be_uint (be_put n x) = x mod 256 ^ Z.of_nat n.
Proof. unfold be_uint, be_put. by rewrite rev_involutive, le_uint_put. Qed.

Lemma be_put_uint bs : is_bytes bs -> be_put (length bs) (be_uint bs) = bs.
Proof.
  intros H. unfold be_uint, be_put.
  rewrite <- (length_rev bs), le_put_uint by by apply Forall_rev.
  apply rev_involutive.
Qed.

Lemma be_uint_bound bs : is_bytes bs -> 0 <= be_uint bs < 256 ^ zlen bs.
Proof.
  intros H. unfold be_uint. pose proof (le_uint_bound (rev bs)) as Hb.
  unfold zlen in *. rewrite length_rev in Hb. apply Hb. by apply Forall_rev.
Qed.

Lemma le_uint_app a b : le_uint (a ++ b) = le_uint a + 256 ^ zlen a * le_uint b.
Proof.
  unfold zlen. induction a as [|x a IH]; [cbn [le_uint app length]; lia|].
  cbn [le_uint app length]. rewrite IH, pow256_S. lia.
Qed.

Lemma be_uint_app a b : be_uint (a ++ b) = be_uint a * 256 ^ zlen b + be_uint b.
Proof.
  unfold be_uint. rewrite rev_app_distr, le_uint_app. unfold zlen.
  rewrite length_rev. lia.
Qed.

Lemma be_uint_snoc a x : be_uint (a ++ [x]) = be_uint a * 256 + x.
Proof. rewrite be_uint_app. unfold be_uint, zlen. simpl. lia. Qed.

(** Reading back from the front of a longer slice. *)
Lemma le_get_app n x rest :
  0 <= x < 256 ^ Z.of_nat n -> le_get n (le_put n x ++ rest) = Some x.
Proof.
  intros Hx. unfold le_get. rewrite decide_True.
  - rewrite take_app_length' by by rewrite length_le_put.
    by rewrite le_uint_put, Z.mod_small.
  - rewrite length_app, length_le_put. lia.
Qed.

Lemma copy_full dst src : length dst = length src -> copy dst src = src.
Proof.
  intros H. unfold copy. rewrite H, firstn_all, <- H, drop_all. apply app_nil_r.
Qed.

Lemma length_copy dst src : length (copy dst src) = length dst.
Proof. unfold copy. rewrite length_app, length_take, length_drop. lia. Qed.

Lemma copy_at_mid pre mid post src :
  length src = length mid ->
  copy_at (pre ++ mid ++ post) (length pre) src = pre ++ src ++ post.
Proof.
  intros H. unfold copy_at, copy.
  rewrite take_app_length, drop_app_length. f_equal.
  rewrite (take_ge src) by (rewrite length_app; lia).
  by rewrite H, drop_app_length.
Qed.

(** ** Order of byte strings *)

Lemma be_uint_cons x a : be_uint (x :: a) = x * 256 ^ zlen a + be_uint a.
Proof. change (x :: a) with ([x] ++ a). rewrite be_uint_app. f_equal. unfold be_uint. simpl. lia. Qed.

(** On strings of one length [bytes.Compare] is the order of the big-endian
    numbers they spell. *)
Lemma bytes_compare_be a b :
  is_bytes a -> is_bytes b -> length a = length b ->
  bytes_compare a b = (be_uint a ?= be_uint b).
Proof.
  intros Ha. revert b. induction Ha as [|x a Hx Ha IH]; intros [|y b] Hb Hl;
    try discriminate; [done|].
  inversion Hb as [|? ? Hy Hb']; subst. injection Hl as Hl.
  cbn [bytes_compare]. rewrite !be_uint_cons.
  pose proof (be_uint_bound a Ha) as Ba. pose proof (be_uint_bound b Hb') as Bb.
  unfold zlen in *. rewrite Hl in *. set (M := 256 ^ Z.of_nat (length b)) in *.
  destruct (Z.compare_spec x y) as [->|Hlt|Hgt].
  - rewrite IH by done. destruct (Z.compare_spec (be_uint a) (be_uint b)); symmetry.
    + apply Z.compare_eq_iff. lia.
    + apply Z.compare_lt_iff. lia.
    + apply Z.compare_gt_iff. lia.
  - symmetry. apply Z.compare_lt_iff. nia.
  - symmetry. apply Z.compare_gt_iff. nia.
Qed.

Lemma bytes_eqb_eq a b : bytes_eqb a b = true <-> a = b.
Proof. unfold bytes_eqb. by rewrite bool_decide_eq_true. Qed.

Lemma bytes_eqb_refl a : bytes_eqb a a = true.
Proof. by apply bytes_eqb_eq. Qed.

(** ** Lists *)

(** [Forall] of a list updated in place. *)
Lemma list_choice {A B} (R : A -> B -> Prop) l :
  (forall x, x ∈ l -> exists y, R x y) -> exists l', Forall2 R l l'.
Proof.
  induction l as [|x l IH]; intros H; [by exists []|].
  destruct (H x ltac:(left)) as [y Hy]. destruct IH as [l' Hl']; [intros z Hz; apply H; by right|].
  exists (y :: l'). by constructor.
Qed.

Lemma Forall_list_insert {A} (P : A -> Prop) (l : list A) i x :
  Forall P l -> P x -> Forall P (<[i := x]> l).
Proof. intros Hl Hx. by apply Forall_insert. Qed.
