(* ===== verification/Setters.v ===== *)
(** * Record updates

    [r <| f := v |>] is the record [r] with field [f] replaced. A record type
    supports the notation through an instance of [Settable] that lists its
    fields; the updates reduce to applications of the constructor to folded
    projections. *)

From stdpp Require Import base.

(** The record rebuilt from its fields. *)
Class Settable (R : Type) := rebuild : R -> R.

(** The update of one field. *)
Class Setter {R E : Type} (getter : R -> E) := set : (E -> E) -> R -> R.

Arguments set {R E} getter {_} _ _ : assert.

Ltac term_head t :=
  lazymatch t with
  | ?f _ => term_head f
  | _ => t
  end.

(** Abstracts the field out of the rebuilt record. *)
Ltac find_setter R E getter :=
  let inst := lazymatch constr:(@rebuild R _) with @rebuild _ ?i => i end in
  let instance_head := term_head inst in
  exact (fun (new_field : E -> E) (the_record : R) => ltac:(
    let e := eval cbv beta delta [rebuild instance_head] in (rebuild the_record) in
    let p := eval pattern (getter the_record) in e in
    lazymatch p with
    | ?F (getter the_record) => let b := eval cbv beta in (F (new_field (getter the_record))) in exact b
    end)).

#[export] Hint Extern 1 (@Setter ?R ?E ?getter) => find_setter R E getter : typeclass_instances.

Declare Scope update_scope.
Open Scope update_scope.

Notation "x <| proj ::= f |>" := (set proj f x)
  (at level 12, proj at level 10, f at level 99, left associativity) : update_scope.
Notation "x <| proj := v |>" := (set proj (fun _ => v) x)
  (at level 12, proj at level 10, v at level 99, left associativity) : update_scope.
Notation "x <| proj1 ; proj2 := v |>" := (set proj1 (set proj2 (fun _ => v)) x)
  (at level 12, proj1 at level 10, proj2 at level 10, v at level 99, left associativity) : update_scope.
Notation "x <| proj1 ; proj2 ::= f |>" := (set proj1 (set proj2 f) x)
  (at level 12, proj1 at level 10, proj2 at level 10, f at level 99, left associativity) : update_scope.
