(* ===== verification/Replay.v ===== *)
(** * Anti-replay window (src/wireguard-go/replay/replay.go)

    [Filter] is the RFC 6479 ring of 128 blocks of 64 bits with the highest
    counter seen; [Reset] and [ValidateCounter] are the two operations.  The
    abstract filter [spec_filter] keeps the set of all accepted counters; the
    simulation relation [represents] ties the ring to it, [ValidateCounter]
    refines [spec_validate], and runs of the code never accept a counter
    twice. *)

From stdpp Require Import base numbers list gmap.
From S2P Require Import Prelude.

Open Scope Z_scope.

(** ** The code *)

Definition blockBitLog : Z := 6.

Definition blockBits : Z := Z.shiftl 1 blockBitLog.

Definition ringBlocks : Z := Z.shiftl 1 7.

Definition windowSize : Z := (ringBlocks - 1) * blockBits.

Definition blockMask : Z := ringBlocks - 1.

Definition bitMask : Z := blockBits - 1.

Record Filter := mkFilter {
  filter_last : Z;       (* last uint64 *)
  filter_ring : list Z   (* ring [ringBlocks]block *)
}.

Definition zero_filter : Filter :=
  mkFilter 0 (replicate (Z.to_nat ringBlocks) 0).

Definition Reset (f : Filter) : Filter :=
  mkFilter 0 (<[0%nat := 0]> (filter_ring f)).

(** The body of the clearing loop: [f.ring[i&blockMask] = 0]. *)
Definition clear_block (ring : list Z) (i : Z) : list Z :=
  <[Z.to_nat (Z.land i blockMask) := 0]> ring.

(** [for i := current + 1; i <= current+diff; i++]: the loop variable cannot
    wrap, [current] being a shifted [uint64]. *)
Definition clear_blocks (ring : list Z) (current diff : Z) : list Z :=
  foldl clear_block ring (seqZ (current + 1) diff).

(** The check-and-set of one bit at the end of [ValidateCounter]. *)
Definition check_and_set (f : Filter) (counter indexBlock : Z) : Filter * bool :=
  let indexBlock := Z.land indexBlock blockMask in
  let indexBit := Z.land counter bitMask in
  let old := nth (Z.to_nat indexBlock) (filter_ring f) 0 in
  let new := Z.lor old (u64 (Z.shiftl 1 indexBit)) in
  (mkFilter (filter_last f) (<[Z.to_nat indexBlock := new]> (filter_ring f)),
   negb (old =? new)).

Definition ValidateCounter (f : Filter) (counter limit : Z) : Filter * bool :=
  if counter >=? limit then (f, false)
  else
    let indexBlock := Z.shiftr counter blockBitLog in
    if counter >? filter_last f then
      let current := Z.shiftr (filter_last f) blockBitLog in
      let diff := u64 (indexBlock - current) in
      let diff := if diff >? ringBlocks then ringBlocks else diff in
      let ring := clear_blocks (filter_ring f) current diff in
      check_and_set (mkFilter counter ring) counter indexBlock
    else if u64 (filter_last f - counter) >? windowSize then (f, false)
    else check_and_set f counter indexBlock.

(** A run of the filter on a list of counters, with the verdicts. *)
Fixpoint validate_all (f : Filter) (limit : Z) (cs : list Z) : Filter * list bool :=
  match cs with
  | [] => (f, [])
  | c :: cs =>
      let '(f, ok) := ValidateCounter f c limit in
      let '(f, oks) := validate_all f limit cs in (f, ok :: oks)
  end.

(** The counters a run accepted, in order. *)
Fixpoint accepted (cs : list Z) (oks : list bool) : list Z :=
  match cs, oks with
  | c :: cs, true :: oks => c :: accepted cs oks
  | _ :: cs, false :: oks => accepted cs oks
  | _, _ => []
  end.

(** ** The promise *)

(** The abstract filter: the highest counter and all accepted ones. *)
Record spec_filter := mkSpec { spec_last : Z; spec_seen : gset Z }.

Definition spec_validate (s : spec_filter) (counter limit : Z) : spec_filter * bool :=
  if decide (limit <= counter) then (s, false)
  else if decide (spec_last s < counter) then
    (mkSpec counter ({[counter]} ∪ spec_seen s), true)
  else if decide (windowSize < spec_last s - counter \/ counter ∈ spec_seen s)
  then (s, false)
  else (mkSpec (spec_last s) ({[counter]} ∪ spec_seen s), true).

(** The bit of the ring that stands for counter [c]. *)
Definition ring_bit (ring : list Z) (c : Z) : bool :=
  Z.testbit (nth (Z.to_nat (Z.land (Z.shiftr c blockBitLog) blockMask)) ring 0)
    (Z.land c bitMask).

(** [c] lies in one of the 128 blocks that end with the block of [last]. *)
Definition covered (last c : Z) : Prop :=
  0 <= c /\ last / 64 - 127 <= c / 64 <= last / 64.

Record represents (f : Filter) (s : spec_filter) : Prop := {
  rep_len : length (filter_ring f) = 128%nat;
  rep_words : Forall is_u64 (filter_ring f);
  rep_last : filter_last f = spec_last s;
  rep_u64 : is_u64 (spec_last s);
  rep_seen : forall c, c ∈ spec_seen s -> 0 <= c <= spec_last s;
  rep_bits : forall c, covered (spec_last s) c ->
    ring_bit (filter_ring f) c = bool_decide (c ∈ spec_seen s)
}.

(** ** Lemmas *)

Lemma block_index x : Z.land x blockMask = x mod 128.
Proof. exact (land_mask x 7 ltac:(lia)). Qed.

Lemma bit_index x : Z.land x bitMask = x mod 64.
Proof. exact (land_mask x 6 ltac:(lia)). Qed.

Lemma block_of x : Z.shiftr x blockBitLog = x / 64.
Proof. exact (shiftr_div x 6 ltac:(lia)). Qed.

Lemma ring_bit_eq ring c :
  ring_bit ring c = Z.testbit (nth (Z.to_nat ((c / 64) mod 128)) ring 0) (c mod 64).
Proof. unfold ring_bit. by rewrite block_index, bit_index, block_of. Qed.

Lemma nth_list_insert (l : list Z) i j x d :
  (i < length l)%nat ->
  nth j (<[i := x]> l) d = if decide (i = j) then x else nth j l d.
Proof.
  intros Hi. rewrite !nth_lookup, list_lookup_insert.
  repeat case_decide; done || lia.
Qed.

Lemma length_clear_blocks ring cur diff :
  length (clear_blocks ring cur diff) = length ring.
Proof.
  unfold clear_blocks. generalize (seqZ (cur + 1) diff). intros l.
  revert ring. induction l as [|i l IH]; intros ring; [done|].
  cbn [foldl]. rewrite IH. apply length_insert.
Qed.

(** A block is zeroed when the loop passes an index congruent to it, and is
    left alone otherwise. *)
Lemma nth_foldl_clear l ring b :
  length ring = 128%nat -> 0 <= b < 128 ->
  nth (Z.to_nat b) (foldl clear_block ring l) 0 =
  if decide (Exists (fun i => i mod 128 = b) l) then 0 else nth (Z.to_nat b) ring 0.
Proof.
  revert ring. induction l as [|i l IH]; intros ring Hl Hb; [done|].
  cbn [foldl]. rewrite IH; [|unfold clear_block; by rewrite length_insert|done].
  unfold clear_block. rewrite block_index, nth_list_insert by (rewrite Hl; zdm).
  destruct (decide (Exists _ (i :: l))) as [He|He];
    rewrite Exists_cons in He; repeat case_decide; try tauto; destruct He; try tauto.
  - congruence.
  - left. zdm.
Qed.

Lemma Forall_clear_blocks ring cur diff :
  Forall is_u64 ring -> Forall is_u64 (clear_blocks ring cur diff).
Proof.
  unfold clear_blocks. generalize (seqZ (cur + 1) diff). intros l.
  revert ring. induction l as [|i l IH]; intros ring H; [done|].
  apply IH. apply Forall_list_insert; [done|]. unfold_words. lia.
Qed.

(** The blocks entered by the window are empty, the ones it keeps are kept. *)
Lemma nth_clear_blocks ring cur tgt b :
  length ring = 128%nat -> 0 <= cur < tgt -> tgt - 127 <= b <= tgt ->
  let diff := if 128 <? tgt - cur then 128 else tgt - cur in
  nth (Z.to_nat (b mod 128)) (clear_blocks ring cur diff) 0 =
  if decide (cur < b) then 0 else nth (Z.to_nat (b mod 128)) ring 0.
Proof.
  intros Hl Hc Hb diff. unfold clear_blocks.
  rewrite nth_foldl_clear by (done || zdm).
  assert (Hd : diff = Z.min 128 (tgt - cur)) by (subst diff; case_if; lia).
  destruct (decide (cur < b)) as [Hlt|Hge].
  - rewrite decide_True; [done|]. apply Exists_exists.
    exists (cur + 1 + (b - (cur + 1)) mod 128). split; [apply elem_of_seqZ; zdm|zdm].
  - rewrite decide_False; [done|]. intros (i & Hi & Him)%Exists_exists.
    apply elem_of_seqZ in Hi. zdm.
Qed.

Lemma pow2_bit i j : 0 <= i -> Z.testbit (2 ^ i) j = bool_decide (i = j).
Proof.
  intros. case_bool_decide; subst; [by apply Z.pow2_bits_true|].
  by apply Z.pow2_bits_false.
Qed.

(** Setting bit [i] of a word changes the word exactly when it was clear. *)
Lemma set_bit_changes w i :
  0 <= i -> negb (w =? Z.lor w (2 ^ i)) = negb (Z.testbit w i).
Proof.
  intros Hi. f_equal. destruct (Z.testbit w i) eqn:E.
  - apply Z.eqb_eq, Z.bits_inj'. intros j _. rewrite Z.lor_spec, pow2_bit by done.
    case_bool_decide; subst; rewrite ?E, ?orb_true_r, ?orb_false_r; done.
  - apply Z.eqb_neq. intros Heq. rewrite Heq, Z.lor_spec, pow2_bit in E by done.
    by rewrite bool_decide_true, orb_true_r in E.
Qed.

Lemma bit_word c : u64 (Z.shiftl 1 (Z.land c bitMask)) = 2 ^ (c mod 64).
Proof.
  rewrite bit_index, Z.shiftl_1_l. apply u64_small. split; [apply Z.pow_nonneg; lia|].
  apply Z.pow_lt_mono_r; zdm.
Qed.

(** Two counters of the covered blocks share a ring bit only when equal. *)
Lemma covered_inj last c d :
  covered last c -> covered last d ->
  (c / 64) mod 128 = (d / 64) mod 128 -> c mod 64 = d mod 64 -> c = d.
Proof. unfold covered. intros. zdm. Qed.

(** What [check_and_set] returns and how it changes the bits of the window. *)
Lemma check_and_set_spec f c f' ok :
  length (filter_ring f) = 128%nat -> Forall is_u64 (filter_ring f) ->
  check_and_set f c (Z.shiftr c blockBitLog) = (f', ok) ->
  ok = negb (ring_bit (filter_ring f) c) /\ filter_last f' = filter_last f /\
  length (filter_ring f') = 128%nat /\ Forall is_u64 (filter_ring f') /\
  (forall last d, covered last c -> covered last d ->
    ring_bit (filter_ring f') d = bool_decide (d = c) || ring_bit (filter_ring f) d).
Proof.
  intros Hl Hw. unfold check_and_set.
  rewrite bit_word, block_index, block_of. intros [= <- <-]. cbn [filter_ring filter_last].
  set (b := Z.to_nat ((c / 64) mod 128)).
  assert (Hb : (b < length (filter_ring f))%nat) by (rewrite Hl; subst b; zdm).
  assert (Hm : 0 <= c mod 64 < 64) by zdm.
  split_and!; [|done|by rewrite length_insert| |].
  - rewrite set_bit_changes, ring_bit_eq by lia. done.
  - apply Forall_list_insert; [done|]. apply lor_bound; [lia| |].
    + rewrite nth_lookup. destruct (filter_ring f !! b) eqn:E; simpl; [|lia].
      exact (Forall_lookup_1 _ _ _ _ Hw E).
    + split; [apply Z.pow_nonneg; lia|]. apply Z.pow_lt_mono_r; lia.
  - intros last d Hc Hd. rewrite !ring_bit_eq, nth_list_insert by done.
    case_decide as Hbd; [|rewrite bool_decide_false; [done|by intros ->]].
    rewrite Z.lor_spec, pow2_bit, orb_comm by lia. rewrite Hbd. f_equal.
    apply bool_decide_ext. split; [|by intros ->]. intros Hbit. symmetry.
    apply (covered_inj last); [done..| |done]. subst b. zdm.
Qed.

(** The last step of [ValidateCounter], seen from the abstract side. *)
Lemma check_and_set_represents f c (seen : gset Z) f' ok :
  length (filter_ring f) = 128%nat -> Forall is_u64 (filter_ring f) ->
  is_u64 (filter_last f) -> 0 <= c <= filter_last f -> covered (filter_last f) c ->
  (forall d, d ∈ seen -> 0 <= d <= filter_last f) ->
  (forall d, covered (filter_last f) d ->
    ring_bit (filter_ring f) d = bool_decide (d ∈ seen)) ->
  check_and_set f c (Z.shiftr c blockBitLog) = (f', ok) ->
  ok = negb (bool_decide (c ∈ seen)) /\
  represents f' (mkSpec (filter_last f) ({[c]} ∪ seen)).
Proof.
  intros Hl Hw Hu Hc Hcov Hseen Hbits Hcs.
  destruct (check_and_set_spec _ _ _ _ Hl Hw Hcs) as (-> & Hlast & Hl' & Hw' & Hb').
  split; [by rewrite Hbits|]. split; cbn [spec_last spec_seen]; try done.
  - intros d. rewrite elem_of_union, elem_of_singleton. naive_solver.
  - intros d Hd. rewrite (Hb' _ _ Hcov Hd), Hbits by done.
    rewrite <- bool_decide_or. apply bool_decide_ext. set_solver.
Qed.

Lemma in_window_covered last c :
  0 <= c <= last -> last - c <= windowSize -> covered last c.
Proof. unfold covered, windowSize. change (ringBlocks - 1) with 127. change blockBits with 64. intros. zdm. Qed.

(** Moving the window forward keeps exactly the seen counters it still covers. *)
Lemma advance_bits ring last c (seen : gset Z) d :
  length ring = 128%nat -> 0 <= last < c ->
  (forall e, e ∈ seen -> 0 <= e <= last) ->
  (forall e, covered last e -> ring_bit ring e = bool_decide (e ∈ seen)) ->
  covered c d ->
  let diff := if 128 <? c / 64 - last / 64 then 128 else c / 64 - last / 64 in
  ring_bit (clear_blocks ring (last / 64) diff) d = bool_decide (d ∈ seen).
Proof.
  intros Hl Hlt Hseen Hbits Hd diff. rewrite ring_bit_eq.
  destruct (decide (last / 64 < c / 64)) as [Hblk|Hblk].
  - subst diff. rewrite nth_clear_blocks; [|done|zdm|unfold covered in Hd; lia].
    case_decide as Hnew.
    + rewrite Z.testbit_0_l. symmetry. apply bool_decide_eq_false.
      intros ?%Hseen. zdm.
    + rewrite <- ring_bit_eq. apply Hbits. unfold covered in *. lia.
  - assert (diff = 0) as -> by (subst diff; case_if; zdm).
    unfold clear_blocks. rewrite seqZ_nil by lia. cbn [foldl].
    rewrite <- ring_bit_eq. apply Hbits. unfold covered in *.
    assert (c / 64 = last / 64) by zdm. lia.
Qed.

(** One call refines one abstract step. *)
Lemma validate_refines f s c limit :
  represents f s -> is_u64 c ->
  represents (ValidateCounter f c limit).1 (spec_validate s c limit).1 /\
  (ValidateCounter f c limit).2 = (spec_validate s c limit).2.
Proof.
  intros [Hl Hw Hlast Hu Hseen Hbits] Hc. unfold ValidateCounter, spec_validate.
  rewrite Z.geb_leb, !Z.gtb_ltb, Hlast.
  destruct (Z.leb_spec limit c) as [Hlim|Hlim];
    [rewrite decide_True by done; split; done|rewrite decide_False by lia].
  destruct (Z.ltb_spec (spec_last s) c) as [Hfwd|Hback].
  - rewrite decide_True by done. rewrite !block_of.
    rewrite u64_small by (unfold_words; zdm).
    change ringBlocks with 128.
    set (diff := if 128 <? c / 64 - spec_last s / 64 then 128 else _).
    set (g := mkFilter c _).
    destruct (check_and_set g c (c / 64)) as [f' ok] eqn:Hcs.
    rewrite <- block_of in Hcs.
    edestruct (check_and_set_represents g c (spec_seen s)) as [Hok Hrep];
      [..|exact Hcs|]; cbn [filter_ring filter_last g] in *.
    + by rewrite length_clear_blocks.
    + by apply Forall_clear_blocks.
    + done.
    + unfold_words. lia.
    + apply in_window_covered; [unfold_words; lia|].
      rewrite Z.sub_diag. by compute.
    + intros d ?%Hseen. lia.
    + intros d Hd. apply (advance_bits _ (spec_last s) c); try done.
      unfold_words. lia.
    + cbn [fst snd]. split; [done|]. rewrite Hok.
      rewrite bool_decide_false; [done|]. intros ?%Hseen. lia.
  - rewrite decide_False by lia. rewrite u64_small by (unfold_words; lia).
    destruct (Z.ltb_spec windowSize (spec_last s - c)) as [Hw'|Hw'];
      [rewrite decide_True by auto; split; done|].
    destruct (check_and_set f c _) as [f' ok] eqn:Hcs.
    rewrite <- Hlast in *.
    edestruct (check_and_set_represents f c (spec_seen s)) as [Hok Hrep];
      [..|exact Hcs|]; try done; try (unfold_words; lia).
    + apply in_window_covered; unfold_words; lia.
    + cbn [fst snd]. destruct (decide (_ \/ _)) as [Hd|Hd]; cbn [fst snd].
      * destruct Hd as [Hd|Hd]; [lia|]. split; [|by rewrite Hok, bool_decide_true].
        replace s with (mkSpec (filter_last f) ({[c]} ∪ spec_seen s)); [done|].
        destruct s as [sl ss]. cbn [spec_last spec_seen] in *. f_equal; [done|set_solver].
      * split; [done|]. rewrite Hok, bool_decide_false; [done|tauto].
Qed.

Lemma reset_represents f :
  length (filter_ring f) = 128%nat -> Forall is_u64 (filter_ring f) ->
  represents (Reset f) (mkSpec 0 ∅).
Proof.
  intros Hl Hw. split; cbn [spec_last spec_seen filter_ring filter_last Reset].
  - by rewrite length_insert.
  - apply Forall_list_insert; [done|]. unfold_words. lia.
  - done.
  - unfold_words. lia.
  - set_solver.
  - intros c Hc. unfold covered in Hc.
    rewrite ring_bit_eq, nth_list_insert by lia.
    rewrite decide_True by zdm. rewrite Z.testbit_0_l. symmetry.
    apply bool_decide_eq_false. set_solver.
Qed.

Lemma zero_filter_represents : represents zero_filter (mkSpec 0 ∅).
Proof.
  change zero_filter with (Reset zero_filter). apply reset_represents; [done|].
  apply Forall_replicate. unfold_words. lia.
Qed.

(** What an accepting and a rejecting abstract step look like. *)
Lemma spec_validate_accept s c limit s' :
  (forall d, d ∈ spec_seen s -> 0 <= d <= spec_last s) ->
  spec_validate s c limit = (s', true) ->
  c ∉ spec_seen s /\ spec_seen s' = {[c]} ∪ spec_seen s.
Proof.
  intros Hs. unfold spec_validate. repeat case_decide; intros [= <-].
  - split; [|done]. intros ?%Hs. lia.
  - split; [tauto|done].
Qed.

Lemma spec_validate_reject s c limit s' :
  spec_validate s c limit = (s', false) -> s' = s.
Proof. unfold spec_validate. repeat case_decide; congruence. Qed.

(** Along a run from a filter that represents [s], the accepted counters are
    new to [s] and pairwise different. *)
Lemma run_accepts_new f s limit cs f' oks :
  represents f s -> Forall is_u64 cs -> validate_all f limit cs = (f', oks) ->
  NoDup (accepted cs oks) /\ (forall c, c ∈ accepted cs oks -> c ∉ spec_seen s).
Proof.
  intros Hrep Hcs. revert f s oks Hrep.
  induction Hcs as [|c cs Hc Hcs IH]; intros f s oks Hrep; cbn [validate_all].
  { intros [= _ <-]. split; [constructor|set_solver]. }
  destruct (ValidateCounter f c limit) as [f1 ok] eqn:E.
  destruct (validate_all f1 limit cs) as [f2 oks'] eqn:E'. intros [= <- <-].
  destruct (validate_refines f s c limit Hrep Hc) as [Hrep1 Hok].
  rewrite E in Hrep1, Hok. cbn [fst snd] in *.
  destruct (spec_validate s c limit) as [s' b] eqn:Es. cbn [fst snd] in *. subst b.
  destruct (IH _ _ _ Hrep1 E') as [Hnd Hnew]. destruct ok; cbn [accepted].
  - apply spec_validate_accept in Es as [Hcn Hseen]; [|apply Hrep].
    split; [constructor; [|done]|]; set_solver.
  - apply spec_validate_reject in Es as ->. done.
Qed.

(** ** Properties *)

(** C22: [ValidateCounter] refines the abstract filter that remembers every
    accepted counter: whatever ring represents the set of accepted counters,
    the verdict is the abstract verdict (over the limit, behind the window or
    already seen is rejected, anything else accepted) and the new ring
    represents the new set. *)
Theorem ValidateCounter_refines (f : Filter) (s : spec_filter) (counter limit : Z) :
  represents f s -> is_u64 counter ->
  represents (ValidateCounter f counter limit).1 (spec_validate s counter limit).1 /\
  (ValidateCounter f counter limit).2 = (spec_validate s counter limit).2.
Proof. apply validate_refines. Qed.

Lemma ValidateCounter_refines_witness :
  (ValidateCounter zero_filter 5 10).2 = (spec_validate (mkSpec 0 ∅) 5 10).2.
Proof.
  apply (ValidateCounter_refines zero_filter (mkSpec 0 ∅) 5 10);
    [apply zero_filter_represents|by compute].
Defined.

(** C6: no replay: after [Reset] of a filter in any state, a run over any
    list of 64-bit counters accepts no counter twice. *)
Theorem no_replay (f : Filter) (limit : Z) (cs : list Z) :
  length (filter_ring f) = 128%nat -> Forall is_u64 (filter_ring f) ->
  Forall is_u64 cs ->
  NoDup (accepted cs (validate_all (Reset f) limit cs).2).
Proof.
  intros Hl Hw Hcs. destruct (validate_all (Reset f) limit cs) as [f' oks] eqn:E.
  by destruct (run_accepts_new _ _ _ _ _ _ (reset_represents f Hl Hw) Hcs E).
Qed.

Lemma no_replay_witness :
  NoDup (accepted [3; 3; 9000; 4; 9000; 1000]
    (validate_all (Reset zero_filter) 10000 [3; 3; 9000; 4; 9000; 1000]).2).
Proof.
  apply (no_replay zero_filter 10000 [3; 3; 9000; 4; 9000; 1000]);
    [reflexivity|decide_closed|decide_closed].
Defined.
