(* ===== verification/Tai64n.v ===== *)
(** * Handshake timestamps (src/wireguard-go/tai64n/tai64n.go)

    [stamp] encodes a wall-clock time as 12 big-endian bytes with the low 24
    bits of the nanoseconds cleared, and [After] compares two of them as byte
    strings.  The theorems read the byte comparison back as a comparison of
    times. *)

From stdpp Require Import base numbers list.
From S2P Require Import Prelude.

Open Scope Z_scope.

(** ** The code *)

Definition TimestampSize : nat := 12.

Definition base : Z := 0x400000000000000a.

Definition whitenerMask : Z := 0x1000000 - 1.

(** [time.Time] as the code reads it: [t.Unix()] and [t.Nanosecond()]. *)
Record Time := mkTime { Unix : Z; Nanosecond : Z }.

(** [x &^ y] *)
Definition and_not (x y : Z) : Z := Z.ldiff x y.

Definition stamp_secs (t : Time) : Z := u64 (base + u64 (Unix t)).

Definition stamp_nano (t : Time) : Z := and_not (u32 (Nanosecond t)) whitenerMask.

Definition stamp (t : Time) : list Z :=
  let tai64n := zeros TimestampSize in
  let tai64n := copy tai64n (be_put 8 (stamp_secs t)) in
  copy_at tai64n 8 (be_put 4 (stamp_nano t)).

Definition After (t1 t2 : list Z) : bool :=
  match bytes_compare t1 t2 with Gt => true | _ => false end.

(** The arguments [String] passes to [time.Unix]: the decoded seconds and
    nanoseconds. *)
Definition String_time (t : list Z) : Z * Z :=
  (i64 (u64 (be_uint (take 8 t) - base)), be_uint (take 4 (drop 8 t))).

(** ** What a valid time is *)

(** Nanoseconds below one second, seconds in the signed range of [Unix] that
    the TAI64 label covers (2^62 seconds around the epoch). *)
Definition valid_time (t : Time) : Prop :=
  - 2 ^ 62 <= Unix t < 2 ^ 62 /\ 0 <= Nanosecond t < 1000000000.

(** Nanoseconds since the epoch. *)
Definition nanos (t : Time) : Z := Unix t * 1000000000 + Nanosecond t.

(** ** Lemmas *)

Lemma whitened n : 0 <= n < 2 ^ 32 -> and_not (u32 n) whitenerMask = n / 2 ^ 24 * 2 ^ 24.
Proof.
  intros Hn. unfold and_not. rewrite u32_small by done.
  change whitenerMask with (Z.ones 24).
  rewrite Z.ldiff_ones_r, Z.shiftl_mul_pow2, Z.shiftr_div_pow2 by lia. done.
Qed.

Lemma stamp_secs_valid t : valid_time t -> stamp_secs t = base + Unix t.
Proof.
  intros [? ?]. unfold stamp_secs, base, u64.
  rewrite Zplus_mod_idemp_r, Z.mod_small; lia.
Qed.

Lemma stamp_nano_valid t :
  valid_time t -> stamp_nano t = Nanosecond t / 2 ^ 24 * 2 ^ 24.
Proof. intros [? ?]. apply whitened. lia. Qed.

Lemma stamp_eq t : stamp t = be_put 8 (stamp_secs t) ++ be_put 4 (stamp_nano t).
Proof.
  unfold stamp. change (zeros TimestampSize) with (zeros 8 ++ zeros 4).
  assert (H : copy (zeros 8 ++ zeros 4) (be_put 8 (stamp_secs t)) =
    be_put 8 (stamp_secs t) ++ zeros 4).
  { exact (copy_at_mid [] (zeros 8) (zeros 4) _ (length_be_put _ _)). }
  rewrite H.
  pose proof (copy_at_mid (be_put 8 (stamp_secs t)) (zeros 4) []
    (be_put 4 (stamp_nano t)) (length_be_put _ _)) as H'.
  rewrite length_be_put, !app_nil_r in H'. exact H'.
Qed.

Lemma length_stamp t : length (stamp t) = TimestampSize.
Proof. rewrite stamp_eq, length_app, !length_be_put. done. Qed.

Lemma is_bytes_stamp t : is_bytes (stamp t).
Proof. rewrite stamp_eq. apply is_bytes_app. auto with words. Qed.

(** The number spelled by a stamp. *)
Lemma stamp_number t :
  valid_time t ->
  be_uint (stamp t) = (base + Unix t) * 2 ^ 32 + Nanosecond t / 2 ^ 24 * 2 ^ 24.
Proof.
  intros Hv. rewrite stamp_eq, be_uint_app, !be_uint_put.
  rewrite stamp_secs_valid, stamp_nano_valid by done.
  unfold zlen. rewrite length_be_put. destruct Hv as [? ?].
  change (256 ^ Z.of_nat 8) with (2 ^ 64). change (256 ^ Z.of_nat 4) with (2 ^ 32).
  rewrite !Z.mod_small; [lia| |unfold base; lia]. zdm.
Qed.

Lemma After_number t1 t2 :
  is_bytes t1 -> is_bytes t2 -> length t1 = length t2 ->
  After t1 t2 = true <-> be_uint t2 < be_uint t1.
Proof.
  intros. unfold After. rewrite bytes_compare_be by done.
  destruct (Z.compare_spec (be_uint t1) (be_uint t2)); split; intros; lia || done.
Qed.

Lemma After_stamp t1 t2 :
  valid_time t1 -> valid_time t2 ->
  After (stamp t1) (stamp t2) = true <->
  Unix t2 < Unix t1 \/
  Unix t2 = Unix t1 /\ Nanosecond t2 / 2 ^ 24 < Nanosecond t1 / 2 ^ 24.
Proof.
  intros H1 H2. rewrite After_number by (apply is_bytes_stamp || by rewrite !length_stamp).
  rewrite !stamp_number by done. destruct H1 as [? ?], H2 as [? ?]. zdm.
Qed.

(** [After] is a strict order on timestamps. *)
Lemma After_irrefl t : After t t = false.
Proof.
  unfold After. induction t as [|x t IH]; [done|]. cbn. by rewrite Z.compare_refl.
Qed.

Lemma After_trans a b c : After a b = true -> After b c = true -> After a c = true.
Proof.
  unfold After. revert b c. induction a as [|x a IH]; intros [|y b] [|z c]; cbn; try done.
  destruct (Z.compare_spec x y), (Z.compare_spec y z), (Z.compare_spec x z); subst;
    try done; try lia. apply IH.
Qed.

(** ** Properties *)

(** [After] on stamps is the order of the times at the granularity the
    whitening leaves: later seconds, or the same second and a later multiple
    of 2^24 nanoseconds (about 16.8 ms). *)
Theorem After_stamp_order (t1 t2 : Time) :
  valid_time t1 -> valid_time t2 ->
  After (stamp t1) (stamp t2) = true <->
  Unix t2 < Unix t1 \/
  Unix t2 = Unix t1 /\ Nanosecond t2 / 2 ^ 24 < Nanosecond t1 / 2 ^ 24.
Proof. apply After_stamp. Qed.

(** Handshakes stamped at increasing times are never taken for replays of
    later ones, and any two times at least 2^24 ns apart get stamps in strict
    order: if [t2] is not after [t1] its stamp is not [After] that of [t1],
    and if [t1] is 2^24 ns or more later than [t2] its stamp is [After]. *)
Theorem After_monotone (t1 t2 : Time) :
  valid_time t1 -> valid_time t2 ->
  (nanos t2 <= nanos t1 -> After (stamp t2) (stamp t1) = false) /\
  (nanos t2 + 2 ^ 24 <= nanos t1 -> After (stamp t1) (stamp t2) = true).
Proof.
  intros H1 H2. unfold nanos. split; intros Hle.
  - apply not_true_iff_false. rewrite After_stamp by done.
    destruct H1 as [? ?], H2 as [? ?]. zdm.
  - apply After_stamp; [done..|]. destruct H1 as [? ?], H2 as [? ?]. zdm.
Qed.

