(* ===== verification/Ratelimiter.v ===== *)
(** * Per-address token bucket (src/wireguard-go/ratelimiter/ratelimiter.go)

    [Ratelimiter] holds a table of token buckets and the state of the garbage
    collection goroutine; [Init], [Close], [Allow] and [cleanup] are its
    operations, [gc_*] the branches of the goroutine's [select].  Times are
    nanoseconds.  The main theorem bounds the packets an address gets through
    in any run of calls and collections. *)

From stdpp Require Import base numbers list gmap.
From S2P Require Import Prelude.

Open Scope Z_scope.

(** ** The code *)

Definition second : Z := 1000000000.

Definition packetsPerSecond : Z := 20.

Definition packetsBurstable : Z := 5.

Definition garbageCollectTime : Z := second.

Definition packetCost : Z := 1000000000 / packetsPerSecond.

Definition maxTokens : Z := packetCost * packetsBurstable.

(** [netip.Addr] as the bytes of the address. *)
Notation Addr := (list Z).

Record RatelimiterEntry := mkEntry {
  lastTime : Z;   (* lastTime time.Time *)
  tokens : Z      (* tokens int64 *)
}.

(** The goroutine started by [Init]: [stopReset] tells whether a channel has
    been made and whether it was closed, [ticking] whether the ticker runs. *)
Inductive stop_chan := NoChan | OpenChan | ClosedChan.

Record Ratelimiter := mkRate {
  stopReset : stop_chan;
  ticking : bool;
  table : gmap Addr RatelimiterEntry
}.

(** The zero value of the struct. *)
Definition zero_ratelimiter : Ratelimiter := mkRate NoChan false ∅.

(** [Close]: closing a closed channel panics. *)
Definition Close (rate : Ratelimiter) : option Ratelimiter :=
  match stopReset rate with
  | NoChan => Some rate
  | OpenChan => Some (mkRate ClosedChan false (table rate))
  | ClosedChan => None
  end.

Definition Init (rate : Ratelimiter) : option Ratelimiter :=
  match stopReset rate with
  | ClosedChan => None
  | _ => Some (mkRate OpenChan false ∅)
  end.

(** [time.Time.Sub] saturates to the range of [time.Duration]. *)
Definition Sub (a b : Z) : Z := Z.max (- 2 ^ 63) (Z.min (2 ^ 63 - 1) (a - b)).

(** [cleanup] with the clock reading [now] of each entry it visits. *)
Definition cleanup (rate : Ratelimiter) (now : Addr -> Z) : Ratelimiter * bool :=
  let table' :=
    filter (fun ke : Addr * RatelimiterEntry =>
      ~ garbageCollectTime < Sub (now ke.1) (lastTime ke.2)) (table rate) in
  (mkRate (stopReset rate) (ticking rate) table', bool_decide (table' = ∅)).

(** The goroutine: a value received from [stopReset] restarts the ticker, a
    tick runs [cleanup] and stops the ticker when the table is empty. *)
Definition gc_reset (rate : Ratelimiter) : Ratelimiter :=
  mkRate (stopReset rate) true (table rate).

Definition gc_tick (rate : Ratelimiter) (now : Addr -> Z) : Ratelimiter :=
  if ticking rate then
    let '(rate, empty) := cleanup rate now in
    if empty then mkRate (stopReset rate) false (table rate) else rate
  else rate.

(** [rate.stopReset <- struct{}{}]: the goroutine of an open channel receives
    the value; a send on a closed channel panics and on a nil one blocks. *)
Definition notify (rate : Ratelimiter) : option Ratelimiter :=
  match stopReset rate with
  | OpenChan => Some (gc_reset rate)
  | _ => None
  end.

(** [Allow] on an address without an entry. *)
Definition allow_new (rate : Ratelimiter) (ip : Addr) (now : Z) : option Ratelimiter :=
  let table' := <[ip := mkEntry now (maxTokens - packetCost)]> (table rate) in
  let rate := mkRate (stopReset rate) (ticking rate) table' in
  if bool_decide (size table' = 1%nat) then notify rate else Some rate.

(** [Allow] on an existing entry. *)
Definition allow_entry (entry : RatelimiterEntry) (now : Z) : RatelimiterEntry * bool :=
  let tok := i64 (tokens entry + Sub now (lastTime entry)) in
  let tok := if tok >? maxTokens then maxTokens else tok in
  if tok >? packetCost then (mkEntry now (tok - packetCost), true)
  else (mkEntry now tok, false).

(** The code looks the address up under a read lock and inserts a new entry under
    a write lock that it takes afterwards, without looking again; here both are
    one step, so that two first packets of an address at once are not covered. *)
Definition Allow (rate : Ratelimiter) (ip : Addr) (now : Z) : option (Ratelimiter * bool) :=
  match table rate !! ip with
  | None => rate ← allow_new rate ip now; Some (rate, true)
  | Some entry =>
      let '(entry, ok) := allow_entry entry now in
      Some (mkRate (stopReset rate) (ticking rate) (<[ip := entry]> (table rate)), ok)
  end.

(** ** Runs *)

(** An event with the time it happens: a packet of some address, or a tick of
    the collector. *)
Inductive event := EAllow (ip : Addr) (now : Z) | ETick (now : Z).

Definition event_time (e : event) : Z :=
  match e with EAllow _ t | ETick t => t end.

(** Runs the events and counts the packets of [ip] let through; [None] when
    one of them panics. *)
Fixpoint run (rate : Ratelimiter) (ip : Addr) (evs : list event) : option (Ratelimiter * Z) :=
  match evs with
  | [] => Some (rate, 0)
  | EAllow a now :: evs =>
      '(rate, ok) ← Allow rate a now;
      '(rate, n) ← run rate ip evs;
      Some (rate, if bool_decide (a = ip) && ok then n + 1 else n)
  | ETick now :: evs => run (gc_tick rate (fun _ => now)) ip evs
  end.

(** Times along the events never go back, start at [t] and end by [t']. *)
Fixpoint times_from (t : Z) (evs : list event) (t' : Z) : Prop :=
  match evs with
  | [] => t <= t'
  | e :: evs => t <= event_time e /\ times_from (event_time e) evs t'
  end.

(** ** Invariant *)

(** An entry is sane at time [t]: used in the past 292 years, with a bucket
    between empty and full. *)
Definition entry_ok (t : Z) (e : RatelimiterEntry) : Prop :=
  0 <= t - lastTime e < 2 ^ 62 /\ 0 <= tokens e <= maxTokens.

Definition table_ok (t : Z) (rate : Ratelimiter) : Prop :=
  map_Forall (fun _ e => entry_ok t e) (table rate).

(** The tokens [ip] could spend at time [t]: a missing entry counts as full. *)
Definition credit (rate : Ratelimiter) (ip : Addr) (t : Z) : Z :=
  match table rate !! ip with
  | None => maxTokens
  | Some e => Z.min maxTokens (tokens e + (t - lastTime e))
  end.

(** ** Lemmas *)

Lemma maxTokens_eq : maxTokens = 250000000. Proof. reflexivity. Qed.

Lemma packetCost_eq : packetCost = 50000000. Proof. reflexivity. Qed.

Ltac consts :=
  rewrite ?maxTokens_eq, ?packetCost_eq in *; unfold garbageCollectTime, second in *.

Lemma Sub_exact a b : 0 <= a - b < 2 ^ 62 -> Sub a b = a - b.
Proof. unfold Sub. lia. Qed.

Lemma i64_small x : - 2 ^ 63 <= x < 2 ^ 63 -> i64 x = x.
Proof. intros. unfold i64. rewrite Z.mod_small; lia. Qed.

(** The bucket arithmetic of [Allow] when the clock runs forward. *)
Lemma allow_entry_spec t e :
  entry_ok t e ->
  let avail := Z.min maxTokens (tokens e + (t - lastTime e)) in
  allow_entry e t =
    if packetCost <? avail then (mkEntry t (avail - packetCost), true)
    else (mkEntry t avail, false).
Proof.
  intros [Ht Hk]. unfold allow_entry. rewrite Sub_exact, i64_small by (consts; lia).
  rewrite !Z.gtb_ltb. consts. cbn zeta.
  destruct (Z.ltb_spec 250000000 (tokens e + (t - lastTime e))).
  - rewrite Z.min_l by lia. done.
  - rewrite Z.min_r by lia. done.
Qed.

Lemma entry_ok_later t t' e : t <= t' -> t' - lastTime e < 2 ^ 62 -> entry_ok t e -> entry_ok t' e.
Proof. unfold entry_ok. lia. Qed.

(** What [Allow] writes: a fresh bucket, or the updated one. *)
Lemma Allow_cases rate a t r ok :
  table_ok t rate -> Allow rate a t = Some (r, ok) ->
  exists e, table r = <[a := e]> (table rate) /\ lastTime e = t /\
    0 <= tokens e <= maxTokens /\
    tokens e = credit rate a t - (if ok then packetCost else 0).
Proof.
  intros Hok. unfold Allow, credit. destruct (table rate !! a) as [e|] eqn:E.
  - pose proof (map_Forall_lookup_1 _ _ _ _ Hok E) as He.
    rewrite (allow_entry_spec _ _ He). cbn zeta. destruct He as [? ?].
    case_if; intros [= <- <-]; eexists; split_and!; try done;
      cbn [lastTime tokens]; consts; lia.
  - unfold allow_new, notify. cbn [stopReset].
    case_if; [destruct (stopReset rate)|]; intros [= <- <-];
      eexists; split_and!; try done; cbn [lastTime tokens]; consts; lia.
Qed.

(** With the goroutine running [Allow] returns. *)
Lemma Allow_open rate a t :
  stopReset rate = OpenChan ->
  exists r ok, Allow rate a t = Some (r, ok) /\ stopReset r = OpenChan.
Proof.
  intros Ho. unfold Allow, allow_new, notify. destruct (table rate !! a).
  - destruct (allow_entry _ _). eauto.
  - cbn [stopReset]. rewrite Ho. case_if; cbn; eauto.
Qed.

Lemma gc_tick_open rate now : stopReset (gc_tick rate now) = stopReset rate.
Proof.
  unfold gc_tick. destruct (ticking rate); [|done].
  destruct (cleanup rate now) as [r b] eqn:E. unfold cleanup in E.
  injection E as <- <-. by case_if.
Qed.

(** [Allow] keeps the table sane. *)
Lemma Allow_table_ok rate ip t r ok :
  table_ok t rate -> Allow rate ip t = Some (r, ok) -> table_ok t r.
Proof.
  intros Hok Ha. destruct (Allow_cases _ _ _ _ _ Hok Ha) as (e & Ht & Hl & Hk & _).
  unfold table_ok. rewrite Ht. apply map_Forall_insert_2; [|done].
  unfold entry_ok. consts. lia.
Qed.

(** A packet is paid from the credit of its address; other credits stay. *)
Lemma Allow_credit rate a ip t r ok :
  table_ok t rate -> Allow rate a t = Some (r, ok) ->
  credit r ip t = credit rate ip t - (if bool_decide (a = ip) && ok then packetCost else 0).
Proof.
  intros Hok Ha. destruct (Allow_cases _ _ _ _ _ Hok Ha) as (e & Ht & Hl & Hk & He).
  unfold credit at 1. rewrite Ht. case_bool_decide as Heq.
  - subst a. rewrite lookup_insert_eq. destruct ok; cbn [andb]; lia.
  - rewrite lookup_insert_ne by done. unfold credit. cbn [andb].
    destruct (table rate !! ip); lia.
Qed.

Lemma table_gc_tick rate now :
  table (gc_tick rate now) = table rate \/
  table (gc_tick rate now) = table (cleanup rate now).1.
Proof.
  unfold gc_tick. destruct (ticking rate); [|auto].
  destruct (cleanup rate now) as [r b] eqn:E. destruct b; cbn; auto.
Qed.

(** Collection removes only buckets that had refilled. *)
Lemma gc_tick_credit rate ip t :
  table_ok t rate -> credit (gc_tick rate (fun _ => t)) ip t = credit rate ip t.
Proof.
  intros Hok. unfold credit. destruct (table_gc_tick rate (fun _ => t)) as [-> | ->]; [done|].
  unfold cleanup. cbn [fst table]. rewrite map_lookup_filter.
  destruct (table rate !! ip) as [e|] eqn:E; cbn; [|done].
  pose proof (map_Forall_lookup_1 _ _ _ _ Hok E) as [? ?].
  rewrite Sub_exact by done. destruct (decide (garbageCollectTime < t - lastTime e)) as [Hgt|Hle].
  - rewrite option_guard_False by tauto. cbn. consts. lia.
  - rewrite option_guard_True by tauto. done.
Qed.

Lemma gc_tick_table_ok rate t :
  table_ok t rate -> table_ok t (gc_tick rate (fun _ => t)).
Proof.
  intros Hok. unfold table_ok.
  destruct (table_gc_tick rate (fun _ => t)) as [-> | ->]; [done|].
  intros i e. cbn [cleanup fst table]. rewrite map_lookup_filter_Some.
  intros [He _]. exact (Hok _ _ He).
Qed.

Lemma table_ok_later rate t t' t0 :
  t <= t' -> t' - t0 < 2 ^ 62 -> table_ok t rate ->
  map_Forall (fun _ e => t0 <= lastTime e) (table rate) -> table_ok t' rate.
Proof.
  intros Hle Hspan Hok Hold i e Hi.
  specialize (Hok i e Hi). specialize (Hold i e Hi). cbn in *.
  eapply entry_ok_later; eauto; lia.
Qed.

Lemma credit_later rate ip t t' :
  t <= t' -> credit rate ip t' <= credit rate ip t + (t' - t).
Proof. intros. unfold credit. destruct (table rate !! ip); lia. Qed.

Lemma credit_nonneg rate ip t : table_ok t rate -> 0 <= credit rate ip t.
Proof.
  intros Hok. unfold credit. destruct (table rate !! ip) as [e|] eqn:E; [|consts; lia].
  destruct (Hok _ _ E) as [? ?]. consts. lia.
Qed.

(** Entries are written at the time of the event, so never before [t0]. *)
Lemma Allow_since rate a t t0 r ok :
  t0 <= t -> table_ok t rate -> Allow rate a t = Some (r, ok) ->
  map_Forall (fun _ e => t0 <= lastTime e) (table rate) ->
  map_Forall (fun _ e => t0 <= lastTime e) (table r).
Proof.
  intros Ht Hok Ha Hs. destruct (Allow_cases _ _ _ _ _ Hok Ha) as (e & -> & Hl & _).
  apply map_Forall_insert_2; [lia|done].
Qed.

Lemma gc_tick_since rate now t0 :
  map_Forall (fun _ e => t0 <= lastTime e) (table rate) ->
  map_Forall (fun _ e => t0 <= lastTime e) (table (gc_tick rate now)).
Proof.
  intros Hs. destruct (table_gc_tick rate now) as [-> | ->]; [done|].
  intros i e. cbn [cleanup fst table]. rewrite map_lookup_filter_Some.
  intros [He _]. exact (Hs _ _ He).
Qed.

Lemma times_from_le t evs t' : times_from t evs t' -> t <= t'.
Proof. revert t. induction evs as [|e evs IH]; cbn; [done|]. intros t [? ?%IH]. lia. Qed.

(** The accounting behind the rate bound: what is let through is paid from
    the credit at the start and the time that passes. *)
Lemma run_bound t0 rate ip evs t t' :
  t0 <= t -> t' - t0 < 2 ^ 62 -> stopReset rate = OpenChan -> table_ok t rate ->
  map_Forall (fun _ e => t0 <= lastTime e) (table rate) ->
  times_from t evs t' ->
  exists r n, run rate ip evs = Some (r, n) /\
    n * packetCost <= credit rate ip t + (t' - t).
Proof.
  revert rate t. induction evs as [|[a now|now] evs IH];
    intros rate t Ht0 Hspan Ho Hok Hs Hts; cbn [times_from run event_time] in *.
  { pose proof (credit_nonneg rate ip t Hok). eexists _, _. split; [done|]. lia. }
  all: destruct Hts as [Hle Hts]; pose proof (times_from_le _ _ _ Hts);
    assert (Hok' : table_ok now rate) by (eapply table_ok_later; eauto; lia);
    pose proof (credit_later rate ip t now Hle).
  - destruct (Allow_open rate a now Ho) as (r & ok & Ha & Ho'). rewrite Ha. cbn.
    pose proof (Allow_credit _ _ ip _ _ _ Hok' Ha) as Hc.
    pose proof (Allow_table_ok _ _ _ _ _ Hok' Ha) as Hok1.
    pose proof (Allow_since rate a now t0 r ok ltac:(lia) Hok' Ha Hs) as Hs1.
    destruct (IH r now) as (r' & n & -> & Hn); [lia|done..|].
    eexists _, _. split; [done|]. cbn. destruct (bool_decide (a = ip) && ok); lia.
  - rewrite <- (gc_tick_credit rate ip now Hok') in *.
    destruct (IH (gc_tick rate (fun _ => now)) now) as (r' & n & -> & Hn);
      [lia|done|by rewrite gc_tick_open|by apply gc_tick_table_ok|by apply gc_tick_since|done|].
    eexists _, _. split; [done|]. lia.
Qed.

(** [k] packets worth of tokens let [k - 1] packets of one instant through. *)
Lemma burst_from ip now k m r :
  table r !! ip = Some (mkEntry now (Z.of_nat k * packetCost)) -> (1 <= k <= 4)%nat ->
  snd <$> run r ip (replicate m (EAllow ip now)) =
  Some (Z.min (Z.of_nat m) (Z.of_nat k - 1)).
Proof.
  revert k r. induction m as [|m IH]; intros k r Hr Hk; [cbn; f_equal; lia|].
  cbn [replicate run]. unfold Allow. rewrite Hr.
  rewrite allow_entry_spec by (unfold entry_ok; cbn [lastTime tokens]; consts; lia).
  cbn [lastTime tokens]. cbn zeta. rewrite Z.sub_diag, Z.add_0_r, Z.min_r by (consts; lia).
  rewrite bool_decide_true by done.
  set (k' := if packetCost <? Z.of_nat k * packetCost then (k - 1)%nat else k).
  specialize (IH k' (mkRate (stopReset r) (ticking r)
    (<[ip := mkEntry now (Z.of_nat k' * packetCost)]> (table r)))).
  cbn [table] in IH. rewrite lookup_insert_eq in IH. subst k'.
  destruct (Z.ltb_spec packetCost (Z.of_nat k * packetCost)) as [Hlt|Hge]; cbn.
  - replace (Z.of_nat k * packetCost - packetCost)
      with (Z.of_nat (k - 1) * packetCost) by (consts; lia).
    specialize (IH eq_refl ltac:(consts; lia)).
    destruct (run _ ip _) as [[r' c]|]; [|done]. injection IH as IH. cbn in *. f_equal. lia.
  - specialize (IH eq_refl ltac:(consts; lia)).
    destruct (run _ ip _) as [[r' c]|]; [|done]. injection IH as IH. cbn in *. f_equal.
    consts. lia.
Qed.

(** ** Properties *)

(** C27: rate bound: any run of packets and collector ticks that starts from a
    freshly initialised limiter and lasts from [t] to [t'] completes without
    a panic, and an address gets at most
    [packetsBurstable + (t' - t) / packetCost] packets through, whatever the
    other addresses do and whenever the collector drops its bucket. *)
Theorem Allow_rate_bound (rate rate0 : Ratelimiter) (ip : Addr) (evs : list event) (t t' : Z) :
  Init rate0 = Some rate -> t' - t < 2 ^ 62 -> times_from t evs t' ->
  exists r n, run rate ip evs = Some (r, n) /\
    n <= packetsBurstable + (t' - t) / packetCost.
Proof.
  intros Hi Hspan Hts.
  assert (rate = mkRate OpenChan false ∅) as ->
    by (unfold Init in Hi; destruct (stopReset rate0); by simplify_eq).
  destruct (run_bound t (mkRate OpenChan false ∅) ip evs t t') as (r & n & Hr & Hn);
    [lia|done|done|apply map_Forall_empty..|done|].
  exists r, n. split; [done|]. unfold credit in Hn. cbn [table] in Hn.
  rewrite lookup_empty in Hn. unfold packetsBurstable. consts. zdm.
Qed.

Lemma Allow_rate_bound_witness :
  exists r n,
  run (mkRate OpenChan false ∅) [1] [EAllow [1] 0; EAllow [1] 10; ETick 20; EAllow [1] 30]
    = Some (r, n) /\ n <= packetsBurstable + (30 - 0) / packetCost.
Proof.
  apply (Allow_rate_bound (mkRate OpenChan false ∅) zero_ratelimiter [1]
    [EAllow [1] 0; EAllow [1] 10; ETick 20; EAllow [1] 30] 0 30); [reflexivity|lia|].
  repeat split; simpl; lia.
Defined.

(** At one instant the burst is [packetsBurstable - 1]: of any number [n]
    of packets of a new address that arrive at the same clock reading, the
    first [packetsBurstable - 1] pass and all others are dropped, since a
    bucket holding exactly [packetCost] tokens is refused. *)
Theorem Allow_burst_one_instant (rate : Ratelimiter) (ip : Addr) (now : Z) (n : nat) :
  stopReset rate = OpenChan -> table rate !! ip = None ->
  snd <$> run rate ip (replicate n (EAllow ip now)) =
  Some (Z.min (Z.of_nat n) (packetsBurstable - 1)).
Proof.
  intros Ho Hn. unfold packetsBurstable. destruct n as [|n]; [done|].
  cbn [replicate run]. destruct (Allow_open rate ip now Ho) as (r & ok & Ha & _).
  rewrite Ha. unfold Allow in Ha. rewrite Hn in Ha.
  assert (table r !! ip = Some (mkEntry now (Z.of_nat 4 * packetCost)) /\ ok = true) as [Hr ->].
  { unfold allow_new, notify in Ha. cbn [stopReset] in Ha. rewrite Ho in Ha.
    destruct (bool_decide _); injection Ha as <- <-; cbn [gc_reset table];
      by rewrite lookup_insert_eq. }
  pose proof (burst_from ip now 4 n r Hr ltac:(lia)) as Hb. cbn.
  destruct (run r ip _) as [[r' c]|]; [|done]. injection Hb as Hb. cbn in *.
  rewrite bool_decide_true by done. cbn. f_equal. lia.
Qed.

