(* ===== verification/Checksum.v ===== *)
(** * Internet checksum (src/wireguard-go/tun/checksum.go)

    [checksumNoFold] sums a byte slice in native 64-bit words with the carry
    chain unrolled in blocks of 16, 8, 4, 2 and 1 words; [checksum] folds the
    sum to 16 bits; [pseudoHeaderChecksumNoFold] sums a transport pseudo
    header.  The byte order of the machine is an argument.  The theorems show
    that on either order the routine computes the RFC 1071 one's complement
    sum [sum16] of the big-endian 16-bit words, that the carry additions never
    overflow and that four folds are enough. *)

From stdpp Require Import base numbers list.
From S2P Require Import Prelude.

Open Scope Z_scope.

(** ** The code *)

Inductive endian := Little | Big.

(** [binary.NativeEndian] *)
Definition ne_uint (e : endian) (b : list Z) : Z :=
  match e with Little => le_uint b | Big => be_uint b end.

Definition ne_put (e : endian) (n : nat) (x : Z) : list Z :=
  match e with Little => le_put n x | Big => be_put n x end.

(** [bits.Add64]: the sum and the carry out. *)
Definition Add64 (x y carry : Z) : Z * Z :=
  let s := x + y + carry in (u64 s, s / 2 ^ 64).

(** [n] consecutive lines
    [ac, carry = bits.Add64(ac, binary.NativeEndian.Uint64(b[..]), carry)]. *)
Fixpoint add_words (e : endian) (n : nat) (b : list Z) (ac carry : Z) : Z * Z :=
  match n with
  | O => (ac, carry)
  | S n =>
      let '(ac, carry) := Add64 ac (ne_uint e (take 8 b)) carry in
      add_words e n (drop 8 b) ac carry
  end.

(** A block of [n] words started with carry 0, then [ac += carry]. *)
Definition add_block (e : endian) (n : nat) (b : list Z) (ac : Z) : Z :=
  let '(ac, carry) := add_words e n b ac 0 in u64 (ac + carry).

(** [if len(b) >= 8*n { ...; b = b[8*n:] }] *)
Definition if_block (e : endian) (n : nat) (st : list Z * Z) : list Z * Z :=
  let '(b, ac) := st in
  if zlen b >=? 8 * Z.of_nat n then (drop (8 * n) b, add_block e n b ac) else (b, ac).

(** [for len(b) >= 128 { ... }]; the length of [b] bounds the iterations. *)
Fixpoint loop_blocks (e : endian) (fuel : nat) (st : list Z * Z) : list Z * Z :=
  match fuel with
  | O => st
  | S fuel => if zlen st.1 >=? 128 then loop_blocks e fuel (if_block e 16 st) else st
  end.

(** The 4-byte and 2-byte tails: one word, then [ac += carry]. *)
Definition if_tail (e : endian) (k : nat) (st : list Z * Z) : list Z * Z :=
  let '(b, ac) := st in
  if zlen b >=? Z.of_nat k then
    let '(ac, carry) := Add64 ac (ne_uint e (take k b)) 0 in (drop k b, u64 (ac + carry))
  else (b, ac).

(** The odd byte is read as [NativeEndian.Uint16([]byte{b[0], 0})]. *)
Definition if_odd (e : endian) (st : list Z * Z) : Z :=
  match st with
  | ([x], ac) =>
      let '(ac, carry) := Add64 ac (ne_uint e [x; 0]) 0 in u64 (ac + carry)
  | (_, ac) => ac
  end.

Definition checksumNoFold (e : endian) (b : list Z) (initial : Z) : Z :=
  let ac := be_uint (ne_put e 8 initial) in
  let st := loop_blocks e (length b) (b, ac) in
  let st := if_block e 8 st in
  let st := if_block e 4 st in
  let st := if_block e 2 st in
  let st := if_block e 1 st in
  let st := if_tail e 4 st in
  let st := if_tail e 2 st in
  be_uint (ne_put e 8 (if_odd e st)).

(** [ac = (ac >> 16) + (ac & 0xffff)] *)
Definition fold16 (ac : Z) : Z := u64 (Z.shiftr ac 16 + Z.land ac 0xffff).

Definition checksum (e : endian) (b : list Z) (initial : Z) : Z :=
  let ac := checksumNoFold e b initial in
  let ac := fold16 ac in
  let ac := fold16 ac in
  let ac := fold16 ac in
  let ac := fold16 ac in
  u16 ac.

Definition pseudoHeaderChecksumNoFold (e : endian) (protocol : Z) (srcAddr dstAddr : list Z)
    (totalLen : Z) : Z :=
  let sum := checksumNoFold e srcAddr 0 in
  let sum := checksumNoFold e dstAddr sum in
  let sum := checksumNoFold e [0; protocol] sum in
  checksumNoFold e (be_put 2 totalLen) sum.

(** [^x] on a [uint16] *)
Definition not16 (x : Z) : Z := 65535 - x.

(** ** The specification *)

(** RFC 1071: the sum of the big-endian 16-bit words, an odd byte padded. *)
Fixpoint sum16 (b : list Z) : Z :=
  match b with
  | [] => 0
  | [x] => x * 256
  | x :: y :: b => x * 256 + y + sum16 b
  end.

(** The same sum over words in native order. *)
Fixpoint ne_sum16 (e : endian) (b : list Z) : Z :=
  match b with
  | [] => 0
  | [x] => ne_uint e [x; 0]
  | x :: y :: b => ne_uint e [x; y] + ne_sum16 e b
  end.

(** The one's complement representative of a non-negative sum: 0 stands only
    for an empty sum, any other multiple of 65535 is 65535. *)
Definition ones_complement (x : Z) : Z :=
  if x =? 0 then 0 else let r := x mod 65535 in if r =? 0 then 65535 else r.

(** Congruence modulo 65535. *)
Definition cong (a b : Z) : Prop := exists k, a - b = 65535 * k.

(** ** Congruence as a setoid *)

#[export] Instance cong_equiv : Equivalence cong.
Proof.
  split.
  - intros a. exists 0. lia.
  - intros a b [k H]. exists (- k). lia.
  - intros a b c [k H] [l H']. exists (k + l). lia.
Qed.

#[export] Instance cong_add : Proper (cong ==> cong ==> cong) Z.add.
Proof. intros a b [k H] c d [l H']. exists (k + l). lia. Qed.

#[export] Instance cong_mul : Proper (cong ==> cong ==> cong) Z.mul.
Proof. intros a b [k H] c d [l H']. exists (k * c + b * l). nia. Qed.

Lemma cong_mod a b : cong a b -> a mod 65535 = b mod 65535.
Proof. intros [k H]. replace a with (b + k * 65535) by lia. apply Z.mod_add. lia. Qed.

Lemma cong_base : cong (256 * 256) 1.
Proof. exists 1. lia. Qed.

Lemma cong_base_sq x : cong (256 * (256 * x)) x.
Proof. exists x. lia. Qed.

(** ** Sums *)

Lemma pairs_ind (P : list Z -> Prop) :
  P [] -> (forall x, P [x]) -> (forall x y l, P l -> P (x :: y :: l)) -> forall l, P l.
Proof. intros H0 H1 H2. fix IH 1. intros [|x [|y l]]; [exact H0|apply H1|apply H2, IH]. Qed.

Lemma sum16_nonneg b : is_bytes b -> 0 <= sum16 b.
Proof.
  induction b as [| |x y b IH] using pairs_ind; intros H; cbn [sum16]; [lia| |].
  - inversion H; subst. unfold_words. lia.
  - inversion H as [|? ? Hx H']; subst. inversion H'; subst. unfold_words. specialize (IH H3). lia.
Qed.

Lemma ne_sum16_cong e b :
  match e with Little => cong (ne_sum16 e b) (256 * sum16 b) | Big => ne_sum16 e b = sum16 b end.
Proof.
  destruct e; induction b as [| |x y b IH] using pairs_ind; cbn [ne_sum16 sum16 ne_uint];
    try reflexivity.
  - exists (- x). cbn. lia.
  - rewrite IH. exists (- x). cbn. lia.
  - unfold be_uint. cbn. lia.
  - rewrite IH. unfold be_uint. cbn. lia.
Qed.

Lemma ne_sum16_app e a b :
  Nat.Even (length a) -> ne_sum16 e (a ++ b) = ne_sum16 e a + ne_sum16 e b.
Proof.
  induction a as [|x|x y a IH] using pairs_ind; cbn [length app]; intros He.
  - done.
  - destruct He. lia.
  - cbn [ne_sum16]. rewrite IH; [lia|]. destruct He as [m He]. exists (m - 1)%nat. lia.
Qed.

Lemma sum16_app a b : Nat.Even (length a) -> sum16 (a ++ b) = sum16 a + sum16 b.
Proof. intros. by rewrite <- !(ne_sum16_cong Big), ne_sum16_app. Qed.

Lemma pow256_even n : Nat.Even n -> cong (256 ^ Z.of_nat n) 1.
Proof.
  intros [m ->]. rewrite Nat2Z.inj_mul, Z.pow_mul_r by lia.
  change (256 ^ Z.of_nat 2) with (256 * 256). induction m as [|m IH]; [reflexivity|].
  rewrite Nat2Z.inj_succ, Z.pow_succ_r by lia. rewrite IH, cong_base. done.
Qed.

(** A native word is congruent to the sum of its 16-bit parts. *)
Lemma ne_uint_sum16 e b : Nat.Even (length b) -> cong (ne_uint e b) (ne_sum16 e b).
Proof.
  induction b as [|x|x y b IH] using pairs_ind; cbn [length]; intros He.
  - by destruct e.
  - destruct He. lia.
  - assert (He' : Nat.Even (length b)) by (destruct He as [m He]; exists (m - 1)%nat; lia).
    cbn [ne_sum16]. rewrite <- IH by done. destruct e; cbn [ne_uint].
    + cbn [le_uint]. exists (le_uint b). lia.
    + rewrite !be_uint_cons. unfold zlen. cbn [length].
      rewrite pow256_S. change (be_uint []) with 0.
      destruct (pow256_even _ He') as [k Hk].
      set (p := 256 ^ Z.of_nat (length b)) in *. replace p with (1 + 65535 * k) by lia.
      exists (x * 256 * k + y * k). simpl. lia.
Qed.

Lemma ne_uint_bound e b : is_bytes b -> 0 <= ne_uint e b < 256 ^ zlen b.
Proof. destruct e; [apply le_uint_bound|apply be_uint_bound]. Qed.

(** All bytes zero. *)
Notation all_zero b := (Forall (eq 0) b).

Lemma le_uint_zero b : is_bytes b -> le_uint b = 0 <-> all_zero b.
Proof.
  induction 1 as [|x b Hx Hb IH]; [split; auto|]. cbn [le_uint].
  pose proof (le_uint_bound b Hb). unfold_words. rewrite Forall_cons, <- IH. lia.
Qed.

Lemma ne_uint_zero e b : is_bytes b -> ne_uint e b = 0 <-> all_zero b.
Proof.
  intros Hb. destruct e; cbn [ne_uint]; [by apply le_uint_zero|].
  unfold be_uint. rewrite le_uint_zero by by apply Forall_rev.
  split; intros H; [rewrite <- (rev_involutive b)|]; by apply Forall_rev.
Qed.

(** ** The carry chain *)

Lemma Add64_spec x y c s c' :
  is_u64 x -> is_u64 y -> 0 <= c <= 1 -> (c = 1 -> x <= 2 ^ 64 - 2) ->
  Add64 x y c = (s, c') ->
  s + 2 ^ 64 * c' = x + y + c /\ is_u64 s /\ 0 <= c' <= 1 /\ (c' = 1 -> s <= 2 ^ 64 - 2).
Proof.
  unfold Add64. intros Hx Hy Hc Hcx [= <- <-]. unfold_words.
  assert (0 <= (x + y + c) / 18446744073709551616 <= 1) by zdm.
  pose proof (Z.div_mod (x + y + c) 18446744073709551616 ltac:(lia)).
  pose proof (Z.mod_pos_bound (x + y + c) 18446744073709551616 ltac:(lia)). lia.
Qed.

Lemma take_bytes n b : is_bytes b -> is_bytes (take n b).
Proof. apply Forall_take. Qed.

Lemma drop_bytes n b : is_bytes b -> is_bytes (drop n b).
Proof. apply Forall_drop. Qed.

#[local] Hint Resolve take_bytes drop_bytes : words.

Lemma word_u64 e b : is_bytes b -> is_u64 (ne_uint e (take 8 b)).
Proof.
  intros Hb. pose proof (ne_uint_bound e (take 8 b) (take_bytes _ _ Hb)) as H.
  split; [lia|]. apply Z.lt_le_trans with (1 := proj2 H).
  change (2 ^ 64) with (256 ^ 8). apply Z.pow_le_mono_r; [lia|].
  unfold zlen. rewrite length_take. lia.
Qed.

Lemma all_zero_app a b : all_zero (a ++ b) <-> all_zero a /\ all_zero b.
Proof. apply Forall_app. Qed.

(** [n] chained additions add [8 * n] bytes, with the pending carry counted
    and bounded so that adding it cannot overflow. *)
Lemma add_words_spec e n b ac c ac' c' :
  is_bytes b -> (8 * n <= length b)%nat -> is_u64 ac -> 0 <= c <= 1 ->
  (c = 1 -> ac <= 2 ^ 64 - 2) -> add_words e n b ac c = (ac', c') ->
  cong (ac' + c') (ac + c + ne_sum16 e (take (8 * n) b)) /\
  is_u64 ac' /\ 0 <= c' <= 1 /\ (c' = 1 -> ac' <= 2 ^ 64 - 2) /\
  (ac' + c' = 0 <-> ac + c = 0 /\ all_zero (take (8 * n) b)).
Proof.
  revert b ac c. induction n as [|n IH]; intros b ac c Hb Hlen Ha Hc Hac Hw.
  { cbn in Hw. injection Hw as <- <-. rewrite Nat.mul_0_r, take_0. cbn [ne_sum16].
    split_and!; try done; try lia; [by rewrite Z.add_0_r|]. split; [auto|tauto]. }
  cbn [add_words] in Hw. destruct (Add64 _ _ c) as [s k] eqn:E.
  apply Add64_spec in E as (Hs & Hsr & Hk & Hks); [|auto using word_u64..].
  apply IH in Hw as (Hcong & Hr & Hc' & Hb' & Hz); auto with words;
    [|rewrite length_drop; lia].
  assert (Htake : take (8 * S n) b = take 8 b ++ take (8 * n) (drop 8 b)).
  { rewrite take_take_drop. f_equal. lia. }
  assert (Hl8 : length (take 8 b) = 8%nat) by (rewrite length_take; lia).
  rewrite Htake, all_zero_app, ne_sum16_app by (rewrite Hl8; exists 4%nat; lia).
  rewrite <- (ne_uint_zero e (take 8 b)) by auto with words.
  pose proof (word_u64 e b Hb). split_and!; try done; try lia.
  - rewrite Hcong, <- (ne_uint_sum16 e (take 8 b)) by (rewrite Hl8; exists 4%nat; lia).
    exists (- (k * 281479271743489)). lia.
  - rewrite Hz. unfold_words. split; intros [? ?]; split_and!; try tauto; lia.
Qed.

(** The loop invariant: the bytes consumed so far are in [ac], which is zero
    only for an empty sum. *)
Record summed (e : endian) (b : list Z) (init : Z) (st : list Z * Z) : Prop := {
  sum_bytes : is_bytes st.1;
  sum_range : is_u64 st.2;
  sum_done : exists pre, b = pre ++ st.1 /\ Nat.Even (length pre) /\
    cong st.2 (init + ne_sum16 e pre) /\ (st.2 = 0 <-> init = 0 /\ all_zero pre)
}.

(** Consuming [k] more bytes whose native sum was added. *)
Lemma summed_step e b init rest ac k ac' :
  summed e b init (rest, ac) -> Nat.Even k -> (k <= length rest)%nat -> is_u64 ac' ->
  cong ac' (ac + ne_sum16 e (take k rest)) ->
  (ac' = 0 <-> ac = 0 /\ all_zero (take k rest)) ->
  summed e b init (drop k rest, ac').
Proof.
  intros [Hb Hr (pre & -> & He & Hc & Hz)] Hk Hl Hr' Hc' Hz'. cbn [fst snd] in *.
  split; cbn [fst snd]; [auto with words|done|].
  exists (pre ++ take k rest). split_and!.
  - by rewrite <- app_assoc, take_drop.
  - rewrite length_app, length_take, Nat.min_l by done. destruct He as [m ->], Hk as [m' ->].
    exists (m + m')%nat. lia.
  - rewrite ne_sum16_app by done. rewrite Hc', Hc. by rewrite Z.add_assoc.
  - rewrite Hz', Hz, all_zero_app. tauto.
Qed.

Lemma if_block_summed e b init n st :
  summed e b init st -> summed e b init (if_block e n st).
Proof.
  destruct st as [rest ac]. intros Hs. unfold if_block. rewrite Z.geb_leb.
  destruct (Z.leb_spec (8 * Z.of_nat n) (zlen rest)) as [Hl|]; [|done].
  unfold zlen in Hl. pose proof Hs as [Hb Hr _]. cbn [fst snd] in *.
  unfold add_block. destruct (add_words e n rest ac 0) as [ac' c'] eqn:E.
  apply add_words_spec in E as (Hc & Hr' & Hc' & Hov & Hz); try done; try lia.
  assert (is_u64 (ac' + c')) by (unfold_words; lia).
  rewrite u64_small by done. apply summed_step with ac; try done.
  - exists (4 * n)%nat. lia.
  - lia.
  - by rewrite Z.add_0_r in Hc.
  - by rewrite Z.add_0_r in Hz.
Qed.

Lemma loop_blocks_summed e b init fuel st :
  summed e b init st -> summed e b init (loop_blocks e fuel st).
Proof.
  revert st. induction fuel as [|fuel IH]; intros st Hs; [done|].
  cbn [loop_blocks]. case_if; [|done]. by apply IH, if_block_summed.
Qed.

(** A single addition followed by [ac += carry]. *)
Lemma add_one ac w :
  is_u64 ac -> is_u64 w ->
  let '(s, c) := Add64 ac w 0 in
  is_u64 (u64 (s + c)) /\ cong (u64 (s + c)) (ac + w) /\
  (u64 (s + c) = 0 <-> ac = 0 /\ w = 0).
Proof.
  intros Ha Hw. destruct (Add64 ac w 0) as [s c] eqn:E.
  apply Add64_spec in E as (Hs & Hr & Hc & Hov); try done; try lia.
  rewrite u64_small by (unfold_words; lia). split_and!.
  - unfold_words. lia.
  - exists (- (c * 281479271743489)). lia.
  - unfold_words. lia.
Qed.

Lemma if_tail_summed e b init k st :
  Nat.Even k -> (k <= 8)%nat -> summed e b init st -> summed e b init (if_tail e k st).
Proof.
  destruct st as [rest ac]. intros Hk Hk8 Hs. unfold if_tail. rewrite Z.geb_leb.
  destruct (Z.leb_spec (Z.of_nat k) (zlen rest)) as [Hl|]; [|done].
  unfold zlen in Hl. pose proof Hs as [Hb Hr _]. cbn [fst snd] in *.
  assert (Hlk : length (take k rest) = k) by (rewrite length_take; lia).
  assert (Hw : is_u64 (ne_uint e (take k rest))).
  { pose proof (word_u64 e (take k rest) (take_bytes _ _ Hb)) as H.
    by rewrite take_take, Nat.min_r in H. }
  pose proof (add_one ac _ Hr Hw) as H.
  destruct (Add64 ac (ne_uint e (take k rest)) 0) as [s c]. destruct H as (H1 & H2 & H3).
  apply summed_step with ac; try done; [lia| |].
  - rewrite H2, ne_uint_sum16 by by rewrite Hlk. done.
  - by rewrite <- (ne_uint_zero e) by auto with words.
Qed.

(** After the guards at most one byte is left, and it is added. *)
Lemma if_odd_summed e b init st :
  summed e b init st -> zlen st.1 < 2 ->
  is_u64 (if_odd e st) /\ cong (if_odd e st) (init + ne_sum16 e b) /\
  (if_odd e st = 0 <-> init = 0 /\ all_zero b).
Proof.
  destruct st as [rest ac]. intros [Hb Hr (pre & -> & He & Hc & Hz)] Hl.
  cbn [fst snd] in *. unfold zlen in Hl. rewrite ne_sum16_app, all_zero_app by done.
  destruct rest as [|x [|]]; cbn [length] in Hl; [| |lia].
  - cbn [if_odd ne_sum16]. rewrite Z.add_0_r. split_and!; try done. rewrite Hz.
    split; [intros [? ?]; split_and!; auto|tauto].
  - cbn [if_odd ne_sum16]. inversion Hb as [|? ? Hx _]; subst.
    assert (Hx0 : is_bytes [x; 0]) by (repeat constructor; unfold_words; lia).
    assert (Hw : is_u64 (ne_uint e [x; 0])) by exact (word_u64 e [x; 0] Hx0).
    pose proof (add_one ac _ Hr Hw) as H.
    destruct (Add64 ac (ne_uint e [x; 0]) 0) as [s c]. destruct H as (H1 & H2 & H3).
    split_and!; [done|rewrite H2, Hc; by rewrite Z.add_assoc|].
    rewrite H3, Hz, ne_uint_zero, !Forall_cons by done. intuition.
Qed.

(** Each guard leaves less than the block it looked for, given less than two. *)
Lemma if_block_short e n st :
  zlen st.1 < 16 * Z.of_nat n -> zlen (if_block e n st).1 < 8 * Z.of_nat n.
Proof.
  destruct st as [b ac]. cbn [fst]. intros Hl. unfold if_block. rewrite Z.geb_leb.
  destruct (Z.leb_spec (8 * Z.of_nat n) (zlen b)); cbn [fst]; [|done].
  unfold zlen in *. rewrite length_drop. lia.
Qed.

Lemma if_tail_short e k st :
  zlen st.1 < 2 * Z.of_nat k -> zlen (if_tail e k st).1 < Z.of_nat k.
Proof.
  destruct st as [b ac]. cbn [fst]. intros Hl. unfold if_tail. rewrite Z.geb_leb.
  destruct (Z.leb_spec (Z.of_nat k) (zlen b)); [|done].
  destruct (Add64 _ _ _). cbn [fst]. unfold zlen in *. rewrite length_drop. lia.
Qed.

(** The loop ends with fewer than 128 bytes left when the fuel is the length. *)
Lemma loop_blocks_short e fuel st :
  (length st.1 <= fuel)%nat -> zlen (loop_blocks e fuel st).1 < 128.
Proof.
  revert st. induction fuel as [|fuel IH]; intros [b ac] Hf; cbn [fst] in Hf.
  - cbn. unfold zlen. lia.
  - cbn [loop_blocks fst]. rewrite Z.geb_leb. destruct (Z.leb_spec 128 (zlen b)) as [Hl|]; [|done].
    apply IH. unfold if_block. rewrite Z.geb_leb. case_if; cbn [fst]; [|lia].
    unfold zlen in *. rewrite length_drop. lia.
Qed.

(** ** Byte order *)

Lemma cong_swap x : is_u64 x -> cong (be_uint (le_put 8 x)) (256 * x).
Proof.
  intros Hx.
  pose proof (ne_uint_sum16 Big (le_put 8 x)) as H1.
  pose proof (ne_uint_sum16 Little (le_put 8 x)) as H2.
  rewrite length_le_put in H1, H2.
  specialize (H1 ltac:(exists 4%nat; lia)). specialize (H2 ltac:(exists 4%nat; lia)).
  cbn [ne_uint] in H1, H2. rewrite le_uint_put, Z.mod_small in H2 by exact Hx.
  rewrite (ne_sum16_cong Big) in H1. rewrite (ne_sum16_cong Little) in H2.
  rewrite H1. rewrite <- (cong_base_sq (sum16 _)). apply cong_mul; [done|by symmetry].
Qed.

(** Writing in native order and reading big-endian: the identity, or a swap
    that multiplies by 256 modulo 65535. *)
Lemma swap_spec e x :
  is_u64 x ->
  is_u64 (be_uint (ne_put e 8 x)) /\
  cong (be_uint (ne_put e 8 x)) (match e with Little => 256 * x | Big => x end) /\
  (be_uint (ne_put e 8 x) = 0 <-> x = 0).
Proof.
  intros Hx. destruct e; cbn [ne_put].
  - pose proof (be_uint_bound _ (is_bytes_le_put 8 x)) as Hb. unfold zlen in Hb.
    rewrite length_le_put in Hb. split_and!; [exact Hb|by apply cong_swap|].
    rewrite (ne_uint_zero Big), <- (ne_uint_zero Little) by apply is_bytes_le_put.
    cbn [ne_uint]. by rewrite le_uint_put, Z.mod_small by exact Hx.
  - rewrite be_uint_put, Z.mod_small by exact Hx. done.
Qed.

(** The unfolded sum, up to congruence. *)
Lemma checksumNoFold_spec e b init :
  is_bytes b -> is_u64 init ->
  is_u64 (checksumNoFold e b init) /\
  cong (checksumNoFold e b init) (init + sum16 b) /\
  (checksumNoFold e b init = 0 <-> init = 0 /\ all_zero b).
Proof.
  intros Hb Hi. unfold checksumNoFold.
  destruct (swap_spec e init Hi) as (H1 & H2 & H3).
  set (ac := be_uint (ne_put e 8 init)) in *.
  assert (H0 : summed e b ac (b, ac)).
  { split; cbn [fst snd]; try done. exists []. cbn [app ne_sum16 length].
    rewrite Z.add_0_r. split_and!; try done; [by exists 0%nat|].
    split; [intros ->; auto|tauto]. }
  set (st := if_tail e 2 _).
  assert (Hst : summed e b ac st).
  { subst st. apply if_tail_summed; [by exists 1%nat|lia|].
    apply if_tail_summed; [by exists 2%nat|lia|]. repeat apply if_block_summed. by apply loop_blocks_summed. }
  assert (Hsh : zlen st.1 < 2).
  { subst st. apply (if_tail_short e 2), (if_tail_short e 4), (if_block_short e 1),
      (if_block_short e 2), (if_block_short e 4), (if_block_short e 8),
      loop_blocks_short. done. }
  destruct (if_odd_summed e b ac st Hst Hsh) as (R1 & R2 & R3).
  destruct (swap_spec e (if_odd e st) R1) as (S1 & S2 & S3). split_and!; [done| |].
  - rewrite S2. pose proof (ne_sum16_cong e b) as Hs. destruct e.
    + rewrite R2, Hs, H2. transitivity (256 * (256 * (init + sum16 b))); [|apply cong_base_sq].
      exists 0. lia.
    + by rewrite R2, Hs, H2.
  - rewrite S3, R3, H3. done.
Qed.

(** ** Folding *)

Lemma fold16_eq x : is_u64 x -> fold16 x = x / 65536 + x mod 65536.
Proof.
  intros Hx. unfold fold16. change 65535 with (2 ^ 16 - 1).
  rewrite land_mask, shiftr_div by lia. change (2 ^ 16) with 65536.
  apply u64_small. unfold_words. zdm.
Qed.

(** Four folds bring any 64-bit value to 16 bits, keep its class modulo 65535
    and its being zero. *)
Lemma fold4 x :
  is_u64 x ->
  let y := fold16 (fold16 (fold16 (fold16 x))) in
  is_u16 y /\ cong y x /\ (y = 0 <-> x = 0).
Proof.
  intros Hx. cbn zeta.
  assert (Hstep : forall z, is_u64 z ->
    fold16 z = z / 65536 + z mod 65536 /\ is_u64 (fold16 z) /\ cong (fold16 z) z /\
    (fold16 z = 0 <-> z = 0)).
  { intros z Hz. rewrite fold16_eq by done. split_and!; [done|unfold_words; zdm| |unfold_words; zdm].
    exists (- (z / 65536)). zdm. }
  destruct (Hstep x Hx) as (E1 & U1 & C1 & Z1).
  destruct (Hstep _ U1) as (E2 & U2 & C2 & Z2).
  destruct (Hstep _ U2) as (E3 & U3 & C3 & Z3).
  destruct (Hstep _ U3) as (E4 & U4 & C4 & Z4).
  split_and!; [|by rewrite C4, C3, C2|by rewrite Z4, Z3, Z2].
  clear C1 C2 C3 C4 Z1 Z2 Z3 Z4 Hstep.
  set (y1 := fold16 x) in *. set (y2 := fold16 y1) in *.
  set (y3 := fold16 y2) in *. set (y4 := fold16 y3) in *.
  assert (y1 <= 2 ^ 48 + 65534) by (unfold_words; zdm).
  assert (y2 <= 2 ^ 32 + 65534) by (unfold_words; zdm).
  assert (y3 <= 2 ^ 17 - 2) by (unfold_words; zdm).
  unfold_words. zdm.
Qed.

Lemma ones_complement_char x y :
  0 <= x -> 0 <= y <= 65535 -> cong y x -> (y = 0 <-> x = 0) -> y = ones_complement x.
Proof.
  intros Hx Hy Hc Hz. apply cong_mod in Hc. unfold ones_complement.
  case_if; [tauto|]. cbn zeta. rewrite <- Hc. case_if; zdm.
Qed.

Lemma ones_complement_spec x :
  0 <= x ->
  0 <= ones_complement x <= 65535 /\ cong (ones_complement x) x /\
  (ones_complement x = 0 <-> x = 0).
Proof.
  intros Hx. unfold ones_complement. case_if; [subst; split; [lia|by split; [exists 0|]]|].
  cbn zeta. case_if; (split; [zdm|split; [|zdm]]).
  - exists (1 - x / 65535). zdm.
  - exists (- (x / 65535)). zdm.
Qed.

Lemma sum16_zero b : is_bytes b -> sum16 b = 0 <-> all_zero b.
Proof.
  induction b as [|x|x y b IH] using pairs_ind; intros H; cbn [sum16].
  - split; auto.
  - inversion H; subst. rewrite Forall_singleton. unfold_words. lia.
  - inversion H as [|? ? Hx H']; subst. inversion H' as [|? ? Hy H'']; subst.
    rewrite !Forall_cons, <- IH by done. pose proof (sum16_nonneg b H''). unfold_words. lia.
Qed.

Lemma checksum_ones_complement e b init :
  is_bytes b -> is_u64 init -> checksum e b init = ones_complement (init + sum16 b).
Proof.
  intros Hb Hi. destruct (checksumNoFold_spec e b init Hb Hi) as (H1 & H2 & H3).
  unfold checksum. destruct (fold4 _ H1) as (F1 & F2 & F3).
  rewrite u16_small by done. pose proof (sum16_nonneg b Hb).
  apply ones_complement_char; [unfold_words; lia|unfold_words; lia| |].
  - by rewrite F2, H2.
  - rewrite F3, H3, <- (sum16_zero b Hb). unfold_words. lia.
Qed.

Lemma pseudo_spec e proto src dst len :
  is_bytes src -> is_bytes dst -> is_u8 proto -> is_u16 len ->
  is_u64 (pseudoHeaderChecksumNoFold e proto src dst len) /\
  cong (pseudoHeaderChecksumNoFold e proto src dst len)
    (sum16 src + sum16 dst + proto + len) /\
  (pseudoHeaderChecksumNoFold e proto src dst len = 0 <->
    sum16 src + sum16 dst + proto + len = 0).
Proof.
  intros Hs Hd Hp Hl. unfold pseudoHeaderChecksumNoFold.
  destruct (checksumNoFold_spec e src 0) as (A1 & A2 & A3); [done|by compute|].
  destruct (checksumNoFold_spec e dst _ Hd A1) as (B1 & B2 & B3).
  assert (Hpb : is_bytes [0; proto]) by (repeat constructor; unfold_words; lia).
  destruct (checksumNoFold_spec e [0; proto] _ Hpb B1) as (C1 & C2 & C3).
  destruct (checksumNoFold_spec e (be_put 2 len) _ (is_bytes_be_put _ _) C1) as (D1 & D2 & D3).
  assert (Hsl : sum16 (be_put 2 len) = len).
  { cbn. unfold_words. zdm. }
  pose proof (sum16_nonneg src Hs). pose proof (sum16_nonneg dst Hd).
  split_and!; [done| |].
  - rewrite D2, C2, B2, A2, Hsl. cbn [sum16]. exists 0. lia.
  - rewrite D3, C3, B3, A3, <- !sum16_zero by (done || apply is_bytes_be_put).
    rewrite Hsl. cbn [sum16]. unfold_words. lia.
Qed.

(** ** Properties *)

(** C29: on a little-endian and on a big-endian machine [checksum] is the RFC
    1071 one's complement sum of the initial value and the big-endian 16-bit
    words of the slice, an odd last byte padded with zero, for slices of any
    length. *)
Theorem checksum_rfc1071 (e : endian) (b : list Z) (initial : Z) :
  is_bytes b -> is_u64 initial ->
  checksum e b initial = ones_complement (initial + sum16 b).
Proof. apply checksum_ones_complement. Qed.

Lemma checksum_rfc1071_witness :
  checksum Little [69; 0; 255; 7; 1] 65535 = ones_complement (65535 + sum16 [69; 0; 255; 7; 1]).
Proof. apply (checksum_rfc1071 Little [69; 0; 255; 7; 1] 65535); decide_closed. Defined.

(** A packet whose 16-bit aligned checksum field is filled with the
    complement of the checksum computed over the field zeroed verifies: the
    complement of the checksum over the whole is zero. *)
Theorem checksum_fill_verifies (e : endian) (pre post : list Z) (initial : Z) :
  Nat.Even (length pre) -> is_bytes pre -> is_bytes post -> is_u64 initial ->
  let c := not16 (checksum e (pre ++ [0; 0] ++ post) initial) in
  not16 (checksum e (pre ++ be_put 2 c ++ post) initial) = 0.
Proof.
  intros He Hpre Hpost Hi c. subst c.
  assert (H00 : is_bytes [0; 0]) by decide_closed.
  rewrite !checksum_ones_complement by (rewrite ?is_bytes_app; auto with words).
  rewrite !sum16_app by (done || by exists 1%nat).
  pose proof (sum16_nonneg pre Hpre). pose proof (sum16_nonneg post Hpost).
  change (sum16 [0; 0]) with 0.
  set (s := initial + (sum16 pre + (0 + sum16 post))).
  assert (Hs : 0 <= s) by (subst s; unfold_words; lia).
  pose proof (ones_complement_spec s Hs) as Hx.
  destruct Hx as (Hb & [k Hk] & Hz). unfold not16 at 1.
  set (x := ones_complement s) in *. set (f := not16 x).
  assert (Hf : sum16 (be_put 2 f) = f) by (cbn; subst f; unfold not16; zdm).
  rewrite Hf. cut (65535 = ones_complement (initial + (sum16 pre + (f + sum16 post)))); [lia|].
  apply ones_complement_char; [subst s f; unfold not16 in *; lia|lia| |].
  - exists (k + 0). subst s f. unfold not16. lia.
  - subst s f. unfold not16. lia.
Qed.

(** The pseudo-header sum is a 64-bit value congruent modulo 65535 to
    the sum of the address words, the protocol and the length, and is zero
    only when all of these are. *)
Theorem pseudoHeader_sum (e : endian) (protocol : Z) (src dst : list Z) (totalLen : Z) :
  is_bytes src -> is_bytes dst -> is_u8 protocol -> is_u16 totalLen ->
  is_u64 (pseudoHeaderChecksumNoFold e protocol src dst totalLen) /\
  cong (pseudoHeaderChecksumNoFold e protocol src dst totalLen)
    (sum16 src + sum16 dst + protocol + totalLen) /\
  (pseudoHeaderChecksumNoFold e protocol src dst totalLen = 0 <->
    sum16 src + sum16 dst + protocol + totalLen = 0).
Proof. apply pseudo_spec. Qed.
