(* ===== verification/AllowedIPs.v ===== *)
(** * Routing table (src/wireguard-go/device/allowedips.go)

    The compressed binary trie that maps address prefixes to peers, as the
    code keeps it: nodes on a heap that point to their children and, through
    a [parentIndirection], back to the pointer that leads to them, plus the
    list of nodes of each peer.  A [None] result is a run-time panic (nil or
    out-of-range access, or the code's own [panic]) or a loop that outran its
    fuel; [AllowedIPsCorrect] proves that neither happens. *)

From stdpp Require Import base numbers list gmap.
From S2P Require Import Prelude.

Open Scope Z_scope.

(** ** Data *)

(** Addresses of trie nodes and of peers. *)
Notation loc := nat (only parsing).
Notation PeerPtr := nat (only parsing).

(** A [**trieEntry]: the address of one of the two roots or of a child
    pointer of a node. *)
Inductive slot := RootSlot (v6 : bool) | ChildSlot (node : loc) (bit : bool).

Record parentIndirection := mkParent {
  parentBit : option slot;
  parentBitType : Z
}.

Record trieEntry := mkTrieEntry {
  peer : option PeerPtr;
  child0 : option loc;
  child1 : option loc;
  parent : parentIndirection;
  cidr : Z;
  bitAtByte : Z;
  bitAtShift : Z;
  bits : list Z;
  perPeerElem : bool
}.

(** The two tries, the heap they live on and [peer.trieEntries] of each peer. *)
Record AllowedIPs := mkAllowedIPs {
  IPv4 : option loc;
  IPv6 : option loc;
  nodes : gmap loc trieEntry;
  next_loc : loc;
  trieEntries : gmap PeerPtr (list loc)
}.

Definition empty_table : AllowedIPs := mkAllowedIPs None None ∅ 0 ∅.

(** [netip.Prefix]: the bytes of the address and the prefix length. *)
Record Prefix := mkPrefix { Addr : list Z; Bits : Z }.

Definition IPv4len : nat := 4.

Definition IPv6len : nat := 16.

(** ** Field updates *)

Definition set_peer (e : trieEntry) (p : option PeerPtr) : trieEntry :=
  mkTrieEntry p (child0 e) (child1 e) (parent e) (cidr e) (bitAtByte e) (bitAtShift e)
    (bits e) (perPeerElem e).

Definition set_parent (e : trieEntry) (p : parentIndirection) : trieEntry :=
  mkTrieEntry (peer e) (child0 e) (child1 e) p (cidr e) (bitAtByte e) (bitAtShift e)
    (bits e) (perPeerElem e).

Definition set_perPeerElem (e : trieEntry) (b : bool) : trieEntry :=
  mkTrieEntry (peer e) (child0 e) (child1 e) (parent e) (cidr e) (bitAtByte e)
    (bitAtShift e) (bits e) b.

Definition get_child (e : trieEntry) (bit : bool) : option loc :=
  if bit then child1 e else child0 e.

Definition set_child (e : trieEntry) (bit : bool) (c : option loc) : trieEntry :=
  mkTrieEntry (peer e) (if bit then child0 e else c) (if bit then c else child1 e)
    (parent e) (cidr e) (bitAtByte e) (bitAtShift e) (bits e) (perPeerElem e).

(** ** The heap *)

Definition set_nodes (s : AllowedIPs) (h : gmap loc trieEntry) : AllowedIPs :=
  mkAllowedIPs (IPv4 s) (IPv6 s) h (next_loc s) (trieEntries s).

Definition set_node (s : AllowedIPs) (l : loc) (e : trieEntry) : AllowedIPs :=
  set_nodes s (<[l := e]> (nodes s)).

(** [*parentBit] *)
Definition get_slot (s : AllowedIPs) (sl : slot) : option (option loc) :=
  match sl with
  | RootSlot v6 => Some (if v6 then IPv6 s else IPv4 s)
  | ChildSlot l b => e ← nodes s !! l; Some (get_child e b)
  end.

(** [*parentBit = v] *)
Definition set_slot (s : AllowedIPs) (sl : slot) (v : option loc) : option AllowedIPs :=
  match sl with
  | RootSlot true => Some (mkAllowedIPs (IPv4 s) v (nodes s) (next_loc s) (trieEntries s))
  | RootSlot false => Some (mkAllowedIPs v (IPv6 s) (nodes s) (next_loc s) (trieEntries s))
  | ChildSlot l b => e ← nodes s !! l; Some (set_node s l (set_child e b v))
  end.

(** [&trieEntry{...}] *)
Definition alloc (s : AllowedIPs) (e : trieEntry) : loc * AllowedIPs :=
  (next_loc s,
   mkAllowedIPs (IPv4 s) (IPv6 s) (<[next_loc s := e]> (nodes s)) (S (next_loc s))
     (trieEntries s)).

Definition entries_of (s : AllowedIPs) (p : PeerPtr) : list loc :=
  default [] (trieEntries s !! p).

Definition set_entries (s : AllowedIPs) (p : PeerPtr) (ls : list loc) : AllowedIPs :=
  mkAllowedIPs (IPv4 s) (IPv6 s) (nodes s) (next_loc s) (<[p := ls]> (trieEntries s)).

(** ** Bit strings *)

(** [bits.LeadingZeros32] and [bits.LeadingZeros64] of a [w]-bit word. *)
Definition LeadingZeros (w x : Z) : Z := if x =? 0 then w else w - 1 - Z.log2 x.

Definition commonBits (ip1 ip2 : list Z) : option Z :=
  if decide (length ip1 = IPv4len) then
    a ← be_get 4 ip1;
    b ← be_get 4 ip2;
    Some (u8 (LeadingZeros 32 (Z.lxor a b)))
  else if decide (length ip1 = IPv6len) then
    a ← be_get 8 ip1;
    b ← be_get 8 ip2;
    let x := Z.lxor a b in
    if negb (x =? 0) then Some (u8 (LeadingZeros 64 x))
    else
      a ← be_get 8 (drop 8 ip1);
      b ← be_get 8 (drop 8 ip2);
      Some (u8 (64 + u8 (LeadingZeros 64 (Z.lxor a b))))
  else None.

(** [net.CIDRMask(ones, 8 * n)] from byte [i] on. *)
Fixpoint CIDRMask_bytes (n : nat) (ones : Z) : list Z :=
  match n with
  | O => []
  | S n =>
      if ones >=? 8 then 0xff :: CIDRMask_bytes n (ones - 8)
      else (255 - Z.shiftr 0xff ones) :: CIDRMask_bytes n 0
  end.

Definition CIDRMask (ones : Z) (n : nat) : list Z :=
  if (ones <? 0) || (ones >? 8 * Z.of_nat n) then [] else CIDRMask_bytes n ones.

(** The loop of [maskSelf] over the bytes of the mask. *)
Definition apply_mask (b mask : list Z) : list Z :=
  zip_with Z.land (take (length mask) b) mask ++ drop (length mask) b.

Definition mask_bits (b : list Z) (c : Z) : list Z := apply_mask b (CIDRMask c (length b)).

Definition choose (node : trieEntry) (ip : list Z) : option bool :=
  b ← byte_at ip (bitAtByte node);
  Some (Z.land (Z.shiftr b (bitAtShift node)) 1 =? 1).

(** ** Node operations *)

Definition addToPeerEntries (s : AllowedIPs) (node : loc) : option AllowedIPs :=
  e ← nodes s !! node;
  p ← peer e;
  let s := set_entries s p (entries_of s p ++ [node]) in
  Some (set_node s node (set_perPeerElem e true)).

Definition removeFromPeerEntries (s : AllowedIPs) (node : loc) : option AllowedIPs :=
  e ← nodes s !! node;
  if perPeerElem e then
    p ← peer e;
    let s := set_entries s p (filter (fun l => l <> node) (entries_of s p)) in
    Some (set_node s node (set_perPeerElem e false))
  else Some s.

Definition maskSelf (s : AllowedIPs) (node : loc) : option AllowedIPs :=
  e ← nodes s !! node;
  Some (set_node s node
    (mkTrieEntry (peer e) (child0 e) (child1 e) (parent e) (cidr e) (bitAtByte e)
      (bitAtShift e) (mask_bits (bits e) (cidr e)) (perPeerElem e))).

Definition zeroizePointers (s : AllowedIPs) (node : loc) : option AllowedIPs :=
  e ← nodes s !! node;
  Some (set_node s node
    (mkTrieEntry None None None (mkParent None (parentBitType (parent e))) (cidr e)
      (bitAtByte e) (bitAtShift e) (bits e) (perPeerElem e))).

(** A fresh entry as both literals of [insert] write it. *)
Definition new_entry (p : option PeerPtr) (par : parentIndirection) (ip : list Z) (c : Z) :
    trieEntry :=
  mkTrieEntry p None None par c (c / 8) (7 - c mod 8) ip false.

Definition no_parent : parentIndirection := mkParent None 0.

(** Prefix lengths grow along a path, so 130 rounds visit all of any path. *)
Definition path_fuel : nat := 130.

Fixpoint nodePlacement (s : AllowedIPs) (fuel : nat) (node parent : option loc)
    (ip : list Z) (c : Z) : option (option loc * bool) :=
  match fuel with
  | O => None
  | S fuel =>
      match node with
      | None => Some (parent, false)
      | Some l =>
          e ← nodes s !! l;
          if cidr e <=? c then
            common ← commonBits (bits e) ip;
            if common >=? cidr e then
              if cidr e =? c then Some (Some l, true)
              else
                bit ← choose e ip;
                nodePlacement s fuel (get_child e bit) (Some l) ip c
            else Some (parent, false)
          else Some (parent, false)
      end
  end.

(** [x.parent = parentIndirection{&n.child[bit], bit}; n.child[bit] = x] *)
Definition attach (s : AllowedIPs) (n : loc) (bit : bool) (x : loc) : option AllowedIPs :=
  e ← nodes s !! x;
  let s := set_node s x (set_parent e (mkParent (Some (ChildSlot n bit)) (Z.b2z bit))) in
  set_slot s (ChildSlot n bit) (Some x).

(** The end of [insert]: [x] takes the place of what hung below [par], or at
    the root pointer when [par] is nil. *)
Definition hang (s : AllowedIPs) (trie : parentIndirection) (par : option loc) (x : loc) :
    option AllowedIPs :=
  match par with
  | None =>
      e ← nodes s !! x;
      sl ← parentBit trie;
      set_slot (set_node s x (set_parent e trie)) sl (Some x)
  | Some n =>
      pe ← nodes s !! n;
      e ← nodes s !! x;
      bit ← choose pe (bits e);
      attach s n bit x
  end.

(** [insert] from the point where [down], the non-nil node in the way, is
    known; [ip] has been masked by [newNode.maskSelf], whose slice it is. *)
Definition insert_split (s : AllowedIPs) (trie : parentIndirection) (node : option loc)
    (down newNode : loc) (ip : list Z) (c : Z) : option AllowedIPs :=
  de ← nodes s !! down;
  common ← commonBits (bits de) ip;
  let c := if common <? c then common else c in
  ne ← nodes s !! newNode;
  if cidr ne =? c then
    bit ← choose ne (bits de);
    s ← attach s newNode bit down;
    hang s trie node newNode
  else
    let '(mid, s) := alloc s (new_entry None no_parent (bits ne) c) in
    s ← maskSelf s mid;
    me ← nodes s !! mid;
    bit ← choose me (bits de);
    s ← attach s mid bit down;
    bit ← choose me (bits ne);
    s ← attach s mid bit newNode;
    hang s trie node mid.

(** [insert] after [nodePlacement] returned [node] and [exact]. *)
Definition insert_placed (s : AllowedIPs) (trie : parentIndirection) (root node : option loc)
    (exact : bool) (ip : list Z) (c : Z) (p : PeerPtr) : option AllowedIPs :=
  if exact then
    node ← node;
    s ← removeFromPeerEntries s node;
    e ← nodes s !! node;
    let s := set_node s node (set_peer e (Some p)) in
    addToPeerEntries s node
  else
    let '(newNode, s) := alloc s (new_entry (Some p) no_parent ip c) in
    s ← maskSelf s newNode;
    s ← addToPeerEntries s newNode;
    let ip := mask_bits ip c in
    match node with
    | None =>
        down ← root;
        insert_split s trie None down newNode ip c
    | Some n =>
        e ← nodes s !! n;
        bit ← choose e ip;
        match get_child e bit with
        | None => attach s n bit newNode
        | Some down => insert_split s trie (Some n) down newNode ip c
        end
    end.

Definition insert (s : AllowedIPs) (trie : parentIndirection) (ip : list Z) (c : Z)
    (p : PeerPtr) : option AllowedIPs :=
  sl ← parentBit trie;
  root ← get_slot s sl;
  match root with
  | None =>
      let '(node, s) := alloc s (new_entry (Some p) trie ip c) in
      s ← maskSelf s node;
      s ← addToPeerEntries s node;
      set_slot s sl (Some node)
  | Some _ =>
      '(node, exact) ← nodePlacement s path_fuel root None ip c;
      insert_placed s trie root node exact ip c p
  end.

(** The loop of [lookup]; [found] is the last peer passed. *)
Fixpoint lookup_loop (s : AllowedIPs) (fuel : nat) (node : option loc) (ip : list Z)
    (found : option PeerPtr) : option (option PeerPtr) :=
  match fuel with
  | O => None
  | S fuel =>
      match node with
      | None => Some found
      | Some l =>
          e ← nodes s !! l;
          common ← commonBits (bits e) ip;
          if common >=? cidr e then
            let found := match peer e with Some p => Some p | None => found end in
            if bitAtByte e =? u8 (zlen ip) then Some found
            else
              bit ← choose e ip;
              lookup_loop s fuel (get_child e bit) ip found
          else Some found
      end
  end.

Definition trie_lookup (s : AllowedIPs) (node : option loc) (ip : list Z) :
    option (option PeerPtr) :=
  lookup_loop s path_fuel node ip None.

(** [if child != nil { child.parent = par }; *par.parentBit = child] *)
Definition replace_by (s : AllowedIPs) (par : parentIndirection) (child : option loc) :
    option AllowedIPs :=
  s ← match child with
      | None => Some s
      | Some c => ce ← nodes s !! c; Some (set_node s c (set_parent ce par))
      end;
  sl ← parentBit par;
  set_slot s sl child.

(** [remove] from the test of the children on; the node that holds the pointer
    [node.parent.parentBit], which the code finds by pointer arithmetic, is the
    [node] of its slot. *)
Definition remove_links (s : AllowedIPs) (node : loc) (e : trieEntry) : option AllowedIPs :=
  match child0 e, child1 e with
  | Some _, Some _ => Some s
  | c0, c1 =>
      let bit := match c0 with None => true | Some _ => false end in
      s ← replace_by s (parent e) (get_child e bit);
      match c0, c1 with
      | None, None =>
          if parentBitType (parent e) >? 1 then zeroizePointers s node
          else
            sl ← parentBit (parent e);
            match sl with
            | RootSlot _ => None
            | ChildSlot par _ =>
                pe ← nodes s !! par;
                match peer pe with
                | Some _ => zeroizePointers s node
                | None =>
                    s ← replace_by s (parent pe)
                      (get_child pe (negb (parentBitType (parent e) =? 1)));
                    s ← zeroizePointers s node;
                    zeroizePointers s par
                end
            end
      | _, _ => zeroizePointers s node
      end
  end.

Definition remove (s : AllowedIPs) (node : loc) : option AllowedIPs :=
  s ← removeFromPeerEntries s node;
  e ← nodes s !! node;
  remove_links (set_node s node (set_peer e None)) node e.

(** ** The table *)

Definition Is6 (a : list Z) : bool := bool_decide (length a = IPv6len).

Definition Is4 (a : list Z) : bool := bool_decide (length a = IPv4len).

Definition Insert (s : AllowedIPs) (prefix : Prefix) (p : PeerPtr) : option AllowedIPs :=
  if Is6 (Addr prefix) then
    insert s (mkParent (Some (RootSlot true)) 2) (Addr prefix) (u8 (Bits prefix)) p
  else if Is4 (Addr prefix) then
    insert s (mkParent (Some (RootSlot false)) 2) (Addr prefix) (u8 (Bits prefix)) p
  else None.

Definition Remove (s : AllowedIPs) (prefix : Prefix) (p : PeerPtr) : option AllowedIPs :=
  '(node, exact) ←
    (if Is6 (Addr prefix) then
      nodePlacement s path_fuel (IPv6 s) None (Addr prefix) (u8 (Bits prefix))
    else if Is4 (Addr prefix) then
      nodePlacement s path_fuel (IPv4 s) None (Addr prefix) (u8 (Bits prefix))
    else None);
  match (exact : bool), node with
  | true, Some l =>
      e ← nodes s !! l;
      if bool_decide (peer e = Some p) then remove s l else Some s
  | _, _ => Some s
  end.

(** The list is walked with the successor read before each removal. *)
Definition RemoveByPeer (s : AllowedIPs) (p : PeerPtr) : option AllowedIPs :=
  foldl (fun s l => s ← s; remove s l) (Some s) (entries_of s p).

Definition Lookup (s : AllowedIPs) (ip : list Z) : option (option PeerPtr) :=
  if decide (length ip = IPv6len) then trie_lookup s (IPv6 s) ip
  else if decide (length ip = IPv4len) then trie_lookup s (IPv4 s) ip
  else None.

(** The prefixes handed to the callback, which stops the walk with [false]. *)
Fixpoint entries_loop (s : AllowedIPs) (ls : list loc) (cb : Prefix -> bool) :
    option (list Prefix) :=
  match ls with
  | [] => Some []
  | l :: ls =>
      e ← nodes s !! l;
      let prefix := mkPrefix (bits e) (cidr e) in
      if cb prefix then rest ← entries_loop s ls cb; Some (prefix :: rest)
      else Some [prefix]
  end.

Definition EntriesForPeer (s : AllowedIPs) (p : PeerPtr) (cb : Prefix -> bool) :
    option (list Prefix) :=
  entries_loop s (entries_of s p) cb.
