(* ===== verification/BitTrie.v ===== *)
(** * Bit strings and prefix tries

    The mathematics behind src/wireguard-go/device/allowedips.go: addresses as
    bit strings and what [commonBits], [choose] and [maskSelf] compute on
    them, longest-prefix match over a finite map of prefixes as the
    specification, and the functional compressed trie with its operations.
    [AllowedIPsCorrect] shows that the heap of the code implements it. *)

From stdpp Require Import base numbers list gmap.
From S2P Require Import Prelude AllowedIPs.

Open Scope Z_scope.

(** ** Addresses as bit strings *)

(** The bits of a byte, most significant first. *)
Definition byte_bits (b : Z) : list bool :=
  map (Z.testbit b) [7; 6; 5; 4; 3; 2; 1; 0].

Fixpoint bits_of (ip : list Z) : list bool :=
  match ip with
  | [] => []
  | b :: ip => byte_bits b ++ bits_of ip
  end.

(** Length of the longest common prefix. *)
Fixpoint lcp (a b : list bool) : nat :=
  match a, b with
  | x :: a, y :: b => if bool_decide (x = y) then S (lcp a b) else O
  | _, _ => O
  end.

(** ** The specification: longest-prefix match *)

Definition lpm {V} (m : gmap (list bool) V) (ip : list bool) : option V :=
  foldl (fun acc k => match m !! take k ip with Some v => Some v | None => acc end)
    None (seq 0 (S (length ip))).

(** ** Functional tries; each node carries the address of its heap cell *)

Inductive tree (V : Type) :=
| Leaf
| Node (l : nat) (p : list bool) (v : option V) (t0 t1 : tree V).

Arguments Leaf {V}.
Arguments Node {V} l p v t0 t1.

Section tries.
Context {V : Type}.
Implicit Types (t : tree V) (v : option V) (p q ip : list bool).

(** The subtree on the side of a bit. *)
Definition side (b : bool) (t0 t1 : tree V) : tree V := if b then t1 else t0.

(** The value stored for a prefix. *)
Fixpoint tget t q : option V :=
  match t with
  | Leaf => None
  | Node _ p v t0 t1 =>
      if decide (p = q) then v
      else if decide (p `prefix_of` q) then
        match (q !! length p : option bool) with
        | Some b => if b then tget t1 q else tget t0 q
        | None => None
        end
      else None
  end.

(** The cell of the node with a prefix. *)
Fixpoint tloc t q : option nat :=
  match t with
  | Leaf => None
  | Node l p _ t0 t1 =>
      if decide (p = q) then Some l
      else if decide (p `prefix_of` q) then
        match (q !! length p : option bool) with
        | Some b => if b then tloc t1 q else tloc t0 q
        | None => None
        end
      else None
  end.

Fixpoint tlocs t : list nat :=
  match t with
  | Leaf => []
  | Node l _ _ t0 t1 => l :: tlocs t0 ++ tlocs t1
  end.

Fixpoint theight t : nat :=
  match t with
  | Leaf => O
  | Node _ _ _ t0 t1 => S (theight t0 `max` theight t1)
  end.

(** The walk of [lookup]. *)
Fixpoint tlookup t ip : option V :=
  match t with
  | Leaf => None
  | Node _ p v t0 t1 =>
      if decide (p `prefix_of` ip) then
        match
          match (ip !! length p : option bool) with
          | Some b => if b then tlookup t1 ip else tlookup t0 ip
          | None => None
          end
        with
        | Some x => Some x
        | None => v
        end
      else None
  end.

(** The walk of [nodePlacement]: the last node on the path and whether it is
    the node of [q] itself. *)
Fixpoint tplace t q : option nat * bool :=
  match t with
  | Leaf => (None, false)
  | Node l p _ t0 t1 =>
      if decide (p = q) then (Some l, true)
      else if decide (p `prefix_of` q) then
        match (q !! length p : option bool) with
        | Some b =>
            match (if b then tplace t1 q else tplace t0 q) with
            | (None, _) => (Some l, false)
            | r => r
            end
        | None => (None, false)
        end
      else (None, false)
  end.

(** A node with subtrees [a] on the side of [b] and [c] on the other. *)
Definition fork (l : nat) p v (b : bool) (a c : tree V) : tree V :=
  if b then Node l p v c a else Node l p v a c.

Definition tsplit t p q (x : V) (l1 l2 : nat) : tree V :=
  let k := lcp p q in
  if decide (k = length q) then
    fork l1 q (Some x) (default false (p !! k)) t Leaf
  else
    fork l2 (take k q) None (default false (q !! k))
      (Node l1 q (Some x) Leaf Leaf) t.

Fixpoint tinsert t q (x : V) (l1 l2 : nat) : tree V :=
  match t with
  | Leaf => Node l1 q (Some x) Leaf Leaf
  | Node l p v t0 t1 =>
      if decide (p = q) then Node l p (Some x) t0 t1
      else if decide (p `prefix_of` q) then
        match (q !! length p : option bool) with
        | Some true => Node l p v t0 (tinsert t1 q x l1 l2)
        | Some false => Node l p v (tinsert t0 q x l1 l2) t1
        | None => t
        end
      else tsplit t p q x l1 l2
  end.

(** A node that is only kept when it has a value or two subtrees. *)
Definition mknode (l : nat) p v (t0 t1 : tree V) : tree V :=
  match v, t0, t1 with
  | None, Leaf, _ => t1
  | None, _, Leaf => t0
  | _, _, _ => Node l p v t0 t1
  end.

(** Forgets the value of cell [l]. *)
Fixpoint tremove (l : nat) t : tree V :=
  match t with
  | Leaf => Leaf
  | Node l' p v t0 t1 =>
      if decide (l = l') then mknode l' p None t0 t1
      else mknode l' p v (tremove l t0) (tremove l t1)
  end.

(** Compressed prefix trie of strings of at most [n] bits below [pre]: child
    prefixes extend the parent's by at least their side's bit, and a node
    without a value has two children. *)
Fixpoint twf (n : nat) (pre : list bool) t : Prop :=
  match t with
  | Leaf => True
  | Node _ p v t0 t1 =>
      pre `prefix_of` p /\ (length p <= n)%nat /\
      twf n (p ++ [false]) t0 /\ twf n (p ++ [true]) t1 /\
      (v = None -> t0 <> Leaf /\ t1 <> Leaf)
  end.

End tries.

(** ** Bit-string lemmas *)

Lemma length_bits_of ip : length (bits_of ip) = (8 * length ip)%nat.
Proof. induction ip as [|b ip IH]; [done|]. cbn [bits_of]. rewrite length_app, IH. simpl. lia. Qed.

Lemma bits_of_app a b : bits_of (a ++ b) = bits_of a ++ bits_of b.
Proof. induction a as [|x a IH]; [done|]. cbn [bits_of app]. by rewrite IH, app_assoc. Qed.

Lemma byte_bits_lookup b i : (i < 8)%nat -> byte_bits b !! i = Some (Z.testbit b (7 - Z.of_nat i)).
Proof. intros. do 8 (destruct i as [|i]; [done|]). lia. Qed.

Lemma bits_of_lookup ip i :
  (i < 8 * length ip)%nat ->
  exists b, ip !! (i / 8)%nat = Some b /\
    bits_of ip !! i = Some (Z.testbit b (7 - Z.of_nat (i mod 8))).
Proof.
  revert i. induction ip as [|b ip IH]; intros i Hi; [cbn in Hi; lia|].
  cbn [bits_of]. destruct (decide (i < 8)%nat) as [Hlt|Hge].
  - exists b. rewrite Nat.div_small, Nat.mod_small by done. split; [done|].
    rewrite lookup_app_l by (simpl; lia). by apply byte_bits_lookup.
  - destruct (IH (i - 8)%nat) as (b' & Hb & Hbit); [cbn [length] in Hi; lia|].
    exists b'. assert (Hdiv : (i / 8 = S ((i - 8) / 8))%nat).
    { replace i with (i - 8 + 1 * 8)%nat at 1 by lia. rewrite Nat.div_add by lia. lia. }
    assert (Hmod : (i mod 8 = (i - 8) mod 8)%nat).
    { replace i with (i - 8 + 1 * 8)%nat at 1 by lia. by rewrite Nat.Div0.mod_add. }
    rewrite Hdiv, Hmod. split; [done|]. rewrite lookup_app_r by (simpl; lia). done.
Qed.

(** Splitting a number at a power of two. *)
Lemma testbit_high_low x y n j :
  0 <= n -> 0 <= y < 2 ^ n -> 0 <= j ->
  Z.testbit (x * 2 ^ n + y) j = if decide (j < n) then Z.testbit y j else Z.testbit x (j - n).
Proof.
  intros Hn Hy Hj. case_decide.
  - rewrite <- (Z.mod_pow2_bits_low _ n j) by done.
    rewrite Z.add_comm, Z.mod_add, Z.mod_small by lia. done.
  - replace j with (j - n + n) at 1 by lia. rewrite <- Z.div_pow2_bits by lia.
    rewrite Z.div_add_l, Z.div_small by lia. by rewrite Z.add_0_r.
Qed.

Lemma pow256_pow2 n : 256 ^ Z.of_nat n = 2 ^ (8 * Z.of_nat n).
Proof. change 256 with (2 ^ 8). by rewrite <- Z.pow_mul_r by lia. Qed.

(** Bit [i] of an address is bit [8n - 1 - i] of its big-endian number. *)
Lemma bits_of_be ip i :
  is_bytes ip -> (i < 8 * length ip)%nat ->
  bits_of ip !! i = Some (Z.testbit (be_uint ip) (8 * zlen ip - 1 - Z.of_nat i)).
Proof.
  intros Hip. revert i. induction Hip as [|b ip Hb Hip IH]; intros i Hi; [cbn in Hi; lia|].
  cbn [bits_of]. rewrite be_uint_cons. unfold zlen in *. cbn [length] in *.
  pose proof (be_uint_bound ip Hip) as Hbd. unfold zlen in Hbd.
  rewrite pow256_pow2 in *. rewrite testbit_high_low by lia.
  destruct (decide (i < 8)%nat).
  - rewrite lookup_app_l by (simpl; lia). rewrite byte_bits_lookup by done.
    rewrite decide_False by lia. do 2 f_equal. lia.
  - rewrite lookup_app_r by (simpl; lia). rewrite decide_True by lia.
    rewrite IH by (simpl; lia). do 2 f_equal. simpl. lia.
Qed.

(** Equal leading bits, as equal quotients. *)
Lemma take_bits_div a b k :
  is_bytes a -> is_bytes b -> length a = length b -> (k <= 8 * length a)%nat ->
  take k (bits_of a) = take k (bits_of b) <->
  be_uint a / 2 ^ (8 * zlen a - Z.of_nat k) = be_uint b / 2 ^ (8 * zlen a - Z.of_nat k).
Proof.
  intros Ha Hb Hl Hk. set (m := 8 * zlen a - Z.of_nat k). unfold zlen in m.
  assert (Hbit : forall x, is_bytes x -> length x = length a -> forall i, (i < k)%nat ->
    take k (bits_of x) !! i = Some (Z.testbit (be_uint x / 2 ^ m) (Z.of_nat (k - 1 - i)))).
  { intros x Hx Hlx i Hi. rewrite lookup_take_lt, bits_of_be by (done || lia).
    rewrite Z.div_pow2_bits by lia. do 2 f_equal. unfold zlen. rewrite Hlx. lia. }
  split; intros Heq.
  - apply Z.bits_inj'. intros j Hj. destruct (decide (j < Z.of_nat k)) as [Hjk|Hjk].
    + specialize (Hbit a Ha eq_refl (k - 1 - Z.to_nat j)%nat ltac:(lia)) as H1.
      specialize (Hbit b Hb (eq_sym Hl) (k - 1 - Z.to_nat j)%nat ltac:(lia)) as H2.
      rewrite Heq, H2 in H1. injection H1 as H1.
      replace (Z.of_nat (k - 1 - (k - 1 - Z.to_nat j))) with j in H1 by lia. done.
    + rewrite !Z.div_pow2_bits by lia.
      assert (Hz : forall x, is_bytes x -> length x = length a ->
        Z.testbit (be_uint x) (j + m) = false).
      { intros x Hx Hlx. pose proof (be_uint_bound x Hx) as Hbd. unfold zlen in Hbd.
        rewrite Hlx, pow256_pow2 in Hbd.
        rewrite <- (Z.mod_small (be_uint x) (2 ^ (8 * Z.of_nat (length a)))) by lia.
        apply Z.mod_pow2_bits_high. lia. }
      rewrite !Hz; auto.
  - apply list_eq. intros i. destruct (decide (i < k)%nat).
    + rewrite !Hbit, Heq by (done || lia). done.
    + rewrite !lookup_ge_None_2; [done|..]; rewrite length_take; lia.
Qed.

Lemma lcp_ge a b k :
  (k <= lcp a b)%nat <-> (k <= length a)%nat /\ (k <= length b)%nat /\ take k a = take k b.
Proof.
  revert b k. induction a as [|x a IH]; intros [|y b] [|k]; cbn [lcp length take];
    try (split; [intros; split_and!; (lia || done)|intros (? & ? & ?); lia]).
  case_bool_decide as Hxy.
  - subst y. rewrite <- Nat.succ_le_mono, IH. split; [intros (? & ? & ->)|intros (? & ? & ?)];
      split_and!; (lia || congruence).
  - split; [lia|]. intros (_ & _ & ?). congruence.
Qed.

Lemma lcp_le_l a b : (lcp a b <= length a)%nat.
Proof. by apply (lcp_ge a b (lcp a b)). Qed.

Lemma lcp_le_r a b : (lcp a b <= length b)%nat.
Proof. by apply (lcp_ge a b (lcp a b)). Qed.

Lemma lcp_take a b : take (lcp a b) a = take (lcp a b) b.
Proof. by apply (lcp_ge a b (lcp a b)). Qed.

(** The common prefix stops at a difference. *)
Lemma lcp_stop a b :
  (lcp a b < length a)%nat -> (lcp a b < length b)%nat ->
  exists x, a !! lcp a b = Some x /\ b !! lcp a b = Some (negb x).
Proof.
  revert b. induction a as [|x a IH]; intros [|y b]; cbn [lcp length]; try lia.
  case_bool_decide as Hxy; intros.
  - apply IH; lia.
  - exists x. split; [done|]. cbn. by destruct x, y.
Qed.

Lemma lcp_app_eq h a b : lcp (h ++ a) (h ++ b) = (length h + lcp a b)%nat.
Proof. induction h as [|x h IH]; cbn; [done|]. by rewrite bool_decide_true, IH. Qed.

Lemma lcp_app_stop h1 h2 a b :
  (lcp h1 h2 < length h1)%nat -> (lcp h1 h2 < length h2)%nat ->
  lcp (h1 ++ a) (h2 ++ b) = lcp h1 h2.
Proof.
  revert h2. induction h1 as [|x h1 IH]; intros [|y h2]; cbn; try lia.
  case_bool_decide; [|done]. intros. rewrite IH; lia.
Qed.

(** [LeadingZeros] of the exclusive-or counts the equal leading bits. *)
Lemma LeadingZeros_lcp a b w :
  is_bytes a -> is_bytes b -> length a = length b -> w = 8 * zlen a ->
  LeadingZeros w (Z.lxor (be_uint a) (be_uint b)) = Z.of_nat (lcp (bits_of a) (bits_of b)).
Proof.
  intros Ha Hb Hl ->. pose proof (be_uint_bound a Ha) as Ba. pose proof (be_uint_bound b Hb) as Bb.
  unfold zlen in *. rewrite <- Hl in Bb. rewrite pow256_pow2 in *.
  set (w := 8 * Z.of_nat (length a)) in *. set (x := Z.lxor _ _).
  assert (Hx0 : 0 <= x) by (apply Z.lxor_nonneg; lia).
  assert (Hdiv : forall m, 0 <= m -> x < 2 ^ m <-> be_uint a / 2 ^ m = be_uint b / 2 ^ m).
  { intros m Hm. rewrite <- !Z.shiftr_div_pow2, <- Z.lxor_eq_0_iff, <- Z.shiftr_lxor by done.
    rewrite Z.shiftr_div_pow2 by done. fold x. split; intros H; [by apply Z.div_small|].
    apply Z.div_small_iff in H; lia. }
  assert (Hlz : forall k, 0 <= k <= w -> k <= LeadingZeros w x <-> x < 2 ^ (w - k)).
  { intros k Hk. unfold LeadingZeros. case_if.
    - rewrite Heqb0. split; [intros; apply Z.pow_pos_nonneg; lia|lia].
    - rewrite Z.log2_lt_pow2 by lia. lia. }
  assert (Hbits : forall k, (Z.of_nat k <= w) ->
    Z.of_nat k <= LeadingZeros w x <-> (k <= lcp (bits_of a) (bits_of b))%nat).
  { intros k Hk. rewrite Hlz by lia. rewrite Hdiv by lia.
    rewrite lcp_ge, !length_bits_of, <- Hl, take_bits_div by (done || lia).
    unfold zlen. subst w. intuition lia. }
  assert (0 <= LeadingZeros w x <= w).
  { unfold LeadingZeros. case_if; [lia|]. assert (Z.log2 x < w); [|pose proof (Z.log2_nonneg x); lia].
    apply Z.log2_lt_pow2; [lia|]. apply Hdiv; [lia|]. rewrite !Z.div_small by lia. done. }
  pose proof (lcp_le_l (bits_of a) (bits_of b)) as Hle. rewrite length_bits_of in Hle.
  pose proof (proj2 (Hbits (lcp (bits_of a) (bits_of b)) ltac:(lia)) ltac:(lia)).
  pose proof (proj1 (Hbits (Z.to_nat (LeadingZeros w x)) ltac:(lia)) ltac:(lia)). lia.
Qed.

(** Address sizes of the two tries. *)
Definition addr_len (n : nat) : Prop := n = IPv4len \/ n = IPv6len.

Lemma be_get_exact n b : length b = n -> be_get n b = Some (be_uint b).
Proof. intros <-. unfold be_get. rewrite decide_True by lia. by rewrite firstn_all. Qed.

Lemma be_get_take n b : (n <= length b)%nat -> be_get n b = Some (be_uint (take n b)).
Proof. intros. unfold be_get. by rewrite decide_True. Qed.

Lemma be_uint_inj a b :
  is_bytes a -> is_bytes b -> length a = length b -> be_uint a = be_uint b -> a = b.
Proof.
  intros Ha Hb Hl Heq. rewrite <- (be_put_uint a), <- (be_put_uint b) by done. congruence.
Qed.

Lemma commonBits_lcp a b :
  is_bytes a -> is_bytes b -> length a = length b -> addr_len (length a) ->
  commonBits a b = Some (Z.of_nat (lcp (bits_of a) (bits_of b))).
Proof.
  intros Ha Hb Hl Hn. unfold commonBits.
  pose proof (lcp_le_l (bits_of a) (bits_of b)) as Hle. rewrite length_bits_of in Hle.
  destruct Hn as [Hn|Hn]; rewrite Hn in *; unfold IPv4len, IPv6len in *.
  - rewrite decide_True by done. rewrite !be_get_exact by done. cbn.
    rewrite (LeadingZeros_lcp a b) by (done || unfold zlen; lia).
    rewrite u8_small; [done|]. unfold_words. lia.
  - rewrite decide_False, decide_True by lia. rewrite !be_get_take by (rewrite ?length_drop; lia). cbn.
    assert (Hla : length (take 8 a) = 8%nat) by (rewrite length_take; lia).
    assert (Hlb : length (take 8 b) = 8%nat) by (rewrite length_take; lia).
    assert (Hda : length (drop 8 a) = 8%nat) by (rewrite length_drop; lia).
    assert (Hdb : length (drop 8 b) = 8%nat) by (rewrite length_drop; lia).
    pose proof (LeadingZeros_lcp (take 8 a) (take 8 b) 64) as H1.
    pose proof (LeadingZeros_lcp (drop 8 a) (drop 8 b) 64) as H2.
    specialize (H1 ltac:(by apply Forall_take) ltac:(by apply Forall_take) ltac:(lia) ltac:(unfold zlen; lia)).
    specialize (H2 ltac:(by apply Forall_drop) ltac:(by apply Forall_drop) ltac:(lia) ltac:(unfold zlen; lia)).
    pose proof (lcp_le_l (bits_of (take 8 a)) (bits_of (take 8 b))) as L1.
    pose proof (lcp_le_l (bits_of (drop 8 a)) (bits_of (drop 8 b))) as L2.
    rewrite length_bits_of in L1, L2.
    replace (lcp (bits_of a) (bits_of b)) with
      (lcp (bits_of (take 8 a ++ drop 8 a)) (bits_of (take 8 b ++ drop 8 b)))
      by by rewrite !take_drop.
    rewrite !bits_of_app.
    destruct (Z.eqb_spec (Z.lxor (be_uint (take 8 a)) (be_uint (take 8 b))) 0) as [Hx|Hx]; cbn [negb].
    + apply Z.lxor_eq, be_uint_inj in Hx; [|by apply Forall_take..|lia].
      rewrite !(take_ge (drop 8 _)) by lia. rewrite Hx, lcp_app_eq, length_bits_of, Hlb, H2.
      rewrite (u8_small (Z.of_nat _)) by (unfold_words; lia). rewrite u8_small by (unfold_words; lia). f_equal. lia.
    + rewrite H1. rewrite u8_small by (unfold_words; lia). do 2 f_equal.
      assert (Hne : (lcp (bits_of (take 8 a)) (bits_of (take 8 b)) < 64)%nat).
      { unfold LeadingZeros in H1. destruct (Z.eqb_spec (Z.lxor (be_uint (take 8 a)) (be_uint (take 8 b))) 0); [done|].
        pose proof (Z.log2_nonneg (Z.lxor (be_uint (take 8 a)) (be_uint (take 8 b)))). lia. }
      symmetry. apply lcp_app_stop; rewrite length_bits_of; lia.
Qed.

(** [choose] reads the bit after the node's prefix. *)
Lemma choose_bit e ip k :
  (k < 8 * length ip)%nat -> bitAtByte e = Z.of_nat k / 8 ->
  bitAtShift e = 7 - Z.of_nat k mod 8 ->
  choose e ip = bits_of ip !! k.
Proof.
  intros Hk Hb Hs. destruct (bits_of_lookup ip k Hk) as (b & Hlk & ->).
  unfold choose, byte_at. rewrite Hb, Hs.
  rewrite decide_True by (apply Z.div_pos; lia).
  replace (Z.to_nat (Z.of_nat k / 8)) with (k / 8)%nat
    by (rewrite <- Nat2Z.id at 1; by rewrite Nat2Z.inj_div).
  rewrite Hlk. cbn [mbind option_bind]. f_equal. rewrite Nat2Z.inj_mod. change (Z.of_nat 8) with 8.
  assert (0 <= Z.of_nat k mod 8 < 8) by (apply Z.mod_pos_bound; lia).
  change 1 with (Z.ones 1). rewrite Z.land_ones by lia.
  pose proof (Z.testbit_spec' b (7 - Z.of_nat k mod 8) ltac:(lia)) as Ht.
  rewrite Z.shiftr_div_pow2 by lia. change (2 ^ 1) with 2. rewrite <- Ht.
  by destruct (Z.testbit b (7 - Z.of_nat k mod 8)).
Qed.

Lemma choose_end e ip :
  bitAtByte e = zlen ip -> choose e ip = None.
Proof.
  intros H. unfold choose, byte_at. rewrite H. unfold zlen. case_decide; [|done].
  rewrite lookup_ge_None_2 by lia. done.
Qed.

(** Masking keeps the prefix and clears the rest. *)
Lemma byte_bits_mask b c :
  0 <= c < 8 ->
  byte_bits (Z.land b (255 - Z.shiftr 0xff c)) =
  take (Z.to_nat c) (byte_bits b) ++ replicate (8 - Z.to_nat c) false.
Proof.
  intros Hc. unfold byte_bits. cbn [map]. rewrite !Z.land_spec.
  assert (c = 0 \/ c = 1 \/ c = 2 \/ c = 3 \/ c = 4 \/ c = 5 \/ c = 6 \/ c = 7) as Hcs by lia.
  repeat destruct Hcs as [->|Hcs]; [..|subst c]; cbn -[Z.testbit];
    repeat match goal with |- context [Z.testbit (Zpos ?x) ?i] =>
      let y := eval vm_compute in (Z.testbit (Zpos x) i) in
      change (Z.testbit (Zpos x) i) with y end;
    repeat match goal with |- context [Z.testbit 0 ?i] => change (Z.testbit 0 i) with false end;
    by rewrite ?andb_true_r, ?andb_false_r.
Qed.

Lemma byte_bits_full b : byte_bits (Z.land b 0xff) = byte_bits b.
Proof.
  unfold byte_bits. cbn [map]. rewrite !Z.land_spec.
  repeat match goal with |- context [Z.testbit 255 ?i] =>
    change (Z.testbit 255 i) with true end.
  by rewrite ?andb_true_r.
Qed.

Lemma bits_of_CIDRMask ip c :
  0 <= c <= 8 * zlen ip ->
  bits_of (zip_with Z.land ip (CIDRMask_bytes (length ip) c)) =
  take (Z.to_nat c) (bits_of ip) ++ replicate (8 * length ip - Z.to_nat c) false.
Proof.
  unfold zlen. revert c. induction ip as [|b ip IH]; intros c Hc.
  - cbn in *. replace (Z.to_nat c) with 0%nat by lia. done.
  - cbn [length CIDRMask_bytes zip_with bits_of] in *. case_if; cbn [zip_with bits_of].
    + rewrite byte_bits_full, IH by lia.
      rewrite take_app_ge by (simpl; lia). rewrite <- app_assoc. f_equal. f_equal.
      * f_equal. simpl. lia.
      * f_equal. lia.
    + rewrite byte_bits_mask, IH by lia. rewrite take_app_le by (simpl; lia).
      rewrite <- app_assoc. f_equal. change (Z.to_nat 0) with O. rewrite take_0, app_nil_l, <- replicate_add. f_equal. lia.
Qed.

Lemma length_CIDRMask_bytes n c : length (CIDRMask_bytes n c) = n.
Proof. revert c. induction n as [|n IH]; intros c; [done|]. cbn. case_if; cbn; by rewrite IH. Qed.

Lemma mask_bits_eq ip c :
  0 <= c <= 8 * zlen ip ->
  mask_bits ip c = zip_with Z.land ip (CIDRMask_bytes (length ip) c).
Proof.
  intros Hc. unfold mask_bits, CIDRMask, apply_mask. unfold zlen in Hc.
  rewrite (proj2 (Z.ltb_ge c 0)) by lia. rewrite Z.gtb_ltb, (proj2 (Z.ltb_ge _ c)) by lia. cbn [orb].
  rewrite length_CIDRMask_bytes, firstn_all, skipn_all. by rewrite app_nil_r.
Qed.

Lemma mask_bits_spec ip c :
  0 <= c <= 8 * zlen ip ->
  bits_of (mask_bits ip c) =
  take (Z.to_nat c) (bits_of ip) ++ replicate (8 * length ip - Z.to_nat c) false.
Proof. intros. rewrite mask_bits_eq by done. by apply bits_of_CIDRMask. Qed.

Lemma length_mask_bits ip c : 0 <= c <= 8 * zlen ip -> length (mask_bits ip c) = length ip.
Proof.
  intros. rewrite mask_bits_eq by done. rewrite length_zip_with, length_CIDRMask_bytes. lia.
Qed.

Lemma CIDRMask_bytes_bytes n c : 0 <= c -> is_bytes (CIDRMask_bytes n c).
Proof.
  revert c. induction n as [|n IH]; intros c Hc; [constructor|].
  cbn. case_if; (constructor; [|apply IH; lia]); unfold is_u8; [lia|].
  rewrite Z.shiftr_div_pow2 by lia.
  assert (0 < 2 ^ c) by (apply Z.pow_pos_nonneg; lia).
  assert (0 <= 255 / 2 ^ c <= 255); [|lia].
  split; [apply Z.div_pos; lia|]. apply Z.div_le_upper_bound; nia.
Qed.

Lemma is_bytes_mask_bits ip c : 0 <= c <= 8 * zlen ip -> is_bytes ip -> is_bytes (mask_bits ip c).
Proof.
  intros Hc Hip. rewrite mask_bits_eq by done.
  pose proof (CIDRMask_bytes_bytes (length ip) c ltac:(lia)) as Hm.
  revert Hip Hm. generalize (CIDRMask_bytes (length ip) c). clear Hc.
  induction ip as [|b ip IH]; intros [|m ms] Hip Hm; cbn; try constructor; inversion Hip; inversion Hm; subst.
  - unfold is_u8 in *. assert (0 <= Z.land b m) by (apply Z.land_nonneg; lia).
    assert (Z.land b m <= b); [|lia]. destruct (decide (b = 0)) as [->|]; [by rewrite Z.land_0_l|].
    destruct (decide (m = 0)) as [->|]; [rewrite Z.land_0_r; lia|].
    apply Z.ldiff_le; [lia|]. apply Z.bits_inj'. intros i Hi.
    rewrite Z.ldiff_spec, Z.land_spec, Z.bits_0. by destruct (Z.testbit b i), (Z.testbit m i).
  - by apply IH.
Qed.
