(* ===== verification/Trie.v ===== *)
(** * The functional trie is a finite map of prefixes

    Facts about the tries of [BitTrie]: what insertion, removal and the walks
    compute, that they keep tries well formed, and that the walk of [lookup]
    is longest-prefix match. *)

From stdpp Require Import base numbers list gmap.
From S2P Require Import Prelude AllowedIPs BitTrie.

Open Scope nat_scope.

(** ** Prefixes *)

Lemma prefix_snoc_lookup (p q : list bool) b :
  p ++ [b] `prefix_of` q <-> p `prefix_of` q /\ q !! length p = Some b.
Proof.
  split.
  - intros [k ->]. rewrite <- app_assoc. split; [by eexists|].
    by rewrite lookup_app_r, Nat.sub_diag.
  - intros [[k ->] Hb]. rewrite lookup_app_r, Nat.sub_diag in Hb by done.
    destruct k as [|b' k]; [done|]. injection Hb as ->. exists k. by rewrite <- app_assoc.
Qed.

Lemma prefix_snoc_inj (p q : list bool) b b' :
  p ++ [b] `prefix_of` q -> p ++ [b'] `prefix_of` q -> b = b'.
Proof. rewrite !prefix_snoc_lookup. intros [_ H1] [_ H2]. congruence. Qed.

Lemma prefix_snoc (p q : list bool) b : p ++ [b] `prefix_of` q -> p `prefix_of` q.
Proof. by intros [? _]%prefix_snoc_lookup. Qed.

Lemma prefix_snoc_ne (p q : list bool) b : p ++ [b] `prefix_of` q -> p <> q.
Proof. intros H ->. apply prefix_length in H. rewrite length_app in H. simpl in H. lia. Qed.

Lemma prefix_snoc_not (p : list bool) b : ~ p ++ [b] `prefix_of` p.
Proof. intros H. by apply prefix_snoc_ne in H. Qed.

(** Where [q] lies relative to a node with prefix [p]. *)
Inductive pcase (p q : list bool) : Prop :=
| PAt (H : p = q)
| PBelow b (H : p ++ [b] `prefix_of` q)
| POut (H : ~ p `prefix_of` q).

Lemma pcase_spec p q : pcase p q.
Proof.
  destruct (decide (p `prefix_of` q)) as [[[|b k] ->]|H].
  - apply PAt. by rewrite app_nil_r.
  - apply (PBelow _ _ b). exists k. by rewrite <- app_assoc.
  - by apply POut.
Qed.

Lemma prefix_take_eq (p ip : list bool) : p `prefix_of` ip -> take (length p) ip = p.
Proof. intros [k ->]. by rewrite take_app_length. Qed.

(** A common prefix ends before the strings part. *)
Lemma prefix_fork (pre m p q : list bool) b :
  pre `prefix_of` p -> pre `prefix_of` q -> m ++ [b] `prefix_of` q -> m ++ [negb b] `prefix_of` p ->
  pre `prefix_of` m.
Proof.
  intros Hp Hq Hmq Hmp.
  assert (Hc : ~ m ++ [b] `prefix_of` p).
  { intros H. pose proof (prefix_snoc_inj _ _ _ _ H Hmp). by destruct b. }
  destruct (prefix_weak_total pre (m ++ [b]) q Hq Hmq) as [[k Hk]|H]; [|destruct Hc; by etrans].
  induction k as [|z k _] using rev_ind.
  - rewrite app_nil_r in Hk. subst pre. done.
  - rewrite app_assoc in Hk. apply app_inj_tail in Hk as [-> _]. by exists k.
Qed.

#[export] Hint Resolve prefix_snoc prefix_snoc_ne prefix_snoc_not : core.

(** Side conditions about prefixes. *)
Ltac pfx :=
  match goal with
  | |- ?a = ?a => reflexivity
  | _ => assumption
  | |- _ <> _ => intros ->; pfx
  | |- ~ _ => intros ?; pfx
  | H : ?p ++ [_] `prefix_of` ?p |- _ => destruct (prefix_snoc_not _ _ H)
  | H : ~ ?p `prefix_of` ?q, H2 : ?p ++ [_] `prefix_of` ?q |- _ => destruct H; exact (prefix_snoc _ _ _ H2)
  | |- _ => solve [eauto]
  end.

Section tries.
Context {V : Type}.
Implicit Types (t : tree V) (v : option V) (x : V) (p q ip : list bool).

(** ** Walks, by case *)

Ltac walk_below :=
  intros H; pose proof (prefix_snoc_ne _ _ _ H); pose proof (prefix_snoc _ _ _ H);
  apply prefix_snoc_lookup in H as [? Hb]; cbn; rewrite ?decide_False, ?decide_True, ?Hb by done.

Ltac walk_out :=
  intros H; cbn; rewrite !decide_False; [done|done|by intros ->].

Lemma tget_at l p v t0 t1 : tget (Node l p v t0 t1) p = v.
Proof. cbn. by rewrite decide_True. Qed.

Lemma tget_below l p v t0 t1 q b :
  p ++ [b] `prefix_of` q -> tget (Node l p v t0 t1) q = tget (side b t0 t1) q.
Proof. walk_below. by destruct b. Qed.

Lemma tget_out l p v t0 t1 q : ~ p `prefix_of` q -> tget (Node l p v t0 t1) q = None.
Proof. walk_out. Qed.

Lemma tloc_at l p v t0 t1 : tloc (Node l p v t0 t1) p = Some l.
Proof. cbn. by rewrite decide_True. Qed.

Lemma tloc_below l p v t0 t1 q b :
  p ++ [b] `prefix_of` q -> tloc (Node l p v t0 t1) q = tloc (side b t0 t1) q.
Proof. walk_below. by destruct b. Qed.

Lemma tloc_out l p v t0 t1 q : ~ p `prefix_of` q -> tloc (Node l p v t0 t1) q = None.
Proof. walk_out. Qed.

Lemma tplace_at l p v t0 t1 : tplace (Node l p v t0 t1) p = (Some l, true).
Proof. cbn. by rewrite decide_True. Qed.

Lemma tplace_below l p v t0 t1 q b :
  p ++ [b] `prefix_of` q ->
  tplace (Node l p v t0 t1) q =
    match tplace (side b t0 t1) q with (None, _) => (Some l, false) | r => r end.
Proof. walk_below. by destruct b. Qed.

Lemma tplace_out l p v t0 t1 q : ~ p `prefix_of` q -> tplace (Node l p v t0 t1) q = (None, false).
Proof. walk_out. Qed.

Lemma tinsert_at l p v t0 t1 x l1 l2 :
  tinsert (Node l p v t0 t1) p x l1 l2 = Node l p (Some x) t0 t1.
Proof. cbn. by rewrite decide_True. Qed.

Lemma tinsert_below l p v t0 t1 q x l1 l2 b :
  p ++ [b] `prefix_of` q ->
  tinsert (Node l p v t0 t1) q x l1 l2 =
    fork l p v b (tinsert (side b t0 t1) q x l1 l2) (side (negb b) t0 t1).
Proof. walk_below. by destruct b. Qed.

Lemma tinsert_out l p v t0 t1 q x l1 l2 :
  ~ p `prefix_of` q ->
  tinsert (Node l p v t0 t1) q x l1 l2 = tsplit (Node l p v t0 t1) p q x l1 l2.
Proof. walk_out. Qed.

Lemma tlookup_below l p v t0 t1 ip b :
  p ++ [b] `prefix_of` ip ->
  tlookup (Node l p v t0 t1) ip =
    match tlookup (side b t0 t1) ip with Some x => Some x | None => v end.
Proof. walk_below. by destruct b. Qed.

Lemma tlookup_at l p v t0 t1 : tlookup (Node l p v t0 t1) p = v.
Proof. cbn. rewrite decide_True by done. by rewrite lookup_ge_None_2. Qed.

Lemma tlookup_out l p v t0 t1 ip : ~ p `prefix_of` ip -> tlookup (Node l p v t0 t1) ip = None.
Proof. intros. cbn. by rewrite decide_False. Qed.

(** ** Well-formedness *)

Lemma twf_weaken n pre pre' t : twf n pre t -> pre' `prefix_of` pre -> twf n pre' t.
Proof. destruct t; cbn; [done|]. intros (? & ?) ?. split; [by etrans|done]. Qed.

Lemma twf_side n l p v t0 t1 pre b :
  twf n pre (Node l p v t0 t1) -> twf n (p ++ [b]) (side b t0 t1).
Proof. intros (_ & _ & H0 & H1 & _). by destruct b. Qed.

Lemma twf_fork n pre l p v b a c :
  pre `prefix_of` p -> length p <= n -> twf n (p ++ [b]) a -> twf n (p ++ [negb b]) c ->
  (v = None -> a <> Leaf /\ c <> Leaf) -> twf n pre (fork l p v b a c).
Proof. intros. destruct b; cbn; split_and!; try done; tauto. Qed.

Lemma theight_le n pre t : twf n pre t -> length pre <= S n -> theight t + length pre <= S n.
Proof.
  revert pre. induction t as [|l p v t0 IH0 t1 IH1]; intros pre; cbn; [lia|].
  intros (Hp & Hn & H0 & H1 & _) _. apply prefix_length in Hp.
  apply IH0 in H0; [|rewrite length_app; simpl; lia].
  apply IH1 in H1; [|rewrite length_app; simpl; lia].
  rewrite length_app in *. simpl in *. lia.
Qed.

(** Nothing is stored outside the prefix of a trie. *)
Lemma tget_pre n pre t q : twf n pre t -> ~ pre `prefix_of` q -> tget t q = None.
Proof.
  destruct t as [|l p v t0 t1]; [done|]. intros (Hp & _) Hq. apply tget_out.
  intros H. apply Hq. by etrans.
Qed.

Lemma tloc_pre n pre t q : twf n pre t -> ~ pre `prefix_of` q -> tloc t q = None.
Proof.
  destruct t as [|l p v t0 t1]; [done|]. intros (Hp & _) Hq. apply tloc_out.
  intros H. apply Hq. by etrans.
Qed.

Lemma tget_fork l p v b a c q :
  tget (fork l p v b a c) q =
  if decide (p = q) then v
  else if decide (p ++ [b] `prefix_of` q) then tget a q
  else if decide (p ++ [negb b] `prefix_of` q) then tget c q else None.
Proof.
  unfold fork. destruct (pcase_spec p q) as [<-|b' H|H].
  - rewrite decide_True by done. destruct b; apply tget_at.
  - rewrite decide_False by eauto. destruct b, b'; rewrite (tget_below _ _ _ _ _ _ _ H); cbn;
      (case_decide; [|try done]); try done; rewrite ?decide_True by done; try done;
      by assert (true = false) by (eapply prefix_snoc_inj; eauto).
  - rewrite !decide_False; [|eauto..|by intros ->]. destruct b; by apply tget_out.
Qed.

Lemma tloc_fork l p v b a c q :
  tloc (fork l p v b a c) q =
  if decide (p = q) then Some l
  else if decide (p ++ [b] `prefix_of` q) then tloc a q
  else if decide (p ++ [negb b] `prefix_of` q) then tloc c q else None.
Proof.
  unfold fork. destruct (pcase_spec p q) as [<-|b' H|H].
  - rewrite decide_True by done. destruct b; apply tloc_at.
  - rewrite decide_False by eauto. destruct b, b'; rewrite (tloc_below _ _ _ _ _ _ _ H); cbn;
      (case_decide; [|try done]); try done; rewrite ?decide_True by done; try done;
      by assert (true = false) by (eapply prefix_snoc_inj; eauto).
  - rewrite !decide_False; [|eauto..|by intros ->]. destruct b; by apply tloc_out.
Qed.

(** ** Insertion *)

(** Where two incomparable prefixes part. *)
Lemma lcp_out p q :
  ~ p `prefix_of` q ->
  (lcp p q = length q /\ exists b, p !! lcp p q = Some b /\ q ++ [b] `prefix_of` p) \/
  (lcp p q < length q /\ exists b, q !! lcp p q = Some b /\
    take (lcp p q) q ++ [b] `prefix_of` q /\ take (lcp p q) q ++ [negb b] `prefix_of` p).
Proof.
  intros Hout. pose proof (lcp_le_r p q) as Hr. pose proof (lcp_take p q) as Ht.
  assert (Hl : lcp p q < length p).
  { pose proof (lcp_le_l p q). destruct (decide (lcp p q = length p)) as [Heq|]; [|lia].
    exfalso. apply Hout. rewrite Heq, firstn_all in Ht. rewrite Ht. exists (drop (length p) q).
    by rewrite take_drop. }
  destruct (decide (lcp p q = length q)) as [Heq|Hne]; [left|right].
  - split; [done|]. rewrite Heq in *. rewrite firstn_all in Ht.
    destruct (lookup_lt_is_Some_2 p (length q) Hl) as [b Hb]. exists b. split; [done|].
    apply prefix_snoc_lookup. split; [|done]. rewrite <- Ht. exists (drop (length q) p). by rewrite take_drop.
  - destruct (lcp_stop p q Hl ltac:(lia)) as (x & Hp & Hq). split; [lia|]. exists (negb x).
    split_and!; [done|..]; apply prefix_snoc_lookup; rewrite length_take, Nat.min_l, ?negb_involutive by lia.
    + split; [|done]. exists (drop (lcp p q) q). by rewrite take_drop.
    + split; [|done]. rewrite <- Ht. exists (drop (lcp p q) p). by rewrite take_drop.
Qed.

Lemma tsplit_cases l p v t0 t1 q x l1 l2 :
  ~ p `prefix_of` q ->
  (exists b, q ++ [b] `prefix_of` p /\
     tsplit (Node l p v t0 t1) p q x l1 l2 = fork l1 q (Some x) b (Node l p v t0 t1) Leaf) \/
  (exists m b, m ++ [b] `prefix_of` q /\ m ++ [negb b] `prefix_of` p /\
     tsplit (Node l p v t0 t1) p q x l1 l2 =
       fork l2 m None b (Node l1 q (Some x) Leaf Leaf) (Node l p v t0 t1)).
Proof.
  intros Hout. unfold tsplit.
  destruct (lcp_out p q Hout) as [(Hk & b & Hb & Hpre)|(Hk & b & Hb & Hq & Hp)].
  - left. exists b. rewrite decide_True, Hb by done. done.
  - right. exists (take (lcp p q) q), b. rewrite decide_False, Hb by lia. done.
Qed.

Lemma tget_single l q x q' :
  tget (Node l q (Some x) Leaf Leaf) q' = if decide (q = q') then Some x else None.
Proof.
  destruct (pcase_spec q q') as [<-|b H|H].
  - by rewrite tget_at, decide_True.
  - rewrite (tget_below _ _ _ _ _ _ _ H), decide_False by eauto. by destruct b.
  - rewrite tget_out, decide_False; [done|by intros ->|done].
Qed.

Lemma tget_tinsert n pre t q x l1 l2 q' :
  twf n pre t ->
  tget (tinsert t q x l1 l2) q' = if decide (q = q') then Some x else tget t q'.
Proof.
  revert pre. induction t as [|l p v t0 IH0 t1 IH1]; intros pre Hwf; [apply tget_single|].
  destruct (pcase_spec p q) as [->|b H|H].
  - rewrite tinsert_at. case_decide as Hq; [subst; apply tget_at|].
    destruct (pcase_spec q q') as [?|b' H'|H']; [done|..].
    + by rewrite !(tget_below _ _ _ _ _ _ _ H').
    + by rewrite !tget_out.
  - rewrite (tinsert_below _ _ _ _ _ _ _ _ _ _ H), tget_fork.
    assert (IH : tget (tinsert (side b t0 t1) q x l1 l2) q' =
      if decide (q = q') then Some x else tget (side b t0 t1) q').
    { destruct Hwf as (_ & _ & W0 & W1 & _). destruct b; [by eapply IH1|by eapply IH0]. }
    destruct (pcase_spec p q') as [<-|b' H'|H'].
    + rewrite decide_True, tget_at, decide_False by pfx. done.
    + rewrite decide_False by eauto. rewrite (tget_below _ _ _ _ _ _ _ H').
      destruct (decide (b = b')) as [<-|Hb].
      * by rewrite decide_True, IH.
      * rewrite decide_False by (intros H2; by apply Hb, (prefix_snoc_inj p q')).
        replace (negb b) with b' by (by destruct b, b'). rewrite decide_True by done.
        rewrite decide_False; [done|]. intros ->. by apply Hb, (prefix_snoc_inj p q').
    + rewrite !decide_False, tget_out by pfx. done.
  - rewrite tinsert_out by done.
    destruct (tsplit_cases l p v t0 t1 q x l1 l2 H) as [(b & Hpre & ->)|(m & b & Hq & Hp & ->)];
      rewrite tget_fork.
    + case_decide as Hq; [done|]. case_decide as Hb; [done|].
      rewrite tget_out; [by case_decide|]. intros Hpq. apply Hb. by etrans.
    + destruct (decide (m = q')) as [<-|Hm].
      * rewrite decide_False by pfx. rewrite tget_out; [done|].
        intros Hpm. eapply prefix_snoc_not. by etrans.
      * destruct (decide (m ++ [b] `prefix_of` q')) as [Hb|Hb].
        -- rewrite tget_single. case_decide; [done|]. rewrite tget_out; [done|].
           intros Hpq. assert (b = negb b); [|by destruct b].
           eapply (prefix_snoc_inj m q'); [done|]. by etrans.
        -- rewrite (decide_False (P := q = q')) by (intros ->; done).
           destruct (decide (m ++ [negb b] `prefix_of` q')) as [?|Hnb]; [done|]. rewrite tget_out; [done|].
           intros Hpq. apply Hnb. by etrans.
Qed.

Lemma twf_tinsert n pre t q x l1 l2 :
  twf n pre t -> pre `prefix_of` q -> length q <= n -> twf n pre (tinsert t q x l1 l2).
Proof.
  revert pre. induction t as [|l p v t0 IH0 t1 IH1]; intros pre Hwf Hpre Hlen; [cbn; by split_and!|].
  pose proof Hwf as (Hp & Hlp & H0 & H1 & Hc).
  destruct (pcase_spec p q) as [->|b H|H].
  - rewrite tinsert_at. cbn. by split_and!.
  - rewrite (tinsert_below _ _ _ _ _ _ _ _ _ _ H). apply twf_fork; try done.
    + destruct b; [by apply IH1|by apply IH0].
    + by destruct b.
    + intros Hv. destruct (Hc Hv) as [Hl Hr].
      split; destruct b; cbn; try done; [destruct t1|destruct t0]; try done; cbn; repeat case_decide;
      try done; unfold tsplit; repeat case_decide; unfold fork; repeat case_match; done.
  - rewrite tinsert_out by done.
    destruct (tsplit_cases l p v t0 t1 q x l1 l2 H) as [(b & Hb & ->)|(m & b & Hq & Hm & ->)].
    + apply twf_fork; done.
    + apply twf_fork.
      * by eapply (prefix_fork pre m p q b).
      * apply prefix_snoc, prefix_length in Hq. lia.
      * cbn. by split_and!.
      * cbn. by split_and!.
      * done.
Qed.

(** ** Cells *)

Lemma tloc_tget t q : tget t q <> None -> exists l, tloc t q = Some l.
Proof.
  induction t as [|l p v t0 IH0 t1 IH1]; [done|]. destruct (pcase_spec p q) as [<-|b H|H].
  - rewrite tloc_at. eauto.
  - rewrite (tget_below _ _ _ _ _ _ _ H), (tloc_below _ _ _ _ _ _ _ H). by destruct b.
  - by rewrite tget_out.
Qed.

Lemma tloc_in t q l : tloc t q = Some l -> l ∈ tlocs t.
Proof.
  induction t as [|l' p v t0 IH0 t1 IH1]; [done|]. destruct (pcase_spec p q) as [<-|b H|H].
  - rewrite tloc_at. intros [= ->]. cbn. set_solver.
  - rewrite (tloc_below _ _ _ _ _ _ _ H). destruct b; cbn in *; set_solver.
  - by rewrite tloc_out.
Qed.

(** Distinct nodes have distinct cells. *)
Lemma tloc_inj t q q' l :
  NoDup (tlocs t) -> tloc t q = Some l -> tloc t q' = Some l -> q = q'.
Proof.
  induction t as [|l' p v t0 IH0 t1 IH1]; [done|]. cbn [tlocs].
  intros [Hl (N0 & Hd & N1)%NoDup_app]%NoDup_cons.
  assert (Hs : forall b q, tloc (side b t0 t1) q = Some l -> l ∈ tlocs (side b t0 t1) /\ l <> l').
  { intros b q2 H%tloc_in. split; [done|]. intros ->. apply Hl. destruct b; set_solver. }
  destruct (pcase_spec p q) as [<-|b H|H], (pcase_spec p q') as [<-|b' H'|H']; try done;
    rewrite ?tloc_at, ?(tloc_out _ _ _ _ _ q), ?(tloc_out _ _ _ _ _ q') by done; try done.
  - rewrite (tloc_below _ _ _ _ _ _ _ H'). intros [= ->] Hq. by destruct (Hs _ _ Hq).
  - rewrite (tloc_below _ _ _ _ _ _ _ H). intros Hq [= ->]. by destruct (Hs _ _ Hq).
  - rewrite (tloc_below _ _ _ _ _ _ _ H), (tloc_below _ _ _ _ _ _ _ H'). intros Hq Hq'.
    destruct (Hs _ _ Hq) as [I1 _], (Hs _ _ Hq') as [I2 _].
    destruct b, b'; cbn in *; [by apply IH1|by destruct (Hd l)..|by apply IH0].
Qed.

Lemma tplace_exact t q l : tplace t q = (Some l, true) <-> tloc t q = Some l.
Proof.
  induction t as [|l' p v t0 IH0 t1 IH1]; [done|]. destruct (pcase_spec p q) as [<-|b H|H].
  - rewrite tplace_at, tloc_at. split; congruence.
  - rewrite (tplace_below _ _ _ _ _ _ _ H), (tloc_below _ _ _ _ _ _ _ H).
    assert (IH : tplace (side b t0 t1) q = (Some l, true) <-> tloc (side b t0 t1) q = Some l) by by destruct b.
    rewrite <- IH. destruct (tplace (side b t0 t1) q) as [[l2|] e]; [done|]. split; congruence.
  - by rewrite tplace_out, tloc_out.
Qed.

Lemma tplace_None t q : tplace t q <> (None, true).
Proof.
  destruct t as [|l p v t0 t1]; [done|]. destruct (pcase_spec p q) as [<-|b H|H].
  - by rewrite tplace_at.
  - rewrite (tplace_below _ _ _ _ _ _ _ H). by destruct (tplace (side b t0 t1) q) as [[?|] ?].
  - by rewrite tplace_out.
Qed.

Lemma tplace_inexact t q : snd (tplace t q) = false <-> tloc t q = None.
Proof.
  induction t as [|l' p v t0 IH0 t1 IH1]; [done|]. destruct (pcase_spec p q) as [<-|b H|H].
  - rewrite tplace_at, tloc_at. done.
  - rewrite (tplace_below _ _ _ _ _ _ _ H), (tloc_below _ _ _ _ _ _ _ H).
    assert (IH : snd (tplace (side b t0 t1) q) = false <-> tloc (side b t0 t1) q = None) by by destruct b.
    rewrite <- IH. destruct (tplace (side b t0 t1) q) as [[l2|] [|]] eqn:E; try done.
    by destruct (tplace_None (side b t0 t1) q).
  - by rewrite tplace_out, tloc_out.
Qed.

Lemma tlocs_fork l p v b a c : tlocs (fork l p v b a c) ≡ₚ l :: tlocs a ++ tlocs c.
Proof. destruct b; cbn; [|done]. by rewrite (Permutation_app_comm (tlocs c)). Qed.

Lemma tlocs_side b t0 t1 : tlocs (side b t0 t1) ++ tlocs (side (negb b) t0 t1) ≡ₚ tlocs t0 ++ tlocs t1.
Proof. destruct b; cbn; [|done]. apply Permutation_app_comm. Qed.

(** Insertion takes at most the two fresh cells. *)
Lemma tlocs_tinsert t q x l1 l2 :
  exists new, (new = [] \/ new = [l1] \/ new = [l1; l2]) /\
    (new = [] -> tloc t q <> None) /\
    tlocs (tinsert t q x l1 l2) ≡ₚ new ++ tlocs t.
Proof.
  induction t as [|l p v t0 IH0 t1 IH1]; [exists [l1]; cbn; naive_solver|].
  destruct (pcase_spec p q) as [->|b H|H].
  - exists []. rewrite tinsert_at, tloc_at. naive_solver.
  - assert (IH : exists new, (new = [] \/ new = [l1] \/ new = [l1; l2]) /\
      (new = [] -> tloc (side b t0 t1) q <> None) /\
      tlocs (tinsert (side b t0 t1) q x l1 l2) ≡ₚ new ++ tlocs (side b t0 t1)) by by destruct b.
    destruct IH as (new & Hn & Hnil & Hp). exists new. split; [done|].
    rewrite (tloc_below _ _ _ _ _ _ _ H). split; [done|].
    rewrite (tinsert_below _ _ _ _ _ _ _ _ _ _ H), tlocs_fork, Hp, <- app_assoc, tlocs_side.
    cbn. apply Permutation_middle.
  - rewrite tinsert_out, tloc_out by done.
    destruct (tsplit_cases l p v t0 t1 q x l1 l2 H) as [(b & _ & ->)|(m & b & _ & _ & ->)].
    + exists [l1]. split_and!; [naive_solver|done|]. rewrite tlocs_fork. cbn [tlocs app].
      by rewrite app_nil_r.
    + exists [l1; l2]. split_and!; [naive_solver|done|]. rewrite tlocs_fork. cbn. apply perm_swap.
Qed.

Lemma tloc_tinsert_eq n pre t q x l1 l2 :
  twf n pre t -> tloc (tinsert t q x l1 l2) q = Some (default l1 (tloc t q)).
Proof.
  revert pre. induction t as [|l p v t0 IH0 t1 IH1]; intros pre Hwf; [apply tloc_at|].
  destruct (pcase_spec p q) as [->|b H|H].
  - by rewrite tinsert_at, !tloc_at.
  - rewrite (tinsert_below _ _ _ _ _ _ _ _ _ _ H), tloc_fork, (tloc_below _ _ _ _ _ _ _ H).
    rewrite decide_False, decide_True by pfx.
    destruct Hwf as (_ & _ & W0 & W1 & _). destruct b; [by eapply IH1|by eapply IH0].
  - rewrite tinsert_out, (tloc_out _ _ _ _ _ _ H) by done.
    destruct (tsplit_cases l p v t0 t1 q x l1 l2 H) as [(b & _ & ->)|(m & b & Hq & _ & ->)];
      rewrite tloc_fork.
    + by rewrite decide_True.
    + rewrite decide_False, decide_True, tloc_at by pfx. done.
Qed.

(** Nodes stay in their cells. *)
Lemma tloc_tinsert_keep n pre t q x l1 l2 q' l' :
  twf n pre t -> tloc t q' = Some l' -> tloc (tinsert t q x l1 l2) q' = Some l'.
Proof.
  revert pre. induction t as [|l p v t0 IH0 t1 IH1]; intros pre Hwf; [done|]. intros Hl.
  destruct (pcase_spec p q) as [->|b H|H].
  - rewrite tinsert_at. exact Hl.
  - rewrite (tinsert_below _ _ _ _ _ _ _ _ _ _ H), tloc_fork.
    destruct (pcase_spec p q') as [<-|b' H'|H'].
    + rewrite decide_True by done. by rewrite tloc_at in Hl.
    + rewrite decide_False by pfx. rewrite (tloc_below _ _ _ _ _ _ _ H') in Hl.
      destruct Hwf as (_ & _ & W0 & W1 & _).
      destruct (decide (b = b')) as [<-|Hb].
      * rewrite decide_True by done. destruct b; [by eapply IH1|by eapply IH0].
      * rewrite decide_False by (intros H2; by apply Hb, (prefix_snoc_inj p q')).
        replace (negb b) with b' by (by destruct b, b'). by rewrite decide_True.
    + by rewrite tloc_out in Hl.
  - rewrite tinsert_out by done.
    assert (Hp : p `prefix_of` q').
    { destruct (decide (p `prefix_of` q')); [done|]. by rewrite tloc_out in Hl. }
    destruct (tsplit_cases l p v t0 t1 q x l1 l2 H) as [(b & Hb & ->)|(m & b & Hq & Hm & ->)];
      rewrite tloc_fork.
    + assert (q ++ [b] `prefix_of` q') by by etrans. by rewrite decide_False, decide_True by pfx.
    + assert (Hn : m ++ [negb b] `prefix_of` q') by by etrans. rewrite decide_False by pfx.
      rewrite decide_False, decide_True; [done|done|].
      intros H2. pose proof (prefix_snoc_inj _ _ _ _ H2 Hn). by destruct b.
Qed.

(** ** Removal *)

Lemma mknode_cases l p v t0 t1 :
  mknode l p v t0 t1 = Node l p v t0 t1 \/
  v = None /\ exists b, mknode l p v t0 t1 = side b t0 t1 /\ side (negb b) t0 t1 = Leaf.
Proof.
  destruct v as [x|]; [by left|]. destruct t0; [right; split; [done|]; by exists true|].
  destruct t1; [right; split; [done|]; by exists false|by left].
Qed.

Lemma twf_mknode n pre l p v t0 t1 :
  pre `prefix_of` p -> length p <= n -> twf n (p ++ [false]) t0 -> twf n (p ++ [true]) t1 ->
  twf n pre (mknode l p v t0 t1).
Proof.
  intros Hp Hn H0 H1.
  assert (Hs : forall b, twf n pre (side b t0 t1)).
  { intros b. assert (pre `prefix_of` p ++ [b]) by by apply prefix_app_r.
    destruct b; by eapply twf_weaken. }
  unfold mknode. destruct v as [x|], t0, t1; try done;
    first [apply (Hs true)|apply (Hs false)|split_and!; try done; naive_solver].
Qed.

(** Dropping a redundant node loses nothing. *)
Lemma tget_mknode n l p v t0 t1 q :
  twf n (p ++ [false]) t0 -> twf n (p ++ [true]) t1 ->
  tget (mknode l p v t0 t1) q = tget (Node l p v t0 t1) q.
Proof.
  intros H0 H1. destruct (mknode_cases l p v t0 t1) as [->|(-> & b & -> & Hb)]; [done|].
  assert (Hs : twf n (p ++ [b]) (side b t0 t1)) by by destruct b.
  destruct (pcase_spec p q) as [<-|b' H|H].
  - rewrite tget_at. by eapply tget_pre.
  - rewrite (tget_below _ _ _ _ _ _ _ H). destruct (decide (b = b')) as [->|Hne]; [done|].
    replace b' with (negb b) by (by destruct b, b'). rewrite Hb. eapply tget_pre; [done|].
    intros H'. by apply Hne, (prefix_snoc_inj p q).
  - rewrite tget_out by done. eapply tget_pre; [done|]. eauto.
Qed.

Lemma tloc_mknode n l p v t0 t1 q :
  twf n (p ++ [false]) t0 -> twf n (p ++ [true]) t1 -> tget (Node l p v t0 t1) q <> None ->
  tloc (mknode l p v t0 t1) q = tloc (Node l p v t0 t1) q.
Proof.
  intros H0 H1 Hq. destruct (mknode_cases l p v t0 t1) as [->|(-> & b & -> & Hb)]; [done|].
  destruct (pcase_spec p q) as [<-|b' H|H].
  - by rewrite tget_at in Hq.
  - rewrite (tget_below _ _ _ _ _ _ _ H) in Hq. rewrite (tloc_below _ _ _ _ _ _ _ H).
    destruct (decide (b = b')) as [->|Hne]; [done|].
    replace b' with (negb b) in Hq by (by destruct b, b'). by rewrite Hb in Hq.
  - by rewrite tget_out in Hq.
Qed.

Lemma twf_tremove n pre t l : twf n pre t -> twf n pre (tremove l t).
Proof.
  revert pre. induction t as [|l' p v t0 IH0 t1 IH1]; intros pre Hwf; [done|].
  destruct Hwf as (Hp & Hn & W0 & W1 & _). cbn [tremove]. case_decide; apply twf_mknode; auto.
Qed.

Lemma tlocs_mknode l p v t0 t1 : sublist (tlocs (mknode l p v t0 t1)) (l :: tlocs t0 ++ tlocs t1).
Proof.
  unfold mknode. destruct v as [x|]; [done|]. destruct t0 as [|l0 p0 v0 a0 b0].
  - apply sublist_cons. done.
  - destruct t1 as [|l1 p1 v1 a1 b1]; [|done]. apply sublist_cons. cbn [tlocs].
    by rewrite app_nil_r.
Qed.

Lemma tlocs_tremove l t : sublist (tlocs (tremove l t)) (tlocs t).
Proof.
  induction t as [|l' p v t0 IH0 t1 IH1]; [done|]. cbn [tremove tlocs].
  case_decide; [apply tlocs_mknode|]. etrans; [apply tlocs_mknode|].
  apply sublist_skip. by apply sublist_app.
Qed.

Lemma tremove_notin n pre t l : twf n pre t -> l ∉ tlocs t -> tremove l t = t.
Proof.
  revert pre. induction t as [|l' p v t0 IH0 t1 IH1]; intros pre Hwf Hl; [done|].
  destruct Hwf as (Hp & Hn & W0 & W1 & Hc). cbn [tremove tlocs] in *. rewrite decide_False by set_solver.
  erewrite IH0, IH1 by (done || set_solver). unfold mknode.
  destruct v as [x|]; [done|]. destruct Hc as [? ?]; [done|]. by destruct t0, t1.
Qed.

(** Removal of a cell forgets exactly the prefix of its node. *)
Lemma tget_tremove n pre t l q :
  twf n pre t -> NoDup (tlocs t) ->
  tget (tremove l t) q = if decide (tloc t q = Some l) then None else tget t q.
Proof.
  revert pre. induction t as [|l' p v t0 IH0 t1 IH1]; intros pre Hwf Hnd; [done|].
  destruct Hwf as (Hp & Hn & W0 & W1 & Hc). cbn [tremove tlocs] in *.
  apply NoDup_cons in Hnd as [Hl' (N0 & _ & N1)%NoDup_app].
  destruct (decide (l = l')) as [<-|Hl].
  - rewrite (tget_mknode n) by done. destruct (pcase_spec p q) as [<-|b H|H].
    + by rewrite tget_at, tloc_at, decide_True.
    + rewrite !(tget_below _ _ _ _ _ _ _ H), (tloc_below _ _ _ _ _ _ _ H).
      rewrite decide_False; [done|]. intros ?%tloc_in. destruct b; set_solver.
    + rewrite !tget_out, tloc_out, decide_False by done. done.
  - rewrite (tget_mknode n) by (by apply twf_tremove). destruct (pcase_spec p q) as [<-|b H|H].
    + rewrite !tget_at, tloc_at, decide_False by congruence. done.
    + rewrite !(tget_below _ _ _ _ _ _ _ H), (tloc_below _ _ _ _ _ _ _ H).
      destruct b; [by eapply IH1|by eapply IH0].
    + rewrite !tget_out, tloc_out, decide_False by done. done.
Qed.

Lemma tloc_tremove n pre t l q l2 :
  twf n pre t -> NoDup (tlocs t) -> tget t q <> None -> tloc t q = Some l2 -> l2 <> l ->
  tloc (tremove l t) q = Some l2.
Proof.
  revert pre. induction t as [|l' p v t0 IH0 t1 IH1]; intros pre Hwf Hnd Hq Hloc Hne; [done|].
  pose proof (tget_tremove _ _ _ l q Hwf Hnd) as Hg.
  rewrite decide_False in Hg by congruence.
  destruct Hwf as (Hp & Hn & W0 & W1 & Hc). cbn [tremove tlocs] in *.
  apply NoDup_cons in Hnd as [Hl' (N0 & _ & N1)%NoDup_app].
  destruct (decide (l = l')) as [<-|Hl].
  - rewrite (tget_mknode n) in Hg by done. rewrite (tloc_mknode n) by (first [done | rewrite Hg; done]).
    destruct (pcase_spec p q) as [<-|b H|H]; [|rewrite (tloc_below _ _ _ _ _ _ _ H) in Hloc; rewrite (tloc_below _ _ _ _ _ _ _ H); done|by rewrite tget_out in Hq].
    rewrite tloc_at in Hloc. congruence.
  - rewrite (tget_mknode n) in Hg by (by apply twf_tremove).
    rewrite (tloc_mknode n) by (first [by apply twf_tremove | rewrite Hg; done]).
    destruct (pcase_spec p q) as [<-|b H|H]; [rewrite tloc_at in Hloc; rewrite tloc_at; done| |by rewrite tget_out in Hq].
    rewrite (tloc_below _ _ _ _ _ _ _ H) in Hloc. rewrite (tloc_below _ _ _ _ _ _ _ H). rewrite (tget_below _ _ _ _ _ _ _ H) in Hq.
    destruct b; [by eapply IH1|by eapply IH0].
Qed.

(** ** Lookup is longest-prefix match *)

(** [r] is the value of the longest prefix of [ip] that [g] maps. *)
Definition is_lpm (g : list bool -> option V) ip (r : option V) : Prop :=
  match r with
  | Some x => exists k, k <= length ip /\ g (take k ip) = Some x /\
      forall j, k < j <= length ip -> g (take j ip) = None
  | None => forall j, j <= length ip -> g (take j ip) = None
  end.

Lemma is_lpm_unique g ip r r' : is_lpm g ip r -> is_lpm g ip r' -> r = r'.
Proof.
  destruct r as [x|], r' as [x'|]; cbn; [|naive_solver..].
  intros (k & Hk & Hx & Hj) (k' & Hk' & Hx' & Hj').
  destruct (Nat.lt_trichotomy k k') as [H|[<-|H]]; [|congruence|].
  - rewrite Hj in Hx' by lia. done.
  - rewrite Hj' in Hx by lia. done.
Qed.

Lemma lpm_is_lpm (m : gmap (list bool) V) ip : is_lpm (fun q => m !! q) ip (lpm m ip).
Proof.
  unfold lpm. set (f := fun acc k => _).
  assert (H : forall n, n <= length ip ->
    match foldl f None (seq 0 (S n)) with
    | Some x => exists k, k <= n /\ m !! take k ip = Some x /\ forall j, k < j <= n -> m !! take j ip = None
    | None => forall j, j <= n -> m !! take j ip = None
    end); [|apply (H (length ip)); lia].
  induction n as [|n IH]; intros Hn.
  - cbn [seq foldl]. unfold f. destruct (m !! take 0 ip) eqn:E.
    { exists 0. split_and!; [lia|done|lia]. }
    intros j Hj.
    replace j with 0 by lia. done.
  - rewrite seq_S, foldl_app. specialize (IH ltac:(lia)).
    cbn [foldl]. unfold f at 1. replace (0 + S n) with (S n) by lia.
    destruct (foldl f None (seq 0 (S n))) as [y|];
      destruct (m !! take (S n) ip) eqn:E.
    + exists (S n). split_and!; [lia|done|lia].
    + destruct IH as (k & Hk & Hy & Hj). exists k. split_and!; [lia|done|]. intros j ?.
      destruct (decide (j = S n)) as [->|]; [done|]. apply Hj. lia.
    + exists (S n). split_and!; [lia|done|lia].
    + intros j ?. destruct (decide (j = S n)) as [->|]; [done|]. apply IH. lia.
Qed.

Lemma prefix_take_iff p ip j : j <= length ip -> p `prefix_of` take j ip <-> p `prefix_of` ip /\ length p <= j.
Proof.
  intros Hj. split.
  - intros H. split; [etrans; [done|]; exists (drop j ip); by rewrite take_drop|].
    apply prefix_length in H. rewrite length_take in H. lia.
  - intros [[k ->] Hl]. rewrite take_app_ge by done. by eexists.
Qed.

Lemma tlookup_is_lpm n pre t ip : twf n pre t -> is_lpm (tget t) ip (tlookup t ip).
Proof.
  revert pre. induction t as [|l p v t0 IH0 t1 IH1]; intros pre Hwf; [by intros j ?|].
  assert (Hout : forall j, j <= length ip -> j < length p -> tget (Node l p v t0 t1) (take j ip) = None).
  { intros j Hj Hlt. apply tget_out. intros H%prefix_take_iff; [|done]. lia. }
  assert (Hat : p `prefix_of` ip -> tget (Node l p v t0 t1) (take (length p) ip) = v).
  { intros H. rewrite prefix_take_eq by done. apply tget_at. }
  destruct (pcase_spec p ip) as [<-|b H|H].
  - rewrite tlookup_at. destruct v as [x|]; cbn [is_lpm].
    + exists (length p). split_and!; [lia|by apply Hat|lia].
    + intros j Hj. destruct (decide (j = length p)) as [->|]; [by apply Hat|]. apply Hout; lia.
  - pose proof (prefix_length _ _ H) as Hl. rewrite length_app in Hl. cbn in Hl.
    assert (Hbelow : forall j, length p < j -> j <= length ip ->
      tget (Node l p v t0 t1) (take j ip) = tget (side b t0 t1) (take j ip)).
    { intros j ? ?. apply tget_below. apply prefix_take_iff; [done|].
      rewrite length_app. cbn. split; [done|lia]. }
    assert (Hside : is_lpm (tget (side b t0 t1)) ip (tlookup (side b t0 t1) ip)).
    { destruct Hwf as (_ & _ & W0 & W1 & _). destruct b; [by eapply IH1|by eapply IH0]. }
    assert (Hpre : forall j, j <= length p -> tget (side b t0 t1) (take j ip) = None).
    { intros j Hj. eapply (tget_pre n (p ++ [b])); [by eapply twf_side|].
      intros [_ H2]%prefix_take_iff; [|lia]. rewrite length_app in H2. cbn in H2. lia. }
    rewrite (tlookup_below _ _ _ _ _ _ _ H).
    destruct (tlookup (side b t0 t1) ip) as [x|]; cbn [is_lpm] in *.
    + destruct Hside as (k & Hk & Hx & Hj). exists k.
      assert (length p < k). { destruct (decide (k <= length p)); [|lia]. rewrite Hpre in Hx by done. done. }
      split_and!; [done|by rewrite Hbelow|]. intros j ?. rewrite Hbelow by lia. by apply Hj.
    + destruct v as [x|]; cbn [is_lpm].
      * exists (length p). split_and!; [lia|apply Hat; eauto|].
        intros j ?. rewrite Hbelow by lia. apply Hside. lia.
      * intros j Hj. destruct (Nat.lt_trichotomy j (length p)) as [?|[->|?]];
          [by apply Hout|apply Hat; eauto|]. rewrite Hbelow by lia. by apply Hside.
  - rewrite tlookup_out by done. intros j Hj. apply tget_out.
    intros [? _]%prefix_take_iff; done.
Qed.

Lemma tlookup_lpm (n : nat) (pre : list bool) t (m : gmap (list bool) V) ip :
  twf n pre t -> (forall q, m !! q = tget t q) -> tlookup t ip = lpm m ip.
Proof.
  intros Hwf Hm. eapply (is_lpm_unique (tget t) ip); [by eapply tlookup_is_lpm|].
  pose proof (lpm_is_lpm m ip) as H. destruct (lpm m ip); cbn in *; setoid_rewrite <- Hm; done.
Qed.

End tries.
