(* ===== verification/AllowedIPsCorrect.v ===== *)
(** * The allowed-IP table implements longest-prefix match

    Relates the heap of trie entries that src/wireguard-go/device/allowedips.go
    mutates to the functional tries of [BitTrie] and, through them, to one
    finite map of prefixes per address family. *)

From stdpp Require Import base numbers list gmap.
From S2P Require Import Prelude AllowedIPs BitTrie Trie.

Open Scope nat_scope.

(** ** The representation relation *)

(** The parent field of whatever hangs at a slot. *)
Definition par_of (sl : slot) : parentIndirection :=
  mkParent (Some sl) (match sl with RootSlot _ => 2%Z | ChildSlot _ b => Z.b2z b end).

(** A cell that is the node of prefix [p] with value [v]; addresses have [n]
    bytes. *)
Record entry_ok (n : nat) (e : trieEntry) (sl : slot) (p : list bool)
    (v : option PeerPtr) : Prop := mk_entry_ok {
  ok_peer : peer e = v;
  ok_parent : parent e = par_of sl;
  ok_cidr : cidr e = Z.of_nat (length p);
  ok_byte : bitAtByte e = (Z.of_nat (length p) / 8)%Z;
  ok_shift : bitAtShift e = (7 - Z.of_nat (length p) mod 8)%Z;
  ok_len : length (bits e) = n;
  ok_bytes : is_bytes (bits e);
  ok_bits : bits_of (bits e) = p ++ replicate (8 * n - length p) false;
  ok_elem : perPeerElem e = bool_decide (is_Some v) }.

(** The heap [h] holds the trie [t] at slot [sl], which points to [r]. *)
Fixpoint repr (h : gmap loc trieEntry) (n : nat) (sl : slot) (r : option loc)
    (t : tree PeerPtr) : Prop :=
  match t with
  | Leaf => r = None
  | Node l p v t0 t1 =>
      r = Some l /\ exists e, h !! l = Some e /\ entry_ok n e sl p v /\
        repr h n (ChildSlot l false) (child0 e) t0 /\
        repr h n (ChildSlot l true) (child1 e) t1
  end.

(** What an assignment through the slot does to cell [x]. *)
Definition upd_cell (sl : slot) (r : option loc) (x : loc) (e : trieEntry) : trieEntry :=
  match sl with
  | RootSlot _ => e
  | ChildSlot l b => if decide (x = l) then set_child e b r else e
  end.

(** [s'] differs from [s] only in the cells [ls], in fresh cells, in the peer
    lists and in the pointer of slot [sl], which is now [r]. *)
Record frame (s s' : AllowedIPs) (ls : list loc) (sl : slot) (r : option loc) : Prop :=
  mk_frame {
    fr_v4 : IPv4 s' = match sl with RootSlot false => r | _ => IPv4 s end;
    fr_v6 : IPv6 s' = match sl with RootSlot true => r | _ => IPv6 s end;
    fr_cells : forall x, x ∉ ls -> x < next_loc s ->
      nodes s' !! x = upd_cell sl r x <$> nodes s !! x;
    fr_next : next_loc s <= next_loc s' }.

(** The slot exists and is not inside the trie that hangs there. *)
Definition slot_ok (s : AllowedIPs) (sl : slot) (ls : list loc) : Prop :=
  match sl with
  | RootSlot _ => True
  | ChildSlot l _ => is_Some (nodes s !! l) /\ l < next_loc s /\ l ∉ ls
  end.

(** ** Peer lists *)

Definition add_entry (ent : gmap PeerPtr (list loc)) (p : PeerPtr) (l : loc) :=
  <[p := default [] (ent !! p) ++ [l]]> ent.

Definition del_entry (ent : gmap PeerPtr (list loc)) (p : PeerPtr) (l : loc) :=
  <[p := filter (fun x => x <> l) (default [] (ent !! p))]> ent.

(** The peer lists after [insert]. *)
Definition ins_entries (s : AllowedIPs) (t : tree PeerPtr) (q : list bool) (p : PeerPtr) :=
  match tloc t q with
  | None => add_entry (trieEntries s) p (next_loc s)
  | Some l =>
      add_entry (match tget t q with
                 | Some o => del_entry (trieEntries s) o l
                 | None => trieEntries s
                 end) p l
  end.

(** ** Heap lemmas *)

Lemma repr_root h n sl r t : repr h n sl r t -> t = Leaf <-> r = None.
Proof. destruct t; cbn; [naive_solver|]. intros [-> _]. done. Qed.

Lemma repr_frame h h' n sl r t :
  repr h n sl r t -> (forall l, l ∈ tlocs t -> h' !! l = h !! l) -> repr h' n sl r t.
Proof.
  revert sl r. induction t as [|l p v t0 IH0 t1 IH1]; intros sl r; [done|].
  intros (-> & e & He & Hok & H0 & H1) Hh. split; [done|]. exists e.
  rewrite Hh by (cbn; set_solver). split_and!; try done; [apply IH0|apply IH1]; try done;
    intros; apply Hh; cbn; set_solver.
Qed.

Lemma repr_in h n sl r t l : repr h n sl r t -> l ∈ tlocs t -> is_Some (h !! l).
Proof.
  revert sl r. induction t as [|l' p v t0 IH0 t1 IH1]; intros sl r; cbn; [set_solver|].
  intros (-> & e & He & Hok & H0 & H1) Hl.
  apply elem_of_cons in Hl as [->|[Hl|Hl]%elem_of_app]; eauto.
Qed.

(** Moving a trie to another slot changes the parent field of its root. *)
Lemma repr_reparent h h' n sl sl' l p v t0 t1 e :
  repr h n sl (Some l) (Node l p v t0 t1) -> NoDup (tlocs (Node l p v t0 t1)) ->
  h !! l = Some e -> h' !! l = Some (set_parent e (par_of sl')) ->
  (forall x, x ∈ tlocs t0 ++ tlocs t1 -> h' !! x = h !! x) ->
  repr h' n sl' (Some l) (Node l p v t0 t1).
Proof.
  intros (_ & e' & He & Hok & H0 & H1) Hnd He' Hl Hx. rewrite He in He'. injection He' as ->.
  split; [done|]. eexists. split; [done|].
  assert (Hk : entry_ok n (set_parent e (par_of sl')) sl' p v) by (by destruct Hok; constructor).
  split_and!; [done|..]; cbn; (eapply repr_frame; [done|]); intros; apply Hx; set_solver.
Qed.

Lemma upd_cell_other sl r x e :
  (forall b, sl <> ChildSlot x b) -> upd_cell sl r x e = e.
Proof. destruct sl as [|l b]; cbn; [done|]. case_decide; [|done]. subst. naive_solver. Qed.

(** An assignment of the value the slot already has changes nothing. *)
Lemma upd_cell_same s sl r x :
  get_slot s sl = Some r -> upd_cell sl r x <$> nodes s !! x = nodes s !! x.
Proof.
  destruct sl as [|l b]; cbn; [intros _; apply option_fmap_id|]. intros H.
  destruct (nodes s !! x) as [e|] eqn:E; [|done]. cbn. case_decide; [|done]. subst.
  rewrite E in H. cbn in H. injection H as <-. by destruct e, b.
Qed.

Lemma frame_same s s' ls sl r :
  get_slot s sl = Some r ->
  IPv4 s' = IPv4 s -> IPv6 s' = IPv6 s -> next_loc s <= next_loc s' ->
  (forall x, x ∉ ls -> x < next_loc s -> nodes s' !! x = nodes s !! x) ->
  frame s s' ls sl r.
Proof.
  intros Hsl H4 H6 Hn Hx. constructor; [..|done].
  - rewrite H4. destruct sl as [[]|]; cbn in Hsl; congruence.
  - rewrite H6. destruct sl as [[]|]; cbn in Hsl; congruence.
  - intros. rewrite Hx by done. by rewrite (upd_cell_same s).
Qed.

Lemma frame_slot s s' ls sl r : frame s s' ls sl r -> slot_ok s sl ls -> get_slot s' sl = Some r.
Proof.
  intros [H4 H6 Hx _] Hok. destruct sl as [[]|l b]; cbn; [by rewrite H6|by rewrite H4|].
  destruct Hok as ([e He] & Hl & Hn). rewrite Hx, He by done. cbn. rewrite decide_True by done.
  cbn. by destruct b.
Qed.

(** Assigning a slot. *)
Lemma set_slot_spec s sl r :
  (forall l b, sl = ChildSlot l b -> is_Some (nodes s !! l)) ->
  exists s', set_slot s sl r = Some s' /\
    IPv4 s' = match sl with RootSlot false => r | _ => IPv4 s end /\
    IPv6 s' = match sl with RootSlot true => r | _ => IPv6 s end /\
    (forall x, nodes s' !! x = upd_cell sl r x <$> nodes s !! x) /\
    next_loc s' = next_loc s /\ trieEntries s' = trieEntries s.
Proof.
  intros Hl. destruct sl as [[]|l b]; cbn.
  - eexists. split_and!; try done. intros. cbn. by rewrite option_fmap_id.
  - eexists. split_and!; try done. intros. cbn. by rewrite option_fmap_id.
  - destruct (Hl l b eq_refl) as [e He]. rewrite He. cbn. eexists. split_and!; try done.
    intros x. cbn. destruct (decide (x = l)) as [->|Hne].
    + rewrite lookup_insert_eq, He. cbn. by rewrite decide_True.
    + rewrite lookup_insert_ne by done. destruct (nodes s !! x); [|done]. cbn. by rewrite decide_False.
Qed.

Lemma repr_fork h n l e sl p v b a c :
  h !! l = Some e -> entry_ok n e sl p v ->
  repr h n (ChildSlot l b) (get_child e b) a ->
  repr h n (ChildSlot l (negb b)) (get_child e (negb b)) c ->
  repr h n sl (Some l) (fork l p v b a c).
Proof. intros. destruct b; (split; [done|]); by exists e. Qed.

Lemma attach_spec s n b x e en :
  nodes s !! x = Some e -> nodes s !! n = Some en -> x <> n ->
  attach s n b x =
    Some (set_node (set_node s x (set_parent e (par_of (ChildSlot n b)))) n
            (set_child en b (Some x))).
Proof. intros Hx Hn Hne. unfold attach. rewrite Hx. cbn. by rewrite lookup_insert_ne, Hn. Qed.

(** Two nodes attached to the sides of a third. *)
Lemma attach_both s m x y em ex ey b :
  nodes s !! m = Some em -> nodes s !! x = Some ex -> nodes s !! y = Some ey ->
  x <> m -> y <> m -> x <> y ->
  exists s2 s3, attach s m (negb b) x = Some s2 /\ attach s2 m b y = Some s3 /\
    nodes s3 !! m = Some (set_child (set_child em (negb b) (Some x)) b (Some y)) /\
    nodes s3 !! x = Some (set_parent ex (par_of (ChildSlot m (negb b)))) /\
    nodes s3 !! y = Some (set_parent ey (par_of (ChildSlot m b))) /\
    (forall z, z <> m -> z <> x -> z <> y -> nodes s3 !! z = nodes s !! z) /\
    IPv4 s3 = IPv4 s /\ IPv6 s3 = IPv6 s /\ next_loc s3 = next_loc s /\
    trieEntries s3 = trieEntries s.
Proof.
  intros Hm Hx Hy Nx Ny Nxy. eexists. eexists. split; [by apply attach_spec|].
  split; [apply attach_spec; [|cbn; by rewrite lookup_insert_eq|done]; cbn; by rewrite !lookup_insert_ne|].
  cbn. split_and!; try done.
  - by rewrite lookup_insert_eq.
  - by rewrite lookup_insert_ne, lookup_insert_ne, lookup_insert_ne, lookup_insert_eq.
  - by rewrite lookup_insert_ne, lookup_insert_eq.
  - intros z ? ? ?. by rewrite !lookup_insert_ne.
Qed.

Lemma hang_slot s sl x e :
  nodes s !! x = Some e ->
  hang s (par_of sl) None x = set_slot (set_node s x (set_parent e (par_of sl))) sl (Some x).
Proof. intros Hx. cbn. by rewrite Hx. Qed.

(** A trie that hangs at slot [sl] of a table, apart from everything else. *)
Record tree_at (s : AllowedIPs) (n : nat) (sl : slot) (r : option loc) (t : tree PeerPtr) : Prop :=
  mk_tree_at {
    ta_repr : repr (nodes s) n sl r t;
    ta_nodup : NoDup (tlocs t);
    ta_old : Forall (fun l => l < next_loc s) (tlocs t);
    ta_slot : slot_ok s sl (tlocs t);
    ta_get : get_slot s sl = Some r }.

(** A subtree hangs at the child slot of its parent. *)
Lemma tree_at_side s n sl l p v t0 t1 e b :
  tree_at s n sl (Some l) (Node l p v t0 t1) -> nodes s !! l = Some e ->
  tree_at s n (ChildSlot l b) (get_child e b) (side b t0 t1).
Proof.
  intros [(_ & e' & He' & Hok & H0 & H1) Hnd Hlt Hsl Hget] He. rewrite He in He'. injection He' as <-.
  cbn [tlocs] in *. apply NoDup_cons in Hnd as [Hl (N0 & _ & N1)%NoDup_app].
  apply Forall_cons in Hlt as [Hll [L0 L1]%Forall_app].
  constructor; [by destruct b..| |cbn; by rewrite He].
  cbn. rewrite He. split_and!; [eauto|done|]. destruct b; set_solver.
Qed.

(** A change confined to one subtree, seen from the parent. *)
Lemma repr_graft s s' n sl l p v t0 t1 b r' a :
  tree_at s n sl (Some l) (Node l p v t0 t1) ->
  frame s s' (tlocs (side b t0 t1)) (ChildSlot l b) r' ->
  repr (nodes s') n (ChildSlot l b) r' a ->
  repr (nodes s') n sl (Some l) (fork l p v b a (side (negb b) t0 t1)) /\
  frame s s' (l :: tlocs t0 ++ tlocs t1) sl (Some l).
Proof.
  intros [(_ & e & He & Hok & H0 & H1) Hnd Hlt Hsl Hget] [F4 F6 Fx Fn] Ha. cbn [tlocs] in *.
  apply NoDup_cons in Hnd as [Hl (N0 & Hd & N1)%NoDup_app].
  apply Forall_cons in Hlt as [Hll Hlt]. pose proof (tlocs_side b t0 t1) as Hperm.
  assert (Hls : l ∉ tlocs (side b t0 t1)) by (destruct b; set_solver).
  assert (Hother : forall x, x ∉ tlocs (side b t0 t1) -> x <> l -> x < next_loc s ->
    nodes s' !! x = nodes s !! x).
  { intros x ? ? ?. rewrite Fx by done. destruct (nodes s !! x); [|done]. cbn. by rewrite decide_False. }
  split.
  - eapply (repr_fork _ _ _ (set_child e b r')).
    + rewrite Fx, He by done. cbn. by rewrite decide_True.
    + by destruct Hok; constructor.
    + by replace (get_child _ b) with r' by (by destruct b).
    + replace (get_child _ _) with (get_child e (negb b)) by (by destruct b).
      apply (repr_frame (nodes s)); [by destruct b|]. intros x Hx. apply Hother.
      * intros Hx'. destruct b; by apply (Hd x).
      * intros ->. apply Hl. destruct b; set_solver.
      * eapply Forall_forall in Hlt; [done|]. destruct b; set_solver.
  - apply frame_same; try done. intros x [? Hx]%not_elem_of_cons ?. apply Hother; [|done..].
    intros ?. apply Hx. rewrite <- Hperm. set_solver.
Qed.

(** ** Entries and addresses *)

Section addresses.
Context (n : nat) (Hn : addr_len n).

Lemma addr_len_le : n <= 16.
Proof. destruct Hn as [->| ->]; unfold IPv4len, IPv6len; lia. Qed.

Lemma fuel_enough (t : tree PeerPtr) : twf (8 * n) [] t -> theight t < path_fuel.
Proof.
  intros Hwf. pose proof (theight_le _ _ _ Hwf ltac:(cbn; lia)) as H. pose proof addr_len_le.
  unfold path_fuel. cbn in H. lia.
Qed.

(** The test of both walks: the node's prefix is a prefix of the address. *)
Lemma entry_common e sl p v ip :
  entry_ok n e sl p v -> length ip = n -> is_bytes ip -> length p <= 8 * n ->
  exists k, commonBits (bits e) ip = Some k /\
    (k >=? cidr e)%Z = bool_decide (p `prefix_of` bits_of ip).
Proof.
  intros Hok Hl Hip Hp. destruct Hok. eexists. split.
  { apply commonBits_lcp; [done..|lia|congruence]. }
  assert (Hiff : length p <= lcp (bits_of (bits e)) (bits_of ip) <-> p `prefix_of` bits_of ip).
  { rewrite lcp_ge, !length_bits_of, ok_len0, Hl, ok_bits0, take_app_length. split.
    - intros (_ & _ & Heq). rewrite Heq. exists (drop (length p) (bits_of ip)). by rewrite take_drop.
    - intros H. split_and!; [lia..|]. by rewrite prefix_take_eq. }
  rewrite ok_cidr0, Z.geb_leb. clear ok_elem0. case_bool_decide as Hd.
  - apply Hiff in Hd. apply Z.leb_le. lia.
  - apply Z.leb_gt. destruct (decide (length p <= lcp (bits_of (bits e)) (bits_of ip))) as [Hle|]; [|lia].
    by apply Hiff in Hle.
Qed.

Lemma entry_choose e sl p v ip b :
  entry_ok n e sl p v -> length ip = n -> p ++ [b] `prefix_of` bits_of ip -> choose e ip = Some b.
Proof.
  intros [] Hl Hb. pose proof (prefix_length _ _ Hb) as Hle.
  rewrite length_app, length_bits_of in Hle. cbn in Hle.
  rewrite (choose_bit e ip (length p)) by (done || lia).
  by apply prefix_snoc_lookup in Hb as [_ ->].
Qed.

Lemma prefix_le_take (p q l : list bool) c :
  q = take c l -> c <= length l -> p `prefix_of` q <-> p `prefix_of` l /\ length p <= c.
Proof. intros -> H. by apply prefix_take_iff. Qed.

Context (ip : list Z) (c : Z) (q : list bool).
Context (Hlen : length ip = n) (Hip : is_bytes ip).
Context (Hc : (0 <= c <= 8 * Z.of_nat n)%Z) (Hq : q = take (Z.to_nat c) (bits_of ip)).

Lemma length_q : Z.of_nat (length q) = c.
Proof. rewrite Hq, length_take, length_bits_of. lia. Qed.

Lemma q_prefix : q `prefix_of` bits_of ip.
Proof. exists (drop (Z.to_nat c) (bits_of ip)). by rewrite Hq, take_drop. Qed.

(** [nodePlacement] is the functional walk; the fuel exceeds the height. *)
Lemma nodePlacement_spec s fuel sl r pre t par0 :
  repr (nodes s) n sl r t -> twf (8 * n) pre t -> theight t < fuel ->
  nodePlacement s fuel r par0 ip c =
    Some (match fst (tplace t q) with None => par0 | x => x end, snd (tplace t q)).
Proof.
  revert sl r pre par0 fuel.
  induction t as [|l p v t0 IH0 t1 IH1]; intros sl r pre par0 fuel Hr Hwf Hf;
    (destruct fuel as [|fuel]; [lia|]); [cbn in Hr; by rewrite Hr|].
  destruct Hr as (-> & e & He & Hok & H0 & H1). pose proof Hwf as (Hp & Hlp & W0 & W1 & _).
  cbn [nodePlacement]. rewrite He. cbn [mbind option_bind]. rewrite (ok_cidr _ _ _ _ _ Hok).
  destruct (entry_common e sl p v ip Hok Hlen Hip Hlp) as (k & -> & Hk). cbn [mbind option_bind].
  rewrite (ok_cidr _ _ _ _ _ Hok) in Hk. rewrite Hk.
  pose proof length_q as Hlq. pose proof q_prefix as Hqp.
  destruct (pcase_spec p q) as [<-|b Hb|Hout].
  - rewrite tplace_at. rewrite (proj2 (Z.leb_le _ _)) by lia. rewrite bool_decide_true by done.
    by rewrite (proj2 (Z.eqb_eq _ _)).
  - rewrite (tplace_below _ _ _ _ _ _ _ Hb). pose proof (prefix_length _ _ Hb) as Hle.
    rewrite length_app in Hle. cbn in Hle.
    rewrite (proj2 (Z.leb_le _ _)) by lia. rewrite bool_decide_true by (etrans; [|exact Hqp]; by eapply prefix_snoc).
    rewrite (proj2 (Z.eqb_neq _ _)) by lia.
    rewrite (entry_choose _ _ _ _ _ b Hok) by (done || by etrans). cbn [mbind option_bind].
    assert (Hside : nodePlacement s fuel (get_child e b) (Some l) ip c =
      Some (match fst (tplace (side b t0 t1) q) with None => Some l | x => x end,
            snd (tplace (side b t0 t1) q))).
    { cbn in Hf. destruct b; [eapply IH1|eapply IH0]; try done; lia. }
    rewrite Hside. pose proof (tplace_None (side b t0 t1) q).
    by destruct (tplace (side b t0 t1) q) as [[l'|] []].
  - rewrite tplace_out by done. cbn [fst snd].
    case_if; [|done]. rewrite bool_decide_false; [done|].
    intros H. apply Hout. eapply (prefix_le_take p q); [done|rewrite length_bits_of; lia|]. split; [done|lia].
Qed.

(** The bits of the masked address. *)
Lemma bits_masked : bits_of (mask_bits ip c) = q ++ replicate (8 * n - length q) false.
Proof.
  rewrite mask_bits_spec by (unfold zlen; lia). rewrite Hq, Hlen. do 2 f_equal.
  rewrite length_take, length_bits_of. lia.
Qed.

Lemma length_masked : length (mask_bits ip c) = n.
Proof. rewrite length_mask_bits by (unfold zlen; lia). done. Qed.

Lemma bytes_masked : is_bytes (mask_bits ip c).
Proof. apply is_bytes_mask_bits; [unfold zlen; lia|done]. Qed.

(** The entry both literals of [insert] build, once masked and listed. *)
Lemma new_entry_ok p sl :
  entry_ok n (mkTrieEntry (Some p) None None (par_of sl) c (c / 8) (7 - c mod 8) (mask_bits ip c) true)
    sl q (Some p).
Proof.
  pose proof length_q as Hl. constructor; cbn [cidr bitAtByte bitAtShift]; rewrite ?Hl; try done.
  - apply length_masked.
  - apply bytes_masked.
  - apply bits_masked.
Qed.

(** The state after the new node was built, masked and listed. *)
Definition placed_entry (p : PeerPtr) (par : parentIndirection) : trieEntry :=
  mkTrieEntry (Some p) None None par c (c / 8) (7 - c mod 8) (mask_bits ip c) true.

Definition placed (s : AllowedIPs) (p : PeerPtr) (par : parentIndirection) : AllowedIPs :=
  mkAllowedIPs (IPv4 s) (IPv6 s) (<[next_loc s := placed_entry p par]> (nodes s))
    (S (next_loc s)) (add_entry (trieEntries s) p (next_loc s)).

Lemma place_new s p par :
  exists s', maskSelf (snd (alloc s (new_entry (Some p) par ip c))) (next_loc s) = Some s' /\
    addToPeerEntries s' (next_loc s) = Some (placed s p par).
Proof.
  unfold maskSelf, addToPeerEntries. cbn. rewrite lookup_insert_eq. cbn. eexists. split; [done|].
  cbn. rewrite lookup_insert_eq. cbn. unfold set_node, set_nodes, set_entries, placed, entries_of. cbn.
  by rewrite !insert_insert_eq.
Qed.

(** Whatever is hung with [node] as parent is hung at slot [sl]. *)
Definition hangs (s0 : AllowedIPs) (trie : parentIndirection) (node : option loc) (sl : slot)
    (pre : list bool) : Prop :=
  forall s x e, (forall l b, sl = ChildSlot l b -> nodes s !! l = nodes s0 !! l) ->
    nodes s !! x = Some e -> length (bits e) = n -> pre `prefix_of` bits_of (bits e) ->
    hang s trie node x = hang s (par_of sl) None x.

Lemma hangs_root s0 sl pre : hangs s0 (par_of sl) None sl pre.
Proof. done. Qed.

Lemma hangs_child s0 trie l e sl p v b :
  nodes s0 !! l = Some e -> entry_ok n e sl p v ->
  hangs s0 trie (Some l) (ChildSlot l b) (p ++ [b]).
Proof.
  intros He Hok s x ex Hl Hx Hlx Hpre. cbn [hang]. rewrite (Hl l b eq_refl), He, Hx. cbn [mbind option_bind].
  rewrite (entry_choose _ _ _ _ _ b Hok) by done. cbn [mbind option_bind].
  unfold attach. rewrite Hx. done.
Qed.

(** Common bits with the masked address, capped at its length. *)
Lemma lcp_pad (p z1 z2 : list bool) :
  ~ p `prefix_of` q -> Nat.min (lcp (p ++ z1) (q ++ z2)) (length q) = lcp p q.
Proof.
  intros Hout. destruct (lcp_out p q Hout) as [(Hk & b & Hb & Hpre)|(Hk & b & Hb & Hpq & Hp)].
  - rewrite Nat.min_r; [done|]. apply lcp_ge. rewrite !length_app.
    apply prefix_snoc in Hpre. pose proof (prefix_length _ _ Hpre). split_and!; [lia..|].
    rewrite take_app_length, take_app_le by done. by rewrite prefix_take_eq.
  - pose proof (prefix_length _ _ Hp) as Hl. rewrite length_app, length_take in Hl. cbn in Hl.
    rewrite lcp_app_stop by lia. lia.
Qed.

Lemma common_masked e sl p v :
  entry_ok n e sl p v -> ~ p `prefix_of` q ->
  exists k, commonBits (bits e) (mask_bits ip c) = Some k /\
    (if (k <? c)%Z then k else c) = Z.of_nat (lcp p q).
Proof.
  intros Hok Hout. pose proof length_q as Hlq. pose proof (lcp_pad p) as Hpad. eexists. split.
  { destruct Hok. apply commonBits_lcp; [done|apply bytes_masked|rewrite length_masked; congruence|congruence]. }
  rewrite (ok_bits _ _ _ _ _ Hok), bits_masked. rewrite <- (Hpad (replicate (8 * n - length p) false) (replicate (8 * n - length q) false) Hout).
  case_if; lia.
Qed.

Lemma choose_placed p par x b :
  length x = n -> q ++ [b] `prefix_of` bits_of x -> choose (placed_entry p par) x = Some b.
Proof.
  intros Hx Hb. eapply (entry_choose _ _ _ _ _ b (new_entry_ok p (RootSlot false)) Hx Hb).
Qed.

(** Hanging [x] at a slot: afterwards the slot points to [x], whose parent
    field names the slot. *)
Lemma hang_spec s sl x e :
  nodes s !! x = Some e ->
  (forall l b, sl = ChildSlot l b -> l <> x /\ is_Some (nodes s !! l)) ->
  exists s', hang s (par_of sl) None x = Some s' /\
    IPv4 s' = match sl with RootSlot false => Some x | _ => IPv4 s end /\
    IPv6 s' = match sl with RootSlot true => Some x | _ => IPv6 s end /\
    nodes s' !! x = Some (set_parent e (par_of sl)) /\
    (forall y, y <> x -> nodes s' !! y = upd_cell sl (Some x) y <$> nodes s !! y) /\
    next_loc s' = next_loc s /\ trieEntries s' = trieEntries s.
Proof.
  intros Hx Hne. rewrite (hang_slot _ _ _ _ Hx).
  destruct (set_slot_spec (set_node s x (set_parent e (par_of sl))) sl (Some x))
    as (s' & -> & H4 & H6 & Hy & Hn' & He).
  { intros l b ->. destruct (Hne l b eq_refl). cbn. by rewrite lookup_insert_ne. }
  exists s'. split_and!; try done.
  - rewrite Hy. cbn. rewrite lookup_insert_eq. cbn. f_equal. apply upd_cell_other.
    intros b ->. by destruct (Hne x b eq_refl).
  - intros y Hyx. rewrite Hy. cbn. by rewrite lookup_insert_ne.
Qed.

(** The intermediate node of [insert]. *)
Definition mid_entry (k : Z) (par : parentIndirection) : trieEntry :=
  mkTrieEntry None None None par k (k / 8) (7 - k mod 8) (mask_bits (mask_bits ip c) k) false.

Lemma mask_mid s k :
  maskSelf (snd (alloc s (new_entry None no_parent (mask_bits ip c) k))) (next_loc s) =
    Some (mkAllowedIPs (IPv4 s) (IPv6 s) (<[next_loc s := mid_entry k no_parent]> (nodes s))
            (S (next_loc s)) (trieEntries s)).
Proof.
  unfold maskSelf. cbn. rewrite lookup_insert_eq. cbn. unfold set_node, set_nodes. cbn.
  by rewrite insert_insert_eq.
Qed.

Lemma mid_entry_ok k sl :
  k <= length q -> entry_ok n (mid_entry (Z.of_nat k) (par_of sl)) sl (take k q) None.
Proof.
  intros Hk. pose proof length_q. pose proof length_masked as Hl. pose proof bytes_masked.
  assert ((0 <= Z.of_nat k <= 8 * zlen (mask_bits ip c))%Z) by (unfold zlen; lia).
  constructor; cbn [cidr bitAtByte bitAtShift bits mid_entry]; rewrite ?length_take, ?Nat.min_l by done; try done.
  - by rewrite length_mask_bits.
  - by apply is_bytes_mask_bits.
  - rewrite mask_bits_spec by done. rewrite bits_masked, Nat2Z.id, Hl. by rewrite take_app_le.
Qed.

Section split.
Context (s : AllowedIPs) (trie : parentIndirection) (node : option loc) (sl : slot) (p : PeerPtr).
Context (dl : loc) (dp : list bool) (dv : option PeerPtr) (d0 d1 : tree PeerPtr) (pre : list bool).
Local Notation t := (Node dl dp dv d0 d1).
Local Notation nl := (next_loc s).
Context (Hr : repr (nodes s) n sl (Some dl) t) (Hpre : pre `prefix_of` q) (Hnd : NoDup (tlocs t)).
Context (Hpdp : pre `prefix_of` dp).
Context (Hlt : Forall (fun l => l < next_loc s) (tlocs t)) (Hsl : slot_ok s sl (tlocs t)).
Context (Hh : hangs (placed s p no_parent) trie node sl pre).

Lemma owner_old l b : sl = ChildSlot l b -> l < next_loc s /\ l ∉ tlocs t /\ l <> dl /\ is_Some (nodes s !! l).
Proof. intros ->. destruct Hsl as (? & ? & Hl). split_and!; try done. intros ->. apply Hl. set_solver. Qed.

Lemma down_old : dl < next_loc s.
Proof. by apply Forall_cons in Hlt as [? _]. Qed.

Lemma inside x r e : x ∈ tlocs t -> upd_cell sl r x e = e.
Proof. intros Hx. apply upd_cell_other. intros b Hb. by destruct (owner_old _ _ Hb) as (_ & ? & _). Qed.

Lemma below x : x ∈ tlocs d0 ++ tlocs d1 -> x ∈ tlocs t /\ x < nl /\ x <> dl.
Proof.
  intros Hx. assert (x ∈ tlocs t) by (cbn; set_solver). split_and!; [done|by eapply Forall_forall in Hlt|].
  intros ->. cbn in Hnd. by apply NoDup_cons in Hnd as [? _].
Qed.

Lemma placed_lookup de :
  nodes s !! dl = Some de ->
  nodes (placed s p no_parent) !! dl = Some de /\
  nodes (placed s p no_parent) !! nl = Some (placed_entry p no_parent).
Proof.
  intros Hde. pose proof down_old. cbn. by rewrite lookup_insert_eq, lookup_insert_ne by lia.
Qed.

(** [newNode] becomes the parent of [down]: the new prefix is the shorter. *)
Lemma split_above b :
  q ++ [b] `prefix_of` dp -> lcp dp q = length q ->
  exists s' r', insert_split (placed s p no_parent) trie node dl nl (mask_bits ip c) c = Some s' /\
    repr (nodes s') n sl r' (fork nl q (Some p) b t Leaf) /\
    frame s s' (tlocs t) sl r' /\ trieEntries s' = add_entry (trieEntries s) p nl.
Proof.
  intros Hb Hlcp. pose proof Hr as (_ & de & Hde & Hdok & _). pose proof length_q as Hlq.
  pose proof down_old as Hdl. pose proof owner_old as Hown.
  assert (Hout : ~ dp `prefix_of` q) by (intros H; eapply prefix_snoc_not; by etrans).
  destruct (common_masked _ _ _ _ Hdok Hout) as (k & Hk & Hkc).
  destruct (placed_lookup de Hde) as [Hpd Hpn].
  unfold insert_split. rewrite Hpd.
  cbn [mbind option_bind]. rewrite Hk. cbn [mbind option_bind]. rewrite Hkc.
  rewrite Hpn. cbn [mbind option_bind].
  change (cidr (placed_entry p no_parent)) with c. rewrite (proj2 (Z.eqb_eq _ _)) by lia. rewrite (choose_placed _ _ _ b); cycle 1.
  { apply (ok_len _ _ _ _ _ Hdok). }
  { rewrite (ok_bits _ _ _ _ _ Hdok). by apply prefix_app_r. }
  cbn [mbind option_bind].
  rewrite (attach_spec (placed s p no_parent) nl b dl de (placed_entry p no_parent));
    [|done|done|lia].
  cbn [mbind option_bind]. set (s2 := set_node _ nl _).
  rewrite (Hh s2 nl (set_child (placed_entry p no_parent) b (Some dl))).
  2: { intros l b' Hl. destruct (Hown _ _ Hl) as (? & _ & ? & _). cbn. by rewrite !lookup_insert_ne by lia. }
  2: { cbn. by rewrite lookup_insert_eq. }
  2: { apply length_masked. }
  2: { cbn. rewrite bits_masked. by apply prefix_app_r. }
  assert (Hs2 : forall y, y < nl -> y <> dl -> nodes s2 !! y = nodes s !! y).
  { intros y ? ?. cbn. by rewrite !lookup_insert_ne by lia. }
  assert (Hs2d : nodes s2 !! dl = Some (set_parent de (par_of (ChildSlot nl b)))).
  { cbn. by rewrite lookup_insert_ne, lookup_insert_eq by lia. }
  destruct (hang_spec s2 sl nl (set_child (placed_entry p no_parent) b (Some dl)))
    as (s' & -> & H4 & H6 & Hx & Hy & Hn' & He).
  { cbn. by rewrite lookup_insert_eq. }
  { intros l b' Hl. destruct (Hown _ _ Hl) as (? & _ & ? & ?). rewrite Hs2 by done. split; [lia|done]. }
  exists s', (Some nl). split_and!; [done|..|by rewrite He].
  - eapply repr_fork; [done|by destruct (new_entry_ok p sl); constructor|..].
    + replace (get_child _ b) with (Some dl) by (by destruct b).
      eapply (repr_reparent (nodes s)); [done..| |].
      * rewrite Hy, Hs2d by lia. cbn. by rewrite (inside dl) by (cbn; set_solver).
      * intros x Hxt. destruct (below x Hxt) as (? & ? & ?). rewrite Hy, Hs2 by lia.
        destruct (nodes s !! x); [|done]. cbn. by rewrite inside.
    + by destruct b.
  - constructor; [done|done| |rewrite Hn'; cbn; lia].
    intros x [? _]%not_elem_of_cons ?. by rewrite Hy, Hs2 by lia.
Qed.

(** A fresh intermediate node becomes the parent of both: the run. *)
Lemma split_mid_run b m de :
  nodes s !! dl = Some de -> entry_ok n de sl dp dv -> pre `prefix_of` m ->
  m = take (lcp dp q) q -> lcp dp q < length q ->
  m ++ [b] `prefix_of` q -> m ++ [negb b] `prefix_of` dp ->
  let me := mid_entry (Z.of_nat (lcp dp q)) no_parent in
  exists s', insert_split (placed s p no_parent) trie node dl nl (mask_bits ip c) c = Some s' /\
    IPv4 s' = match sl with RootSlot false => Some (S nl) | _ => IPv4 s end /\
    IPv6 s' = match sl with RootSlot true => Some (S nl) | _ => IPv6 s end /\
    nodes s' !! S nl =
      Some (set_parent (set_child (set_child me (negb b) (Some dl)) b (Some nl)) (par_of sl)) /\
    nodes s' !! nl = Some (set_parent (placed_entry p no_parent) (par_of (ChildSlot (S nl) b))) /\
    nodes s' !! dl = Some (set_parent de (par_of (ChildSlot (S nl) (negb b)))) /\
    (forall y, y < nl -> y <> dl -> nodes s' !! y = upd_cell sl (Some (S nl)) y <$> nodes s !! y) /\
    next_loc s' = S (S nl) /\ trieEntries s' = add_entry (trieEntries s) p nl.
Proof.
  intros Hde Hdok Hpm Hm Hlcp Hbq Hbd me. pose proof length_q as Hlq.
  pose proof down_old as Hdl. pose proof owner_old as Hown.
  assert (Hout : ~ dp `prefix_of` q).
  { intros H. assert (b = negb b); [|by destruct b]. eapply (prefix_snoc_inj m q); [done|]. by etrans. }
  destruct (common_masked _ _ _ _ Hdok Hout) as (k & Hk & Hkc).
  destruct (placed_lookup de Hde) as [Hpd Hpn]. set (sp := placed s p no_parent) in *.
  pose proof (mid_entry_ok (lcp dp q) (RootSlot false) ltac:(lia)) as Hmok. rewrite <- Hm in Hmok.
  assert (Hchoose : forall x b', length x = n -> m ++ [b'] `prefix_of` bits_of x -> choose me x = Some b')
    by (intros x b' ? ?; exact (entry_choose _ _ _ _ x b' Hmok ltac:(done) ltac:(done))).
  unfold insert_split. rewrite Hpd. cbn [mbind option_bind]. rewrite Hk. cbn [mbind option_bind].
  rewrite Hkc, Hpn. cbn [mbind option_bind].
  pose proof (ok_len _ _ _ _ _ Hmok) as Hmid. pose proof (ok_bits _ _ _ _ _ Hmok) as Hmbits.
  cbn in Hmid, Hmbits. clear Hkc Hmok.
  change (cidr (placed_entry p no_parent)) with c. rewrite (proj2 (Z.eqb_neq _ _)) by lia.
  change (bits (placed_entry p no_parent)) with (mask_bits ip c).
  change (alloc sp (new_entry None no_parent (mask_bits ip c) (Z.of_nat (lcp dp q))))
    with (S nl, snd (alloc sp (new_entry None no_parent (mask_bits ip c) (Z.of_nat (lcp dp q))))).
  cbv beta iota. change (S nl) with (next_loc sp) at 1. rewrite mask_mid. cbn [mbind option_bind].
  change (next_loc sp) with (S nl). fold me. set (sm := mkAllowedIPs _ _ _ _ _).
  assert (Hsm : nodes sm !! S nl = Some me) by (cbn; by rewrite lookup_insert_eq).
  assert (Hsn : nodes sm !! nl = Some (placed_entry p no_parent))
    by (cbn; by rewrite lookup_insert_ne, lookup_insert_eq by lia).
  assert (Hsd : nodes sm !! dl = Some de) by (cbn; by rewrite !lookup_insert_ne by lia).
  assert (Hso : forall y, y < nl -> nodes sm !! y = nodes s !! y)
    by (intros; cbn; by rewrite !lookup_insert_ne by lia).
  rewrite Hsm. cbn [mbind option_bind]. rewrite (Hchoose (bits de) (negb b)); cycle 1.
  { apply (ok_len _ _ _ _ _ Hdok). }
  { rewrite (ok_bits _ _ _ _ _ Hdok). by apply prefix_app_r. }
  destruct (attach_both sm (S nl) dl nl me de (placed_entry p no_parent) b) as
    (s2 & s3 & Ha2 & Ha3 & Hm3 & Hd3 & Hn3 & Ho3 & H43 & H63 & Hnx3 & He3); [done..|lia|lia|lia|].
  cbn [mbind option_bind]. rewrite Ha2. cbn [mbind option_bind].
  rewrite (Hchoose (mask_bits ip c) b); [|apply length_masked|rewrite bits_masked; by apply prefix_app_r].
  cbn [mbind option_bind]. rewrite Ha3. cbn [mbind option_bind].
  rewrite (Hh s3 _ _ ltac:(intros l b' Hl; destruct (Hown _ _ Hl) as (? & _ & ? & _);
    rewrite Ho3, Hso by lia; cbn; by rewrite lookup_insert_ne by lia) Hm3); [|apply Hmid|].
  2: { cbn. rewrite Hmbits. by apply prefix_app_r. }
  destruct (hang_spec s3 sl _ _ Hm3) as (s' & -> & H4 & H6 & Hx & Hy & Hn' & He).
  { intros l b' Hl. destruct (Hown _ _ Hl) as (? & _ & ? & ?). rewrite Ho3, Hso by lia. split; [lia|done]. }
  exists s'. split_and!; [done|by rewrite H4, H43|by rewrite H6, H63|done|..].
  - rewrite Hy, Hn3 by lia. cbn. f_equal. apply upd_cell_other. intros b' Hl. by destruct (Hown _ _ Hl); lia.
  - rewrite Hy, Hd3 by lia. cbn. f_equal. apply inside. cbn. set_solver.
  - intros y ? ?. by rewrite Hy, Ho3, Hso by lia.
  - by rewrite Hn', Hnx3.
  - by rewrite He, He3.
Qed.

Lemma split_mid b m :
  m = take (lcp dp q) q -> lcp dp q < length q ->
  m ++ [b] `prefix_of` q -> m ++ [negb b] `prefix_of` dp ->
  exists s' r', insert_split (placed s p no_parent) trie node dl nl (mask_bits ip c) c = Some s' /\
    repr (nodes s') n sl r' (fork (S nl) m None b (Node nl q (Some p) Leaf Leaf) t) /\
    frame s s' (tlocs t) sl r' /\ trieEntries s' = add_entry (trieEntries s) p nl.
Proof.
  intros Hm Hlcp Hbq Hbd. pose proof Hr as (_ & de & Hde & Hdok & _).
  destruct (split_mid_run b m de) as (s' & -> & H4 & H6 & Hm' & Hn' & Hd' & Hy & Hnx & He); try done.
  { by eapply (prefix_fork pre m dp q b). }
  pose proof (mid_entry_ok (lcp dp q) sl ltac:(lia)) as Hmok. rewrite <- Hm in Hmok.
  exists s', (Some (S nl)). split_and!; [done|..|done].
  - eapply repr_fork; [done|by destruct Hmok; constructor|..].
    + replace (get_child _ b) with (Some nl) by (by destruct b).
      split; [done|]. eexists. split; [done|].
      split; [by destruct (new_entry_ok p (ChildSlot (S nl) b)); constructor|done].
    + replace (get_child _ (negb b)) with (Some dl) by (by destruct b).
      eapply (repr_reparent (nodes s)); [done..|].
      intros x Hx. destruct (below x Hx) as (? & ? & ?). rewrite Hy by lia.
      destruct (nodes s !! x); [|done]. cbn. by rewrite inside.
  - constructor; [done|done| |lia]. intros x [? _]%not_elem_of_cons ?. by rewrite Hy by lia.
Qed.

(** Both cases: the functional split. *)
Lemma insert_split_spec :
  ~ dp `prefix_of` q ->
  exists s' r', insert_split (placed s p no_parent) trie node dl nl (mask_bits ip c) c = Some s' /\
    repr (nodes s') n sl r' (tsplit t dp q p nl (S nl)) /\
    frame s s' (tlocs t) sl r' /\ trieEntries s' = add_entry (trieEntries s) p nl.
Proof.
  intros Hout. unfold tsplit.
  destruct (lcp_out dp q Hout) as [(Hk & b & Hb & Hp)|(Hk & b & Hb & Hp & Hd)].
  - rewrite decide_True, Hb by done. by apply split_above.
  - rewrite decide_False, Hb by lia. by apply split_mid.
Qed.

End split.

(** *** The exact case: the node changes hands *)
Lemma insert_exact_spec s sl l v t0 t1 p trie root :
  let t := Node l q v t0 t1 in
  repr (nodes s) n sl (Some l) t -> NoDup (tlocs t) -> get_slot s sl = Some (Some l) ->
  exists s', insert_placed s trie root (Some l) true ip c p = Some s' /\
    repr (nodes s') n sl (Some l) (Node l q (Some p) t0 t1) /\
    frame s s' (tlocs t) sl (Some l) /\
    trieEntries s' = add_entry (match v with Some o => del_entry (trieEntries s) o l
                                | None => trieEntries s end) p l.
Proof.
  intros t (_ & e & He & Hok & H0 & H1) Hnd Hsl. cbn [tlocs t] in *.
  apply NoDup_cons in Hnd as [Hl _]. cbn [insert_placed mbind option_bind].
  assert (Hgo : exists s', (s0 ← removeFromPeerEntries s l; e0 ← nodes s0 !! l;
      addToPeerEntries (set_node s0 l (set_peer e0 (Some p))) l) = Some s' /\
    IPv4 s' = IPv4 s /\ IPv6 s' = IPv6 s /\ next_loc s' = next_loc s /\
    nodes s' !! l = Some (set_perPeerElem (set_peer e (Some p)) true) /\
    (forall x, x <> l -> nodes s' !! x = nodes s !! x) /\
    trieEntries s' = add_entry (match v with Some o => del_entry (trieEntries s) o l
                                | None => trieEntries s end) p l).
  { unfold removeFromPeerEntries. rewrite He. cbn [mbind option_bind].
    rewrite (ok_elem _ _ _ _ _ Hok), (ok_peer _ _ _ _ _ Hok).
    destruct v as [o|]; cbn; unfold addToPeerEntries; cbn;
      rewrite ?lookup_insert_eq; cbn; rewrite ?lookup_insert_eq, ?He; cbn;
      rewrite ?lookup_insert_eq; cbn; eexists; (split; [done|]); cbn; split_and!; try done;
      rewrite ?lookup_insert_eq; try done; intros; by rewrite !lookup_insert_ne. }
  destruct Hgo as (s' & Hrun & H4 & H6 & Hnx & Hl' & Hx & Hent). exists s'. split; [exact Hrun|].
  split_and!; [|apply frame_same; try done; [lia|intros; apply Hx; set_solver]|done].
  split; [done|]. eexists. split; [done|]. split; [by destruct Hok; constructor|].
  split; (eapply repr_frame; [done|]); intros x Hxt; apply Hx; intros ->; apply Hl; set_solver.
Qed.

(** *** [insert] *)

Lemma insert_placed_false s trie root node p :
  insert_placed s trie root node false ip c p =
  let s := placed s p no_parent in
  match node with
  | None => down ← root; insert_split s trie None down (Nat.pred (next_loc s)) (mask_bits ip c) c
  | Some l =>
      e ← nodes s !! l;
      bit ← choose e (mask_bits ip c);
      match get_child e bit with
      | None => attach s l bit (Nat.pred (next_loc s))
      | Some down => insert_split s trie (Some l) down (Nat.pred (next_loc s)) (mask_bits ip c) c
      end
  end.
Proof.
  destruct (place_new s p no_parent) as (s1 & H1 & H2). unfold insert_placed.
  change (alloc s (new_entry (Some p) no_parent ip c))
    with (next_loc s, snd (alloc s (new_entry (Some p) no_parent ip c))).
  cbv beta iota. rewrite H1. cbn [mbind option_bind]. rewrite H2. done.
Qed.

(** The new node fills an empty slot. *)
Lemma attach_new s l b e sl p0 v0 p :
  nodes s !! l = Some e -> entry_ok n e sl p0 v0 -> l < next_loc s -> get_child e b = None ->
  exists s', attach (placed s p no_parent) l b (next_loc s) = Some s' /\
    repr (nodes s') n (ChildSlot l b) (Some (next_loc s)) (Node (next_loc s) q (Some p) Leaf Leaf) /\
    frame s s' [] (ChildSlot l b) (Some (next_loc s)) /\
    trieEntries s' = add_entry (trieEntries s) p (next_loc s).
Proof.
  intros He Hok Hl Hc'.
  rewrite (attach_spec _ _ _ _ (placed_entry p no_parent) e);
    [|cbn; by rewrite lookup_insert_eq|cbn; by rewrite lookup_insert_ne by lia|lia].
  eexists. split; [done|]. split_and!; [| |done].
  - split; [done|]. eexists. cbn. rewrite lookup_insert_ne, lookup_insert_eq by lia. split; [done|].
    split; [by destruct (new_entry_ok p (ChildSlot l b)); constructor|done].
  - constructor; [done|done| |cbn; lia]. intros x _ Hx. cbn.
    destruct (decide (x = l)) as [->|Hne].
    + rewrite lookup_insert_eq, He. cbn. by rewrite decide_True.
    + rewrite !lookup_insert_ne by lia. destruct (nodes s !! x); [|done]. cbn. by rewrite decide_False.
Qed.

(** What [insert] knows about the place where the walk stopped. *)
Definition stopped (s : AllowedIPs) (trie : parentIndirection) (root node : option loc)
    (sl : slot) (r : option loc) (pre : list bool) : Prop :=
  (node = None /\ trie = par_of sl /\ root = r /\ r <> None) \/
  (exists l b e sl0 p0 v0, node = Some l /\ sl = ChildSlot l b /\ nodes s !! l = Some e /\
     entry_ok n e sl0 p0 v0 /\ pre = p0 ++ [b]).

Lemma insert_out_spec s sl dl dp dv d0 d1 pre p trie root node :
  let t := Node dl dp dv d0 d1 in
  tree_at s n sl (Some dl) t -> twf (8 * n) pre t -> pre `prefix_of` q ->
  stopped s trie root node sl (Some dl) pre -> ~ dp `prefix_of` q ->
  exists s' r', insert_placed s trie root node false ip c p = Some s' /\
    repr (nodes s') n sl r' (tsplit t dp q p (next_loc s) (S (next_loc s))) /\
    frame s s' (tlocs t) sl r' /\ trieEntries s' = add_entry (trieEntries s) p (next_loc s).
Proof.
  intros t [Hr Hnd Hlt Hsl Hget] Hwf Hpre Hst Hout. rewrite insert_placed_false.
  destruct Hwf as (Hpd & _).
  destruct Hst as [(-> & -> & -> & _)|(l & b & e & sl0 & p0 & v0 & -> & -> & He & Hok & ->)]; cbn zeta iota.
  - eapply insert_split_spec; done.
  - destruct Hsl as (He' & Hll & Hlt'). assert (Hp : nodes (placed s p no_parent) !! l = Some e)
      by (cbn; by rewrite lookup_insert_ne by lia).
    rewrite Hp. cbn [mbind option_bind].
    rewrite (entry_choose _ _ _ _ _ b Hok);
      [|apply length_masked|rewrite bits_masked; by apply prefix_app_r].
    cbn [mbind option_bind]. cbn in Hget. rewrite He in Hget. cbn in Hget. injection Hget as Hget.
    rewrite Hget. eapply insert_split_spec; try done. by eapply hangs_child.
Qed.

Lemma insert_placed_spec s sl r t pre p trie root node :
  tree_at s n sl r t -> twf (8 * n) pre t -> pre `prefix_of` q ->
  stopped s trie root node sl r pre ->
  exists s' r', insert_placed s trie root
      (match fst (tplace t q) with None => node | x => x end) (snd (tplace t q)) ip c p = Some s' /\
    repr (nodes s') n sl r' (tinsert t q p (next_loc s) (S (next_loc s))) /\
    frame s s' (tlocs t) sl r' /\ trieEntries s' = ins_entries s t q p.
Proof.
  revert sl r pre node. induction t as [|l tp v t0 IH0 t1 IH1];
    intros sl r pre node Hta Hwf Hpre Hst; pose proof Hta as [Hr Hnd Hlt Hsl Hget].
  - cbn in Hr. subst r. cbn [tplace fst snd].
    destruct Hst as [(_ & _ & _ & ?)|(l & b & e & sl0 & p0 & v0 & -> & -> & He & Hok & ->)]; [done|].
    rewrite insert_placed_false. cbn zeta iota. destruct Hsl as (_ & Hll & _).
    assert (Hp : nodes (placed s p no_parent) !! l = Some e)
      by (cbn; by rewrite lookup_insert_ne by lia).
    rewrite Hp. cbn [mbind option_bind].
    rewrite (entry_choose _ _ _ _ _ b Hok);
      [|apply length_masked|rewrite bits_masked; by apply prefix_app_r].
    cbn [mbind option_bind]. cbn in Hget. rewrite He in Hget. cbn in Hget. injection Hget as Hget.
    rewrite Hget. destruct (attach_new s l b e sl0 p0 v0 p) as (s' & ? & ? & ? & ?); try done. eauto 10.
  - pose proof Hr as (-> & e & He & Hok & H0 & H1). unfold ins_entries.
    destruct (pcase_spec tp q) as [->|b Hb|Hout].
    + rewrite tplace_at, tinsert_at, tloc_at, tget_at. cbn [fst snd].
      destruct (insert_exact_spec s sl l v t0 t1 p trie root Hr Hnd Hget) as (s' & ? & ? & ? & ?). eauto 10.
    + rewrite (tinsert_below _ _ _ _ _ _ _ _ _ _ Hb).
      rewrite (tloc_below _ _ _ _ _ _ _ Hb), (tget_below _ _ _ _ _ _ _ Hb).
      assert (IH : exists s' r', insert_placed s trie root
          (match fst (tplace (side b t0 t1) q) with None => Some l | x => x end)
          (snd (tplace (side b t0 t1) q)) ip c p = Some s' /\
        repr (nodes s') n (ChildSlot l b) r' (tinsert (side b t0 t1) q p (next_loc s) (S (next_loc s))) /\
        frame s s' (tlocs (side b t0 t1)) (ChildSlot l b) r' /\
        trieEntries s' = ins_entries s (side b t0 t1) q p).
      { pose proof (tree_at_side _ _ _ _ _ _ _ _ _ b Hta He) as Hs.
        assert (stopped s trie root (Some l) (ChildSlot l b) (get_child e b) (tp ++ [b])).
        { right. exists l, b, e, sl, tp, v. done. }
        pose proof (twf_side _ _ _ _ _ _ _ b Hwf) as Hw.
        destruct b; [by eapply IH1|by eapply IH0]. }
      destruct IH as (s' & r' & Hrun & Hrep & Hfr & Hent).
      destruct (repr_graft _ _ _ _ _ _ _ _ _ _ _ _ Hta Hfr Hrep) as [Hrep' Hfr'].
      exists s', (Some l). split_and!; [|done..]. rewrite <- Hrun, (tplace_below _ _ _ _ _ _ _ Hb).
      pose proof (tplace_None (side b t0 t1) q).
      by destruct (tplace (side b t0 t1) q) as [[?|] []].
    + rewrite tplace_out, tinsert_out, tloc_out by done. cbn [fst snd]. by eapply insert_out_spec.
Qed.

Lemma insert_spec s v6 r t p :
  tree_at s n (RootSlot v6) r t -> twf (8 * n) [] t ->
  exists s' r', insert s (par_of (RootSlot v6)) ip c p = Some s' /\
    repr (nodes s') n (RootSlot v6) r' (tinsert t q p (next_loc s) (S (next_loc s))) /\
    frame s s' (tlocs t) (RootSlot v6) r' /\ trieEntries s' = ins_entries s t q p.
Proof.
  intros Hta Hwf. pose proof Hta as [Hr Hnd Hlt Hsl Hget].
  unfold insert. change (parentBit (par_of (RootSlot v6))) with (Some (RootSlot v6)).
  cbn [mbind option_bind]. rewrite Hget. cbn [mbind option_bind].
  destruct r as [l|].
  - rewrite (nodePlacement_spec s path_fuel _ _ [] t None Hr Hwf (fuel_enough _ Hwf)). cbn [mbind option_bind].
    apply (insert_placed_spec s (RootSlot v6) (Some l) t [] p); try done; [apply prefix_nil|]. by left.
  - destruct t as [|? ? ? ? ?]; [|by destruct Hr].
    destruct (place_new s p (par_of (RootSlot v6))) as (s1 & H1 & H2).
    change (alloc s (new_entry (Some p) (par_of (RootSlot v6)) ip c))
      with (next_loc s, snd (alloc s (new_entry (Some p) (par_of (RootSlot v6)) ip c))).
    cbv beta iota. rewrite H1. cbn [mbind option_bind]. rewrite H2. cbn [mbind option_bind].
    destruct (set_slot_spec (placed s p (par_of (RootSlot v6))) (RootSlot v6) (Some (next_loc s)))
      as (s' & -> & H4 & H6 & Hx & Hnx & He); [done|].
    exists s', (Some (next_loc s)). split_and!; [done|..|by rewrite He].
    + split; [done|]. eexists. rewrite Hx. cbn. rewrite lookup_insert_eq. split; [done|].
      split; [apply new_entry_ok|done].
    + constructor; [done|done| |rewrite Hnx; cbn; lia].
      intros x _ ?. rewrite Hx. cbn. by rewrite lookup_insert_ne by lia.
Qed.

End addresses.

(** ** [lookup] *)

Lemma lookup_loop_spec n ip s fuel sl r pre t found :
  addr_len n -> length ip = n -> is_bytes ip ->
  repr (nodes s) n sl r t -> twf (8 * n) pre t -> theight t < fuel ->
  lookup_loop s fuel r ip found =
    Some (match tlookup t (bits_of ip) with Some x => Some x | None => found end).
Proof.
  intros Hn Hlen Hip. revert sl r pre fuel found.
  induction t as [|l p v t0 IH0 t1 IH1]; intros sl r pre fuel found Hr Hwf Hf;
    (destruct fuel as [|fuel]; [lia|]); [cbn in Hr; by rewrite Hr|].
  destruct Hr as (-> & e & He & Hok & H0 & H1). pose proof Hwf as (Hp & Hlp & W0 & W1 & _).
  pose proof (addr_len_le n Hn).
  cbn [lookup_loop]. rewrite He. cbn [mbind option_bind].
  destruct (entry_common n Hn e sl p v ip Hok Hlen Hip Hlp) as (k & -> & Hk). cbn [mbind option_bind].
  rewrite Hk, (ok_peer _ _ _ _ _ Hok), (ok_byte _ _ _ _ _ Hok).
  rewrite u8_small by (unfold_words; unfold zlen; lia). unfold zlen. rewrite Hlen.
  destruct (pcase_spec p (bits_of ip)) as [->|b Hb|Hout].
  - rewrite tlookup_at, bool_decide_true by done. rewrite length_bits_of, Hlen.
    rewrite (proj2 (Z.eqb_eq _ _)); [by destruct v|]. rewrite Nat2Z.inj_mul. cbn [Z.of_nat].
    rewrite Z.mul_comm, Z.div_mul; lia.
  - rewrite (tlookup_below _ _ _ _ _ _ _ Hb). pose proof (prefix_length _ _ Hb) as Hle.
    rewrite length_app, length_bits_of in Hle. cbn in Hle.
    rewrite bool_decide_true by (by eapply prefix_snoc).
    rewrite (proj2 (Z.eqb_neq _ _)).
    2: { assert (Z.of_nat (length p) / 8 < Z.of_nat n)%Z; [|lia]. apply Z.div_lt_upper_bound; lia. }
    rewrite (entry_choose n _ _ _ _ _ b Hok) by done. cbn [mbind option_bind].
    cbn in Hf. transitivity (Some (match tlookup (side b t0 t1) (bits_of ip) with Some x => Some x
      | None => match v with Some p0 => Some p0 | None => found end end)).
    { destruct b; [eapply IH1|eapply IH0]; try done; lia. }
    by destruct (tlookup (side b t0 t1) (bits_of ip)), v.
  - rewrite tlookup_out, bool_decide_false by done. done.
Qed.

(** ** [remove] *)

(** The entry once it is unlisted and has no peer. *)
Definition cleared (s : AllowedIPs) (l : loc) (e : trieEntry) (o : PeerPtr) : AllowedIPs :=
  mkAllowedIPs (IPv4 s) (IPv6 s)
    (<[l := set_peer (set_perPeerElem e false) None]> (nodes s)) (next_loc s)
    (del_entry (trieEntries s) o l).

Lemma replace_by_spec s sl child :
  (forall l b, sl = ChildSlot l b -> is_Some (nodes s !! l)) ->
  (forall x, child = Some x -> is_Some (nodes s !! x)) ->
  exists s', replace_by s (par_of sl) child = Some s' /\
    IPv4 s' = match sl with RootSlot false => child | _ => IPv4 s end /\
    IPv6 s' = match sl with RootSlot true => child | _ => IPv6 s end /\
    (forall y, child <> Some y -> nodes s' !! y = upd_cell sl child y <$> nodes s !! y) /\
    (forall y e, child = Some y -> (forall b, sl <> ChildSlot y b) -> nodes s !! y = Some e ->
       nodes s' !! y = Some (set_parent e (par_of sl))) /\
    next_loc s' = next_loc s /\ trieEntries s' = trieEntries s.
Proof.
  intros Hsl Hch. unfold replace_by. cbn [par_of parentBit].
  destruct child as [x|].
  - destruct (Hch x eq_refl) as [e He]. rewrite He. cbn [mbind option_bind].
    destruct (set_slot_spec (set_node s x (set_parent e (par_of sl))) sl (Some x))
      as (s' & Hs & H4 & H6 & Hx & Hn & Hent).
    { intros l b ->. cbn. destruct (decide (x = l)) as [->|]; [rewrite lookup_insert_eq; eauto|].
      rewrite lookup_insert_ne by done. eauto. }
    exists s'. split_and!; try done.
    + intros y Hy. rewrite Hx. cbn. by rewrite lookup_insert_ne by congruence.
    + intros y e' [= ->] Hne He'. rewrite Hx. cbn. rewrite lookup_insert_eq. cbn.
      rewrite upd_cell_other by done. congruence.
  - cbn [mbind option_bind]. destruct (set_slot_spec s sl None) as (s' & Hs & H4 & H6 & Hx & Hn & Hent); [done|].
    exists s'. split_and!; done.
Qed.

Lemma zeroize_spec s l :
  is_Some (nodes s !! l) ->
  exists s', zeroizePointers s l = Some s' /\ IPv4 s' = IPv4 s /\ IPv6 s' = IPv6 s /\
    (forall y, y <> l -> nodes s' !! y = nodes s !! y) /\ is_Some (nodes s' !! l) /\
    next_loc s' = next_loc s /\ trieEntries s' = trieEntries s.
Proof.
  intros [e He]. unfold zeroizePointers. rewrite He. cbn. eexists. split; [done|]. cbn.
  split_and!; try done; [intros; by rewrite lookup_insert_ne|rewrite lookup_insert_eq; eauto].
Qed.

Lemma remove_cleared s l e o :
  nodes s !! l = Some e -> peer e = Some o -> perPeerElem e = true ->
  remove s l = remove_links (cleared s l e o) l e.
Proof.
  intros He Hp Hel. unfold remove, removeFromPeerEntries. rewrite He. cbn [mbind option_bind].
  rewrite Hel, Hp. cbn. rewrite lookup_insert_eq. cbn.
  unfold set_node, set_nodes, set_entries, cleared. cbn. by rewrite insert_insert_eq.
Qed.

Section remove_root.
Context (s : AllowedIPs) (n : nat) (sl : slot) (l : loc) (p : list bool) (o : PeerPtr).
Context (t0 t1 : tree PeerPtr) (e : trieEntry).
Context (Hta : tree_at s n sl (Some l) (Node l p (Some o) t0 t1)) (He : nodes s !! l = Some e).
Local Notation s1 := (cleared s l e o).

Lemma cleared_self : nodes s1 !! l = Some (set_peer (set_perPeerElem e false) None).
Proof. cbn. by rewrite lookup_insert_eq. Qed.

Lemma cleared_other y : y <> l -> nodes s1 !! y = nodes s !! y.
Proof. intros. cbn. by rewrite lookup_insert_ne. Qed.

Lemma cleared_owner l' b : sl = ChildSlot l' b -> l' <> l /\ is_Some (nodes s1 !! l').
Proof.
  intros ->. destruct Hta as [_ _ _ (? & ? & Hl) _].
  assert (l' <> l) by (intros ->; apply Hl; cbn; set_solver). by rewrite cleared_other.
Qed.

Lemma root_entry : entry_ok n e sl p (Some o).
Proof. destruct Hta as [(_ & e' & He' & ? & _) _ _ _ _]. congruence. Qed.

Lemma root_not_below x : x ∈ tlocs t0 ++ tlocs t1 -> x <> l.
Proof. intros Hx ->. destruct Hta as [_ Hnd _ _ _]. cbn in Hnd. by apply NoDup_cons in Hnd as [? _]. Qed.

Lemma below_not_owner x b : x ∈ tlocs t0 ++ tlocs t1 -> sl <> ChildSlot x b.
Proof. intros Hx ->. destruct Hta as [_ _ _ (_ & _ & Hl) _]. apply Hl. cbn. set_solver. Qed.

(** Two children: the node stays, without a peer. *)
Lemma remove_two :
  t0 <> Leaf -> t1 <> Leaf ->
  exists s' r', remove_links s1 l e = Some s' /\
    repr (nodes s') n sl r' (mknode l p None t0 t1) /\
    frame s s' (l :: tlocs t0 ++ tlocs t1) sl r' /\ trieEntries s' = del_entry (trieEntries s) o l.
Proof.
  intros N0 N1. pose proof Hta as [(_ & e' & He' & Hok & H0 & H1) Hnd Hlt Hsl Hget].
  rewrite He in He'. injection He' as <-.
  assert (Hc0 : child0 e <> None) by (intros Hc; by apply N0, (repr_root _ _ _ _ _ H0)).
  assert (Hc1 : child1 e <> None) by (intros Hc; by apply N1, (repr_root _ _ _ _ _ H1)).
  unfold remove_links. destruct (child0 e) as [x0|] eqn:E0; [|done].
  destruct (child1 e) as [x1|] eqn:E1; [|done].
  exists s1, (Some l). split_and!; [done| |apply frame_same; try done|done].
  - replace (mknode l p None t0 t1) with (Node l p None t0 t1) by (by destruct t0, t1).
    split; [done|]. eexists. split; [apply cleared_self|]. split; [by destruct Hok; constructor|].
    cbn [child0 child1 set_peer set_perPeerElem]. rewrite E0, E1.
    split; (eapply repr_frame; [done|]); intros x Hx; apply cleared_other, root_not_below; set_solver.
  - intros x [? _]%not_elem_of_cons _. by apply cleared_other.
Qed.

(** One child: it takes the place of the node. *)
Lemma remove_one b lc pc vc a0 a1 :
  side b t0 t1 = Node lc pc vc a0 a1 -> side (negb b) t0 t1 = Leaf ->
  exists s' r', remove_links s1 l e = Some s' /\
    repr (nodes s') n sl r' (mknode l p None t0 t1) /\
    frame s s' (l :: tlocs t0 ++ tlocs t1) sl r' /\ trieEntries s' = del_entry (trieEntries s) o l.
Proof.
  intros Hside Hleaf. pose proof (tree_at_side _ _ _ _ _ _ _ _ _ b Hta He) as [Hr Nd _ _ _].
  pose proof (tree_at_side _ _ _ _ _ _ _ _ _ (negb b) Hta He) as [Hr' _ _ _ _].
  rewrite Hleaf in Hr'. cbn in Hr'. rewrite Hside in Hr, Nd. pose proof Hr as (Hc & ce & Hce & _).
  assert (Hin : forall x, x ∈ lc :: tlocs a0 ++ tlocs a1 -> x ∈ tlocs t0 ++ tlocs t1).
  { intros x Hx. change (x ∈ tlocs (Node lc pc vc a0 a1)) in Hx. rewrite <- Hside in Hx. destruct b; set_solver. }
  pose proof (root_not_below lc ltac:(apply Hin; set_solver)) as Hlc.
  destruct (replace_by_spec s1 sl (Some lc)) as (s2 & H2 & H42 & H62 & Ho2 & Hc2 & Hn2 & He2).
  { intros l' b' Hsl. by apply (cleared_owner l' b'). }
  { intros x [= <-]. rewrite cleared_other by done. eauto. }
  assert (Hl2 : is_Some (nodes s2 !! l)). { rewrite Ho2, cleared_self by congruence. eauto. }
  destruct (zeroize_spec s2 l Hl2) as (s3 & H3 & H43 & H63 & Ho3 & _ & Hn3 & He3).
  exists s3, (Some lc). split_and!.
  - unfold remove_links. rewrite (ok_parent _ _ _ _ _ root_entry).
    destruct b; cbn [get_child negb] in Hc, Hr'; rewrite Hr', Hc; cbn [get_child];
      rewrite Hc, H2; exact H3.
  - replace (mknode l p None t0 t1) with (Node lc pc vc a0 a1) by (destruct b; cbn in *; subst; done).
    rewrite Hc in Hr. eapply (repr_reparent (nodes s)); [done..| |].
    + rewrite Ho3 by done. apply Hc2; [done|..|by rewrite cleared_other].
      intros b'. apply below_not_owner, Hin. set_solver.
    + intros x Hx. assert (Hx' : x ∈ tlocs t0 ++ tlocs t1) by (apply Hin; set_solver).
      pose proof (root_not_below x Hx'). assert (x <> lc) by (intros ->; cbn in Nd; by apply NoDup_cons in Nd as [? _]).
      rewrite Ho3, Ho2, cleared_other by congruence. destruct (nodes s !! x); [|done]. cbn. f_equal.
      apply upd_cell_other. intros b'. by apply below_not_owner.
  - constructor; [by rewrite H43, H42|by rewrite H63, H62| |rewrite Hn3, Hn2; done].
    intros x [Hxl Hxb]%not_elem_of_cons _. assert (lc <> x) by (intros <-; apply Hxb, Hin; set_solver).
    by rewrite Ho3, Ho2, cleared_other by congruence.
  - by rewrite He3, He2.
Qed.

(** No child, and the slot belongs to the table or to a node with a peer. *)
Lemma remove_none :
  t0 = Leaf -> t1 = Leaf ->
  (forall l' b, sl = ChildSlot l' b -> exists e', nodes s !! l' = Some e' /\ peer e' <> None) ->
  exists s' r', remove_links s1 l e = Some s' /\
    repr (nodes s') n sl r' (mknode l p None t0 t1) /\
    frame s s' (l :: tlocs t0 ++ tlocs t1) sl r' /\ trieEntries s' = del_entry (trieEntries s) o l.
Proof.
  intros Hl0 Hl1 Howner. pose proof (tree_at_side _ _ _ _ _ _ _ _ _ false Hta He) as [Hc0 _ _ _ _].
  pose proof (tree_at_side _ _ _ _ _ _ _ _ _ true Hta He) as [Hc1 _ _ _ _].
  cbn in Hc0, Hc1. rewrite Hl0 in Hc0. rewrite Hl1 in Hc1. cbn in Hc0, Hc1.
  destruct (replace_by_spec s1 sl None) as (s2 & H2 & H42 & H62 & Ho2 & _ & Hn2 & He2).
  { intros l' b' Hsl. by apply (cleared_owner l' b'). }
  { done. }
  assert (Hl2 : is_Some (nodes s2 !! l)). { rewrite Ho2, cleared_self by congruence. eauto. }
  destruct (zeroize_spec s2 l Hl2) as (s3 & H3 & H43 & H63 & Ho3 & _ & Hn3 & He3).
  exists s3, None. split_and!.
  - unfold remove_links. rewrite (ok_parent _ _ _ _ _ root_entry), Hc0, Hc1. cbn [get_child].
    rewrite Hc1, H2. cbn [mbind option_bind par_of parentBitType parentBit].
    pose proof cleared_owner as Hco. pose proof cleared_other as Hcl.
    destruct sl as [v6|l' b]; [exact H3|]. destruct (Howner l' b eq_refl) as (e' & He' & Hp').
    destruct (Hco l' b eq_refl) as [Hne _].
    replace (Z.b2z b >? 1)%Z with false by (by destruct b).
    rewrite Ho2, Hcl, He' by done. cbn. rewrite decide_True by done. cbn.
    destruct (peer e'); [exact H3|done].
  - rewrite Hl0, Hl1. done.
  - constructor; [by rewrite H43, H42|by rewrite H63, H62| |rewrite Hn3, Hn2; done].
    intros x [Hxl Hxb]%not_elem_of_cons _. by rewrite Ho3, Ho2, cleared_other by congruence.
  - by rewrite He3, He2.
Qed.

End remove_root.

(** A node is removed from the trie whose root it is. *)
Lemma remove_root_spec s n sl l p o t0 t1 :
  tree_at s n sl (Some l) (Node l p (Some o) t0 t1) ->
  (forall l' b, sl = ChildSlot l' b -> t0 = Leaf -> t1 = Leaf ->
     exists e', nodes s !! l' = Some e' /\ peer e' <> None) ->
  exists s' r', remove s l = Some s' /\
    repr (nodes s') n sl r' (mknode l p None t0 t1) /\
    frame s s' (l :: tlocs t0 ++ tlocs t1) sl r' /\ trieEntries s' = del_entry (trieEntries s) o l.
Proof.
  intros Hta Howner. pose proof Hta as [(_ & e & He & Hok & _) _ _ _ _].
  rewrite (remove_cleared s l e o He (ok_peer _ _ _ _ _ Hok)) by apply (ok_elem _ _ _ _ _ Hok).
  destruct t0 as [|l0 p0 v0 a0 b0] eqn:E0, t1 as [|l1 p1 v1 a1 b1] eqn:E1.
  - apply remove_none; naive_solver.
  - by eapply (remove_one _ _ _ _ _ _ _ _ _ Hta He true).
  - by eapply (remove_one _ _ _ _ _ _ _ _ _ Hta He false).
  - by apply remove_two.
Qed.

(** A childless node below a node without a peer: both go, and the sibling
    takes the place of the parent. *)
Section remove_collapse.
Context (s : AllowedIPs) (n : nat) (sl : slot) (l' : loc) (p : list bool) (t0 t1 : tree PeerPtr).
Context (b : bool) (l : loc) (pl : list bool) (o : PeerPtr).
Context (lc : loc) (pc : list bool) (vc : option PeerPtr) (a0 a1 : tree PeerPtr).
Context (e' e ce : trieEntry).
Context (Hta : tree_at s n sl (Some l') (Node l' p None t0 t1)).
Context (Hside : side b t0 t1 = Node l pl (Some o) Leaf Leaf).
Context (Hother : side (negb b) t0 t1 = Node lc pc vc a0 a1).
Context (He' : nodes s !! l' = Some e') (He : nodes s !! l = Some e) (Hce : nodes s !! lc = Some ce).

Lemma collapse_distinct : l <> l' /\ lc <> l' /\ lc <> l /\
  (forall x, x ∈ tlocs a0 ++ tlocs a1 -> x <> l /\ x <> l' /\ x <> lc).
Proof.
  destruct Hta as [_ Hnd _ _ _]. cbn in Hnd. apply NoDup_cons in Hnd as [Hl' (N0 & Hd & N1)%NoDup_app].
  assert (Hll : l ∈ tlocs (side b t0 t1)) by (rewrite Hside; cbn; set_solver).
  assert (Hoo : forall x, x ∈ lc :: tlocs a0 ++ tlocs a1 -> x <> l /\ x <> l').
  { intros x Hx. change (x ∈ tlocs (Node lc pc vc a0 a1)) in Hx. rewrite <- Hother in Hx.
    split; intros ->; destruct b; cbn in *; [by apply (Hd l)|by apply (Hd l)|set_solver|set_solver]. }
  destruct (Hoo lc ltac:(set_solver)) as [? ?].
  split_and!; [intros ->; destruct b; set_solver|done|done|].
  intros x Hx. destruct (Hoo x ltac:(set_solver)). split_and!; [done..|]. intros ->.
  assert (Hnc : NoDup (tlocs (Node lc pc vc a0 a1))) by (rewrite <- Hother; by destruct b).
  cbn in Hnc. by apply NoDup_cons in Hnc as [? _].
Qed.

Lemma collapse_owner x b' : x = l' \/ x ∈ tlocs (side b t0 t1) \/ x ∈ tlocs (side (negb b) t0 t1) ->
  sl <> ChildSlot x b'.
Proof.
  intros Hx ->. destruct Hta as [_ _ _ (_ & _ & Hl) _]. apply Hl. cbn.
  destruct Hx as [->|[Hx|Hx]]; [set_solver|destruct b; set_solver..].
Qed.

(** The run: the final cells of everything that matters. *)
Lemma collapse_run :
  exists s', remove s l = Some s' /\
    IPv4 s' = match sl with RootSlot false => Some lc | _ => IPv4 s end /\
    IPv6 s' = match sl with RootSlot true => Some lc | _ => IPv6 s end /\
    nodes s' !! lc = Some (set_parent ce (par_of sl)) /\
    (forall y, y <> l -> y <> l' -> y <> lc -> nodes s' !! y = upd_cell sl (Some lc) y <$> nodes s !! y) /\
    next_loc s' = next_loc s /\ trieEntries s' = del_entry (trieEntries s) o l.
Proof.
  destruct collapse_distinct as (Dl & Dc & Dcl & _).
  pose proof (tree_at_side _ _ _ _ _ _ _ _ _ b Hta He') as [Hr _ _ _ _].
  pose proof (tree_at_side _ _ _ _ _ _ _ _ _ (negb b) Hta He') as [Hr' _ _ _ _].
  rewrite Hside in Hr. rewrite Hother in Hr'. destruct Hr as (_ & e2 & He2 & Hok & Hc0 & Hc1).
  rewrite He in He2. injection He2 as <-. cbn in Hc0, Hc1. destruct Hr' as (Hgc & _).
  destruct Hta as [(_ & e3 & He3 & Hok' & _) _ _ Hsl _]. rewrite He' in He3. injection He3 as <-.
  rewrite (remove_cleared s l e o He (ok_peer _ _ _ _ _ Hok)) by apply (ok_elem _ _ _ _ _ Hok).
  destruct (replace_by_spec (cleared s l e o) (ChildSlot l' b) None)
    as (s2 & H2 & H42 & H62 & Ho2 & _ & Hn2 & Hent2).
  { intros x b' [= <- <-]. rewrite cleared_other by done. eauto. }
  { done. }
  assert (Hx2 : forall y, y <> l -> y <> l' -> nodes s2 !! y = nodes s !! y).
  { intros y ? ?. rewrite Ho2, cleared_other by done. destruct (nodes s !! y); [|done]. cbn.
    by rewrite decide_False. }
  assert (Hp2 : nodes s2 !! l' = Some (set_child e' b None)).
  { rewrite Ho2, cleared_other, He' by done. cbn. by rewrite decide_True. }
  destruct (replace_by_spec s2 sl (Some lc)) as (s3 & H3 & H43 & H63 & Ho3 & Hc3 & Hn3 & Hent3).
  { intros x b' Hx. destruct (decide (x = l)) as [->|].
    { destruct (collapse_owner l b'); [rewrite Hside; cbn; set_solver|done]. }
    destruct (decide (x = l')) as [->|]; [eauto|]. rewrite Hx2 by done. rewrite Hx in Hsl. apply Hsl. }
  { intros x [= <-]. rewrite Hx2 by done. eauto. }
  destruct (zeroize_spec s3 l) as (s4 & H4 & H44 & H64 & Ho4 & _ & Hn4 & Hent4).
  { rewrite Ho3, Ho2, cleared_self by congruence. eauto. }
  destruct (zeroize_spec s4 l') as (s5 & H5 & H45 & H65 & Ho5 & _ & Hn5 & Hent5).
  { rewrite Ho4, Ho3, Hp2 by congruence. eauto. }
  exists s5. split_and!.
  - unfold remove_links. rewrite (ok_parent _ _ _ _ _ Hok), Hc0, Hc1. cbn [get_child].
    rewrite Hc1, H2. cbn [mbind option_bind par_of parentBitType parentBit].
    replace (Z.b2z b >? 1)%Z with false by (by destruct b). rewrite Hp2. cbn [mbind option_bind].
    replace (peer (set_child e' b None)) with (@None PeerPtr) by (symmetry; apply (ok_peer _ _ _ _ _ Hok')).
    replace (parent (set_child e' b None)) with (par_of sl) by (symmetry; apply (ok_parent _ _ _ _ _ Hok')).
    replace (get_child (set_child e' b None) (negb (Z.b2z b =? 1)%Z)) with (Some lc) by (by destruct b).
    rewrite H3. cbn [mbind option_bind]. rewrite H4. exact H5.
  - by rewrite H45, H44, H43, H42.
  - by rewrite H65, H64, H63, H62.
  - rewrite Ho5, Ho4 by done. apply Hc3; [done| |by rewrite Hx2]. intros b'. apply collapse_owner.
    right; right. rewrite Hother. cbn. set_solver.
  - intros y ? ? ?. by rewrite Ho5, Ho4, Ho3, Hx2 by congruence.
  - by rewrite Hn5, Hn4, Hn3, Hn2.
  - by rewrite Hent5, Hent4, Hent3, Hent2.
Qed.

Lemma remove_collapse_spec :
  exists s' r', remove s l = Some s' /\
    repr (nodes s') n sl r' (Node lc pc vc a0 a1) /\
    frame s s' (l' :: tlocs t0 ++ tlocs t1) sl r' /\ trieEntries s' = del_entry (trieEntries s) o l.
Proof.
  destruct collapse_run as (s' & Hrun & H4 & H6 & Hc & Hy & Hnx & Hent).
  destruct collapse_distinct as (Dl & Dc & Dcl & Dx).
  pose proof (tree_at_side _ _ _ _ _ _ _ _ _ (negb b) Hta He') as [Hr Nd _ _ _].
  rewrite Hother in Hr, Nd. pose proof Hr as (Hgc & _). rewrite Hgc in Hr.
  exists s', (Some lc). split_and!; [done| | |done].
  - eapply (repr_reparent (nodes s)); [done..|]. intros x Hx. destruct (Dx x Hx) as (? & ? & ?).
    rewrite Hy by done. destruct (nodes s !! x); [|done]. cbn. f_equal. apply upd_cell_other.
    intros b'. apply collapse_owner. right; right. rewrite Hother. cbn. set_solver.
  - constructor; [done|done| |lia]. intros x [? Hx]%not_elem_of_cons _.
    assert (Hl : l ∈ tlocs t0 ++ tlocs t1).
    { assert (l ∈ tlocs (side b t0 t1)) by (rewrite Hside; cbn; set_solver). destruct b; set_solver. }
    assert (Hlc : lc ∈ tlocs t0 ++ tlocs t1).
    { assert (lc ∈ tlocs (side (negb b) t0 t1)) by (rewrite Hother; cbn; set_solver). destruct b; set_solver. }
    apply Hy; congruence.
Qed.

End remove_collapse.

Lemma mknode_nonleaf l p v (t0 t1 : tree PeerPtr) :
  t0 <> Leaf \/ t1 <> Leaf -> mknode l p v t0 t1 <> Leaf.
Proof. unfold mknode. destruct v, t0, t1; naive_solver. Qed.

Lemma tremove_nonleaf m pre l (t : tree PeerPtr) :
  twf m pre t -> NoDup (tlocs t) -> t <> Leaf -> (forall p v, t <> Node l p v Leaf Leaf) ->
  tremove l t <> Leaf.
Proof.
  destruct t as [|l' p v t0 t1]; intros Hwf Hnd; [done|]. intros _ Hn.
  destruct Hwf as (_ & _ & W0 & W1 & Hc). cbn [tremove]. case_decide as Hl.
  - subst l'. apply mknode_nonleaf. destruct t0; [|by left]. destruct t1; [|by right]. by destruct (Hn p v).
  - destruct v as [x|]; [done|]. apply mknode_nonleaf. destruct (Hc eq_refl) as [N0 N1].
    cbn in Hnd. apply NoDup_cons in Hnd as [_ (_ & Hd & _)%NoDup_app].
    destruct (decide (l ∈ tlocs t0)) as [Hin|Hin].
    + right. erewrite tremove_notin; [done..|]. intros ?. by apply (Hd l).
    + left. by erewrite tremove_notin.
Qed.

Lemma mknode_full l p v (t0 t1 : tree PeerPtr) :
  (v = None -> t0 <> Leaf /\ t1 <> Leaf) -> mknode l p v t0 t1 = Node l p v t0 t1.
Proof. intros H. unfold mknode. destruct v; [done|]. destruct (H eq_refl). by destruct t0, t1. Qed.

Lemma remove_spec s n sl r t pre l e o :
  tree_at s n sl r t -> twf (8 * n) pre t -> l ∈ tlocs t ->
  nodes s !! l = Some e -> peer e = Some o ->
  (forall l' b p v, sl = ChildSlot l' b -> t = Node l p v Leaf Leaf ->
     exists e', nodes s !! l' = Some e' /\ peer e' <> None) ->
  exists s' r', remove s l = Some s' /\ repr (nodes s') n sl r' (tremove l t) /\
    frame s s' (tlocs t) sl r' /\ trieEntries s' = del_entry (trieEntries s) o l.
Proof.
  revert sl r pre. induction t as [|l' p v t0 IH0 t1 IH1];
    intros sl r pre Hta Hwf Hin He Hp Howner; [cbn in Hin; set_solver|].
  pose proof Hta as [(-> & e' & He' & Hok & H0 & H1) Hnd _ _ _].
  pose proof Hwf as (_ & _ & W0 & W1 & Hc). cbn [tremove tlocs].
  destruct (decide (l = l')) as [<-|Hne].
  { rewrite He in He'. injection He' as <-. assert (v = Some o) as -> by (rewrite <- (ok_peer _ _ _ _ _ Hok); done).
    apply remove_root_spec; [done|]. intros l2 b Hsl -> ->. by eapply Howner. }
  assert (exists b, l ∈ tlocs (side b t0 t1)) as [b Hb].
  { cbn in Hin. apply elem_of_cons in Hin as [?|[?|?]%elem_of_app]; [done|by exists false|by exists true]. }
  assert (Hout : l ∉ tlocs (side (negb b) t0 t1)).
  { cbn in Hnd. apply NoDup_cons in Hnd as [_ (_ & Hd & _)%NoDup_app]. intros ?. destruct b; by apply (Hd l). }
  assert (Hrest : tremove l (side (negb b) t0 t1) = side (negb b) t0 t1).
  { eapply tremove_notin; [by eapply twf_side|done]. }
  destruct (decide (v = None /\ theight (side b t0 t1) = 1)) as [[-> Hleaf]|Hnc].
  - destruct (side b t0 t1) as [|l2 pl vl [] []] eqn:Es; cbn in Hleaf; try lia.
    assert (l2 = l) as -> by (cbn in Hb; set_solver).
    pose proof (tree_at_side _ _ _ _ _ _ _ _ _ b Hta He') as [Hr _ _ _ _]. rewrite Es in Hr.
    destruct Hr as (_ & e2 & He2 & Hok2 & _). rewrite He in He2. injection He2 as <-.
    assert (vl = Some o) as -> by (rewrite <- (ok_peer _ _ _ _ _ Hok2); done).
    destruct (side (negb b) t0 t1) as [|lc pc vc a0 a1] eqn:Eo.
    { destruct (Hc eq_refl). by destruct b. }
    pose proof (tree_at_side _ _ _ _ _ _ _ _ _ (negb b) Hta He') as [Hr _ _ _ _]. rewrite Eo in Hr.
    destruct Hr as (_ & ce & Hce & _).
    replace (mknode l' p None (tremove l t0) (tremove l t1)) with (Node lc pc vc a0 a1);
      [by eapply remove_collapse_spec|].
    destruct b; cbn in Es, Eo; subst; cbn [tremove side negb] in *; rewrite Hrest; cbn;
      rewrite decide_True by done; done.
  - assert (IH : exists s' r', remove s l = Some s' /\
      repr (nodes s') n (ChildSlot l' b) r' (tremove l (side b t0 t1)) /\
      frame s s' (tlocs (side b t0 t1)) (ChildSlot l' b) r' /\
      trieEntries s' = del_entry (trieEntries s) o l).
    { pose proof (tree_at_side _ _ _ _ _ _ _ _ _ b Hta He') as Hs.
      pose proof (twf_side _ _ _ _ _ _ _ b Hwf) as Hw.
      assert (Ho : forall l2 b2 pl vl, ChildSlot l' b = ChildSlot l2 b2 -> side b t0 t1 = Node l pl vl Leaf Leaf ->
        exists e2, nodes s !! l2 = Some e2 /\ peer e2 <> None).
      { intros l2 b2 pl vl [= <- <-] Hs2. exists e'. split; [done|]. rewrite (ok_peer _ _ _ _ _ Hok).
        intros ->. apply Hnc. rewrite Hs2. done. }
      destruct b; [by eapply IH1|by eapply IH0]. }
    destruct IH as (s' & r' & Hrun & Hrep & Hfr & Hent).
    destruct (repr_graft _ _ _ _ _ _ _ _ _ _ _ _ Hta Hfr Hrep) as [Hrep' Hfr'].
    exists s', (Some l'). split_and!; try done.
    replace (mknode l' p v (tremove l t0) (tremove l t1)) with
      (fork l' p v b (tremove l (side b t0 t1)) (side (negb b) t0 t1)); [done|].
    rewrite mknode_full; [destruct b; cbn [side negb fork] in *; by rewrite Hrest|].
    intros ->. destruct (Hc eq_refl) as [N0 N1].
    assert (tremove l (side b t0 t1) <> Leaf).
    { eapply tremove_nonleaf; [by eapply twf_side|by destruct (tree_at_side _ _ _ _ _ _ _ _ _ b Hta He')|by destruct b|].
      intros pl vl Hs2. apply Hnc. by rewrite Hs2. }
    destruct b; cbn [side negb] in *; by rewrite Hrest.
Qed.
