(* ===== verification/AllowedIPsTable.v ===== *)
(** * The allowed-IP table as a finite map

    The exported operations of src/wireguard-go/device/allowedips.go on the
    whole table, both address families and the per-peer lists, against their
    specification: a map from prefixes to peers per family, longest-prefix
    match for [Lookup] and the preimage of a peer for [EntriesForPeer]. *)

From stdpp Require Import base numbers list gmap.
From S2P Require Import Prelude AllowedIPs BitTrie Trie AllowedIPsCorrect.

Open Scope nat_scope.

(** ** Specification *)

(** Address bytes and root pointer of a family; [true] is IPv6. *)
Definition fam_len (v6 : bool) : nat := if v6 then IPv6len else IPv4len.

Definition root (s : AllowedIPs) (v6 : bool) : option loc := if v6 then IPv6 s else IPv4 s.

(** The two maps of prefixes. *)
Definition prefixes : Type := bool -> gmap (list bool) PeerPtr.

Definition no_prefixes : prefixes := fun _ => ∅.

Definition update (m : prefixes) (v6 : bool) (f : gmap (list bool) PeerPtr -> gmap (list bool) PeerPtr) :
    prefixes := fun v => if decide (v = v6) then f (m v) else m v.

(** The family and the bits of a [netip.Prefix]. *)
Definition prefix_family (pfx : Prefix) : bool := Is6 (Addr pfx).

Definition prefix_key (pfx : Prefix) : list bool :=
  take (Z.to_nat (Bits pfx)) (bits_of (Addr pfx)).

(** What [netip] guarantees of a valid prefix. *)
Definition valid_prefix (pfx : Prefix) : Prop :=
  addr_len (length (Addr pfx)) /\ is_bytes (Addr pfx) /\
  (0 <= Bits pfx <= 8 * zlen (Addr pfx))%Z.

#[export] Instance addr_len_dec n : Decision (addr_len n).
Proof. unfold addr_len. apply _. Defined.

#[export] Instance valid_prefix_dec pfx : Decision (valid_prefix pfx).
Proof. unfold valid_prefix. apply _. Defined.

(** The calls that change a table. *)
Inductive call :=
| CInsert (pfx : Prefix) (p : PeerPtr)
| CRemove (pfx : Prefix) (p : PeerPtr)
| CRemoveByPeer (p : PeerPtr).

Definition exec_call (s : AllowedIPs) (c : call) : option AllowedIPs :=
  match c with
  | CInsert pfx p => Insert s pfx p
  | CRemove pfx p => Remove s pfx p
  | CRemoveByPeer p => RemoveByPeer s p
  end.

Definition exec_calls (s : AllowedIPs) (cs : list call) : option AllowedIPs :=
  foldl (fun s c => s ← s; exec_call s c) (Some s) cs.

Definition valid_call (c : call) : Prop :=
  match c with
  | CInsert pfx _ | CRemove pfx _ => valid_prefix pfx
  | CRemoveByPeer _ => True
  end.

#[export] Instance valid_call_dec c : Decision (valid_call c).
Proof. destruct c; cbn; apply _. Defined.

Definition spec_call (m : prefixes) (c : call) : prefixes :=
  match c with
  | CInsert pfx p => update m (prefix_family pfx) (<[prefix_key pfx := p]>)
  | CRemove pfx p =>
      if decide (m (prefix_family pfx) !! prefix_key pfx = Some p)
      then update m (prefix_family pfx) (delete (prefix_key pfx)) else m
  | CRemoveByPeer p => fun v => filter (fun kv => kv.2 <> p) (m v)
  end.

Definition spec_calls (cs : list call) : prefixes := foldl spec_call no_prefixes cs.

(** ** The invariant *)

(** Every cell in use was allocated. *)
Definition bounded (s : AllowedIPs) : Prop := forall l e, nodes s !! l = Some e -> l < next_loc s.

Record table_ok (s : AllowedIPs) (tr : bool -> tree PeerPtr) : Prop := mk_table_ok {
  tk_repr : forall v6, repr (nodes s) (fam_len v6) (RootSlot v6) (root s v6) (tr v6);
  tk_nodup : forall v6, NoDup (tlocs (tr v6));
  tk_wf : forall v6, twf (8 * fam_len v6) [] (tr v6);
  tk_disj : forall l, l ∈ tlocs (tr false) -> l ∈ tlocs (tr true) -> False;
  tk_bounded : bounded s;
  tk_lists : forall p, NoDup (entries_of s p);
  tk_listed : forall p l, l ∈ entries_of s p <->
    exists v6 q, tloc (tr v6) q = Some l /\ tget (tr v6) q = Some p }.

(** The table holds the prefixes [m]. *)
Definition holds (s : AllowedIPs) (m : prefixes) : Prop :=
  exists tr, table_ok s tr /\ forall v6 q, m v6 !! q = tget (tr v6) q.

(** ** Boundedness *)

Lemma bounded_set_node s l e0 e : nodes s !! l = Some e0 -> bounded s -> bounded (set_node s l e).
Proof.
  intros Hl Hb x ex. cbn. destruct (decide (l = x)) as [<-|]; [intros _; by eapply Hb|].
  rewrite lookup_insert_ne by done. apply Hb.
Qed.

Lemma bounded_set_entries s p ls : bounded s -> bounded (set_entries s p ls).
Proof. done. Qed.

Lemma bounded_alloc s e l s' : alloc s e = (l, s') -> bounded s -> bounded s'.
Proof.
  intros [= <- <-] Hb x ex. cbn. destruct (decide (next_loc s = x)) as [<-|]; [lia|].
  rewrite lookup_insert_ne by done. intros H%Hb. lia.
Qed.

Lemma bounded_set_slot s sl v s' : set_slot s sl v = Some s' -> bounded s -> bounded s'.
Proof.
  destruct sl as [[]|l b]; cbn; [intros [= <-] Hb; exact Hb..|].
  destruct (nodes s !! l) eqn:E; [|done]. intros [= <-]. by eapply bounded_set_node.
Qed.

(** Boundedness along a run of primitive steps: follow the binds forwards and
    the states backwards. *)
Create HintDb bounded.
#[local] Hint Resolve bounded_set_node bounded_set_entries bounded_alloc bounded_set_slot : bounded.

Ltac bounded_run :=
  repeat match goal with
  | H : mbind _ _ = Some _ |- _ => apply bind_Some in H as (? & ? & ?)
  | H : Some _ = Some _ |- _ => injection H as H; subst
  | H : None = Some _ |- _ => discriminate H
  | H : context [match ?x with _ => _ end] |- bounded _ => destruct x eqn:?
  end; eauto 10 with bounded.

Lemma bounded_maskSelf s l s' : maskSelf s l = Some s' -> bounded s -> bounded s'.
Proof. unfold maskSelf. intros. bounded_run. Qed.

Lemma bounded_addToPeerEntries s l s' : addToPeerEntries s l = Some s' -> bounded s -> bounded s'.
Proof. unfold addToPeerEntries. intros. bounded_run. Qed.

Lemma bounded_removeFromPeerEntries s l s' :
  removeFromPeerEntries s l = Some s' -> bounded s -> bounded s'.
Proof. unfold removeFromPeerEntries. intros. bounded_run. Qed.

Lemma bounded_attach s l b x s' : attach s l b x = Some s' -> bounded s -> bounded s'.
Proof. unfold attach. intros. bounded_run. Qed.

#[local] Hint Resolve bounded_maskSelf bounded_addToPeerEntries bounded_removeFromPeerEntries
  bounded_attach : bounded.

Lemma bounded_hang s trie par x s' : hang s trie par x = Some s' -> bounded s -> bounded s'.
Proof. unfold hang. intros. bounded_run. Qed.

#[local] Hint Resolve bounded_hang : bounded.

Lemma bounded_insert_split s trie node down nn ip c s' :
  insert_split s trie node down nn ip c = Some s' -> bounded s -> bounded s'.
Proof. unfold insert_split. intros. bounded_run. Qed.

#[local] Hint Resolve bounded_insert_split : bounded.

Lemma bounded_insert_placed s trie root node exact ip c p s' :
  insert_placed s trie root node exact ip c p = Some s' -> bounded s -> bounded s'.
Proof. unfold insert_placed. intros. bounded_run. Qed.

#[local] Hint Resolve bounded_insert_placed : bounded.

Lemma bounded_insert s trie ip c p s' :
  insert s trie ip c p = Some s' -> bounded s -> bounded s'.
Proof. unfold insert. intros. bounded_run. Qed.

Lemma bounded_replace_by s par child s' : replace_by s par child = Some s' -> bounded s -> bounded s'.
Proof. unfold replace_by. intros. bounded_run. Qed.

Lemma bounded_zeroizePointers s l s' : zeroizePointers s l = Some s' -> bounded s -> bounded s'.
Proof. unfold zeroizePointers. intros. bounded_run. Qed.

#[local] Hint Resolve bounded_replace_by bounded_zeroizePointers : bounded.

Lemma bounded_remove s l s' : remove s l = Some s' -> bounded s -> bounded s'.
Proof. unfold remove, remove_links. intros. bounded_run. Qed.

(** ** The invariant is preserved *)

Lemma table_at s tr v6 : table_ok s tr -> tree_at s (fam_len v6) (RootSlot v6) (root s v6) (tr v6).
Proof.
  intros []. constructor; [apply tk_repr0|apply tk_nodup0| |done|by destruct v6].
  apply Forall_forall. intros l Hl. destruct (repr_in _ _ _ _ _ _ (tk_repr0 v6) Hl) as [e He].
  by eapply tk_bounded0.
Qed.

Lemma loc_unique s tr v q v' q' l :
  table_ok s tr -> tloc (tr v) q = Some l -> tloc (tr v') q' = Some l -> v = v' /\ q = q'.
Proof.
  intros [] H H'. assert (v = v') as <-.
  { pose proof (tloc_in _ _ _ H). pose proof (tloc_in _ _ _ H').
    destruct v, v'; try done; by destruct (tk_disj0 l). }
  split; [done|]. by eapply tloc_inj.
Qed.

Definition set_tree (tr : bool -> tree PeerPtr) (v6 : bool) (t : tree PeerPtr) : bool -> tree PeerPtr :=
  fun v => if decide (v = v6) then t else tr v.

(** Everything but the peer lists, after a change to one family. *)
Lemma table_frame s s' tr v6 r t :
  table_ok s tr -> frame s s' (tlocs (tr v6)) (RootSlot v6) r ->
  repr (nodes s') (fam_len v6) (RootSlot v6) r t -> NoDup (tlocs t) -> twf (8 * fam_len v6) [] t ->
  (forall l, l ∈ tlocs t -> l ∈ tlocs (tr v6) \/ next_loc s <= l) -> bounded s' ->
  (forall p, NoDup (entries_of s' p)) ->
  (forall p l, l ∈ entries_of s' p <->
    exists v q, tloc (set_tree tr v6 t v) q = Some l /\ tget (set_tree tr v6 t v) q = Some p) ->
  table_ok s' (set_tree tr v6 t).
Proof.
  intros Hok [F4 F6 Fx Fn] Hr Hnd Hwf Hlocs Hb Hl1 Hl2. pose proof Hok as [].
  assert (Hold : forall v l, l ∈ tlocs (tr v) -> l < next_loc s).
  { intros v l Hl. destruct (table_at s tr v Hok) as [_ _ Ho _ _]. by eapply Forall_forall in Ho. }
  constructor; [..|done|done|done].
  - intros v. unfold set_tree. case_decide as Hv.
    + subst v. replace (root s' v6) with r; [done|]. destruct v6; cbn in *; congruence.
    + replace (root s' v) with (root s v) by (destruct v, v6; cbn in *; congruence).
      eapply repr_frame; [apply tk_repr0|]. intros l Hl. rewrite Fx; [apply option_fmap_id| |by eapply Hold].
      intros Hl'. destruct v, v6; try done; by apply (tk_disj0 l).
  - intros v. unfold set_tree. case_decide; [done|apply tk_nodup0].
  - intros v. unfold set_tree. case_decide; [by subst|apply tk_wf0].
  - assert (Hd : forall l, l ∈ tlocs t -> l ∈ tlocs (tr (negb v6)) -> False).
    { intros l Hl Hl'. destruct (Hlocs l Hl) as [H|H].
      - destruct v6; by apply (tk_disj0 l).
      - apply Hold in Hl'. lia. }
    intros l. unfold set_tree. destruct v6; cbn; intros ? ?; by apply (Hd l).
Qed.

(** Peer lists after an addition. *)
Lemma entries_add s ent p l p' :
  trieEntries s = add_entry ent p l ->
  entries_of s p' = default [] (ent !! p') ++ (if decide (p = p') then [l] else []).
Proof.
  intros H. unfold entries_of. rewrite H. unfold add_entry. case_decide as Hp.
  - subst. by rewrite lookup_insert_eq.
  - rewrite lookup_insert_ne by done. by rewrite app_nil_r.
Qed.

Lemma entries_del ent o l p :
  default [] (del_entry ent o l !! p) =
    if decide (o = p) then filter (fun x => x <> l) (default [] (ent !! p)) else default [] (ent !! p).
Proof.
  unfold del_entry. case_decide as Hp; [subst; by rewrite lookup_insert_eq|by rewrite lookup_insert_ne].
Qed.

(** Without cell [lq], the lists hold what they held of the other cells. *)
Lemma unlisted s tr v q lq :
  table_ok s tr -> tloc (tr v) q = Some lq ->
  let ent := match tget (tr v) q with Some o => del_entry (trieEntries s) o lq | None => trieEntries s end in
  forall p, NoDup (default [] (ent !! p)) /\
    forall l, l ∈ default [] (ent !! p) <-> l ∈ entries_of s p /\ l <> lq.
Proof.
  intros Hok Hlq ent p. pose proof Hok as [].
  assert (Hwho : forall p, lq ∈ entries_of s p -> tget (tr v) q = Some p).
  { intros p' (v' & q' & H1 & H2)%tk_listed0. by destruct (loc_unique _ _ _ _ _ _ _ Hok Hlq H1) as [<- <-]. }
  subst ent. destruct (tget (tr v) q) as [o|] eqn:E.
  - rewrite entries_del. fold (entries_of s p). case_decide as Hp.
    + split; [by apply NoDup_filter|]. intros l. rewrite list_elem_of_filter. tauto.
    + split; [done|]. intros l. split; [|tauto]. intros H. split; [done|]. intros ->.
      apply Hwho in H. congruence.
  - fold (entries_of s p). split; [done|]. intros l. split; [|tauto]. intros H. split; [done|]. intros ->.
    apply Hwho in H. congruence.
Qed.

(** The cell an insertion writes to belongs to no other prefix. *)
Lemma insert_cell s tr v6 q v q' :
  table_ok s tr -> tloc (tr v) q' = Some (default (next_loc s) (tloc (tr v6) q)) -> v = v6 /\ q' = q.
Proof.
  intros Hok H. destruct (tloc (tr v6) q) as [l|] eqn:E; cbn in H; [by eapply loc_unique|].
  apply tloc_in in H. destruct (table_at s tr v Hok) as [_ _ Ho _ _].
  eapply Forall_forall in Ho; [|exact H]. cbn in Ho. lia.
Qed.

Lemma insert_lists s s' tr v6 q p l2 :
  table_ok s tr -> trieEntries s' = ins_entries s (tr v6) q p ->
  let tr' := set_tree tr v6 (tinsert (tr v6) q p (next_loc s) l2) in
  (forall p', NoDup (entries_of s' p')) /\
  (forall p' l, l ∈ entries_of s' p' <->
    exists v q', tloc (tr' v) q' = Some l /\ tget (tr' v) q' = Some p').
Proof.
  intros Hok Hent tr'. pose proof Hok as [].
  pose proof (fun v q' => insert_cell s tr v6 q v q' Hok) as Hcell.
  set (lq := default (next_loc s) (tloc (tr v6) q)) in *.
  assert (Hent' : exists ent, trieEntries s' = add_entry ent p lq /\ forall p', NoDup (default [] (ent !! p')) /\
    forall l, l ∈ default [] (ent !! p') <-> l ∈ entries_of s p' /\ l <> lq).
  { unfold ins_entries in Hent. destruct (tloc (tr v6) q) as [l|] eqn:E.
    - eexists. split; [exact Hent|]. by apply (unlisted s tr v6 q l).
    - eexists. split; [exact Hent|]. intros p'. fold (entries_of s p'). split; [done|]. intros l.
      split; [|tauto]. intros H. split; [done|]. intros ->. apply tk_listed0 in H as (v & q' & H & _).
      destruct (Hcell _ _ H) as [-> ->]. congruence. }
  destruct Hent' as (ent & He & Hl). split.
  - intros p'. rewrite (entries_add _ _ _ _ p' He). destruct (Hl p') as [Hnd Hin]. case_decide; [|by rewrite app_nil_r].
    apply NoDup_app. split_and!; [done| |apply NoDup_singleton].
    intros x [_ Hx]%Hin. by intros ->%list_elem_of_singleton.
  - intros p' l. rewrite (entries_add _ _ _ _ p' He), elem_of_app. destruct (Hl p') as [_ ->].
    rewrite tk_listed0. subst tr'. unfold set_tree. split.
    + intros [((v & q' & H1 & H2) & Hne)|Hin].
      * exists v, q'. case_decide as Hv; [|done]. subst v. split; [by eapply tloc_tinsert_keep|].
        erewrite tget_tinsert by done. rewrite decide_False; [done|]. intros <-. apply Hne. subst lq. by rewrite H1.
      * exists v6, q. rewrite decide_True by done. case_decide; [|set_solver]. apply list_elem_of_singleton in Hin as ->.
        erewrite tloc_tinsert_eq, tget_tinsert, decide_True by done. by subst.
    + intros (v & q' & H1 & H2). case_decide as Hv; cycle 1.
      { left. split; [eauto|]. intros ->. by destruct (Hcell _ _ H1). }
      subst v. erewrite tget_tinsert in H2 by done. case_decide as Hq.
      * right. injection H2 as ->. rewrite decide_True by done. subst q'. erewrite tloc_tinsert_eq in H1 by done.
        injection H1 as <-. by apply list_elem_of_singleton.
      * left. destruct (tloc_tget (tr v6) q') as [l' Hl']; [congruence|].
        erewrite tloc_tinsert_keep in H1 by done. injection H1 as ->. split; [eauto|].
        intros ->. by destruct (Hcell _ _ Hl').
Qed.

(** [insert] at a root. *)
Lemma table_insert s tr v6 ip c p :
  table_ok s tr -> length ip = fam_len v6 -> is_bytes ip -> (0 <= c <= 8 * Z.of_nat (fam_len v6))%Z ->
  let q := take (Z.to_nat c) (bits_of ip) in
  exists s', insert s (par_of (RootSlot v6)) ip c p = Some s' /\
    table_ok s' (set_tree tr v6 (tinsert (tr v6) q p (next_loc s) (S (next_loc s)))).
Proof.
  intros Hok Hlen Hip Hc q. pose proof (table_at s tr v6 Hok) as Hta. pose proof Hok as [].
  destruct (insert_spec (fam_len v6) ltac:(destruct v6; [by right|by left]) ip c q Hlen Hip Hc eq_refl
    s v6 (root s v6) (tr v6) p Hta (tk_wf0 v6)) as (s' & r' & Hrun & Hrep & Hfr & Hent).
  exists s'. split; [done|].
  destruct (insert_lists s s' tr v6 q p (S (next_loc s)) Hok Hent) as [Hl1 Hl2].
  destruct (tlocs_tinsert (tr v6) q p (next_loc s) (S (next_loc s))) as (new & Hnew & _ & Hperm).
  assert (Hold : forall l, l ∈ tlocs (tr v6) -> l < next_loc s)
    by (destruct Hta as [_ _ Ho _ _]; intros; by eapply Forall_forall in Ho).
  assert (Hfresh : forall l, l ∈ new -> next_loc s <= l) by (intros l Hl; naive_solver set_solver by lia).
  eapply table_frame; try done.
  - rewrite Hperm. apply NoDup_app. split_and!; [|intros l ? ?%Hold; apply Hfresh in H; lia|done].
    destruct Hnew as [->|[->| ->]]; [constructor|apply NoDup_singleton|].
    apply NoDup_cons. split; [set_solver by lia|apply NoDup_singleton].
  - apply twf_tinsert; [done|apply prefix_nil|]. subst q. rewrite length_take, length_bits_of. lia.
  - intros l. rewrite Hperm, elem_of_app. naive_solver.
  - by eapply bounded_insert.
Qed.

(** The cell of a prefix. *)
Lemma repr_tloc h n sl r t q l :
  repr h n sl r t -> tloc t q = Some l ->
  exists e sl', h !! l = Some e /\ entry_ok n e sl' q (tget t q).
Proof.
  revert sl r. induction t as [|l' p v t0 IH0 t1 IH1]; intros sl r; [done|].
  intros (-> & e & He & Hok & H0 & H1). destruct (pcase_spec p q) as [<-|b H|H].
  - rewrite tloc_at, tget_at. intros [= <-]. eauto.
  - rewrite (tloc_below _ _ _ _ _ _ _ H), (tget_below _ _ _ _ _ _ _ H). destruct b; eauto.
  - by rewrite tloc_out.
Qed.

(** [remove] of a listed cell. *)
Lemma table_remove s tr v6 q l o :
  table_ok s tr -> tloc (tr v6) q = Some l -> tget (tr v6) q = Some o ->
  exists s', remove s l = Some s' /\ table_ok s' (set_tree tr v6 (tremove l (tr v6))).
Proof.
  intros Hok Hl Ho. pose proof Hok as []. pose proof (table_at s tr v6 Hok) as Hta.
  destruct (repr_tloc _ _ _ _ _ _ _ (tk_repr0 v6) Hl) as (e & sl & He & Heok).
  destruct (remove_spec s (fam_len v6) (RootSlot v6) (root s v6) (tr v6) [] l e o)
    as (s' & r' & Hrun & Hrep & Hfr & Hent); try done.
  { by eapply tloc_in. }
  { by rewrite (ok_peer _ _ _ _ _ Heok). }
  exists s'. split; [done|].
  pose proof (unlisted s tr v6 q l Hok Hl) as Hun. rewrite Ho in Hun. cbn zeta in Hun. rewrite <- Hent in Hun.
  eapply table_frame; try done.
  - eapply sublist_NoDup; [apply tk_nodup0|apply tlocs_tremove].
  - by apply twf_tremove.
  - intros x Hx. left. eapply sublist_subseteq; [apply tlocs_tremove|done].
  - by eapply bounded_remove.
  - intros p. apply Hun.
  - intros p x. unfold entries_of. destruct (Hun p) as [_ ->]. rewrite tk_listed0. unfold set_tree. split.
    + intros [(v & q' & H1 & H2) Hne]. exists v, q'. case_decide as Hv; [|done]. subst v.
      split; [eapply tloc_tremove; try done; congruence|].
      erewrite tget_tremove by done. by rewrite decide_False by congruence.
    + intros (v & q' & H1 & H2). case_decide as Hv; cycle 1.
      { split; [eauto|]. intros ->. by destruct (loc_unique _ _ _ _ _ _ _ Hok H1 Hl). }
      subst v. erewrite tget_tremove in H2 by done. case_decide as Hd; [done|].
      destruct (tloc_tget (tr v6) q') as [x' Hx']; [congruence|].
      assert (x' <> l) by congruence.
      erewrite tloc_tremove in H1 by (done || congruence). injection H1 as ->. eauto.
Qed.

(** ** The exported operations *)

Lemma empty_holds : holds empty_table no_prefixes.
Proof.
  exists (fun _ => Leaf). split; [|intros; apply lookup_empty].
  constructor; try done.
  - by intros [].
  - intros _. constructor.
  - cbn. set_solver.
  - intros p. unfold entries_of. cbn. rewrite lookup_empty. constructor.
  - intros p l. unfold entries_of. cbn. rewrite lookup_empty. cbn. set_solver.
Qed.

Lemma valid_prefix_facts pfx :
  valid_prefix pfx ->
  length (Addr pfx) = fam_len (prefix_family pfx) /\ is_bytes (Addr pfx) /\
  (0 <= Bits pfx <= 8 * Z.of_nat (fam_len (prefix_family pfx)))%Z /\ u8 (Bits pfx) = Bits pfx.
Proof.
  intros (Hl & Hb & Hc). unfold zlen in Hc. unfold prefix_family, Is6.
  assert (u8 (Bits pfx) = Bits pfx).
  { apply u8_small. unfold_words. destruct Hl as [Hl|Hl]; rewrite Hl in Hc; unfold IPv4len, IPv6len in Hc; lia. }
  destruct Hl as [Hl|Hl]; rewrite Hl in *;
    [rewrite bool_decide_false by done|rewrite bool_decide_true by done]; (split_and!; try done; cbn [fam_len]; lia).
Qed.

Lemma Insert_eq s pfx p :
  valid_prefix pfx -> Insert s pfx p = insert s (par_of (RootSlot (prefix_family pfx))) (Addr pfx) (Bits pfx) p.
Proof.
  intros Hv. destruct (valid_prefix_facts pfx Hv) as (Hl & _ & _ & Hu). unfold Insert. rewrite Hu.
  unfold prefix_family in *. destruct (Is6 (Addr pfx)); [done|]. unfold Is4.
  by rewrite bool_decide_true.
Qed.

Lemma Insert_holds s m pfx p :
  holds s m -> valid_prefix pfx ->
  exists s', Insert s pfx p = Some s' /\ holds s' (spec_call m (CInsert pfx p)).
Proof.
  intros (tr & Hok & Hm) Hv. destruct (valid_prefix_facts pfx Hv) as (Hl & Hb & Hc & _).
  rewrite Insert_eq by done.
  destruct (table_insert s tr _ (Addr pfx) (Bits pfx) p Hok Hl Hb Hc) as (s' & Hrun & Hok').
  exists s'. split; [done|]. eexists. split; [done|]. intros v q. unfold spec_call, update, set_tree.
  case_decide as Hd; [|done]. subst v. erewrite tget_tinsert by apply (tk_wf _ _ Hok).
  fold (prefix_key pfx). case_decide as Hq; [subst; by rewrite lookup_insert_eq|].
  by rewrite lookup_insert_ne, Hm.
Qed.

Lemma Remove_placement s tr pfx :
  table_ok s tr -> valid_prefix pfx ->
  (if Is6 (Addr pfx) then
     nodePlacement s path_fuel (IPv6 s) None (Addr pfx) (u8 (Bits pfx))
   else if Is4 (Addr pfx) then
     nodePlacement s path_fuel (IPv4 s) None (Addr pfx) (u8 (Bits pfx))
   else None) = Some (tplace (tr (prefix_family pfx)) (prefix_key pfx)).
Proof.
  intros Hok Hv. destruct (valid_prefix_facts pfx Hv) as (Hl & Hb & Hc & Hu). rewrite Hu.
  transitivity (nodePlacement s path_fuel (root s (prefix_family pfx)) None (Addr pfx) (Bits pfx)).
  { unfold prefix_family in *. destruct (Is6 (Addr pfx)); [done|]. unfold Is4. by rewrite bool_decide_true. }
  pose proof (tk_wf _ _ Hok (prefix_family pfx)) as Hwf.
  assert (Hn : addr_len (fam_len (prefix_family pfx))) by (destruct (prefix_family pfx); [by right|by left]).
  rewrite (nodePlacement_spec _ Hn _ _ _ Hl Hb Hc eq_refl s path_fuel _ _ _ _ None
    (tk_repr _ _ Hok _) Hwf (fuel_enough _ Hn _ Hwf)).
  fold (prefix_key pfx). by destruct (tplace _ _) as [[?|] ?].
Qed.

Lemma Remove_holds s m pfx p :
  holds s m -> valid_prefix pfx ->
  exists s', Remove s pfx p = Some s' /\ holds s' (spec_call m (CRemove pfx p)).
Proof.
  intros (tr & Hok & Hm) Hv. unfold Remove. rewrite (Remove_placement s tr pfx Hok Hv).
  cbn [mbind option_bind spec_call]. set (v6 := prefix_family pfx). set (q := prefix_key pfx).
  assert (Hsame : m v6 !! q <> Some p -> exists s', Some s = Some s' /\
    holds s' (if decide (m v6 !! q = Some p) then update m v6 (delete q) else m)).
  { intros H. exists s. split; [done|]. rewrite decide_False by done. by exists tr. }
  destruct (tplace (tr v6) q) as [[l|] []] eqn:E; cycle 1.
  { apply Hsame. rewrite Hm. intros H. destruct (tloc_tget (tr v6) q) as [l' Hl']; [congruence|].
    apply tplace_exact in Hl'. congruence. }
  { by destruct (tplace_None (tr v6) q). }
  { apply Hsame. rewrite Hm. intros H. destruct (tloc_tget (tr v6) q) as [l' Hl']; [congruence|].
    apply tplace_exact in Hl'. congruence. }
  apply tplace_exact in E. destruct (repr_tloc _ _ _ _ _ _ _ (tk_repr _ _ Hok v6) E) as (e & sl & He & Heok).
  rewrite He. cbn [mbind option_bind]. rewrite (ok_peer _ _ _ _ _ Heok), <- Hm.
  case_bool_decide as Hp; [|by apply Hsame]. rewrite decide_True by done. rewrite Hm in Hp.
  clear Hsame. destruct (table_remove s tr v6 q l p Hok E Hp) as (s' & Hrun & Hok'). exists s'. split; [done|].
  eexists. split; [done|]. intros v q'. unfold update, set_tree. case_decide as Hd; [|apply Hm]. subst v.
  erewrite tget_tremove by apply Hok. case_decide as Hq.
  - assert (q' = q) as -> by (by eapply tloc_inj; [apply Hok|..]). by rewrite lookup_delete_eq.
  - rewrite lookup_delete_ne by congruence. done.
Qed.

(** The effect of removing a list of cells. *)
Definition dropped (tr : bool -> tree PeerPtr) (ls : list loc) (v : bool) (q : list bool) : bool :=
  match tloc (tr v) q with Some l => bool_decide (l ∈ ls) | None => false end.

Lemma table_remove_all s tr p ls :
  table_ok s tr -> NoDup ls ->
  (forall l, l ∈ ls -> exists v q, tloc (tr v) q = Some l /\ tget (tr v) q = Some p) ->
  exists s' tr', foldl (fun s l => s ← s; remove s l) (Some s) ls = Some s' /\ table_ok s' tr' /\
    forall v q, tget (tr' v) q = if dropped tr ls v q then None else tget (tr v) q.
Proof.
  revert s tr. induction ls as [|l ls IH]; intros s tr Hok Hnd Hls.
  { exists s, tr. split; [done|]. split; [done|]. intros v q. unfold dropped.
    destruct (tloc (tr v) q) as [x|]; [|done]. rewrite bool_decide_false; [done|]. set_solver. }
  apply NoDup_cons in Hnd as [Hl Hnd].
  destruct (Hls l) as (v0 & q0 & Hl0 & Hp0); [set_solver|].
  destruct (table_remove s tr v0 q0 l p Hok Hl0 Hp0) as (s1 & Hrun & Hok1).
  set (tr1 := set_tree tr v0 (tremove l (tr v0))) in *.
  assert (Hget : forall v q, tget (tr1 v) q = if decide (tloc (tr v) q = Some l) then None else tget (tr v) q).
  { intros v q. subst tr1. unfold set_tree. destruct (decide (v = v0)) as [->|Hv].
    - by erewrite tget_tremove by apply Hok.
    - rewrite decide_False; [done|]. intros H. by destruct (loc_unique _ _ _ _ _ _ _ Hok H Hl0). }
  assert (Hloc : forall v q l2, tget (tr v) q <> None -> tloc (tr v) q = Some l2 -> l2 <> l -> tloc (tr1 v) q = Some l2).
  { intros v q l2 ? ? ?. subst tr1. unfold set_tree. destruct (decide (v = v0)) as [->|Hv]; [|done].
    by eapply tloc_tremove; [apply Hok..|done|done|done]. }
  destruct (IH s1 tr1 Hok1 Hnd) as (s' & tr' & Hrun' & Hok' & Hget').
  { intros l2 Hl2. destruct (Hls l2) as (v & q & H1 & H2); [set_solver|]. exists v, q.
    assert (l2 <> l) by congruence. split; [apply Hloc; congruence|]. rewrite Hget. by rewrite decide_False by congruence. }
  exists s', tr'. split; [cbn; by rewrite Hrun|]. split; [done|]. intros v q. rewrite Hget', Hget. unfold dropped.
  destruct (tget (tr v) q) as [x|] eqn:Ex; cycle 1.
  { repeat case_match; done. }
  destruct (tloc_tget (tr v) q) as [l2 Hl2]; [congruence|]. rewrite Hl2.
  destruct (decide (l2 = l)) as [->|Hne].
  - rewrite decide_True by done. rewrite (bool_decide_true (l ∈ l :: ls)) by set_solver. by repeat case_match.
  - rewrite decide_False by congruence. rewrite (Hloc v q l2) by congruence.
    rewrite (bool_decide_ext (l2 ∈ ls) (l2 ∈ l :: ls)) by set_solver. done.
Qed.

Lemma RemoveByPeer_holds s m p :
  holds s m -> exists s', RemoveByPeer s p = Some s' /\ holds s' (spec_call m (CRemoveByPeer p)).
Proof.
  intros (tr & Hok & Hm).
  destruct (table_remove_all s tr p (entries_of s p) Hok) as (s' & tr' & Hrun & Hok' & Hget).
  { apply Hok. }
  { intros l Hl. by apply Hok. }
  exists s'. split; [done|]. exists tr'. split; [done|]. intros v q. rewrite Hget. cbn.
  rewrite map_lookup_filter, Hm. unfold dropped.
  destruct (tget (tr v) q) as [x|] eqn:Ex; [|by repeat case_match]. cbn.
  destruct (tloc_tget (tr v) q) as [l Hl]; [congruence|]. rewrite Hl. unfold guard.
  destruct (decide (x = p)) as [->|Hne].
  - rewrite bool_decide_true by (apply Hok; eauto). by destruct (decide (p <> p)).
  - rewrite bool_decide_false; [by destruct (decide (x <> p))|].
    intros (v' & q' & H1 & H2)%(tk_listed _ _ Hok).
    destruct (loc_unique _ _ _ _ _ _ _ Hok Hl H1) as [<- <-]. congruence.
Qed.

Lemma Lookup_holds s m ip :
  holds s m -> addr_len (length ip) -> is_bytes ip ->
  Lookup s ip = Some (lpm (m (Is6 ip)) (bits_of ip)).
Proof.
  intros (tr & Hok & Hm) Hn Hip. unfold Lookup, Is6.
  assert (Hgo : forall v6, length ip = fam_len v6 ->
    trie_lookup s (root s v6) ip = Some (lpm (m v6) (bits_of ip))).
  { intros v6 Hl. pose proof (tk_wf _ _ Hok v6) as Hwf.
    assert (Ha : addr_len (fam_len v6)) by (destruct v6; [by right|by left]). unfold trie_lookup.
    rewrite (lookup_loop_spec _ ip s path_fuel _ _ _ _ None Ha Hl Hip (tk_repr _ _ Hok v6) Hwf (fuel_enough _ Ha _ Hwf)).
    rewrite (tlookup_lpm _ _ _ (m v6) _ Hwf (Hm v6)). by destruct (lpm _ _). }
  destruct Hn as [Hl|Hl]; rewrite Hl.
  - rewrite decide_False, decide_True, bool_decide_false by done. by apply (Hgo false).
  - rewrite decide_True, bool_decide_true by done. by apply (Hgo true).
Qed.

(** ** [EntriesForPeer] *)

(** A prefix whose host bits are zero, as the table stores it. *)
Definition canonical_prefix (pfx : Prefix) : Prop :=
  valid_prefix pfx /\ mask_bits (Addr pfx) (Bits pfx) = Addr pfx.

(** The walk hands out elements until the callback says no. *)
Fixpoint upto (cb : Prefix -> bool) (l : list Prefix) : list Prefix :=
  match l with
  | [] => []
  | x :: l => if cb x then x :: upto cb l else [x]
  end.

Lemma entries_loop_upto s ls pl cb :
  Forall2 (fun l pfx => exists e, nodes s !! l = Some e /\ pfx = mkPrefix (bits e) (cidr e)) ls pl ->
  entries_loop s ls cb = Some (upto cb pl).
Proof.
  induction 1 as [|l pfx ls pl (e & He & ->) _ IH]; [done|]. cbn [entries_loop upto]. rewrite He.
  cbn [mbind option_bind]. destruct (cb _); [|done]. by rewrite IH.
Qed.

Lemma bits_of_inj a b :
  is_bytes a -> is_bytes b -> length a = length b -> bits_of a = bits_of b -> a = b.
Proof.
  intros Ha Hb Hl Heq. apply be_uint_inj; try done.
  pose proof (take_bits_div a b (8 * length a) Ha Hb Hl ltac:(lia)) as H.
  unfold zlen in H. replace (8 * Z.of_nat (length a) - Z.of_nat (8 * length a))%Z with 0%Z in H by lia.
  rewrite Z.pow_0_r, !Z.div_1_r in H. apply H. by rewrite Heq.
Qed.

(** The prefix an entry stands for. *)
Lemma entry_prefix v6 e sl q v :
  entry_ok (fam_len v6) e sl q v -> length q <= 8 * fam_len v6 ->
  let pfx := mkPrefix (bits e) (cidr e) in
  canonical_prefix pfx /\ prefix_family pfx = v6 /\ prefix_key pfx = q.
Proof.
  intros Hok Hq pfx. pose proof (ok_len _ _ _ _ _ Hok) as Hlen.
  pose proof (ok_cidr _ _ _ _ _ Hok) as Hcidr. pose proof (ok_bits _ _ _ _ _ Hok) as Hbits.
  pose proof (ok_bytes _ _ _ _ _ Hok) as Hbytes. unfold canonical_prefix, valid_prefix, prefix_family, prefix_key, Is6. cbn.
  rewrite Hlen, Hcidr, Nat2Z.id, Hbits, take_app_length. unfold zlen. rewrite Hlen.
  assert (Hm : mask_bits (bits e) (Z.of_nat (length q)) = bits e).
  { assert (Hc : (0 <= Z.of_nat (length q) <= 8 * zlen (bits e))%Z) by (unfold zlen; lia).
    apply bits_of_inj; [by apply is_bytes_mask_bits|done|by apply length_mask_bits|].
    by rewrite mask_bits_spec, Nat2Z.id, Hlen, Hbits, take_app_length by done. }
  split_and!; try done; [by destruct v6; [right|left]|lia|lia|by destruct v6].
Qed.

Lemma twf_tloc_len n pre (t : tree PeerPtr) q l : twf n pre t -> tloc t q = Some l -> length q <= n.
Proof.
  revert pre. induction t as [|l' p v t0 IH0 t1 IH1]; intros pre Hwf; [done|].
  pose proof Hwf as (_ & Hlp & W0 & W1 & _). destruct (pcase_spec p q) as [<-|b H|H]; [done| |by rewrite tloc_out].
  rewrite (tloc_below _ _ _ _ _ _ _ H). destruct b; [by eapply IH1|by eapply IH0].
Qed.

Lemma listed_entry s tr v q l :
  table_ok s tr -> tloc (tr v) q = Some l ->
  exists e, nodes s !! l = Some e /\ canonical_prefix (mkPrefix (bits e) (cidr e)) /\
    prefix_family (mkPrefix (bits e) (cidr e)) = v /\ prefix_key (mkPrefix (bits e) (cidr e)) = q.
Proof.
  intros Hok Hl. destruct (repr_tloc _ _ _ _ _ _ _ (tk_repr _ _ Hok v) Hl) as (e & sl & He & Heok).
  exists e. split; [done|]. eapply entry_prefix; [done|]. eapply twf_tloc_len; [apply Hok|done].
Qed.

Lemma canonical_inj p1 p2 :
  canonical_prefix p1 -> canonical_prefix p2 -> prefix_family p1 = prefix_family p2 ->
  prefix_key p1 = prefix_key p2 -> p1 = p2.
Proof.
  intros [V1 M1] [V2 M2] Hf Hk. destruct p1 as [a1 c1], p2 as [a2 c2].
  destruct (valid_prefix_facts _ V1) as (L1 & B1 & C1 & _), (valid_prefix_facts _ V2) as (L2 & B2 & C2 & _).
  rewrite Hf in *. unfold prefix_key in Hk. cbn in *.
  assert (c1 = c2) as ->.
  { apply (f_equal length) in Hk. rewrite !length_take, !length_bits_of in Hk. lia. }
  f_equal. rewrite <- M1, <- M2. apply bits_of_inj.
  - apply is_bytes_mask_bits; [unfold zlen; lia|done].
  - apply is_bytes_mask_bits; [unfold zlen; lia|done].
  - rewrite !length_mask_bits by (unfold zlen; lia). congruence.
  - rewrite !mask_bits_spec by (unfold zlen; lia). by rewrite Hk, L1, L2.
Qed.

Lemma EntriesForPeer_holds s m p :
  holds s m ->
  exists pl, NoDup pl /\ (forall cb, EntriesForPeer s p cb = Some (upto cb pl)) /\
    forall pfx, pfx ∈ pl <-> canonical_prefix pfx /\ m (prefix_family pfx) !! prefix_key pfx = Some p.
Proof.
  intros (tr & Hok & Hm).
  assert (Hpl : exists pl, Forall2 (fun l pfx => exists e, nodes s !! l = Some e /\ pfx = mkPrefix (bits e) (cidr e) /\
      canonical_prefix pfx /\ tloc (tr (prefix_family pfx)) (prefix_key pfx) = Some l /\
      tget (tr (prefix_family pfx)) (prefix_key pfx) = Some p) (entries_of s p) pl).
  { assert (Hall : forall l, l ∈ entries_of s p -> exists v q, tloc (tr v) q = Some l /\ tget (tr v) q = Some p)
      by (intros l; apply Hok).
    revert Hall. generalize (entries_of s p). induction l as [|l ls IH]; intros Hall; [by exists []|].
    destruct IH as [pl Hpl]; [intros; apply Hall; set_solver|].
    destruct (Hall l) as (v & q & H1 & H2); [set_solver|].
    destruct (listed_entry s tr v q l Hok H1) as (e & He & Hc & <- & <-). eexists (_ :: pl). eauto 10. }
  destruct Hpl as [pl Hpl]. exists pl. split_and!.
  - pose proof (tk_lists _ _ Hok p) as Hnd. induction Hpl as [|l pfx ls pl' (e & _ & _ & _ & H1 & _) Hrest IH]; [constructor|].
    apply NoDup_cons in Hnd as [Hl Hnd]. apply NoDup_cons. split; [|by apply IH]. intros Hin. apply Hl.
    apply list_elem_of_lookup in Hin as [i Hi]. destruct (Forall2_lookup_r _ _ _ _ _ Hrest Hi) as (l' & Hl' & e' & _ & _ & _ & H1' & _).
    rewrite H1 in H1'. injection H1' as ->. by eapply list_elem_of_lookup_2.
  - intros cb. apply entries_loop_upto. eapply Forall2_impl; [exact Hpl|]. naive_solver.
  - intros pfx. split.
    + intros [i Hi]%list_elem_of_lookup. destruct (Forall2_lookup_r _ _ _ _ _ Hpl Hi) as (l & _ & e & _ & _ & Hc & _ & H2).
      split; [done|]. by rewrite Hm.
    + intros [Hc Hp]. rewrite Hm in Hp. destruct (tloc_tget (tr (prefix_family pfx)) (prefix_key pfx)) as [l Hl]; [congruence|].
      assert (Hin : l ∈ entries_of s p) by (apply Hok; eauto).
      apply list_elem_of_lookup in Hin as [i Hi]. destruct (Forall2_lookup_l _ _ _ _ _ Hpl Hi) as (pfx' & Hi' & e & _ & _ & Hc' & Hl' & _).
      destruct (loc_unique _ _ _ _ _ _ _ Hok Hl Hl') as [Hf Hk].
      rewrite (canonical_inj pfx pfx') by done. by eapply list_elem_of_lookup_2.
Qed.

(** ** Sequences of calls *)

Lemma exec_call_holds s m c :
  holds s m -> valid_call c -> exists s', exec_call s c = Some s' /\ holds s' (spec_call m c).
Proof.
  destruct c as [pfx p|pfx p|p]; intros Hm Hv;
    [by apply Insert_holds|by apply Remove_holds|by apply RemoveByPeer_holds].
Qed.

Lemma exec_calls_holds cs :
  Forall valid_call cs -> exists s, exec_calls empty_table cs = Some s /\ holds s (spec_calls cs).
Proof.
  induction cs as [|c cs IH] using rev_ind; intros Hv.
  { exists empty_table. split; [done|]. apply empty_holds. }
  apply Forall_app in Hv as [Hv Hc]. apply Forall_cons in Hc as [Hc _]. destruct (IH Hv) as (s & Hs & Hm).
  destruct (exec_call_holds s _ c Hm Hc) as (s' & Hs' & Hm'). exists s'.
  unfold exec_calls, spec_calls in *. rewrite !foldl_app. cbn [foldl]. by rewrite Hs.
Qed.

(** C7: after any sequence of [Insert], [Remove] and [RemoveByPeer] calls on
    valid prefixes no call has panicked or run out of fuel, and [Lookup]
    returns the peer of the longest prefix of the address in the map those
    calls specify, for both families. *)
Theorem allowedips_longest_prefix cs :
  Forall valid_call cs ->
  exists s, exec_calls empty_table cs = Some s /\
    forall ip, addr_len (length ip) -> is_bytes ip ->
      Lookup s ip = Some (lpm (spec_calls cs (Is6 ip)) (bits_of ip)).
Proof.
  intros Hv. destruct (exec_calls_holds cs Hv) as (s & Hs & Hm). exists s. split; [done|].
  intros ip Hl Hip. by apply Lookup_holds.
Qed.

(** After any sequence of calls on valid prefixes, [EntriesForPeer]
    visits exactly the prefixes the map assigns to the peer, each once, with
    host bits zero, and stops after the first one the callback refuses. *)
Theorem allowedips_entries cs p :
  Forall valid_call cs ->
  exists s pl, exec_calls empty_table cs = Some s /\ NoDup pl /\
    (forall cb, EntriesForPeer s p cb = Some (upto cb pl)) /\
    forall pfx, pfx ∈ pl <->
      canonical_prefix pfx /\ spec_calls cs (prefix_family pfx) !! prefix_key pfx = Some p.
Proof.
  intros Hv. destruct (exec_calls_holds cs Hv) as (s & Hs & Hm).
  destruct (EntriesForPeer_holds s _ p Hm) as (pl & ? & ? & ?). eauto 10.
Qed.

(** ** Concrete runs *)

(** Two nested IPv4 prefixes, a replaced owner, an IPv6 prefix, a removal. *)
Definition demo_calls : list call :=
  [CInsert (mkPrefix [10; 0; 0; 0]%Z 8) 1; CInsert (mkPrefix [10; 1; 0; 0]%Z 16) 2;
   CInsert (mkPrefix [10; 1; 2; 0]%Z 24) 1; CInsert (mkPrefix [10; 1; 2; 3]%Z 24) 3;
   CInsert (mkPrefix (32 :: 1 :: zeros 14)%Z 16) 4; CRemove (mkPrefix [10; 1; 0; 0]%Z 16) 2].

Lemma demo_calls_valid : Forall valid_call demo_calls.
Proof. decide_closed. Qed.

Lemma allowedips_longest_prefix_witness :
  exists s, exec_calls empty_table demo_calls = Some s /\
    Lookup s [10; 1; 9; 9]%Z = Some (Some 1) /\ Lookup s [10; 1; 2; 9]%Z = Some (Some 3).
Proof.
  destruct (allowedips_longest_prefix demo_calls demo_calls_valid) as (s & Hs & Hl).
  exists s. split; [exact Hs|].
  split; (rewrite Hl; [vm_compute; reflexivity|decide_closed..]).
Defined.

