(* ===== verification/Crypto.v ===== *)
(** * Cryptographic helpers

    Models src/wireguard-go/device/noise-helpers.go over the primitives of
    golang.org/x/crypto, which are not part of the sources: they are the fields
    of the class [Crypto], and what the code relies on of them is the class
    [CryptoLaws]. HMAC is the construction of the standard library over
    BLAKE2s. A toy instance at the end shows that the laws can hold. *)

From stdpp Require Import base numbers list.
From S2P Require Import Prelude.

Open Scope Z_scope.

(** ** Primitives *)

(** [blake2s.New256(nil)], keyed [blake2s.New128], [curve25519.ScalarMult] and
    [ScalarBaseMult], and the two AEADs of [chacha20poly1305]. *)
Class Crypto := {
  blake2s_256 : list Z -> list Z;
  blake2s_128 : list Z -> list Z -> list Z;
  ScalarMult : list Z -> list Z -> list Z;
  ScalarBaseMult : list Z -> list Z;
  Seal : list Z -> list Z -> list Z -> list Z -> list Z;
  Open : list Z -> list Z -> list Z -> list Z -> option (list Z);
  SealX : list Z -> list Z -> list Z -> list Z -> list Z;
  OpenX : list Z -> list Z -> list Z -> list Z -> option (list Z)
}.

Definition blake2s_Size : nat := 32.

Definition blake2s_Size128 : nat := 16.

Definition blake2s_BlockSize : nat := 64.

Definition TagSize : nat := 16.

(** Arguments are key, nonce, text, additional data. *)
Class CryptoLaws `{Crypto} := {
  blake2s_256_len m : length (blake2s_256 m) = blake2s_Size;
  blake2s_256_bytes m : is_bytes (blake2s_256 m);
  blake2s_128_len k m : length (blake2s_128 k m) = blake2s_Size128;
  blake2s_128_bytes k m : is_bytes (blake2s_128 k m);
  ScalarMult_len k p : length (ScalarMult k p) = 32%nat;
  ScalarMult_bytes k p : is_bytes (ScalarMult k p);
  ScalarBaseMult_len k : length (ScalarBaseMult k) = 32%nat;
  ScalarBaseMult_bytes k : is_bytes (ScalarBaseMult k);
  ScalarMult_comm a b :
    ScalarMult a (ScalarBaseMult b) = ScalarMult b (ScalarBaseMult a);
  Seal_len k n m ad : length (Seal k n m ad) = (length m + TagSize)%nat;
  Seal_bytes k n m ad : is_bytes m -> is_bytes (Seal k n m ad);
  Open_Seal k n m ad : Open k n (Seal k n m ad) ad = Some m;
  Open_len k n c ad m : Open k n c ad = Some m -> length c = (length m + TagSize)%nat;
  Open_bytes k n c ad m : Open k n c ad = Some m -> is_bytes c -> is_bytes m;
  SealX_len k n m ad : length (SealX k n m ad) = (length m + TagSize)%nat;
  OpenX_SealX k n m ad : OpenX k n (SealX k n m ad) ad = Some m;
  OpenX_len k n c ad m : OpenX k n c ad = Some m -> length c = (length m + TagSize)%nat
}.

Section helpers.
Context `{Crypto}.

(** ** [crypto/hmac] over BLAKE2s *)

(** Keys longer than a block are hashed, shorter ones padded with zeros. *)
Definition hmac_key (key : list Z) : list Z :=
  copy (zeros blake2s_BlockSize)
    (if zlen key >? Z.of_nat blake2s_BlockSize then blake2s_256 key else key).

Definition hmac_pad (b : Z) (key : list Z) : list Z := map (Z.lxor b) (hmac_key key).

Definition hmac (key data : list Z) : list Z :=
  blake2s_256 (hmac_pad 0x5c key ++ blake2s_256 (hmac_pad 0x36 key ++ data)).

(** ** KDF *)

Definition HMAC1 (key in0 : list Z) : list Z := hmac key in0.

Definition HMAC2 (key in0 in1 : list Z) : list Z := hmac key (in0 ++ in1).

Definition KDF1 (key input : list Z) : list Z :=
  let t0 := HMAC1 key input in
  HMAC1 t0 [0x1].

Definition KDF2 (key input : list Z) : list Z * list Z :=
  let prk := HMAC1 key input in
  let t0 := HMAC1 prk [0x1] in
  let t1 := HMAC2 prk t0 [0x2] in
  (t0, t1).

Definition KDF3 (key input : list Z) : list Z * list Z * list Z :=
  let prk := HMAC1 key input in
  let t0 := HMAC1 prk [0x1] in
  let t1 := HMAC2 prk t0 [0x2] in
  let t2 := HMAC2 prk t1 [0x3] in
  (t0, t1, t2).

(** ** Keys *)

(** [subtle.ConstantTimeByteEq] *)
Definition ConstantTimeByteEq (x y : Z) : Z := if x =? y then 1 else 0.

Definition isZero (val : list Z) : bool :=
  let acc := foldl (fun acc b => Z.land acc (ConstantTimeByteEq b 0)) 1 val in
  acc =? 1.

Definition setZero (arr : list Z) : list Z := map (fun _ => 0) arr.

Definition clamp (sk : list Z) : option (list Z) :=
  b0 ← byte_at sk 0;
  let sk := <[0%nat := Z.land b0 248]> sk in
  b31 ← byte_at sk 31;
  Some (<[31%nat := Z.lor (Z.land b31 127) 64]> sk).

Definition publicKey (sk : list Z) : list Z := ScalarBaseMult sk.

(** The error is [errInvalidPublicKey]; the secret is returned with it. *)
Definition sharedSecret (sk pk : list Z) : list Z * bool :=
  let ss := ScalarMult sk pk in
  if isZero ss then (ss, false) else (ss, true).

End helpers.

(** ** HKDF, the reference *)

(** RFC 5869: extract with the salt as key, expand with an empty info. *)
Section hkdf.
Context `{Crypto}.

Definition hkdf_extract (salt ikm : list Z) : list Z := hmac salt ikm.

(** [hkdf_expand prk n] lists the blocks T(1), ..., T(n). *)
Fixpoint hkdf_expand (prk prev : list Z) (i : Z) (n : nat) : list (list Z) :=
  match n with
  | O => []
  | S n =>
      let t := hmac prk (prev ++ [i]) in
      t :: hkdf_expand prk t (i + 1) n
  end.

Definition hkdf (salt ikm : list Z) (n : nat) : list (list Z) :=
  hkdf_expand (hkdf_extract salt ikm) [] 1 n.

End hkdf.

(** ** Lemmas *)

Section lemmas.
Context `{CryptoLaws}.

Lemma hmac_len k m : length (hmac k m) = blake2s_Size.
Proof. apply blake2s_256_len. Qed.

Lemma hmac_bytes k m : is_bytes (hmac k m).
Proof. apply blake2s_256_bytes. Qed.

Lemma KDF1_len k m : length (KDF1 k m) = blake2s_Size.
Proof. apply hmac_len. Qed.

Lemma setZero_zeros arr : setZero arr = zeros (length arr).
Proof. induction arr as [|x arr IH]; [done|]. cbn. f_equal. exact IH. Qed.

(** The constant-time accumulator is a plain test. *)
Lemma isZero_spec val : isZero val = bool_decide (Forall (fun b => b = 0) val).
Proof.
  unfold isZero.
  assert (Hacc : forall acc, acc = 0 \/ acc = 1 ->
    foldl (fun acc b => Z.land acc (ConstantTimeByteEq b 0)) acc val =
    if bool_decide (Forall (fun b => b = 0) val) then acc else 0).
  { clear. induction val as [|b val IH]; intros acc Ha; cbn [foldl].
    - by rewrite bool_decide_true.
    - unfold ConstantTimeByteEq at 2. destruct (Z.eqb_spec b 0) as [->|Hb].
      + replace (Z.land acc 1) with acc by (destruct Ha as [->| ->]; done).
        rewrite IH by done.
        by rewrite (bool_decide_ext (Forall _ (0 :: val)) (Forall (fun b => b = 0) val)) by (rewrite Forall_cons; naive_solver).
      + rewrite Z.land_0_r, IH by lia. rewrite (bool_decide_false (Forall _ (b :: val)));
          [by case_bool_decide|]. rewrite Forall_cons. naive_solver. }
  rewrite Hacc by lia. by case_bool_decide.
Qed.

End lemmas.

Lemma list_snoc_exists {A} (l : list A) : l <> [] -> exists l' x, l = l' ++ [x].
Proof. intros H. destruct l as [|x l _] using rev_ind; [done|]. eauto. Qed.

(** The three key-derivation functions are HKDF over HMAC-BLAKE2s with an
    empty info string: they return its first one, two and three blocks. *)
Theorem KDF_is_hkdf `{Crypto} key input :
  [KDF1 key input] = hkdf key input 1 /\
  (let '(t0, t1) := KDF2 key input in [t0; t1]) = hkdf key input 2 /\
  (let '(t0, t1, t2) := KDF3 key input in [t0; t1; t2]) = hkdf key input 3.
Proof. repeat split. Qed.

(** A decidable property of bytes, by enumeration. *)
Lemma byte_all (P : Z -> bool) b :
  forallb P (map Z.of_nat (seq 0 256)) = true -> is_u8 b -> P b = true.
Proof.
  intros HP Hb. rewrite forallb_forall in HP. apply HP. apply in_map_iff.
  exists (Z.to_nat b). unfold_words. split; [lia|]. apply in_seq. lia.
Qed.

Lemma clamp_low b :
  is_u8 b -> is_u8 (Z.land b 248) /\ Z.land b 248 mod 8 = 0 /\ Z.land (Z.land b 248) 248 = Z.land b 248.
Proof.
  intros Hb. pose proof (byte_all (fun b => let x := Z.land b 248 in
    (0 <=? x) && (x <? 256) && (x mod 8 =? 0) && (Z.land x 248 =? x)) b eq_refl Hb) as Hx.
  cbv zeta in Hx. rewrite !andb_true_iff in Hx. destruct Hx as [[[? ?] ?] ?]. zbool. unfold_words. lia.
Qed.

Lemma clamp_high b :
  is_u8 b -> let x := Z.lor (Z.land b 127) 64 in
  64 <= x < 128 /\ Z.lor (Z.land x 127) 64 = x.
Proof.
  intros Hb. pose proof (byte_all (fun b => let x := Z.lor (Z.land b 127) 64 in
    (64 <=? x) && (x <? 128) && (Z.lor (Z.land x 127) 64 =? x)) b eq_refl Hb) as Hx.
  cbv zeta in Hx |- *. rewrite !andb_true_iff in Hx. destruct Hx as [[? ?] ?]. zbool. lia.
Qed.

Lemma clamp_split x mid y :
  length mid = 30%nat ->
  clamp (x :: mid ++ [y]) = Some (Z.land x 248 :: mid ++ [Z.lor (Z.land y 127) 64]).
Proof.
  intros Hm. do 30 (destruct mid as [|? mid]; [done|]). by destruct mid.
Qed.

(** Clamping a 32-byte key succeeds, gives 32 bytes, and the scalar it
    spells (little-endian) is a multiple of 8 in [2^254, 2^255); a clamped key
    is a fixed point. *)
Theorem clamp_scalar sk :
  is_bytes sk -> length sk = 32%nat ->
  exists sk', clamp sk = Some sk' /\ is_bytes sk' /\ length sk' = 32%nat /\
    le_uint sk' mod 8 = 0 /\ 2 ^ 254 <= le_uint sk' < 2 ^ 255 /\ clamp sk' = Some sk'.
Proof.
  intros Hb Hl. destruct sk as [|x sk]; [done|]. destruct (list_snoc_exists sk) as (mid & y & ->); [by destruct sk|].
  cbn in Hl. rewrite length_app in Hl. cbn in Hl.
  apply Forall_cons in Hb as [Hx [Hm Hy]%Forall_app]. apply Forall_cons in Hy as [Hy _].
  destruct (clamp_low x Hx) as (Hx1 & Hx2 & Hx3). destruct (clamp_high y Hy) as (Hy1 & Hy2).
  rewrite clamp_split by lia. eexists. split; [done|].
  pose proof (le_uint_bound mid Hm) as Hmid. unfold zlen in Hmid. replace (length mid) with 30%nat in Hmid by lia.
  cbn [le_uint]. rewrite le_uint_app. unfold zlen. replace (length mid) with 30%nat by lia. cbn [le_uint].
  split_and!.
  - apply Forall_cons. split; [done|]. apply Forall_app. split; [done|]. constructor; [|done]. unfold_words. lia.
  - cbn. rewrite length_app. cbn. lia.
  - rewrite Z.add_mod, Hx2 by lia. replace 256 with (8 * 32) at 1 by lia.
    rewrite <- Z.mul_assoc, Z.mul_comm, Z.mod_mul by lia. done.
  - unfold_words. change (256 ^ Z.of_nat 30) with (2 ^ 240) in *. lia.
  - unfold_words. change (256 ^ Z.of_nat 30) with (2 ^ 240) in *. lia.
  - rewrite clamp_split by lia. by rewrite Hx3, Hy2.
Qed.

(** ** An instance of the laws *)

(** A polynomial hash, multiplication modulo 2^256 and an AEAD that appends a
    tag: no security, but every law holds. *)
Module Toy.

Definition sum (m : list Z) : Z := foldl Z.add 0 m.

Definition hash (n : nat) (m : list Z) : list Z := be_put n (1 + sum m).

Definition mult (k p : list Z) : list Z := be_put 32 ((sum k * be_uint p) mod 2 ^ 256).

Definition base_mult (k : list Z) : list Z := be_put 32 ((sum k * 9) mod 2 ^ 256).

Definition seal (k n m ad : list Z) : list Z := m ++ hash 16 (k ++ n ++ ad ++ m).

Definition open (k n c ad : list Z) : option (list Z) :=
  if decide (16 <= length c)%nat then
    let m := take (length c - 16) c in
    if bytes_eqb (drop (length c - 16) c) (hash 16 (k ++ n ++ ad ++ m)) then Some m else None
  else None.

#[export] Instance toy_crypto : Crypto := {|
  blake2s_256 := hash 32;
  blake2s_128 := fun k m => hash 16 (k ++ m);
  ScalarMult := mult;
  ScalarBaseMult := base_mult;
  Seal := seal;
  Open := open;
  SealX := seal;
  OpenX := open
|}.

Lemma open_seal k n m ad : open k n (seal k n m ad) ad = Some m.
Proof.
  assert (Hh : forall x, length (hash 16 x) = 16%nat) by (intros x; apply length_be_put).
  unfold open, seal. rewrite length_app, Hh.
  rewrite decide_True by lia. replace (length m + 16 - 16)%nat with (length m) by lia.
  by rewrite take_app_length, drop_app_length, bytes_eqb_refl.
Qed.

Lemma open_length k n c ad m : open k n c ad = Some m -> length c = (length m + 16)%nat.
Proof.
  unfold open. case_decide; [|done]. case_match; [|done]. intros [= <-]. rewrite length_take. lia.
Qed.

Lemma open_bytes k n c ad m : open k n c ad = Some m -> is_bytes c -> is_bytes m.
Proof.
  unfold open. case_decide; [|done]. case_match; [|done]. intros [= <-] Hc. by apply Forall_take.
Qed.

Lemma mult_comm a b : mult a (base_mult b) = mult b (base_mult a).
Proof.
  unfold mult, base_mult. f_equal.
  assert (Hput : forall x, be_uint (be_put 32 (x mod 2 ^ 256)) = x mod 2 ^ 256).
  { intros x. rewrite be_uint_put. change (256 ^ Z.of_nat 32) with (2 ^ 256). by rewrite Z.mod_mod. }
  rewrite !Hput, !Z.mul_mod_idemp_r by lia. f_equal. lia.
Qed.

Lemma seal_length k n m ad : length (seal k n m ad) = (length m + 16)%nat.
Proof. unfold seal, hash. by rewrite length_app, length_be_put. Qed.

#[export] Instance toy_laws : CryptoLaws.
Proof.
  constructor; intros; try apply length_be_put; try apply is_bytes_be_put; try apply open_seal;
    try (by eapply open_length); try (by eapply open_bytes); try apply mult_comm; try apply seal_length.
  apply Forall_app. split; [done|]. apply is_bytes_be_put.
Qed.

End Toy.
