(* ===== verification/GoStrings.v ===== *)
(** * Go strings and their parsing

    A Go string is the list of its bytes. What the configuration protocol uses
    of encoding/hex, strconv, strings and bufio. *)

From Stdlib Require Import Ascii String.
From stdpp Require Import base numbers list.
From S2P Require Import Prelude.

Open Scope Z_scope.

(** The bytes of a literal. *)
Definition lit (s : string) : list Z :=
  map (fun a => Z.of_N (N_of_ascii a)) (list_ascii_of_string s).

(** ** Hexadecimal *)

Definition hex_digit (d : Z) : Z := if d <? 10 then 48 + d else 87 + d.

Definition hex_encode (b : list Z) : list Z :=
  concat (map (fun x => [hex_digit (Z.shiftr x 4); hex_digit (Z.land x 15)]) b).

Definition from_hex_char (c : Z) : option Z :=
  if (48 <=? c) && (c <=? 57) then Some (c - 48)
  else if (97 <=? c) && (c <=? 102) then Some (c - 97 + 10)
  else if (65 <=? c) && (c <=? 70) then Some (c - 65 + 10)
  else None.

(** [hex.DecodeString]: an odd length or another character is an error. *)
Fixpoint hex_decode (s : list Z) : option (list Z) :=
  match s with
  | [] => Some []
  | [_] => None
  | a :: b :: s =>
      a ← from_hex_char a; b ← from_hex_char b; r ← hex_decode s;
      Some (Z.lor (Z.shiftl a 4) b :: r)
  end.

(** ** Decimal numbers *)

Definition is_digit (c : Z) : bool := (48 <=? c) && (c <=? 57).

Fixpoint parse_digits (s : list Z) (acc : Z) (max : Z) : option Z :=
  match s with
  | [] => Some acc
  | c :: s =>
      if is_digit c then
        let acc := acc * 10 + (c - 48) in
        if acc >? max then None else parse_digits s acc max
      else None
  end.

(** [strconv.ParseUint(s, 10, bits)] *)
Definition ParseUint (s : list Z) (bits : Z) : option Z :=
  match s with
  | [] => None
  | _ => parse_digits s 0 (2 ^ bits - 1)
  end.

(** [fmt]'s %d of a number that is not negative, with enough fuel for its
    digits. *)
Fixpoint decimal_loop (fuel : nat) (n : Z) (acc : list Z) : list Z :=
  match fuel with
  | O => acc
  | S fuel =>
      let acc := 48 + n mod 10 :: acc in
      if n <? 10 then acc else decimal_loop fuel (n / 10) acc
  end.

Definition decimal (n : Z) : list Z := decimal_loop (S (Z.to_nat (Z.log2 n))) n [].

Definition decimal_signed (n : Z) : list Z := if n <? 0 then 45 :: decimal (- n) else decimal n.

(** ** Cutting *)

(** [strings.Cut(s, "=")] for a separator of one byte. *)
Fixpoint cut (sep : Z) (s : list Z) : option (list Z * list Z) :=
  match s with
  | [] => None
  | c :: s =>
      if c =? sep then Some ([], s)
      else '(before, after) ← cut sep s; Some (c :: before, after)
  end.

(** [bytes.LastIndexByte] as a cut at the last separator. *)
Definition cut_last (sep : Z) (s : list Z) : option (list Z * list Z) :=
  '(after, before) ← cut sep (rev s); Some (rev before, rev after).

(** ** Lines *)

(** [bufio.ScanLines] drops a carriage return before the newline. *)
Definition dropCR (line : list Z) : list Z :=
  match rev line with
  | 13 :: r => rev r
  | _ => line
  end.

Definition MaxScanTokenSize : nat := 65536.

(** The lines a [bufio.Scanner] delivers, and whether it ends in an error: a
    line that does not fit the buffer. [line] collects the line, reversed. *)
Fixpoint scan_lines (s : list Z) (line : list Z) : list (list Z) * bool :=
  match s with
  | [] =>
      match line with
      | [] => ([], true)
      | _ =>
          if bool_decide (MaxScanTokenSize <= length line)%nat then ([], false)
          else ([dropCR (rev line)], true)
      end
  | c :: s =>
      if c =? 10 then
        if bool_decide (MaxScanTokenSize <= length line)%nat then ([], false)
        else
          let '(lines, ok) := scan_lines s [] in (dropCR (rev line) :: lines, ok)
      else scan_lines s (c :: line)
  end.

(** ** Lemmas *)

Lemma lit_bytes s : is_bytes (lit s).
Proof.
  unfold lit. apply Forall_forall. intros x Hx. apply list_elem_of_fmap in Hx as (a & -> & _).
  pose proof (N_ascii_bounded a). unfold is_u8. lia.
Qed.

Lemma from_hex_digit d : 0 <= d < 16 -> from_hex_char (hex_digit d) = Some d.
Proof.
  intros Hd. unfold from_hex_char, hex_digit. destruct (d <? 10) eqn:E.
  - apply Z.ltb_lt in E. rewrite (proj2 (Z.leb_le 48 _)), (proj2 (Z.leb_le _ 57)) by lia. cbn. f_equal. lia.
  - apply Z.ltb_ge in E. rewrite (proj2 (Z.leb_gt _ 57)) by lia. rewrite andb_false_r.
    rewrite (proj2 (Z.leb_le 97 _)), (proj2 (Z.leb_le _ 102)) by lia. cbn. f_equal. lia.
Qed.

Lemma lor_shiftl_add a b n : 0 <= n -> 0 <= b < 2 ^ n -> Z.lor (Z.shiftl a n) b = a * 2 ^ n + b.
Proof.
  intros Hn Hb. assert (Hz : Z.land (Z.shiftl a n) b = 0).
  { apply Z.bits_inj'. intros i Hi. rewrite Z.land_spec, Z.bits_0. destruct (decide (i < n)).
    - by rewrite Z.shiftl_spec_low by lia.
    - rewrite <- (Z.mod_small b (2 ^ n)), (Z.mod_pow2_bits_high b n) by lia. apply andb_false_r. }
  pose proof (Z.add_lor_land (Z.shiftl a n) b) as Ha. rewrite Hz in Ha.
  rewrite (Z.shiftl_mul_pow2 _ n) in Ha |- * by lia. lia.
Qed.

Lemma nibbles x : 0 <= x < 256 ->
  0 <= Z.shiftr x 4 < 16 /\ 0 <= Z.land x 15 < 16 /\
  Z.lor (Z.shiftl (Z.shiftr x 4) 4) (Z.land x 15) = x.
Proof.
  intros Hx. change 15 with (Z.ones 4). rewrite Z.land_ones, Z.shiftr_div_pow2 by lia.
  rewrite lor_shiftl_add by zdm. change (2 ^ 4) with 16. split_and!; zdm.
Qed.

Lemma hex_roundtrip b : is_bytes b -> hex_decode (hex_encode b) = Some b.
Proof.
  induction 1 as [|x b Hx Hb IH]; [done|]. unfold hex_encode in *. cbn [map concat app hex_decode].
  destruct (nibbles x Hx) as (H1 & H2 & H3). rewrite !from_hex_digit by done. cbn.
  rewrite IH. cbn. by rewrite H3.
Qed.

Lemma hex_encode_len b : length (hex_encode b) = (2 * length b)%nat.
Proof. induction b as [|x b IH]; [done|]. cbn [hex_encode map concat app length] in *. unfold hex_encode in IH. lia. Qed.

Lemma parse_digits_app s t acc max :
  parse_digits (s ++ t) acc max = (n ← parse_digits s acc max; parse_digits t n max).
Proof.
  revert acc. induction s as [|c s IH]; intros acc; [done|]. cbn. destruct (is_digit c); [|done].
  case_match; [done|apply IH].
Qed.

(** [decimal_loop] prepends the digits of [n]. *)
Lemma decimal_loop_app fuel n acc : decimal_loop fuel n acc = decimal_loop fuel n [] ++ acc.
Proof.
  revert n acc. induction fuel as [|fuel IH]; intros n acc; [done|]. cbn [decimal_loop].
  destruct (n <? 10); [done|]. rewrite IH, (IH _ [_]). by rewrite <- app_assoc.
Qed.

Lemma decimal_loop_parse fuel n max :
  0 <= n <= max -> n < 2 ^ Z.of_nat fuel -> parse_digits (decimal_loop fuel n []) 0 max = Some n.
Proof.
  revert n. induction fuel as [|fuel IH]; intros n Hn Hf; [cbn in *; f_equal; lia|]. cbn [decimal_loop].
  assert (Hd : is_digit (48 + n mod 10) = true) by (unfold is_digit; apply andb_true_iff; split; apply Z.leb_le; zdm).
  destruct (n <? 10) eqn:E.
  - apply Z.ltb_lt in E. cbn. rewrite Hd. rewrite Z.mod_small by lia.
    destruct (_ >? max) eqn:Eg; [apply Z.gtb_lt in Eg; lia|]. f_equal. lia.
  - apply Z.ltb_ge in E. rewrite decimal_loop_app, parse_digits_app.
    rewrite IH by (rewrite Nat2Z.inj_succ, Z.pow_succ_r in Hf by lia; zdm). cbn. rewrite Hd.
    destruct (_ >? max) eqn:Eg; [apply Z.gtb_lt in Eg; zdm|]. f_equal. zdm.
Qed.

Lemma decimal_nonempty n : decimal n <> [].
Proof.
  unfold decimal. cbn [decimal_loop]. destruct (n <? 10); [done|]. rewrite decimal_loop_app.
  by destruct (decimal_loop _ _ _).
Qed.

Lemma decimal_roundtrip n bits : 0 <= n < 2 ^ bits -> ParseUint (decimal n) bits = Some n.
Proof.
  intros Hn. unfold ParseUint. destruct (decimal n) as [|c s] eqn:E; [by destruct (decimal_nonempty n)|].
  rewrite <- E. apply decimal_loop_parse; [lia|]. rewrite Nat2Z.inj_succ, Z2Nat.id by apply Z.log2_nonneg.
  destruct (decide (n = 0)) as [->|]; [done|]. apply Z.log2_spec. lia.
Qed.

Lemma parse_digits_bounds s acc max n :
  parse_digits s acc max = Some n -> 0 <= acc <= max -> 0 <= n <= max.
Proof.
  revert acc. induction s as [|c s IH]; intros acc; cbn; [by intros [= <-]|].
  destruct (is_digit c) eqn:Ed; [|done]. destruct (_ >? max) eqn:Eg; [done|]. intros Hr Ha.
  apply (IH _ Hr). unfold is_digit in Ed. lia.
Qed.

Lemma ParseUint_bounds s bits n : 0 <= bits -> ParseUint s bits = Some n -> 0 <= n < 2 ^ bits.
Proof.
  intros Hb. unfold ParseUint. destruct s; [done|]. intros Hr%parse_digits_bounds; [lia|].
  pose proof (Z.pow_pos_nonneg 2 bits). lia.
Qed.

Lemma cut_app sep a b : sep ∉ a -> cut sep (a ++ sep :: b) = Some (a, b).
Proof.
  induction a as [|c a IH]; cbn [app cut]; [by rewrite Z.eqb_refl|]. rewrite not_elem_of_cons. intros [Hne Hn].
  rewrite (proj2 (Z.eqb_neq c sep)) by done. by rewrite IH.
Qed.
