(* ===== verification/Netip.v ===== *)
(** * Addresses and prefixes as text

    The parsing and printing of net/netip that the configuration protocol uses:
    [ParseAddr], [ParsePrefix] and [Prefix.String]. An address is its bytes, 4
    or 16 of them; a zone is kept as a flag, since only its presence matters. *)

From Stdlib Require Import String.
From stdpp Require Import base numbers list.
From S2P Require Import AllowedIPs.
From S2P Require Import Prelude GoStrings.

Open Scope Z_scope.

Notation DOT := 46 (only parsing).
Notation COLON := 58 (only parsing).
Notation SLASH := 47 (only parsing).
Notation PERCENT := 37 (only parsing).

(** ** IPv4 *)

(** The loop of [parseIPv4]: [fields] so far, the value and the number of
    digits of the field being read, and whether the last byte was a dot. *)
Fixpoint ipv4_loop (s : list Z) (fields : list Z) (val : Z) (digLen : nat) (afterDot : bool) :
    option (list Z) :=
  match s with
  | [] => if bool_decide (length fields < 3)%nat then None else Some (fields ++ [val])
  | c :: s =>
      if is_digit c then
        if bool_decide (digLen = 1%nat) && (val =? 0) then None
        else
          let val := val * 10 + c - 48 in
          if val >? 255 then None else ipv4_loop s fields val (S digLen) false
      else if c =? DOT then
        (* no leading, trailing or doubled dot, at most four fields *)
        if afterDot || bool_decide (s = []) || bool_decide (length fields = 3%nat) then None
        else ipv4_loop s (fields ++ [val]) 0 0 true
      else None
  end.

Definition parseIPv4 (s : list Z) : option (list Z) := ipv4_loop s [] 0 0 true.

(** ** IPv6 *)

(** A field of hexadecimal digits: its value and the rest of the string. *)
Fixpoint hex_field (s : list Z) (off : nat) (acc : Z) : option (nat * Z * list Z) :=
  match s with
  | [] => Some (off, acc, [])
  | c :: s' =>
      match from_hex_char c with
      | None => Some (off, acc, s)
      | Some d =>
          let acc := acc * 16 + d in
          if bool_decide (3 < off)%nat || (acc >? 65535) then None else hex_field s' (S off) acc
      end
  end.

(** The loop of [parseIPv6] over the fields: the bytes so far, the place of the
    ellipsis; every round takes a byte at least, the length is fuel. *)
Fixpoint ipv6_loop (fuel : nat) (s : list Z) (ip : list Z) (ellipsis : option nat) :
    option (list Z * option nat * list Z) :=
  match fuel with
  | O => None
  | S fuel =>
      if bool_decide (16 <= length ip)%nat then Some (ip, ellipsis, s)
      else
        '(off, acc, rest) ← hex_field s 0 0;
        if bool_decide (off = 0%nat) then None
        else
          match rest with
          | c :: rest' =>
              if c =? DOT then
                if bool_decide (ellipsis = None) && negb (bool_decide (length ip = 12%nat)) then None
                else if bool_decide (16 < length ip + 4)%nat then None
                else v4 ← parseIPv4 s; Some (ip ++ v4, ellipsis, [])
              else
                let ip := ip ++ [Z.shiftr acc 8; Z.land acc 255] in
                if c =? COLON then
                  match rest' with
                  | [] => None
                  | c' :: rest'' =>
                      if c' =? COLON then
                        if bool_decide (ellipsis <> None) then None
                        else
                          match rest'' with
                          | [] => Some (ip, Some (length ip), [])
                          | _ => ipv6_loop fuel rest'' ip (Some (length ip))
                          end
                      else ipv6_loop fuel rest' ip ellipsis
                  end
                else None
          | [] => Some (ip ++ [Z.shiftr acc 8; Z.land acc 255], ellipsis, [])
          end
  end.

(** The end of [parseIPv6]: the ellipsis stands for the missing zeros. *)
Definition expand_ellipsis (ip : list Z) (ellipsis : option nat) : option (list Z) :=
  if bool_decide (length ip < 16)%nat then
    match ellipsis with
    | None => None
    | Some e => Some (take e ip ++ zeros (16 - length ip) ++ drop e ip)
    end
  else
    match ellipsis with
    | None => Some ip
    | Some _ => None
    end.

(** The address and whether it has a zone. *)
Definition parseIPv6 (s : list Z) : option (list Z * bool) :=
  '(s, zone) ← match cut PERCENT s with
               | None => Some (s, false)
               | Some (_, []) => None
               | Some (s, _) => Some (s, true)
               end;
  match s with
  | 58 :: 58 :: [] => Some (zeros 16, zone)
  | _ =>
      let '(s, ellipsis) :=
        match s with
        | 58 :: 58 :: s => (s, Some 0%nat)
        | _ => (s, None)
        end in
      '(ip, ellipsis, rest) ← ipv6_loop (S (length s)) s [] ellipsis;
      match rest with
      | [] => ip ← expand_ellipsis ip ellipsis; Some (ip, zone)
      | _ => None
      end
  end.

(** [ParseAddr] decides by the first dot, colon or percent sign. *)
Fixpoint addr_kind (s : list Z) : Z :=
  match s with
  | [] => 0
  | c :: s => if (c =? DOT) || (c =? COLON) || (c =? PERCENT) then c else addr_kind s
  end.

Definition ParseAddr (s : list Z) : option (list Z * bool) :=
  let c := addr_kind s in
  if c =? DOT then ip ← parseIPv4 s; Some (ip, false)
  else if c =? COLON then parseIPv6 s
  else None.

Definition ParsePrefix (s : list Z) : option Prefix :=
  '(addr, bitsStr) ← cut_last SLASH s;
  '(ip, zone) ← ParseAddr addr;
  if zone : bool then None
  else
    match bitsStr with
    | c :: _ :: _ => if (c <? 49) || (c >? 57) then None else Some tt
    | _ => Some tt
    end;;
    bits ← ParseUint bitsStr 63;
    let maxBits := if Is6 ip then 128 else 32 in
    if bits >? maxBits then None else Some (mkPrefix ip bits).

(** ** Printing *)

Definition addr4_string (ip : list Z) : list Z :=
  match ip with
  | [a; b; c; d] => decimal a ++ [DOT] ++ decimal b ++ [DOT] ++ decimal c ++ [DOT] ++ decimal d
  | _ => []
  end.

(** [appendHex]: no leading zeros. *)
Definition hex_string (x : Z) : list Z :=
  (if x >=? 4096 then [hex_digit (Z.shiftr x 12)] else []) ++
  (if x >=? 256 then [hex_digit (Z.land (Z.shiftr x 8) 15)] else []) ++
  (if x >=? 16 then [hex_digit (Z.land (Z.shiftr x 4) 15)] else []) ++
  [hex_digit (Z.land x 15)].

(** The 16-bit groups of an address. *)
Fixpoint groups (ip : list Z) : list Z :=
  match ip with
  | a :: b :: ip => Z.lor (Z.shiftl a 8) b :: groups ip
  | _ => []
  end.

(** The number of zero groups at the front. *)
Fixpoint zero_run (g : list Z) : nat :=
  match g with
  | 0 :: g => S (zero_run g)
  | _ => O
  end.

(** The first longest run of at least two zero groups: start and end. *)
Fixpoint longest_run (g : list Z) (i : nat) (best : nat * nat) : nat * nat :=
  match g with
  | [] => best
  | _ :: g' =>
      let l := zero_run g in
      let '(zs, ze) := best in
      longest_run g' (S i) (if bool_decide (2 <= l)%nat && bool_decide (ze - zs < l)%nat then (i, i + l)%nat else best)
  end.

Fixpoint join_groups (g : list Z) : list Z :=
  match g with
  | [] => []
  | [x] => hex_string x
  | x :: g => hex_string x ++ [COLON] ++ join_groups g
  end.

Definition addr6_string (ip : list Z) : list Z :=
  let g := groups ip in
  let '(zs, ze) := longest_run g 0 (255, 255)%nat in
  if bool_decide (zs = 255%nat) then join_groups g
  else join_groups (take zs g) ++ [COLON; COLON] ++ join_groups (drop ze g).

Definition Is4In6 (ip : list Z) : bool :=
  Is6 ip && bool_decide (take 12 ip = zeros 10 ++ [255; 255]).

Definition Prefix_String (p : Prefix) : list Z :=
  let ip := AllowedIPs.Addr p in
  (if Is4 ip then addr4_string ip
   else if Is4In6 ip then lit "::ffff:" ++ addr4_string (drop 12 ip)
   else addr6_string ip) ++ [SLASH] ++ decimal (Bits p).
