(* ===== verification/NetipCorrect.v ===== *)
(** * Parsed addresses

    What [ParsePrefix] accepts is a valid prefix, and it reads back what
    [Prefix.String] prints. *)

From Stdlib Require Import String.
From stdpp Require Import base numbers list.
From S2P Require Import AllowedIPs BitTrie Trie AllowedIPsCorrect AllowedIPsTable.
From S2P Require Import Prelude GoStrings Netip.

Open Scope Z_scope.

(** ** Validity *)

Lemma digit_range c : is_digit c = true -> 48 <= c <= 57.
Proof. unfold is_digit. lia. Qed.

Lemma ipv4_loop_valid s fields val n d ip :
  ipv4_loop s fields val n d = Some ip -> is_bytes fields -> is_u8 val -> (length fields <= 3)%nat ->
  length ip = 4%nat /\ is_bytes ip.
Proof.
  revert fields val n d. induction s as [|c s IH]; intros fields val n d; cbn [ipv4_loop].
  - case_bool_decide as Hl; [done|]. intros [= <-] Hf Hv Hl'. rewrite length_app. cbn. split; [lia|].
    apply Forall_app. split; [done|]. by constructor.
  - destruct (is_digit c) eqn:Ed.
    + destruct (_ && _); [done|]. cbv zeta. destruct (_ >? 255) eqn:Eg; [done|]. intros Hr Hf Hv Hl.
      apply digit_range in Ed. eapply IH; [exact Hr|done| |done]. unfold_words. lia.
    + destruct (c =? _); [|done]. destruct (_ || _) eqn:Eo; [done|]. intros Hr Hf Hv Hl.
      apply orb_false_iff in Eo as [_ Eo]. apply bool_decide_eq_false in Eo.
      eapply IH; [exact Hr| |unfold_words; lia|rewrite length_app; cbn; lia].
      apply Forall_app. split; [done|]. by constructor.
Qed.

Lemma parseIPv4_valid s ip : parseIPv4 s = Some ip -> length ip = 4%nat /\ is_bytes ip.
Proof. intros H. eapply ipv4_loop_valid; [exact H|constructor|unfold_words; lia|cbn; lia]. Qed.

Lemma from_hex_range c d : from_hex_char c = Some d -> 0 <= d < 16.
Proof. unfold from_hex_char. repeat case_match; intros [= <-]; lia. Qed.

Lemma hex_field_valid s off acc off' acc' rest :
  hex_field s off acc = Some (off', acc', rest) -> 0 <= acc < 2 ^ 16 -> 0 <= acc' < 2 ^ 16.
Proof.
  revert off acc. induction s as [|c s IH]; intros off acc; cbn [hex_field]; [by intros [= <- <- <-]|].
  destruct (from_hex_char c) as [d|] eqn:Ed; [|by intros [= <- <- <-]]. cbv zeta.
  destruct (_ || _) eqn:Eo; [done|]. intros Hr Ha. apply orb_false_iff in Eo as [_ Eo].
  apply from_hex_range in Ed. eapply IH; [exact Hr|]. lia.
Qed.

Lemma group_bytes acc : 0 <= acc < 2 ^ 16 -> is_bytes [Z.shiftr acc 8; Z.land acc 255].
Proof.
  intros Ha. change 255 with (Z.ones 8). rewrite Z.land_ones, Z.shiftr_div_pow2 by lia.
  repeat constructor; unfold_words; zdm.
Qed.

Lemma ipv6_loop_valid fuel s ip e ip' e' rest :
  ipv6_loop fuel s ip e = Some (ip', e', rest) ->
  is_bytes ip -> (length ip <= 16)%nat -> Nat.Even (length ip) ->
  is_bytes ip' /\ (length ip' <= 16)%nat.
Proof.
  revert s ip e. induction fuel as [|fuel IH]; intros s ip e; cbn [ipv6_loop]; [done|].
  case_bool_decide as Hl; [by intros [= <- <- <-]|].
  destruct (hex_field s 0 0) as [[[off acc] r]|] eqn:Eh; [|done]. cbn [mbind option_bind].
  apply hex_field_valid in Eh; [|lia]. pose proof (group_bytes acc Eh) as Hg.
  case_bool_decide; [done|]. intros Hr Hb Hlen Hev.
  assert (Hsnoc : is_bytes (ip ++ [Z.shiftr acc 8; Z.land acc 255]) /\
    (length (ip ++ [Z.shiftr acc 8; Z.land acc 255]) <= 16)%nat /\
    Nat.Even (length (ip ++ [Z.shiftr acc 8; Z.land acc 255]))).
  { split; [by apply Forall_app|]. rewrite length_app. cbn [length]. destruct Hev as [k Hk].
    split; [lia|]. exists (S k). lia. }
  destruct Hsnoc as (Hs1 & Hs2 & Hs3). destruct r as [|c r]; [by injection Hr as <- <- <-|].
  destruct (c =? _).
  - destruct (_ && _); [done|]. case_bool_decide as Hl4; [done|].
    destruct (parseIPv4 s) as [v4|] eqn:E4; [|done]. injection Hr as <- <- <-.
    apply parseIPv4_valid in E4 as [? ?]. split; [by apply Forall_app|]. rewrite length_app. lia.
  - cbv zeta in Hr. destruct (c =? _); [|done]. destruct r as [|c' r]; [done|]. destruct (c' =? _).
    + case_bool_decide; [done|]. destruct r as [|c'' r]; [by injection Hr as <- <- <-|].
      by eapply IH; [exact Hr|..].
    + by eapply IH; [exact Hr|..].
Qed.

Lemma expand_ellipsis_valid ip e ip' :
  expand_ellipsis ip e = Some ip' -> is_bytes ip -> (length ip <= 16)%nat ->
  length ip' = 16%nat /\ is_bytes ip'.
Proof.
  unfold expand_ellipsis. case_bool_decide as Hl; destruct e as [e|]; intros [= <-] Hb Hlen.
  - rewrite !length_app, length_take, length_drop. unfold zeros. rewrite length_replicate. split; [lia|].
    apply Forall_app. split; [by apply Forall_take|]. apply Forall_app. split; [|by apply Forall_drop].
    apply is_bytes_zeros.
  - split; [lia|done].
Qed.

Lemma ipv6_fields_valid s e zone ip z :
  ('(ip, ellipsis, rest) ← ipv6_loop (S (length s)) s [] e;
   match rest with
   | [] => ip ← expand_ellipsis ip ellipsis; Some (ip, zone : bool)
   | _ => None
   end) = Some (ip, z) -> length ip = 16%nat /\ is_bytes ip.
Proof.
  destruct (ipv6_loop _ _ _ _) as [[[ip1 e1] rest]|] eqn:El; [|done]. cbn [mbind option_bind].
  destruct rest; [|done]. destruct (expand_ellipsis ip1 e1) as [ip2|] eqn:Ee; [|done]. intros [= <- <-].
  apply ipv6_loop_valid in El as [? ?]; [by eapply expand_ellipsis_valid|constructor|cbn; lia|by exists 0%nat].
Qed.

Lemma parseIPv6_valid s ip z : parseIPv6 s = Some (ip, z) -> length ip = 16%nat /\ is_bytes ip.
Proof.
  unfold parseIPv6. intros Hr.
  apply bind_Some in Hr as ([s' zone] & _ & Hr).
  repeat case_match; simplify_eq; first [by eapply ipv6_fields_valid | split; [done|apply is_bytes_zeros]].
Qed.

Lemma ParsePrefix_valid s pfx : ParsePrefix s = Some pfx -> valid_prefix pfx.
Proof.
  unfold ParsePrefix. intros ([addr bs] & _ & Hr)%bind_Some. apply bind_Some in Hr as ([ip zone] & Ha & Hr).
  destruct zone; [done|]. apply bind_Some in Hr as ([] & _ & Hr). apply bind_Some in Hr as (bits & Hb & Hr).
  cbv zeta in Hr. destruct (_ >? _) eqn:Eg in Hr; [done|]. injection Hr as <-. unfold valid_prefix. cbn [Addr Bits].
  assert (Hip : addr_len (length ip) /\ is_bytes ip).
  { revert Ha. unfold ParseAddr. cbv zeta. destruct (_ =? _); [|destruct (_ =? _); [|done]].
    - destruct (parseIPv4 addr) as [ip'|] eqn:E; [|done]. intros [= ->]. apply parseIPv4_valid in E as [? ?]. split; [by left|done].
    - intros [? ?]%parseIPv6_valid. split; [by right|done]. }
  destruct Hip as [Hl Hby]. split; [done|]. split; [done|]. split; [by apply (ParseUint_bounds bs 63)|].
  unfold Is6 in Eg. unfold zlen. destruct Hl as [Hl|Hl]; rewrite Hl in *;
    [rewrite bool_decide_eq_false_2 in Eg by done|rewrite bool_decide_eq_true_2 in Eg by done];
    unfold IPv4len, IPv6len in *; lia.
Qed.

(** ** Reading back what is printed *)

(** Every element of a finite range, for statements checked one by one. *)
Lemma in_range (P : Z -> Prop) n : Forall P (seqZ 0 n) -> forall a, 0 <= a < n -> P a.
Proof. intros H a Ha. rewrite Forall_forall in H. apply H, elem_of_seqZ. lia. Qed.

Lemma decimal_field a rest fields d :
  is_u8 a -> ipv4_loop (decimal a ++ rest) fields 0 0 d = ipv4_loop rest fields a (length (decimal a)) false.
Proof.
  intros Ha. revert rest fields d.
  apply (in_range (fun a => forall rest fields d, ipv4_loop (decimal a ++ rest) fields 0 0 d =
    ipv4_loop rest fields a (length (decimal a)) false) 256); [|exact Ha].
  let l := eval vm_compute in (seqZ 0 256) in change (seqZ 0 256) with l.
  repeat ((by apply Forall_nil) || (apply Forall_cons; split; [intros; reflexivity|])).
Qed.

Lemma ipv4_dot rest fields val n :
  rest <> [] -> (length fields < 3)%nat ->
  ipv4_loop (DOT :: rest) fields val n false = ipv4_loop rest (fields ++ [val]) 0 0 true.
Proof.
  intros Hr Hf. cbn [ipv4_loop]. change (is_digit DOT) with false. change (DOT =? DOT) with true. cbv beta iota.
  rewrite !bool_decide_eq_false_2 by (done || lia). done.
Qed.

Lemma addr4_roundtrip ip : length ip = 4%nat -> is_bytes ip -> parseIPv4 (addr4_string ip) = Some ip.
Proof.
  intros Hl Hb. destruct ip as [|a [|b [|c [|d [|]]]]]; try done. cbn [addr4_string].
  repeat (apply Forall_cons in Hb as [? Hb]). unfold parseIPv4. cbn [app].
  rewrite !decimal_field by done. pose proof decimal_nonempty as Hne.
  assert (Happ : forall n (l : list Z), decimal n ++ l <> []) by (intros n l [E _]%app_nil; by apply (Hne n)).
  rewrite ipv4_dot by (done || (cbn; lia)). rewrite decimal_field by done.
  rewrite ipv4_dot by (done || (cbn; lia)). rewrite decimal_field by done.
  rewrite ipv4_dot by (done || (cbn; lia)). rewrite <- (app_nil_r (decimal d)), decimal_field by done.
  done.
Qed.

(** *** Hexadecimal groups *)

Definition not_hex (s : list Z) : Prop := match s with [] => True | c :: _ => from_hex_char c = None end.

Lemma hex_field_stop s off acc : not_hex s -> hex_field s off acc = Some (off, acc, s).
Proof. destruct s as [|c s]; [done|]. cbn. by intros ->. Qed.

Lemma hex_field_digit d s off acc :
  0 <= d < 16 -> (off <= 3)%nat -> acc * 16 + d < 65536 ->
  hex_field (hex_digit d :: s) off acc = hex_field s (S off) (acc * 16 + d).
Proof.
  intros Hd Ho Ha. cbn [hex_field]. rewrite from_hex_digit by done. cbv zeta.
  rewrite bool_decide_eq_false_2 by lia. by replace (acc * 16 + d >? 65535) with false by lia.
Qed.

(** [hex_string] prints the digits of a group without leading zeros. *)
Lemma hex_string_digits x : 0 <= x < 2 ^ 16 ->
  exists d ds, hex_string x = map hex_digit (d :: ds) /\ Forall (fun d => 0 <= d < 16) (d :: ds) /\
    (length ds <= 3)%nat /\ foldl (fun acc d => acc * 16 + d) 0 (d :: ds) = x.
Proof.
  intros Hx. unfold hex_string. change 15 with (Z.ones 4). rewrite !Z.land_ones, !Z.shiftr_div_pow2 by lia.
  change (2 ^ 12) with 4096. change (2 ^ 8) with 256. change (2 ^ 4) with 16.
  destruct (x >=? 4096) eqn:E3; [|destruct (x >=? 256) eqn:E2; [|destruct (x >=? 16) eqn:E1]].
  - exists (x / 4096), [x / 256 mod 16; x / 16 mod 16; x mod 16].
    replace (x >=? 256) with true by lia. replace (x >=? 16) with true by lia.
    split; [done|]. split; [repeat constructor; zdm|]. split; [cbn; lia|]. cbn [foldl]. zdm.
  - exists (x / 256 mod 16), [x / 16 mod 16; x mod 16]. replace (x >=? 16) with true by lia.
    split; [done|]. split; [repeat constructor; zdm|]. split; [cbn; lia|]. cbn [foldl]. zdm.
  - exists (x / 16 mod 16), [x mod 16].
    split; [done|]. split; [repeat constructor; zdm|]. split; [cbn; lia|]. cbn [foldl]. zdm.
  - exists (x mod 16), []. split; [done|]. split; [repeat constructor; zdm|]. split; [cbn; lia|]. cbn [foldl]. zdm.
Qed.

Lemma foldl_hex_grows ds acc : Forall (fun d => 0 <= d < 16) ds -> 0 <= acc ->
  acc <= foldl (fun acc d => acc * 16 + d) acc ds.
Proof.
  intros Hd. revert acc. induction Hd as [|d ds Hd Hds IH]; intros acc Ha; cbn [foldl]; [lia|].
  etrans; [|apply IH; lia]. lia.
Qed.

Lemma hex_field_digits ds rest off acc :
  Forall (fun d => 0 <= d < 16) ds -> (off + length ds <= 4)%nat -> 0 <= acc ->
  foldl (fun acc d => acc * 16 + d) acc ds < 65536 -> not_hex rest ->
  hex_field (map hex_digit ds ++ rest) off acc =
    Some ((off + length ds)%nat, foldl (fun acc d => acc * 16 + d) acc ds, rest).
Proof.
  intros Hd. revert off acc. induction Hd as [|d ds Hd Hds IH]; intros off acc Ho Ha Hb Hr.
  - cbn. rewrite Nat.add_0_r. by apply hex_field_stop.
  - cbn [map app foldl length] in *. pose proof (foldl_hex_grows ds (acc * 16 + d) Hds ltac:(lia)).
    rewrite hex_field_digit by lia. rewrite IH by (done || lia). do 3 f_equal. lia.
Qed.

(** A printed group reads back, whatever comes after it. *)
Lemma hex_field_group x rest : 0 <= x < 2 ^ 16 -> not_hex rest ->
  exists n, hex_field (hex_string x ++ rest) 0 0 = Some (S n, x, rest).
Proof.
  intros Hx Hr. destruct (hex_string_digits x Hx) as (d & ds & -> & Hd & Hl & Hf).
  exists (length ds). rewrite hex_field_digits; [by rewrite Hf|done|cbn; lia|lia|rewrite Hf; lia|done].
Qed.

(** *** Lists of groups *)

Definition group_pair (x : Z) : list Z := [Z.shiftr x 8; Z.land x 255].

Definition group_list (gs : list Z) : list Z := concat (map group_pair gs).

Definition is_groups (gs : list Z) : Prop := Forall (fun x => 0 <= x < 2 ^ 16) gs.

Lemma length_group_list gs : length (group_list gs) = (2 * length gs)%nat.
Proof. induction gs as [|x gs IH]; [done|]. change (group_list (x :: gs)) with (group_pair x ++ group_list gs).
  rewrite length_app, IH. cbn. lia. Qed.

Lemma join_cons x y gs : join_groups (x :: y :: gs) = hex_string x ++ COLON :: join_groups (y :: gs).
Proof. done. Qed.

(** A printed list of groups starts with a digit. *)
Lemma join_head x gs tail : 0 <= x < 2 ^ 16 ->
  exists c r, join_groups (x :: gs) ++ tail = c :: r /\ (c =? COLON) = false.
Proof.
  intros Hx. destruct (hex_string_digits x Hx) as (d & ds & Hs & Hd & _). apply Forall_cons in Hd as [Hd _].
  exists (hex_digit d). assert (Hc : (hex_digit d =? COLON) = false) by (unfold hex_digit; case_match; lia).
  destruct gs as [|y gs]; [cbn [join_groups]|rewrite join_cons]; rewrite Hs; cbn; eauto.
Qed.

Lemma not_hex_colon r : not_hex (COLON :: r).
Proof. done. Qed.

#[local] Hint Resolve not_hex_colon : core.

Lemma ipv6_loop_last x fuel ip e :
  0 <= x < 2 ^ 16 -> (length ip < 16)%nat ->
  ipv6_loop (S fuel) (hex_string x) ip e = Some (ip ++ group_pair x, e, []).
Proof.
  intros Hx Hl. cbn [ipv6_loop]. rewrite bool_decide_eq_false_2 by lia.
  destruct (hex_field_group x [] Hx I) as [n Hn]. rewrite app_nil_r in Hn. by rewrite Hn.
Qed.

Lemma ipv6_loop_group x r c fuel ip e :
  0 <= x < 2 ^ 16 -> (length ip < 16)%nat -> (c =? COLON) = false ->
  ipv6_loop (S fuel) (hex_string x ++ COLON :: c :: r) ip e =
    ipv6_loop fuel (c :: r) (ip ++ group_pair x) e.
Proof.
  intros Hx Hl Hc. cbn [ipv6_loop]. rewrite bool_decide_eq_false_2 by lia.
  destruct (hex_field_group x (COLON :: c :: r) Hx (not_hex_colon _)) as [n ->]. cbn [mbind option_bind].
  rewrite bool_decide_eq_false_2 by done. cbn [Z.eqb Pos.eqb]. by rewrite Hc.
Qed.

Lemma ipv6_loop_ellipsis x r fuel ip :
  0 <= x < 2 ^ 16 -> (length ip < 16)%nat ->
  ipv6_loop (S fuel) (hex_string x ++ COLON :: COLON :: r) ip None =
    (let ip := ip ++ group_pair x in
     match r with [] => Some (ip, Some (length ip), []) | _ => ipv6_loop fuel r ip (Some (length ip)) end).
Proof.
  intros Hx Hl. cbn [ipv6_loop]. rewrite bool_decide_eq_false_2 by lia.
  destruct (hex_field_group x (COLON :: COLON :: r) Hx (not_hex_colon _)) as [n ->]. cbn [mbind option_bind].
  rewrite bool_decide_eq_false_2 by done. cbn [Z.eqb Pos.eqb]. by rewrite bool_decide_eq_false_2 by (intros H; by apply H).
Qed.

Lemma ipv6_loop_groups gs x fuel ip e :
  is_groups (x :: gs) -> (length ip + 2 * length (x :: gs) <= 16)%nat -> (length (x :: gs) <= fuel)%nat ->
  ipv6_loop fuel (join_groups (x :: gs)) ip e = Some (ip ++ group_list (x :: gs), e, []).
Proof.
  revert x fuel ip. induction gs as [|y gs IH]; intros x fuel ip Hg Hl Hf; destruct fuel as [|fuel]; cbn [length] in *; try lia.
  - apply Forall_cons in Hg as [Hx _]. cbn [join_groups]. by rewrite ipv6_loop_last by (done || lia).
  - apply Forall_cons in Hg as [Hx Hg]. rewrite join_cons.
    destruct (join_head y gs [] (Forall_inv Hg)) as (c & r & E & Hc). rewrite app_nil_r in E. rewrite E.
    rewrite ipv6_loop_group by (done || lia). rewrite <- E. rewrite IH; [|done|rewrite length_app; cbn; lia|cbn; lia].
    by rewrite <- app_assoc.
Qed.

Lemma ipv6_loop_groups_ellipsis gs x tail fuel ip :
  is_groups (x :: gs) -> (length ip + 2 * length (x :: gs) <= 16)%nat -> (length (x :: gs) <= fuel)%nat ->
  ipv6_loop fuel (join_groups (x :: gs) ++ COLON :: COLON :: tail) ip None =
    (let ip := ip ++ group_list (x :: gs) in
     match tail with
     | [] => Some (ip, Some (length ip), [])
     | _ => ipv6_loop (fuel - length (x :: gs)) tail ip (Some (length ip))
     end).
Proof.
  revert x fuel ip. induction gs as [|y gs IH]; intros x fuel ip Hg Hl Hf; destruct fuel as [|fuel]; cbn [length] in *; try lia.
  - apply Forall_cons in Hg as [Hx _]. cbn [join_groups]. rewrite ipv6_loop_ellipsis by (done || lia).
    by rewrite Nat.sub_succ, Nat.sub_0_r.
  - apply Forall_cons in Hg as [Hx Hg]. rewrite join_cons, <- app_assoc. cbn [app].
    destruct (join_head y gs (COLON :: COLON :: tail) (Forall_inv Hg)) as (c & r & E & Hc). rewrite E.
    rewrite ipv6_loop_group by (done || lia). rewrite <- E. rewrite IH; [|done|rewrite length_app; cbn; lia|cbn; lia].
    cbv zeta. rewrite <- app_assoc. by rewrite Nat.sub_succ.
Qed.

(** *** The groups of an address *)

Lemma pair_group a b : is_u8 a -> is_u8 b ->
  0 <= Z.lor (Z.shiftl a 8) b < 2 ^ 16 /\ group_pair (Z.lor (Z.shiftl a 8) b) = [a; b].
Proof.
  unfold is_u8. intros Ha Hb. rewrite lor_shiftl_add by lia. unfold group_pair.
  change 255 with (Z.ones 8). rewrite Z.land_ones, Z.shiftr_div_pow2 by lia. change (2 ^ 8) with 256.
  split; [lia|]. assert (E1 : (a * 256 + b) / 256 = a) by zdm. assert (E2 : (a * 256 + b) mod 256 = b) by zdm.
  by rewrite E1, E2.
Qed.

Lemma groups_spec n ip : length ip = (2 * n)%nat -> is_bytes ip ->
  is_groups (groups ip) /\ length (groups ip) = n /\ group_list (groups ip) = ip.
Proof.
  revert ip. induction n as [|n IH]; intros ip Hl Hb.
  { destruct ip; [|done]. split; [constructor|done]. }
  destruct ip as [|a [|b ip]]; cbn [length] in Hl; try lia. cbn [groups length].
  apply Forall_cons in Hb as [Ha Hb]. apply Forall_cons in Hb as [Hb' Hb].
  destruct (IH ip) as (H1 & H2 & H3); [lia|done|]. destruct (pair_group a b Ha Hb') as [Hr Hp].
  split; [by constructor|]. split; [lia|]. unfold group_list in *. cbn [map concat]. rewrite Hp, H3. done.
Qed.

(** *** Zero runs *)

Lemma zero_run_spec g : (zero_run g <= length g)%nat /\ take (zero_run g) g = replicate (zero_run g) 0.
Proof.
  induction g as [|x g [IH1 IH2]]; [done|]. destruct x; cbn [zero_run length take replicate]; try (split; [lia|done]).
  split; [lia|]. by rewrite IH2.
Qed.

(** Nothing found, or a run of at least two zeros. *)
Definition run_ok (g : list Z) (r : nat * nat) : Prop :=
  r = (255, 255)%nat \/
  (r.1 + 2 <= r.2 <= length g)%nat /\ take (r.2 - r.1) (drop r.1 g) = replicate (r.2 - r.1) 0.

Lemma longest_run_ok g pre best :
  run_ok (pre ++ g) best -> run_ok (pre ++ g) (longest_run g (length pre) best).
Proof.
  revert pre best. induction g as [|x g IH]; intros pre best Hb; [done|]. cbn [longest_run]. cbv zeta.
  destruct best as [zs ze]. rewrite cons_middle, app_assoc in Hb |- *.
  replace (S (length pre)) with (length (pre ++ [x])) by (rewrite length_app; cbn; lia). apply IH.
  destruct (_ && _) eqn:E; [|done]. apply andb_true_iff in E as [E _]. apply bool_decide_eq_true in E.
  destruct (zero_run_spec (x :: g)) as [Hl Hz]. right. cbn [fst snd]. rewrite <- app_assoc. cbn [app].
  split; [rewrite length_app; lia|]. rewrite drop_app_length.
  by replace (length pre + zero_run (x :: g) - length pre)%nat with (zero_run (x :: g)) by lia.
Qed.

Lemma run_split g zs ze : run_ok g (zs, ze) -> zs <> 255%nat ->
  g = take zs g ++ replicate (ze - zs) 0 ++ drop ze g /\ (zs + 2 <= ze <= length g)%nat.
Proof.
  intros [[= -> ->]|[Hl Hz]] Hne; [done|]. cbn [fst snd] in *. split; [|done].
  rewrite <- Hz. rewrite <- (take_drop zs g) at 1. f_equal.
  rewrite <- (take_drop (ze - zs) (drop zs g)) at 1. f_equal. rewrite drop_drop. f_equal. lia.
Qed.

(** *** The characters of an address *)

Definition addr_char (c : Z) : Prop := c <> DOT /\ c <> SLASH /\ c <> PERCENT.

Lemma hex_string_chars x : 0 <= x < 2 ^ 16 -> Forall addr_char (hex_string x).
Proof.
  intros Hx. destruct (hex_string_digits x Hx) as (d & ds & -> & Hd & _). apply Forall_map.
  eapply Forall_impl; [exact Hd|]. intros y Hy. cbv beta in Hy. unfold addr_char, hex_digit.
  destruct (y <? 10) eqn:E; lia.
Qed.

Lemma join_chars gs : is_groups gs -> Forall addr_char (join_groups gs).
Proof.
  induction 1 as [|x [|y gs] Hx Hg IH]; [constructor|by apply hex_string_chars|].
  rewrite join_cons. apply Forall_app. split; [by apply hex_string_chars|]. by constructor.
Qed.

Lemma cut_None sep s : sep ∉ s -> cut sep s = None.
Proof.
  induction s as [|c s IH]; [done|]. rewrite not_elem_of_cons. intros [Hne Hn]. cbn [cut].
  rewrite (proj2 (Z.eqb_neq c sep)) by done. by rewrite IH.
Qed.

Lemma cut_last_app sep a b : sep ∉ b -> cut_last sep (a ++ sep :: b) = Some (a, b).
Proof.
  intros Hb. unfold cut_last. rewrite rev_app_distr. cbn [rev]. rewrite <- app_assoc. cbn [app].
  rewrite cut_app; [cbn [mbind option_bind]; by rewrite !rev_involutive|]. by rewrite list_elem_of_In, <- in_rev, <- list_elem_of_In.
Qed.

Lemma addr_char_free s : Forall addr_char s -> DOT ∉ s /\ SLASH ∉ s /\ PERCENT ∉ s.
Proof. rewrite Forall_forall. intros H. split_and!; intros Hin; by destruct (H _ Hin) as (? & ? & ?). Qed.

Lemma addr_kind_colon s : Forall addr_char s -> COLON ∈ s -> addr_kind s = COLON.
Proof.
  induction 1 as [|c s (Hd & _ & Hp) Hs IH]; [by intros ?%elem_of_nil|]. cbn [addr_kind].
  rewrite (proj2 (Z.eqb_neq c DOT)), (proj2 (Z.eqb_neq c PERCENT)) by done. cbn [orb].
  intros Hin. destruct (Z.eqb_spec c COLON) as [->|Hne]; [done|]. cbn [orb]. apply IH.
  by apply elem_of_cons in Hin as [?|?].
Qed.

(** *** IPv6 addresses *)

Lemma group_list_app a b : group_list (a ++ b) = group_list a ++ group_list b.
Proof. unfold group_list. by rewrite map_app, concat_app. Qed.

Lemma group_list_zeros n : group_list (replicate n 0) = zeros (2 * n).
Proof.
  induction n as [|n IH]; [done|]. replace (2 * S n)%nat with (S (S (2 * n))) by lia.
  cbn [replicate]. change (group_list (0 :: replicate n 0)) with (0 :: 0 :: group_list (replicate n 0)). by rewrite IH.
Qed.

(** The parser on a text that has neither a zone nor dots. *)
Lemma parseIPv6_plain x gs tail : is_groups (x :: gs) -> Forall addr_char tail ->
  parseIPv6 (join_groups (x :: gs) ++ tail) =
    ('(ip, ellipsis, rest) ← ipv6_loop (S (length (join_groups (x :: gs) ++ tail))) (join_groups (x :: gs) ++ tail) [] None;
     match rest with
     | [] => ip ← expand_ellipsis ip ellipsis; Some (ip, false)
     | _ => None
     end).
Proof.
  intros Hg Ht. unfold parseIPv6. rewrite cut_None.
  2: { apply addr_char_free, Forall_app. split; [by apply join_chars|done]. }
  cbn [mbind option_bind]. destruct (join_head x gs tail (Forall_inv Hg)) as (c & r & E & Hc).
  rewrite E. apply Z.eqb_neq in Hc.
  repeat case_match; simplify_eq; done.
Qed.

Lemma parseIPv6_leading x gs : is_groups (x :: gs) ->
  parseIPv6 (COLON :: COLON :: join_groups (x :: gs)) =
    ('(ip, ellipsis, rest) ← ipv6_loop (S (length (join_groups (x :: gs)))) (join_groups (x :: gs)) [] (Some 0%nat);
     match rest with
     | [] => ip ← expand_ellipsis ip ellipsis; Some (ip, false)
     | _ => None
     end).
Proof.
  intros Hg. unfold parseIPv6. rewrite cut_None.
  2: { apply (addr_char_free (COLON :: COLON :: _)). do 2 (constructor; [done|]). by apply join_chars. }
  cbn [mbind option_bind]. destruct (join_head x gs [] (Forall_inv Hg)) as (c & r & E & Hc). rewrite app_nil_r in E.
  by rewrite E.
Qed.

Lemma join_length gs : is_groups gs -> (length gs <= length (join_groups gs))%nat.
Proof.
  induction 1 as [|x [|y gs] Hx Hg IH]; [done| |].
  - cbn [join_groups]. destruct (hex_string_digits x Hx) as (d & ds & -> & _). cbn. lia.
  - rewrite join_cons, length_app. cbn [length] in *. lia.
Qed.

Lemma expand_zeros a n b :
  (length a + n + length b = 16)%nat -> (2 <= n)%nat ->
  expand_ellipsis (a ++ b) (Some (length a)) = Some (a ++ zeros n ++ b).
Proof.
  intros Hl Hn. unfold expand_ellipsis. rewrite length_app, bool_decide_eq_true_2 by lia.
  rewrite take_app_length, drop_app_length. do 3 f_equal. f_equal. lia.
Qed.

Lemma parse_ellipsis a n b :
  is_groups a -> is_groups b -> (length a + n + length b = 8)%nat -> (2 <= n)%nat ->
  parseIPv6 (join_groups a ++ [COLON; COLON] ++ join_groups b) =
    Some (group_list a ++ zeros (2 * n) ++ group_list b, false).
Proof.
  intros Ha Hb Hl Hn. pose proof (length_group_list a) as Hla. pose proof (length_group_list b) as Hlb.
  destruct a as [|x a]; [destruct b as [|y b]|].
  - cbn in Hl. replace n with 8%nat by lia. done.
  - change (join_groups [] ++ _) with (COLON :: COLON :: join_groups (y :: b)). rewrite parseIPv6_leading by done.
    rewrite ipv6_loop_groups; [|done|cbn [length] in *; lia|apply join_length in Hb; cbn [length] in *; lia].
    cbn [mbind option_bind app]. pose proof (expand_zeros [] (2 * n) (group_list (y :: b))) as E. cbn [app length] in E.
    by rewrite E by (cbn [length] in *; lia).
  - assert (Ht : Forall addr_char ([COLON; COLON] ++ join_groups b)).
    { do 2 (constructor; [done|]). by apply join_chars. }
    rewrite parseIPv6_plain by done. cbn [app]. pose proof (join_length _ Ha) as Hja.
    rewrite ipv6_loop_groups_ellipsis; [|done|cbn [length] in *; lia|rewrite length_app; cbn [length] in *; lia].
    cbv zeta. cbn [app]. destruct b as [|y b].
    + cbn [join_groups mbind option_bind]. pose proof (expand_zeros (group_list (x :: a)) (2 * n) []) as E.
      rewrite app_nil_r in E. by rewrite E by (cbn [length] in *; lia).
    + destruct (join_head y b [] (Forall_inv Hb)) as (c & r & E & Hc). rewrite app_nil_r in E.
      rewrite E, <- E. pose proof (join_length _ Hb) as Hjb.
      rewrite ipv6_loop_groups; [|done|cbn [length] in *; lia|].
      2: { rewrite length_app. cbn [length] in *. lia. }
      cbn [mbind option_bind]. by rewrite (expand_zeros _ (2 * n)) by (cbn [length] in *; lia).
Qed.

Lemma addr6_roundtrip ip : length ip = 16%nat -> is_bytes ip -> parseIPv6 (addr6_string ip) = Some (ip, false).
Proof.
  intros Hl Hb. destruct (groups_spec 8 ip) as (Hg & Hlen & Hip); [done..|]. unfold addr6_string. cbv zeta.
  pose proof (longest_run_ok (groups ip) [] (255, 255)%nat) as Hrun. cbn [length app] in Hrun.
  destruct (longest_run (groups ip) 0 (255, 255)%nat) as [zs ze]. specialize (Hrun ltac:(by left)).
  revert Hg Hlen Hip Hrun. generalize (groups ip). intros g Hg Hlen Hip Hrun. subst ip.
  case_bool_decide as Hz.
  - destruct g as [|x g]; [done|]. pose proof (parseIPv6_plain x g [] Hg ltac:(constructor)) as Hp. rewrite app_nil_r in Hp.
    rewrite Hp, ipv6_loop_groups; [|done|cbn [length] in *; lia|apply join_length in Hg; cbn [length] in *; lia].
    cbn [mbind option_bind app]. unfold expand_ellipsis. rewrite bool_decide_eq_false_2 by lia. done.
  - destruct (run_split g zs ze Hrun Hz) as [Hs Hze]. 
    assert (Ha : is_groups (take zs g)) by (by apply Forall_take). assert (Hd : is_groups (drop ze g)) by (by apply Forall_drop).
    assert (Hla : length (take zs g) = zs) by (apply length_take_le; lia). pose proof (length_drop g ze) as Hld.
    rewrite (parse_ellipsis _ (ze - zs)) by (done || lia). do 2 f_equal. rewrite <- group_list_zeros, <- !group_list_app.
    by rewrite <- Hs.
Qed.

(** Only colons and hexadecimal digits, and at least one colon. *)
Lemma addr6_chars ip : length ip = 16%nat -> is_bytes ip ->
  Forall addr_char (addr6_string ip) /\ COLON ∈ addr6_string ip.
Proof.
  intros Hl Hb. destruct (groups_spec 8 ip) as (Hg & Hlen & Hip); [done..|]. unfold addr6_string. cbv zeta.
  destruct (longest_run _ _ _) as [zs ze]. case_bool_decide.
  - split; [by apply join_chars|]. destruct (groups ip) as [|x [|y g]]; try done. rewrite join_cons.
    apply elem_of_app. right. by left.
  - split; [|apply elem_of_app; right; by left].
    apply Forall_app. split; [by apply join_chars, Forall_take|]. do 2 (constructor; [done|]).
    by apply join_chars, Forall_drop.
Qed.

(** *** IPv4 addresses in IPv6 *)

Lemma decimal_hex_field a r : is_u8 a ->
  exists n v, hex_field (decimal a ++ DOT :: r) 0 0 = Some (S n, v, DOT :: r).
Proof.
  intros Ha. revert r. apply (in_range (fun a => forall r, exists n v,
    hex_field (decimal a ++ DOT :: r) 0 0 = Some (S n, v, DOT :: r)) 256); [|exact Ha].
  let l := eval vm_compute in (seqZ 0 256) in change (seqZ 0 256) with l.
  repeat ((by apply Forall_nil) || (apply Forall_cons; split; [intros; eexists _, _; reflexivity|])).
Qed.

Lemma decimal_digits n : 0 <= n -> Forall (fun c => 48 <= c <= 57) (decimal n).
Proof.
  intros Hn. unfold decimal. generalize (S (Z.to_nat (Z.log2 n))). intros fuel. revert n Hn.
  induction fuel as [|fuel IH]; intros n Hn; cbn [decimal_loop]; [constructor|]. destruct (n <? 10).
  - constructor; [zdm|constructor].
  - rewrite decimal_loop_app. apply Forall_app. split; [apply IH; zdm|]. constructor; [zdm|constructor].
Qed.

Lemma addr4_chars ip : is_bytes ip -> Forall (fun c => c = DOT \/ 48 <= c <= 57) (addr4_string ip).
Proof.
  intros Hb. destruct ip as [|a [|b [|c [|d [|]]]]]; cbn [addr4_string]; try by constructor.
  repeat (apply Forall_cons in Hb as [? Hb]). unfold is_u8 in *.
  assert (Hd : forall n, 0 <= n -> Forall (fun c => c = DOT \/ 48 <= c <= 57) (decimal n)).
  { intros n Hn. eapply Forall_impl; [by apply decimal_digits|]. auto. }
  repeat (apply Forall_app; split); try (apply Hd; lia); (constructor; [by left|constructor]).
Qed.

Lemma addr4in6_roundtrip v4 : length v4 = 4%nat -> is_bytes v4 ->
  parseIPv6 (lit "::ffff:" ++ addr4_string v4) = Some (zeros 10 ++ [255; 255] ++ v4, false).
Proof.
  intros Hl Hb. set (s := addr4_string v4).
  assert (Hs : lit "::ffff:" ++ s = COLON :: COLON :: hex_string 65535 ++ COLON :: s) by done. rewrite Hs.
  unfold parseIPv6. rewrite cut_None.
  2: { rewrite !not_elem_of_cons, elem_of_app, elem_of_cons. pose proof (addr4_chars v4 Hb) as Hc.
       rewrite Forall_forall in Hc. split_and!; try done. intros [Hin|[Hin|Hin]]; [|done|].
       - destruct (addr_char_free _ (hex_string_chars 65535 ltac:(lia))) as (_ & _ & H). by apply H.
       - apply Hc in Hin. lia. }
  cbn [mbind option_bind].
  assert (Hhd : exists c r, s = c :: r /\ (c =? COLON) = false).
  { pose proof (addr4_chars v4 Hb) as Hc. fold s in Hc. unfold s in *. destruct v4 as [|a [|b [|c [|d [|]]]]]; try done.
    cbn [addr4_string] in *. destruct (decimal a) as [|x xs] eqn:E; [by destruct (decimal_nonempty a)|].
    eexists _, _. split; [done|]. apply Forall_inv in Hc. lia. }
  destruct Hhd as (c & r & Hcr & Hne).
  assert (Hloop : ipv6_loop (S (length (hex_string 65535 ++ COLON :: s))) (hex_string 65535 ++ COLON :: s) []
    (Some 0%nat) = Some ([255; 255] ++ v4, Some 0%nat, [])).
  { rewrite Hcr, ipv6_loop_group by (done || cbn; lia). rewrite <- Hcr. rewrite length_app. cbn [length Nat.add].
    rewrite <- plus_n_Sm. cbn [ipv6_loop]. rewrite bool_decide_eq_false_2 by (cbn; lia). unfold s.
    pose proof (addr4_roundtrip v4 Hl Hb) as H4. destruct v4 as [|a [|b [|c4 [|d [|]]]]]; try done.
    cbn [addr4_string] in *. destruct (decimal_hex_field a (decimal b ++ [DOT] ++ decimal c4 ++ [DOT] ++ decimal d)) as (n & v & E).
    { by apply Forall_inv in Hb. }
    cbn [app] in E, H4 |- *. rewrite E. cbn [mbind option_bind]. rewrite bool_decide_eq_false_2 by done.
    cbn [Z.eqb Pos.eqb]. rewrite bool_decide_eq_false_2 by done. cbn [andb]. rewrite bool_decide_eq_false_2 by (cbn; lia).
    by rewrite H4. }
  change (hex_string 65535) with [102; 102; 102; 102] in *. cbn [app] in *. rewrite Hloop.
  cbn [mbind option_bind]. pose proof (expand_zeros [] 10 ([255; 255] ++ v4)) as E. cbn [app length] in E.
  by rewrite E by lia.
Qed.

(** *** Prefixes *)

Lemma addr_kind_dot s r : Forall (fun c => 48 <= c <= 57) s -> addr_kind (s ++ DOT :: r) = DOT.
Proof.
  induction 1 as [|c s Hc Hs IH]; [done|]. cbn [app addr_kind].
  rewrite (proj2 (Z.eqb_neq c DOT)), (proj2 (Z.eqb_neq c COLON)), (proj2 (Z.eqb_neq c PERCENT)) by lia. done.
Qed.

(** The text of an address, as [Prefix_String] prints it. *)
Definition addr_text (ip : list Z) : list Z :=
  if Is4 ip then addr4_string ip
  else if Is4In6 ip then lit "::ffff:" ++ addr4_string (drop 12 ip)
  else addr6_string ip.

Lemma addr_text_roundtrip ip : addr_len (length ip) -> is_bytes ip -> ParseAddr (addr_text ip) = Some (ip, false).
Proof.
  intros Hl Hb. unfold addr_text, Is4, Is4In6, Is6. destruct Hl as [Hl|Hl]; unfold IPv4len, IPv6len in *.
  - rewrite bool_decide_eq_true_2 by done. unfold ParseAddr. cbv zeta.
    pose proof (addr4_roundtrip ip Hl Hb) as H4. destruct ip as [|a [|b [|c [|d [|]]]]]; try done.
    cbn [addr4_string app] in *. rewrite addr_kind_dot by (apply decimal_digits; apply Forall_inv in Hb; apply Hb).
    change (DOT =? DOT) with true. cbv beta iota. by rewrite H4.
  - rewrite bool_decide_eq_false_2 by lia. rewrite bool_decide_eq_true_2 by done. cbn [andb].
    case_bool_decide as H46; unfold ParseAddr; cbv zeta.
    + change (addr_kind (lit "::ffff:" ++ _)) with COLON. cbn [Z.eqb Pos.eqb].
      rewrite addr4in6_roundtrip by (rewrite ?length_drop; (lia || by apply Forall_drop)).
      rewrite <- (take_drop 12 ip) at 2. by rewrite H46.
    + destruct (addr6_chars ip Hl Hb) as [Hc Hin]. rewrite (addr_kind_colon _ Hc Hin). cbn [Z.eqb Pos.eqb].
      by apply addr6_roundtrip.
Qed.

Lemma bits_text n : 0 <= n <= 128 ->
  match decimal n with c :: _ :: _ => (c <? 49) || (c >? 57) | _ => false end = false.
Proof.
  intros Hn. apply (in_range (fun n => match decimal n with c :: _ :: _ => (c <? 49) || (c >? 57) | _ => false end = false) 129);
    [|lia].
  let l := eval vm_compute in (seqZ 0 129) in change (seqZ 0 129) with l.
  repeat ((by apply Forall_nil) || (apply Forall_cons; split; [reflexivity|])).
Qed.

(** Prefixes survive printing and parsing. What [Prefix.String] prints for
    any IPv4 or IPv6 prefix (IPv4-mapped addresses and all ways to shorten zero
    groups included) is read back by [ParsePrefix] as the same prefix. *)
Theorem prefix_roundtrip pfx : valid_prefix pfx -> ParsePrefix (Prefix_String pfx) = Some pfx.
Proof.
  intros (Hl & Hb & Hbits). destruct pfx as [ip bits]. cbn [Addr Bits] in *.
  change (Prefix_String (mkPrefix ip bits)) with (addr_text ip ++ [SLASH] ++ decimal bits).
  assert (Hmax : 0 <= bits <= (if Is6 ip then 128 else 32)).
  { unfold Is6. unfold zlen in Hbits. destruct Hl as [Hl|Hl]; rewrite Hl in *; unfold IPv4len, IPv6len in *.
    - rewrite bool_decide_eq_false_2 by done. lia.
    - rewrite bool_decide_eq_true_2 by done. lia. }
  assert (Hm : 0 <= bits <= 128) by (destruct (Is6 ip); lia).
  unfold ParsePrefix. cbn [app]. rewrite cut_last_app.
  2: { pose proof (decimal_digits bits ltac:(lia)) as Hd. rewrite Forall_forall in Hd. intros Hin%Hd. lia. }
  cbn [mbind option_bind]. rewrite addr_text_roundtrip by done. cbn [mbind option_bind].
  pose proof (bits_text bits Hm) as Hbt. rewrite (decimal_roundtrip bits 63) by lia.
  destruct (decimal bits) as [|c [|c' r]]; cbn [mbind option_bind]; [| |rewrite Hbt; cbn [mbind option_bind]];
    cbv zeta; by replace (bits >? _) with false by lia.
Qed.

