(* ===== verification/Messages.v ===== *)
(** * Handshake messages

    The message structs of src/wireguard-go/device/noise-protocol.go and their
    wire format. Arrays are lists whose length the predicates [*_typed] fix, as
    the Go types do. [marshal] returns the buffer it was given, overwritten. *)

From stdpp Require Import base numbers list.
From S2P Require Import Prelude Crypto Tai64n.

Open Scope Z_scope.

Definition NoisePublicKeySize : nat := 32.

Definition NoisePrivateKeySize : nat := 32.

Definition NoisePresharedKeySize : nat := 32.

Definition NonceSize : nat := 12.

Definition NonceSizeX : nat := 24.

Definition KeySize : nat := 32.

Definition MessageInitiationType : Z := 1.

Definition MessageResponseType : Z := 2.

Definition MessageCookieReplyType : Z := 3.

Definition MessageTransportType : Z := 4.

Definition MessageInitiationSize : nat := 148.

Definition MessageResponseSize : nat := 92.

Definition MessageCookieReplySize : nat := 64.

Definition MessageTransportHeaderSize : nat := 16.

Definition MessageTransportSize : nat := MessageTransportHeaderSize + TagSize.

Definition MessageKeepaliveSize : nat := MessageTransportSize.

Definition MessageHandshakeSize : nat := MessageInitiationSize.

Definition MessageTransportOffsetReceiver : nat := 4.

Definition MessageTransportOffsetCounter : nat := 8.

Definition MessageTransportOffsetContent : nat := 16.

Module Initiation.

Record MessageInitiation := mk {
  Type_ : Z;
  Sender : Z;
  Ephemeral : list Z;
  Static : list Z;
  Timestamp : list Z;
  MAC1 : list Z;
  MAC2 : list Z
}.

Definition typed (m : MessageInitiation) : Prop :=
  is_u32 (Type_ m) /\ is_u32 (Sender m) /\
  length (Ephemeral m) = NoisePublicKeySize /\
  length (Static m) = (NoisePublicKeySize + TagSize)%nat /\
  length (Timestamp m) = (TimestampSize + TagSize)%nat /\
  length (MAC1 m) = blake2s_Size128 /\ length (MAC2 m) = blake2s_Size128.

(** The zero value. *)
Definition zero : MessageInitiation :=
  mk 0 0 (zeros NoisePublicKeySize) (zeros (NoisePublicKeySize + TagSize))
    (zeros (TimestampSize + TagSize)) (zeros blake2s_Size128) (zeros blake2s_Size128).

(** [None] is [errMessageLengthMismatch]. *)
Definition unmarshal (msg : MessageInitiation) (b : list Z) : option MessageInitiation :=
  if decide (length b = MessageInitiationSize) then
    t ← le_get 4 b;
    s ← le_get 4 (drop 4 b);
    let lE := length (Ephemeral msg) in
    let lS := length (Static msg) in
    let lT := length (Timestamp msg) in
    let l1 := length (MAC1 msg) in
    Some (mk t s
      (copy (Ephemeral msg) (drop 8 b))
      (copy (Static msg) (drop (8 + lE) b))
      (copy (Timestamp msg) (drop (8 + lE + lS) b))
      (copy (MAC1 msg) (drop (8 + lE + lS + lT) b))
      (copy (MAC2 msg) (drop (8 + lE + lS + lT + l1) b)))
  else None.

Definition marshal (msg : MessageInitiation) (b : list Z) : option (list Z) :=
  if decide (length b = MessageInitiationSize) then
    let lE := length (Ephemeral msg) in
    let lS := length (Static msg) in
    let lT := length (Timestamp msg) in
    let l1 := length (MAC1 msg) in
    let b := copy_at b 0 (le_put 4 (Type_ msg)) in
    let b := copy_at b 4 (le_put 4 (Sender msg)) in
    let b := copy_at b 8 (Ephemeral msg) in
    let b := copy_at b (8 + lE) (Static msg) in
    let b := copy_at b (8 + lE + lS) (Timestamp msg) in
    let b := copy_at b (8 + lE + lS + lT) (MAC1 msg) in
    Some (copy_at b (8 + lE + lS + lT + l1) (MAC2 msg))
  else None.

End Initiation.

Module Response.

Record MessageResponse := mk {
  Type_ : Z;
  Sender : Z;
  Receiver : Z;
  Ephemeral : list Z;
  Empty : list Z;
  MAC1 : list Z;
  MAC2 : list Z
}.

Definition typed (m : MessageResponse) : Prop :=
  is_u32 (Type_ m) /\ is_u32 (Sender m) /\ is_u32 (Receiver m) /\
  length (Ephemeral m) = NoisePublicKeySize /\ length (Empty m) = TagSize /\
  length (MAC1 m) = blake2s_Size128 /\ length (MAC2 m) = blake2s_Size128.

Definition zero : MessageResponse :=
  mk 0 0 0 (zeros NoisePublicKeySize) (zeros TagSize) (zeros blake2s_Size128)
    (zeros blake2s_Size128).

Definition unmarshal (msg : MessageResponse) (b : list Z) : option MessageResponse :=
  if decide (length b = MessageResponseSize) then
    t ← le_get 4 b;
    s ← le_get 4 (drop 4 b);
    r ← le_get 4 (drop 8 b);
    let lE := length (Ephemeral msg) in
    let lM := length (Empty msg) in
    let l1 := length (MAC1 msg) in
    Some (mk t s r
      (copy (Ephemeral msg) (drop 12 b))
      (copy (Empty msg) (drop (12 + lE) b))
      (copy (MAC1 msg) (drop (12 + lE + lM) b))
      (copy (MAC2 msg) (drop (12 + lE + lM + l1) b)))
  else None.

Definition marshal (msg : MessageResponse) (b : list Z) : option (list Z) :=
  if decide (length b = MessageResponseSize) then
    let lE := length (Ephemeral msg) in
    let lM := length (Empty msg) in
    let l1 := length (MAC1 msg) in
    let b := copy_at b 0 (le_put 4 (Type_ msg)) in
    let b := copy_at b 4 (le_put 4 (Sender msg)) in
    let b := copy_at b 8 (le_put 4 (Receiver msg)) in
    let b := copy_at b 12 (Ephemeral msg) in
    let b := copy_at b (12 + lE) (Empty msg) in
    let b := copy_at b (12 + lE + lM) (MAC1 msg) in
    Some (copy_at b (12 + lE + lM + l1) (MAC2 msg))
  else None.

End Response.

Module CookieReply.

Record MessageCookieReply := mk {
  Type_ : Z;
  Receiver : Z;
  Nonce : list Z;
  Cookie : list Z
}.

Definition typed (m : MessageCookieReply) : Prop :=
  is_u32 (Type_ m) /\ is_u32 (Receiver m) /\ length (Nonce m) = NonceSizeX /\
  length (Cookie m) = (blake2s_Size128 + TagSize)%nat.

Definition zero : MessageCookieReply :=
  mk 0 0 (zeros NonceSizeX) (zeros (blake2s_Size128 + TagSize)).

Definition unmarshal (msg : MessageCookieReply) (b : list Z) : option MessageCookieReply :=
  if decide (length b = MessageCookieReplySize) then
    t ← le_get 4 b;
    r ← le_get 4 (drop 4 b);
    Some (mk t r
      (copy (Nonce msg) (drop 8 b))
      (copy (Cookie msg) (drop (8 + length (Nonce msg)) b)))
  else None.

Definition marshal (msg : MessageCookieReply) (b : list Z) : option (list Z) :=
  if decide (length b = MessageCookieReplySize) then
    let b := copy_at b 0 (le_put 4 (Type_ msg)) in
    let b := copy_at b 4 (le_put 4 (Receiver msg)) in
    let b := copy_at b 8 (Nonce msg) in
    Some (copy_at b (8 + length (Nonce msg)) (Cookie msg))
  else None.

End CookieReply.

(** ** Lemmas *)

(** Filling a buffer with consecutive fields. *)
Fixpoint put_fields (b : list Z) (off : nat) (fs : list (list Z)) : list Z :=
  match fs with
  | [] => b
  | f :: fs => put_fields (copy_at b off f) (off + length f) fs
  end.

Lemma put_fields_app pre rest fs :
  (length (concat fs) <= length rest)%nat ->
  put_fields (pre ++ rest) (length pre) fs = pre ++ concat fs ++ drop (length (concat fs)) rest.
Proof.
  revert pre rest. induction fs as [|f fs IH]; intros pre rest Hl; [done|].
  cbn [put_fields concat] in *. rewrite length_app in Hl.
  replace rest with (take (length f) rest ++ drop (length f) rest) at 1 by apply take_drop.
  rewrite copy_at_mid by (rewrite length_take; lia).
  rewrite app_assoc, <- length_app, IH by (rewrite length_drop; lia).
  rewrite drop_drop, length_app, <- !app_assoc. done.
Qed.

Lemma put_fields_full b fs :
  length (concat fs) = length b -> put_fields b 0 fs = concat fs.
Proof.
  intros Hl. pose proof (put_fields_app [] b fs ltac:(lia)) as H. cbn [app length] in H.
  rewrite H, drop_ge by lia. apply app_nil_r.
Qed.

(** Reading a field back. *)
Lemma copy_prefix dst src rest :
  length dst = length src -> copy dst (src ++ rest) = src.
Proof.
  intros H. unfold copy. rewrite take_app_le by lia. rewrite take_ge by lia.
  rewrite drop_ge by (rewrite length_app; lia). apply app_nil_r.
Qed.

Lemma drop_field (a b : list Z) n : n = length a -> drop n (a ++ b) = b.
Proof. intros ->. apply drop_app_length. Qed.

Lemma le_get_field x rest : is_u32 x -> le_get 4 (le_put 4 x ++ rest) = Some x.
Proof. intros. by apply le_get_app. Qed.

(** The wire format of each message. *)
Lemma marshal_initiation msg b :
  Initiation.typed msg -> length b = MessageInitiationSize ->
  Initiation.marshal msg b =
    Some (le_put 4 (Initiation.Type_ msg) ++ le_put 4 (Initiation.Sender msg) ++
      Initiation.Ephemeral msg ++ Initiation.Static msg ++ Initiation.Timestamp msg ++
      Initiation.MAC1 msg ++ Initiation.MAC2 msg).
Proof.
  intros (_ & _ & HE & HS & HT & H1 & H2) Hb. unfold Initiation.marshal. rewrite decide_True by done.
  pose proof (put_fields_full b [le_put 4 (Initiation.Type_ msg); le_put 4 (Initiation.Sender msg);
    Initiation.Ephemeral msg; Initiation.Static msg; Initiation.Timestamp msg;
    Initiation.MAC1 msg; Initiation.MAC2 msg]) as Hp.
  cbn [concat] in Hp. rewrite app_nil_r in Hp. rewrite <- Hp.
  - cbn [put_fields]. rewrite !length_le_put. done.
  - rewrite !length_app, !length_le_put, HE, HS, HT, H1, H2, Hb. done.
Qed.

Lemma marshal_response msg b :
  Response.typed msg -> length b = MessageResponseSize ->
  Response.marshal msg b =
    Some (le_put 4 (Response.Type_ msg) ++ le_put 4 (Response.Sender msg) ++
      le_put 4 (Response.Receiver msg) ++ Response.Ephemeral msg ++ Response.Empty msg ++
      Response.MAC1 msg ++ Response.MAC2 msg).
Proof.
  intros (_ & _ & _ & HE & HM & H1 & H2) Hb. unfold Response.marshal. rewrite decide_True by done.
  pose proof (put_fields_full b [le_put 4 (Response.Type_ msg); le_put 4 (Response.Sender msg);
    le_put 4 (Response.Receiver msg); Response.Ephemeral msg; Response.Empty msg;
    Response.MAC1 msg; Response.MAC2 msg]) as Hp.
  cbn [concat] in Hp. rewrite app_nil_r in Hp. rewrite <- Hp.
  - cbn [put_fields]. rewrite !length_le_put. done.
  - rewrite !length_app, !length_le_put, HE, HM, H1, H2, Hb. done.
Qed.

Lemma marshal_cookie_reply msg b :
  CookieReply.typed msg -> length b = MessageCookieReplySize ->
  CookieReply.marshal msg b =
    Some (le_put 4 (CookieReply.Type_ msg) ++ le_put 4 (CookieReply.Receiver msg) ++
      CookieReply.Nonce msg ++ CookieReply.Cookie msg).
Proof.
  intros (_ & _ & HN & HC) Hb. unfold CookieReply.marshal. rewrite decide_True by done.
  pose proof (put_fields_full b [le_put 4 (CookieReply.Type_ msg); le_put 4 (CookieReply.Receiver msg);
    CookieReply.Nonce msg; CookieReply.Cookie msg]) as Hp.
  cbn [concat] in Hp. rewrite app_nil_r in Hp. rewrite <- Hp.
  - cbn [put_fields]. rewrite !length_le_put. done.
  - rewrite !length_app, !length_le_put, HN, HC, Hb. done.
Qed.

Lemma drop_fields (fs : list (list Z)) i n :
  n = length (concat (take i fs)) -> drop n (concat fs) = concat (drop i fs).
Proof.
  intros ->. rewrite <- (take_drop i fs) at 2. rewrite concat_app. apply drop_app_length.
Qed.

(** Offsets of fields, from the lengths the types fix. *)
Ltac field_offset :=
  match goal with |- context [take _ ?fs] => unfold fs end;
  cbn [take concat app]; rewrite ?length_app, ?length_le_put, ?app_nil_r; cbn [length]; lia.

Lemma unmarshal_initiation msg0 msg b :
  Initiation.typed msg0 -> Initiation.typed msg -> length b = MessageInitiationSize ->
  (c ← Initiation.marshal msg b; Initiation.unmarshal msg0 c) = Some msg.
Proof.
  intros (_ & _ & HE0 & HS0 & HT0 & H10 & H20) Ht Hb. rewrite marshal_initiation by done.
  destruct Ht as (Ty & Tu & HE & HS & HT & H1 & H2). cbn [mbind option_bind].
  set (fs := [le_put 4 (Initiation.Type_ msg); le_put 4 (Initiation.Sender msg);
    Initiation.Ephemeral msg; Initiation.Static msg; Initiation.Timestamp msg;
    Initiation.MAC1 msg; Initiation.MAC2 msg]).
  assert (Hfs : concat fs = le_put 4 (Initiation.Type_ msg) ++ le_put 4 (Initiation.Sender msg) ++
      Initiation.Ephemeral msg ++ Initiation.Static msg ++ Initiation.Timestamp msg ++
      Initiation.MAC1 msg ++ Initiation.MAC2 msg) by (cbn [fs concat]; by rewrite app_nil_r).
  rewrite <- Hfs. unfold Initiation.unmarshal.
  rewrite decide_True by (rewrite Hfs, !length_app, !length_le_put, HE, HS, HT, H1, H2; done).
  rewrite HE0, HS0, HT0, H10. unfold NoisePublicKeySize, TagSize, TimestampSize, blake2s_Size128 in *.
  rewrite (drop_fields fs 1 4), (drop_fields fs 2 8), (drop_fields fs 3 (8 + 32)),
    (drop_fields fs 4 (8 + 32 + (32 + 16))), (drop_fields fs 5 (8 + 32 + (32 + 16) + (12 + 16))),
    (drop_fields fs 6 (8 + 32 + (32 + 16) + (12 + 16) + 16)) by field_offset.
  unfold fs. cbn [drop concat]. rewrite !le_get_field by done. cbn [mbind option_bind].
  rewrite !copy_prefix by congruence. by destruct msg.
Qed.

Lemma unmarshal_response msg0 msg b :
  Response.typed msg0 -> Response.typed msg -> length b = MessageResponseSize ->
  (c ← Response.marshal msg b; Response.unmarshal msg0 c) = Some msg.
Proof.
  intros (_ & _ & _ & HE0 & HM0 & H10 & H20) Ht Hb. rewrite marshal_response by done.
  destruct Ht as (Ty & Tu & Tr & HE & HM & H1 & H2). cbn [mbind option_bind].
  set (fs := [le_put 4 (Response.Type_ msg); le_put 4 (Response.Sender msg);
    le_put 4 (Response.Receiver msg); Response.Ephemeral msg; Response.Empty msg;
    Response.MAC1 msg; Response.MAC2 msg]).
  assert (Hfs : concat fs = le_put 4 (Response.Type_ msg) ++ le_put 4 (Response.Sender msg) ++
      le_put 4 (Response.Receiver msg) ++ Response.Ephemeral msg ++ Response.Empty msg ++
      Response.MAC1 msg ++ Response.MAC2 msg) by (cbn [fs concat]; by rewrite app_nil_r).
  rewrite <- Hfs. unfold Response.unmarshal.
  rewrite decide_True by (rewrite Hfs, !length_app, !length_le_put, HE, HM, H1, H2; done).
  rewrite HE0, HM0, H10. unfold NoisePublicKeySize, TagSize, blake2s_Size128 in *.
  rewrite (drop_fields fs 1 4), (drop_fields fs 2 8), (drop_fields fs 3 12),
    (drop_fields fs 4 (12 + 32)), (drop_fields fs 5 (12 + 32 + 16)),
    (drop_fields fs 6 (12 + 32 + 16 + 16)) by field_offset.
  unfold fs. cbn [drop concat]. rewrite !le_get_field by done. cbn [mbind option_bind].
  rewrite !copy_prefix by congruence. by destruct msg.
Qed.

Lemma unmarshal_cookie_reply msg0 msg b :
  CookieReply.typed msg0 -> CookieReply.typed msg -> length b = MessageCookieReplySize ->
  (c ← CookieReply.marshal msg b; CookieReply.unmarshal msg0 c) = Some msg.
Proof.
  intros (_ & _ & HN0 & HC0) Ht Hb. rewrite marshal_cookie_reply by done.
  destruct Ht as (Ty & Tr & HN & HC). cbn [mbind option_bind].
  set (fs := [le_put 4 (CookieReply.Type_ msg); le_put 4 (CookieReply.Receiver msg);
    CookieReply.Nonce msg; CookieReply.Cookie msg]).
  assert (Hfs : concat fs = le_put 4 (CookieReply.Type_ msg) ++ le_put 4 (CookieReply.Receiver msg) ++
      CookieReply.Nonce msg ++ CookieReply.Cookie msg) by (cbn [fs concat]; by rewrite app_nil_r).
  rewrite <- Hfs. unfold CookieReply.unmarshal.
  rewrite decide_True by (rewrite Hfs, !length_app, !length_le_put, HN, HC; done).
  rewrite HN0. unfold NonceSizeX, TagSize, blake2s_Size128 in *.
  rewrite (drop_fields fs 1 4), (drop_fields fs 2 8), (drop_fields fs 3 (8 + 24)) by field_offset.
  unfold fs. cbn [drop concat]. rewrite !le_get_field by done. cbn [mbind option_bind].
  rewrite !copy_prefix by congruence. by destruct msg.
Qed.

(** The other direction, for bytes that arrived from the network. *)
Lemma le_get_put b x : is_bytes b -> le_get 4 b = Some x -> le_put 4 x = take 4 b /\ is_u32 x.
Proof.
  unfold le_get. case_decide; [|done]. intros Hb [= <-].
  assert (Hl : length (take 4 b) = 4%nat) by (rewrite length_take; lia).
  assert (Hbt : is_bytes (take 4 b)) by by apply Forall_take.
  split.
  - rewrite <- Hl at 1. by apply le_put_uint.
  - pose proof (le_uint_bound _ Hbt) as Hbd. unfold zlen in Hbd. rewrite Hl in Hbd. exact Hbd.
Qed.

Lemma copy_read dst b : (length dst <= length b)%nat -> copy dst b = take (length dst) b.
Proof. intros H. unfold copy. rewrite drop_ge by lia. apply app_nil_r. Qed.

Ltac split_buffer :=
  repeat match goal with
  | |- context [copy ?d (drop ?n ?b)] =>
      rewrite (copy_read d (drop n b)) by (rewrite length_drop; lia)
  end.

Lemma take_drop_split (b : list Z) n m k : k = (n + m)%nat -> take m (drop n b) ++ drop k b = drop n b.
Proof. intros ->. rewrite <- drop_drop. apply take_drop. Qed.

Lemma remarshal_initiation msg0 msg b :
  Initiation.typed msg0 -> is_bytes b -> Initiation.unmarshal msg0 b = Some msg ->
  Initiation.typed msg /\ Initiation.marshal msg b = Some b.
Proof.
  intros (_ & _ & HE0 & HS0 & HT0 & H10 & H20) Hb. unfold Initiation.unmarshal.
  case_decide as Hl; [|done]. unfold MessageInitiationSize in Hl.
  destruct (le_get 4 b) as [t|] eqn:Et; [|done]. destruct (le_get 4 (drop 4 b)) as [s|] eqn:Es; [|done].
  cbn [mbind option_bind]. intros [= <-].
  destruct (le_get_put _ _ Hb Et) as [Ht Ut]. destruct (le_get_put (drop 4 b) _ ltac:(by apply Forall_drop) Es) as [Hs Us].
  unfold NoisePublicKeySize, TagSize, TimestampSize, blake2s_Size128 in *. rewrite HE0, HS0, HT0, H10.
  assert (Htyped : Initiation.typed (Initiation.mk t s (copy (Initiation.Ephemeral msg0) (drop 8 b))
    (copy (Initiation.Static msg0) (drop (8 + 32) b)) (copy (Initiation.Timestamp msg0) (drop (8 + 32 + (32 + 16)) b))
    (copy (Initiation.MAC1 msg0) (drop (8 + 32 + (32 + 16) + (12 + 16)) b))
    (copy (Initiation.MAC2 msg0) (drop (8 + 32 + (32 + 16) + (12 + 16) + 16) b)))).
  { unfold Initiation.typed. cbn. by rewrite !length_copy. }
  split; [done|]. rewrite marshal_initiation by done. f_equal. cbn [Initiation.Type_ Initiation.Sender
    Initiation.Ephemeral Initiation.Static Initiation.Timestamp Initiation.MAC1 Initiation.MAC2].
  split_buffer. rewrite HE0, HS0, HT0, H10, H20, Ht, Hs.
  rewrite (take_ge (drop (8 + 32 + (32 + 16) + (12 + 16) + 16) b)) by (rewrite length_drop; lia).
  rewrite !take_drop_split by lia. apply take_drop.
Qed.

Lemma remarshal_response msg0 msg b :
  Response.typed msg0 -> is_bytes b -> Response.unmarshal msg0 b = Some msg ->
  Response.typed msg /\ Response.marshal msg b = Some b.
Proof.
  intros (_ & _ & _ & HE0 & HM0 & H10 & H20) Hb. unfold Response.unmarshal.
  case_decide as Hl; [|done]. unfold MessageResponseSize in Hl.
  destruct (le_get 4 b) as [t|] eqn:Et; [|done]. destruct (le_get 4 (drop 4 b)) as [s|] eqn:Es; [|done].
  destruct (le_get 4 (drop 8 b)) as [r|] eqn:Er; [|done]. cbn [mbind option_bind]. intros [= <-].
  destruct (le_get_put _ _ Hb Et) as [Ht Ut]. destruct (le_get_put (drop 4 b) _ ltac:(by apply Forall_drop) Es) as [Hs Us].
  destruct (le_get_put (drop 8 b) _ ltac:(by apply Forall_drop) Er) as [Hr Ur].
  unfold NoisePublicKeySize, TagSize, blake2s_Size128 in *. rewrite HE0, HM0, H10.
  assert (Htyped : Response.typed (Response.mk t s r (copy (Response.Ephemeral msg0) (drop 12 b))
    (copy (Response.Empty msg0) (drop (12 + 32) b)) (copy (Response.MAC1 msg0) (drop (12 + 32 + 16) b))
    (copy (Response.MAC2 msg0) (drop (12 + 32 + 16 + 16) b)))).
  { unfold Response.typed. cbn. by rewrite !length_copy. }
  split; [done|]. rewrite marshal_response by done. f_equal. cbn [Response.Type_ Response.Sender
    Response.Receiver Response.Ephemeral Response.Empty Response.MAC1 Response.MAC2].
  split_buffer. rewrite HE0, HM0, H10, H20, Ht, Hs, Hr.
  rewrite (take_ge (drop (12 + 32 + 16 + 16) b)) by (rewrite length_drop; lia).
  rewrite !take_drop_split by lia. apply take_drop.
Qed.

Lemma remarshal_cookie_reply msg0 msg b :
  CookieReply.typed msg0 -> is_bytes b -> CookieReply.unmarshal msg0 b = Some msg ->
  CookieReply.typed msg /\ CookieReply.marshal msg b = Some b.
Proof.
  intros (_ & _ & HN0 & HC0) Hb. unfold CookieReply.unmarshal.
  case_decide as Hl; [|done]. unfold MessageCookieReplySize in Hl.
  destruct (le_get 4 b) as [t|] eqn:Et; [|done]. destruct (le_get 4 (drop 4 b)) as [r|] eqn:Er; [|done].
  cbn [mbind option_bind]. intros [= <-].
  destruct (le_get_put _ _ Hb Et) as [Ht Ut]. destruct (le_get_put (drop 4 b) _ ltac:(by apply Forall_drop) Er) as [Hr Ur].
  unfold NonceSizeX, TagSize, blake2s_Size128 in *. rewrite HN0.
  assert (Htyped : CookieReply.typed (CookieReply.mk t r (copy (CookieReply.Nonce msg0) (drop 8 b))
    (copy (CookieReply.Cookie msg0) (drop (8 + 24) b)))).
  { unfold CookieReply.typed. cbn. by rewrite !length_copy. }
  split; [done|]. rewrite marshal_cookie_reply by done. f_equal. cbn [CookieReply.Type_
    CookieReply.Receiver CookieReply.Nonce CookieReply.Cookie].
  split_buffer. rewrite HN0, HC0, Ht, Hr.
  rewrite (take_ge (drop (8 + 24) b)) by (rewrite length_drop; lia).
  rewrite !take_drop_split by lia. apply take_drop.
Qed.

(** [unmarshal] after [marshal] gives the message back, for each handshake
    message, whatever the buffer and the struct held before. *)
Theorem marshal_unmarshal :
  (forall msg0 msg b, Initiation.typed msg0 -> Initiation.typed msg ->
     length b = MessageInitiationSize ->
     (c ← Initiation.marshal msg b; Initiation.unmarshal msg0 c) = Some msg) /\
  (forall msg0 msg b, Response.typed msg0 -> Response.typed msg ->
     length b = MessageResponseSize ->
     (c ← Response.marshal msg b; Response.unmarshal msg0 c) = Some msg) /\
  (forall msg0 msg b, CookieReply.typed msg0 -> CookieReply.typed msg ->
     length b = MessageCookieReplySize ->
     (c ← CookieReply.marshal msg b; CookieReply.unmarshal msg0 c) = Some msg).
Proof.
  split_and!; [apply unmarshal_initiation|apply unmarshal_response|apply unmarshal_cookie_reply].
Qed.

(** A packet that [unmarshal] accepts is well typed and marshals back to
    the same bytes; packets of any other length are refused. *)
Theorem unmarshal_marshal b :
  is_bytes b ->
  (forall msg0, Initiation.typed msg0 ->
     match Initiation.unmarshal msg0 b with
     | Some msg => Initiation.typed msg /\ Initiation.marshal msg b = Some b
     | None => length b <> MessageInitiationSize end) /\
  (forall msg0, Response.typed msg0 ->
     match Response.unmarshal msg0 b with
     | Some msg => Response.typed msg /\ Response.marshal msg b = Some b
     | None => length b <> MessageResponseSize end) /\
  (forall msg0, CookieReply.typed msg0 ->
     match CookieReply.unmarshal msg0 b with
     | Some msg => CookieReply.typed msg /\ CookieReply.marshal msg b = Some b
     | None => length b <> MessageCookieReplySize end).
Proof.
  intros Hb. split_and!; intros msg0 H0.
  - destruct (Initiation.unmarshal msg0 b) as [msg|] eqn:E; [by eapply remarshal_initiation|].
    intros Hl. unfold Initiation.unmarshal, le_get in E. rewrite decide_True in E by done.
    unfold MessageInitiationSize in Hl. rewrite !decide_True in E by (rewrite ?length_drop; lia). done.
  - destruct (Response.unmarshal msg0 b) as [msg|] eqn:E; [by eapply remarshal_response|].
    intros Hl. unfold Response.unmarshal, le_get in E. rewrite decide_True in E by done.
    unfold MessageResponseSize in Hl. rewrite !decide_True in E by (rewrite ?length_drop; lia). done.
  - destruct (CookieReply.unmarshal msg0 b) as [msg|] eqn:E; [by eapply remarshal_cookie_reply|].
    intros Hl. unfold CookieReply.unmarshal, le_get in E. rewrite decide_True in E by done.
    unfold MessageCookieReplySize in Hl. rewrite !decide_True in E by (rewrite ?length_drop; lia). done.
Qed.

