(* ===== verification/Env.v ===== *)
(** * State, panics and the environment

    The monad of the stateful components: a step takes a state and either
    panics ([None]) or returns a value and the next state. [Env] is what the
    code reads from outside: the clock and the random source. *)

From stdpp Require Import base numbers list.
From S2P Require Import Prelude Setters.

Open Scope Z_scope.

(** ** The monad *)

Definition ST (S A : Type) : Type := S -> option (A * S).

#[export] Instance ST_ret S : MRet (ST S) := fun A a s => Some (a, s).

#[export] Instance ST_bind S : MBind (ST S) := fun A B k m s =>
  match m s with
  | Some (a, s') => k a s'
  | None => None
  end.

(** A run-time panic. *)
Definition panic {S A} : ST S A := fun _ => None.

Definition get {S} : ST S S := fun s => Some (s, s).

Definition put {S} (s : S) : ST S unit := fun _ => Some (tt, s).

Definition gets {S A} (f : S -> A) : ST S A := fun s => Some (f s, s).

Definition modify {S} (f : S -> S) : ST S unit := fun s => Some (tt, f s).

(** A value that may be a nil pointer or an index out of range. *)
Definition deref {S A} (o : option A) : ST S A := fun s =>
  match o with Some a => Some (a, s) | None => None end.

Definition when {S} (b : bool) (m : ST S unit) : ST S unit := if b then m else mret tt.

(** [for _, x := range l { m }] *)
Fixpoint for_each {S A} (l : list A) (m : A -> ST S unit) : ST S unit :=
  match l with
  | [] => mret tt
  | x :: l => m x;; for_each l m
  end.

(** ** The environment *)

(** [ticks] is how far the clock moves before each reading of [time.Now];
    [rands] what successive calls of [rand.Read] deliver. *)
Record Env := mkEnv {
  clock : Z;
  ticks : list Z;
  rands : list (list Z)
}.

#[export] Instance eta_Env : Settable Env := fun r => mkEnv (clock r) (ticks r) (rands r).

(** [time.Now()], in nanoseconds since the zero time. *)
Definition now : ST Env Z := fun e =>
  let t := clock e + Z.max 0 (default 0 (head (ticks e))) in
  Some (t, e <| clock := t |> <| ticks := tail (ticks e) |>).

(** [time.Time.Sub] saturates to the range of [time.Duration]. *)
Definition Sub (a b : Z) : Z := Z.max (- 2 ^ 63) (Z.min (2 ^ 63 - 1) (a - b)).

(** [time.Since(t)] *)
Definition Since (t : Z) : ST Env Z := n ← now; mret (Sub n t).

(** [rand.Read(b)]: overwrites [b] with what the source delivers and reports
    an error when that is less than [len(b)]. *)
Definition rand_Read (b : list Z) : ST Env (list Z * bool) := fun e =>
  let r := default [] (head (rands e)) in
  Some ((copy b r, bool_decide (length r = length b)), e <| rands := tail (rands e) |>).

(** Durations, in nanoseconds. *)
Definition Second : Z := 1000000000.

Definition Millisecond : Z := 1000000.

(** ** Lemmas *)

Lemma bind_ret_l {S A B} (a : A) (k : A -> ST S B) s : (mret a ≫= k) s = k a s.
Proof. done. Qed.

Lemma bind_run {S A B} (m : ST S A) (k : A -> ST S B) s a s' :
  m s = Some (a, s') -> (m ≫= k) s = k a s'.
Proof. intros H. unfold mbind, ST_bind. by rewrite H. Qed.

Lemma bind_inv {S A B} (m : ST S A) (k : A -> ST S B) s r :
  (m ≫= k) s = Some r -> exists a s', m s = Some (a, s') /\ k a s' = Some r.
Proof. unfold mbind, ST_bind. destruct (m s) as [[a s']|]; [eauto|done]. Qed.

Lemma bind_eq {S A B} (m : ST S A) (k : A -> ST S B) s :
  (m ≫= k) s = match m s with Some (a, s') => k a s' | None => None end.
Proof. done. Qed.

Lemma deref_inv {S A} (o : option A) (s : S) a s' : deref o s = Some (a, s') -> o = Some a /\ s' = s.
Proof. destruct o; [|done]. by intros [= <- <-]. Qed.

Lemma bind_assoc {S A B C} (m : ST S A) (f : A -> ST S B) (g : B -> ST S C) s :
  ((m ≫= f) ≫= g) s = (m ≫= fun a => f a ≫= g) s.
Proof. unfold mbind, ST_bind. by destruct (m s) as [[a s']|]. Qed.

Lemma bind_ret_r {S A} (m : ST S A) s : (m ≫= mret) s = m s.
Proof. unfold mbind, ST_bind. by destruct (m s) as [[a s']|]. Qed.

(** What the next reading of the clock will be, and the environment after it. *)
Definition next_now (e : Env) : Z := clock e + Z.max 0 (default 0 (head (ticks e))).

Definition tick (e : Env) : Env := e <| clock := next_now e |> <| ticks := tail (ticks e) |>.

Lemma now_eq e : now e = Some (next_now e, tick e).
Proof. done. Qed.

Lemma Since_eq t e : Since t e = Some (Sub (next_now e) t, tick e).
Proof. done. Qed.

Lemma deref_eq {S A} (a : A) (s : S) : deref (Some a) s = Some (a, s).
Proof. done. Qed.

Lemma ret_eq {S A} (a : A) (s : S) : (mret a : ST S A) s = Some (a, s).
Proof. done. Qed.

Lemma get_eq {S} (s : S) : get s = Some (s, s).
Proof. done. Qed.

Lemma gets_eq {S A} (f : S -> A) (s : S) : gets f s = Some (f s, s).
Proof. done. Qed.

Lemma modify_eq {S} (f : S -> S) (s : S) : modify f s = Some (tt, f s).
Proof. done. Qed.

Create Rewrite HintDb st.

#[export] Hint Rewrite @bind_eq now_eq Since_eq @deref_eq @ret_eq @get_eq @gets_eq @modify_eq : st.

(** One step of symbolic execution. *)
Ltac st := autorewrite with st; cbv beta iota.

Lemma next_now_ge e : clock e <= next_now e.
Proof. unfold next_now. lia. Qed.

Lemma Sub_small a b : 0 <= a - b < 2 ^ 63 -> Sub a b = a - b.
Proof. unfold Sub. lia. Qed.

Lemma Sub_mono a b t : a <= b -> Sub a t <= Sub b t.
Proof. unfold Sub. lia. Qed.

(** In [H : (deref o ≫= k) s = Some r], names the value of [o]. *)
Ltac deref_step H x E :=
  apply bind_inv in H as (x & ? & E & H); apply deref_inv in E as [E ->].

(** ** Relations that every step respects *)

(** [pres R m]: a run of [m] takes a state to an [R]-related one. *)
Definition pres {S A} (R : S -> S -> Prop) (m : ST S A) : Prop :=
  forall s a s', m s = Some (a, s') -> R s s'.

Section pres.
Context {S : Type} (R : S -> S -> Prop) `{!PreOrder R}.

Lemma pres_ret {A} (a : A) : pres R (mret a).
Proof. intros s x s' [= <- <-]. reflexivity. Qed.

Lemma pres_bind {A B} (m : ST S A) (k : A -> ST S B) :
  pres R m -> (forall a, pres R (k a)) -> pres R (m ≫= k).
Proof. intros Hm Hk s b s' (a & s1 & H1 & H2)%bind_inv. etrans; [by eapply Hm|by eapply Hk]. Qed.

Lemma pres_panic {A} : pres R (panic : ST S A).
Proof. done. Qed.

Lemma pres_get : pres R get.
Proof. intros s x s' [= <- <-]. reflexivity. Qed.

Lemma pres_gets {A} (f : S -> A) : pres R (gets f).
Proof. intros s x s' [= <- <-]. reflexivity. Qed.

Lemma pres_deref {A} (o : option A) : pres R (deref o).
Proof. destruct o; intros s x s' [=]; subst; reflexivity. Qed.

Lemma pres_modify f : (forall s, R s (f s)) -> pres R (modify f).
Proof. intros Hf s x s' [= <- <-]. apply Hf. Qed.

Lemma pres_when b m : pres R m -> pres R (when b m).
Proof. destruct b; [done|]. intros _. apply pres_ret. Qed.

Lemma pres_for_each {A} (l : list A) (m : A -> ST S unit) :
  (forall x, pres R (m x)) -> pres R (for_each l m).
Proof.
  intros Hm. induction l as [|x l IH]; [apply pres_ret|]. cbn. apply pres_bind; [done|intros _; done].
Qed.

End pres.

Create HintDb pres.

#[export] Hint Resolve pres_ret pres_panic pres_get pres_gets pres_deref : pres.

(** Decomposes a program into its statements and closes the known ones. *)
Ltac pres_step :=
  cbv beta;
  lazymatch goal with
  | |- pres _ (mbind _ _) => apply pres_bind; [| |intros ?]
  | |- pres _ (when _ _) => apply pres_when
  | |- pres _ (for_each _ _) => apply pres_for_each; [|intros ?]
  | |- pres _ (match ?x with _ => _ end) => destruct x
  | |- pres _ (let '_ := ?x in _) => destruct x
  end; try (typeclasses eauto).

Ltac pres := repeat first [solve [eauto with pres typeclass_instances] | pres_step].
