(* ===== verification/Cookie.v ===== *)
(** * Cookies and message authentication codes

    Models src/wireguard-go/device/cookie.go: the checker of a device, the
    generator of a peer, and the exchange between them. *)

From stdpp Require Import base numbers list.
From S2P Require Import Prelude Setters Env Crypto Messages.

Open Scope Z_scope.

Definition CookieRefreshTime : Z := Second * 120.

(** "mac1----" and "cookie--". *)
Definition WGLabelMAC1 : list Z := [109; 97; 99; 49; 45; 45; 45; 45].

Definition WGLabelCookie : list Z := [99; 111; 111; 107; 105; 101; 45; 45].

Record CookieChecker := mkChecker {
  chk_mac1_key : list Z;
  chk_secret : list Z;
  chk_secretSet : Z;
  chk_encryptionKey : list Z
}.

Record CookieGenerator := mkGenerator {
  gen_mac1_key : list Z;
  gen_cookie : list Z;
  gen_cookieSet : Z;
  gen_hasLastMAC1 : bool;
  gen_lastMAC1 : list Z;
  gen_encryptionKey : list Z
}.

#[export] Instance eta_CookieChecker : Settable CookieChecker := fun r =>
  mkChecker (chk_mac1_key r) (chk_secret r) (chk_secretSet r) (chk_encryptionKey r).

#[export] Instance eta_CookieGenerator : Settable CookieGenerator := fun r =>
  mkGenerator (gen_mac1_key r) (gen_cookie r) (gen_cookieSet r) (gen_hasLastMAC1 r)
    (gen_lastMAC1 r) (gen_encryptionKey r).

Definition zero_checker : CookieChecker := mkChecker (zeros 32) (zeros 32) 0 (zeros 32).

Definition zero_generator : CookieGenerator :=
  mkGenerator (zeros 32) (zeros 16) 0 false (zeros 16) (zeros 32).

Section cookie.
Context `{Crypto}.

Definition CookieChecker_Init (st : CookieChecker) (pk : list Z) : CookieChecker :=
  st <| chk_mac1_key := blake2s_256 (WGLabelMAC1 ++ pk) |>
     <| chk_encryptionKey := blake2s_256 (WGLabelCookie ++ pk) |> <| chk_secretSet := 0 |>.

(** [None] is the panic of a packet shorter than the two codes. *)
Definition CheckMAC1 (st : CookieChecker) (msg : list Z) : option bool :=
  let size := zlen msg in
  let smac2 := size - Z.of_nat blake2s_Size128 in
  let smac1 := smac2 - Z.of_nat blake2s_Size128 in
  body ← slice msg 0 smac1;
  let mac1 := blake2s_128 (chk_mac1_key st) body in
  got ← slice msg smac1 smac2;
  Some (bytes_eqb mac1 got).

Definition CheckMAC2 (st : CookieChecker) (msg src : list Z) : ST Env bool :=
  d ← Since (chk_secretSet st);
  if d >? CookieRefreshTime then mret false
  else
    let cookie := blake2s_128 (chk_secret st) src in
    let smac2 := zlen msg - Z.of_nat blake2s_Size128 in
    body ← deref (slice msg 0 smac2);
    let mac2 := blake2s_128 cookie body in
    got ← deref (slice msg smac2 (zlen msg));
    mret (bytes_eqb mac2 got).

(** The secret is renewed when it is older than [CookieRefreshTime]; the
    boolean is false when the random source failed. *)
Definition refresh_secret (st : CookieChecker) : ST Env (CookieChecker * bool) :=
  d ← Since (chk_secretSet st);
  if d >? CookieRefreshTime then
    '(secret, ok) ← rand_Read (chk_secret st);
    let st := st <| chk_secret := secret |> in
    if ok : bool then
      t ← now;
      mret (st <| chk_secretSet := t |>, true)
    else mret (st, false)
  else mret (st, true).

Definition CreateReply (st : CookieChecker) (msg : list Z) (recv : Z) (src : list Z) :
    ST Env (CookieChecker * option CookieReply.MessageCookieReply) :=
  '(st, ok) ← refresh_secret st;
  if ok : bool then
    let cookie := blake2s_128 (chk_secret st) src in
    let size := zlen msg in
    let smac2 := size - Z.of_nat blake2s_Size128 in
    let smac1 := smac2 - Z.of_nat blake2s_Size128 in
    '(nonce, ok) ← rand_Read (zeros NonceSizeX);
    if ok : bool then
      ad ← deref (slice msg smac1 smac2);
      let sealed := SealX (chk_encryptionKey st) nonce cookie ad in
      mret (st, Some (CookieReply.mk MessageCookieReplyType recv nonce sealed))
    else mret (st, None)
  else mret (st, None).

Definition CookieGenerator_Init (st : CookieGenerator) (pk : list Z) : CookieGenerator :=
  st <| gen_mac1_key := blake2s_256 (WGLabelMAC1 ++ pk) |>
     <| gen_encryptionKey := blake2s_256 (WGLabelCookie ++ pk) |> <| gen_cookieSet := 0 |>.

Definition ConsumeReply (st : CookieGenerator) (msg : CookieReply.MessageCookieReply) :
    ST Env (CookieGenerator * bool) :=
  if gen_hasLastMAC1 st then
    match OpenX (gen_encryptionKey st) (CookieReply.Nonce msg) (CookieReply.Cookie msg)
            (gen_lastMAC1 st) with
    | None => mret (st, false)
    | Some cookie =>
        t ← now;
        mret (st <| gen_cookieSet := t |> <| gen_cookie := cookie |>, true)
    end
  else mret (st, false).

Definition AddMacs (st : CookieGenerator) (msg : list Z) :
    ST Env (CookieGenerator * list Z) :=
  let size := zlen msg in
  let smac2 := size - Z.of_nat blake2s_Size128 in
  let smac1 := smac2 - Z.of_nat blake2s_Size128 in
  body ← deref (slice msg 0 smac1);
  let mac1 := blake2s_128 (gen_mac1_key st) body in
  let msg := copy_at msg (Z.to_nat smac1) mac1 in
  let st := st <| gen_lastMAC1 := copy (gen_lastMAC1 st) mac1 |> <| gen_hasLastMAC1 := true |> in
  d ← Since (gen_cookieSet st);
  if d >? CookieRefreshTime then mret (st, msg)
  else
    body ← deref (slice msg 0 smac2);
    let mac2 := blake2s_128 (gen_cookie st) body in
    mret (st, copy_at msg (Z.to_nat smac2) mac2).

End cookie.

(** ** Lemmas *)

(** A packet is a body and two codes. *)
Definition macs_at (msg body mac1 mac2 : list Z) : Prop :=
  msg = body ++ mac1 ++ mac2 /\ length mac1 = blake2s_Size128 /\ length mac2 = blake2s_Size128.

Lemma macs_split msg :
  (32 <= length msg)%nat -> exists body mac1 mac2, macs_at msg body mac1 mac2.
Proof.
  intros Hl. exists (take (length msg - 32) msg), (take 16 (drop (length msg - 32) msg)),
    (drop (length msg - 16) msg). unfold macs_at, blake2s_Size128. split_and!.
  - rewrite <- (take_drop (length msg - 32) msg) at 1. f_equal.
    rewrite <- (take_drop 16 (drop (length msg - 32) msg)) at 1. f_equal. rewrite drop_drop. f_equal. lia.
  - rewrite length_take, length_drop. lia.
  - rewrite length_drop. lia.
Qed.

Lemma slice_range (a b c : list Z) lo hi :
  lo = zlen a -> hi = zlen a + zlen b -> slice (a ++ b ++ c) lo hi = Some b.
Proof.
  intros -> ->. unfold slice, zlen. rewrite decide_True by (rewrite !length_app; lia).
  replace (Z.to_nat (Z.of_nat (length a) + Z.of_nat (length b) - Z.of_nat (length a))) with (length b) by lia.
  rewrite Nat2Z.id, drop_app_length, take_app_length. done.
Qed.

Section facts.
Context (msg body mac1 mac2 : list Z) (Hm : macs_at msg body mac1 mac2).

Lemma macs_len : zlen msg = zlen body + 32.
Proof.
  destruct Hm as (-> & H1 & H2). unfold zlen. rewrite !length_app, H1, H2. unfold blake2s_Size128. lia.
Qed.

Lemma slice_body : slice msg 0 (zlen msg - 16 - 16) = Some body.
Proof.
  rewrite macs_len. destruct Hm as (-> & _). apply (slice_range [] body (mac1 ++ mac2)); unfold zlen; cbn; lia.
Qed.

Lemma slice_mac1 : slice msg (zlen msg - 16 - 16) (zlen msg - 16) = Some mac1.
Proof.
  rewrite macs_len. destruct Hm as (-> & H1 & _). apply slice_range; unfold zlen; rewrite ?H1; unfold blake2s_Size128; lia.
Qed.

Lemma slice_signed : slice msg 0 (zlen msg - 16) = Some (body ++ mac1).
Proof.
  rewrite macs_len. destruct Hm as (-> & H1 & _). rewrite app_assoc.
  apply (slice_range [] (body ++ mac1) mac2); unfold zlen; rewrite ?length_app, ?H1; unfold blake2s_Size128; cbn; lia.
Qed.

Lemma slice_mac2 : slice msg (zlen msg - 16) (zlen msg) = Some mac2.
Proof.
  rewrite macs_len. destruct Hm as (-> & H1 & H2). rewrite app_assoc, <- (app_nil_r mac2) at 1.
  apply slice_range; unfold zlen; rewrite ?length_app, ?H1, ?H2; unfold blake2s_Size128; lia.
Qed.

Lemma put_mac1 m : length m = blake2s_Size128 ->
  copy_at msg (Z.to_nat (zlen msg - 16 - 16)) m = body ++ m ++ mac2.
Proof.
  intros Hl. rewrite macs_len. destruct Hm as (-> & H1 & _).
  replace (Z.to_nat (zlen body + 32 - 16 - 16)) with (length body) by (unfold zlen; lia).
  apply copy_at_mid. congruence.
Qed.

Lemma put_mac2 m : length m = blake2s_Size128 ->
  copy_at msg (Z.to_nat (zlen msg - 16)) m = body ++ mac1 ++ m.
Proof.
  intros Hl. rewrite macs_len. destruct Hm as (-> & H1 & H2).
  replace (Z.to_nat (zlen body + 32 - 16)) with (length (body ++ mac1))
    by (unfold zlen; rewrite length_app, H1; unfold blake2s_Size128; lia).
  rewrite app_assoc, <- (app_nil_r mac2), copy_at_mid by congruence. by rewrite app_nil_r, <- app_assoc.
Qed.

End facts.

Section theorems.
Context `{CryptoLaws}.

(** Both sides derived their keys from one public key. *)
Definition generator_for (pk : list Z) (gen : CookieGenerator) : Prop :=
  gen_mac1_key gen = blake2s_256 (WGLabelMAC1 ++ pk) /\
  gen_encryptionKey gen = blake2s_256 (WGLabelCookie ++ pk) /\
  length (gen_lastMAC1 gen) = blake2s_Size128.

Definition checker_for (pk : list Z) (chk : CookieChecker) : Prop :=
  chk_mac1_key chk = blake2s_256 (WGLabelMAC1 ++ pk) /\
  chk_encryptionKey chk = blake2s_256 (WGLabelCookie ++ pk).

(** [AddMacs] fills in the codes and touches nothing else. *)
Lemma AddMacs_run gen msg body m1 m2 e :
  macs_at msg body m1 m2 -> length (gen_lastMAC1 gen) = blake2s_Size128 ->
  let mac1 := blake2s_128 (gen_mac1_key gen) body in
  let fresh := Sub (next_now e) (gen_cookieSet gen) <=? CookieRefreshTime in
  let mac2 := if fresh then blake2s_128 (gen_cookie gen) (body ++ mac1) else m2 in
  exists e', AddMacs gen msg e =
    Some ((gen <| gen_lastMAC1 := mac1 |> <| gen_hasLastMAC1 := true |>, body ++ mac1 ++ mac2), e').
Proof.
  intros Hm Hl mac1 fresh mac2. unfold AddMacs. change (Z.of_nat blake2s_Size128) with 16.
  cbv zeta. rewrite (slice_body _ _ _ _ Hm). st. fold mac1.
  rewrite (put_mac1 _ _ _ _ Hm) by apply blake2s_128_len.
  assert (Hm' : macs_at (body ++ mac1 ++ m2) body mac1 m2).
  { split_and!; [done|apply blake2s_128_len|apply Hm]. }
  assert (Hz : zlen (body ++ mac1 ++ m2) = zlen msg) by (by rewrite (macs_len _ _ _ _ Hm), (macs_len _ _ _ _ Hm')).
  rewrite (copy_full (gen_lastMAC1 gen) mac1) by (unfold mac1; by rewrite blake2s_128_len).
  subst mac2 fresh. rewrite Z.gtb_ltb. cbn [gen_cookieSet set].
  rewrite Z.ltb_antisym. destruct (Sub (next_now e) (gen_cookieSet gen) <=? CookieRefreshTime); cbn [negb]; cycle 1.
  - eexists. reflexivity.
  - rewrite <- Hz.
    rewrite (slice_signed _ _ _ _ Hm'). st. rewrite (put_mac2 _ _ _ _ Hm') by apply blake2s_128_len.
    eexists. reflexivity.
Qed.

Lemma CheckMAC1_codes chk msg body mac1 mac2 :
  macs_at msg body mac1 mac2 ->
  CheckMAC1 chk msg = Some (bytes_eqb (blake2s_128 (chk_mac1_key chk) body) mac1).
Proof.
  intros Hm. unfold CheckMAC1. change (Z.of_nat blake2s_Size128) with 16. cbv zeta.
  by rewrite (slice_body _ _ _ _ Hm), (slice_mac1 _ _ _ _ Hm).
Qed.

Lemma CheckMAC2_codes chk msg src body mac1 mac2 e :
  macs_at msg body mac1 mac2 -> Sub (next_now e) (chk_secretSet chk) <= CookieRefreshTime ->
  CheckMAC2 chk msg src e =
    Some (bytes_eqb (blake2s_128 (blake2s_128 (chk_secret chk) src) (body ++ mac1)) mac2, tick e).
Proof.
  intros Hm Ht. unfold CheckMAC2. change (Z.of_nat blake2s_Size128) with 16. st. cbv zeta.
  rewrite Z.gtb_ltb, (proj2 (Z.ltb_ge _ _)) by done.
  rewrite (slice_signed _ _ _ _ Hm), (slice_mac2 _ _ _ _ Hm). by st.
Qed.

(** A reply carries the cookie of the source address, sealed for the sender of
    the packet. *)
Lemma CreateReply_inv chk msg recv src body mac1 mac2 e chk' reply e' :
  macs_at msg body mac1 mac2 -> CreateReply chk msg recv src e = Some ((chk', Some reply), e') ->
  chk_mac1_key chk' = chk_mac1_key chk /\ chk_encryptionKey chk' = chk_encryptionKey chk /\
  exists nonce, reply = CookieReply.mk MessageCookieReplyType recv nonce
    (SealX (chk_encryptionKey chk) nonce (blake2s_128 (chk_secret chk') src) mac1).
Proof.
  intros Hm. unfold CreateReply, refresh_secret. change (Z.of_nat blake2s_Size128) with 16. cbv zeta.
  rewrite (slice_mac1 _ _ _ _ Hm).
  intros ((chk1 & ok) & e1 & Href & Hrest)%bind_inv.
  assert (Hkeys : chk_mac1_key chk1 = chk_mac1_key chk /\ chk_encryptionKey chk1 = chk_encryptionKey chk).
  { apply bind_inv in Href as (d & e2 & _ & Href). destruct (d >? CookieRefreshTime).
    - apply bind_inv in Href as ((secret & ok') & e3 & _ & Href). destruct ok'.
      + apply bind_inv in Href as (t & e4 & _ & Href). by injection Href as <- <- <-.
      + by injection Href as <- <- <-.
    - by injection Href as <- <- <-. }
  destruct Hkeys as [Hk1 Hk2]. destruct ok; [|by injection Hrest].
  apply bind_inv in Hrest as ((nonce & ok') & e2 & _ & Hrest). destruct ok'; [|by injection Hrest].
  rewrite bind_eq, deref_eq in Hrest. injection Hrest as <- <- <-. rewrite Hk1, Hk2. eauto.
Qed.

(** Whatever the clock shows, [AddMacs] leaves the body of a packet alone
    and the checker of the same public key accepts its first code. *)
Theorem AddMacs_CheckMAC1 pk gen chk msg e :
  generator_for pk gen -> checker_for pk chk -> (32 <= length msg)%nat ->
  exists gen' msg' e', AddMacs gen msg e = Some ((gen', msg'), e') /\
    length msg' = length msg /\ take (length msg - 32) msg' = take (length msg - 32) msg /\
    CheckMAC1 chk msg' = Some true.
Proof.
  intros (Hk & _ & Hl) (Hc & _) Hlen. destruct (macs_split msg Hlen) as (body & m1 & m2 & Hm).
  destruct (AddMacs_run gen msg body m1 m2 e Hm Hl) as [e' Hrun]. rewrite Hrun.
  destruct Hm as (-> & H1 & H2).
  set (mac1 := blake2s_128 (gen_mac1_key gen) body) in *. set (mac2 := if (_ <=? _) then _ else m2).
  assert (Hm2 : length mac2 = blake2s_Size128).
  { subst mac2. destruct (_ <=? _); [apply blake2s_128_len|done]. }
  assert (Hm1 : length mac1 = blake2s_Size128) by apply blake2s_128_len.
  eexists _, _, _. split; [done|]. unfold blake2s_Size128 in *. rewrite !length_app, H1, H2, Hm1, Hm2.
  replace (length body + (16 + 16) - 32)%nat with (length body) by lia.
  rewrite !take_app_length. split_and!; [done..|].
  rewrite (CheckMAC1_codes chk _ body mac1 mac2) by done.
  subst mac1. by rewrite Hk, Hc, bytes_eqb_refl.
Qed.

(** C28: the cookie exchange works: a reply to a packet with valid codes is
    accepted by its sender, whose next packet, sent while the cookie and the
    checker's secret are fresh, passes both checks for the same source
    address. *)
Theorem cookie_exchange pk gen chk msg recv src e gen1 p e1 d chk' reply d1 e2 :
  generator_for pk gen -> checker_for pk chk -> (32 <= length msg)%nat ->
  AddMacs gen msg e = Some ((gen1, p), e1) ->
  CreateReply chk p recv src d = Some ((chk', Some reply), d1) ->
  exists gen2 e3, ConsumeReply gen1 reply e2 = Some ((gen2, true), e3) /\
    forall msg2 e4 d2, (32 <= length msg2)%nat ->
      Sub (next_now e4) (gen_cookieSet gen2) <= CookieRefreshTime ->
      Sub (next_now d2) (chk_secretSet chk') <= CookieRefreshTime ->
      exists gen3 p2 e5 d3, AddMacs gen2 msg2 e4 = Some ((gen3, p2), e5) /\
        CheckMAC1 chk' p2 = Some true /\ CheckMAC2 chk' p2 src d2 = Some (true, d3).
Proof.
  intros (Hk & Hke & Hl) (Hc & Hce) Hlen Hadd Hcreate.
  destruct (macs_split msg Hlen) as (body & m1 & m2 & Hm).
  destruct (AddMacs_run gen msg body m1 m2 e Hm Hl) as [e' Hrun]. rewrite Hadd in Hrun.
  injection Hrun as -> -> ->. set (mac1 := blake2s_128 (gen_mac1_key gen) body) in *.
  set (mac2 := if (_ <=? _) then _ else m2) in *.
  assert (Hm1 : length mac1 = blake2s_Size128) by apply blake2s_128_len.
  assert (Hp : macs_at (body ++ mac1 ++ mac2) body mac1 mac2).
  { split_and!; [done|done|]. subst mac2. destruct (_ <=? _); [apply blake2s_128_len|apply Hm]. }
  destruct (CreateReply_inv _ _ _ _ _ _ _ _ _ _ _ Hp Hcreate) as (Hk' & Hke' & nonce & ->).
  unfold ConsumeReply. cbn [gen_hasLastMAC1 gen_encryptionKey gen_lastMAC1 set
    CookieReply.Nonce CookieReply.Cookie].
  rewrite Hke, <- Hce, OpenX_SealX. st. eexists _, _. split; [done|].
  intros msg2 e4 d2 Hlen2 Hfresh Hfresh2. cbn [gen_cookieSet set] in Hfresh.
  destruct (macs_split msg2 Hlen2) as (body2 & n1 & n2 & Hm2).
  set (gen2 := set gen_cookie _ _) in *.
  destruct (AddMacs_run gen2 msg2 body2 n1 n2 e4 Hm2 Hm1) as [e5 Hrun2].
  rewrite (proj2 (Z.leb_le _ _)) in Hrun2 by exact Hfresh.
  eexists _, _, e5, _. split; [exact Hrun2|]. subst gen2. cbn [gen_mac1_key gen_cookie set].
  assert (Hp2 : forall a b, macs_at (body2 ++ blake2s_128 (gen_mac1_key gen) body2 ++ blake2s_128 a b)
    body2 (blake2s_128 (gen_mac1_key gen) body2) (blake2s_128 a b))
    by (intros; split_and!; [done|apply blake2s_128_len..]).
  split; [by rewrite (CheckMAC1_codes chk' _ _ _ _ (Hp2 _ _)), Hk', Hc, Hk, bytes_eqb_refl|].
  rewrite (CheckMAC2_codes chk' _ src _ _ _ d2 (Hp2 _ _)) by done. by rewrite bytes_eqb_refl.
Qed.

End theorems.

(** ** Concrete runs *)

(** A minute-old machine with two random reads ahead. *)
Definition demo_env : Env := mkEnv (2 ^ 62) [5; 7] [replicate 32 1; replicate 24 2].

Import Toy.

Definition demo_gen : CookieGenerator := @CookieGenerator_Init Toy.toy_crypto zero_generator (replicate 32 3).

Definition demo_chk : CookieChecker := @CookieChecker_Init Toy.toy_crypto zero_checker (replicate 32 3).

(** The first packet and the reply to it. *)
Definition demo_sent := default ((demo_gen, []), demo_env) (AddMacs demo_gen (zeros 92) demo_env).

Definition demo_replied :=
  default ((demo_chk, None), demo_env) (CreateReply demo_chk demo_sent.1.2 7 [10; 0; 0; 1] demo_env).

Definition demo_reply := default CookieReply.zero demo_replied.1.2.

Lemma cookie_exchange_witness :
  exists gen2 e3, ConsumeReply demo_sent.1.1 demo_reply demo_env = Some ((gen2, true), e3).
Proof.
  destruct (cookie_exchange (replicate 32 3) demo_gen demo_chk (zeros 92) 7 [10; 0; 0; 1] demo_env
    demo_sent.1.1 demo_sent.1.2 demo_sent.2 demo_env demo_replied.1.1 demo_reply demo_replied.2 demo_env)
    as (gen2 & e3 & H & _).
  - split_and!; reflexivity.
  - split; reflexivity.
  - vm_compute. lia.
  - vm_compute. reflexivity.
  - vm_compute. reflexivity.
  - exists gen2, e3. exact H.
Defined.
