(* ===== verification/NoiseTypes.v ===== *)
(** * Keys

    The key types of src/wireguard-go/device/noise-types.go: comparison and
    conversion from hexadecimal text. The boolean of a conversion is whether
    its error is nil. *)

From stdpp Require Import base numbers list.
From S2P Require Import Prelude GoStrings Crypto Messages.

Open Scope Z_scope.

Definition loadExactHex (dst src : list Z) : list Z * bool :=
  match hex_decode src with
  | None => (dst, false)
  | Some slice => if bool_decide (length slice = length dst) then (copy dst slice, true) else (dst, false)
  end.

Definition Equals (key tar : list Z) : bool := bytes_eqb key tar.

Definition IsZero (key : list Z) : bool := Equals key (zeros NoisePrivateKeySize).

(** [None] would be a panic of [clamp]; keys are arrays of 32 bytes. *)
Definition PrivateKey_FromHex (key src : list Z) : option (list Z * bool) :=
  let '(key, ok) := loadExactHex key src in
  key ← clamp key;
  Some (key, ok).

Definition PrivateKey_FromMaybeZeroHex (key src : list Z) : option (list Z * bool) :=
  let '(key, ok) := loadExactHex key src in
  if IsZero key then Some (key, ok)
  else
    key ← clamp key;
    Some (key, ok).

Definition PublicKey_FromHex (key src : list Z) : list Z * bool := loadExactHex key src.

Definition PresharedKey_FromHex (key src : list Z) : list Z * bool := loadExactHex key src.

(** ** Lemmas *)

(** A conversion keeps the length, and succeeds on the printed form of a key. *)
Lemma loadExactHex_len dst src : length (fst (loadExactHex dst src)) = length dst.
Proof.
  unfold loadExactHex. destruct (hex_decode src) as [s|]; [|done]. case_bool_decide; [|done].
  cbn. apply length_copy.
Qed.

Lemma loadExactHex_encode dst key :
  is_bytes key -> length dst = length key -> loadExactHex dst (hex_encode key) = (key, true).
Proof.
  intros Hb Hl. unfold loadExactHex. rewrite hex_roundtrip by done. rewrite bool_decide_true by done.
  f_equal. unfold copy. rewrite Hl, firstn_all2 by done. rewrite drop_ge by lia. apply app_nil_r.
Qed.
