(* ===== verification/DeviceState.v ===== *)
(** * The state of a device

    The structs of src/wireguard-go/device (device.go, peer.go, keypair.go,
    indextable.go, send.go, receive.go) as one state: pointers to peers, key
    pairs and queue containers are addresses in heaps, because several
    structures share them; channels are lists, oldest element first. What the
    device gets from outside is in [Outside]: the environment, the jitter of the
    timers and the results of the calls to the bind and the TUN device, which
    are interfaces here. What the device sends out is the trace [w_out]. *)

From stdpp Require Import base numbers list gmap.
From S2P Require Import Tai64n Replay Ratelimiter AllowedIPs.
From S2P Require Import Prelude Setters Env Crypto Messages Cookie.

Open Scope Z_scope.

Notation PeerPtr := nat (only parsing).
Notation KeypairPtr := nat (only parsing).
Notation ContainerPtr := nat (only parsing).

(** [conn.Endpoint] values are compared by identity only. *)
Notation Endpoint := nat (only parsing).

(** ** Handshakes and key pairs *)

Inductive handshakeState :=
| handshakeZeroed
| handshakeInitiationCreated
| handshakeInitiationConsumed
| handshakeResponseCreated
| handshakeResponseConsumed.

#[export] Instance handshakeState_eq_dec : EqDecision handshakeState.
Proof. solve_decision. Defined.

Record Handshake := mkHandshake {
  hs_state : handshakeState;
  hs_hash : list Z;
  hs_chainKey : list Z;
  hs_presharedKey : list Z;
  hs_localEphemeral : list Z;
  hs_localIndex : Z;
  hs_remoteIndex : Z;
  hs_remoteStatic : list Z;
  hs_remoteEphemeral : list Z;
  hs_precomputedStaticStatic : list Z;
  hs_lastTimestamp : list Z;
  hs_lastInitiationConsumption : Z;
  hs_lastSentHandshake : Z
}.

#[export] Instance eta_Handshake : Settable Handshake := fun r =>
  mkHandshake (hs_state r) (hs_hash r) (hs_chainKey r) (hs_presharedKey r) (hs_localEphemeral r)
    (hs_localIndex r) (hs_remoteIndex r) (hs_remoteStatic r) (hs_remoteEphemeral r)
    (hs_precomputedStaticStatic r) (hs_lastTimestamp r) (hs_lastInitiationConsumption r)
    (hs_lastSentHandshake r).

Definition zero_handshake : Handshake :=
  mkHandshake handshakeZeroed (zeros 32) (zeros 32) (zeros 32) (zeros 32) 0 0 (zeros 32) (zeros 32)
    (zeros 32) (zeros 12) 0 0.

(** An AEAD instance is its key. *)
Record Keypair := mkKeypair {
  kp_sendNonce : Z;
  kp_send : list Z;
  kp_receive : list Z;
  kp_replayFilter : Replay.Filter;
  kp_isInitiator : bool;
  kp_created : Z;
  kp_localIndex : Z;
  kp_remoteIndex : Z
}.

#[export] Instance eta_Keypair : Settable Keypair := fun r =>
  mkKeypair (kp_sendNonce r) (kp_send r) (kp_receive r) (kp_replayFilter r) (kp_isInitiator r)
    (kp_created r) (kp_localIndex r) (kp_remoteIndex r).

Record Keypairs := mkKeypairs {
  current : option KeypairPtr;
  previous : option KeypairPtr;
  next : option KeypairPtr
}.

#[export] Instance eta_Keypairs : Settable Keypairs := fun r =>
  mkKeypairs (current r) (previous r) (next r).

(** ** Peers *)

(** [deadline] is when the runtime timer fires, if it is armed. *)
Record Timer := mkTimer {
  isPending : bool;
  deadline : option Z
}.

Record Timers := mkTimers {
  retransmitHandshake : Timer;
  sendKeepalive : Timer;
  newHandshake : Timer;
  zeroKeyMaterial : Timer;
  persistentKeepalive : Timer;
  handshakeAttempts : Z;
  needAnotherKeepalive : bool;
  sentLastMinuteHandshake : bool
}.

#[export] Instance eta_Timers : Settable Timers := fun r =>
  mkTimers (retransmitHandshake r) (sendKeepalive r) (newHandshake r) (zeroKeyMaterial r)
    (persistentKeepalive r) (handshakeAttempts r) (needAnotherKeepalive r)
    (sentLastMinuteHandshake r).

Record PeerEndpoint := mkPeerEndpoint {
  ep_val : option Endpoint;
  ep_clearSrcOnTx : bool;
  ep_disableRoaming : bool
}.

#[export] Instance eta_PeerEndpoint : Settable PeerEndpoint := fun r =>
  mkPeerEndpoint (ep_val r) (ep_clearSrcOnTx r) (ep_disableRoaming r).

Record Peer := mkPeer {
  p_isRunning : bool;
  p_keypairs : Keypairs;
  p_handshake : Handshake;
  p_txBytes : Z;
  p_rxBytes : Z;
  p_lastHandshakeNano : Z;
  p_endpoint : PeerEndpoint;
  p_timers : Timers;
  p_staged : list ContainerPtr;
  p_outbound : list (option ContainerPtr);
  p_inbound : list (option ContainerPtr);
  p_cookieGenerator : CookieGenerator;
  p_persistentKeepaliveInterval : Z
}.

#[export] Instance eta_Peer : Settable Peer := fun r =>
  mkPeer (p_isRunning r) (p_keypairs r) (p_handshake r) (p_txBytes r) (p_rxBytes r)
    (p_lastHandshakeNano r) (p_endpoint r) (p_timers r) (p_staged r) (p_outbound r) (p_inbound r)
    (p_cookieGenerator r) (p_persistentKeepaliveInterval r).

(** ** Queues *)

(** The buffer of an outbound element beyond its packet is not read; the header
    is written by the encryption worker. *)
Record QueueOutboundElement := mkOutElem {
  oe_packet : list Z;
  oe_nonce : Z;
  oe_keypair : option KeypairPtr;
  oe_peer : option PeerPtr
}.

Record OutContainer := mkOutContainer { oc_locked : bool; oc_elems : list QueueOutboundElement }.

(** [ie_packet] is [None] for the nil slice that marks a failed decryption. *)
Record QueueInboundElement := mkInElem {
  ie_buffer : list Z;
  ie_packet : option (list Z);
  ie_counter : Z;
  ie_keypair : option KeypairPtr;
  ie_endpoint : Endpoint
}.

Record InContainer := mkInContainer { ic_locked : bool; ic_elems : list QueueInboundElement }.

Record QueueHandshakeElement := mkHandshakeElem {
  he_msgType : Z;
  he_packet : list Z;
  he_endpoint : Endpoint
}.

Record IndexTableEntry := mkIndexEntry {
  it_peer : option PeerPtr;
  it_handshake : option PeerPtr;
  it_keypair : option KeypairPtr
}.

(** ** The device *)

Inductive deviceState := deviceStateDown | deviceStateUp | deviceStateClosed.

#[export] Instance deviceState_eq_dec : EqDecision deviceState.
Proof. solve_decision. Defined.

(** What leaves the device. *)
Inductive Event :=
| EvSend (bufs : list (list Z)) (ep : Endpoint)
| EvClearSrc (ep : Endpoint)
| EvWriteTun (bufs : list (list Z))
| EvBindOpen (port : Z)
| EvBindClose
| EvSetMark (mark : Z)
| EvTunClose.

(** The error of [bind.Send]: none, some error, or [conn.ErrUDPGSODisabled],
    which carries the error of the retry. *)
Inductive send_result := SendOk | SendErr | SendGSODisabled (retryOk : bool).

#[export] Instance send_result_eq_dec : EqDecision send_result.
Proof. solve_decision. Defined.

(** The methods of [conn.Endpoint] the device calls: the destination as bytes,
    as an address and as text; and [ParseEndpoint] of [conn.Bind]. *)
Class Endpoints := {
  DstToBytes : Endpoint -> list Z;
  DstIP : Endpoint -> list Z;
  DstToString : Endpoint -> list Z;
  ParseEndpoint : list Z -> option Endpoint
}.

(** Results of the calls to the outside, consumed in order; a list that has run
    out stands for success. [true] is an error, [None] a failed [Open]. *)
Record Outside := mkOutside {
  o_env : Env;
  o_jitter : list Z;
  o_sends : list send_result;
  o_opens : list (option Z);
  o_closeErrs : list bool;
  o_markErrs : list bool;
  o_routeErrs : list bool
}.

#[export] Instance eta_Outside : Settable Outside := fun r =>
  mkOutside (o_env r) (o_jitter r) (o_sends r) (o_opens r) (o_closeErrs r) (o_markErrs r)
    (o_routeErrs r).

Record World := mkWorld {
  w_state : deviceState;
  w_port : Z;
  w_fwmark : Z;
  w_brokenRoaming : bool;
  w_privateKey : list Z;
  w_publicKey : list Z;
  w_keyMap : gmap (list Z) PeerPtr;
  w_underLoadUntil : Z;
  w_limiter : Ratelimiter.Ratelimiter;
  w_allowedips : AllowedIPs.AllowedIPs;
  w_indexTable : gmap Z IndexTableEntry;
  w_cookieChecker : CookieChecker;
  w_encryption : list ContainerPtr;
  w_decryption : list ContainerPtr;
  w_handshakeq : list QueueHandshakeElement;
  w_mtu : Z;
  w_peers : gmap PeerPtr Peer;
  w_keypairs : gmap KeypairPtr Keypair;
  w_outs : gmap ContainerPtr OutContainer;
  w_ins : gmap ContainerPtr InContainer;
  w_fresh : nat;
  w_outside : Outside;
  w_out : list Event
}.

#[export] Instance eta_World : Settable World := fun r =>
  mkWorld (w_state r) (w_port r) (w_fwmark r) (w_brokenRoaming r) (w_privateKey r) (w_publicKey r)
    (w_keyMap r) (w_underLoadUntil r) (w_limiter r) (w_allowedips r) (w_indexTable r)
    (w_cookieChecker r) (w_encryption r) (w_decryption r) (w_handshakeq r) (w_mtu r) (w_peers r)
    (w_keypairs r) (w_outs r) (w_ins r) (w_fresh r) (w_outside r) (w_out r).

(** ** Access *)

Notation M := (ST World).

(** A read of the clock or of the random source. *)
Definition env {A} (m : ST Env A) : M A := fun w =>
  match m (o_env (w_outside w)) with
  | Some (a, e) => Some (a, w <| w_outside; o_env := e |>)
  | None => None
  end.

Definition emit (ev : Event) : M unit := modify (fun w => w <| w_out ::= fun o => o ++ [ev] |>).

(** [*p] of a peer, a key pair, a container: a dangling address is a panic. *)
Definition peer (p : PeerPtr) : M Peer := fun w => deref (w_peers w !! p) w.

Definition set_peer (p : PeerPtr) (f : Peer -> Peer) : M unit := fun w =>
  pe ← w_peers w !! p; Some (tt, w <| w_peers ::= <[p := f pe]> |>).

Definition keypair (k : KeypairPtr) : M Keypair := fun w => deref (w_keypairs w !! k) w.

Definition set_keypair (k : KeypairPtr) (f : Keypair -> Keypair) : M unit := fun w =>
  kp ← w_keypairs w !! k; Some (tt, w <| w_keypairs ::= <[k := f kp]> |>).

Definition handshake (p : PeerPtr) : M Handshake := pe ← peer p; mret (p_handshake pe).

Definition set_handshake (p : PeerPtr) (f : Handshake -> Handshake) : M unit :=
  set_peer p (fun pe => pe <| p_handshake ::= f |>).

(** [new(T)] *)
Definition fresh : M nat := fun w => Some (w_fresh w, w <| w_fresh ::= S |>).

(** [fastrandn(n)]: less than [n]. *)
Definition fastrandn (n : Z) : M Z := fun w =>
  let js := o_jitter (w_outside w) in
  Some (default 0 (head js) mod n, w <| w_outside; o_jitter := tail js |>).

(** [isClosed] and [isUp] *)
Definition isClosed : M bool := gets (fun w => bool_decide (w_state w = deviceStateClosed)).

Definition isUp : M bool := gets (fun w => bool_decide (w_state w = deviceStateUp)).

(** Nanoseconds of the zero time before the Unix epoch. *)
Definition unixEpoch : Z := 62135596800 * Second.

(** [t.UnixNano()] *)
Definition UnixNano (t : Z) : Z := i64 (t - unixEpoch).

(** [time.Now()] as tai64n reads it. *)
Definition tai_time (t : Z) : Tai64n.Time :=
  Tai64n.mkTime ((t - unixEpoch) / Second) ((t - unixEpoch) mod Second).

(** A channel with room left takes the value; on a full one the sender would
    block, and the step does not happen. *)
Definition chan_send {A} (cap : nat) (q : list A) (x : A) : option (list A) :=
  if decide (length q < cap)%nat then Some (q ++ [x]) else None.

(** ** Constants: constants.go, queueconstants_default.go, ip.go *)

Definition RekeyAfterMessages : Z := Z.shiftl 1 60.

Definition RejectAfterMessages : Z := Z.shiftl 1 64 - Z.shiftl 1 13 - 1.

Definition RekeyAfterTime : Z := Second * 120.

Definition RekeyAttemptTime : Z := Second * 90.

Definition RekeyTimeout : Z := Second * 5.

Definition MaxTimerHandshakes : Z := 90 / 5.

Definition RekeyTimeoutJitterMaxMs : Z := 334.

Definition RejectAfterTime : Z := Second * 180.

Definition KeepaliveTimeout : Z := Second * 10.

Definition HandshakeInitationRate : Z := Second / 50.

Definition PaddingMultiple : Z := 16.

Definition MaxSegmentSize : Z := Z.shiftl 1 16 - 1.

Definition MinMessageSize : Z := Z.of_nat MessageKeepaliveSize.

Definition MaxMessageSize : Z := MaxSegmentSize.

Definition MaxContentSize : Z := MaxSegmentSize - Z.of_nat MessageTransportSize.

Definition UnderLoadAfterTime : Z := Second.

Definition MaxPeers : nat := 2 ^ 16.

#[global] Arguments MaxPeers : simpl never.

Definition QueueStagedSize : nat := 128.

Definition QueueOutboundSize : nat := 1024.

Definition QueueInboundSize : nat := 1024.

Definition QueueHandshakeSize : nat := 1024.

Definition IPv4offsetTotalLength : Z := 2.

Definition IPv4offsetSrc : Z := 12.

Definition IPv4offsetDst : Z := IPv4offsetSrc + 4.

Definition IPv6offsetPayloadLength : Z := 4.

Definition IPv6offsetSrc : Z := 8.

Definition IPv6offsetDst : Z := IPv6offsetSrc + 16.

Definition DefaultMTU : Z := 1420.

(** ** Symbolic execution *)

Lemma env_eq {A} (m : ST Env A) a e w :
  m (o_env (w_outside w)) = Some (a, e) -> env m w = Some (a, w <| w_outside; o_env := e |>).
Proof. intros H. unfold env. by rewrite H. Qed.

Lemma env_now w :
  env now w = Some (next_now (o_env (w_outside w)), w <| w_outside; o_env ::= tick |>).
Proof. done. Qed.

Lemma env_Since t w :
  env (Since t) w = Some (Sub (next_now (o_env (w_outside w))) t, w <| w_outside; o_env ::= tick |>).
Proof. done. Qed.

Lemma peer_eq p pe w : w_peers w !! p = Some pe -> peer p w = Some (pe, w).
Proof. intros H. unfold peer. by rewrite H. Qed.

Lemma set_peer_eq p pe f w :
  w_peers w !! p = Some pe -> set_peer p f w = Some (tt, w <| w_peers ::= <[p := f pe]> |>).
Proof. intros H. unfold set_peer. by rewrite H. Qed.

Lemma keypair_eq k kp w : w_keypairs w !! k = Some kp -> keypair k w = Some (kp, w).
Proof. intros H. unfold keypair. by rewrite H. Qed.

Lemma set_keypair_eq k kp f w :
  w_keypairs w !! k = Some kp -> set_keypair k f w = Some (tt, w <| w_keypairs ::= <[k := f kp]> |>).
Proof. intros H. unfold set_keypair. by rewrite H. Qed.

#[export] Hint Rewrite @env_now @env_Since : st.
