(* ===== verification/Noise.v ===== *)
(** * The Noise handshake

    Models the handshake of src/wireguard-go/device/noise-protocol.go, with the
    index table (indextable.go) and the key pairs (keypair.go) it updates. The
    functions take the address of a peer where the code takes a [*Peer]; its
    handshake is the field of the peer, so a handshake pointer is the peer's. *)

From Stdlib Require Import String.
From stdpp Require Import base numbers list gmap.
From S2P Require Import Tai64n Replay Ratelimiter AllowedIPs.
From S2P Require Import Prelude Setters GoStrings Env Crypto Messages Cookie DeviceState.

Open Scope Z_scope.

Definition NoiseConstruction : list Z := lit "Noise_IKpsk2_25519_ChaChaPoly_BLAKE2s".

Definition WGIdentifier : list Z := lit "WireGuard v1 zx2c4 Jason@zx2c4.com".

Definition ZeroNonce : list Z := zeros NonceSize.

(** ** The index table *)

Definition randUint32 : ST Env (Z * bool) :=
  '(integer, ok) ← rand_Read (zeros 4);
  v ← deref (le_get 4 integer);
  mret (v, ok).

Definition Delete (index : Z) : M unit :=
  modify (fun w => w <| w_indexTable ::= delete index |>).

Definition swap_index (index : Z) (kp : KeypairPtr) (table : gmap Z IndexTableEntry) :
    gmap Z IndexTableEntry :=
  match table !! index with
  | None => table
  | Some entry => <[index := mkIndexEntry (it_peer entry) None (Some kp)]> table
  end.

Definition SwapIndexForKeypair (index : Z) (kp : KeypairPtr) : M unit :=
  modify (fun w => w <| w_indexTable ::= swap_index index kp |>).

(** The loop draws until an unused index comes up; every draw uses up one entry
    of the random source, which bounds the rounds. *)
Fixpoint new_index (fuel : nat) (p : PeerPtr) : M (Z * bool) :=
  match fuel with
  | O => panic
  | S fuel =>
      '(index, ok) ← env randUint32;
      if ok : bool then
        table ← gets w_indexTable;
        match table !! index with
        | Some _ => new_index fuel p
        | None =>
            modify (fun w => w <| w_indexTable ::=
              <[index := mkIndexEntry (Some p) (Some p) None]> |>);;
            mret (index, true)
        end
      else mret (index, false)
  end.

Definition NewIndexForHandshake (p : PeerPtr) : M (Z * bool) := fun w =>
  new_index (S (length (rands (o_env (w_outside w))))) p w.

(** The zero entry stands for a missing one. *)
Definition Lookup_index (id : Z) : M IndexTableEntry :=
  gets (fun w => default (mkIndexEntry None None None) (w_indexTable w !! id)).

Definition DeleteKeypair (key : option KeypairPtr) : M unit :=
  match key with
  | None => mret tt
  | Some k => kp ← keypair k; Delete (kp_localIndex kp)
  end.

Section noise.
Context `{Crypto}.

(** ** Symmetric state *)

Definition mixKey (c data : list Z) : list Z := KDF1 c data.

Definition mixHash (h data : list Z) : list Z := blake2s_256 (h ++ data).

Definition InitialChainKey : list Z := blake2s_256 NoiseConstruction.

Definition InitialHash : list Z := mixHash InitialChainKey WGIdentifier.

Definition Clear (h : Handshake) : Handshake :=
  h <| hs_localEphemeral ::= setZero |> <| hs_remoteEphemeral ::= setZero |>
    <| hs_chainKey ::= setZero |> <| hs_hash ::= setZero |>
    <| hs_localIndex := 0 |> <| hs_state := handshakeZeroed |>.

Definition h_mixHash (data : list Z) (h : Handshake) : Handshake :=
  h <| hs_hash ::= fun x => mixHash x data |>.

Definition h_mixKey (data : list Z) (h : Handshake) : Handshake :=
  h <| hs_chainKey ::= fun x => mixKey x data |>.

Definition newPrivateKey : ST Env (list Z * bool) :=
  '(sk, ok) ← rand_Read (zeros NoisePrivateKeySize);
  sk ← deref (clamp sk);
  mret (sk, ok).

(** ** Initiation *)

(** The message up to the sealed static key; [None] is an error. *)
Definition initiation_static (p : PeerPtr) (sk : list Z) : M (option (list Z * list Z)) :=
  h ← handshake p;
  set_handshake p (h_mixHash (hs_remoteStatic h));;
  let ephemeral := publicKey sk in
  set_handshake p (h_mixKey ephemeral);;
  set_handshake p (h_mixHash ephemeral);;
  h ← handshake p;
  let '(ss, ok) := sharedSecret (hs_localEphemeral h) (hs_remoteStatic h) in
  if ok : bool then
    let '(ck, key) := KDF2 (hs_chainKey h) ss in
    set_handshake p (fun h => h <| hs_chainKey := ck |>);;
    pub ← gets w_publicKey;
    let static := Seal key ZeroNonce pub (hs_hash h) in
    set_handshake p (h_mixHash static);;
    mret (Some (ephemeral, static))
  else mret None.

Definition CreateMessageInitiation (p : PeerPtr) : M (option Initiation.MessageInitiation) :=
  set_handshake p (fun h => h <| hs_hash := InitialHash |> <| hs_chainKey := InitialChainKey |>);;
  '(sk, ok) ← env newPrivateKey;
  set_handshake p (fun h => h <| hs_localEphemeral := sk |>);;
  if ok : bool then
    es ← initiation_static p sk;
    match es with
    | None => mret None
    | Some (ephemeral, static) =>
        h ← handshake p;
        if isZero (hs_precomputedStaticStatic h) then mret None
        else
          let '(ck, key) := KDF2 (hs_chainKey h) (hs_precomputedStaticStatic h) in
          set_handshake p (fun h => h <| hs_chainKey := ck |>);;
          t ← env now;
          let timestamp := Seal key ZeroNonce (stamp (tai_time t)) (hs_hash h) in
          Delete (hs_localIndex h);;
          '(sender, ok) ← NewIndexForHandshake p;
          if ok : bool then
            set_handshake p (fun h => h <| hs_localIndex := sender |>);;
            set_handshake p (h_mixHash timestamp);;
            set_handshake p (fun h => h <| hs_state := handshakeInitiationCreated |>);;
            mret (Some (Initiation.mk MessageInitiationType sender ephemeral static timestamp
              (zeros blake2s_Size128) (zeros blake2s_Size128)))
          else mret None
    end
  else mret None.

(** The local computation of [ConsumeMessageInitiation] up to the peer's static
    key: hash, chaining key, key. *)
Definition initiation_open_static (msg : Initiation.MessageInitiation) (sk pk : list Z) :
    option (list Z * list Z * list Z) :=
  let hash := mixHash InitialHash pk in
  let hash := mixHash hash (Initiation.Ephemeral msg) in
  let chainKey := mixKey InitialChainKey (Initiation.Ephemeral msg) in
  let '(ss, ok) := sharedSecret sk (Initiation.Ephemeral msg) in
  if ok : bool then
    let '(chainKey, key) := KDF2 chainKey ss in
    peerPK ← Open key ZeroNonce (Initiation.Static msg) hash;
    Some (mixHash hash (Initiation.Static msg), chainKey, peerPK)
  else None.

(** ... and from the peer's handshake to the timestamp. *)
Definition initiation_open_timestamp (msg : Initiation.MessageInitiation) (h : Handshake)
    (hash chainKey : list Z) : option (list Z * list Z * list Z) :=
  if isZero (hs_precomputedStaticStatic h) then None
  else
    let '(chainKey, key) := KDF2 chainKey (hs_precomputedStaticStatic h) in
    timestamp ← Open key ZeroNonce (Initiation.Timestamp msg) hash;
    Some (mixHash hash (Initiation.Timestamp msg), chainKey, timestamp).

Definition ConsumeMessageInitiation (msg : Initiation.MessageInitiation) : M (option PeerPtr) :=
  if negb (Initiation.Type_ msg =? MessageInitiationType) then mret None
  else
    w ← get;
    match initiation_open_static msg (w_privateKey w) (w_publicKey w) with
    | None => mret None
    | Some (hash, chainKey, peerPK) =>
        match w_keyMap w !! peerPK with
        | None => mret None
        | Some p =>
            pe ← peer p;
            if negb (p_isRunning pe) then mret None
            else
              let h := p_handshake pe in
              match initiation_open_timestamp msg h hash chainKey with
              | None => mret None
              | Some (hash, chainKey, timestamp) =>
                  let replay := negb (After timestamp (hs_lastTimestamp h)) in
                  d ← env (Since (hs_lastInitiationConsumption h));
                  let flood := d <=? HandshakeInitationRate in
                  if replay then mret None
                  else if flood then mret None
                  else
                    set_handshake p (fun h => h <| hs_hash := hash |> <| hs_chainKey := chainKey |>
                      <| hs_remoteIndex := Initiation.Sender msg |>
                      <| hs_remoteEphemeral := Initiation.Ephemeral msg |>
                      <| hs_lastTimestamp ::= fun t => if After timestamp t then timestamp else t |>);;
                    now ← env now;
                    set_handshake p (fun h => h
                      <| hs_lastInitiationConsumption ::= fun t => if now >? t then now else t |>
                      <| hs_state := handshakeInitiationConsumed |>);;
                    mret (Some p)
              end
        end
    end.

(** ** Response *)

Definition CreateMessageResponse (p : PeerPtr) : M (option Response.MessageResponse) :=
  h ← handshake p;
  if bool_decide (hs_state h = handshakeInitiationConsumed) then
    Delete (hs_localIndex h);;
    '(index, ok) ← NewIndexForHandshake p;
    set_handshake p (fun h => h <| hs_localIndex := index |>);;
    if ok : bool then
      '(sk, ok) ← env newPrivateKey;
      set_handshake p (fun h => h <| hs_localEphemeral := sk |>);;
      if ok : bool then
        let ephemeral := publicKey sk in
        set_handshake p (h_mixHash ephemeral);;
        set_handshake p (h_mixKey ephemeral);;
        let '(ss, ok) := sharedSecret sk (hs_remoteEphemeral h) in
        if ok : bool then
          set_handshake p (h_mixKey ss);;
          let '(ss, ok) := sharedSecret sk (hs_remoteStatic h) in
          if ok : bool then
            set_handshake p (h_mixKey ss);;
            h ← handshake p;
            let '(ck, tau, key) := KDF3 (hs_chainKey h) (hs_presharedKey h) in
            set_handshake p (fun h => h <| hs_chainKey := ck |>);;
            set_handshake p (h_mixHash tau);;
            h ← handshake p;
            let empty := Seal key ZeroNonce [] (hs_hash h) in
            set_handshake p (h_mixHash empty);;
            set_handshake p (fun h => h <| hs_state := handshakeResponseCreated |>);;
            mret (Some (Response.mk MessageResponseType index (hs_remoteIndex h) ephemeral empty
              (zeros blake2s_Size128) (zeros blake2s_Size128)))
          else mret None
        else mret None
      else mret None
    else mret None
  else mret None.

(** The closure of [ConsumeMessageResponse]: the new hash and chaining key. *)
Definition response_open (msg : Response.MessageResponse) (h : Handshake) (sk : list Z) :
    option (list Z * list Z) :=
  if bool_decide (hs_state h = handshakeInitiationCreated) then
    let hash := mixHash (hs_hash h) (Response.Ephemeral msg) in
    let chainKey := mixKey (hs_chainKey h) (Response.Ephemeral msg) in
    let '(ss, ok) := sharedSecret (hs_localEphemeral h) (Response.Ephemeral msg) in
    if ok : bool then
      let chainKey := mixKey chainKey ss in
      let '(ss, ok) := sharedSecret sk (Response.Ephemeral msg) in
      if ok : bool then
        let chainKey := mixKey chainKey ss in
        let '(chainKey, tau, key) := KDF3 chainKey (hs_presharedKey h) in
        let hash := mixHash hash tau in
        _ ← Open key ZeroNonce (Response.Empty msg) hash;
        Some (mixHash hash (Response.Empty msg), chainKey)
      else None
    else None
  else None.

Definition ConsumeMessageResponse (msg : Response.MessageResponse) : M (option PeerPtr) :=
  if negb (Response.Type_ msg =? MessageResponseType) then mret None
  else
    lookup ← Lookup_index (Response.Receiver msg);
    match it_handshake lookup with
    | None => mret None
    | Some p =>
        h ← handshake p;
        sk ← gets w_privateKey;
        match response_open msg h sk with
        | None => mret None
        | Some (hash, chainKey) =>
            set_handshake p (fun h => h <| hs_hash := hash |> <| hs_chainKey := chainKey |>
              <| hs_remoteIndex := Response.Sender msg |>
              <| hs_state := handshakeResponseConsumed |>);;
            mret (it_peer lookup)
        end
    end.

(** ** Sessions *)

(** Send key, receive key, role; [None] is the error. *)
Definition derive_keys (h : Handshake) : option (list Z * list Z * bool) :=
  match hs_state h with
  | handshakeResponseConsumed =>
      let '(sendKey, recvKey) := KDF2 (hs_chainKey h) [] in Some (sendKey, recvKey, true)
  | handshakeResponseCreated =>
      let '(recvKey, sendKey) := KDF2 (hs_chainKey h) [] in Some (sendKey, recvKey, false)
  | _ => None
  end.

(** The rotation of the key pairs of a peer. *)
Definition rotate_keypairs (p : PeerPtr) (k : KeypairPtr) (isInitiator : bool) : M unit :=
  pe ← peer p;
  let kps := p_keypairs pe in
  if isInitiator then
    (match next kps with
     | Some n =>
         set_peer p (fun pe => pe <| p_keypairs; next := None |>);;
         set_peer p (fun pe => pe <| p_keypairs; previous := Some n |>);;
         DeleteKeypair (current kps)
     | None => set_peer p (fun pe => pe <| p_keypairs; previous := current kps |>)
     end);;
    DeleteKeypair (previous kps);;
    set_peer p (fun pe => pe <| p_keypairs; current := Some k |>)
  else
    set_peer p (fun pe => pe <| p_keypairs; next := Some k |>);;
    DeleteKeypair (next kps);;
    set_peer p (fun pe => pe <| p_keypairs; previous := None |>);;
    DeleteKeypair (previous kps).

Definition alloc_keypair (kp : Keypair) : M KeypairPtr :=
  k ← fresh;
  modify (fun w => w <| w_keypairs ::= <[k := kp]> |>);;
  mret k.

(** [true] is the nil error. *)
Definition BeginSymmetricSession (p : PeerPtr) : M bool :=
  h ← handshake p;
  match derive_keys h with
  | None => mret false
  | Some (sendKey, recvKey, isInitiator) =>
      set_handshake p (fun h => h <| hs_chainKey ::= setZero |> <| hs_hash ::= setZero |>
        <| hs_localEphemeral ::= setZero |> <| hs_state := handshakeZeroed |>);;
      created ← env now;
      k ← alloc_keypair (mkKeypair 0 sendKey recvKey (Replay.Reset Replay.zero_filter) isInitiator
        created (hs_localIndex h) (hs_remoteIndex h));
      SwapIndexForKeypair (hs_localIndex h) k;;
      set_handshake p (fun h => h <| hs_localIndex := 0 |>);;
      rotate_keypairs p k isInitiator;;
      mret true
  end.

(** A first packet under the next key pair confirms it. *)
Definition ReceivedWithKeypair (p : PeerPtr) (received : KeypairPtr) : M bool :=
  pe ← peer p;
  let kps := p_keypairs pe in
  if bool_decide (next kps = Some received) then
    set_peer p (fun pe => pe <| p_keypairs; previous := current kps |>);;
    DeleteKeypair (previous kps);;
    set_peer p (fun pe => pe <| p_keypairs; current := next kps |>);;
    set_peer p (fun pe => pe <| p_keypairs; next := None |>);;
    mret true
  else mret false.

End noise.
