(* ===== verification/NoiseCorrect.v ===== *)
(** * The handshake is correct

    What each handshake function of [Noise] computes when it succeeds, and that
    two devices configured for each other derive the same pair of session
    keys. *)

From stdpp Require Import base numbers list gmap.
From S2P Require Import Tai64n Replay Ratelimiter AllowedIPs.
From S2P Require Import Prelude Setters GoStrings Env Crypto Messages Cookie DeviceState Noise.

Open Scope Z_scope.

(** ** Symbolic execution over one peer's handshake *)

(** Peer [p] of [w] has handshake state [h]. *)
Definition hs_at (p : PeerPtr) (w : World) (h : Handshake) : Prop :=
  exists pe, w_peers w !! p = Some pe /\ p_handshake pe = h.

Definition hs_upd (p : PeerPtr) (f : Handshake -> Handshake) (w : World) : World :=
  w <| w_peers ::= alter (fun pe => pe <| p_handshake ::= f |>) p |>.

Lemma handshake_run p w h : hs_at p w h -> handshake p w = Some (h, w).
Proof. intros (pe & Hp & <-). unfold handshake. rewrite bind_eq, (peer_eq _ _ _ Hp). done. Qed.

Lemma set_handshake_run p f w h : hs_at p w h -> set_handshake p f w = Some (tt, hs_upd p f w).
Proof.
  intros (pe & Hp & _). unfold set_handshake. rewrite (set_peer_eq _ _ _ _ Hp). do 2 f_equal.
  unfold hs_upd, set. f_equal. apply map_eq. intros q.
  destruct (decide (p = q)) as [<-|Hne].
  - by rewrite lookup_insert_eq, lookup_alter_eq, Hp.
  - by rewrite lookup_insert_ne, lookup_alter_ne.
Qed.

Lemma hs_at_upd p f w h : hs_at p w h -> hs_at p (hs_upd p f w) (f h).
Proof.
  intros (pe & Hp & <-). eexists. cbn. rewrite lookup_alter_eq, Hp. done.
Qed.

Lemma hs_at_fun p w h h' : hs_at p w h -> hs_at p w h' -> h = h'.
Proof. intros (pe & Hp & <-) (pe' & Hp' & <-). congruence. Qed.

Lemma env_inv {A} (m : ST Env A) w a w' :
  env m w = Some (a, w') ->
  exists e, m (o_env (w_outside w)) = Some (a, e) /\ w' = w <| w_outside; o_env := e |>.
Proof. unfold env. destruct (m _) as [[a' e]|]; [|done]. intros [= -> <-]. eauto. Qed.

(** [NewIndexForHandshake] picks an unused index and maps it to the peer. *)
Lemma new_index_inv fuel p w i w' :
  new_index fuel p w = Some ((i, true), w') ->
  w_indexTable w !! i = None /\ exists e,
  w' = w <| w_outside; o_env := e |>
         <| w_indexTable ::= <[i := mkIndexEntry (Some p) (Some p) None]> |>.
Proof.
  revert w. induction fuel as [|fuel IH]; intros w; [done|]. cbn [new_index].
  intros ((index & ok) & w1 & (e & He & ->)%env_inv & Hr)%bind_inv. destruct ok; [|by injection Hr].
  rewrite bind_eq, gets_eq in Hr. cbv beta iota in Hr. cbn [w_indexTable set] in Hr.
  destruct (w_indexTable w !! index) as [x|] eqn:E.
  - destruct (IH _ Hr) as (Hn & e' & ->). split; [exact Hn|]. eexists. reflexivity.
  - rewrite bind_eq, modify_eq in Hr. injection Hr as <- <-. split; [done|]. eexists. reflexivity.
Qed.

(** The draws end: the fuel is never used up. *)
Lemma new_index_total fuel p w :
  (length (rands (o_env (w_outside w))) < fuel)%nat -> exists r, new_index fuel p w = Some r.
Proof.
  revert w. induction fuel as [|fuel IH]; intros w Hf; [lia|]. cbn [new_index].
  rewrite bind_eq. unfold env, randUint32. rewrite bind_eq. unfold rand_Read. cbv beta iota.
  set (r := default [] (head (rands (o_env (w_outside w))))).
  assert (Hl : length (copy (zeros 4) r) = 4%nat) by (by rewrite length_copy, length_zeros).
  rewrite bind_eq. unfold le_get. rewrite decide_True by (rewrite Hl; done). rewrite deref_eq. cbv beta iota.
  rewrite ret_eq. cbv beta iota. case_bool_decide as Hr; [|eexists; reflexivity].
  rewrite bind_eq, gets_eq. cbv beta iota. case_match; [|eexists; reflexivity].
  apply IH. cbn. destruct (rands (o_env (w_outside w))) as [|x l] eqn:E; cbn in *; [|lia].
  subst r. cbn in Hr. lia.
Qed.

(** [w'] differs from [w] in peers' handshakes, the index table and the
    environment at most, and peer [p] has handshake [h] there. *)
Record hs_to (p : PeerPtr) (w w' : World) (h : Handshake) : Prop := {
  to_hs : hs_at p w' h;
  to_priv : w_privateKey w' = w_privateKey w;
  to_pub : w_publicKey w' = w_publicKey w
}.

Lemma hs_to_refl p w h : hs_at p w h -> hs_to p w w h.
Proof. by constructor. Qed.

Lemma hs_to_get p w0 w h x w' :
  hs_to p w0 w h -> handshake p w = Some (x, w') -> x = h /\ w' = w.
Proof. intros [Hh _ _] Hr. rewrite (handshake_run _ _ _ Hh) in Hr. by injection Hr. Qed.

Lemma hs_to_set p w0 w h f x w' :
  hs_to p w0 w h -> set_handshake p f w = Some (x, w') ->
  hs_to p w0 w' (f h) /\ w_indexTable w' = w_indexTable w /\ w_outside w' = w_outside w.
Proof.
  intros [Hh Hp Hq] Hr. rewrite (set_handshake_run _ _ _ _ Hh) in Hr. injection Hr as _ <-.
  split; [|done]. constructor; [by apply hs_at_upd|done..].
Qed.

Lemma hs_to_env {A} (m : ST Env A) p w0 w h a w' :
  hs_to p w0 w h -> env m w = Some (a, w') ->
  hs_to p w0 w' h /\ w_indexTable w' = w_indexTable w /\
  m (o_env (w_outside w)) = Some (a, o_env (w_outside w')).
Proof. intros [Hh Hp Hq] (e & Hm & ->)%env_inv. split; [by constructor|done]. Qed.

Lemma newPrivateKey_clock e r e' : newPrivateKey e = Some (r, e') -> next_now e' = next_now e.
Proof.
  unfold newPrivateKey. rewrite bind_eq. unfold rand_Read. cbv beta iota. rewrite bind_eq.
  destruct (clamp _); [|done]. rewrite deref_eq, ret_eq. by intros [= <- <-].
Qed.

Lemma hs_to_index p w0 w h i u w1 idx w' :
  hs_to p w0 w h -> Delete i w = Some (u, w1) -> NewIndexForHandshake p w1 = Some ((idx, true), w') ->
  hs_to p w0 w' h /\ w_indexTable w' !! idx = Some (mkIndexEntry (Some p) (Some p) None).
Proof.
  intros [Hh Hp Hq] [= _ <-] (_ & e & ->)%new_index_inv. split; [by constructor|]. apply lookup_insert_eq.
Qed.

(** Runs the next statement of [H : (m ≫= k) w = Some r] when it reads or
    writes the handshake that [T : hs_to p w0 w h] tracks. *)
Ltac hs_step H T :=
  let E := fresh "E" in
  apply bind_inv in H as (? & ? & E & H);
  first
    [ apply (hs_to_get _ _ _ _ _ _ T) in E as [-> ->]
    | apply (hs_to_set _ _ _ _ _ _ _ T) in E; clear T; destruct E as (T & ? & ?) ];
  cbv beta in H.

(** The same for a read of the environment. *)
Ltac env_step H T a E :=
  apply bind_inv in H as (a & ? & E & H); apply (hs_to_env _ _ _ _ _ _ _ T) in E;
  clear T; destruct E as (T & ? & E); cbv beta in E.

Lemma hs_set_run p f w h :
  hs_at p w h -> exists w', set_handshake p f w = Some (tt, w') /\ hs_at p w' (f h).
Proof. intros Hh. eexists. split; [by apply (set_handshake_run _ _ _ h)|by apply hs_at_upd]. Qed.

(** Runs a write of the handshake in the goal. *)
Ltac hs_run Hh :=
  match goal with |- context [(set_handshake ?p ?f ≫= _) ?w] =>
    let E := fresh "E" in let w' := fresh "w" in
    destruct (hs_set_run p f w _ Hh) as (w' & E & ?Hh); clear Hh; rename Hh0 into Hh;
    rewrite (bind_run _ _ _ _ _ E); clear E; cbv beta in Hh |- *
  end.

(** Evaluates the field reads in [H]. *)
Ltac hs_eval H :=
  cbn [hs_state hs_localEphemeral hs_remoteStatic hs_remoteEphemeral hs_presharedKey hs_chainKey
    hs_precomputedStaticStatic hs_hash hs_localIndex hs_remoteIndex set h_mixHash h_mixKey] in H.

Section noise.
Context `{CryptoLaws}.

Lemma sharedSecret_ok sk pk ss :
  sharedSecret sk pk = (ss, true) -> ss = ScalarMult sk pk /\ isZero (ScalarMult sk pk) = false.
Proof. unfold sharedSecret. destruct (isZero _) eqn:E; intros [= <-]. auto. Qed.

Lemma sharedSecret_run sk pk :
  isZero (ScalarMult sk pk) = false -> sharedSecret sk pk = (ScalarMult sk pk, true).
Proof. intros E. unfold sharedSecret. by rewrite E. Qed.

(** *** Initiation *)

(** The symmetric computation of an initiation, shared by both sides: keys and
    hashes from the ephemeral key, the two secrets and the two texts. *)
Record init_keys := mkInitKeys {
  ik_k1 : list Z; ik_h1 : list Z;
  ik_k2 : list Z; ik_h2 : list Z;
  ik_ck : list Z
}.

Definition init_schedule (rs eph ss1 ss2 static : list Z) : init_keys :=
  let h1 := mixHash (mixHash InitialHash rs) eph in
  let '(ck2, k1) := KDF2 (mixKey InitialChainKey eph) ss1 in
  let '(ck3, k2) := KDF2 ck2 ss2 in
  mkInitKeys k1 h1 k2 (mixHash h1 static) ck3.

Definition init_msg (idx : Z) (rs pub eph ss1 ss2 ts : list Z) : Initiation.MessageInitiation :=
  let ik := init_schedule rs eph ss1 ss2 [] in
  let static := Seal (ik_k1 ik) ZeroNonce pub (ik_h1 ik) in
  let ik := init_schedule rs eph ss1 ss2 static in
  Initiation.mk MessageInitiationType idx eph static (Seal (ik_k2 ik) ZeroNonce ts (ik_h2 ik))
    (zeros blake2s_Size128) (zeros blake2s_Size128).

Lemma CreateMessageInitiation_inv p w h msg w' :
  hs_at p w h -> CreateMessageInitiation p w = Some (Some msg, w') ->
  exists sk idx, let eph := publicKey sk in
    let ss1 := ScalarMult sk (hs_remoteStatic h) in
    let ss2 := hs_precomputedStaticStatic h in
    let t := next_now (o_env (w_outside w)) in
    msg = init_msg idx (hs_remoteStatic h) (w_publicKey w) eph ss1 ss2 (stamp (tai_time t)) /\
    isZero ss1 = false /\ isZero ss2 = false /\
    (let ik := init_schedule (hs_remoteStatic h) eph ss1 ss2 (Initiation.Static msg) in
     hs_at p w' (h <| hs_state := handshakeInitiationCreated |>
       <| hs_hash := mixHash (ik_h2 ik) (Initiation.Timestamp msg) |> <| hs_chainKey := ik_ck ik |>
       <| hs_localEphemeral := sk |> <| hs_localIndex := idx |>)) /\
    w_indexTable w' !! idx = Some (mkIndexEntry (Some p) (Some p) None) /\
    w_privateKey w' = w_privateKey w /\ w_publicKey w' = w_publicKey w.
Proof.
  intros Hh. unfold CreateMessageInitiation. intros Hr. pose proof (hs_to_refl _ _ _ Hh) as T.
  hs_step Hr T. env_step Hr T sk Esk. destruct sk as [sk ok]. hs_step Hr T. destruct ok; [|by injection Hr].
  apply bind_inv in Hr as (es & w1 & Hs & Hr).
  unfold initiation_static in Hs. do 5 hs_step Hs T. hs_eval Hs.
  destruct (sharedSecret _ _) as [ss ok] eqn:Hss. destruct ok; [|injection Hs as <- <-; by injection Hr].
  apply sharedSecret_ok in Hss as [-> Hnz].
  destruct (KDF2 _ _) as [ck2 k1] eqn:Hk1. hs_step Hs T.
  apply bind_inv in Hs as (pub & ? & [= Epub <-] & Hs). rewrite (to_pub _ _ _ _ T) in Epub. subst pub.
  hs_step Hs T. injection Hs as <- <-. hs_step Hr T. hs_eval Hr.
  destruct (isZero (hs_precomputedStaticStatic h)) eqn:Hz; [by injection Hr|].
  destruct (KDF2 ck2 _) as [ck3 k2] eqn:Hk2. hs_step Hr T. env_step Hr T t Et.
  apply bind_inv in Hr as (? & ? & Hdel & Hr). apply bind_inv in Hr as ((idx & ok) & ? & Hnew & Hr).
  destruct ok; [|by injection Hr]. destruct (hs_to_index _ _ _ _ _ _ _ _ _ T Hdel Hnew) as [T' Htab].
  clear T; rename T' into T.
  do 3 hs_step Hr T. injection Hr as <- <-. destruct T as [Thh Tpr Tpu].
  assert (Ht : t = next_now (o_env (w_outside w))).
  { injection Et as <- _. apply newPrivateKey_clock in Esk. unfold next_now in *. congruence. }
  subst t. exists sk, idx. cbv zeta. unfold init_msg, init_schedule. rewrite Hk1, Hk2.
  split; [reflexivity|]. split; [exact Hnz|]. split; [reflexivity|]. split; [exact Thh|].
  split; [congruence|done].
Qed.

Definition with_macs (m : Initiation.MessageInitiation) (mac1 mac2 : list Z) :
    Initiation.MessageInitiation :=
  Initiation.mk (Initiation.Type_ m) (Initiation.Sender m) (Initiation.Ephemeral m)
    (Initiation.Static m) (Initiation.Timestamp m) mac1 mac2.

(** The handshake after an initiation with the given contents is consumed at
    time [t]. *)
Definition consumed (h : Handshake) (hash ck : list Z) (idx : Z) (eph ts : list Z) (t : Z) : Handshake :=
  h <| hs_hash := hash |> <| hs_chainKey := ck |> <| hs_remoteIndex := idx |>
    <| hs_remoteEphemeral := eph |>
    <| hs_lastTimestamp ::= fun t0 => if After ts t0 then ts else t0 |>
    <| hs_lastInitiationConsumption ::= fun t0 => if t >? t0 then t else t0 |>
    <| hs_state := handshakeInitiationConsumed |>.

Lemma initiation_static_opened idx sk rs pub eph ss1 ss2 ts mac1 mac2 :
  isZero (ScalarMult sk eph) = false -> ss1 = ScalarMult sk eph ->
  let msg := with_macs (init_msg idx rs pub eph ss1 ss2 ts) mac1 mac2 in
  let ck := fst (KDF2 (mixKey InitialChainKey eph) ss1) in
  let ik := init_schedule rs eph ss1 ss2 (Initiation.Static msg) in
  initiation_open_static msg sk rs = Some (ik_h2 ik, ck, pub).
Proof.
  intros Hnz ->. cbv zeta. unfold initiation_open_static, init_msg, init_schedule, with_macs.
  cbn [Initiation.Ephemeral Initiation.Static].
  destruct (KDF2 _ _) as [ck2 k1] eqn:Hk1. destruct (KDF2 ck2 _) as [ck3 k2] eqn:Hk2.
  cbn [Initiation.Ephemeral Initiation.Static ik_k1 ik_h1 ik_h2 fst]. rewrite sharedSecret_run by done.
  rewrite Hk1, Open_Seal. done.
Qed.

Lemma initiation_timestamp_opened idx h rs pub eph ss1 ss2 ts mac1 mac2 :
  hs_precomputedStaticStatic h = ss2 -> isZero ss2 = false ->
  let msg := with_macs (init_msg idx rs pub eph ss1 ss2 ts) mac1 mac2 in
  let ck := fst (KDF2 (mixKey InitialChainKey eph) ss1) in
  let ik := init_schedule rs eph ss1 ss2 (Initiation.Static msg) in
  initiation_open_timestamp msg h (ik_h2 ik) ck =
    Some (mixHash (ik_h2 ik) (Initiation.Timestamp msg), ik_ck ik, ts).
Proof.
  intros <- Hnz. cbv zeta. unfold initiation_open_timestamp. rewrite Hnz.
  unfold init_msg, init_schedule, with_macs. cbn [Initiation.Timestamp Initiation.Static].
  destruct (KDF2 (mixKey _ _) _) as [ck2 k1] eqn:Hk1. destruct (KDF2 ck2 _) as [ck3 k2] eqn:Hk2.
  cbn [Initiation.Timestamp ik_k2 ik_h2 ik_ck fst]. rewrite Hk2, Open_Seal. done.
Qed.

(** What the responder's side of a fresh initiation needs. *)
Record accepts (w : World) (p : PeerPtr) (h : Handshake) (pub : list Z) (ts : list Z) : Prop := {
  acc_key : w_keyMap w !! pub = Some p;
  acc_peer : exists pe, w_peers w !! p = Some pe /\ p_isRunning pe = true /\ p_handshake pe = h;
  acc_fresh : After ts (hs_lastTimestamp h) = true;
  acc_rate : HandshakeInitationRate <
    Sub (next_now (o_env (w_outside w))) (hs_lastInitiationConsumption h)
}.

Lemma ConsumeMessageInitiation_ok w p h idx pub eph ss1 ss2 ts mac1 mac2 :
  accepts w p h pub ts ->
  isZero (ScalarMult (w_privateKey w) eph) = false -> ss1 = ScalarMult (w_privateKey w) eph ->
  hs_precomputedStaticStatic h = ss2 -> isZero ss2 = false ->
  let msg := with_macs (init_msg idx (w_publicKey w) pub eph ss1 ss2 ts) mac1 mac2 in
  let ik := init_schedule (w_publicKey w) eph ss1 ss2 (Initiation.Static msg) in
  exists w' t, ConsumeMessageInitiation msg w = Some (Some p, w') /\
    hs_at p w' (consumed h (mixHash (ik_h2 ik) (Initiation.Timestamp msg)) (ik_ck ik) idx eph ts t).
Proof.
  intros [Hk (pe & Hpe & Hrun & Hh) Hf Hrate] Hnz Hss Hpre Hz msg ik.
  unfold ConsumeMessageInitiation.
  change (negb (Initiation.Type_ msg =? MessageInitiationType)) with false. cbv iota.
  rewrite bind_eq, get_eq. cbv beta iota.
  unfold msg at 1. rewrite (initiation_static_opened _ _ _ _ _ _ _ _ _ _ Hnz Hss). fold msg ik.
  rewrite Hk, bind_eq, (peer_eq _ _ _ Hpe), Hrun, Hh. cbn [negb]. cbv iota.
  unfold msg at 1. unfold ik at 1. unfold msg at 1.
  rewrite (initiation_timestamp_opened _ _ _ _ _ _ _ _ _ _ Hpre Hz). fold msg ik.
  rewrite Hf. cbn [negb]. rewrite bind_eq, env_Since. cbv beta iota.
  rewrite (proj2 (Z.leb_gt _ _) Hrate).
  assert (Hh1 : hs_at p (w <| w_outside; o_env ::= tick |>) h) by (exists pe; done).
  hs_run Hh1. rewrite bind_eq, env_now. cbv beta iota.
  match type of Hh1 with hs_at _ ?w2 ?h2 =>
    assert (Hh2 : hs_at p (w2 <| w_outside; o_env ::= tick |>) h2) by exact Hh1 end.
  hs_run Hh2. do 2 eexists. split; [reflexivity|].
  exact Hh2.
Qed.

(** *** Response *)

(** The symmetric computation of a response: chaining key, key, hash before
    the empty text. *)
Definition resp_schedule (h ck eph ss1 ss2 psk : list Z) : list Z * list Z * list Z :=
  let '(ck3, tau, key) := KDF3 (mixKey (mixKey (mixKey ck eph) ss1) ss2) psk in
  (ck3, key, mixHash (mixHash h eph) tau).

Definition resp_msg (idx ridx : Z) (h ck eph ss1 ss2 psk : list Z) : Response.MessageResponse :=
  let '(_, key, hash) := resp_schedule h ck eph ss1 ss2 psk in
  Response.mk MessageResponseType idx ridx eph (Seal key ZeroNonce [] hash)
    (zeros blake2s_Size128) (zeros blake2s_Size128).

Definition resp_ck (h ck eph ss1 ss2 psk : list Z) : list Z :=
  fst (fst (resp_schedule h ck eph ss1 ss2 psk)).

Lemma CreateMessageResponse_inv p w h msg w' :
  hs_at p w h -> CreateMessageResponse p w = Some (Some msg, w') ->
  exists sk idx hash, let eph := publicKey sk in
    let ss1 := ScalarMult sk (hs_remoteEphemeral h) in
    let ss2 := ScalarMult sk (hs_remoteStatic h) in
    hs_state h = handshakeInitiationConsumed /\
    msg = resp_msg idx (hs_remoteIndex h) (hs_hash h) (hs_chainKey h) eph ss1 ss2 (hs_presharedKey h) /\
    isZero ss1 = false /\ isZero ss2 = false /\
    hs_at p w' (h <| hs_state := handshakeResponseCreated |> <| hs_localIndex := idx |>
      <| hs_localEphemeral := sk |> <| hs_hash := hash |>
      <| hs_chainKey := resp_ck (hs_hash h) (hs_chainKey h) eph ss1 ss2 (hs_presharedKey h) |>) /\
    w_indexTable w' !! idx = Some (mkIndexEntry (Some p) (Some p) None).
Proof.
  intros Hh. unfold CreateMessageResponse. intros Hr. pose proof (hs_to_refl _ _ _ Hh) as T.
  hs_step Hr T. case_bool_decide as Hst; [|by injection Hr].
  apply bind_inv in Hr as (? & ? & Hdel & Hr). apply bind_inv in Hr as ((idx & ok) & ? & Hnew & Hr).
  destruct ok; cycle 1.
  { apply bind_inv in Hr as (? & ? & _ & Hr). by injection Hr. }
  destruct (hs_to_index _ _ _ _ _ _ _ _ _ T Hdel Hnew) as [T' Htab]. clear T; rename T' into T.
  hs_step Hr T. env_step Hr T sk Esk. destruct sk as [sk ok]. hs_step Hr T. destruct ok; [|by injection Hr].
  do 2 hs_step Hr T. destruct (sharedSecret sk (hs_remoteEphemeral h)) as [ss1 ok] eqn:Hs1.
  destruct ok; [|by injection Hr]. apply sharedSecret_ok in Hs1 as [-> Hz1].
  hs_step Hr T. destruct (sharedSecret sk (hs_remoteStatic h)) as [ss2 ok] eqn:Hs2.
  destruct ok; [|by injection Hr]. apply sharedSecret_ok in Hs2 as [-> Hz2].
  do 2 hs_step Hr T. hs_eval Hr. destruct (KDF3 _ _) as [[ck3 tau] key] eqn:Hk.
  do 5 hs_step Hr T. hs_eval Hr. injection Hr as <- <-. destruct T as [Thh _ _].
  eexists sk, idx, _. cbv zeta. unfold resp_msg, resp_ck, resp_schedule. rewrite Hk.
  split; [exact Hst|]. split; [reflexivity|]. split; [exact Hz1|]. split; [exact Hz2|].
  split; [exact Thh|congruence].
Qed.

Definition with_macs_r (m : Response.MessageResponse) (mac1 mac2 : list Z) : Response.MessageResponse :=
  Response.mk (Response.Type_ m) (Response.Sender m) (Response.Receiver m) (Response.Ephemeral m)
    (Response.Empty m) mac1 mac2.

Lemma ConsumeMessageResponse_ok p w h idx eph ss1 ss2 mac1 mac2 :
  hs_at p w h -> hs_state h = handshakeInitiationCreated ->
  w_indexTable w !! hs_localIndex h = Some (mkIndexEntry (Some p) (Some p) None) ->
  ss1 = ScalarMult (hs_localEphemeral h) eph -> isZero ss1 = false ->
  ss2 = ScalarMult (w_privateKey w) eph -> isZero ss2 = false ->
  let msg := with_macs_r (resp_msg idx (hs_localIndex h) (hs_hash h) (hs_chainKey h) eph ss1 ss2
    (hs_presharedKey h)) mac1 mac2 in
  exists w' hash, ConsumeMessageResponse msg w = Some (Some p, w') /\
    hs_at p w' (h <| hs_hash := hash |>
      <| hs_chainKey := resp_ck (hs_hash h) (hs_chainKey h) eph ss1 ss2 (hs_presharedKey h) |>
      <| hs_remoteIndex := idx |> <| hs_state := handshakeResponseConsumed |>).
Proof.
  intros Hh Hst Htab -> Hz1 -> Hz2. cbv zeta. unfold ConsumeMessageResponse.
  unfold resp_msg, resp_ck, resp_schedule, with_macs_r. destruct (KDF3 _ _) as [[ck3 tau] key] eqn:Hk.
  cbn [Response.Type_ Response.Receiver Response.Sender Response.Ephemeral Response.Empty].
  rewrite Z.eqb_refl. cbn [negb]. cbv iota.
  unfold Lookup_index. rewrite bind_eq, gets_eq. cbv beta iota. rewrite Htab. cbn [from_option id it_handshake it_peer].
  rewrite bind_eq, (handshake_run _ _ _ Hh). cbv beta iota. rewrite bind_eq, gets_eq. cbv beta iota.
  unfold response_open. rewrite bool_decide_true by done.
  cbn [Response.Ephemeral Response.Empty]. rewrite !sharedSecret_run by done. rewrite Hk, Open_Seal.
  cbn [mbind option_bind fst]. hs_run Hh. do 2 eexists. split; [reflexivity|exact Hh].
Qed.

(** *** Sessions *)

(** The key pairs after the rotation, as the comments of the code state it. *)
Definition rotated (kps : Keypairs) (k : KeypairPtr) (isInitiator : bool) : Keypairs :=
  if isInitiator then
    match next kps with
    | Some n => mkKeypairs (Some k) (Some n) None
    | None => mkKeypairs (Some k) (current kps) None
    end
  else mkKeypairs (current kps) None (Some k).

(** The key pairs whose indices the rotation drops. *)
Definition dropped (kps : Keypairs) (isInitiator : bool) : list (option KeypairPtr) :=
  if isInitiator then
    match next kps with
    | Some _ => [current kps; previous kps]
    | None => [previous kps]
    end
  else [next kps; previous kps].

Definition drop_index (kps : gmap KeypairPtr Keypair) (t : gmap Z IndexTableEntry)
    (o : option KeypairPtr) : gmap Z IndexTableEntry :=
  match o ≫= (kps !!.) with
  | Some kp => delete (kp_localIndex kp) t
  | None => t
  end.

(** What a rotation reads and writes: peer [p]'s handshake and key pairs, the
    index table, the key pairs in memory. *)
Definition sess (p : PeerPtr) (w : World) (h : Handshake) (kps : Keypairs)
    (t : gmap Z IndexTableEntry) (mem : gmap KeypairPtr Keypair) : Prop :=
  (exists pe, w_peers w !! p = Some pe /\ p_handshake pe = h /\ p_keypairs pe = kps) /\
  w_indexTable w = t /\ w_keypairs w = mem.

Definition valid_ptr (mem : gmap KeypairPtr Keypair) (o : option KeypairPtr) : Prop :=
  match o with Some k => is_Some (mem !! k) | None => True end.

Definition valid_kps (mem : gmap KeypairPtr Keypair) (kps : Keypairs) : Prop :=
  valid_ptr mem (current kps) /\ valid_ptr mem (previous kps) /\ valid_ptr mem (next kps).

Lemma sess_set f p w h kps t mem :
  sess p w h kps t mem ->
  exists w', set_peer p (set p_keypairs f) w = Some (tt, w') /\ sess p w' h (f kps) t mem.
Proof.
  intros ((pe & Hp & <- & <-) & <- & <-). rewrite (set_peer_eq _ _ _ _ Hp). eexists. split; [done|].
  split; [|done]. eexists. split; [apply lookup_insert_eq|done].
Qed.

Lemma sess_drop o p w h kps t mem :
  sess p w h kps t mem -> valid_ptr mem o ->
  exists w', DeleteKeypair o w = Some (tt, w') /\ sess p w' h kps (drop_index mem t o) mem.
Proof.
  intros (Hpe & Ht & Hm) Hv. destruct o as [k|]; cbn in *; [|by exists w].
  destruct Hv as [kp Hk]. rewrite bind_eq, (keypair_eq _ kp) by congruence. cbv beta iota.
  unfold Delete. rewrite modify_eq. eexists. split; [done|]. unfold drop_index. cbn [mbind option_bind]. rewrite Hk.
  destruct Hpe as (pe & Hp & ?). split; [by exists pe|]. cbn. by rewrite Ht, Hm.
Qed.

(** Runs one statement of a rotation. *)
Ltac sess_run S :=
  let E := fresh "E" in
  rewrite ?bind_assoc;
  lazymatch goal with
  | |- context [(set_peer ?p (fun pe => set p_keypairs ?f pe) ≫= _) ?w] =>
      destruct (sess_set f _ _ _ _ _ _ S) as (? & E & ?S)
  | |- context [(DeleteKeypair ?o ≫= _) ?w] =>
      edestruct (sess_drop o _ _ _ _ _ _ S) as (? & E & ?S); [assumption|]
  end; clear S; rename S0 into S; rewrite (bind_run _ _ _ _ _ E); clear E; cbv beta.

Lemma rotate_run p k i w h kps t mem :
  sess p w h kps t mem -> valid_kps mem kps ->
  exists w', rotate_keypairs p k i w = Some (tt, w') /\
    sess p w' h (rotated kps k i) (foldl (drop_index mem) t (dropped kps i)) mem.
Proof.
  intros S (Hc & Hp & Hn). unfold rotate_keypairs. destruct (S) as ((pe & Hpe & _ & Hk) & _).
  rewrite bind_eq, (peer_eq _ _ _ Hpe). cbv beta iota. rewrite Hk. clear pe Hpe Hk.
  unfold rotated, dropped. destruct kps as [c pr [n|]], i; cbn [next previous current] in *;
    rewrite <- (bind_ret_r _ w); repeat sess_run S; by eauto.
Qed.

Definition ended (h : Handshake) : Handshake :=
  h <| hs_chainKey ::= setZero |> <| hs_hash ::= setZero |> <| hs_localEphemeral ::= setZero |>
    <| hs_state := handshakeZeroed |> <| hs_localIndex := 0 |>.

Definition new_keypair (h : Handshake) (s r : list Z) (i : bool) (t : Z) : Keypair :=
  mkKeypair 0 s r (Replay.Reset Replay.zero_filter) i t (hs_localIndex h) (hs_remoteIndex h).

Lemma sess_hs f p w h kps t mem :
  sess p w h kps t mem ->
  exists w', set_handshake p f w = Some (tt, w') /\ sess p w' (f h) kps t mem /\ w_fresh w' = w_fresh w.
Proof.
  intros ((pe & Hp & <- & <-) & <- & <-). unfold set_handshake. rewrite (set_peer_eq _ _ _ _ Hp).
  eexists. split; [done|]. split; [|done]. split; [|done]. eexists. split; [apply lookup_insert_eq|done].
Qed.

Lemma valid_insert mem k kp o : valid_ptr mem o -> valid_ptr (<[k := kp]> mem) o.
Proof. destruct o as [n|]; [|done]. cbn. rewrite lookup_insert_is_Some'. auto. Qed.

Lemma BeginSymmetricSession_run p w h kps tbl mem s r i :
  sess p w h kps tbl mem -> valid_kps mem kps -> derive_keys h = Some (s, r, i) ->
  exists w' t, let k := w_fresh w in let mem' := <[k := new_keypair h s r i t]> mem in
    BeginSymmetricSession p w = Some (true, w') /\
    sess p w' (ended h) (rotated kps k i)
      (foldl (drop_index mem') (swap_index (hs_localIndex h) k tbl) (dropped kps i)) mem'.
Proof.
  intros S (Hc & Hp & Hn) Hd. unfold BeginSymmetricSession.
  rewrite (bind_run _ _ _ _ _ (handshake_run p w h ltac:(destruct S as ((pe & ? & ? & _) & _); by exists pe))).
  rewrite Hd. edestruct sess_hs as (w1 & E & S1 & Hf); [exact S|]. rewrite (bind_run _ _ _ _ _ E). clear E.
  rewrite bind_eq, env_now. cbv beta iota. unfold alloc_keypair. rewrite bind_assoc, bind_eq. unfold fresh. cbv beta iota.
  rewrite bind_assoc, bind_eq, modify_eq. cbv beta iota. rewrite bind_ret_l. unfold SwapIndexForKeypair. rewrite bind_eq, modify_eq. cbv beta iota.
  cbn [w_fresh set]. rewrite Hf. set (k := w_fresh w).
  match goal with |- context [(set_handshake p _ ≫= _) ?w2] => set (w3 := w2) end.
  set (t := next_now (o_env (w_outside w1))) in *.
  set (mem' := <[k := new_keypair h s r i t]> mem).
  match type of S1 with sess _ _ ?h1 _ _ _ =>
    assert (S3 : sess p w3 h1 kps (swap_index (hs_localIndex h) k tbl) mem') end.
  { destruct S1 as ((pe & Hpe & Hh & Hk) & Ht & Hm). split; [exists pe; split; [exact Hpe|split; [exact Hh|exact Hk]]|].
    subst w3. cbn [w_indexTable w_keypairs set]. by rewrite Ht, Hm. }
  clearbody w3. clear S S1. edestruct sess_hs as (w4 & E & S4 & _); [exact S3|].
  rewrite (bind_run _ _ _ _ _ E). clear E S3. cbv beta in S4.
  destruct (rotate_run p k i _ _ _ _ _ S4) as (w5 & E & S5).
  { split_and!; by apply valid_insert. }
  rewrite (bind_run _ _ _ _ _ E). exists w5, t. cbv zeta. split; [done|exact S5].
Qed.

(** *** Two devices *)

(** Device [w] knows, as its peer [p], the device with private key [sk'], and
    shares [psk] with it. *)
Record configured (w : World) (p : PeerPtr) (h : Handshake) (kps : Keypairs) (sk' psk : list Z) : Prop := {
  cfg_pub : w_publicKey w = publicKey (w_privateKey w);
  cfg_sess : sess p w h kps (w_indexTable w) (w_keypairs w);
  cfg_kps : valid_kps (w_keypairs w) kps;
  cfg_remote : hs_remoteStatic h = publicKey sk';
  cfg_pre : hs_precomputedStaticStatic h = ScalarMult (w_privateKey w) (publicKey sk');
  cfg_psk : hs_presharedKey h = psk
}.

(** Peer [p] of [w] holds [kp], as its current key pair if it initiated the
    session and as its next one otherwise. *)
Definition holds_session (w : World) (p : PeerPtr) (kp : Keypair) : Prop :=
  exists pe k, w_peers w !! p = Some pe /\ w_keypairs w !! k = Some kp /\
    (if kp_isInitiator kp then current (p_keypairs pe) else next (p_keypairs pe)) = Some k.

Lemma sess_hs_at p w h kps t mem : sess p w h kps t mem -> hs_at p w h.
Proof. intros ((pe & ? & ? & _) & _). by exists pe. Qed.

Lemma Begin_holds p w h kps tbl mem s r i w' :
  sess p w h kps tbl mem -> valid_kps mem kps -> derive_keys h = Some (s, r, i) ->
  BeginSymmetricSession p w = Some (true, w') ->
  exists t, holds_session w' p (new_keypair h s r i t).
Proof.
  intros S V D Hr. destruct (BeginSymmetricSession_run _ _ _ _ _ _ _ _ _ S V D) as (w2 & t & E & S').
  rewrite E in Hr. injection Hr as <-. exists t. destruct S' as ((pe & Hp & _ & Hk) & _ & Hm).
  exists pe, (w_fresh w). split; [done|]. split; [rewrite Hm; apply lookup_insert_eq|].
  rewrite Hk. unfold rotated. cbn [kp_isInitiator new_keypair]. by destruct i, (next kps).
Qed.

(** The functions up to the session leave the key pairs alone. *)
Definition keeps_sessions (w w' : World) : Prop :=
  (forall p, p_keypairs <$> (w_peers w' !! p) = p_keypairs <$> (w_peers w !! p)) /\
  w_keypairs w' = w_keypairs w.

#[local] Instance keeps_sessions_pre : PreOrder keeps_sessions.
Proof. split; [by split|]. intros a b c [H1 H2] [H3 H4]. split; [intros p; by rewrite H3|congruence]. Qed.

Lemma keeps_env {A} (m : ST Env A) : pres keeps_sessions (env m).
Proof. intros w a w' (e & _ & ->)%env_inv. done. Qed.

Lemma keeps_set_handshake p f : pres keeps_sessions (set_handshake p f).
Proof.
  intros w a w'. unfold set_handshake, set_peer. destruct (w_peers w !! p) as [pe|] eqn:E; [|done].
  intros [= <- <-]. split; [|done]. intros q. cbn. destruct (decide (p = q)) as [<-|Hne].
  - by rewrite lookup_insert_eq, E.
  - by rewrite lookup_insert_ne.
Qed.

Lemma keeps_peer p : pres keeps_sessions (peer p).
Proof. intros w a w'. unfold peer. destruct (w_peers w !! p); [|done]. by intros [= <- <-]. Qed.

#[local] Hint Resolve keeps_env keeps_set_handshake keeps_peer : pres.

Lemma keeps_new_index fuel p : pres keeps_sessions (new_index fuel p).
Proof.
  induction fuel as [|fuel IH]; cbn [new_index]; pres. by apply pres_modify.
Qed.

Lemma keeps_NewIndexForHandshake p : pres keeps_sessions (NewIndexForHandshake p).
Proof. intros w a w'. apply keeps_new_index. Qed.

Lemma keeps_Delete i : pres keeps_sessions (Delete i).
Proof. by apply pres_modify. Qed.

#[local] Hint Resolve keeps_NewIndexForHandshake keeps_Delete : pres.

Lemma keeps_CreateMessageInitiation p : pres keeps_sessions (CreateMessageInitiation p).
Proof. unfold CreateMessageInitiation, initiation_static, handshake. pres. Qed.

Lemma keeps_ConsumeMessageInitiation m : pres keeps_sessions (ConsumeMessageInitiation m).
Proof. unfold ConsumeMessageInitiation. pres. Qed.

Lemma keeps_CreateMessageResponse p : pres keeps_sessions (CreateMessageResponse p).
Proof. unfold CreateMessageResponse, handshake. pres. Qed.

Lemma keeps_ConsumeMessageResponse m : pres keeps_sessions (ConsumeMessageResponse m).
Proof. unfold ConsumeMessageResponse, Lookup_index, handshake. pres. Qed.

Lemma keeps_sess p w w' h h' kps t mem :
  sess p w h kps t mem -> keeps_sessions w w' -> hs_at p w' h' -> sess p w' h' kps (w_indexTable w') mem.
Proof.
  intros ((pe & Hp & _ & Hk) & _ & Hm) [Hkp Hmem] (pe' & Hp' & Hh'). split; [|split; [done|congruence]].
  exists pe'. split; [done|]. split; [done|]. specialize (Hkp p). rewrite Hp, Hp' in Hkp. cbn in Hkp. congruence.
Qed.

(** The two ends of one session. *)
Definition matching (ka kb : Keypair) : Prop :=
  kp_isInitiator ka = true /\ kp_isInitiator kb = false /\
  kp_send ka = kp_receive kb /\ kp_receive ka = kp_send kb /\
  kp_localIndex ka = kp_remoteIndex kb /\ kp_remoteIndex ka = kp_localIndex kb.

Lemma derive_matching ha hb ck ta tb :
  hs_state ha = handshakeResponseConsumed -> hs_state hb = handshakeResponseCreated ->
  hs_chainKey ha = ck -> hs_chainKey hb = ck ->
  hs_localIndex ha = hs_remoteIndex hb -> hs_remoteIndex ha = hs_localIndex hb ->
  exists k1 k2, derive_keys ha = Some (k1, k2, true) /\ derive_keys hb = Some (k2, k1, false) /\
    matching (new_keypair ha k1 k2 true ta) (new_keypair hb k2 k1 false tb).
Proof.
  intros Ha Hb Hca Hcb H1 H2. unfold derive_keys. rewrite Ha, Hb, Hca, Hcb.
  destruct (KDF2 ck []) as [k1 k2]. by exists k1, k2.
Qed.

(** The sessions both sides begin after a response is created and consumed. *)
Lemma begin_both p q a b ha hb ka kb ta tb ma mb ck :
  sess p a ha ka ta ma -> valid_kps ma ka -> sess q b hb kb tb mb -> valid_kps mb kb ->
  hs_state ha = handshakeResponseConsumed -> hs_state hb = handshakeResponseCreated ->
  hs_chainKey ha = ck -> hs_chainKey hb = ck ->
  hs_localIndex ha = hs_remoteIndex hb -> hs_remoteIndex ha = hs_localIndex hb ->
  exists a' b' kpa kpb, BeginSymmetricSession p a = Some (true, a') /\
    BeginSymmetricSession q b = Some (true, b') /\
    holds_session a' p kpa /\ holds_session b' q kpb /\ matching kpa kpb.
Proof.
  intros Sa Va Sb Vb H1 H2 H3 H4 H5 H6.
  destruct (derive_matching ha hb ck 0 0 H1 H2 H3 H4 H5 H6) as (k1 & k2 & Da & Db & Hm).
  destruct (BeginSymmetricSession_run _ _ _ _ _ _ _ _ _ Sa Va Da) as (a' & _ & Ea & _).
  destruct (BeginSymmetricSession_run _ _ _ _ _ _ _ _ _ Sb Vb Db) as (b' & _ & Eb & _).
  destruct (Begin_holds _ _ _ _ _ _ _ _ _ _ Sa Va Da Ea) as (t1 & Hha).
  destruct (Begin_holds _ _ _ _ _ _ _ _ _ _ Sb Vb Db Eb) as (t2 & Hhb).
  eauto 10.
Qed.

(** The response stage: from an initiation created by [a] and consumed by [b]. *)
Lemma response_stage p q a b ha hb ka kb ta tb ma mb mac1 mac2 m2 b2 :
  sess p a ha ka ta ma -> valid_kps ma ka -> sess q b hb kb tb mb -> valid_kps mb kb ->
  hs_state ha = handshakeInitiationCreated ->
  w_indexTable a !! hs_localIndex ha = Some (mkIndexEntry (Some p) (Some p) None) ->
  hs_hash ha = hs_hash hb -> hs_chainKey ha = hs_chainKey hb ->
  hs_presharedKey ha = hs_presharedKey hb -> hs_localIndex ha = hs_remoteIndex hb ->
  hs_remoteEphemeral hb = publicKey (hs_localEphemeral ha) ->
  hs_remoteStatic hb = publicKey (w_privateKey a) ->
  CreateMessageResponse q b = Some (Some m2, b2) ->
  exists a2 a3 b3 kpa kpb,
    ConsumeMessageResponse (with_macs_r m2 mac1 mac2) a = Some (Some p, a2) /\
    BeginSymmetricSession p a2 = Some (true, a3) /\ BeginSymmetricSession q b2 = Some (true, b3) /\
    holds_session a3 p kpa /\ holds_session b3 q kpb /\ matching kpa kpb.
Proof.
  intros Sa Va Sb Vb Hst Htab Hh Hck Hpsk Hidx Heph Hstat Hr.
  pose proof (keeps_CreateMessageResponse _ _ _ _ Hr) as Kb.
  apply (CreateMessageResponse_inv _ _ _ _ _ (sess_hs_at _ _ _ _ _ _ Sb)) in Hr
    as (sk & idx & hash & _ & -> & Hz1 & Hz2 & Hb2 & _).
  pose proof (keeps_sess _ _ _ _ _ _ _ _ Sb Kb Hb2) as Sb2. clear Kb Hb2.
  rewrite Heph, Hstat in *. unfold publicKey in *.
  rewrite (ScalarMult_comm sk (hs_localEphemeral ha)), (ScalarMult_comm sk (w_privateKey a)) in *.
  rewrite <- Hh, <- Hck, <- Hpsk, <- Hidx in *.
  destruct (ConsumeMessageResponse_ok p a ha idx (ScalarBaseMult sk) _ _ mac1 mac2 (sess_hs_at _ _ _ _ _ _ Sa)
    Hst Htab eq_refl Hz1 eq_refl Hz2) as (a2 & hash' & Ha2 & Hha2).
  pose proof (keeps_ConsumeMessageResponse _ _ _ _ Ha2) as Ka.
  pose proof (keeps_sess _ _ _ _ _ _ _ _ Sa Ka Hha2) as Sa2.
  destruct (begin_both p q a2 b2 _ _ ka kb _ _ _ _ _ Sa2 Va Sb2 Vb eq_refl eq_refl eq_refl eq_refl Hidx
    eq_refl) as (a3 & b3 & kpa & kpb & ?). exists a2, a3, b3, kpa, kpb. tauto.
Qed.

(** From an initiation that [a] has created: [b] accepts it, and answers it with
    a response that begins the session on both sides. *)
Lemma handshake_completes psk a b p q ha hb ka kb m1 a1 mac1 mac2 mac3 mac4 :
  configured a p ha ka (w_privateKey b) psk -> configured b q hb kb (w_privateKey a) psk ->
  accepts b q hb (w_publicKey a) (stamp (tai_time (next_now (o_env (w_outside a))))) ->
  CreateMessageInitiation p a = Some (Some m1, a1) ->
  exists b1 ha1 hb1, ConsumeMessageInitiation (with_macs m1 mac1 mac2) b = Some (Some q, b1) /\
    hs_at p a1 ha1 /\ hs_at q b1 hb1 /\ hs_state hb1 = handshakeInitiationConsumed /\
    hs_localIndex hb1 = hs_localIndex hb /\ hs_remoteStatic hb1 = hs_remoteStatic hb /\
    hs_remoteEphemeral hb1 = publicKey (hs_localEphemeral ha1) /\
    forall m2 b2, CreateMessageResponse q b1 = Some (Some m2, b2) ->
    exists a2 a3 b3 kpa kpb,
      ConsumeMessageResponse (with_macs_r m2 mac3 mac4) a1 = Some (Some p, a2) /\
      BeginSymmetricSession p a2 = Some (true, a3) /\ BeginSymmetricSession q b2 = Some (true, b3) /\
      holds_session a3 p kpa /\ holds_session b3 q kpb /\ matching kpa kpb.
Proof.
  intros Ca Cb Hacc Hm1. pose proof (cfg_sess _ _ _ _ _ _ Ca) as Sa. pose proof (cfg_sess _ _ _ _ _ _ Cb) as Sb.
  pose proof (keeps_CreateMessageInitiation _ _ _ _ Hm1) as Ka.
  apply (CreateMessageInitiation_inv _ _ _ _ _ (sess_hs_at _ _ _ _ _ _ Sa)) in Hm1
    as (sk & idx & -> & Hz1 & Hz2 & Hha & Htab & Hpriv & _).
  pose proof (keeps_sess _ _ _ _ _ _ _ _ Sa Ka Hha) as Sa1. clear Ka.
  rewrite (cfg_remote _ _ _ _ _ _ Ca), (cfg_pre _ _ _ _ _ _ Ca) in *.
  rewrite <- (cfg_pub _ _ _ _ _ _ Cb) in *.
  set (ss2 := ScalarMult (w_privateKey a) (w_publicKey b)) in *.
  assert (Hss2 : hs_precomputedStaticStatic hb = ss2).
  { rewrite (cfg_pre _ _ _ _ _ _ Cb). subst ss2. rewrite (cfg_pub _ _ _ _ _ _ Cb). apply ScalarMult_comm. }
  assert (Hss1 : ScalarMult sk (w_publicKey b) = ScalarMult (w_privateKey b) (publicKey sk)).
  { rewrite (cfg_pub _ _ _ _ _ _ Cb). apply ScalarMult_comm. }
  destruct (ConsumeMessageInitiation_ok b q hb idx (w_publicKey a) (publicKey sk) _ ss2 _ mac1 mac2
    Hacc ltac:(by rewrite <- Hss1) eq_refl Hss2 Hz2) as (b1 & t & Hb1 & Hhb1).
  rewrite Hss1 in *. pose proof (keeps_ConsumeMessageInitiation _ _ _ _ Hb1) as Kb.
  pose proof (keeps_sess _ _ _ _ _ _ _ _ Sb Kb Hhb1) as Sb1. eexists b1, _, _. split; [exact Hb1|].
  split; [exact Hha|]. split; [exact Hhb1|]. do 4 (split; [reflexivity|]).
  intros m2 b2. eapply (response_stage _ _ _ _ _ _ _ _ _ _ _ _ mac3 mac4 _ _ Sa1 (cfg_kps _ _ _ _ _ _ Ca)
    Sb1 (cfg_kps _ _ _ _ _ _ Cb)); try done.
  - cbn. by rewrite (cfg_psk _ _ _ _ _ _ Ca), (cfg_psk _ _ _ _ _ _ Cb).
  - rewrite Hpriv. exact (cfg_remote _ _ _ _ _ _ Cb).
Qed.

End noise.
