(* ===== verification/NoiseComplete.v ===== *)
(** * The handshake completes

    That the messages of a handshake are created when the random source delivers
    what they need, and with [NoiseCorrect] that a handshake between two devices
    configured for each other runs to its end. *)

From stdpp Require Import base numbers list gmap.
From S2P Require Import Tai64n Replay Ratelimiter AllowedIPs.
From S2P Require Import Prelude Setters GoStrings Env Crypto Messages Cookie DeviceState Noise NoiseCorrect.

Open Scope Z_scope.

(** The first draw of four bytes that spells an unused index, and the draws
    after it. *)
Fixpoint first_unused (table : gmap Z IndexTableEntry) (rs : list (list Z)) : option (Z * list (list Z)) :=
  match rs with
  | [] => None
  | r :: rs =>
      if decide (length r = 4%nat) then
        match table !! le_uint r with
        | None => Some (le_uint r, rs)
        | Some _ => first_unused table rs
        end
      else None
  end.

(** Peer [p] of [w] has handshake [h]; the index table and the environment. *)
Record stage (p : PeerPtr) (w : World) (h : Handshake) (table : gmap Z IndexTableEntry) (e : Env) : Prop := {
  st_hs : hs_at p w h;
  st_table : w_indexTable w = table;
  st_env : o_env (w_outside w) = e
}.

Lemma stage_get p w h t e : stage p w h t e -> handshake p w = Some (h, w).
Proof. intros []. by apply handshake_run. Qed.

Lemma stage_set p w h t e f :
  stage p w h t e -> exists w', set_handshake p f w = Some (tt, w') /\ stage p w' (f h) t e.
Proof.
  intros [Hh Ht He]. eexists. split; [by apply (set_handshake_run _ _ _ h)|].
  split; [by apply hs_at_upd|done..].
Qed.

Lemma stage_env {A} (m : ST Env A) p w h t e a e' :
  stage p w h t e -> m e = Some (a, e') -> exists w', env m w = Some (a, w') /\ stage p w' h t e'.
Proof.
  intros [Hh Ht He] Hm. unfold env. rewrite He, Hm. eexists. split; [done|]. by split.
Qed.

Lemma stage_delete p w h t e i :
  stage p w h t e -> exists w', Delete i w = Some (tt, w') /\ stage p w' h (delete i t) e.
Proof. intros [Hh <- He]. eexists. split; [done|]. by split. Qed.

Lemma copy_all (b r : list Z) : length r = length b -> copy b r = r.
Proof. intros Hl. unfold copy. rewrite take_ge, drop_ge by lia. apply app_nil_r. Qed.

Lemma rand_Read_ok b r rs e :
  rands e = r :: rs -> length r = length b -> rand_Read b e = Some ((r, true), e <| rands := rs |>).
Proof.
  intros Hr Hl. unfold rand_Read. rewrite Hr. change (default [] (head (r :: rs))) with r. change (tail (r :: rs)) with rs. rewrite (copy_all _ _ Hl).
  by rewrite bool_decide_true.
Qed.

Lemma randUint32_ok r rs e :
  rands e = r :: rs -> length r = 4%nat -> randUint32 e = Some ((le_uint r, true), e <| rands := rs |>).
Proof.
  intros Hr Hl. unfold randUint32. rewrite bind_eq, (rand_Read_ok _ r rs) by (by rewrite ?length_zeros). cbv beta iota.
  unfold le_get. rewrite decide_True by lia. rewrite (take_ge r) by lia. done.
Qed.

Lemma newPrivateKey_ok r rs e sk :
  rands e = r :: rs -> length r = NoisePrivateKeySize -> clamp r = Some sk ->
  newPrivateKey e = Some ((sk, true), e <| rands := rs |>).
Proof.
  intros Hr Hl Hc. unfold newPrivateKey. rewrite bind_eq, (rand_Read_ok _ r rs) by (by rewrite ?length_zeros).
  cbv beta iota. by rewrite Hc.
Qed.

(** The loop ends with the first unused index. *)
Lemma new_index_ok fuel p w h t e i rs :
  (length (rands e) <= fuel)%nat -> stage p w h t e -> first_unused t (rands e) = Some (i, rs) ->
  exists w', new_index fuel p w = Some ((i, true), w') /\
    stage p w' h (<[i := mkIndexEntry (Some p) (Some p) None]> t) (e <| rands := rs |>).
Proof.
  revert w e. induction fuel as [|fuel IH]; intros w e Hf S Hu.
  { destruct (rands e) eqn:E; [done|cbn in Hf; lia]. }
  cbn [new_index]. destruct (rands e) as [|r rs'] eqn:Er; [done|]. cbn [first_unused] in Hu.
  case_decide as Hl; [|done].
  destruct (stage_env randUint32 _ _ _ _ _ _ _ S (randUint32_ok r rs' e Er Hl)) as (w1 & E1 & S1).
  rewrite bind_eq, E1. cbv beta iota. rewrite bind_eq, gets_eq. cbv beta iota. rewrite (st_table _ _ _ _ _ S1).
  destruct (t !! le_uint r) eqn:Et.
  - destruct (IH w1 (e <| rands := rs' |>)) as (w2 & E2 & S2); [cbn in *; lia|done|done|by exists w2].
  - injection Hu as <- <-. rewrite bind_eq, modify_eq. eexists. split; [reflexivity|].
    destruct S1 as [? <- ?]. by split.
Qed.

Lemma stage_index p w h t e i rs :
  stage p w h t e -> first_unused t (rands e) = Some (i, rs) ->
  exists w', NewIndexForHandshake p w = Some ((i, true), w') /\
    stage p w' h (<[i := mkIndexEntry (Some p) (Some p) None]> t) (e <| rands := rs |>).
Proof.
  intros S Hu. unfold NewIndexForHandshake. rewrite (st_env _ _ _ _ _ S). apply new_index_ok; [lia|done|done].
Qed.

(** Runs the next statement on the handshake that [S : stage p w h t e] tracks. *)
Ltac stage_by L S :=
  let E := fresh "E" in let w := fresh "w" in let S2 := fresh "S" in
  destruct L as (w & E & S2); clear S; rename S2 into S; rewrite (bind_run _ _ _ _ _ E); clear E;
  cbv beta iota in S |- *.

Ltac stage_go S :=
  match goal with
  | |- context [(set_handshake _ ?f ≫= _) _] => stage_by (stage_set _ _ _ _ _ f S) S
  | |- context [(handshake _ ≫= _) _] => rewrite (bind_run _ _ _ _ _ (stage_get _ _ _ _ _ S)); cbv beta iota zeta
  | |- context [(Delete ?i ≫= _) _] => stage_by (stage_delete _ _ _ _ _ i S) S
  end; hs_eval S.

(** Evaluates the field reads in the goal. *)
Ltac hs_eval_goal :=
  cbn [hs_state hs_localEphemeral hs_remoteStatic hs_remoteEphemeral hs_presharedKey hs_chainKey
    hs_precomputedStaticStatic hs_hash hs_localIndex hs_remoteIndex set h_mixHash h_mixKey].

Section noise.
Context `{CryptoLaws}.

(** An initiation is created when the source delivers a key and an unused index,
    and the secrets are not zero. *)
Lemma CreateMessageInitiation_ok p w h t e r rs sk :
  stage p w h t e -> rands e = r :: rs -> length r = NoisePrivateKeySize -> clamp r = Some sk ->
  isZero (ScalarMult sk (hs_remoteStatic h)) = false -> isZero (hs_precomputedStaticStatic h) = false ->
  is_Some (first_unused (delete (hs_localIndex h) t) rs) ->
  exists m w' h', CreateMessageInitiation p w = Some (Some m, w') /\ hs_at p w' h' /\ hs_localEphemeral h' = sk.
Proof.
  intros S Hr Hl Hc Hz1 Hz2 [[i rs'] Hu]. unfold CreateMessageInitiation. stage_go S.
  stage_by (stage_env newPrivateKey _ _ _ _ _ _ _ S (newPrivateKey_ok r rs e sk Hr Hl Hc)) S. stage_go S.
  rewrite bind_eq. unfold initiation_static. do 5 stage_go S. hs_eval_goal.
  rewrite (sharedSecret_run _ _ Hz1). cbv beta iota. destruct (KDF2 _ _) as [ck key]. stage_go S.
  rewrite bind_eq, gets_eq. cbv beta iota. stage_go S. rewrite ret_eq. cbv beta iota. stage_go S. hs_eval_goal.
  rewrite Hz2. destruct (KDF2 _ _) as [ck2 key2]. stage_go S.
  stage_by (stage_env now _ _ _ _ _ _ _ S (now_eq _)) S. stage_go S.
  stage_by (stage_index _ _ _ _ _ i rs' S Hu) S. do 3 stage_go S.
  eexists _, _, _. split; [reflexivity|]. split; [apply S|reflexivity].
Qed.

(** So is a response, after an initiation was consumed. *)
Lemma CreateMessageResponse_ok p w h t e i r rs sk :
  stage p w h t e -> hs_state h = handshakeInitiationConsumed ->
  first_unused (delete (hs_localIndex h) t) (rands e) = Some (i, r :: rs) ->
  length r = NoisePrivateKeySize -> clamp r = Some sk ->
  isZero (ScalarMult sk (hs_remoteEphemeral h)) = false -> isZero (ScalarMult sk (hs_remoteStatic h)) = false ->
  exists m w', CreateMessageResponse p w = Some (Some m, w').
Proof.
  intros S Hst Hu Hl Hc Hz1 Hz2. unfold CreateMessageResponse. stage_go S. rewrite bool_decide_true by done.
  stage_go S. stage_by (stage_index _ _ _ _ _ i (r :: rs) S Hu) S. stage_go S.
  stage_by (stage_env newPrivateKey _ _ _ _ _ _ _ S (newPrivateKey_ok r rs (e <| rands := r :: rs |>) sk eq_refl Hl Hc)) S. do 3 stage_go S.
  rewrite (sharedSecret_run _ _ Hz1). cbv beta iota. stage_go S.
  rewrite (sharedSecret_run _ _ Hz2). cbv beta iota. do 2 stage_go S.
  destruct (KDF3 _ _) as [[ck tau] key]. do 5 stage_go S. eexists _, _. reflexivity.
Qed.

(** Consuming an initiation draws nothing and leaves the index table alone. *)
Definition keeps_draws (w w' : World) : Prop :=
  w_indexTable w' = w_indexTable w /\ rands (o_env (w_outside w')) = rands (o_env (w_outside w)).

#[local] Instance keeps_draws_pre : PreOrder keeps_draws.
Proof. split; [by split|]. intros a b c [H1 H2] [H3 H4]. split; congruence. Qed.

Lemma draws_ConsumeMessageInitiation m : pres keeps_draws (ConsumeMessageInitiation m).
Proof.
  assert (Hs : forall t, pres keeps_draws (env (Since t))) by (intros t w a w' [= <- <-]; done).
  assert (Hn : pres keeps_draws (env now)) by (intros w a w' [= <- <-]; done).
  assert (Hh : forall p f, pres keeps_draws (set_handshake p f)).
  { intros p f w a w'. unfold set_handshake, set_peer. destruct (w_peers w !! p); [|done]. by intros [= <- <-]. }
  assert (Hp : forall p, pres keeps_draws (peer p)) by (intros p w a w' [_ ->]%deref_inv; reflexivity).
  unfold ConsumeMessageInitiation. pres.
Qed.

(** The source of [w] delivers the ephemeral key [sk] and an unused index for an
    initiation of a peer with handshake [h]. *)
Definition draws_initiation (w : World) (h : Handshake) (sk : list Z) : Prop :=
  exists r rs, rands (o_env (w_outside w)) = r :: rs /\ length r = NoisePrivateKeySize /\ clamp r = Some sk /\
    is_Some (first_unused (delete (hs_localIndex h) (w_indexTable w)) rs).

(** The same for a response, which draws the index first. *)
Definition draws_response (w : World) (h : Handshake) (sk : list Z) : Prop :=
  exists i r rs, first_unused (delete (hs_localIndex h) (w_indexTable w)) (rands (o_env (w_outside w))) =
      Some (i, r :: rs) /\ length r = NoisePrivateKeySize /\ clamp r = Some sk.

(** The secret of two private keys is one the code accepts. *)
Definition agreeable (x y : list Z) : Prop := isZero (ScalarMult x (publicKey y)) = false.

(** C2: a handshake between two devices configured for each other completes with
    the same keys on both sides. Device [a] draws the ephemeral key [ea] and an
    unused index, [b] draws [eb] and an unused index, the four secrets of these
    keys are not zero, and the time of [a] is new to [b] and not too soon after
    the last initiation. Then [a] creates an initiation, [b] accepts it whatever
    its MAC fields and creates a response, [a] accepts that, both sides begin a
    session, and each side sends with the key and to the index with which the
    other receives. *)
Theorem handshake_agreement psk a b p q ha hb ka kb ea eb mac1 mac2 mac3 mac4 :
  configured a p ha ka (w_privateKey b) psk -> configured b q hb kb (w_privateKey a) psk ->
  accepts b q hb (w_publicKey a) (stamp (tai_time (next_now (o_env (w_outside a))))) ->
  draws_initiation a ha ea -> draws_response b hb eb ->
  agreeable (w_privateKey a) (w_privateKey b) -> agreeable ea (w_privateKey b) ->
  agreeable eb ea -> agreeable eb (w_privateKey a) ->
  exists m1 a1 b1 m2 b2 a2 a3 b3 kpa kpb,
    CreateMessageInitiation p a = Some (Some m1, a1) /\
    ConsumeMessageInitiation (with_macs m1 mac1 mac2) b = Some (Some q, b1) /\
    CreateMessageResponse q b1 = Some (Some m2, b2) /\
    ConsumeMessageResponse (with_macs_r m2 mac3 mac4) a1 = Some (Some p, a2) /\
    BeginSymmetricSession p a2 = Some (true, a3) /\ BeginSymmetricSession q b2 = Some (true, b3) /\
    holds_session a3 p kpa /\ holds_session b3 q kpb /\ matching kpa kpb.
Proof.
  intros Ca Cb Hacc (r & rs & Hr & Hl & Hc & Hu) (i & r' & rs' & Hu' & Hl' & Hc') Z1 Z2 Z3 Z4.
  destruct (CreateMessageInitiation_ok p a ha (w_indexTable a) (o_env (w_outside a)) r rs ea) as (m1 & a1 & h1 & Hm1 & Ha1 & <-);
    try done.
  { split; [by eapply sess_hs_at, Ca|done..]. }
  { by rewrite (cfg_remote _ _ _ _ _ _ Ca). }
  { by rewrite (cfg_pre _ _ _ _ _ _ Ca). }
  destruct (handshake_completes psk a b p q ha hb ka kb m1 a1 mac1 mac2 mac3 mac4 Ca Cb Hacc Hm1)
    as (b1 & ha1 & hb1 & Hb1 & Ha1' & Hhb1 & Hst & Hidx & Hrem & Heph & Hrest).
  rewrite (hs_at_fun _ _ _ _ Ha1' Ha1) in *. destruct (draws_ConsumeMessageInitiation _ _ _ _ Hb1) as [Ht Hd].
  destruct (CreateMessageResponse_ok q b1 hb1 (w_indexTable b1) (o_env (w_outside b1)) i r' rs' eb)
    as (m2 & b2 & Hm2); try done.
  { by rewrite Hidx, Ht, Hd. }
  { by rewrite Heph. }
  { by rewrite Hrem, (cfg_remote _ _ _ _ _ _ Cb). }
  destruct (Hrest _ _ Hm2) as (a2 & a3 & b3 & kpa & kpb & ?).
  exists m1, a1, b1, m2, b2, a2, a3, b3, kpa, kpb. tauto.
Qed.

End noise.
