(* ===== verification/NoiseReplay.v ===== *)
(** * Replayed and forged handshake messages

    Over any sequence of handshake operations of a device, an initiation is
    consumed at most once, and messages that are refused change no state. *)

From stdpp Require Import base numbers list gmap.
From S2P Require Import Tai64n Replay Ratelimiter AllowedIPs.
From S2P Require Import Prelude Setters GoStrings Env Crypto Messages Cookie DeviceState Noise NoiseCorrect.

Open Scope Z_scope.

Section replay.
Context `{Crypto}.

(** A handshake operation of the device; its result is the peer whose
    initiation was consumed, if it consumed one. *)
Inductive hs_op :=
| OpCreateInitiation (p : PeerPtr)
| OpConsumeInitiation (m : Initiation.MessageInitiation)
| OpCreateResponse (p : PeerPtr)
| OpConsumeResponse (m : Response.MessageResponse)
| OpBeginSession (p : PeerPtr)
| OpReceivedWithKeypair (p : PeerPtr) (k : KeypairPtr).

Definition run_op (o : hs_op) : M (option PeerPtr) :=
  match o with
  | OpCreateInitiation p => CreateMessageInitiation p;; mret None
  | OpConsumeInitiation m => ConsumeMessageInitiation m
  | OpCreateResponse p => CreateMessageResponse p;; mret None
  | OpConsumeResponse m => ConsumeMessageResponse m;; mret None
  | OpBeginSession p => BeginSymmetricSession p;; mret None
  | OpReceivedWithKeypair p k => ReceivedWithKeypair p k;; mret None
  end.

Fixpoint run_ops (l : list hs_op) : M (list (option PeerPtr)) :=
  match l with
  | [] => mret []
  | o :: l => r ← run_op o; rs ← run_ops l; mret (r :: rs)
  end.

(** The peer and the timestamp an initiation opens to. *)
Definition opened (m : Initiation.MessageInitiation) (w : World) : option (PeerPtr * list Z) :=
  '(hash, ck, pk) ← initiation_open_static m (w_privateKey w) (w_publicKey w);
  p ← w_keyMap w !! pk;
  pe ← w_peers w !! p;
  '(_, _, ts) ← initiation_open_timestamp m (p_handshake pe) hash ck;
  Some (p, ts).

(** [h'] may follow [h]: the timestamp only moves forward. *)
Definition hs_later (h h' : Handshake) : Prop :=
  hs_precomputedStaticStatic h' = hs_precomputedStaticStatic h /\
  (hs_lastTimestamp h' = hs_lastTimestamp h \/ After (hs_lastTimestamp h') (hs_lastTimestamp h) = true).

Definition later (w w' : World) : Prop :=
  w_privateKey w' = w_privateKey w /\ w_publicKey w' = w_publicKey w /\ w_keyMap w' = w_keyMap w /\
  forall p, option_Forall2 (fun pe pe' => hs_later (p_handshake pe) (p_handshake pe'))
    (w_peers w !! p) (w_peers w' !! p).

#[local] Instance hs_later_pre : PreOrder hs_later.
Proof.
  split; [split; auto|]. intros a b c [E1 L1] [E2 L2]. split; [congruence|].
  destruct L1 as [L1|L1], L2 as [L2|L2]; [left; congruence|right..].
  - by rewrite <- L1.
  - by rewrite L2.
  - by eapply After_trans.
Qed.

#[local] Instance later_pre : PreOrder later.
Proof.
  split.
  - intros w. split_and!; try done. intros p. destruct (w_peers w !! p); constructor. reflexivity.
  - intros a b c (P1 & Q1 & K1 & H1) (P2 & Q2 & K2 & H2). split_and!; try congruence. intros p.
    specialize (H1 p). specialize (H2 p). destruct H1; inversion H2; subst; constructor. by etrans.
Qed.

Lemma later_refl w : later w w.
Proof. reflexivity. Qed.

Lemma later_set_peer p f :
  (forall pe, hs_later (p_handshake pe) (p_handshake (f pe))) -> pres later (set_peer p f).
Proof.
  intros Hf w a w'. unfold set_peer. destruct (w_peers w !! p) as [pe|] eqn:E; [|done].
  intros [= <- <-]. split_and!; try done. intros q. cbn. destruct (decide (p = q)) as [<-|Hne].
  - rewrite lookup_insert_eq, E. constructor. apply Hf.
  - rewrite lookup_insert_ne by done. apply later_refl.
Qed.

Lemma later_set_handshake p f : (forall h, hs_later h (f h)) -> pres later (set_handshake p f).
Proof. intros Hf. apply later_set_peer. intros pe. apply Hf. Qed.

Lemma later_same w w' :
  w_privateKey w' = w_privateKey w -> w_publicKey w' = w_publicKey w -> w_keyMap w' = w_keyMap w ->
  w_peers w' = w_peers w -> later w w'.
Proof. intros ? ? ? E. split_and!; try done. rewrite E. apply later_refl. Qed.

Lemma later_env {A} (m : ST Env A) : pres later (env m).
Proof. intros w a w' (e & _ & ->)%env_inv. by apply later_same. Qed.

Lemma later_modify f :
  (forall w, w_privateKey (f w) = w_privateKey w /\ w_publicKey (f w) = w_publicKey w /\
     w_keyMap (f w) = w_keyMap w /\ w_peers (f w) = w_peers w) -> pres later (modify f).
Proof. intros Hf. apply pres_modify. intros w. destruct (Hf w) as (? & ? & ? & ?). by apply later_same. Qed.

Lemma later_peer p : pres later (peer p).
Proof. unfold peer. intros w a w'. destruct (w_peers w !! p); [|done]. intros [= <- <-]. reflexivity. Qed.

Lemma later_keypair k : pres later (keypair k).
Proof. unfold keypair. intros w a w'. destruct (w_keypairs w !! k); [|done]. intros [= <- <-]. reflexivity. Qed.

Lemma later_fresh : pres later fresh.
Proof. intros w a w' [= <- <-]. by apply later_same. Qed.

Lemma hs_later_same h h' :
  hs_precomputedStaticStatic h' = hs_precomputedStaticStatic h ->
  hs_lastTimestamp h' = hs_lastTimestamp h -> hs_later h h'.
Proof. split; auto. Qed.

#[local] Hint Resolve later_env later_peer later_keypair later_fresh : pres.
#[local] Hint Extern 1 (pres later (set_peer _ _)) =>
  apply later_set_peer; intros ?; by apply hs_later_same : pres.
#[local] Hint Extern 1 (pres later (set_handshake _ _)) =>
  apply later_set_handshake; intros ?; by apply hs_later_same : pres.
#[local] Hint Extern 1 (pres later (modify _)) => by apply later_modify : pres.

Lemma later_new_index fuel p : pres later (new_index fuel p).
Proof. induction fuel as [|fuel IH]; cbn [new_index]; pres. Qed.

Lemma later_NewIndexForHandshake p : pres later (NewIndexForHandshake p).
Proof. intros w a w'. apply later_new_index. Qed.

#[local] Hint Resolve later_NewIndexForHandshake : pres.

Lemma later_consume m : pres later (ConsumeMessageInitiation m).
Proof.
  unfold ConsumeMessageInitiation. pres. apply later_set_handshake. intros h. split; [done|]. cbn.
  destruct (After _ (hs_lastTimestamp h)) eqn:E; auto.
Qed.

#[local] Hint Resolve later_consume : pres.

Lemma later_run_op o : pres later (run_op o).
Proof.
  destruct o; cbn [run_op];
    unfold CreateMessageInitiation, initiation_static, CreateMessageResponse, ConsumeMessageResponse,
      BeginSymmetricSession, alloc_keypair, ReceivedWithKeypair, rotate_keypairs, SwapIndexForKeypair, DeleteKeypair,
      Delete, Lookup_index, handshake; pres.
Qed.

Lemma later_opened m w w' : later w w' -> opened m w' = opened m w.
Proof.
  intros (P & Q & K & L). unfold opened. rewrite P, Q, K.
  destruct (initiation_open_static _ _ _) as [[[hash ck] pk]|]; [|done]. cbn.
  destruct (w_keyMap w !! pk) as [p|]; [|done]. cbn. specialize (L p). destruct L as [pe pe' [E _]|]; [|done].
  cbn. unfold initiation_open_timestamp. by rewrite E.
Qed.

(** A consumed initiation was newer than the last one and is the last one now. *)
Lemma consume_inv m w p w' :
  ConsumeMessageInitiation m w = Some (Some p, w') ->
  exists ts h h', opened m w = Some (p, ts) /\ hs_at p w h /\
    After ts (hs_lastTimestamp h) = true /\ hs_at p w' h' /\ hs_lastTimestamp h' = ts.
Proof.
  unfold ConsumeMessageInitiation. destruct (negb _); [done|]. rewrite bind_eq, get_eq. cbv beta iota.
  unfold opened. destruct (initiation_open_static _ _ _) as [[[hash ck] pk]|]; [|done]. cbn [mbind option_bind].
  destruct (w_keyMap w !! pk) as [q|]; [|done]. intros (pe & w1 & Hpe & Hr)%bind_inv.
  unfold peer in Hpe. destruct (w_peers w !! q) as [pe1|] eqn:Eq; [|done]. injection Hpe as -> <-.
  cbn [mbind option_bind]. destruct (negb (p_isRunning pe)); [done|].
  destruct (initiation_open_timestamp _ _ _ _) as [[[hash' ck'] ts]|] eqn:Ets; [|done].
  rewrite bind_eq, env_Since in Hr. cbv beta iota in Hr.
  destruct (After ts _) eqn:Haf; [|done]. cbn [negb] in Hr. destruct (_ <=? _); [done|].
  assert (T : hs_to q w (w <| w_outside; o_env ::= tick |>) (p_handshake pe)) by (split; [by exists pe|done..]).
  hs_step Hr T. env_step Hr T n En. hs_step Hr T. injection Hr as -> <-. destruct T as [T _ _].
  exists ts, (p_handshake pe). eexists. split; [rewrite Eq; cbn; by rewrite Ets|]. split; [by exists pe|]. split; [exact Haf|].
  split; [exact T|]. cbn. by rewrite Haf.
Qed.

Lemma opened_macs m mac1 mac2 w : opened (with_macs m mac1 mac2) w = opened m w.
Proof. done. Qed.

Lemma run_ops_later l : pres later (run_ops l).
Proof. pose proof later_run_op. induction l as [|o l IH]; cbn [run_ops]; pres. Qed.

(** Once an initiation is consumed, no later state accepts its contents. *)
Lemma consumed_never_again m m' w p w1 w2 r w3 :
  ConsumeMessageInitiation m w = Some (Some p, w1) -> later w1 w2 ->
  with_macs m' [] [] = with_macs m [] [] ->
  ConsumeMessageInitiation m' w2 = Some (r, w3) -> r = None.
Proof.
  intros H1 L Hm H2. destruct r as [q|]; [|done]. exfalso.
  pose proof (later_consume _ _ _ _ H1) as L1.
  apply consume_inv in H1 as (ts & h & h' & O1 & _ & _ & A1 & <-).
  apply consume_inv in H2 as (ts' & g & g' & O2 & G & Haf & _).
  assert (O : opened m' w2 = opened m w).
  { rewrite <- (opened_macs m' [] []), Hm, opened_macs. apply later_opened. by etrans. }
  rewrite O1, O2 in O. injection O as -> ->.
  destruct A1 as (pe & Hpe & <-), G as (pe2 & Hpe2 & <-). destruct L as (_ & _ & _ & L). specialize (L p).
  rewrite Hpe, Hpe2 in L. inversion L as [? ? [_ HL]|]; subst. destruct HL as [HL|HL].
  - rewrite HL, After_irrefl in Haf. done.
  - pose proof (After_trans _ _ _ Haf HL) as Hc. by rewrite After_irrefl in Hc.
Qed.

Lemma run_ops_lookup l w rs w' i o :
  run_ops l w = Some (rs, w') -> l !! i = Some o ->
  exists w1 r w2, later w w1 /\ run_op o w1 = Some (r, w2) /\ rs !! i = Some r /\
    exists rs', run_ops (drop (S i) l) w2 = Some (rs', w') /\ forall j, rs !! (S i + j)%nat = rs' !! j.
Proof.
  revert w rs i. induction l as [|x l IH]; intros w rs i Hr Hi; [done|].
  cbn [run_ops] in Hr. apply bind_inv in Hr as (r & w1 & H1 & Hr). apply bind_inv in Hr as (rs' & w2 & H2 & Hr).
  injection Hr as <- <-. destruct i as [|i].
  - injection Hi as ->. exists w, r, w1. split; [apply later_refl|]. split; [done|]. split; [done|].
    exists rs'. split; [exact H2|done].
  - destruct (IH _ _ _ H2 Hi) as (wa & ra & wb & L & Ra & Hra & rs2 & H3 & H4).
    exists wa, ra, wb. split; [etrans; [by eapply later_run_op|done]|]. eauto 10.
Qed.

(** ** Properties *)

(** C4: an initiation is consumed at most once. In any run of handshake
    operations of a device, once an initiation has been consumed for a peer,
    every later message that carries the same contents, whatever its MACs, is
    refused. *)
Theorem initiation_no_replay l w rs w' i j m m' p :
  run_ops l w = Some (rs, w') -> (i < j)%nat ->
  l !! i = Some (OpConsumeInitiation m) -> l !! j = Some (OpConsumeInitiation m') ->
  with_macs m' [] [] = with_macs m [] [] ->
  rs !! i = Some (Some p) -> rs !! j = Some None.
Proof.
  intros Hr Hij Hi Hj Hm Hri. destruct (run_ops_lookup _ _ _ _ _ _ Hr Hi)
    as (w1 & r & w2 & _ & H1 & Hri' & rs' & Hr' & Hrs). rewrite Hri in Hri'. injection Hri' as <-.
  replace j with (S i + (j - S i))%nat in * by lia. rewrite <- lookup_drop in Hj.
  destruct (run_ops_lookup _ _ _ _ _ _ Hr' Hj) as (w3 & r3 & w4 & L & H3 & Hrj & _).
  rewrite Hrs, Hrj. f_equal. by eapply consumed_never_again.
Qed.

(** C26: refused handshake messages change nothing. An initiation that is not
    consumed leaves the device as it was, up to a reading of the clock; a
    response that is not consumed leaves it exactly as it was, if the index
    table names the peer of each handshake, as [NewIndexForHandshake] does. *)
Theorem refused_unchanged w w' :
  (forall m, ConsumeMessageInitiation m w = Some (None, w') ->
     w' = w \/ w' = w <| w_outside; o_env ::= tick |>) /\
  ((forall i e, w_indexTable w !! i = Some e -> it_handshake e = None \/ it_peer e <> None) ->
   forall m, ConsumeMessageResponse m w = Some (None, w') -> w' = w).
Proof.
  split.
  - intros m. unfold ConsumeMessageInitiation. destruct (negb _); [intros [= <-]; by left|].
    rewrite bind_eq, get_eq. cbv beta iota.
    destruct (initiation_open_static _ _ _) as [[[hash ck] pk]|]; [|intros [= <-]; by left].
    destruct (w_keyMap w !! pk) as [q|]; [|intros [= <-]; by left]. intros (pe & w1 & Hpe & Hr)%bind_inv.
    unfold peer in Hpe. destruct (w_peers w !! q) as [pe1|] eqn:Eq; [|done]. injection Hpe as -> <-.
    destruct (negb (p_isRunning pe)); [injection Hr as <-; by left|].
    destruct (initiation_open_timestamp _ _ _ _) as [[[hash' ck'] ts]|]; [|injection Hr as <-; by left].
    rewrite bind_eq, env_Since in Hr. cbv beta iota in Hr. right.
    destruct (negb _); [by injection Hr|]. destruct (_ <=? _); [by injection Hr|].
    apply bind_inv in Hr as (? & ? & _ & Hr). apply bind_inv in Hr as (? & ? & _ & Hr).
    apply bind_inv in Hr as (? & ? & _ & Hr). discriminate Hr.
  - intros Hwf m. unfold ConsumeMessageResponse, Lookup_index. destruct (negb _); [by intros [= <-]|].
    rewrite bind_eq, gets_eq. cbv beta iota.
    destruct (w_indexTable w !! Response.Receiver m) as [e|] eqn:Ee; cbn; [|by intros [= <-]].
    destruct (it_handshake e) as [q|] eqn:Eh; [|by intros [= <-]].
    intros (h & w1 & Hh & Hr)%bind_inv. unfold handshake in Hh. apply bind_inv in Hh as (pe & w2 & Hp & [= _ <-]).
    unfold peer in Hp. destruct (w_peers w !! q); [|done]. injection Hp as _ <-.
    rewrite bind_eq, gets_eq in Hr. cbv beta iota in Hr.
    destruct (response_open _ _ _) as [[hash ck]|]; [|by injection Hr].
    apply bind_inv in Hr as (? & ? & _ & Hr). injection Hr as Hr _.
    destruct (Hwf _ _ Ee) as [|]; congruence.
Qed.

End replay.
