(* ===== verification/Timers.v ===== *)
(** * Peer timers

    Models src/wireguard-go/device/timers.go up to the expiration functions,
    which are in [Send] with the operations they call. A [Timer] is the pending
    flag of the code and the deadline of the runtime timer under it. *)

From stdpp Require Import base numbers list gmap.
From S2P Require Import Tai64n Replay Ratelimiter AllowedIPs.
From S2P Require Import Prelude Setters Env Crypto Messages Cookie DeviceState.

Open Scope Z_scope.

(** The timers of a peer by name, with the field of each. *)
Inductive timer_id :=
| TRetransmitHandshake
| TSendKeepalive
| TNewHandshake
| TZeroKeyMaterial
| TPersistentKeepalive.

#[export] Instance timer_id_eq_dec : EqDecision timer_id.
Proof. solve_decision. Defined.

Definition timer_of (i : timer_id) (t : Timers) : Timer :=
  match i with
  | TRetransmitHandshake => retransmitHandshake t
  | TSendKeepalive => sendKeepalive t
  | TNewHandshake => newHandshake t
  | TZeroKeyMaterial => zeroKeyMaterial t
  | TPersistentKeepalive => persistentKeepalive t
  end.

Definition set_timer (i : timer_id) (x : Timer) (t : Timers) : Timers :=
  match i with
  | TRetransmitHandshake => t <| retransmitHandshake := x |>
  | TSendKeepalive => t <| sendKeepalive := x |>
  | TNewHandshake => t <| newHandshake := x |>
  | TZeroKeyMaterial => t <| zeroKeyMaterial := x |>
  | TPersistentKeepalive => t <| persistentKeepalive := x |>
  end.

Definition set_timers (p : PeerPtr) (f : Timers -> Timers) : M unit :=
  set_peer p (fun pe => pe <| p_timers ::= f |>).

(** [NewTimer] returns a stopped timer. *)
Definition NewTimer : Timer := mkTimer false None.

(** [timer.Mod(d)]: [Reset] arms the runtime timer from the present on. *)
Definition Mod (p : PeerPtr) (i : timer_id) (d : Z) : M unit :=
  w ← get;
  set_timers p (set_timer i (mkTimer true (Some (clock (o_env (w_outside w)) + d)))).

Definition Del (p : PeerPtr) (i : timer_id) : M unit :=
  set_timers p (set_timer i (mkTimer false None)).

(** The lock in between waits for a callback that runs. *)
Definition DelSync (p : PeerPtr) (i : timer_id) : M unit :=
  Del p i;; Del p i.

Definition IsPending (p : PeerPtr) (i : timer_id) : M bool :=
  pe ← peer p; mret (isPending (timer_of i (p_timers pe))).

Definition timersActive (p : PeerPtr) : M bool :=
  pe ← peer p;
  up ← isUp;
  mret (p_isRunning pe && up).

(** [time.Millisecond * time.Duration(fastrandn(RekeyTimeoutJitterMaxMs))] *)
Definition jitter : M Z :=
  n ← fastrandn RekeyTimeoutJitterMaxMs; mret (Millisecond * n).

Definition timersDataSent (p : PeerPtr) : M unit :=
  active ← timersActive p;
  pending ← IsPending p TNewHandshake;
  if active && negb pending then
    j ← jitter; Mod p TNewHandshake (KeepaliveTimeout + RekeyTimeout + j)
  else mret tt.

Definition timersDataReceived (p : PeerPtr) : M unit :=
  active ← timersActive p;
  if active : bool then
    pending ← IsPending p TSendKeepalive;
    if negb pending then Mod p TSendKeepalive KeepaliveTimeout
    else set_timers p (fun t => t <| needAnotherKeepalive := true |>)
  else mret tt.

Definition timersAnyAuthenticatedPacketSent (p : PeerPtr) : M unit :=
  active ← timersActive p; when active (Del p TSendKeepalive).

Definition timersAnyAuthenticatedPacketReceived (p : PeerPtr) : M unit :=
  active ← timersActive p; when active (Del p TNewHandshake).

Definition timersHandshakeInitiated (p : PeerPtr) : M unit :=
  active ← timersActive p;
  if active : bool then j ← jitter; Mod p TRetransmitHandshake (RekeyTimeout + j) else mret tt.

Definition timersHandshakeComplete (p : PeerPtr) : M unit :=
  active ← timersActive p;
  when active (Del p TRetransmitHandshake);;
  set_timers p (fun t => t <| handshakeAttempts := 0 |>);;
  set_timers p (fun t => t <| sentLastMinuteHandshake := false |>);;
  t ← env now;
  set_peer p (fun pe => pe <| p_lastHandshakeNano := UnixNano t |>).

Definition timersSessionDerived (p : PeerPtr) : M unit :=
  active ← timersActive p; when active (Mod p TZeroKeyMaterial (RejectAfterTime * 3)).

Definition timersAnyAuthenticatedPacketTraversal (p : PeerPtr) : M unit :=
  pe ← peer p;
  let keepalive := p_persistentKeepaliveInterval pe in
  active ← timersActive p;
  when ((keepalive >? 0) && active) (Mod p TPersistentKeepalive (keepalive * Second)).

Definition timersInit (t : Timers) : Timers :=
  t <| retransmitHandshake := NewTimer |> <| sendKeepalive := NewTimer |>
    <| newHandshake := NewTimer |> <| zeroKeyMaterial := NewTimer |>
    <| persistentKeepalive := NewTimer |>.

Definition timersStart (p : PeerPtr) : M unit :=
  set_timers p (fun t => t <| handshakeAttempts := 0 |> <| sentLastMinuteHandshake := false |>
    <| needAnotherKeepalive := false |>).

Definition timersStop (p : PeerPtr) : M unit :=
  DelSync p TRetransmitHandshake;;
  DelSync p TSendKeepalive;;
  DelSync p TNewHandshake;;
  DelSync p TZeroKeyMaterial;;
  DelSync p TPersistentKeepalive.

(** The runtime timer [i] of [p] runs out: what the callback of [NewTimer] does
    before the expiration function, and whether it calls it. *)
Definition timer_fired (p : PeerPtr) (i : timer_id) : M bool :=
  pe ← peer p;
  let t := timer_of i (p_timers pe) in
  if isPending t then
    set_timers p (set_timer i (mkTimer false None));; mret true
  else mret false.
