(* ===== verification/PeerOps.v ===== *)
(** * Peers

    The operations of src/wireguard-go/device/peer.go and the queues of
    send.go that other components build on: sending datagrams, endpoints,
    staged packets and key material. [Start] and [Stop] are in [Device]. *)

From stdpp Require Import base numbers list gmap.
From S2P Require Import Tai64n Replay Ratelimiter AllowedIPs.
From S2P Require Import Prelude Setters GoStrings Env Crypto Messages Cookie DeviceState Noise Timers.

Open Scope Z_scope.

(** ** Endpoints and datagrams *)

(** [bind.Send]: what it sends is an event, its result comes from outside. *)
Definition bind_Send (buffers : list (list Z)) (ep : Endpoint) : M send_result := fun w =>
  let rs := o_sends (w_outside w) in
  Some (default SendOk (head rs),
    w <| w_outside; o_sends := tail rs |> <| w_out ::= fun o => o ++ [EvSend buffers ep] |>).

(** The sum of [len(b)] over the buffers, in [uint64]. *)
Definition total_len (buffers : list (list Z)) : Z :=
  foldl (fun totalLen b => u64 (totalLen + zlen b)) 0 buffers.

Definition SendBuffers (p : PeerPtr) (buffers : list (list Z)) : M send_result :=
  closed ← isClosed;
  if closed : bool then mret SendOk
  else
    pe ← peer p;
    match ep_val (p_endpoint pe) with
    | None => mret SendErr
    | Some endpoint =>
        (if ep_clearSrcOnTx (p_endpoint pe) then
           emit (EvClearSrc endpoint);;
           set_peer p (fun pe => pe <| p_endpoint; ep_clearSrcOnTx := false |>)
         else mret tt);;
        err ← bind_Send buffers endpoint;
        when (bool_decide (err = SendOk))
          (set_peer p (fun pe => pe <| p_txBytes ::= fun n => u64 (n + total_len buffers) |>));;
        mret err
    end.

Definition SetEndpointFromPacket (p : PeerPtr) (endpoint : Endpoint) : M unit :=
  pe ← peer p;
  if ep_disableRoaming (p_endpoint pe) then mret tt
  else set_peer p (fun pe => pe <| p_endpoint; ep_clearSrcOnTx := false |>
                                <| p_endpoint; ep_val := Some endpoint |>).

Definition markEndpointSrcForClearing (p : PeerPtr) : M unit :=
  pe ← peer p;
  match ep_val (p_endpoint pe) with
  | None => mret tt
  | Some _ => set_peer p (fun pe => pe <| p_endpoint; ep_clearSrcOnTx := true |>)
  end.

(** ** Staged packets *)

(** Returning a container and its elements to the pools frees it. *)
Definition PutOutboundElementsContainer (c : ContainerPtr) : M unit :=
  modify (fun w => w <| w_outs ::= delete c |>).

(** The loop: the channel takes the container, or gives up its oldest one and
    is tried again; with room for one the second round succeeds. *)
Fixpoint stage_loop (fuel : nat) (p : PeerPtr) (elems : ContainerPtr) : M unit :=
  match fuel with
  | O => panic
  | S fuel =>
      pe ← peer p;
      match chan_send QueueStagedSize (p_staged pe) elems with
      | Some q => set_peer p (fun pe => pe <| p_staged := q |>)
      | None =>
          match p_staged pe with
          | tooOld :: q =>
              set_peer p (fun pe => pe <| p_staged := q |>);;
              PutOutboundElementsContainer tooOld
          | [] => mret tt
          end;;
          stage_loop fuel p elems
      end
  end.

Definition StagePackets (p : PeerPtr) (elems : ContainerPtr) : M unit := fun w =>
  stage_loop (S (length (from_option p_staged [] (w_peers w !! p)))) p elems w.

Fixpoint flush_staged (fuel : nat) (p : PeerPtr) : M unit :=
  match fuel with
  | O => panic
  | S fuel =>
      pe ← peer p;
      match p_staged pe with
      | elemsContainer :: q =>
          set_peer p (fun pe => pe <| p_staged := q |>);;
          PutOutboundElementsContainer elemsContainer;;
          flush_staged fuel p
      | [] => mret tt
      end
  end.

Definition FlushStagedPackets (p : PeerPtr) : M unit := fun w =>
  flush_staged (S (length (from_option p_staged [] (w_peers w !! p)))) p w.

(** ** Key material *)

Definition ZeroAndFlushAll (p : PeerPtr) : M unit :=
  pe ← peer p;
  DeleteKeypair (previous (p_keypairs pe));;
  DeleteKeypair (current (p_keypairs pe));;
  DeleteKeypair (next (p_keypairs pe));;
  set_peer p (fun pe => pe <| p_keypairs := mkKeypairs None None None |>);;
  h ← handshake p;
  Delete (hs_localIndex h);;
  set_handshake p Clear;;
  FlushStagedPackets p.

Definition ExpireCurrentKeypairs (p : PeerPtr) : M unit :=
  h ← handshake p;
  Delete (hs_localIndex h);;
  set_handshake p Clear;;
  t ← env now;
  set_handshake p (fun h => h <| hs_lastSentHandshake := t - (RekeyTimeout + Second) |>);;
  pe ← peer p;
  match current (p_keypairs pe) with
  | Some k => set_keypair k (fun kp => kp <| kp_sendNonce := RejectAfterMessages |>)
  | None => mret tt
  end;;
  match next (p_keypairs pe) with
  | Some k => set_keypair k (fun kp => kp <| kp_sendNonce := RejectAfterMessages |>)
  | None => mret tt
  end.
