(* ===== verification/Send.v ===== *)
(** * The outbound path

    Models src/wireguard-go/device/send.go and the expiration functions of
    timers.go: handshake messages, staging, nonce assignment, encryption and
    transmission. A routine is a function of one round of its loop. *)

From stdpp Require Import base numbers list gmap.
From S2P Require Import Tai64n Replay Ratelimiter AllowedIPs.
From S2P Require Import Prelude Setters GoStrings Env Crypto Messages Cookie DeviceState Noise Timers PeerOps.

Open Scope Z_scope.

(** ** Padding *)

(** [&^] with a power of two less one clears the low bits. *)
Definition round_up (n : Z) : Z := Z.land (n + PaddingMultiple - 1) (Z.lnot (PaddingMultiple - 1)).

Definition calculatePaddingSize (packetSize mtu : Z) : Z :=
  let lastUnit := packetSize in
  if mtu =? 0 then round_up lastUnit - lastUnit
  else
    let lastUnit := if lastUnit >? mtu then Z.rem lastUnit mtu else lastUnit in
    let paddedSize := round_up lastUnit in
    let paddedSize := if paddedSize >? mtu then mtu else paddedSize in
    paddedSize - lastUnit.

Section send.
Context `{Crypto}.

(** ** Handshake messages *)

Definition peer_AddMacs (p : PeerPtr) (packet : list Z) : M (list Z) :=
  pe ← peer p;
  '(gen, packet) ← env (AddMacs (p_cookieGenerator pe) packet);
  set_peer p (fun pe => pe <| p_cookieGenerator := gen |>);;
  mret packet.

(** The result is whether the error is nil. *)
Definition SendHandshakeInitiation (p : PeerPtr) (isRetry : bool) : M bool :=
  when (negb isRetry) (set_timers p (fun t => t <| handshakeAttempts := 0 |>));;
  h ← handshake p;
  d ← env (Since (hs_lastSentHandshake h));
  if d <? RekeyTimeout then mret true
  else
    d ← env (Since (hs_lastSentHandshake h));
    if d <? RekeyTimeout then mret true
    else
      t ← env now;
      set_handshake p (fun h => h <| hs_lastSentHandshake := t |>);;
      msg ← CreateMessageInitiation p;
      match msg with
      | None => mret false
      | Some msg =>
          let packet := zeros MessageInitiationSize in
          let packet := default packet (Initiation.marshal msg packet) in
          packet ← peer_AddMacs p packet;
          timersAnyAuthenticatedPacketTraversal p;;
          timersAnyAuthenticatedPacketSent p;;
          err ← SendBuffers p [packet];
          timersHandshakeInitiated p;;
          mret (bool_decide (err = SendOk))
      end.

Definition SendHandshakeResponse (p : PeerPtr) : M bool :=
  t ← env now;
  set_handshake p (fun h => h <| hs_lastSentHandshake := t |>);;
  response ← CreateMessageResponse p;
  match response with
  | None => mret false
  | Some response =>
      let packet := zeros MessageResponseSize in
      let packet := default packet (Response.marshal response packet) in
      packet ← peer_AddMacs p packet;
      ok ← BeginSymmetricSession p;
      if ok : bool then
        timersSessionDerived p;;
        timersAnyAuthenticatedPacketTraversal p;;
        timersAnyAuthenticatedPacketSent p;;
        err ← SendBuffers p [packet];
        mret (bool_decide (err = SendOk))
      else mret false
  end.

(** The packet is at least as long as a header: it passed the size checks of
    the receiver. *)
Definition SendHandshakeCookie `{Endpoints} (elem : QueueHandshakeElement) : M bool :=
  field ← deref (slice (he_packet elem) 4 8);
  sender ← deref (le_get 4 field);
  w ← get;
  '(chk, reply) ← env (CreateReply (w_cookieChecker w) (he_packet elem) sender
    (DstToBytes (he_endpoint elem)));
  modify (fun w => w <| w_cookieChecker := chk |>);;
  match reply with
  | None => mret false
  | Some reply =>
      let packet := zeros MessageCookieReplySize in
      let packet := default packet (CookieReply.marshal reply packet) in
      _ ← bind_Send [packet] (he_endpoint elem);
      mret true
  end.

Definition keepKeyFreshSending (p : PeerPtr) : M unit :=
  pe ← peer p;
  match current (p_keypairs pe) with
  | None => mret tt
  | Some k =>
      kp ← keypair k;
      stale ← (if kp_sendNonce kp >? RekeyAfterMessages then mret true
               else if kp_isInitiator kp then
                 d ← env (Since (kp_created kp)); mret (d >? RekeyAfterTime)
               else mret false);
      if stale : bool then _ ← SendHandshakeInitiation p false; mret tt else mret tt
  end.

(** ** Staged packets and nonces *)

(** [NewOutboundElement] with the packet the caller puts into it. *)
Definition NewOutboundElement (packet : list Z) : QueueOutboundElement :=
  mkOutElem packet 0 None None.

Definition new_container (elems : list QueueOutboundElement) : M ContainerPtr :=
  c ← fresh;
  modify (fun w => w <| w_outs ::= <[c := mkOutContainer false elems]> |>);;
  mret c.

Definition out_container (c : ContainerPtr) : M OutContainer := fun w => deref (w_outs w !! c) w.

Definition set_out_container (c : ContainerPtr) (oc : OutContainer) : M unit :=
  modify (fun w => w <| w_outs ::= <[c := oc]> |>).

(** The loop over the elements of a container: each takes the next nonce; the
    ones beyond the limit go to the second list. *)
Fixpoint assign_nonces (p : PeerPtr) (k : KeypairPtr) (elems : list QueueOutboundElement) :
    M (list QueueOutboundElement * list QueueOutboundElement) :=
  match elems with
  | [] => mret ([], [])
  | elem :: elems =>
      kp ← keypair k;
      let added := u64 (kp_sendNonce kp + 1) in
      set_keypair k (fun kp => kp <| kp_sendNonce := added |>);;
      let nonce := u64 (added - 1) in
      if nonce >=? RejectAfterMessages then
        set_keypair k (fun kp => kp <| kp_sendNonce := RejectAfterMessages |>);;
        '(kept, ooo) ← assign_nonces p k elems;
        mret (kept, mkOutElem (oe_packet elem) nonce (oe_keypair elem) (Some p) :: ooo)
      else
        '(kept, ooo) ← assign_nonces p k elems;
        mret (mkOutElem (oe_packet elem) nonce (Some k) (Some p) :: kept, ooo)
  end.

(** [peer.queue.outbound.c <- c; device.queue.encryption.c <- c] *)
Definition queue_container (p : PeerPtr) (c : ContainerPtr) : M unit :=
  pe ← peer p;
  q ← deref (chan_send QueueOutboundSize (p_outbound pe) (Some c));
  set_peer p (fun pe => pe <| p_outbound := q |>);;
  w ← get;
  q ← deref (chan_send QueueOutboundSize (w_encryption w) c);
  modify (fun w => w <| w_encryption := q |>).

(** One staged container: [true] is [goto top]. *)
Definition send_container (p : PeerPtr) (k : KeypairPtr) (c : ContainerPtr) : M bool :=
  oc ← out_container c;
  '(kept, ooo) ← assign_nonces p k (oc_elems oc);
  set_out_container c (mkOutContainer true kept);;
  (match ooo with
   | [] => mret tt
   | _ => c' ← new_container ooo; StagePackets p c'
   end);;
  match kept with
  | [] => PutOutboundElementsContainer c;; mret true
  | _ =>
      pe ← peer p;
      (if p_isRunning pe then queue_container p c else PutOutboundElementsContainer c);;
      mret (match ooo with [] => false | _ => true end)
  end.

Fixpoint staged_loop (fuel : nat) (p : PeerPtr) (k : KeypairPtr) : M bool :=
  match fuel with
  | O => panic
  | S fuel =>
      pe ← peer p;
      match p_staged pe with
      | [] => mret false
      | c :: q =>
          set_peer p (fun pe => pe <| p_staged := q |>);;
          top ← send_container p k c;
          if top : bool then mret true else staged_loop fuel p k
      end
  end.

(** The current key pair, if it can still send. *)
Definition usable_keypair (p : PeerPtr) : M (option KeypairPtr) :=
  pe ← peer p;
  match current (p_keypairs pe) with
  | None => mret None
  | Some k =>
      kp ← keypair k;
      if kp_sendNonce kp >=? RejectAfterMessages then mret None
      else
        d ← env (Since (kp_created kp));
        mret (if d >=? RejectAfterTime then None else Some k)
  end.

Fixpoint staged_top (fuel : nat) (p : PeerPtr) : M unit :=
  match fuel with
  | O => panic
  | S fuel =>
      pe ← peer p;
      up ← isUp;
      if bool_decide (p_staged pe = []) || negb up then mret tt
      else
        k ← usable_keypair p;
        match k with
        | None => _ ← SendHandshakeInitiation p false; mret tt
        | Some k =>
            top ← staged_loop (S (length (p_staged pe))) p k;
            if top : bool then staged_top fuel p else mret tt
        end
  end.

(** Every round takes a container off the channel; one that puts some back has
    used up the nonces, and the next round is the last. *)
Definition SendStagedPackets (p : PeerPtr) : M unit := fun w =>
  staged_top (S (S (length (from_option p_staged [] (w_peers w !! p))))) p w.

Definition SendKeepalive (p : PeerPtr) : M unit :=
  pe ← peer p;
  (if bool_decide (p_staged pe = []) && p_isRunning pe then
     c ← new_container [NewOutboundElement []];
     match chan_send QueueStagedSize (p_staged pe) c with
     | Some q => set_peer p (fun pe => pe <| p_staged := q |>)
     | None => PutOutboundElementsContainer c
     end
   else mret tt);;
  SendStagedPackets p.

(** ** Packets from the TUN device *)

(** The peer an outgoing packet is routed to; [None] in the inner option drops
    the packet. *)
Definition route_packet (packet : list Z) : M (option PeerPtr) :=
  b ← deref (byte_at packet 0);
  w ← get;
  let version := Z.shiftr b 4 in
  if version =? 4 then
    if zlen packet <? 20 then mret None
    else
      dst ← deref (slice packet IPv4offsetDst (IPv4offsetDst + 4));
      deref (Lookup (w_allowedips w) dst)
  else if version =? 6 then
    if zlen packet <? 40 then mret None
    else
      dst ← deref (slice packet IPv6offsetDst (IPv6offsetDst + 16));
      deref (Lookup (w_allowedips w) dst)
  else mret None.

(** [elemsByPeer[peer]]: the elements per peer, in the order of arrival. *)
Fixpoint group_add (p : PeerPtr) (e : QueueOutboundElement)
    (m : list (PeerPtr * list QueueOutboundElement)) : list (PeerPtr * list QueueOutboundElement) :=
  match m with
  | [] => [(p, [e])]
  | (q, es) :: m => if bool_decide (p = q) then (q, es ++ [e]) :: m else (q, es) :: group_add p e m
  end.

Fixpoint group_packets (packets : list (list Z)) (m : list (PeerPtr * list QueueOutboundElement)) :
    M (list (PeerPtr * list QueueOutboundElement)) :=
  match packets with
  | [] => mret m
  | packet :: packets =>
      if zlen packet <? 1 then group_packets packets m
      else
        p ← route_packet packet;
        match p with
        | None => group_packets packets m
        | Some p => group_packets packets (group_add p (NewOutboundElement packet) m)
        end
  end.

(** A round of [RoutineReadFromTUN] on the packets of one read. *)
Definition RoutineReadFromTUN (packets : list (list Z)) : M unit :=
  groups ← group_packets packets [];
  for_each groups (fun '(p, elems) =>
    pe ← peer p;
    if p_isRunning pe then
      c ← new_container elems;
      StagePackets p c;;
      SendStagedPackets p
    else mret tt).

(** ** Encryption *)

Definition transport_header (receiver nonce : Z) : list Z :=
  le_put 4 MessageTransportType ++ le_put 4 receiver ++ le_put 8 nonce.

(** The 12-byte nonce of a counter. *)
Definition nonce_bytes (nonce : Z) : list Z := zeros 4 ++ le_put 8 nonce.

Definition encrypt_elem (mtu : Z) (elem : QueueOutboundElement) : M QueueOutboundElement :=
  k ← deref (oe_keypair elem);
  kp ← keypair k;
  padding ← deref (slice (zeros (Z.to_nat PaddingMultiple)) 0
    (calculatePaddingSize (zlen (oe_packet elem)) mtu));
  let packet := oe_packet elem ++ padding in
  mret (mkOutElem (transport_header (kp_remoteIndex kp) (oe_nonce elem) ++
    Seal (kp_send kp) (nonce_bytes (oe_nonce elem)) packet []) (oe_nonce elem) (oe_keypair elem)
    (oe_peer elem)).

Fixpoint map_elems {A} (f : A -> M A) (l : list A) : M (list A) :=
  match l with
  | [] => mret []
  | x :: l => x ← f x; l ← map_elems f l; mret (x :: l)
  end.

(** A round of [RoutineEncryption]: the oldest container. *)
Definition RoutineEncryption : M unit :=
  w ← get;
  match w_encryption w with
  | [] => panic
  | c :: q =>
      modify (fun w => w <| w_encryption := q |>);;
      oc ← out_container c;
      elems ← map_elems (encrypt_elem (w_mtu w)) (oc_elems oc);
      set_out_container c (mkOutContainer false elems)
  end.

(** ** Transmission *)

(** A round of [RoutineSequentialSender]; it waits for the lock of the
    container. [false] is the end of the routine. *)
Definition RoutineSequentialSender (p : PeerPtr) : M bool :=
  pe ← peer p;
  match p_outbound pe with
  | [] => panic
  | None :: q => set_peer p (fun pe => pe <| p_outbound := q |>);; mret false
  | Some c :: q =>
      set_peer p (fun pe => pe <| p_outbound := q |>);;
      oc ← out_container c;
      if oc_locked oc then panic
      else if negb (p_isRunning pe) then PutOutboundElementsContainer c;; mret true
      else
        let bufs := map oe_packet (oc_elems oc) in
        let dataSent := existsb (fun b => negb (zlen b =? Z.of_nat MessageKeepaliveSize)) bufs in
        timersAnyAuthenticatedPacketTraversal p;;
        timersAnyAuthenticatedPacketSent p;;
        err ← SendBuffers p bufs;
        when dataSent (timersDataSent p);;
        PutOutboundElementsContainer c;;
        match err with
        | SendOk | SendGSODisabled true => keepKeyFreshSending p
        | _ => mret tt
        end;;
        mret true
  end.

(** ** Expired timers *)

Definition expiredRetransmitHandshake (p : PeerPtr) : M unit :=
  pe ← peer p;
  if handshakeAttempts (p_timers pe) >? MaxTimerHandshakes then
    active ← timersActive p;
    when active (Del p TSendKeepalive);;
    FlushStagedPackets p;;
    active ← timersActive p;
    pending ← IsPending p TZeroKeyMaterial;
    when (active && negb pending) (Mod p TZeroKeyMaterial (RejectAfterTime * 3))
  else
    set_timers p (fun t => t <| handshakeAttempts ::= fun n => u32 (n + 1) |>);;
    markEndpointSrcForClearing p;;
    _ ← SendHandshakeInitiation p true; mret tt.

Definition expiredSendKeepalive (p : PeerPtr) : M unit :=
  SendKeepalive p;;
  pe ← peer p;
  if needAnotherKeepalive (p_timers pe) then
    set_timers p (fun t => t <| needAnotherKeepalive := false |>);;
    active ← timersActive p;
    when active (Mod p TSendKeepalive KeepaliveTimeout)
  else mret tt.

Definition expiredNewHandshake (p : PeerPtr) : M unit :=
  markEndpointSrcForClearing p;;
  _ ← SendHandshakeInitiation p false; mret tt.

Definition expiredZeroKeyMaterial (p : PeerPtr) : M unit := ZeroAndFlushAll p.

Definition expiredPersistentKeepalive (p : PeerPtr) : M unit :=
  pe ← peer p;
  when (p_persistentKeepaliveInterval pe >? 0) (SendKeepalive p).

(** The expiration functions [timersInit] gives the timers. *)
Definition expired (p : PeerPtr) (i : timer_id) : M unit :=
  match i with
  | TRetransmitHandshake => expiredRetransmitHandshake p
  | TSendKeepalive => expiredSendKeepalive p
  | TNewHandshake => expiredNewHandshake p
  | TZeroKeyMaterial => expiredZeroKeyMaterial p
  | TPersistentKeepalive => expiredPersistentKeepalive p
  end.

(** The callback of [NewTimer]. *)
Definition timer_callback (p : PeerPtr) (i : timer_id) : M unit :=
  fired ← timer_fired p i;
  when fired (expired p i).

End send.
