(* ===== verification/Receive.v ===== *)
(** * The inbound path

    Models src/wireguard-go/device/receive.go: dispatch of datagrams,
    decryption, handshake messages, and delivery to the TUN device. A routine
    is a function of one round of its loop. *)

From stdpp Require Import base numbers list gmap.
From S2P Require Import Tai64n Replay Ratelimiter AllowedIPs.
From S2P Require Import Prelude Setters GoStrings Env Crypto Messages Cookie DeviceState Noise Timers PeerOps Send.

Open Scope Z_scope.

Section receive.
Context `{Crypto} `{Endpoints}.

Definition keepKeyFreshReceiving (p : PeerPtr) : M unit :=
  pe ← peer p;
  if sentLastMinuteHandshake (p_timers pe) then mret tt
  else
    match current (p_keypairs pe) with
    | None => mret tt
    | Some k =>
        kp ← keypair k;
        if kp_isInitiator kp then
          d ← env (Since (kp_created kp));
          if d >? RejectAfterTime - KeepaliveTimeout - RekeyTimeout then
            set_timers p (fun t => t <| sentLastMinuteHandshake := true |>);;
            _ ← SendHandshakeInitiation p false; mret tt
          else mret tt
        else mret tt
    end.

(** ** Dispatch *)

Definition in_container (c : ContainerPtr) : M InContainer := fun w => deref (w_ins w !! c) w.

Definition set_in_container (c : ContainerPtr) (ic : InContainer) : M unit :=
  modify (fun w => w <| w_ins ::= <[c := ic]> |>).

Definition PutInboundElementsContainer (c : ContainerPtr) : M unit :=
  modify (fun w => w <| w_ins ::= delete c |>).

(** [elemsByPeer[peer]] *)
Fixpoint in_group_add (p : PeerPtr) (e : QueueInboundElement)
    (m : list (PeerPtr * list QueueInboundElement)) : list (PeerPtr * list QueueInboundElement) :=
  match m with
  | [] => [(p, [e])]
  | (q, es) :: m =>
      if bool_decide (p = q) then (q, es ++ [e]) :: m else (q, es) :: in_group_add p e m
  end.

(** The transport case: the peer and the work element, if there is one. *)
Definition transport_elem (packet : list Z) (endpoint : Endpoint) :
    M (option (PeerPtr * QueueInboundElement)) :=
  if zlen packet <? Z.of_nat MessageTransportSize then mret None
  else
    field ← deref (slice packet (Z.of_nat MessageTransportOffsetReceiver)
      (Z.of_nat MessageTransportOffsetCounter));
    receiver ← deref (le_get 4 field);
    value ← Lookup_index receiver;
    match it_keypair value with
    | None => mret None
    | Some k =>
        kp ← keypair k;
        t ← env now;
        if kp_created kp + RejectAfterTime <? t then mret None
        else
          p ← deref (it_peer value);
          mret (Some (p, mkInElem packet (Some packet) 0 (Some k) endpoint))
    end.

(** The fixed size of a handshake message of the given type. *)
Definition handshake_size (msgType : Z) : option nat :=
  if msgType =? MessageInitiationType then Some MessageInitiationSize
  else if msgType =? MessageResponseType then Some MessageResponseSize
  else if msgType =? MessageCookieReplyType then Some MessageCookieReplySize
  else None.

(** [select { case handshake.c <- elem: default: }] *)
Definition queue_handshake (elem : QueueHandshakeElement) : M unit :=
  modify (fun w => w <| w_handshakeq ::= fun q => default q (chan_send QueueHandshakeSize q elem) |>).

Fixpoint dispatch (datagrams : list (list Z * Endpoint)) (m : list (PeerPtr * list QueueInboundElement)) :
    M (list (PeerPtr * list QueueInboundElement)) :=
  match datagrams with
  | [] => mret m
  | (packet, endpoint) :: datagrams =>
      if zlen packet <? MinMessageSize then dispatch datagrams m
      else
        msgType ← deref (le_get 4 packet);
        if msgType =? MessageTransportType then
          e ← transport_elem packet endpoint;
          match e with
          | None => dispatch datagrams m
          | Some (p, elem) => dispatch datagrams (in_group_add p elem m)
          end
        else
          match handshake_size msgType with
          | None => dispatch datagrams m
          | Some size =>
              (if bool_decide (length packet = size) then
                 queue_handshake (mkHandshakeElem msgType packet endpoint)
               else mret tt);;
              dispatch datagrams m
          end
  end.

(** [peer.queue.inbound.c <- c; device.queue.decryption.c <- c] *)
Definition queue_inbound (p : PeerPtr) (elems : list QueueInboundElement) : M unit :=
  c ← fresh;
  set_in_container c (mkInContainer true elems);;
  pe ← peer p;
  q ← deref (chan_send QueueInboundSize (p_inbound pe) (Some c));
  set_peer p (fun pe => pe <| p_inbound := q |>);;
  w ← get;
  q ← deref (chan_send QueueInboundSize (w_decryption w) c);
  modify (fun w => w <| w_decryption := q |>).

(** A round of [RoutineReceiveIncoming] on the datagrams of one receive. *)
Definition RoutineReceiveIncoming (datagrams : list (list Z * Endpoint)) : M unit :=
  groups ← dispatch datagrams [];
  for_each groups (fun '(p, elems) =>
    pe ← peer p;
    if p_isRunning pe then queue_inbound p elems else mret tt).

(** What a failed receive does: go on after a pause, or end the routine.
    [temporary] is [None] for an error that is not a [net.Error]. *)
Definition receive_error (closed : bool) (temporary : option bool) (deathSpiral : Z) : option Z :=
  if closed then None
  else
    match temporary with
    | Some false => None
    | _ => if deathSpiral <? 10 then Some (deathSpiral + 1) else None
    end.

(** ** Decryption *)

Definition decrypt_elem (elem : QueueInboundElement) : M QueueInboundElement :=
  packet ← deref (ie_packet elem);
  field ← deref (slice packet (Z.of_nat MessageTransportOffsetCounter)
    (Z.of_nat MessageTransportOffsetContent));
  content ← deref (slice packet (Z.of_nat MessageTransportOffsetContent) (zlen packet));
  counter ← deref (le_get 8 field);
  k ← deref (ie_keypair elem);
  kp ← keypair k;
  match Open (kp_receive kp) (nonce_bytes counter) content [] with
  | Some plain =>
      (* the text replaces the content in the buffer *)
      mret (mkInElem (copy_at (ie_buffer elem) MessageTransportOffsetContent plain) (Some plain) counter
        (ie_keypair elem) (ie_endpoint elem))
  | None => mret (mkInElem (ie_buffer elem) None counter (ie_keypair elem) (ie_endpoint elem))
  end.

(** A round of [RoutineDecryption]: the oldest container. *)
Definition RoutineDecryption : M unit :=
  w ← get;
  match w_decryption w with
  | [] => panic
  | c :: q =>
      modify (fun w => w <| w_decryption := q |>);;
      ic ← in_container c;
      elems ← map_elems decrypt_elem (ic_elems ic);
      set_in_container c (mkInContainer false elems)
  end.

(** ** Handshake messages *)

Definition IsUnderLoad : M bool :=
  t ← env now;
  w ← get;
  if bool_decide (QueueHandshakeSize / 8 <= length (w_handshakeq w))%nat then
    modify (fun w => w <| w_underLoadUntil := UnixNano (t + UnderLoadAfterTime) |>);;
    mret true
  else mret (w_underLoadUntil w >? UnixNano t).

(** The cookie case. *)
Definition handle_cookie_reply (elem : QueueHandshakeElement) : M unit :=
  match CookieReply.unmarshal CookieReply.zero (he_packet elem) with
  | None => mret tt
  | Some reply =>
      entry ← Lookup_index (CookieReply.Receiver reply);
      match it_peer entry with
      | None => mret tt
      | Some p =>
          pe ← peer p;
          if p_isRunning pe then
            '(gen, _) ← env (ConsumeReply (p_cookieGenerator pe) reply);
            set_peer p (fun pe => pe <| p_cookieGenerator := gen |>)
          else mret tt
      end
  end.

(** The checks before an initiation or a response is looked at. *)
Definition screen_handshake (elem : QueueHandshakeElement) : M bool :=
  w ← get;
  ok ← deref (CheckMAC1 (w_cookieChecker w) (he_packet elem));
  if ok : bool then
    load ← IsUnderLoad;
    if load : bool then
      ok ← env (CheckMAC2 (w_cookieChecker w) (he_packet elem) (DstToBytes (he_endpoint elem)));
      if ok : bool then
        t ← env now;
        '(limiter, ok) ← deref (Allow (w_limiter w) (DstIP (he_endpoint elem)) t);
        modify (fun w => w <| w_limiter := limiter |>);;
        mret ok
      else
        _ ← SendHandshakeCookie elem; mret false
    else mret true
  else mret false.

Definition add_rxBytes (p : PeerPtr) (n : Z) : M unit :=
  set_peer p (fun pe => pe <| p_rxBytes ::= fun x => u64 (x + n) |>).

Definition handle_initiation (elem : QueueHandshakeElement) : M unit :=
  match Initiation.unmarshal Initiation.zero (he_packet elem) with
  | None => mret tt
  | Some msg =>
      p ← ConsumeMessageInitiation msg;
      match p with
      | None => mret tt
      | Some p =>
          timersAnyAuthenticatedPacketTraversal p;;
          timersAnyAuthenticatedPacketReceived p;;
          SetEndpointFromPacket p (he_endpoint elem);;
          add_rxBytes p (zlen (he_packet elem));;
          _ ← SendHandshakeResponse p; mret tt
      end
  end.

Definition handle_response (elem : QueueHandshakeElement) : M unit :=
  match Response.unmarshal Response.zero (he_packet elem) with
  | None => mret tt
  | Some msg =>
      p ← ConsumeMessageResponse msg;
      match p with
      | None => mret tt
      | Some p =>
          SetEndpointFromPacket p (he_endpoint elem);;
          add_rxBytes p (zlen (he_packet elem));;
          timersAnyAuthenticatedPacketTraversal p;;
          timersAnyAuthenticatedPacketReceived p;;
          ok ← BeginSymmetricSession p;
          if ok : bool then
            timersSessionDerived p;;
            timersHandshakeComplete p;;
            SendKeepalive p
          else mret tt
      end
  end.

(** A round of [RoutineHandshake]: the oldest message. *)
Definition RoutineHandshake : M unit :=
  w ← get;
  match w_handshakeq w with
  | [] => panic
  | elem :: q =>
      modify (fun w => w <| w_handshakeq := q |>);;
      if he_msgType elem =? MessageCookieReplyType then handle_cookie_reply elem
      else if (he_msgType elem =? MessageInitiationType) || (he_msgType elem =? MessageResponseType) then
        ok ← screen_handshake elem;
        if ok : bool then
          if he_msgType elem =? MessageInitiationType then handle_initiation elem
          else handle_response elem
        else mret tt
      else mret tt
  end.

(** ** Delivery *)

(** The switch on the IP version: the length of the packet to deliver, [None]
    when it is dropped. *)
Definition check_packet (p : PeerPtr) (packet : list Z) : M (option (list Z)) :=
  b ← deref (byte_at packet 0);
  w ← get;
  let version := Z.shiftr b 4 in
  if version =? 4 then
    if zlen packet <? 20 then mret None
    else
      field ← deref (slice packet IPv4offsetTotalLength (IPv4offsetTotalLength + 2));
      length ← deref (be_get 2 field);
      if (length >? zlen packet) || (length <? 20) then mret None
      else
        packet ← deref (slice packet 0 length);
        src ← deref (slice packet IPv4offsetSrc (IPv4offsetSrc + 4));
        q ← deref (Lookup (w_allowedips w) src);
        mret (if bool_decide (q = Some p) then Some packet else None)
  else if version =? 6 then
    if zlen packet <? 40 then mret None
    else
      field ← deref (slice packet IPv6offsetPayloadLength (IPv6offsetPayloadLength + 2));
      length ← deref (be_get 2 field);
      let length := u16 (length + 40) in
      if length >? zlen packet then mret None
      else
        packet' ← deref (slice packet 0 length);
        (* the capacity of the slice is that of the buffer *)
        src ← deref (slice packet IPv6offsetSrc (IPv6offsetSrc + 16));
        q ← deref (Lookup (w_allowedips w) src);
        mret (if bool_decide (q = Some p) then Some packet' else None)
  else mret None.

(** What the loop over a container computes besides the state: the index of the
    last valid packet's endpoint, whether data came, the bytes received, and
    the buffers to write. *)
Record recv_acc := mkRecvAcc {
  ra_tail : option Endpoint;
  ra_data : bool;
  ra_rx : Z;
  ra_bufs : list (list Z)
}.

Definition receive_elem (p : PeerPtr) (acc : recv_acc) (elem : QueueInboundElement) : M recv_acc :=
  match ie_packet elem with
  | None => mret acc
  | Some packet =>
      k ← deref (ie_keypair elem);
      kp ← keypair k;
      let '(filter, ok) := ValidateCounter (kp_replayFilter kp) (ie_counter elem) RejectAfterMessages in
      set_keypair k (fun kp => kp <| kp_replayFilter := filter |>);;
      if ok : bool then
        confirmed ← ReceivedWithKeypair p k;
        (if confirmed : bool then
           SetEndpointFromPacket p (ie_endpoint elem);;
           timersHandshakeComplete p;;
           SendStagedPackets p
         else mret tt);;
        let rx := u64 (ra_rx acc + zlen packet + MinMessageSize) in
        let tail := Some (ie_endpoint elem) in
        match packet with
        | [] => mret (mkRecvAcc tail (ra_data acc) rx (ra_bufs acc))
        | _ =>
            res ← check_packet p packet;
            match res with
            | None => mret (mkRecvAcc tail true rx (ra_bufs acc))
            | Some packet =>
                buf ← deref (slice (ie_buffer elem) 0
                  (Z.of_nat MessageTransportOffsetContent + zlen packet));
                mret (mkRecvAcc tail true rx (ra_bufs acc ++ [buf]))
            end
        end
      else mret acc
  end.

Fixpoint receive_elems (p : PeerPtr) (acc : recv_acc) (elems : list QueueInboundElement) : M recv_acc :=
  match elems with
  | [] => mret acc
  | elem :: elems => acc ← receive_elem p acc elem; receive_elems p acc elems
  end.

(** What follows the loop over the elements, up to the write. *)
Definition receive_end (p : PeerPtr) (acc : recv_acc) : M unit :=
  add_rxBytes p (ra_rx acc);;
  match ra_tail acc with
  | Some endpoint =>
      SetEndpointFromPacket p endpoint;;
      keepKeyFreshReceiving p;;
      timersAnyAuthenticatedPacketTraversal p;;
      timersAnyAuthenticatedPacketReceived p
  | None => mret tt
  end;;
  when (ra_data acc) (timersDataReceived p).

(** A round of [RoutineSequentialReceiver]; it waits for the lock of the
    container. [false] is the end of the routine. *)
Definition RoutineSequentialReceiver (p : PeerPtr) : M bool :=
  pe ← peer p;
  match p_inbound pe with
  | [] => panic
  | None :: q => set_peer p (fun pe => pe <| p_inbound := q |>);; mret false
  | Some c :: q =>
      set_peer p (fun pe => pe <| p_inbound := q |>);;
      ic ← in_container c;
      if ic_locked ic then panic
      else
        acc ← receive_elems p (mkRecvAcc None false 0 []) (ic_elems ic);
        receive_end p acc;;
        when (bool_decide (ra_bufs acc <> [])) (emit (EvWriteTun (ra_bufs acc)));;
        PutInboundElementsContainer c;;
        mret true
  end.

End receive.
