(* ===== verification/Device.v ===== *)
(** * The device

    Models src/wireguard-go/device/device.go, the life cycle of peers in
    peer.go and the events of tun.go. Iteration over the peer map follows the
    order of the model's map; the language leaves it open. *)

From stdpp Require Import base numbers list gmap.
From S2P Require Import Tai64n Replay Ratelimiter AllowedIPs.
From S2P Require Import Prelude Setters GoStrings Env Crypto Messages Cookie DeviceState Noise Timers PeerOps Send Receive.

Open Scope Z_scope.

(** [int32(x)] *)
Definition i32 (x : Z) : Z := (x + 2 ^ 31) mod 2 ^ 32 - 2 ^ 31.

(** ** New devices and peers *)

Definition zero_timers : Timers :=
  mkTimers NewTimer NewTimer NewTimer NewTimer NewTimer 0 false false.

Definition zero_peer : Peer :=
  mkPeer false (mkKeypairs None None None) zero_handshake 0 0 0 (mkPeerEndpoint None false false)
    zero_timers [] [] [] zero_generator 0.

(** [mtu] is what the TUN device reports, [None] an error; [rate] the limiter
    after its [Init]. *)
Definition NewDevice (mtu : option Z) (outside : Outside) : option World :=
  rate ← Ratelimiter.Init Ratelimiter.zero_ratelimiter;
  Some (mkWorld deviceStateDown 0 0 false (zeros NoisePrivateKeySize) (zeros NoisePublicKeySize) ∅ 0
    rate empty_table ∅ zero_checker [] [] [] (i32 (default DefaultMTU mtu)) ∅ ∅ ∅ ∅ 0 outside []).

Definition LookupPeer (pk : list Z) : M (option PeerPtr) := gets (fun w => w_keyMap w !! pk).

(** The peers in the order they are visited. *)
Definition peers_list (w : World) : list (list Z * PeerPtr) := map_to_list (w_keyMap w).

Section device.
Context `{Crypto} `{Endpoints}.

(** [None] is an error: the device is closed, there are too many peers, or the
    key is in use. *)
Definition NewPeer (pk : list Z) : M (option PeerPtr) :=
  closed ← isClosed;
  if closed : bool then mret None
  else
    w ← get;
    if bool_decide (MaxPeers <= size (w_keyMap w))%nat then mret None
    else
      match w_keyMap w !! pk with
      | Some _ => mret None
      | None =>
          p ← fresh;
          let pe := zero_peer <| p_cookieGenerator ::= fun g => CookieGenerator_Init g pk |>
            <| p_handshake; hs_precomputedStaticStatic := fst (sharedSecret (w_privateKey w) pk) |>
            <| p_handshake; hs_remoteStatic := pk |>
            <| p_endpoint := mkPeerEndpoint None false false |>
            <| p_timers ::= timersInit |> in
          modify (fun w => w <| w_peers ::= <[p := pe]> |>);;
          modify (fun w => w <| w_keyMap ::= <[pk := p]> |>);;
          mret (Some p)
      end.

(** ** Starting and stopping peers *)

(** The flush waits for the lock of each container; a nil one would panic. *)
Fixpoint flush_inbound (q : list (option ContainerPtr)) : M unit :=
  match q with
  | [] => mret tt
  | None :: _ => panic
  | Some c :: q =>
      ic ← in_container c;
      if ic_locked ic then panic else PutInboundElementsContainer c;; flush_inbound q
  end.

Definition flushInboundQueue (p : PeerPtr) : M unit :=
  pe ← peer p;
  flush_inbound (p_inbound pe);;
  set_peer p (fun pe => pe <| p_inbound := [] |>).

Fixpoint flush_outbound (q : list (option ContainerPtr)) : M unit :=
  match q with
  | [] => mret tt
  | None :: _ => panic
  | Some c :: q =>
      oc ← out_container c;
      if oc_locked oc then panic else PutOutboundElementsContainer c;; flush_outbound q
  end.

Definition flushOutboundQueue (p : PeerPtr) : M unit :=
  pe ← peer p;
  flush_outbound (p_outbound pe);;
  set_peer p (fun pe => pe <| p_outbound := [] |>).

Definition Start (p : PeerPtr) : M unit :=
  closed ← isClosed;
  if closed : bool then mret tt
  else
    pe ← peer p;
    if p_isRunning pe then mret tt
    else
      t ← env now;
      set_handshake p (fun h => h <| hs_lastSentHandshake := t - (RekeyTimeout + Second) |>);;
      timersStart p;;
      flushInboundQueue p;;
      flushOutboundQueue p;;
      set_peer p (fun pe => pe <| p_isRunning := true |>).

(** [peer.stopping.Wait()]: the workers finish what is queued and the two
    sequential routines of the peer run up to the nil they are sent. *)
Fixpoint repeat_st {A} (n : nat) (m : M A) : M unit :=
  match n with
  | O => mret tt
  | S n => m;; repeat_st n m
  end.

Fixpoint run_until_end (n : nat) (m : M bool) : M unit :=
  match n with
  | O => panic
  | S n => more ← m; if more : bool then run_until_end n m else mret tt
  end.

Definition stopping_Wait (p : PeerPtr) : M unit :=
  w ← get;
  repeat_st (length (w_encryption w)) RoutineEncryption;;
  repeat_st (length (w_decryption w)) RoutineDecryption;;
  pe ← peer p;
  run_until_end (length (p_outbound pe)) (RoutineSequentialSender p);;
  pe ← peer p;
  run_until_end (length (p_inbound pe)) (RoutineSequentialReceiver p).

Definition Stop (p : PeerPtr) : M unit :=
  pe ← peer p;
  if negb (p_isRunning pe) then mret tt
  else
    set_peer p (fun pe => pe <| p_isRunning := false |>);;
    timersStop p;;
    pe ← peer p;
    q ← deref (chan_send QueueInboundSize (p_inbound pe) None);
    set_peer p (fun pe => pe <| p_inbound := q |>);;
    pe ← peer p;
    q ← deref (chan_send QueueOutboundSize (p_outbound pe) None);
    set_peer p (fun pe => pe <| p_outbound := q |>);;
    stopping_Wait p;;
    ZeroAndFlushAll p.

Definition removePeerLocked (p : PeerPtr) (key : list Z) : M unit :=
  w ← get;
  t ← deref (RemoveByPeer (w_allowedips w) p);
  modify (fun w => w <| w_allowedips := t |>);;
  Stop p;;
  modify (fun w => w <| w_keyMap ::= delete key |>).

Definition RemovePeer (key : list Z) : M unit :=
  p ← LookupPeer key;
  match p with
  | Some p => removePeerLocked p key
  | None => mret tt
  end.

Definition RemoveAllPeers : M unit :=
  w ← get;
  for_each (peers_list w) (fun '(key, p) => removePeerLocked p key);;
  modify (fun w => w <| w_keyMap := ∅ |>).

(** ** Sockets *)

(** A call that may fail: [true] is an error. *)
Definition outside_err (f : Outside -> list bool) (g : list bool -> Outside -> Outside) : M bool :=
  w ← get;
  let l := f (w_outside w) in
  modify (fun w => w <| w_outside ::= g (tail l) |>);;
  mret (default false (head l)).

Definition bind_Close : M bool :=
  emit EvBindClose;; outside_err o_closeErrs (fun l o => o <| o_closeErrs := l |>).

Definition bind_SetMark (mark : Z) : M bool :=
  emit (EvSetMark mark);; outside_err o_markErrs (fun l o => o <| o_markErrs := l |>).

Definition startRouteListener : M bool :=
  outside_err o_routeErrs (fun l o => o <| o_routeErrs := l |>).

(** The port the socket got, [None] an error. *)
Definition bind_Open (port : Z) : M (option Z) :=
  emit (EvBindOpen port);;
  w ← get;
  let l := o_opens (w_outside w) in
  modify (fun w => w <| w_outside; o_opens := tail l |>);;
  mret (default (Some port) (head l)).

Definition clear_cached_sources : M unit :=
  w ← get; for_each (peers_list w) (fun '(_, p) => markEndpointSrcForClearing p).

(** [true] is an error. *)
Definition BindSetMark (mark : Z) : M bool :=
  w ← get;
  if w_fwmark w =? mark then mret false
  else
    modify (fun w => w <| w_fwmark := mark |>);;
    up ← isUp;
    err ← (if up : bool then bind_SetMark mark else mret false);
    if err : bool then mret true
    else clear_cached_sources;; mret false.

Definition BindUpdate : M bool :=
  err ← bind_Close;
  if err : bool then mret true
  else
    up ← isUp;
    if negb up then mret false
    else
      w ← get;
      port ← bind_Open (w_port w);
      match port with
      | None => modify (fun w => w <| w_port := 0 |>);; mret true
      | Some port =>
          modify (fun w => w <| w_port := port |>);;
          err ← startRouteListener;
          if err : bool then
            _ ← bind_Close; modify (fun w => w <| w_port := 0 |>);; mret true
          else
            w ← get;
            err ← (if w_fwmark w =? 0 then mret false else bind_SetMark (w_fwmark w));
            if err : bool then mret true
            else clear_cached_sources;; mret false
      end.

Definition BindClose : M bool := bind_Close.

(** ** States *)

Definition set_state (s : deviceState) : M unit := modify (fun w => w <| w_state := s |>).

Definition upLocked : M bool :=
  err ← BindUpdate;
  if err : bool then mret true
  else
    w ← get;
    for_each (peers_list w) (fun '(_, p) =>
      Start p;;
      pe ← peer p;
      when (p_persistentKeepaliveInterval pe >? 0) (SendKeepalive p));;
    mret false.

Definition downLocked : M bool :=
  err ← BindClose;
  w ← get;
  for_each (peers_list w) (fun '(_, p) => Stop p);;
  mret err.

Definition changeState (want : deviceState) : M bool :=
  w ← get;
  let old := w_state w in
  if bool_decide (old = deviceStateClosed) then mret false
  else if bool_decide (want = old) then mret false
  else
    match want with
    | deviceStateUp =>
        set_state deviceStateUp;;
        err ← upLocked;
        if err : bool then
          set_state deviceStateDown;; _ ← downLocked; mret true
        else mret false
    | deviceStateDown => set_state deviceStateDown;; downLocked
    | deviceStateClosed => mret false
    end.

Definition Up : M bool := changeState deviceStateUp.

Definition Down : M bool := changeState deviceStateDown.

Definition limiter_Close : M unit :=
  w ← get;
  l ← deref (Ratelimiter.Close (w_limiter w));
  modify (fun w => w <| w_limiter := l |>).

Definition Close : M unit :=
  closed ← isClosed;
  if closed : bool then mret tt
  else
    set_state deviceStateClosed;;
    emit EvTunClose;;
    _ ← downLocked;
    RemoveAllPeers;;
    limiter_Close.

(** ** Identity *)

Definition SetPrivateKey (sk : list Z) : M unit :=
  w ← get;
  if bytes_eqb sk (w_privateKey w) then mret tt
  else
    let pk := publicKey sk in
    for_each (peers_list w) (fun '(key, p) =>
      h ← handshake p;
      if bytes_eqb (hs_remoteStatic h) pk then removePeerLocked p key else mret tt);;
    modify (fun w => w <| w_privateKey := sk |> <| w_publicKey := pk |>
      <| w_cookieChecker ::= fun c => CookieChecker_Init c pk |>);;
    w ← get;
    for_each (peers_list w) (fun '(_, p) =>
      set_handshake p (fun h =>
        h <| hs_precomputedStaticStatic := fst (sharedSecret sk (hs_remoteStatic h)) |>));;
    for_each (peers_list w) (fun '(_, p) => ExpireCurrentKeypairs p).

Definition SendKeepalivesToPeersWithCurrentKeypair : M unit :=
  up ← isUp;
  if negb up then mret tt
  else
    w ← get;
    for_each (peers_list w) (fun '(_, p) =>
      pe ← peer p;
      match current (p_keypairs pe) with
      | None => mret tt
      | Some k =>
          kp ← keypair k;
          t ← env now;
          when (negb (kp_created kp + RejectAfterTime <? t)) (SendKeepalive p)
      end).

(** ** TUN events *)

(** A round of [RoutineTUNEventReader]: the flags of the event and the MTU the
    device reports, [None] an error. On that error, and on a negative MTU, the
    rest of the event is skipped. *)
Record TunEvent := mkTunEvent { te_mtuUpdate : bool; te_up : bool; te_down : bool }.

Definition RoutineTUNEventReader (event : TunEvent) (mtu : option Z) : M unit :=
  let updown :=
    (if te_up event then _ ← Up; mret tt else mret tt);;
    (if te_down event then _ ← Down; mret tt else mret tt) in
  if te_mtuUpdate event then
    match mtu with
    | None => mret tt
    | Some mtu =>
        if mtu <? 0 then mret tt
        else
          modify (fun w => w <| w_mtu := i32 (if mtu >? MaxContentSize then MaxContentSize else mtu) |>);;
          updown
    end
  else updown.

(** The read error of [RoutineReadFromTUN]: [false] ends the routine. *)
Definition tun_read_error (tooManySegments : bool) : M bool :=
  if tooManySegments then mret true
  else
    closed ← isClosed;
    when (negb closed) Close;;
    mret false.

End device.
