(* ===== verification/Uapi.v ===== *)
(** * The configuration protocol

    Models src/wireguard-go/device/uapi.go: the set operation, which parses
    lines and calls the operations of [Device], and the get operation, which
    prints the configuration. *)

From Stdlib Require Import String.
From stdpp Require Import base numbers list gmap.
From S2P Require Import Tai64n Replay Ratelimiter AllowedIPs.
From S2P Require Import Prelude Setters GoStrings Netip Env Crypto Messages Cookie NoiseTypes DeviceState Noise Timers PeerOps Send Receive Device.

Open Scope Z_scope.

(** The codes of [IPCError]. *)
Inductive ipc_code := IpcErrorIO | IpcErrorProtocol | IpcErrorInvalid | IpcErrorPortInUse | IpcErrorUnknown.

#[export] Instance ipc_code_eq_dec : EqDecision ipc_code.
Proof. solve_decision. Defined.

(** [sip_Peer] is the embedded pointer. *)
Record ipcSetPeer := mkSetPeer {
  sip_Peer : option PeerPtr;
  sip_dummy : bool;
  sip_created : bool;
  sip_pkaOn : bool
}.

#[export] Instance eta_ipcSetPeer : Settable ipcSetPeer := fun r =>
  mkSetPeer (sip_Peer r) (sip_dummy r) (sip_created r) (sip_pkaOn r).

Definition is_true_value (value : list Z) : bool := bytes_eqb value (lit "true").

(** [&Peer{}] *)
Definition new_dummy : M PeerPtr :=
  p ← fresh; modify (fun w => w <| w_peers ::= <[p := zero_peer]> |>);; mret p.

Section uapi.
Context `{Crypto} `{Endpoints}.

(** ** Set *)

(** The results of the line handlers are errors, [None] for none. *)
Definition handleDeviceLine (key value : list Z) : M (option ipc_code) :=
  if bytes_eqb key (lit "private_key") then
    '(sk, ok) ← deref (PrivateKey_FromMaybeZeroHex (zeros NoisePrivateKeySize) value);
    if ok : bool then SetPrivateKey sk;; mret None else mret (Some IpcErrorInvalid)
  else if bytes_eqb key (lit "listen_port") then
    match ParseUint value 16 with
    | None => mret (Some IpcErrorInvalid)
    | Some port =>
        modify (fun w => w <| w_port := u16 port |>);;
        err ← BindUpdate;
        mret (if err : bool then Some IpcErrorPortInUse else None)
    end
  else if bytes_eqb key (lit "fwmark") then
    match ParseUint value 32 with
    | None => mret (Some IpcErrorInvalid)
    | Some mark =>
        err ← BindSetMark (u32 mark);
        mret (if err : bool then Some IpcErrorPortInUse else None)
    end
  else if bytes_eqb key (lit "replace_peers") then
    if is_true_value value then RemoveAllPeers;; mret None else mret (Some IpcErrorInvalid)
  else mret (Some IpcErrorInvalid).

Definition handlePostConfig (sp : ipcSetPeer) : M unit :=
  match sip_Peer sp with
  | None => mret tt
  | Some p =>
      if sip_dummy sp then mret tt
      else
        w ← get;
        when (sip_created sp) (set_peer p (fun pe => pe <| p_endpoint; ep_disableRoaming :=
          w_brokenRoaming w && bool_decide (ep_val (p_endpoint pe) <> None) |>));;
        up ← isUp;
        if up : bool then
          Start p;;
          when (sip_pkaOn sp) (SendKeepalive p);;
          SendStagedPackets p
        else mret tt
  end.

Definition handlePublicKeyLine (sp : ipcSetPeer) (value : list Z) : M (ipcSetPeer * option ipc_code) :=
  let '(pk, ok) := PublicKey_FromHex (zeros NoisePublicKeySize) value in
  if negb ok then mret (sp, Some IpcErrorInvalid)
  else
    w ← get;
    let dummy := Equals (w_publicKey w) pk in
    sp ← (if dummy then
            p ← new_dummy; mret (sp <| sip_dummy := true |> <| sip_Peer := Some p |>)
          else
            p ← LookupPeer pk; mret (sp <| sip_dummy := false |> <| sip_Peer := p |>));
    match sip_Peer sp with
    | Some _ => mret (sp <| sip_created := false |>, None)
    | None =>
        p ← NewPeer pk;
        let sp := sp <| sip_created := true |> <| sip_Peer := p |> in
        mret (sp, match p with None => Some IpcErrorInvalid | Some _ => None end)
    end.

(** A dummy for the rest of the peer's lines. *)
Definition make_dummy (sp : ipcSetPeer) : M ipcSetPeer :=
  p ← new_dummy; mret (sp <| sip_Peer := Some p |> <| sip_dummy := true |>).

Definition update_allowed_ip (sp : ipcSetPeer) (p : PeerPtr) (value : list Z) : M (option ipc_code) :=
  let '(add, value) := match value with 45 :: value => (false, value) | _ => (true, value) end in
  match ParsePrefix value with
  | None => mret (Some IpcErrorInvalid)
  | Some prefix =>
      if sip_dummy sp then mret None
      else
        w ← get;
        t ← deref (if add : bool then Insert (w_allowedips w) prefix p
                   else Remove (w_allowedips w) prefix p);
        modify (fun w => w <| w_allowedips := t |>);;
        mret None
  end.

(** The embedded peer is not nil: [handlePublicKeyLine] has set it. *)
Definition handlePeerLine (sp : ipcSetPeer) (key value : list Z) : M (ipcSetPeer * option ipc_code) :=
  p ← deref (sip_Peer sp);
  if bytes_eqb key (lit "update_only") then
    if is_true_value value then
      if sip_created sp && negb (sip_dummy sp) then
        h ← handshake p;
        RemovePeer (hs_remoteStatic h);;
        sp ← make_dummy sp; mret (sp, None)
      else mret (sp, None)
    else mret (sp, Some IpcErrorInvalid)
  else if bytes_eqb key (lit "remove") then
    if is_true_value value then
      (if sip_dummy sp then mret tt else h ← handshake p; RemovePeer (hs_remoteStatic h));;
      sp ← make_dummy sp; mret (sp, None)
    else mret (sp, Some IpcErrorInvalid)
  else if bytes_eqb key (lit "preshared_key") then
    h ← handshake p;
    let '(psk, ok) := PresharedKey_FromHex (hs_presharedKey h) value in
    set_handshake p (fun h => h <| hs_presharedKey := psk |>);;
    mret (sp, if ok : bool then None else Some IpcErrorInvalid)
  else if bytes_eqb key (lit "endpoint") then
    match ParseEndpoint value with
    | None => mret (sp, Some IpcErrorInvalid)
    | Some endpoint =>
        set_peer p (fun pe => pe <| p_endpoint; ep_val := Some endpoint |>);; mret (sp, None)
    end
  else if bytes_eqb key (lit "persistent_keepalive_interval") then
    match ParseUint value 16 with
    | None => mret (sp, Some IpcErrorInvalid)
    | Some secs =>
        pe ← peer p;
        let old := p_persistentKeepaliveInterval pe in
        set_peer p (fun pe => pe <| p_persistentKeepaliveInterval := u32 secs |>);;
        mret (sp <| sip_pkaOn := (old =? 0) && negb (secs =? 0) |>, None)
    end
  else if bytes_eqb key (lit "replace_allowed_ips") then
    if is_true_value value then
      if sip_dummy sp then mret (sp, None)
      else
        w ← get;
        t ← deref (RemoveByPeer (w_allowedips w) p);
        modify (fun w => w <| w_allowedips := t |>);;
        mret (sp, None)
    else mret (sp, Some IpcErrorInvalid)
  else if bytes_eqb key (lit "allowed_ip") then
    err ← update_allowed_ip sp p value; mret (sp, err)
  else if bytes_eqb key (lit "protocol_version") then
    mret (sp, if bytes_eqb value (lit "1") then None else Some IpcErrorInvalid)
  else mret (sp, Some IpcErrorInvalid).

(** The loop over the lines; [ok] tells how the scanner ends. *)
Fixpoint set_lines (lines : list (list Z)) (ok : bool) (sp : ipcSetPeer) (deviceConfig : bool) :
    M (option ipc_code) :=
  match lines with
  | [] => handlePostConfig sp;; mret (if ok then None else Some IpcErrorIO)
  | [] :: _ => handlePostConfig sp;; mret None
  | line :: lines =>
      match cut 61 line with
      | None => mret (Some IpcErrorProtocol)
      | Some (key, value) =>
          if bytes_eqb key (lit "public_key") then
            handlePostConfig sp;;
            '(sp, err) ← handlePublicKeyLine sp value;
            match err with
            | Some e => mret (Some e)
            | None => set_lines lines ok sp false
            end
          else
            '(sp, err) ← (if deviceConfig then err ← handleDeviceLine key value; mret (sp, err)
                          else handlePeerLine sp key value);
            match err with
            | Some e => mret (Some e)
            | None => set_lines lines ok sp deviceConfig
            end
      end
  end.

Definition IpcSetOperation (text : list Z) : M (option ipc_code) :=
  let '(lines, ok) := scan_lines text [] in
  set_lines lines ok (mkSetPeer None false false false) true.

(** ** Get *)

Definition keyf (prefix key : list Z) : list Z := prefix ++ [61] ++ hex_encode key ++ [10].

(** A line "name=value". *)
Definition sendf (name value : list Z) : list Z := name ++ [61] ++ value ++ [10].

Definition peer_lines (w : World) (p : PeerPtr) (pe : Peer) : option (list Z) :=
  let nano := p_lastHandshakeNano pe in
  let secs := Z.quot nano Second in
  let nano := Z.rem nano Second in
  prefixes ← EntriesForPeer (w_allowedips w) p (fun _ => true);
  Some (keyf (lit "public_key") (hs_remoteStatic (p_handshake pe)) ++
    keyf (lit "preshared_key") (hs_presharedKey (p_handshake pe)) ++
    sendf (lit "protocol_version") (lit "1") ++
    match ep_val (p_endpoint pe) with
    | Some ep => sendf (lit "endpoint") (DstToString ep)
    | None => []
    end ++
    sendf (lit "last_handshake_time_sec") (decimal_signed secs) ++
    sendf (lit "last_handshake_time_nsec") (decimal_signed nano) ++
    sendf (lit "tx_bytes") (decimal (p_txBytes pe)) ++
    sendf (lit "rx_bytes") (decimal (p_rxBytes pe)) ++
    sendf (lit "persistent_keepalive_interval") (decimal (p_persistentKeepaliveInterval pe)) ++
    concat (map (fun prefix => sendf (lit "allowed_ip") (Prefix_String prefix)) prefixes)).

Definition device_lines (w : World) : list Z :=
  (if IsZero (w_privateKey w) then [] else keyf (lit "private_key") (w_privateKey w)) ++
  (if w_port w =? 0 then [] else sendf (lit "listen_port") (decimal (w_port w))) ++
  (if w_fwmark w =? 0 then [] else sendf (lit "fwmark") (decimal (w_fwmark w))).

Definition IpcGetOperation : M (list Z) :=
  w ← get;
  ps ← deref (mapM (fun '(_, p) => pe ← w_peers w !! p; peer_lines w p pe) (peers_list w));
  mret (device_lines w ++ concat ps).

(** ** Requests *)

Definition ipc_errno (e : option ipc_code) (codes : ipc_code -> Z) : list Z :=
  lit "errno=" ++ decimal_signed (match e with None => 0 | Some c => codes c end) ++ [10; 10].

(** What a round of [IpcHandle] reads after the operation line. *)
Inductive ipc_request :=
| ReqSet (text : list Z)
| ReqGet (nextByte : Z).

(** The reply; [codes] are the numbers of the errors on the platform. *)
Definition IpcHandle (codes : ipc_code -> Z) (r : ipc_request) : M (list Z) :=
  match r with
  | ReqSet text => err ← IpcSetOperation text; mret (ipc_errno err codes)
  | ReqGet nextByte =>
      if nextByte =? 10 then
        out ← IpcGetOperation; mret (out ++ ipc_errno None codes)
      else mret (ipc_errno (Some IpcErrorInvalid) codes)
  end.

End uapi.
