(* ===== verification/System.v ===== *)
(** * The device as a transition system

    [op] lists what can happen to a running device: a round of one of its
    routines, an expired timer, an event of the TUN device, a configuration
    request. A step runs one of them; routines of the code that run in parallel
    interleave at this granularity. *)

From stdpp Require Import base numbers list gmap relations.
From S2P Require Import Tai64n Replay Ratelimiter AllowedIPs.
From S2P Require Import Prelude Setters GoStrings Netip Env Crypto Messages Cookie NoiseTypes DeviceState Noise Timers PeerOps Send Receive Device Uapi.

Open Scope Z_scope.

Inductive op :=
| OpReadTUN (packets : list (list Z))
| OpReadTUNError (tooManySegments : bool)
| OpEncrypt
| OpSequentialSend (p : PeerPtr)
| OpReceive (datagrams : list (list Z * Endpoint))
| OpDecrypt
| OpHandshake
| OpSequentialReceive (p : PeerPtr)
| OpTimer (p : PeerPtr) (i : timer_id)
| OpTUNEvent (ev : TunEvent) (mtu : option Z)
| OpIpcSet (text : list Z)
| OpRemovePeer (key : list Z)
| OpSendKeepalives
| OpUp
| OpDown
| OpClose.

Section system.
Context `{Crypto} `{Endpoints}.

Definition discard {A} (m : M A) : M unit := _ ← m; mret tt.

Definition run (o : op) : M unit :=
  match o with
  | OpReadTUN packets => RoutineReadFromTUN packets
  | OpReadTUNError b => discard (tun_read_error b)
  | OpEncrypt => RoutineEncryption
  | OpSequentialSend p => discard (RoutineSequentialSender p)
  | OpReceive datagrams => RoutineReceiveIncoming datagrams
  | OpDecrypt => RoutineDecryption
  | OpHandshake => RoutineHandshake
  | OpSequentialReceive p => discard (RoutineSequentialReceiver p)
  | OpTimer p i => timer_callback p i
  | OpTUNEvent ev mtu => RoutineTUNEventReader ev mtu
  | OpIpcSet text => discard (IpcSetOperation text)
  | OpRemovePeer key => RemovePeer key
  | OpSendKeepalives => SendKeepalivesToPeersWithCurrentKeypair
  | OpUp => discard Up
  | OpDown => discard Down
  | OpClose => Close
  end.

(** What comes from the network and the TUN device is bytes. *)
Definition op_wf (o : op) : Prop :=
  match o with
  | OpReadTUN packets => Forall is_bytes packets
  | OpReceive datagrams => Forall (fun d => is_bytes d.1) datagrams
  | _ => True
  end.

Inductive step (w w' : World) : Prop :=
| step_op o : op_wf o -> run o w = Some (tt, w') -> step w w'.

Definition reachable (w : World) : Prop :=
  exists mtu outside w0, NewDevice mtu outside = Some w0 /\ rtc step w0 w.

(** Runs a list of operations, for examples. *)
Fixpoint run_list (l : list op) : M unit :=
  match l with
  | [] => mret tt
  | o :: l => run o;; run_list l
  end.

Lemma run_list_rtc l w w' : Forall op_wf l -> run_list l w = Some (tt, w') -> rtc step w w'.
Proof.
  intros Hl. revert w. induction Hl as [|o l Ho Hl IH]; intros w; cbn [run_list].
  - by intros [= <-].
  - intros ([] & w1 & H1 & H2)%bind_inv. eapply rtc_l; [|by apply IH]. by econstructor.
Qed.

Lemma rtc_run_list w w' : rtc step w w' -> exists l, Forall op_wf l /\ run_list l w = Some (tt, w').
Proof.
  induction 1 as [w|w w1 w2 [o Ho Hr] _ (l & Hl & IH)]; [by exists []|].
  exists (o :: l). split; [by constructor|]. cbn [run_list]. by rewrite bind_eq, Hr.
Qed.

Lemma reachable_runs w :
  reachable w -> exists l mtu outside w0,
    NewDevice mtu outside = Some w0 /\ Forall op_wf l /\ run_list l w0 = Some (tt, w).
Proof. intros (mtu & outside & w0 & Hn & (l & Hl & Hr)%rtc_run_list). by exists l, mtu, outside, w0. Qed.

(** The datagrams that arrive in a sequence of operations. *)
Definition op_datagrams (o : op) : list (list Z) :=
  match o with
  | OpReceive datagrams => datagrams.*1
  | _ => []
  end.

Definition arrived (l : list op) : list (list Z) := concat (map op_datagrams l).

(** An invariant of the initial states that every step keeps holds throughout. *)
Lemma reachable_ind (P : World -> Prop) :
  (forall mtu outside w, NewDevice mtu outside = Some w -> P w) ->
  (forall o w w', op_wf o -> run o w = Some (tt, w') -> P w -> P w') ->
  forall w, reachable w -> P w.
Proof.
  intros Hi Hs w (mtu & out & w0 & Hw0 & Hr). pose proof (Hi _ _ _ Hw0) as HP. clear Hw0.
  induction Hr as [|w1 w2 w3 [o Ho Hrun] _ IH]; [done|]. apply IH. by eapply Hs.
Qed.

End system.
