(* ===== verification/Frame.v ===== *)
(** * What the outbound path leaves alone

    A relation between states that the primitive actions of the outbound path
    respect is respected by every operation of [Noise], [Timers], [PeerOps] and
    [Send]. Clients state the primitives once, as an instance of [Frame]. *)

From stdpp Require Import base numbers list gmap.
From S2P Require Import Tai64n Replay Ratelimiter AllowedIPs.
From S2P Require Import Prelude Setters GoStrings Env Crypto Messages Cookie DeviceState Noise Timers PeerOps Send.

Open Scope Z_scope.

(** An update of a peer that leaves its public key. *)
Definition keeps_identity (f : Peer -> Peer) : Prop :=
  forall pe, hs_remoteStatic (p_handshake (f pe)) = hs_remoteStatic (p_handshake pe).

Class Frame (R : World -> World -> Prop) : Prop := {
  fr_pre :: PreOrder R;
  fr_env {A} (m : ST Env A) : pres R (env m);
  fr_jitter n : pres R (fastrandn n);
  fr_set_peer p f : keeps_identity f -> pres R (set_peer p f);
  fr_assign_nonces p k l : pres R (assign_nonces p k l);
  fr_retire k : pres R (set_keypair k (fun kp => kp <| kp_sendNonce := RejectAfterMessages |>));
  fr_table f : pres R (modify (fun w => w <| w_indexTable ::= f |>));
  fr_session s r i t li ri :
    pres R (alloc_keypair (mkKeypair 0 s r (Replay.Reset Replay.zero_filter) i t li ri));
  fr_send b ep : pres R (bind_Send b ep);
  fr_clearsrc ep : pres R (emit (EvClearSrc ep));
  fr_checker c : pres R (modify (fun w => w <| w_cookieChecker := c |>));
  fr_fresh : pres R fresh;
  fr_outs f : pres R (modify (fun w => w <| w_outs ::= f |>));
  fr_encryption q : pres R (modify (fun w => w <| w_encryption := q |>))
}.

#[export] Hint Extern 1 (pres _ (set_peer _ _)) => apply fr_set_peer; first [exact _ | intros ?; reflexivity] : pres.
#[export] Hint Resolve fr_env fr_jitter fr_assign_nonces fr_retire fr_table fr_session fr_send fr_clearsrc
  fr_checker fr_fresh fr_outs fr_encryption : pres.

(** Assigning nonces only sets counters. *)
Lemma assign_nonces_pres (R : World -> World -> Prop) `{!PreOrder R} p k l :
  (forall n, pres R (set_keypair k (fun kp => kp <| kp_sendNonce := n |>))) -> pres R (assign_nonces p k l).
Proof.
  intros Hn. assert (Hk : pres R (keypair k)).
  { intros w a w' [_ ->]%deref_inv. reflexivity. }
  induction l as [|e l IH]; cbn [assign_nonces]; pres.
Qed.

Section frame.
Context `{Crypto} (R : World -> World -> Prop) `{!Frame R}.

(** Reads change nothing. *)
Lemma fr_peer p : pres R (peer p).
Proof. intros w a w'. unfold peer. destruct (w_peers w !! p); [|done]. intros [= <- <-]. reflexivity. Qed.

Lemma fr_keypair k : pres R (keypair k).
Proof. intros w a w'. unfold keypair. destruct (w_keypairs w !! k); [|done]. intros [= <- <-]. reflexivity. Qed.

Lemma fr_out_container c : pres R (out_container c).
Proof. intros w a w'. unfold out_container. destruct (w_outs w !! c); [|done]. intros [= <- <-]. reflexivity. Qed.

Lemma fr_set_handshake p f : (forall h, hs_remoteStatic (f h) = hs_remoteStatic h) -> pres R (set_handshake p f).
Proof. intros Hf. apply fr_set_peer. intros pe. apply Hf. Qed.

Lemma fr_set_timers p f : pres R (set_timers p f).
Proof. by apply fr_set_peer. Qed.

#[local] Hint Extern 1 (pres R (set_handshake _ _)) => apply fr_set_handshake; first [exact _ | intros ?; reflexivity] : pres.
#[local] Hint Resolve fr_peer fr_keypair fr_out_container fr_set_timers : pres.

(** ** Handshakes *)

Lemma fr_handshake p : pres R (handshake p).
Proof. unfold handshake. pres. Qed.

Lemma fr_new_index fuel p : pres R (new_index fuel p).
Proof. induction fuel as [|fuel IH]; cbn [new_index]; pres. Qed.

Lemma fr_NewIndexForHandshake p : pres R (NewIndexForHandshake p).
Proof. intros w a w'. apply fr_new_index. Qed.

#[local] Hint Resolve fr_handshake fr_NewIndexForHandshake : pres.

Lemma fr_CreateMessageInitiation p : pres R (CreateMessageInitiation p).
Proof. unfold CreateMessageInitiation, initiation_static, Delete. pres. Qed.

Lemma fr_ConsumeMessageInitiation m : pres R (ConsumeMessageInitiation m).
Proof. unfold ConsumeMessageInitiation. pres. Qed.

Lemma fr_CreateMessageResponse p : pres R (CreateMessageResponse p).
Proof. unfold CreateMessageResponse, Delete. pres. Qed.

Lemma fr_ConsumeMessageResponse m : pres R (ConsumeMessageResponse m).
Proof. unfold ConsumeMessageResponse, Lookup_index. pres. Qed.

Lemma fr_DeleteKeypair k : pres R (DeleteKeypair k).
Proof. unfold DeleteKeypair, Delete. pres. Qed.

#[local] Hint Resolve fr_CreateMessageInitiation fr_ConsumeMessageInitiation fr_CreateMessageResponse
  fr_ConsumeMessageResponse fr_DeleteKeypair : pres.

Lemma fr_BeginSymmetricSession p : pres R (BeginSymmetricSession p).
Proof. unfold BeginSymmetricSession, SwapIndexForKeypair, rotate_keypairs. pres. Qed.

Lemma fr_ReceivedWithKeypair p k : pres R (ReceivedWithKeypair p k).
Proof. unfold ReceivedWithKeypair. pres. Qed.

(** ** Timers and peers *)

Lemma fr_Mod p i d : pres R (Mod p i d).
Proof. unfold Mod. pres. Qed.

Lemma fr_Del p i : pres R (Del p i).
Proof. unfold Del. pres. Qed.

Lemma fr_timersActive p : pres R (timersActive p).
Proof. unfold timersActive, isUp. pres. Qed.

Lemma fr_IsPending p i : pres R (IsPending p i).
Proof. unfold IsPending. pres. Qed.

#[local] Hint Resolve fr_BeginSymmetricSession fr_ReceivedWithKeypair fr_Mod fr_Del fr_timersActive
  fr_IsPending : pres.

Lemma fr_timersDataSent p : pres R (timersDataSent p).
Proof. unfold timersDataSent, jitter. pres. Qed.

Lemma fr_timersDataReceived p : pres R (timersDataReceived p).
Proof. unfold timersDataReceived. pres. Qed.

Lemma fr_timersAnyAuthenticatedPacketSent p : pres R (timersAnyAuthenticatedPacketSent p).
Proof. unfold timersAnyAuthenticatedPacketSent. pres. Qed.

Lemma fr_timersAnyAuthenticatedPacketReceived p : pres R (timersAnyAuthenticatedPacketReceived p).
Proof. unfold timersAnyAuthenticatedPacketReceived. pres. Qed.

Lemma fr_timersHandshakeInitiated p : pres R (timersHandshakeInitiated p).
Proof. unfold timersHandshakeInitiated, jitter. pres. Qed.

Lemma fr_timersHandshakeComplete p : pres R (timersHandshakeComplete p).
Proof. unfold timersHandshakeComplete. pres. Qed.

Lemma fr_timersSessionDerived p : pres R (timersSessionDerived p).
Proof. unfold timersSessionDerived. pres. Qed.

Lemma fr_timersAnyAuthenticatedPacketTraversal p : pres R (timersAnyAuthenticatedPacketTraversal p).
Proof. unfold timersAnyAuthenticatedPacketTraversal. pres. Qed.

Lemma fr_timersStart p : pres R (timersStart p).
Proof. unfold timersStart. pres. Qed.

Lemma fr_timersStop p : pres R (timersStop p).
Proof. unfold timersStop, DelSync. pres. Qed.

Lemma fr_SendBuffers p b : pres R (SendBuffers p b).
Proof. unfold SendBuffers, isClosed. pres. Qed.

Lemma fr_SetEndpointFromPacket p ep : pres R (SetEndpointFromPacket p ep).
Proof. unfold SetEndpointFromPacket. pres. Qed.

Lemma fr_markEndpointSrcForClearing p : pres R (markEndpointSrcForClearing p).
Proof. unfold markEndpointSrcForClearing. pres. Qed.

Lemma fr_stage_loop fuel p c : pres R (stage_loop fuel p c).
Proof. induction fuel as [|fuel IH]; cbn [stage_loop]; unfold PutOutboundElementsContainer; pres. Qed.

Lemma fr_StagePackets p c : pres R (StagePackets p c).
Proof. intros w a w'. apply fr_stage_loop. Qed.

Lemma fr_flush_staged fuel p : pres R (flush_staged fuel p).
Proof. induction fuel as [|fuel IH]; cbn [flush_staged]; unfold PutOutboundElementsContainer; pres. Qed.

Lemma fr_FlushStagedPackets p : pres R (FlushStagedPackets p).
Proof. intros w a w'. apply fr_flush_staged. Qed.

#[local] Hint Resolve fr_timersDataSent fr_timersDataReceived fr_timersAnyAuthenticatedPacketSent
  fr_timersAnyAuthenticatedPacketReceived fr_timersHandshakeInitiated fr_timersHandshakeComplete
  fr_timersSessionDerived fr_timersAnyAuthenticatedPacketTraversal fr_SendBuffers
  fr_SetEndpointFromPacket fr_markEndpointSrcForClearing fr_StagePackets fr_FlushStagedPackets : pres.

Lemma fr_ZeroAndFlushAll p : pres R (ZeroAndFlushAll p).
Proof. unfold ZeroAndFlushAll, Delete. pres. Qed.

Lemma fr_ExpireCurrentKeypairs p : pres R (ExpireCurrentKeypairs p).
Proof. unfold ExpireCurrentKeypairs, Delete. pres. Qed.

(** ** Sending *)

Lemma fr_peer_AddMacs p b : pres R (peer_AddMacs p b).
Proof. unfold peer_AddMacs. pres. Qed.

#[local] Hint Resolve fr_ZeroAndFlushAll fr_ExpireCurrentKeypairs fr_peer_AddMacs : pres.

Lemma fr_SendHandshakeInitiation p b : pres R (SendHandshakeInitiation p b).
Proof. unfold SendHandshakeInitiation. pres. Qed.

Lemma fr_SendHandshakeResponse p : pres R (SendHandshakeResponse p).
Proof. unfold SendHandshakeResponse. pres. Qed.

Lemma fr_SendHandshakeCookie `{Endpoints} e : pres R (SendHandshakeCookie e).
Proof. unfold SendHandshakeCookie. pres. Qed.

#[local] Hint Resolve fr_SendHandshakeInitiation fr_SendHandshakeResponse : pres.

Lemma fr_keepKeyFreshSending p : pres R (keepKeyFreshSending p).
Proof. unfold keepKeyFreshSending. pres. Qed.

Lemma fr_new_container l : pres R (new_container l).
Proof. unfold new_container. pres. Qed.

Lemma fr_set_out_container c oc : pres R (set_out_container c oc).
Proof. unfold set_out_container. pres. Qed.

Lemma fr_PutOutboundElementsContainer c : pres R (PutOutboundElementsContainer c).
Proof. unfold PutOutboundElementsContainer. pres. Qed.

#[local] Hint Resolve fr_keepKeyFreshSending fr_new_container fr_set_out_container
  fr_PutOutboundElementsContainer : pres.

Lemma fr_send_container p k c : pres R (send_container p k c).
Proof. unfold send_container, queue_container. pres. Qed.

#[local] Hint Resolve fr_send_container : pres.

Lemma fr_staged_loop fuel p k : pres R (staged_loop fuel p k).
Proof. induction fuel as [|fuel IH]; cbn [staged_loop]; pres. Qed.

#[local] Hint Resolve fr_staged_loop : pres.

Lemma fr_staged_top fuel p : pres R (staged_top fuel p).
Proof. induction fuel as [|fuel IH]; cbn [staged_top]; unfold isUp, usable_keypair; pres. Qed.

Lemma fr_SendStagedPackets p : pres R (SendStagedPackets p).
Proof. intros w a w'. apply fr_staged_top. Qed.

#[local] Hint Resolve fr_SendStagedPackets : pres.

Lemma fr_SendKeepalive p : pres R (SendKeepalive p).
Proof. unfold SendKeepalive. pres. Qed.

#[local] Hint Resolve fr_SendKeepalive : pres.

Lemma fr_group_packets l m : pres R (group_packets l m).
Proof.
  revert m. induction l as [|x l IH]; intros m; cbn [group_packets]; unfold route_packet; pres.
Qed.

#[local] Hint Resolve fr_group_packets : pres.

Lemma fr_RoutineReadFromTUN l : pres R (RoutineReadFromTUN l).
Proof. unfold RoutineReadFromTUN. pres. Qed.

Lemma fr_encrypt_elem mtu e : pres R (encrypt_elem mtu e).
Proof. unfold encrypt_elem. pres. Qed.

Lemma fr_map_elems {A} (f : A -> M A) l : (forall x, pres R (f x)) -> pres R (map_elems f l).
Proof. intros Hf. induction l as [|x l IH]; cbn [map_elems]; pres. Qed.

Lemma fr_RoutineEncryption : pres R RoutineEncryption.
Proof.
  unfold RoutineEncryption. pres. apply fr_map_elems. intros. apply fr_encrypt_elem.
Qed.

Lemma fr_RoutineSequentialSender p : pres R (RoutineSequentialSender p).
Proof. unfold RoutineSequentialSender. pres. Qed.

Lemma fr_expired p i : pres R (expired p i).
Proof.
  destruct i; cbn [expired]; unfold expiredRetransmitHandshake, expiredSendKeepalive, expiredNewHandshake,
    expiredZeroKeyMaterial, expiredPersistentKeepalive; pres.
Qed.

#[local] Hint Resolve fr_expired : pres.

Lemma fr_timer_callback p i : pres R (timer_callback p i).
Proof. unfold timer_callback, timer_fired. pres. Qed.

End frame.

#[export] Hint Extern 1 (pres _ (set_handshake _ _)) => apply fr_set_handshake; first [exact _ | intros ?; reflexivity] : pres.
#[export] Hint Resolve fr_peer fr_keypair fr_out_container fr_set_timers fr_handshake
  fr_NewIndexForHandshake fr_CreateMessageInitiation fr_ConsumeMessageInitiation
  fr_CreateMessageResponse fr_ConsumeMessageResponse fr_DeleteKeypair fr_BeginSymmetricSession
  fr_ReceivedWithKeypair fr_Mod fr_Del fr_timersActive fr_IsPending fr_timersDataSent
  fr_timersDataReceived fr_timersAnyAuthenticatedPacketSent fr_timersAnyAuthenticatedPacketReceived
  fr_timersHandshakeInitiated fr_timersHandshakeComplete fr_timersSessionDerived
  fr_timersAnyAuthenticatedPacketTraversal fr_timersStart fr_timersStop fr_SendBuffers
  fr_SetEndpointFromPacket fr_markEndpointSrcForClearing fr_StagePackets fr_FlushStagedPackets
  fr_ZeroAndFlushAll fr_ExpireCurrentKeypairs fr_SendHandshakeInitiation fr_SendHandshakeResponse
  fr_SendHandshakeCookie fr_keepKeyFreshSending fr_SendStagedPackets fr_SendKeepalive
  fr_RoutineReadFromTUN fr_RoutineEncryption fr_RoutineSequentialSender fr_timer_callback
  fr_PutOutboundElementsContainer fr_new_container : pres.
