(* ===== verification/DeviceFrame.v ===== *)
(** * What the whole device leaves alone

    Extends [Frame] to every operation of [System]: a relation that holds
    across the primitives of the outbound path, the inbound routines and the
    assignments to the fields of the device holds across every step. *)

From stdpp Require Import base numbers list gmap relations.
From S2P Require Import Tai64n Replay Ratelimiter AllowedIPs.
From S2P Require Import Prelude Setters GoStrings Netip Env Crypto Messages Cookie NoiseTypes DeviceState Noise Timers PeerOps Send Receive Device Uapi System Frame.

Open Scope Z_scope.

Definition not_write (ev : Event) : Prop := match ev with EvWriteTun _ => False | _ => True end.

(** The fields the operations set freely are the only ones that differ. *)
Definition same_core (w w' : World) : Prop :=
  w_keypairs w' = w_keypairs w /\ w_fresh w' = w_fresh w /\ w_ins w' = w_ins w /\ w_out w' = w_out w /\
  w_state w' = w_state w /\ w_keyMap w' = w_keyMap w /\ w_allowedips w' = w_allowedips w /\
  w_peers w' = w_peers w.

(** The primitives of everything that leaves the configuration alone. *)
Class DeviceFrame {CR : Crypto} {EP : Endpoints} (R : World -> World -> Prop) : Prop := {
  df_frame :: Frame R;
  df_modify f : (forall w, same_core w (f w) /\ w_decryption (f w) = w_decryption w) -> pres R (modify f);
  df_emit ev : not_write ev -> pres R (emit ev);
  df_decryption : pres R RoutineDecryption;
  df_receiver p : pres R (RoutineSequentialReceiver p);
  df_put c : pres R (PutInboundElementsContainer c)
}.

(** What a relation has to respect besides: the arrival of datagrams. *)
Class IncomingFrame {CR : Crypto} {EP : Endpoints} (R : World -> World -> Prop) : Prop :=
  df_incoming l : Forall (fun d => is_bytes d.1) l -> pres R (RoutineReceiveIncoming l).

(** Relations that the inbound routines respect because they respect their
    primitives as well. *)
Class QuietFrame (R : World -> World -> Prop) : Prop := {
  qf_frame :: Frame R;
  qf_modify f : (forall w, same_core w (f w)) -> pres R (modify f);
  qf_emit ev : pres R (emit ev);
  qf_ins f : pres R (modify (fun w => w <| w_ins ::= f |>));
  qf_filter k f : pres R (set_keypair k (fun kp => kp <| kp_replayFilter := f |>))
}.

(** The operations that change the configuration: the state of the device, its
    peers and its routes. *)
Class SystemFrame {CR : Crypto} {EP : Endpoints} (R : World -> World -> Prop) : Prop := {
  sf_device :: DeviceFrame R;
  sf_changeState s : pres R (changeState s);
  sf_Close : pres R Close;
  sf_RemovePeer key : pres R (RemovePeer key);
  sf_IpcSetOperation text : pres R (IpcSetOperation text)
}.

(** The primitives of the configuration, for relations that do not depend on
    how they are combined. *)
Class ConfigFrame {CR : Crypto} {EP : Endpoints} (R : World -> World -> Prop) : Prop := {
  cf_device :: DeviceFrame R;
  cf_keyMap f : pres R (modify (fun w => w <| w_keyMap ::= f |>));
  cf_new_peer p pe : pres R (modify (fun w => w <| w_peers ::= <[p := pe]> |>));
  cf_routes t : pres R (modify (fun w => w <| w_allowedips := t |>))
}.

Section quiet_frame.
Context {CR : Crypto} {EP : Endpoints} (R : World -> World -> Prop) `{!QuietFrame R}.

#[local] Hint Resolve qf_emit qf_ins qf_filter : pres.
#[local] Hint Extern 2 (pres R (modify _)) => by apply qf_modify : pres.

Lemma qf_in_container c : pres R (in_container c).
Proof. intros w a w' [_ ->]%deref_inv. reflexivity. Qed.

Lemma qf_set_in_container c ic : pres R (set_in_container c ic).
Proof. apply qf_ins. Qed.

#[local] Hint Resolve qf_in_container qf_set_in_container : pres.

Lemma qf_RoutineDecryption : pres R RoutineDecryption.
Proof.
  assert (He : forall l, pres R (map_elems decrypt_elem l)).
  { induction l as [|e l IH]; cbn [map_elems]; unfold decrypt_elem; pres. }
  unfold RoutineDecryption. pres.
Qed.

Lemma qf_RoutineReceiveIncoming l : pres R (RoutineReceiveIncoming l).
Proof.
  assert (Hd : forall l m, pres R (dispatch l m)).
  { clear l. induction l as [|[packet ep] l IH]; intros m; cbn [dispatch];
      unfold transport_elem, Lookup_index, queue_handshake; pres. }
  unfold RoutineReceiveIncoming, queue_inbound. pres.
Qed.

Lemma qf_receive_elems p l acc : pres R (receive_elems p acc l).
Proof.
  revert acc. induction l as [|e l IH]; intros acc; cbn [receive_elems]; unfold receive_elem, check_packet; pres.
Qed.

#[local] Hint Resolve qf_receive_elems : pres.

Lemma qf_RoutineSequentialReceiver p : pres R (RoutineSequentialReceiver p).
Proof.
  unfold RoutineSequentialReceiver, receive_end, add_rxBytes, keepKeyFreshReceiving, PutInboundElementsContainer.
  pres.
Qed.

#[export] Instance quiet_device_frame : DeviceFrame R.
Proof.
  split; intros.
  - apply _.
  - match goal with Hf : forall w, _ /\ _ |- _ => apply qf_modify; intros w; apply (Hf w) end.
  - apply qf_emit.
  - apply qf_RoutineDecryption.
  - apply qf_RoutineSequentialReceiver.
  - apply qf_ins.
Qed.

#[export] Instance quiet_incoming_frame : IncomingFrame R.
Proof. intros l _. apply qf_RoutineReceiveIncoming. Qed.

End quiet_frame.

Section device_frame.
Context {CR : Crypto} {EP : Endpoints} (R : World -> World -> Prop) `{!DeviceFrame R}.

#[local] Hint Resolve df_decryption df_receiver df_put : pres.
#[local] Hint Extern 1 (pres R (modify _)) => by apply df_modify : pres.
#[local] Hint Extern 1 (pres R (emit _)) => by apply df_emit : pres.

Lemma df_in_container c : pres R (in_container c).
Proof. intros w a w' [_ ->]%deref_inv. reflexivity. Qed.

#[local] Hint Resolve df_in_container : pres.

Lemma df_RoutineHandshake : pres R RoutineHandshake.
Proof.
  unfold RoutineHandshake, handle_cookie_reply, screen_handshake, IsUnderLoad, handle_initiation,
    handle_response, add_rxBytes, Lookup_index. pres.
Qed.

Lemma df_flush_inbound q : pres R (flush_inbound q).
Proof. induction q as [|[c|] q IH]; cbn [flush_inbound]; pres. Qed.

Lemma df_flush_outbound q : pres R (flush_outbound q).
Proof. induction q as [|[c|] q IH]; cbn [flush_outbound]; pres. Qed.

#[local] Hint Resolve df_RoutineHandshake df_flush_inbound df_flush_outbound : pres.

Lemma df_Start p : pres R (Start p).
Proof. unfold Start, flushInboundQueue, flushOutboundQueue, isClosed. pres. Qed.

Lemma df_repeat_st {A} n (m : M A) : pres R m -> pres R (repeat_st n m).
Proof. intros Hm. induction n as [|n IH]; cbn [repeat_st]; pres. Qed.

Lemma df_run_until_end n m : pres R m -> pres R (run_until_end n m).
Proof. intros Hm. induction n as [|n IH]; cbn [run_until_end]; pres. Qed.

#[local] Hint Resolve df_Start df_repeat_st df_run_until_end : pres.

Lemma df_Stop p : pres R (Stop p).
Proof. unfold Stop, stopping_Wait. pres. Qed.

#[local] Hint Resolve df_Stop : pres.

Lemma df_BindUpdate : pres R BindUpdate.
Proof.
  unfold BindUpdate, bind_Close, bind_Open, bind_SetMark, startRouteListener, outside_err, isUp,
    clear_cached_sources. pres.
Qed.

Lemma df_BindSetMark m : pres R (BindSetMark m).
Proof. unfold BindSetMark, bind_SetMark, outside_err, isUp, clear_cached_sources. pres. Qed.

Lemma df_downLocked : pres R downLocked.
Proof. unfold downLocked, BindClose, bind_Close, outside_err. pres. Qed.

#[local] Hint Resolve df_BindUpdate df_BindSetMark df_downLocked : pres.

Lemma df_upLocked : pres R upLocked.
Proof. unfold upLocked. pres. Qed.

Lemma df_limiter_Close : pres R limiter_Close.
Proof. unfold limiter_Close. pres. Qed.

Lemma df_handlePostConfig sp : pres R (handlePostConfig sp).
Proof. unfold handlePostConfig, isUp. pres. Qed.

End device_frame.

#[export] Hint Resolve df_decryption df_receiver df_put df_RoutineHandshake df_Start df_Stop df_BindUpdate
  df_BindSetMark df_downLocked df_upLocked df_limiter_Close df_handlePostConfig : pres.
#[export] Hint Extern 2 (pres _ (modify _)) => apply df_modify; first [exact _ | intros ?; by split_and!] : pres.
#[export] Hint Extern 2 (pres _ (emit _)) => apply df_emit; first [exact _ | exact I] : pres.

Section config_frame.
Context {CR : Crypto} {EP : Endpoints} (R : World -> World -> Prop) `{!ConfigFrame R}.

#[local] Hint Resolve cf_keyMap cf_new_peer cf_routes : pres.
#[local] Hint Extern 1 (pres R (modify (fun w => w <| w_keyMap := ∅ |>))) => apply (cf_keyMap (fun _ => ∅)) : pres.

Lemma cf_removePeerLocked p k : pres R (removePeerLocked p k).
Proof. unfold removePeerLocked. pres. Qed.

#[local] Hint Resolve cf_removePeerLocked : pres.

Lemma cf_RemovePeer k : pres R (RemovePeer k).
Proof. unfold RemovePeer, LookupPeer. pres. Qed.

Lemma cf_RemoveAllPeers : pres R RemoveAllPeers.
Proof. unfold RemoveAllPeers. pres. Qed.

#[local] Hint Resolve cf_RemovePeer cf_RemoveAllPeers : pres.

Lemma cf_set_lines lines ok sp b : pres R (set_lines lines ok sp b).
Proof.
  revert sp b. induction lines as [|[|x line] lines IH]; intros sp b; cbn [set_lines];
    unfold handlePublicKeyLine, handleDeviceLine, handlePeerLine, update_allowed_ip, SetPrivateKey,
      make_dummy, new_dummy, NewPeer, isClosed, LookupPeer, isUp; pres.
Qed.

Lemma cf_IpcSetOperation text : pres R (IpcSetOperation text).
Proof. unfold IpcSetOperation. destruct (scan_lines _ _). apply cf_set_lines. Qed.

Lemma config_system_frame : (forall s, pres R (set_state s)) -> SystemFrame R.
Proof.
  intros Hs. split; intros.
  - apply _.
  - unfold changeState. pres.
  - unfold Close, isClosed. pres.
  - apply cf_RemovePeer.
  - apply cf_IpcSetOperation.
Qed.

End config_frame.

Section system_frame.
Context {CR : Crypto} {EP : Endpoints} (R : World -> World -> Prop) `{!SystemFrame R}.

#[local] Hint Resolve sf_changeState sf_Close sf_RemovePeer sf_IpcSetOperation : pres.

Lemma sf_run_but o : (forall l, o = OpReceive l -> pres R (RoutineReceiveIncoming l)) -> pres R (run o).
Proof.
  intros Ho. destruct o; cbn [run] in *; unfold discard, tun_read_error, isClosed,
    RoutineTUNEventReader, SendKeepalivesToPeersWithCurrentKeypair, isUp, Up, Down;
    try (by apply Ho); pres.
Qed.

Lemma sf_run `{!IncomingFrame R} o : op_wf o -> pres R (run o).
Proof. intros Ho. apply sf_run_but. intros l ->. by apply df_incoming. Qed.

Lemma sf_rtc `{!IncomingFrame R} w w' : rtc step w w' -> R w w'.
Proof.
  induction 1 as [|w1 w2 w3 [o Ho Hr] _ IH]; [reflexivity|]. etrans; [|exact IH]. by apply (sf_run o Ho _ _ _ Hr).
Qed.

End system_frame.
