(* ===== verification/Config.v ===== *)
(** * The configuration of a device

    Invariants of the state, the peers and the routes: a closed device stays
    closed, peers are listed under their public keys and never too many, and
    the routing table is well formed and leads to listed peers only. *)

From Stdlib Require Import String.
From stdpp Require Import base numbers list gmap relations.
From S2P Require Import Tai64n Replay Ratelimiter AllowedIPs BitTrie Trie AllowedIPsCorrect AllowedIPsTable.
From S2P Require Import Prelude Setters GoStrings Netip NetipCorrect Env Crypto Messages Cookie NoiseTypes DeviceState Noise Timers PeerOps Send Receive Device Uapi System Frame DeviceFrame.

Open Scope Z_scope.

(** ** What most operations leave alone *)

Definition peer_key (pe : Peer) : list Z := hs_remoteStatic (p_handshake pe).

Record same_config (w w' : World) : Prop := {
  sc_state : w_state w' = w_state w;
  sc_keyMap : w_keyMap w' = w_keyMap w;
  sc_routes : w_allowedips w' = w_allowedips w;
  sc_fresh : (w_fresh w <= w_fresh w')%nat;
  sc_peers : forall p, peer_key <$> w_peers w' !! p = peer_key <$> w_peers w !! p
}.

#[local] Instance same_config_pre : PreOrder same_config.
Proof.
  split; [by split|]. intros a b c [] []. split; intros; congruence || lia.
Qed.

(** Nothing it mentions changes. *)
Lemma config_same w w' :
  w_state w' = w_state w -> w_keyMap w' = w_keyMap w -> w_allowedips w' = w_allowedips w ->
  (w_fresh w <= w_fresh w')%nat -> w_peers w' = w_peers w -> same_config w w'.
Proof. intros ? ? ? ? E. split; try done. by rewrite E. Qed.

Lemma config_modify f :
  (forall w, w_state (f w) = w_state w /\ w_keyMap (f w) = w_keyMap w /\ w_allowedips (f w) = w_allowedips w /\
     w_fresh (f w) = w_fresh w /\ w_peers (f w) = w_peers w) -> pres same_config (modify f).
Proof. intros Hf. apply pres_modify. intros w. destruct (Hf w) as (? & ? & ? & E & ?). apply config_same; by rewrite ?E. Qed.

Lemma config_set_keypair k f : pres same_config (set_keypair k f).
Proof.
  intros w a w'. unfold set_keypair. destruct (w_keypairs w !! k); [|done]. intros [= <- <-]. by apply config_same.
Qed.

Lemma config_set_peer p f : keeps_identity f -> pres same_config (set_peer p f).
Proof.
  intros Hf w a w'. unfold set_peer. destruct (w_peers w !! p) as [pe|] eqn:E; [|done]. intros [= <- <-].
  split; try done. intros q. cbn. destruct (decide (p = q)) as [<-|Hne].
  - rewrite lookup_insert_eq, E. cbn. f_equal. apply Hf.
  - by rewrite lookup_insert_ne.
Qed.

#[local] Instance config_frame : Frame same_config.
Proof.
  split; intros; try (by apply config_modify).
  - apply same_config_pre.
  - intros w a w'. unfold env. destruct (m _) as [[x e]|]; [|done]. intros [= <- <-]. by apply config_same.
  - intros w a w' [= <- <-]. by apply config_same.
  - by apply config_set_peer.
  - apply assign_nonces_pres; [apply _|]. intros n. apply config_set_keypair.
  - apply config_set_keypair.
  - intros w a w' [= <- <-]. apply config_same; cbn; done || lia.
  - intros w a w' [= <- <-]. by apply config_same.
  - intros w a w' [= <- <-]. apply config_same; cbn; done || lia.
Qed.

#[local] Instance config_quiet_frame : QuietFrame same_config.
Proof.
  split; intros; try (by apply config_modify).
  - apply _.
  - apply config_modify. intros w. by destruct (H w) as (? & ? & ? & ? & ? & ? & ? & ?).
  - apply config_set_keypair.
Qed.

(** ** Closed devices *)

(** A weaker relation inherits from [same_config]. *)
Lemma pres_weaken {A} (R R' : World -> World -> Prop) (m : M A) :
  (forall w w', R w w' -> R' w w') -> pres R m -> pres R' m.
Proof. intros HR Hm w a w' Hr. by eapply HR, Hm. Qed.

Lemma quiet_weaken (R R' : World -> World -> Prop) :
  QuietFrame R -> PreOrder R' -> (forall w w', R w w' -> R' w w') -> QuietFrame R'.
Proof.
  intros HQ HP HR. split; [split|..]; intros; try (eapply pres_weaken; [exact HR|]).
  - done.
  - apply fr_env.
  - apply fr_jitter.
  - by apply fr_set_peer.
  - apply fr_assign_nonces.
  - apply fr_retire.
  - apply fr_table.
  - apply fr_session.
  - apply fr_send.
  - apply fr_clearsrc.
  - apply fr_checker.
  - apply fr_fresh.
  - apply fr_outs.
  - apply fr_encryption.
  - by apply qf_modify.
  - apply qf_emit.
  - apply qf_ins.
  - apply qf_filter.
Qed.

Definition stays_closed (w w' : World) : Prop :=
  w_state w = deviceStateClosed -> w_state w' = deviceStateClosed.

#[local] Instance stays_closed_pre : PreOrder stays_closed.
Proof. split; [by intros w H|]. intros a b c H1 H2 H. auto. Qed.

#[local] Instance closed_quiet_frame : QuietFrame stays_closed.
Proof. apply (quiet_weaken same_config); [apply _..|]. intros w w' [E _ _ _ _]. unfold stays_closed. by rewrite E. Qed.

Section closed.
Context {CR : Crypto} {EP : Endpoints}.

#[local] Instance closed_config_frame : ConfigFrame stays_closed.
Proof. split; [apply _|..]; intros; apply pres_modify; intros w H; exact H. Qed.

#[local] Instance closed_system_frame : SystemFrame stays_closed.
Proof.
  split; [apply _| | |apply cf_RemovePeer; apply _|apply cf_IpcSetOperation; apply _].
  - intros s w a w' Hr Hc. unfold changeState in Hr. rewrite bind_eq, get_eq in Hr. cbv beta iota zeta in Hr.
    rewrite bool_decide_eq_true_2 in Hr by done. by injection Hr as <- <-.
  - intros w a w' Hr Hc. unfold Close, isClosed in Hr. rewrite bind_eq, gets_eq in Hr. cbv beta iota zeta in Hr.
    rewrite bool_decide_eq_true_2 in Hr by done. by injection Hr as <- <-.
Qed.

(** Closing is final. Once a device is closed, no operation brings it back:
    it is closed at the end of every run, and none of its peers can start. *)
Theorem closed_forever w w' :
  w_state w = deviceStateClosed -> rtc step w w' ->
  w_state w' = deviceStateClosed /\ forall p, Start p w' = Some (tt, w').
Proof.
  intros Hc Hr. pose proof (sf_rtc stays_closed _ _ Hr Hc) as Hc'. split; [done|]. intros p.
  unfold Start, isClosed. rewrite bind_eq, gets_eq. cbv beta iota. by rewrite bool_decide_eq_true_2.
Qed.

End closed.

(** ** Peers and routes *)

(** The routes [m] lead to listed peers. *)
Definition routes_live (w : World) (m : prefixes) : Prop :=
  forall v q p, m v !! q = Some p -> exists pk, w_keyMap w !! pk = Some p.

Record conf_ok (w : World) : Prop := {
  co_fresh : forall p, is_Some (w_peers w !! p) -> (p < w_fresh w)%nat;
  co_keys : forall pk p, w_keyMap w !! pk = Some p -> peer_key <$> w_peers w !! p = Some pk;
  co_size : (size (w_keyMap w) <= MaxPeers)%nat;
  co_routes : exists m, holds (w_allowedips w) m /\ routes_live w m
}.

(** A peer is listed once. *)
Lemma co_inj w pk pk' p : conf_ok w -> w_keyMap w !! pk = Some p -> w_keyMap w !! pk' = Some p -> pk = pk'.
Proof. intros Hw H1%(co_keys _ Hw) H2%(co_keys _ Hw). congruence. Qed.

Lemma conf_same w w' : same_config w w' -> conf_ok w -> conf_ok w'.
Proof.
  intros [Es Ek Er Ef Ep] [Hf Hk Hs (m & Hm & Hl)]. split.
  - intros p Hp. assert (is_Some (w_peers w !! p)) as ?%Hf; [|lia].
    specialize (Ep p). destruct (w_peers w !! p); [done|]. destruct Hp as [pe Hp]. by rewrite Hp in Ep.
  - intros pk p. rewrite Ek, Ep. apply Hk.
  - by rewrite Ek.
  - exists m. rewrite Er. split; [done|]. intros v q p. rewrite Ek. apply Hl.
Qed.

Definition keeps_conf (w w' : World) : Prop := conf_ok w -> conf_ok w'.

#[local] Instance keeps_conf_pre : PreOrder keeps_conf.
Proof. split; [by intros w H|]. intros a b c H1 H2 H. auto. Qed.

#[local] Instance conf_quiet_frame : QuietFrame keeps_conf.
Proof. apply (quiet_weaken same_config); [apply _..|]. intros w w' H Hw. by eapply conf_same. Qed.

(** The routes are replaced by those of a table with fewer or other routes. *)
Lemma conf_set_routes w t m :
  conf_ok w -> holds t m -> routes_live w m -> conf_ok (w <| w_allowedips := t |>).
Proof. intros [Hf Hk Hs _] Ht Hm. split; [done..|]. exists m. by split. Qed.

(** The table without the routes of [p]. *)
Lemma unroute w p t :
  conf_ok w -> RemoveByPeer (w_allowedips w) p = Some t ->
  exists m, holds t m /\ routes_live w m /\ forall v q, m v !! q <> Some p.
Proof.
  intros Hw Ht. destruct (co_routes _ Hw) as (m & Hm & Hl).
  destruct (RemoveByPeer_holds _ _ p Hm) as (t' & Ht' & Hm'). rewrite Ht in Ht'. injection Ht' as <-.
  eexists. split; [exact Hm'|]. split.
  - intros v q x [Hx _]%map_lookup_filter_Some. by apply (Hl v q).
  - intros v q [_ Hx]%map_lookup_filter_Some. done.
Qed.

(** A peer without routes is forgotten. *)
Lemma conf_forget w key p m :
  conf_ok w -> w_keyMap w !! key = Some p -> holds (w_allowedips w) m -> routes_live w m ->
  (forall v q, m v !! q <> Some p) -> conf_ok (w <| w_keyMap ::= delete key |>).
Proof.
  intros [Hf Hk Hs _] Hp Hm Hl Hn. split; cbn.
  - done.
  - intros pk q [_ Hq]%lookup_delete_Some. by apply Hk.
  - rewrite map_size_delete_Some by eauto. lia.
  - exists m. split; [done|]. intros v q x Hx. destruct (Hl v q x Hx) as [pk Hpk]. exists pk.
    apply lookup_delete_Some. split; [|done]. intros <-. apply (Hn v q). congruence.
Qed.

Section conf.
Context {CR : Crypto} {EP : Endpoints}.

Lemma conf_removePeerLocked p key w w' :
  conf_ok w -> w_keyMap w !! key = Some p -> removePeerLocked p key w = Some (tt, w') ->
  conf_ok w' /\ w_keyMap w' = delete key (w_keyMap w).
Proof.
  intros Hw Hp Hr. unfold removePeerLocked in Hr. rewrite bind_eq, get_eq in Hr. cbv beta iota in Hr.
  deref_step Hr t Et. rewrite bind_eq, modify_eq in Hr. cbv beta iota in Hr.
  destruct (unroute _ _ _ Hw Et) as (m & Hm & Hl & Hn). pose proof (conf_set_routes _ _ _ Hw Hm Hl) as Hw1.
  apply bind_inv in Hr as ([] & w2 & Hs & Hr). injection Hr as <-.
  apply (df_Stop same_config) in Hs. pose proof (conf_same _ _ Hs Hw1) as Hw2. destruct Hs as [_ Ek Er _ _].
  cbn in Ek, Er. split; [|cbn; by rewrite Ek]. apply (conf_forget _ _ p m); [done|by rewrite Ek|by rewrite Er| |done].
  intros v q x. rewrite Ek. apply Hl.
Qed.

(** A loop over peers that removes the one it is at, or (unless [D]) leaves the
    configuration alone. *)
Lemma conf_each (D : Prop) (b : list Z * PeerPtr -> M unit) l :
  (forall key p w w', conf_ok w -> w_keyMap w !! key = Some p -> b (key, p) w = Some (tt, w') ->
     conf_ok w' /\ (w_keyMap w' = delete key (w_keyMap w) \/ (~ D /\ w_keyMap w' = w_keyMap w))) ->
  NoDup l.*1 -> forall w w', (forall key p, (key, p) ∈ l -> w_keyMap w !! key = Some p) -> conf_ok w ->
  for_each l b w = Some (tt, w') ->
  conf_ok w' /\ forall k p, w_keyMap w' !! k = Some p -> w_keyMap w !! k = Some p /\ (D -> k ∉ l.*1).
Proof.
  intros Hb. induction l as [|[key p] l IH]; intros Hn w w' Hl Hw.
  { intros [= <-]. split; [done|]. intros k p Hk. split; [done|]. intros _. apply not_elem_of_nil. }
  apply NoDup_cons in Hn as [Hnk Hn]. cbn [for_each].
  intros ([] & w1 & H1 & Hr)%bind_inv. destruct (Hb _ _ _ _ Hw (Hl _ _ (list_elem_of_here _ _)) H1) as [Hw1 Hk1].
  destruct (IH Hn w1 w') as [Hw' Hk']; [|done|done|].
  - intros k q Hin. assert (Hne : key <> k).
    { intros ->. apply Hnk. by apply (list_elem_of_fmap_2 fst _ _ Hin). }
    specialize (Hl k q ltac:(by right)). destruct Hk1 as [->|[_ ->]]; [by rewrite lookup_delete_ne|done].
  - split; [done|]. intros k q Hk. destruct (Hk' _ _ Hk) as [H2 H3].
    destruct Hk1 as [E|[HD E]]; rewrite E in H2.
    + apply lookup_delete_Some in H2 as [Hne H2]. split; [done|]. intros HD. rewrite fmap_cons. cbn.
      rewrite not_elem_of_cons. split; [done|by apply H3].
    + split; [done|]. done.
Qed.

Lemma conf_RemovePeer key : pres keeps_conf (RemovePeer key).
Proof.
  intros w [] w' Hr Hw. unfold RemovePeer, LookupPeer in Hr. rewrite bind_eq, gets_eq in Hr. cbv beta iota in Hr.
  destruct (w_keyMap w !! key) as [p|] eqn:Ep; [|by injection Hr as <-]. by eapply conf_removePeerLocked.
Qed.

(** The list of the peers is the map. *)
Lemma peers_list_nodup w : NoDup (peers_list w).*1.
Proof. apply NoDup_fst_map_to_list. Qed.

Lemma elem_of_peers_list w key p : (key, p) ∈ peers_list w <-> w_keyMap w !! key = Some p.
Proof. apply elem_of_map_to_list. Qed.

Lemma conf_RemoveAllPeers w w' :
  conf_ok w -> RemoveAllPeers w = Some (tt, w') -> conf_ok w' /\ w_keyMap w' = ∅.
Proof.
  intros Hw Hr. unfold RemoveAllPeers in Hr. rewrite bind_eq, get_eq in Hr. cbv beta iota in Hr.
  apply bind_inv in Hr as ([] & w1 & H1 & [= <-]).
  eapply (conf_each True) in H1 as [Hw1 Hk1]; [| |apply peers_list_nodup|intros ? ?; apply elem_of_peers_list|done].
  2: { intros key p v v' Hv Hp Hr. destruct (conf_removePeerLocked _ _ _ _ Hv Hp Hr) as [? ?]. auto. }
  assert (E : w_keyMap w1 = ∅).
  { apply map_empty. intros k. apply eq_None_not_Some. intros [p Hp]. destruct (Hk1 _ _ Hp) as [Hp' Hn].
    apply Hn; [done|]. apply elem_of_peers_list in Hp'. by apply (list_elem_of_fmap_2 fst _ _ Hp'). }
  split; [|done]. revert Hw1. apply conf_same. by split; cbn; rewrite ?E.
Qed.

Lemma conf_SetPrivateKey sk : pres keeps_conf (SetPrivateKey sk).
Proof.
  intros w [] w' Hr Hw. unfold SetPrivateKey in Hr. rewrite bind_eq, get_eq in Hr. cbv beta iota zeta in Hr.
  destruct (bytes_eqb _ _); [by injection Hr as <-|]. apply bind_inv in Hr as ([] & w1 & H1 & Hr).
  eapply (conf_each False) in H1 as [Hw1 _]; [| |apply peers_list_nodup|intros ? ?; apply elem_of_peers_list|done].
  2: { clear Hr. intros key p v v' Hv Hp Hr. cbv beta iota in Hr. apply bind_inv in Hr as (h & v1 & Hh & Hr).
       apply (fr_handshake same_config) in Hh. pose proof (conf_same _ _ Hh Hv) as Hv1. destruct Hh as [_ Ek _ _ _].
       rewrite <- Ek in Hp |- *. destruct (bytes_eqb _ _); [|injection Hr as <-; auto].
       destruct (conf_removePeerLocked _ _ _ _ Hv1 Hp Hr) as [? ?]. auto. }
  match type of Hr with ?m _ = _ => assert (Hp : pres keeps_conf m) by pres end. by apply (Hp _ _ _ Hr).
Qed.

Lemma conf_NewPeer pk w r w' :
  conf_ok w -> NewPeer pk w = Some (r, w') ->
  conf_ok w' /\ forall p, r = Some p -> w_keyMap w' !! pk = Some p.
Proof.
  intros Hw Hr. unfold NewPeer, isClosed in Hr. rewrite bind_eq, gets_eq in Hr. cbv beta iota in Hr.
  destruct (bool_decide _) in Hr; [by injection Hr as <- <-|]. rewrite bind_eq, get_eq in Hr. cbv beta iota zeta in Hr.
  case_bool_decide as Hs; [by injection Hr as <- <-|].
  destruct (w_keyMap w !! pk) as [q|] eqn:Eq; [by injection Hr as <- <-|]. injection Hr as <- <-.
  destruct Hw as [Hf Hk Hsz (m & Hm & Hl)]. split; [|intros p [= <-]; cbn; by rewrite lookup_insert_eq].
  assert (Hnew : w_peers w !! w_fresh w = None).
  { apply eq_None_not_Some. intros Hp%Hf. lia. }
  split; cbn [w_peers w_keyMap w_fresh w_allowedips set].
  - intros p. rewrite lookup_insert_is_Some'. intros [<-|Hp%Hf]; lia.
  - intros key p [[<- <-]|[Hne Hp]]%lookup_insert_Some; [by rewrite lookup_insert_eq|].
    rewrite lookup_insert_ne; [by apply Hk|]. intros <-. specialize (Hk _ _ Hp). by rewrite Hnew in Hk.
  - rewrite map_size_insert_None by done. lia.
  - exists m. split; [done|]. intros v q p Hp. destruct (Hl v q p Hp) as [key Hkey]. exists key. cbn.
    rewrite lookup_insert_ne; [done|]. congruence.
Qed.

(** The peer the lines configure is listed, unless it is a dummy. *)
Definition sp_ok (sp : ipcSetPeer) (w : World) : Prop :=
  sip_dummy sp = false -> forall p, sip_Peer sp = Some p -> exists pk, w_keyMap w !! pk = Some p.

Lemma sp_ok_same sp w w' : same_config w w' -> sp_ok sp w -> sp_ok sp w'.
Proof. intros [_ E _ _ _] H Hd p Hp. rewrite E. by apply H. Qed.

(** A dummy is not listed anywhere. *)
Lemma conf_new_dummy w p w' :
  conf_ok w -> new_dummy w = Some (p, w') -> conf_ok w' /\ w_keyMap w' = w_keyMap w.
Proof.
  intros [Hf Hk Hsz (m & Hm & Hl)] [= <- <-]. split; [|done].
  assert (Hnew : w_peers w !! w_fresh w = None).
  { apply eq_None_not_Some. intros Hp%Hf. lia. }
  split; cbn [w_peers w_keyMap w_fresh w_allowedips set]; [| |done|by exists m].
  - intros p. rewrite lookup_insert_is_Some'. intros [<-|Hp%Hf]; lia.
  - intros key p Hp. rewrite lookup_insert_ne; [by apply Hk|]. intros <-. specialize (Hk _ _ Hp). by rewrite Hnew in Hk.
Qed.

(** What the line handlers promise. *)
Definition line_ok {A} (sp_of : A -> ipcSetPeer) (sp : ipcSetPeer) (m : M A) : Prop :=
  forall w a w', conf_ok w -> sp_ok sp w -> m w = Some (a, w') -> conf_ok w' /\ sp_ok (sp_of a) w'.

Lemma handlePublicKeyLine_ok sp value : line_ok fst sp (handlePublicKeyLine sp value).
Proof.
  intros w [sp' err] w' Hw Hsp Hr. unfold handlePublicKeyLine in Hr. cbn [fst].
  destruct (PublicKey_FromHex _ _) as [pk ok]. destruct ok; cbn [negb] in Hr; [|injection Hr as <- <- <-; done].
  rewrite bind_eq, get_eq in Hr. cbv beta iota zeta in Hr. destruct (Equals _ _).
  - apply bind_inv in Hr as (sp1 & w1 & H1 & Hr). apply bind_inv in H1 as (p & w2 & H2 & [= <- <-]).
    apply conf_new_dummy in H2 as [? _]; [|done]. injection Hr as <- <- <-. by split.
  - apply bind_inv in Hr as (sp1 & w1 & H1 & Hr). rewrite bind_eq in H1. unfold LookupPeer in H1. rewrite gets_eq in H1.
    injection H1 as <- <-. cbn [sip_Peer set] in Hr. destruct (w_keyMap w !! pk) as [p|] eqn:Ep; cbn in Hr.
    + injection Hr as <- <- <-. split; [done|]. intros _ q [= <-]. by exists pk.
    + apply bind_inv in Hr as (p & w2 & H2 & [= <- <- <-]). destruct (conf_NewPeer _ _ _ _ Hw H2) as [? Hp].
      split; [done|]. intros _ q Hq. exists pk. by apply Hp.
Qed.

Lemma line_bind {A B} (f : B -> ipcSetPeer) sp (m : M A) (k : A -> M B) :
  pres same_config m -> (forall a, line_ok f sp (k a)) -> line_ok f sp (m ≫= k).
Proof.
  intros Hm Hk w b w' Hw Hsp (a & w1 & H1 & Hr)%bind_inv. apply Hm in H1.
  eapply Hk; [by eapply conf_same|by eapply sp_ok_same|done].
Qed.

Lemma line_ret sp sp' err :
  sip_Peer sp' = sip_Peer sp -> sip_dummy sp' = sip_dummy sp -> line_ok fst sp (mret (sp', err : option ipc_code)).
Proof.
  intros E1 E2 w a w' Hw Hsp [= <- <-]. split; [done|]. intros Hd p Hp. cbn [fst] in *.
  apply Hsp; congruence.
Qed.

(** The peer may go away: the rest of the lines is for a dummy. *)
Lemma line_make_dummy {A} sp (m : M A) :
  pres keeps_conf m -> line_ok fst sp (m;; sp ← make_dummy sp; mret (sp, None : option ipc_code)).
Proof.
  intros Hm w a w' Hw _ (x & w1 & H1 & Hr)%bind_inv. apply bind_inv in Hr as (sp1 & w2 & H2 & [= <- <-]).
  apply bind_inv in H2 as (p & w3 & H3 & [= <- <-]). apply conf_new_dummy in H3 as [? _]; [|by eapply Hm].
  split; [done|]. intros [=].
Qed.

(** A call on the table that adds routes of listed peers only. *)
Lemma conf_exec_call w c t :
  conf_ok w -> valid_call c -> exec_call (w_allowedips w) c = Some t ->
  (match c with CInsert _ p => exists pk, w_keyMap w !! pk = Some p | _ => True end) ->
  conf_ok (w <| w_allowedips := t |>).
Proof.
  intros Hw Hc Ht Hp. destruct (co_routes _ Hw) as (m & Hm & Hl).
  destruct (exec_call_holds _ _ c Hm Hc) as (t' & Ht' & Hm'). rewrite Ht in Ht'. injection Ht' as <-.
  eapply conf_set_routes; [done|exact Hm'|]. intros v q x.
  destruct c as [pfx y|pfx y|y]; cbn [spec_call]; [|destruct (decide _); [|apply Hl]|]; unfold update.
  - case_decide; [|apply Hl]. intros [[<- <-]|[_ Hx]]%lookup_insert_Some; [done|by eapply Hl].
  - case_decide; [|apply Hl]. intros [_ Hx]%lookup_delete_Some. by eapply Hl.
  - intros [Hx _]%map_lookup_filter_Some. by eapply Hl.
Qed.

Lemma sp_ok_routes sp w t : sp_ok sp w -> sp_ok sp (w <| w_allowedips := t |>).
Proof. done. Qed.

Lemma update_allowed_ip_ok sp p value :
  sip_Peer sp = Some p -> line_ok fst sp (err ← update_allowed_ip sp p value; mret (sp, err)).
Proof.
  intros Hp w a w' Hw Hsp (err & w1 & H1 & [= <- <-])%bind_inv. cbn [fst]. unfold update_allowed_ip in H1.
  destruct (match value with 45 :: _ => _ | _ => _ end) as [add v] in H1.
  destruct (ParsePrefix v) as [pfx|] eqn:Ev; [|by injection H1 as <- <-].
  apply ParsePrefix_valid in Ev. destruct (sip_dummy sp) eqn:Ed; [by injection H1 as <- <-|].
  rewrite bind_eq, get_eq in H1. cbv beta iota in H1. deref_step H1 t Et. injection H1 as <- <-.
  split; [|done]. destruct add.
  - apply (conf_exec_call _ (CInsert pfx p)); [done..|]. by apply Hsp.
  - by apply (conf_exec_call _ (CRemove pfx p)).
Qed.

Lemma line_deref {A B} (f : B -> ipcSetPeer) sp (x : A) (k : A -> M B) :
  line_ok f sp (k x) -> line_ok f sp (deref (Some x) ≫= k).
Proof. intros Hk w b w' Hw Hsp Hr. by eapply Hk. Qed.

Lemma line_RemoveByPeer sp p :
  line_ok fst sp (w ← get; t ← deref (RemoveByPeer (w_allowedips w) p);
    modify (fun w => w <| w_allowedips := t |>);; mret (sp, None : option ipc_code)).
Proof.
  intros w a w' Hw Hsp Hr. rewrite bind_eq, get_eq in Hr. cbv beta iota in Hr. deref_step Hr t Et.
  injection Hr as <- <-. split; [|done]. by apply (conf_exec_call _ (CRemoveByPeer p)).
Qed.

#[local] Hint Resolve conf_RemovePeer : pres.

Ltac line :=
  repeat first
    [ by apply line_ret
    | match goal with
      | |- line_ok _ _ (if ?b then _ else _) => destruct b eqn:?
      | |- line_ok _ _ (match ?x with _ => _ end) => destruct x eqn:?
      end
    | apply line_bind; [pres|intros ?] ].

Lemma handlePeerLine_ok sp key value : line_ok fst sp (handlePeerLine sp key value).
Proof.
  unfold handlePeerLine. destruct (sip_Peer sp) as [p|] eqn:Ep; [|by intros w a w'].
  apply line_deref. destruct (bytes_eqb key _).
  { destruct (is_true_value value); [|by apply line_ret]. destruct (_ && _); [|by apply line_ret].
    apply line_bind; [pres|intros h]. apply line_make_dummy. pres. }
  destruct (bytes_eqb key _).
  { destruct (is_true_value value); [|by apply line_ret]. apply line_make_dummy. pres. }
  do 3 (destruct (bytes_eqb key _); [line|]). destruct (bytes_eqb key _).
  { destruct (is_true_value value); [|by apply line_ret]. destruct (sip_dummy sp); [by apply line_ret|].
    apply line_RemoveByPeer. }
  destruct (bytes_eqb key _); [by apply update_allowed_ip_ok|]. line.
Qed.

Lemma conf_handleDeviceLine key value : pres keeps_conf (handleDeviceLine key value).
Proof.
  assert (Hall : pres keeps_conf RemoveAllPeers).
  { intros w [] w' Hr Hw. by eapply conf_RemoveAllPeers. }
  pose proof conf_SetPrivateKey. unfold handleDeviceLine. pres.
Qed.

Lemma set_lines_ok lines ok sp b w err w' :
  (b = true -> sip_Peer sp = None) ->
  conf_ok w -> sp_ok sp w -> set_lines lines ok sp b w = Some (err, w') -> conf_ok w'.
Proof.
  revert sp b w. induction lines as [|[|x line] lines IH]; intros sp b w Hb Hw Hsp; cbn [set_lines].
  1, 2: intros ([] & w1 & H1 & [= <- <-])%bind_inv; apply (df_handlePostConfig same_config) in H1; by eapply conf_same.
  destruct (cut _ _) as [[key value]|]; [|by intros [= <- <-]]. destruct (bytes_eqb key _).
  - intros ([] & w1 & H1 & Hr)%bind_inv. apply (df_handlePostConfig same_config) in H1.
    apply bind_inv in Hr as ([sp1 e] & w2 & H2 & Hr).
    apply handlePublicKeyLine_ok in H2 as [? ?]; [|by eapply conf_same|by eapply sp_ok_same].
    destruct e; [by injection Hr as <- <-|]. by eapply IH; [..|exact Hr].
  - intros ([sp1 e] & w1 & H1 & Hr)%bind_inv. assert (Hw1 : conf_ok w1 /\ sp_ok sp1 w1 /\ (b = true -> sip_Peer sp1 = None)).
    { destruct b.
      - apply bind_inv in H1 as (e1 & w2 & H2 & [= <- <- <-]). apply conf_handleDeviceLine in H2.
        split; [by apply H2|]. split; [|done]. intros _ p Hp. by rewrite Hb in Hp.
      - apply handlePeerLine_ok in H1 as [? ?]; [|done..]. done. }
    destruct Hw1 as (? & ? & ?). destruct e; [by injection Hr as <- <-|]. by eapply IH; [..|exact Hr].
Qed.

Lemma conf_set_state s : pres keeps_conf (set_state s).
Proof. apply pres_modify. intros w [Hf Hk Hs Hr]. by split. Qed.

Lemma conf_Close : pres keeps_conf Close.
Proof.
  assert (Hall : pres keeps_conf RemoveAllPeers).
  { intros w [] w' Hr Hw. by eapply conf_RemoveAllPeers. }
  pose proof conf_set_state. unfold Close, isClosed. pres.
Qed.

#[local] Instance conf_system_frame : SystemFrame keeps_conf.
Proof.
  split; [apply _| |apply conf_Close|apply conf_RemovePeer|].
  - pose proof conf_set_state. intros s. unfold changeState. pres.
  - intros text w err w' Hr Hw. unfold IpcSetOperation in Hr. destruct (scan_lines _ _) as [lines ok].
    eapply set_lines_ok; [|exact Hw| |exact Hr]; [done|]. intros _ p [=].
Qed.

Lemma reachable_conf w : reachable w -> conf_ok w.
Proof.
  intros (mtu & out & w0 & [= <-] & Hr). apply (sf_rtc keeps_conf _ _ Hr). split; cbn.
  - intros p [pe Hp]. by rewrite lookup_empty in Hp.
  - intros pk p Hp. by rewrite lookup_empty in Hp.
  - apply Nat.le_0_l.
  - exists no_prefixes. split; [apply empty_holds|]. intros v q p Hp. unfold no_prefixes in Hp. by rewrite lookup_empty in Hp.
Qed.

(** ** Properties *)

(** C11: the peers of a device. In every reachable state there are at most
    [MaxPeers] peers, each is listed under its own public key, and no peer is
    listed twice. *)
Theorem peers_listed w :
  reachable w ->
  (size (w_keyMap w) <= MaxPeers)%nat /\
  (forall pk p, w_keyMap w !! pk = Some p ->
     exists pe, w_peers w !! p = Some pe /\ hs_remoteStatic (p_handshake pe) = pk) /\
  (forall pk pk' p, w_keyMap w !! pk = Some p -> w_keyMap w !! pk' = Some p -> pk = pk').
Proof.
  intros Hw%reachable_conf. split; [apply Hw|]. split; [|intros pk pk' p; by apply co_inj].
  intros pk p Hp%(co_keys _ Hw). apply fmap_Some in Hp as (pe & ? & ->). by exists pe.
Qed.

(** What [EntriesForPeer] lists for each peer, and so what a get operation
    prints, are the prefixes that [m] maps to it, each once and without host
    bits. *)
Definition lists (t : AllowedIPs) (m : prefixes) : Prop :=
  forall p, exists pl, EntriesForPeer t p (fun _ => true) = Some pl /\ NoDup pl /\
    forall pfx, pfx ∈ pl <-> canonical_prefix pfx /\ m (prefix_family pfx) !! prefix_key pfx = Some p.

Lemma holds_lists t m : holds t m -> lists t m.
Proof.
  intros Hm p. destruct (EntriesForPeer_holds _ _ p Hm) as (pl & Hn & He & Hin). exists pl.
  split; [|done]. rewrite He. f_equal. clear. induction pl as [|x pl IH]; [done|]. cbn [upto]. by rewrite IH.
Qed.

(** C9: the routes of a device. In every reachable state the routing table is a
    longest-prefix map from the prefixes it lists to peers: looking up any
    address succeeds and returns the peer of the longest of the listed prefixes
    that matches. All prefixes lead to peers that are listed, so a removed peer
    gets no packets. *)
Theorem routes_longest_prefix w :
  reachable w ->
  exists m : prefixes,
    lists (w_allowedips w) m /\
    (forall ip, addr_len (length ip) -> is_bytes ip ->
       Lookup (w_allowedips w) ip = Some (lpm (m (Is6 ip)) (bits_of ip))) /\
    (forall v6 q p, m v6 !! q = Some p -> exists pk, w_keyMap w !! pk = Some p).
Proof.
  intros Hw%reachable_conf. destruct (co_routes _ Hw) as (m & Hm & Hl). exists m.
  split; [by apply holds_lists|]. split; [|exact Hl]. intros ip. by apply Lookup_holds.
Qed.

(** C10: a line of a configuration that adds or removes a prefix. In every
    reachable state, an [allowed_ip] line of a peer whose value is a prefix, with
    a minus sign before it for a removal, succeeds, and of the prefixes the
    device lists it adds this one to the peer, taking it from any other peer, or
    removes it if the peer has it. Nothing else changes. *)
Theorem allowed_ip_line w sp p value pfx (remove : bool) :
  reachable w -> sip_Peer sp = Some p -> sip_dummy sp = false -> ParsePrefix value = Some pfx ->
  (remove = true \/ head value <> Some 45) ->
  exists m t,
    lists (w_allowedips w) m /\
    handlePeerLine sp (lit "allowed_ip") (if remove then 45 :: value else value) w =
      Some ((sp, None), w <| w_allowedips := t |>) /\
    lists t (spec_call m (if remove then CRemove pfx p else CInsert pfx p)).
Proof.
  intros Hw%reachable_conf Hp Hd Hv Hsign. destruct (co_routes _ Hw) as (m & Hm & _).
  pose proof (ParsePrefix_valid _ _ Hv) as Hpfx.
  destruct (exec_call_holds _ _ (if remove then CRemove pfx p else CInsert pfx p) Hm) as (t & Ht & Hm');
    [by destruct remove|].
  exists m, t. split; [by apply holds_lists|]. split; [|by apply holds_lists].
  unfold handlePeerLine. rewrite Hp, bind_eq, deref_eq. cbv beta iota.
  repeat match goal with |- context [bytes_eqb ?a ?b] => let c := eval vm_compute in (bytes_eqb a b) in
    change (bytes_eqb a b) with c; cbv iota end.
  rewrite bind_eq. unfold update_allowed_ip.
  assert (E : (match (if remove then 45 :: value else value) with 45 :: v => (false, v)
    | _ => (true, if remove then 45 :: value else value) end) = (negb remove, value)).
  { destruct remove; [done|]. destruct Hsign as [|Hs]; [done|]. clear - Hs. destruct value as [|x v]; [done|].
    destruct (decide (x = 45)) as [->|Hne]; [done|]. cbn. clear Hs.
    repeat match goal with |- context [match ?y with _ => _ end] => destruct y; try done end. }
  rewrite E, Hv, Hd. rewrite bind_eq, get_eq. cbv beta iota.
  replace (if negb remove then _ else _) with (Some t) by (rewrite <- Ht; by destruct remove).
  by rewrite bind_eq, deref_eq.
Qed.

End conf.
