(* ===== verification/Delivery.v ===== *)
(** * What reaches the TUN device

    Over every run of a device, each buffer written to the TUN device is the
    decryption, under the receiving key of some session, of a message with a
    counter that was not delivered before; and the source address of each
    packet is routed to the peer the packet came from. *)

From stdpp Require Import base numbers list gmap relations.
From S2P Require Import Tai64n Replay Ratelimiter AllowedIPs.
From S2P Require Import Prelude Setters GoStrings Netip Env Crypto Messages Cookie NoiseTypes DeviceState Noise Timers PeerOps Send Receive Device Uapi System Frame DeviceFrame.

Open Scope Z_scope.

(** The buffers written to the TUN device, oldest first. *)
Definition tun_bufs (evs : list Event) : list (list Z) :=
  concat (map (fun e => match e with EvWriteTun bufs => bufs | _ => [] end) evs).

Section delivery.
Context {CR : Crypto} {CL : CryptoLaws} {EP : Endpoints}.

(** The datagrams that have arrived. *)
Variable ds : list (list Z).

(** Datagram [d] is a transport message with this counter and content. *)
Definition transport_message (d : list Z) (c : Z) (content : list Z) : Prop :=
  le_get 4 d = Some MessageTransportType /\
  (exists field, slice d (Z.of_nat MessageTransportOffsetCounter) (Z.of_nat MessageTransportOffsetContent) =
    Some field /\ le_get 8 field = Some c) /\
  slice d (Z.of_nat MessageTransportOffsetContent) (zlen d) = Some content.

(** Datagram [d] has arrived with counter [c], and its content opens to [plain]
    under the receiving key of [k]. *)
Definition authentic (mem : gmap KeypairPtr Keypair) (k : KeypairPtr) (c : Z) (d plain : list Z) : Prop :=
  d ∈ ds /\ exists kp content, mem !! k = Some kp /\ transport_message d c content /\
    Open (kp_receive kp) (nonce_bytes c) content [] = Some plain.

(** An element holds a datagram that has arrived, and once decrypted its text. *)
Definition elem_raw (e : QueueInboundElement) : Prop :=
  ie_packet e = Some (ie_buffer e) /\ is_bytes (ie_buffer e) /\ ie_buffer e ∈ ds /\
  le_get 4 (ie_buffer e) = Some MessageTransportType.

Definition elem_ok (mem : gmap KeypairPtr Keypair) (e : QueueInboundElement) : Prop :=
  is_u64 (ie_counter e) /\
  forall plain, ie_packet e = Some plain ->
    exists k d rest, ie_keypair e = Some k /\ authentic mem k (ie_counter e) d plain /\
      ie_buffer e = take MessageTransportOffsetContent d ++ plain ++ rest /\
      (MessageTransportOffsetContent <= length d)%nat.

Definition container_ok (mem : gmap KeypairPtr Keypair) (ic : InContainer) : Prop :=
  if ic_locked ic then Forall elem_raw (ic_elems ic) else Forall (elem_ok mem) (ic_elems ic).

(** A buffer carries the header of a datagram that has arrived and the first
    bytes of its text. *)
Definition delivered (mem : gmap KeypairPtr Keypair) (buf : list Z) (k : KeypairPtr) (c : Z) : Prop :=
  exists d plain n, authentic mem k c d plain /\
    buf = take MessageTransportOffsetContent d ++ take n plain.

(** The log of deliveries: each buffer with its session and counter, all
    different and all remembered by the replay filters. *)
Record log_ok (mem : gmap KeypairPtr Keypair) (bufs : list (list Z))
    (log : list (list Z * (KeypairPtr * Z))) (seen : gmap KeypairPtr spec_filter) : Prop := {
  log_bufs : log.*1 ≡ₚ bufs;
  log_nodup : NoDup log.*2;
  log_auth : Forall (fun '(buf, (k, c)) => delivered mem buf k c) log;
  log_seen : forall k c, (k, c) ∈ log.*2 -> exists s, seen !! k = Some s /\ c ∈ spec_seen s;
  log_filters : forall k kp, mem !! k = Some kp ->
    exists s, seen !! k = Some s /\ represents (kp_replayFilter kp) s
}.

(** The containers that wait for decryption are different and still locked. *)
Record queue_ok (fresh : nat) (ins : gmap ContainerPtr InContainer) (q : list ContainerPtr) : Prop := {
  queue_nodup : NoDup q;
  queue_fresh : forall c, c ∈ q -> (c < fresh)%nat;
  queue_locked : forall c ic, c ∈ q -> ins !! c = Some ic -> ic_locked ic = true
}.

(** The invariant, with the buffers [pending] about to be written. *)
Record good (pending : list (list Z)) (w : World) : Prop := {
  good_fresh : forall k, is_Some (w_keypairs w !! k) -> (k < w_fresh w)%nat;
  good_queue : queue_ok (w_fresh w) (w_ins w) (w_decryption w);
  good_ins : map_Forall (fun _ ic => container_ok (w_keypairs w) ic) (w_ins w);
  good_log : exists log seen, log_ok (w_keypairs w) (tun_bufs (w_out w) ++ pending) log seen
}.

(** Memory grows: key pairs keep their receiving keys. *)
Definition mem_grows (mem mem' : gmap KeypairPtr Keypair) : Prop :=
  forall k kp, mem !! k = Some kp ->
    exists kp', mem' !! k = Some kp' /\ kp_receive kp' = kp_receive kp.

Lemma mem_grows_refl mem : mem_grows mem mem.
Proof. intros k kp Hk. by exists kp. Qed.

Lemma mem_grows_trans a b c : mem_grows a b -> mem_grows b c -> mem_grows a c.
Proof.
  intros H1 H2 k kp Hk. destruct (H1 _ _ Hk) as (kp1 & Hk1 & E1). destruct (H2 _ _ Hk1) as (kp2 & Hk2 & E2).
  exists kp2. split; [done|congruence].
Qed.

(** A step keeps the invariant, whatever is pending, and the key pairs. *)
Definition keeps_good (w w' : World) : Prop :=
  forall pending, good pending w -> good pending w' /\ mem_grows (w_keypairs w) (w_keypairs w').

#[local] Instance keeps_good_pre : PreOrder keeps_good.
Proof.
  split.
  - intros w pending Hg. split; [done|apply mem_grows_refl].
  - intros a b c H1 H2 pending Hg. destruct (H1 _ Hg) as [Hg1 ?]. destruct (H2 _ Hg1) as [? ?].
    split; [done|by eapply mem_grows_trans].
Qed.

Lemma authentic_grows mem mem' k c d p : mem_grows mem mem' -> authentic mem k c d p -> authentic mem' k c d p.
Proof.
  intros Hg (Hd & kp & ct & Hk & Ho). destruct (Hg _ _ Hk) as (kp' & Hk' & E). split; [done|].
  exists kp', ct. by rewrite E.
Qed.

Lemma elem_ok_grows mem mem' e : mem_grows mem mem' -> elem_ok mem e -> elem_ok mem' e.
Proof.
  intros Hg [Hc He]. split; [done|]. intros plain Hp. destruct (He _ Hp) as (k & d & rest & ? & ? & ?).
  exists k, d, rest. split; [done|]. split; [by eapply authentic_grows|done].
Qed.

Lemma container_ok_grows mem mem' ic : mem_grows mem mem' -> container_ok mem ic -> container_ok mem' ic.
Proof.
  intros Hg. unfold container_ok. destruct (ic_locked ic); [done|]. intros Ho.
  eapply Forall_impl; [exact Ho|]. intros e. by apply elem_ok_grows.
Qed.

Lemma delivered_grows mem mem' log :
  mem_grows mem mem' -> Forall (fun '(buf, (k, c)) => delivered mem buf k c) log ->
  Forall (fun '(buf, (k, c)) => delivered mem' buf k c) log.
Proof.
  intros Hg Hlog. eapply Forall_impl; [exact Hlog|]. intros [buf [k c]] (d & plain & n & Ha & ?).
  exists d, plain, n. split; [by eapply authentic_grows|done].
Qed.

(** ** Primitive steps *)

(** Nothing the invariant reads has changed. *)
Lemma good_same w w' :
  w_keypairs w' = w_keypairs w -> (w_fresh w <= w_fresh w')%nat -> w_ins w' = w_ins w ->
  w_decryption w' = w_decryption w -> tun_bufs (w_out w') = tun_bufs (w_out w) -> keeps_good w w'.
Proof.
  intros Ek Ef Ei Ed Eo pending [Hf [Hn Hq Hk] Hi Hl]. rewrite Ek. split; [|apply mem_grows_refl].
  split; rewrite ?Ek, ?Ei, ?Ed, ?Eo; try done.
  - intros k Hk1. specialize (Hf k Hk1). lia.
  - split; [done| |done]. intros c Hc. specialize (Hq c Hc). lia.
Qed.

Lemma good_modify f :
  (forall w, w_keypairs (f w) = w_keypairs w /\ w_fresh (f w) = w_fresh w /\ w_ins (f w) = w_ins w /\
     w_decryption (f w) = w_decryption w /\ w_out (f w) = w_out w) -> pres keeps_good (modify f).
Proof.
  intros Hf. apply pres_modify. intros w. destruct (Hf w) as (? & E & ? & ? & Eo).
  apply good_same; rewrite ?E, ?Eo; done.
Qed.

Lemma tun_bufs_app a b : tun_bufs (a ++ b) = tun_bufs a ++ tun_bufs b.
Proof. unfold tun_bufs. by rewrite map_app, concat_app. Qed.

Lemma good_emit ev : not_write ev -> pres keeps_good (emit ev).
Proof.
  intros Hev. apply pres_modify. intros w. apply good_same; try done. cbn [w_out set].
  rewrite tun_bufs_app. destruct ev; try done; cbn; apply app_nil_r.
Qed.

(** A changed key pair that keeps its receiving key and its filter. *)
Lemma good_set_keypair k f :
  (forall kp, kp_receive (f kp) = kp_receive kp /\ kp_replayFilter (f kp) = kp_replayFilter kp) ->
  pres keeps_good (set_keypair k f).
Proof.
  intros Hf w a w'. unfold set_keypair. destruct (w_keypairs w !! k) as [kp|] eqn:Ek; [|done].
  intros [= <- <-] pending [Hfr Hq Hi (log & seen & [Hb Hn Ha Hs Hft])].
  assert (Hg : mem_grows (w_keypairs w) (<[k := f kp]> (w_keypairs w))).
  { intros k1 kp1 Hk1. destruct (decide (k = k1)) as [<-|Hne].
    - exists (f kp). rewrite lookup_insert_eq. split; [done|]. rewrite (proj1 (Hf kp)). congruence.
    - exists kp1. by rewrite lookup_insert_ne. }
  split; [|exact Hg]. split; cbn [w_keypairs w_fresh w_ins w_out set].
  - intros k1. rewrite lookup_insert_is_Some'. intros [<-|?]; apply Hfr; eauto.
  - done.
  - eapply map_Forall_impl; [exact Hi|]. intros c ic. by apply container_ok_grows.
  - exists log, seen. split; [done|done|by eapply delivered_grows|done|].
    intros k1 kp1 Hk1. destruct (decide (k = k1)) as [<-|Hne].
    + rewrite lookup_insert_eq in Hk1. injection Hk1 as <-. rewrite (proj2 (Hf kp)). by apply Hft.
    + rewrite lookup_insert_ne in Hk1 by done. by apply Hft.
Qed.

(** A new key pair, with an empty filter. *)
Lemma good_alloc_keypair s r i t li ri :
  pres keeps_good (alloc_keypair (mkKeypair 0 s r (Reset zero_filter) i t li ri)).
Proof.
  intros w a w' [= <- <-] pending [Hfr Hq Hi (log & seen & [Hb Hn Ha Hs Hft])].
  set (k := w_fresh w) in *. set (kp := mkKeypair _ _ _ _ _ _ _ _).
  assert (Hnew : w_keypairs w !! k = None).
  { apply eq_None_not_Some. intros Hk%Hfr. lia. }
  assert (Hg : mem_grows (w_keypairs w) (<[k := kp]> (w_keypairs w))).
  { intros k1 kp1 Hk1. exists kp1. rewrite lookup_insert_ne by congruence. done. }
  split; [|exact Hg]. split; cbn [w_keypairs w_fresh w_ins w_out set].
  - intros k1. rewrite lookup_insert_is_Some'. intros [<-|?%Hfr]; lia.
  - destruct Hq as [? Hqf ?]. split; [done| |done]. intros c Hc. specialize (Hqf c Hc). cbn. lia.
  - eapply map_Forall_impl; [exact Hi|]. intros c ic. by apply container_ok_grows.
  - exists log, (<[k := mkSpec 0 ∅]> seen). split; [done|done|by eapply delivered_grows| |].
    + intros k1 c Hin. destruct (decide (k = k1)) as [<-|Hne]; [|rewrite lookup_insert_ne by done; by apply Hs].
      exfalso. apply list_elem_of_fmap in Hin as ([buf [k1 c1]] & [= -> ->] & Hin).
      rewrite Forall_forall in Ha. destruct (Ha _ Hin) as (? & ? & ? & (_ & kp1 & ? & Hk1 & _) & _). congruence.
    + intros k1 kp1 Hk1. destruct (decide (k = k1)) as [<-|Hne].
      * rewrite lookup_insert_eq in Hk1. exists (mkSpec 0 ∅). rewrite lookup_insert_eq. split; [done|].
        replace (kp_replayFilter kp1) with (Reset zero_filter) by (injection Hk1 as <-; done).
        apply reset_represents; [done|]. apply Forall_replicate. unfold_words. lia.
      * rewrite lookup_insert_ne in Hk1 by done. rewrite lookup_insert_ne by done. by apply Hft.
Qed.

Lemma good_env {A} (m : ST Env A) : pres keeps_good (env m).
Proof.
  intros w a w'. unfold env. destruct (m _) as [[x e]|]; [|done]. intros [= <- <-]. by apply good_same.
Qed.

Lemma good_set_peer p f : pres keeps_good (set_peer p f).
Proof.
  intros w a w'. unfold set_peer. destruct (w_peers w !! p); [|done]. intros [= <- <-]. by apply good_same.
Qed.

Lemma good_bind_Send b ep : pres keeps_good (bind_Send b ep).
Proof.
  intros w a w' [= <- <-]. apply good_same; try done. cbn [w_out set]. rewrite tun_bufs_app. cbn. apply app_nil_r.
Qed.

#[local] Instance good_frame : Frame keeps_good.
Proof.
  split; intros; try (by apply good_modify).
  - apply keeps_good_pre.
  - apply good_env.
  - intros w a w' [= <- <-]. by apply good_same.
  - apply good_set_peer.
  - apply assign_nonces_pres; [apply _|]. intros n. by apply good_set_keypair.
  - by apply good_set_keypair.
  - apply good_alloc_keypair.
  - apply good_bind_Send.
  - by apply good_emit.
  - intros w a w' [= <- <-]. apply good_same; try done. cbn. lia.
Qed.

(** ** Decryption *)

Lemma copy_at_len b i src : length (copy_at b i src) = length b.
Proof. unfold copy_at. rewrite length_app, length_copy, <- length_app, take_drop. done. Qed.

Lemma copy_at_inside b i src :
  (i + length src <= length b)%nat -> copy_at b i src = take i b ++ src ++ drop (i + length src) b.
Proof.
  intros Hl. unfold copy_at, copy. rewrite length_drop, (take_ge src) by lia. by rewrite drop_drop.
Qed.

Lemma is_u64_le_get8 b v : is_bytes b -> le_get 8 b = Some v -> is_u64 v.
Proof.
  intros Hb. unfold le_get. case_decide; [|done]. intros [= <-].
  pose proof (le_uint_bound (take 8 b) (Forall_take _ _ _ Hb)) as Hv.
  unfold zlen in Hv. rewrite length_take_le in Hv by done. exact Hv.
Qed.

Lemma slice_len (b : list Z) lo hi r :
  slice b lo hi = Some r -> Z.of_nat (length r) = hi - lo /\ lo <= hi <= Z.of_nat (length b).
Proof.
  unfold slice. case_decide; [|done]. intros [= <-]. rewrite length_take, length_drop. lia.
Qed.

Lemma decrypt_elem_ok e w e' w' :
  decrypt_elem e w = Some (e', w') -> elem_raw e -> w' = w /\ elem_ok (w_keypairs w) e'.
Proof.
  unfold decrypt_elem. intros Hr (Hp & Hb & Hd & Hty).
  deref_step Hr packet Ep. rewrite Hp in Ep. injection Ep as <-.
  deref_step Hr field Ef. deref_step Hr content Ec. deref_step Hr counter En. deref_step Hr k Ek.
  apply bind_inv in Hr as (kp & ? & Hkp & Hr). apply deref_inv in Hkp as [Hkp ->].
  assert (Hbf : is_bytes field).
  { unfold slice in Ef. destruct (decide _); [|done]. injection Ef as <-. by apply Forall_take, Forall_drop. }
  pose proof (is_u64_le_get8 _ _ Hbf En) as Hc.
  destruct (Open _ _ _ _) as [plain|] eqn:Eo; injection Hr as <- <-; cycle 1.
  { split; [done|]. split; [exact Hc|]. intros ? [=]. }
  pose proof (Open_len _ _ _ _ _ Eo) as Hpl. pose proof (slice_len _ _ _ _ Ec) as [Hcl Hpk].
  unfold TagSize, zlen, MessageTransportOffsetContent in *.
  split; [done|]. split; [exact Hc|]. intros pl [= <-].
  exists k, (ie_buffer e), (drop (16 + length plain) (ie_buffer e)).
  split; [done|]. split; [split; [done|]; exists kp, content; split; [done|]; split; [by split_and!; eauto|done]|].
  unfold MessageTransportOffsetContent. split; [|lia]. apply copy_at_inside. lia.
Qed.

Lemma map_decrypt_ok l w l' w' :
  map_elems decrypt_elem l w = Some (l', w') -> Forall elem_raw l ->
  w' = w /\ Forall (elem_ok (w_keypairs w)) l'.
Proof.
  revert l' w'. induction l as [|e l IH]; intros l' w'; cbn [map_elems].
  { intros [= <- <-] _. by split. }
  intros (e' & w1 & H1 & Hr)%bind_inv Hf. apply bind_inv in Hr as (l1 & w2 & H2 & [= <- <-]).
  inversion Hf; subst. apply decrypt_elem_ok in H1 as (-> & ?); [|done].
  apply IH in H2 as (-> & ?); [|done]. split; [done|]. by constructor.
Qed.

(** Writing a container that is in order, and locked if it waits. *)
Lemma good_set_in_container pending c ic w :
  good pending w -> container_ok (w_keypairs w) ic -> (c ∈ w_decryption w -> ic_locked ic = true) ->
  let w' := w <| w_ins ::= <[c := ic]> |> in
  good pending w' /\ mem_grows (w_keypairs w) (w_keypairs w').
Proof.
  intros [Hf [Hn Hq Hk] Hi Hl] Hc Hlock w'. split; [|apply mem_grows_refl]. split; [done| | |done]; cbn.
  - split; [done|done|]. intros c1 ic1 Hc1. destruct (decide (c = c1)) as [<-|Hne].
    + rewrite lookup_insert_eq. intros [= <-]. by apply Hlock.
    + rewrite lookup_insert_ne by done. by apply Hk.
  - by apply map_Forall_insert_2.
Qed.

Lemma good_RoutineDecryption : pres keeps_good RoutineDecryption.
Proof.
  intros w a w' Hr pending Hg. unfold RoutineDecryption in Hr. rewrite bind_eq, get_eq in Hr. cbv beta iota in Hr.
  destruct (w_decryption w) as [|c q] eqn:Ew; [done|]. rewrite bind_eq, modify_eq in Hr. cbv beta iota in Hr.
  destruct (good_queue _ _ Hg) as [Hn Hq Hk]. rewrite Ew in Hn, Hq, Hk. apply NoDup_cons in Hn as [Hc Hn].
  assert (Hg1 : good pending (w <| w_decryption := q |>)).
  { destruct Hg as [? ? ? ?]. split; try done. cbn. split; [done|set_solver|].
    intros c1 ic1 Hc1. apply Hk. by right. }
  assert (Hlock : forall ic, w_ins w !! c = Some ic -> ic_locked ic = true).
  { intros ic. apply Hk. by left. }
  change (w_keypairs w) with (w_keypairs (w <| w_decryption := q |>)).
  change (w_ins w) with (w_ins (w <| w_decryption := q |>)) in Hlock.
  assert (Hcq : c ∉ w_decryption (w <| w_decryption := q |>)) by done.
  set (w1 := w <| w_decryption := q |>) in *. clearbody w1. clear Hg Hk Hq Ew.
  apply bind_inv in Hr as (ic & ? & Hic & Hr). apply deref_inv in Hic as [Hic ->].
  apply bind_inv in Hr as (l & w2 & Hm & [= <- <-]).
  pose proof (good_ins _ _ Hg1 _ _ Hic) as Hfit. unfold container_ok in Hfit. rewrite (Hlock _ Hic) in Hfit.
  destruct (map_decrypt_ok _ _ _ _ Hm Hfit) as [-> ?]. by apply good_set_in_container.
Qed.

(** ** Receiving *)

Lemma good_PutInboundElementsContainer c : pres keeps_good (PutInboundElementsContainer c).
Proof.
  apply pres_modify. intros w pending [Hf [Hn Hq Hk] Hi Hl]. split; [|apply mem_grows_refl]. split; [done| | |done]; cbn.
  - split; [done|done|]. intros c1 ic1 Hc1 [_ Hl1]%lookup_delete_Some. by eapply Hk.
  - by apply map_Forall_delete.
Qed.

(** The groups of a batch hold datagrams that have arrived. *)
Lemma in_group_add_raw p e m :
  elem_raw e -> Forall (fun g => Forall elem_raw g.2) m -> Forall (fun g => Forall elem_raw g.2) (in_group_add p e m).
Proof.
  intros He. induction 1 as [|[q es] m Hes Hm IH]; cbn [in_group_add].
  { constructor; [|constructor]. by constructor. }
  case_bool_decide; constructor; try done. cbn in *. apply Forall_app. split; [done|by constructor].
Qed.

Lemma transport_elem_raw packet ep w r w' :
  is_bytes packet -> packet ∈ ds -> le_get 4 packet = Some MessageTransportType ->
  transport_elem packet ep w = Some (r, w') ->
  keeps_good w w' /\ (forall p e, r = Some (p, e) -> elem_raw e).
Proof.
  intros Hb Hin Hty Hr. split.
  - revert Hr. assert (Hp : pres keeps_good (transport_elem packet ep)); [|by apply Hp].
    unfold transport_elem, Lookup_index. pres.
  - intros p e ->. unfold transport_elem, Lookup_index in Hr. destruct (_ <? _); [done|].
    deref_step Hr f Ef. deref_step Hr rv Er. apply bind_inv in Hr as (v & ? & _ & Hr).
    destruct (it_keypair v) as [k|]; [|done]. apply bind_inv in Hr as (kp & ? & _ & Hr).
    apply bind_inv in Hr as (t & ? & _ & Hr). destruct (_ <? _); [done|]. deref_step Hr q Eqq.
    by injection Hr as <- <- <-.
Qed.

Lemma good_dispatch l m w m' w' :
  Forall (fun d => is_bytes d.1 /\ d.1 ∈ ds) l -> Forall (fun g => Forall elem_raw g.2) m ->
  dispatch l m w = Some (m', w') -> keeps_good w w' /\ Forall (fun g => Forall elem_raw g.2) m'.
Proof.
  intros Hl. revert m w. induction Hl as [|[packet ep] l [Hb Hin] Hl IH]; intros m w Hm; cbn [dispatch].
  { intros [= <- <-]. by split; [reflexivity|]. }
  destruct (_ <? _); [by apply (IH m w)|]. intros Hr. deref_step Hr ty Et. destruct (ty =? _) eqn:Ety.
  - apply bind_inv in Hr as (r & w1 & H1 & Hr).
    apply Z.eqb_eq in Ety as ->. destruct (transport_elem_raw _ _ _ _ _ Hb Hin Et H1) as [Hg He].
    destruct r as [[p e]|].
    + destruct (IH (in_group_add p e m) w1) as [? ?]; [|done|split; [by etrans|done]].
      apply in_group_add_raw; [by eapply He|done].
    + destruct (IH m w1) as [? ?]; [done..|]. split; [by etrans|done].
  - destruct (handshake_size ty) as [n|]; [|by apply (IH m w)].
    apply bind_inv in Hr as (r & w1 & H1 & Hr). destruct (IH m w1) as [? ?]; [done..|].
    split; [|done]. etrans; [|done].
    revert H1. case_bool_decide; [|intros [= _ <-]; reflexivity]. intros Hq.
    eapply (good_modify (fun w => w <| w_handshakeq ::= fun q => default q (chan_send _ q _) |>)); [done|exact Hq].
Qed.

(** A new container goes to the peer's queue and waits for decryption. *)
Lemma good_enqueue pending c q w :
  good pending w -> (c < w_fresh w)%nat -> c ∉ w_decryption w ->
  (forall ic, w_ins w !! c = Some ic -> ic_locked ic = true) ->
  chan_send QueueInboundSize (w_decryption w) c = Some q -> good pending (w <| w_decryption := q |>).
Proof.
  intros [Hf [Hn Hq Hk] Hi Hl] Hc Hnew Hlock Hs. unfold chan_send in Hs. case_decide; [|done]. injection Hs as <-.
  split; try done. cbn. split.
  - apply NoDup_app. split; [done|]. split; [|by apply NoDup_singleton]. set_solver.
  - intros c1 [Hin|Hin]%elem_of_app; [by apply Hq|apply list_elem_of_singleton in Hin as ->; done].
  - intros c1 ic1 [Hin|Hin]%elem_of_app; [by apply Hk|apply list_elem_of_singleton in Hin as ->; by apply Hlock].
Qed.

Lemma good_queue_inbound p es : Forall elem_raw es -> pres keeps_good (queue_inbound p es).
Proof.
  intros Hes w a w' Hr pending Hg. unfold queue_inbound in Hr. apply bind_inv in Hr as (c & w1 & [= <- <-] & Hr).
  set (w1 := w <| w_fresh ::= S |>) in Hr.
  assert (Hg1 : good pending w1) by (refine (proj1 (good_same w w1 _ _ _ _ _ pending Hg)); cbn; try done; lia).
  assert (Hold : w_fresh w ∉ w_decryption w1).
  { intros Hin%(queue_fresh _ _ _ (good_queue _ _ Hg)). lia. }
  apply bind_inv in Hr as (? & w2 & [= _ <-] & Hr).
  apply bind_inv in Hr as (pe & ? & [_ ->]%deref_inv & Hr). deref_step Hr q1 Eq1.
  apply bind_inv in Hr as (? & w3 & Hp & Hr). rewrite bind_eq, get_eq in Hr. cbv beta iota in Hr.
  deref_step Hr q2 Eq2. injection Hr as _ <-.
  unfold set_peer in Hp. cbn [w_peers set] in Hp. destruct (w_peers w1 !! p); [|done]. injection Hp as _ <-.
  split; [|apply mem_grows_refl]. eapply (good_enqueue _ (w_fresh w)).
  - refine (proj1 (good_same (w1 <| w_ins ::= <[w_fresh w := mkInContainer true es]> |>) _ _ _ _ _ _ pending _));
      try done. by apply good_set_in_container.
  - cbn. lia.
  - exact Hold.
  - cbn. intros ic. rewrite lookup_insert_eq. by intros [= <-].
  - exact Eq2.
Qed.

Lemma good_RoutineReceiveIncoming l :
  Forall (fun d => is_bytes d.1 /\ d.1 ∈ ds) l -> pres keeps_good (RoutineReceiveIncoming l).
Proof.
  intros Hl w a w' Hr. unfold RoutineReceiveIncoming in Hr. apply bind_inv in Hr as (m & w1 & H1 & Hr).
  destruct (good_dispatch _ [] _ _ _ Hl ltac:(constructor) H1) as [Hg Hm]. etrans; [exact Hg|]. clear H1 Hg.
  revert w1 Hr. induction Hm as [|[p es] m Hes Hm IH]; intros w1; cbn [for_each].
  { intros [= <- <-]. reflexivity. }
  intros (u & w2 & H2 & Hr)%bind_inv. etrans; [|by eapply IH].
  assert (Hp : pres keeps_good (pe ← peer p; if p_isRunning pe then queue_inbound p es else mret tt));
    [|by eapply Hp]. pose proof (good_queue_inbound p _ Hes). pres.
Qed.

(** ** Delivery *)

(** The address the routing of a packet is decided by. *)
Definition packet_source (packet : list Z) : option (list Z) :=
  b ← byte_at packet 0;
  if Z.shiftr b 4 =? 4 then slice packet IPv4offsetSrc (IPv4offsetSrc + 4)
  else slice packet IPv6offsetSrc (IPv6offsetSrc + 16).

Lemma slice_0 (b : list Z) n r : slice b 0 n = Some r -> r = take (Z.to_nat n) b.
Proof. unfold slice. case_decide; [|done]. intros [= <-]. by rewrite Z.sub_0_r, drop_0. Qed.

Lemma slice_take (b : list Z) n r lo hi :
  slice b 0 n = Some r -> hi <= n -> slice r lo hi = slice b lo hi.
Proof.
  intros Hr Hn. pose proof Hr as Hr'. apply slice_0 in Hr as ->. unfold slice in *.
  destruct (decide (0 <= 0 <= n /\ n <= Z.of_nat (length b))); [|done]. rewrite length_take.
  destruct (decide (0 <= lo <= hi /\ hi <= Z.of_nat (length b))).
  - rewrite decide_True by lia. f_equal. rewrite skipn_firstn_comm, take_take. f_equal. lia.
  - rewrite decide_False by lia. done.
Qed.

(** A packet that passes is a prefix of the text, from a source that is routed
    to the peer. *)
Lemma check_packet_inv p packet w r w' :
  check_packet p packet w = Some (r, w') ->
  w' = w /\ forall pk, r = Some pk -> exists n src, pk = take n packet /\
    packet_source packet = Some src /\ Lookup (w_allowedips w) src = Some (Some p).
Proof.
  unfold check_packet, packet_source. intros Hr. deref_step Hr b Eb. rewrite Eb. cbn [mbind option_bind].
  rewrite bind_eq, get_eq in Hr. cbv beta iota zeta in Hr. destruct (Z.shiftr b 4 =? 4) eqn:E4.
  - destruct (_ <? _); [by injection Hr as <- <-|]. deref_step Hr f Ef. deref_step Hr len El.
    destruct (_ || _) eqn:Eg; [by injection Hr as <- <-|]. apply orb_false_iff in Eg as [_ Eg].
    deref_step Hr pk Ep. deref_step Hr src Es. deref_step Hr q Eqq. injection Hr as <- <-.
    split; [done|]. intros pk'. case_bool_decide; intros [= <-]. subst q. exists (Z.to_nat len), src.
    split; [by eapply slice_0|]. split; [|done]. rewrite <- Es. symmetry. eapply slice_take; [exact Ep|].
    apply Z.ltb_ge in Eg. unfold IPv4offsetSrc. lia.
  - destruct (Z.shiftr b 4 =? 6); [|by injection Hr as <- <-].
    destruct (_ <? _); [by injection Hr as <- <-|]. deref_step Hr f Ef. deref_step Hr len El.
    destruct (_ >? _); [by injection Hr as <- <-|].
    deref_step Hr pk Ep. deref_step Hr src Es. deref_step Hr q Eqq. injection Hr as <- <-.
    split; [done|]. intros pk'. case_bool_decide; intros [= <-]. subst q. eexists _, src.
    split; [by eapply slice_0|done].
Qed.

(** Replacing the filter of a key pair, and what the log says of it then. *)
Lemma grows_filter mem k kp f :
  mem !! k = Some kp -> mem_grows mem (<[k := kp <| kp_replayFilter := f |>]> mem).
Proof.
  intros Hk k1 kp1 Hk1. destruct (decide (k = k1)) as [<-|Hne].
  - eexists. rewrite lookup_insert_eq. split; [done|]. cbn. congruence.
  - exists kp1. by rewrite lookup_insert_ne.
Qed.

Lemma log_ok_filter mem bufs log seen k kp s f s' :
  log_ok mem bufs log seen -> mem !! k = Some kp -> seen !! k = Some s -> spec_seen s ⊆ spec_seen s' ->
  represents f s' -> log_ok (<[k := kp <| kp_replayFilter := f |>]> mem) bufs log (<[k := s']> seen).
Proof.
  intros [Hb Hn Ha Hs Hft] Hk Hsk Hseen Hrep. split; [done|done| | |].
  - eapply delivered_grows; [by apply grows_filter|done].
  - intros k1 c1 Hin. destruct (Hs _ _ Hin) as (s1 & Hs1 & Hc1). destruct (decide (k = k1)) as [<-|Hne].
    + exists s'. rewrite lookup_insert_eq. split; [done|]. rewrite Hsk in Hs1. injection Hs1 as <-. by apply Hseen.
    + exists s1. by rewrite lookup_insert_ne.
  - intros k1 kp1. destruct (decide (k = k1)) as [<-|Hne].
    + rewrite !lookup_insert_eq. intros [= <-]. by exists s'.
    + rewrite !lookup_insert_ne by done. apply Hft.
Qed.

(** One more delivery, with a counter that the log does not have yet. *)
Lemma log_ok_snoc mem bufs log seen buf k c s :
  log_ok mem bufs log seen -> delivered mem buf k c -> (k, c) ∉ log.*2 ->
  seen !! k = Some s -> c ∈ spec_seen s -> log_ok mem (bufs ++ [buf]) (log ++ [(buf, (k, c))]) seen.
Proof.
  intros [Hb Hn Ha Hs Hft] Hbuf Hnew Hk Hc. split.
  - by rewrite fmap_app, Hb.
  - rewrite fmap_app. apply NoDup_app. split; [done|]. split; [|by apply NoDup_singleton].
    intros x Hin ->%list_elem_of_singleton. done.
  - apply Forall_app. split; [done|]. by constructor.
  - intros k1 c1. rewrite fmap_app, elem_of_app. intros [Hin|Hin]; [by apply Hs|].
    apply list_elem_of_singleton in Hin as [= -> ->]. by exists s.
  - done.
Qed.

(** A validated counter: the filter is replaced; when it was accepted, one
    buffer may be delivered for it. *)
Lemma good_validate pending w k kp c limit f ok :
  good pending w -> w_keypairs w !! k = Some kp -> is_u64 c ->
  ValidateCounter (kp_replayFilter kp) c limit = (f, ok) ->
  let w' := w <| w_keypairs ::= <[k := kp <| kp_replayFilter := f |>]> |> in
  good pending w' /\
  (ok = true -> forall buf, delivered (w_keypairs w) buf k c -> good (pending ++ [buf]) w').
Proof.
  intros [Hfr Hq Hi (log & seen & Hlog)] Hk Hc Hv w'.
  destruct (log_filters _ _ _ _ Hlog _ _ Hk) as (s & Hsk & Hrep).
  destruct (validate_refines _ _ _ limit Hrep Hc) as [Hrep' Hok]. rewrite Hv in Hrep', Hok.
  destruct (spec_validate s c limit) as [s' b] eqn:Es. cbn [fst snd] in *. subst b.
  pose proof (grows_filter _ _ _ f Hk) as Hg.
  assert (Hseen : spec_seen s ⊆ spec_seen s').
  { destruct ok; [apply spec_validate_accept in Es as [_ ->]; [set_solver|apply Hrep]|].
    by apply spec_validate_reject in Es as ->. }
  pose proof (log_ok_filter _ _ _ _ _ _ _ _ _ Hlog Hk Hsk Hseen Hrep') as Hlog'.
  assert (Hi' : map_Forall (fun _ ic => container_ok (w_keypairs w') ic) (w_ins w)).
  { eapply map_Forall_impl; [exact Hi|]. intros ? ?. by apply container_ok_grows. }
  assert (Hfr' : forall k1, is_Some (w_keypairs w' !! k1) -> (k1 < w_fresh w)%nat).
  { intros k1. cbn [w' w_keypairs set]. rewrite lookup_insert_is_Some'. intros [<-|?]; apply Hfr; eauto. }
  split; [split; [done|done|done|by eauto]|]. intros -> buf (d & plain & n & Hau & ?).
  apply spec_validate_accept in Es as [Hnew Hs1]; [|apply Hrep].
  split; [done|done|done|]. exists (log ++ [(buf, (k, c))]), (<[k := s']> seen). rewrite app_assoc.
  apply (log_ok_snoc _ _ _ _ _ _ _ s'); [exact Hlog'| | |apply lookup_insert_eq|set_solver].
  - exists d, plain, n. split; [by eapply authentic_grows|done].
  - intros Hin. destruct (log_seen _ _ _ _ Hlog _ _ Hin) as (s1 & Hs2 & Hc1). congruence.
Qed.

(** What is known while the elements of a container are processed. *)
Definition receiving (w0 : World) (pending : list (list Z)) (acc : recv_acc) (w : World) : Prop :=
  good (pending ++ ra_bufs acc) w /\ mem_grows (w_keypairs w0) (w_keypairs w).

Lemma quiet_confirm p ep (confirmed : bool) :
  pres keeps_good (if confirmed then
    SetEndpointFromPacket p ep;; timersHandshakeComplete p;; SendStagedPackets p else mret tt).
Proof. pres. Qed.

(** The buffer of a packet that passes carries a prefix of the text. *)
Lemma delivered_slice mem e k c d plain rest n buf :
  ie_buffer e = take MessageTransportOffsetContent d ++ plain ++ rest ->
  (MessageTransportOffsetContent <= length d)%nat -> authentic mem k c d plain ->
  slice (ie_buffer e) 0 (Z.of_nat MessageTransportOffsetContent + zlen (take n plain)) = Some buf ->
  delivered mem buf k c.
Proof.
  intros Hb Hh Hau Hs. apply slice_0 in Hs. exists d, plain, (length (take n plain)).
  split; [done|]. subst buf. rewrite Hb. unfold zlen. set (hdr := take _ d).
  assert (length hdr = MessageTransportOffsetContent) by (by apply length_take_le).
  replace (Z.to_nat _) with (length hdr + length (take n plain))%nat by lia.
  rewrite take_app_add. f_equal. apply take_app_le. rewrite length_take. lia.
Qed.

Lemma receive_elem_good p acc e w acc' w' pending :
  elem_ok (w_keypairs w) e -> good (pending ++ ra_bufs acc) w ->
  receive_elem p acc e w = Some (acc', w') -> receiving w pending acc' w'.
Proof.
  intros [Hc He] Hg Hr. unfold receive_elem in Hr.
  destruct (ie_packet e) as [plain|]; [|injection Hr as <- <-; split; [done|apply mem_grows_refl]].
  destruct (He plain eq_refl) as (k & d & rest & Hk & Hau & Hbuf & Hh). clear He.
  deref_step Hr k' Ek. rewrite Hk in Ek. injection Ek as <-.
  apply bind_inv in Hr as (kp & ? & Hkp & Hr). apply deref_inv in Hkp as [Hkp ->].
  destruct (ValidateCounter _ _ _) as [f ok] eqn:Ev. destruct (good_validate _ _ _ _ _ _ _ _ Hg Hkp Hc Ev) as [Hg1 Hg2].
  apply bind_inv in Hr as (? & w1 & Hs & Hr). rewrite (set_keypair_eq _ _ _ _ Hkp) in Hs.
  injection Hs as _ <-. pose proof (grows_filter _ _ _ f Hkp) as Hgr.
  set (w1 := w <| w_keypairs ::= _ |>) in *. change (<[k := _]> _) with (w_keypairs w1) in Hgr.
  destruct ok; [|injection Hr as <- <-; done]. clearbody w1. specialize (Hg2 eq_refl).
  apply bind_inv in Hr as (conf & w2 & Hq1 & Hr). apply bind_inv in Hr as (? & w3 & Hq2 & Hr).
  assert (Hq : keeps_good w1 w3).
  { etrans; [eapply (fr_ReceivedWithKeypair keeps_good); exact Hq1|]. by eapply quiet_confirm. }
  clear Hq1 Hq2 w2. destruct (Hq _ Hg1) as [Hg3 Hgr3].
  assert (Hgr' : mem_grows (w_keypairs w) (w_keypairs w3)) by (by eapply mem_grows_trans).
  destruct plain as [|b0 plain0] eqn:Epl; [injection Hr as <- <-; by split|]. rewrite <- Epl in *.
  apply bind_inv in Hr as (res & w4 & Hck & Hr). apply check_packet_inv in Hck as [-> Hck].
  destruct res as [pk|]; [|injection Hr as <- <-; by split]. destruct (Hck _ eq_refl) as (n & src & -> & _).
  deref_step Hr buf Ebuf. injection Hr as <- <-. split; [|done]. cbn [ra_bufs]. rewrite app_assoc.
  apply Hq, Hg2. by eapply delivered_slice.
Qed.

Lemma receive_elems_good p l acc w acc' w' pending :
  Forall (elem_ok (w_keypairs w)) l -> good (pending ++ ra_bufs acc) w ->
  receive_elems p acc l w = Some (acc', w') -> receiving w pending acc' w'.
Proof.
  revert acc w. induction l as [|e l IH]; intros acc w Hl Hg; cbn [receive_elems].
  { intros [= <- <-]. split; [done|apply mem_grows_refl]. }
  intros (acc1 & w1 & H1 & Hr)%bind_inv. inversion Hl as [|? ? He Hl']; subst.
  destruct (receive_elem_good _ _ _ _ _ _ _ He Hg H1) as [Hg1 Hgr].
  destruct (IH acc1 w1) as [Hg2 Hgr2]; [|done|done|split; [done|by eapply mem_grows_trans]].
  eapply Forall_impl; [exact Hl'|]. intros x. by apply elem_ok_grows.
Qed.

(** Writing the pending buffers. *)
Lemma good_write pending bufs w :
  good (pending ++ bufs) w -> good pending (w <| w_out ::= fun o => o ++ [EvWriteTun bufs] |>).
Proof.
  intros [Hf Hq Hi (log & seen & [Hb Hn Ha Hs Hft])]. split; [done|done|done|]. exists log, seen. split; try done.
  cbn [w_out set]. rewrite tun_bufs_app, Hb. cbn. rewrite app_nil_r, <- app_assoc. f_equiv. apply Permutation_app_comm.
Qed.

Lemma quiet_receive_end p acc : pres keeps_good (receive_end p acc).
Proof. unfold receive_end, add_rxBytes, keepKeyFreshReceiving. pres. Qed.

Lemma good_RoutineSequentialReceiver p : pres keeps_good (RoutineSequentialReceiver p).
Proof.
  intros w r w' Hr pending Hg. unfold RoutineSequentialReceiver in Hr.
  apply bind_inv in Hr as (pe & ? & Hpe & Hr). apply deref_inv in Hpe as [Hpe ->].
  destruct (p_inbound pe) as [|[c|] q]; [done| |].
  2: { apply bind_inv in Hr as (? & w1 & H1 & [= <- <-]). by apply (good_set_peer _ _ _ _ _ H1). }
  apply bind_inv in Hr as (? & w1 & H1 & Hr). destruct (good_set_peer _ _ _ _ _ H1 _ Hg) as [Hg1 Hgr1]. clear H1 Hg.
  apply bind_inv in Hr as (ic & ? & Hic & Hr). apply deref_inv in Hic as [Hic ->].
  destruct (ic_locked ic) eqn:El; [done|]. pose proof (good_ins _ _ Hg1 _ _ Hic) as Hok.
  unfold container_ok in Hok. rewrite El in Hok.
  apply bind_inv in Hr as (acc & w2 & H2 & Hr).
  assert (Hg1' : good (pending ++ ra_bufs (mkRecvAcc None false 0 [])) w1) by (cbn; by rewrite app_nil_r).
  destruct (receive_elems_good _ _ _ _ _ _ pending Hok Hg1' H2) as [Hg2 Hgr2].
  apply bind_inv in Hr as (? & w3 & H3 & Hr). destruct (quiet_receive_end _ _ _ _ _ H3 _ Hg2) as [Hg3 Hgr3].
  apply bind_inv in Hr as (? & w4 & H4 & Hr).
  assert (Hg4 : good pending w4 /\ w_keypairs w4 = w_keypairs w3).
  { case_bool_decide as Hb; cbn in H4; injection H4 as <- <-; (split; [|done]); [by apply good_write|].
    destruct (decide (ra_bufs acc = [])) as [E|]; [by rewrite E, app_nil_r in Hg3|tauto]. }
  destruct Hg4 as [Hg4 E4]. apply bind_inv in Hr as (? & w5 & H5 & [= <- <-]).
  destruct (good_PutInboundElementsContainer _ _ _ _ H5 _ Hg4) as [Hg5 Hgr5]. split; [done|].
  rewrite E4 in Hgr5. eapply mem_grows_trans; [exact Hgr1|]. eapply mem_grows_trans; [exact Hgr2|].
  by eapply mem_grows_trans.
Qed.

(** ** The whole device *)

#[local] Instance good_device_frame : DeviceFrame keeps_good.
Proof.
  split; [apply _| | |..]; intros; try (by apply good_modify).
  - match goal with Hf : forall w, _ /\ _ |- _ =>
      apply good_modify; intros w; by destruct (Hf w) as [(? & ? & ? & ? & _) ?] end.
  - by apply good_emit.
  - apply good_RoutineDecryption.
  - apply good_RoutineSequentialReceiver.
  - apply good_PutInboundElementsContainer.
Qed.

#[local] Instance good_config_frame : ConfigFrame keeps_good.
Proof. split; [apply _|..]; intros; by apply good_modify. Qed.

#[local] Instance good_system_frame : SystemFrame keeps_good.
Proof. apply config_system_frame; [apply _|]. intros s. by apply good_modify. Qed.

Lemma good_new mtu outside w : NewDevice mtu outside = Some w -> good [] w.
Proof.
  intros [= <-]. split; cbn.
  - intros k [kp Hk]. by rewrite lookup_empty in Hk.
  - split; [constructor|set_solver..].
  - apply map_Forall_empty.
  - exists [], ∅. split; [done|constructor|constructor| |].
    + intros k c Hin. by apply elem_of_nil in Hin.
    + intros k kp Hk. by rewrite lookup_empty in Hk.
Qed.

(** A step keeps the invariant when what it receives has arrived. *)
Lemma good_run o w w' pending :
  op_wf o -> op_datagrams o ⊆ ds -> run o w = Some (tt, w') -> good pending w -> good pending w'.
Proof.
  intros Ho Hd Hr Hg. refine (proj1 (sf_run_but keeps_good o _ _ _ _ Hr pending Hg)). intros l ->.
  apply good_RoutineReceiveIncoming. cbn [op_wf op_datagrams] in *. apply Forall_forall. intros d Hin.
  split; [by apply (proj1 (Forall_forall _ _) Ho)|]. apply Hd. by apply list_elem_of_fmap_2.
Qed.

End delivery.

Section runs.
Context {CR : Crypto} {CL : CryptoLaws} {EP : Endpoints}.

(** What has arrived stays so. *)
Lemma good_arrive ds ds' pending w : ds ⊆ ds' -> good ds pending w -> good ds' pending w.
Proof.
  intros Hd [Hf Hq Hi (log & seen & [Hb Hn Ha Hs Hft])]. 
  assert (Hau : forall k c d plain, authentic ds (w_keypairs w) k c d plain -> authentic ds' (w_keypairs w) k c d plain).
  { intros k c d plain [Hin ?]. split; [by apply Hd|done]. }
  split; [done|done| |].
  - eapply map_Forall_impl; [exact Hi|]. intros c ic. unfold container_ok. destruct (ic_locked ic); intros H;
      (eapply Forall_impl; [exact H|]); intros e.
    + intros (? & ? & ? & ?). split_and!; auto.
    + intros [? He]. split; [done|]. intros plain Hp. destruct (He _ Hp) as (k & d & rest & ? & ? & ?).
      exists k, d, rest. auto.
  - exists log, seen. split; try done. eapply Forall_impl; [exact Ha|].
    intros [buf [k c]] (d & plain & n & ? & ?). exists d, plain, n. auto.
Qed.

Lemma good_run_list ops ds w w' :
  Forall op_wf ops -> run_list ops w = Some (tt, w') -> good ds [] w -> good (ds ++ arrived ops) [] w'.
Proof.
  intros Ho. revert ds w. induction Ho as [|o ops Ho _ IH]; intros ds w; cbn [run_list].
  { intros [= <-]. apply good_arrive. set_solver. }
  intros ([] & w1 & H1 & H2)%bind_inv Hg. unfold arrived. cbn [map concat]. rewrite app_assoc.
  eapply IH; [exact H2|]. eapply good_run; [exact Ho| |exact H1|]; [set_solver|].
  eapply good_arrive; [|exact Hg]. set_solver.
Qed.

Lemma reachable_good w : reachable w -> exists ds, good ds [] w.
Proof.
  intros (ops & mtu & outside & w0 & Hn & Ho & Hr)%reachable_runs. exists ([] ++ arrived ops).
  eapply good_run_list; [exact Ho|exact Hr|]. by eapply good_new.
Qed.

(** ** Properties *)

(** C1: authenticated and replay-free delivery. After any sequence of operations
    on a new device, the buffers written to the TUN device so far can be matched
    with pairs of a session and a counter such that no pair occurs twice, and
    each buffer comes from a datagram that arrived in the sequence: a transport
    message with that counter, whose content the AEAD opens under the receiving
    key of the session with the counter as nonce. The buffer is the 16-byte
    header of the datagram followed by a prefix of the opened text. *)
Theorem tun_delivery ops mtu outside w0 w :
  NewDevice mtu outside = Some w0 -> Forall op_wf ops -> run_list ops w0 = Some (tt, w) ->
  exists log : list (list Z * (KeypairPtr * Z)),
    log.*1 ≡ₚ tun_bufs (w_out w) /\ NoDup log.*2 /\
    Forall (fun '(buf, (k, c)) => delivered (arrived ops) (w_keypairs w) buf k c) log.
Proof.
  intros Hn Ho Hr. pose proof (good_run_list _ [] _ _ Ho Hr (good_new _ _ _ _ Hn)) as [_ _ _ (log & seen & Hlog)].
  exists log. pose proof (log_bufs _ _ _ _ _ Hlog) as Hb. rewrite app_nil_r in Hb. split; [exact Hb|].
  split; apply Hlog.
Qed.

End runs.
