(* ===== verification/Routing.v ===== *)
(** * Cryptokey routing

    Packets go out under the keys of the peer their destination is routed to,
    and come in only from the peer their source is routed to. *)

From stdpp Require Import base numbers list gmap relations.
From S2P Require Import Tai64n Replay Ratelimiter AllowedIPs BitTrie Trie AllowedIPsCorrect AllowedIPsTable.
From S2P Require Import Prelude Setters GoStrings Netip Env Crypto Messages Cookie NoiseTypes DeviceState Noise Timers PeerOps Send Receive Device Uapi System Frame DeviceFrame Config Delivery.

Open Scope Z_scope.

Section routing.
Context {CR : Crypto} {CL : CryptoLaws} {EP : Endpoints}.

(** ** Inbound *)

(** The routes and what was written are the same. *)
Definition same_routes (w w' : World) : Prop :=
  w_allowedips w' = w_allowedips w /\ tun_bufs (w_out w') = tun_bufs (w_out w).

#[local] Instance same_routes_pre : PreOrder same_routes.
Proof. split; [done|]. intros a b c [? ?] [? ?]. split; congruence. Qed.

Lemma routes_modify f :
  (forall w, w_allowedips (f w) = w_allowedips w /\ w_out (f w) = w_out w) -> pres same_routes (modify f).
Proof. intros Hf. apply pres_modify. intros w. destruct (Hf w) as [? E]. split; [done|by rewrite E]. Qed.

Lemma routes_set_keypair k f : pres same_routes (set_keypair k f).
Proof. intros w a w'. unfold set_keypair. destruct (w_keypairs w !! k); [|done]. by intros [= <- <-]. Qed.

Lemma routes_set_peer p f : pres same_routes (set_peer p f).
Proof. intros w a w'. unfold set_peer. destruct (w_peers w !! p); [|done]. by intros [= <- <-]. Qed.

#[local] Instance routes_frame : Frame same_routes.
Proof.
  split; intros; try (by apply routes_modify).
  - apply same_routes_pre.
  - intros w a w'. unfold env. destruct (m _) as [[x e]|]; [|done]. by intros [= <- <-].
  - by intros w a w' [= <- <-].
  - apply routes_set_peer.
  - apply assign_nonces_pres; [apply _|]. intros n. apply routes_set_keypair.
  - apply routes_set_keypair.
  - by intros w a w' [= <- <-].
  - intros w a w' [= <- <-]. split; [done|]. cbn [w_out set]. rewrite tun_bufs_app. apply app_nil_r.
  - intros w a w' [= <- <-]. split; [done|]. cbn [w_out set]. rewrite tun_bufs_app. apply app_nil_r.
  - by intros w a w' [= <- <-].
Qed.

(** [buf] carries a prefix of a packet whose source is routed to [p]. *)
Definition from_peer (routes : AllowedIPs) (p : PeerPtr) (buf : list Z) : Prop :=
  exists hdr packet n src, buf = hdr ++ take n packet /\ length hdr = MessageTransportOffsetContent /\
    packet_source packet = Some src /\ Lookup routes src = Some (Some p).

(** The element's buffer holds its text after the header. *)
Definition elem_buffer (e : QueueInboundElement) : Prop :=
  forall plain, ie_packet e = Some plain ->
    exists hdr rest, ie_buffer e = hdr ++ plain ++ rest /\ length hdr = MessageTransportOffsetContent.

Lemma buffer_slice e hdr plain rest n buf :
  ie_buffer e = hdr ++ plain ++ rest -> length hdr = MessageTransportOffsetContent ->
  slice (ie_buffer e) 0 (Z.of_nat MessageTransportOffsetContent + zlen (take n plain)) = Some buf ->
  buf = hdr ++ take (length (take n plain)) plain.
Proof.
  intros Hb Hh Hs. apply slice_0 in Hs. subst buf. rewrite Hb. unfold zlen.
  replace (Z.to_nat _) with (length hdr + length (take n plain))%nat by lia.
  rewrite take_app_add. f_equal. apply take_app_le. rewrite length_take. lia.
Qed.

Lemma receive_elem_routed p acc e w acc' w' :
  elem_buffer e -> receive_elem p acc e w = Some (acc', w') ->
  same_routes w w' /\ exists new, ra_bufs acc' = ra_bufs acc ++ new /\ Forall (from_peer (w_allowedips w) p) new.
Proof.
  intros He Hr. unfold receive_elem in Hr.
  assert (Hnil : forall x : list (list Z), exists new, x = x ++ new /\ Forall (from_peer (w_allowedips w) p) new).
  { intros x. exists []. by rewrite app_nil_r. }
  destruct (ie_packet e) as [plain|] eqn:Ep; [|injection Hr as <- <-; split; [reflexivity|apply Hnil]].
  destruct (He _ Ep) as (hdr & rest & Hb & Hh).
  deref_step Hr k Ek. apply bind_inv in Hr as (kp & ? & [_ ->]%deref_inv & Hr).
  destruct (ValidateCounter _ _ _) as [f ok]. apply bind_inv in Hr as (? & w1 & Hs & Hr).
  assert (H1 : same_routes w w1).
  { by eapply routes_set_keypair. }
  destruct ok; [|injection Hr as <- <-; split; [done|apply Hnil]].
  apply bind_inv in Hr as (conf & w2 & Hq1 & Hr). apply bind_inv in Hr as (? & w3 & Hq2 & Hr).
  assert (H3 : same_routes w w3).
  { etrans; [exact H1|]. etrans; [eapply (fr_ReceivedWithKeypair same_routes); exact Hq1|].
    assert (Hp : pres same_routes (if conf then SetEndpointFromPacket p (ie_endpoint e);;
      timersHandshakeComplete p;; SendStagedPackets p else mret tt)) by pres. by eapply Hp. }
  destruct plain as [|b0 plain0] eqn:Epl; [injection Hr as <- <-; split; [done|apply Hnil]|]. rewrite <- Epl in *.
  apply bind_inv in Hr as (res & w4 & Hck & Hr). apply check_packet_inv in Hck as [-> Hck].
  destruct res as [pk|]; [|injection Hr as <- <-; split; [done|apply Hnil]].
  destruct (Hck _ eq_refl) as (n & src & -> & Hsrc & Hl). deref_step Hr buf Ebuf. injection Hr as <- <-.
  split; [done|]. exists [buf]. split; [done|]. constructor; [|done]. rewrite (proj1 H3) in Hl.
  eexists hdr, plain, _, src. split; [by eapply buffer_slice|done].
Qed.

Lemma receive_elems_routed p l acc w acc' w' :
  Forall elem_buffer l -> receive_elems p acc l w = Some (acc', w') ->
  same_routes w w' /\ exists new, ra_bufs acc' = ra_bufs acc ++ new /\ Forall (from_peer (w_allowedips w) p) new.
Proof.
  intros Hl. revert acc w. induction Hl as [|e l He Hl IH]; intros acc w; cbn [receive_elems].
  { intros [= <- <-]. split; [reflexivity|]. exists []. by rewrite app_nil_r. }
  intros (acc1 & w1 & H1 & Hr)%bind_inv.
  destruct (receive_elem_routed _ _ _ _ _ _ He H1) as (Hs1 & n1 & E1 & F1).
  destruct (IH _ _ Hr) as (Hs2 & n2 & E2 & F2). split; [by etrans|]. exists (n1 ++ n2).
  rewrite E2, E1, <- app_assoc. split; [done|]. apply Forall_app. split; [done|]. by rewrite (proj1 Hs1) in F2.
Qed.

(** C3: cryptokey routing of received packets. In any reachable state, what a
    round of the sequential receiver of peer [p] writes to the TUN device are
    packets whose source address the routing table maps to [p]. *)
Theorem inbound_source_routed p w r w' :
  reachable w -> RoutineSequentialReceiver p w = Some (r, w') ->
  exists bufs, tun_bufs (w_out w') = tun_bufs (w_out w) ++ bufs /\
    Forall (from_peer (w_allowedips w) p) bufs.
Proof.
  intros [ds Hw]%reachable_good Hr. unfold RoutineSequentialReceiver in Hr.
  apply bind_inv in Hr as (pe & ? & [Hpe ->]%deref_inv & Hr).
  destruct (p_inbound pe) as [|[c|] q]; [done| |]; apply bind_inv in Hr as (? & w1 & H1 & Hr);
    pose proof (routes_set_peer _ _ _ _ _ H1) as [Hs1 Hs1']; cycle 1.
  { injection Hr as <- <-. exists []. rewrite app_nil_r. done. }
  destruct (good_set_peer _ _ _ _ _ _ H1 _ Hw) as [Hg1 _].
  apply bind_inv in Hr as (ic & ? & [Hic ->]%deref_inv & Hr). destruct (ic_locked ic) eqn:El; [done|].
  apply bind_inv in Hr as (acc & w2 & H2 & Hr).
  assert (Hbuf : Forall elem_buffer (ic_elems ic)).
  { pose proof (good_ins _ _ _ Hg1 _ _ Hic) as Hok. unfold container_ok in Hok. rewrite El in Hok.
    eapply Forall_impl; [exact Hok|]. intros e [_ He] plain Hp.
    destruct (He _ Hp) as (k & d & rest & _ & _ & ? & ?). eexists _, rest. split; [done|by apply length_take_le]. }
  destruct (receive_elems_routed _ _ _ _ _ _ Hbuf H2) as ([_ Hs2'] & new & Enew & Fnew).
  apply bind_inv in Hr as (? & w3 & H3 & Hr). apply bind_inv in Hr as (? & w4 & H4 & Hr).
  apply bind_inv in Hr as (? & w5 & [= _ <-] & [= <- <-]).
  assert (Hs3 : pres same_routes (receive_end p acc)).
  { unfold receive_end, add_rxBytes, keepKeyFreshReceiving. pres. }
  apply Hs3 in H3 as [_ H3]. exists new. rewrite Hs1 in Fnew. split; [|done]. cbn [ra_bufs app] in Enew.
  rewrite <- Hs1', <- Hs2', <- H3, <- Enew. revert H4. unfold when.
  case_bool_decide as Hb; intros [= _ <-]; cbn [w_out set].
  - rewrite tun_bufs_app. f_equal. apply app_nil_r.
  - destruct (decide (ra_bufs acc = [])) as [->|]; [by rewrite app_nil_r|tauto].
Qed.

(** ** Outbound *)

(** The peer the table gives for the destination in the header of a packet;
    packets that are empty or too short for their version have none. *)
Definition packet_route (routes : AllowedIPs) (packet : list Z) : option (option PeerPtr) :=
  match byte_at packet 0 with
  | None => Some None
  | Some b =>
      let version := Z.shiftr b 4 in
      if (version =? 4) && (20 <=? zlen packet) then
        dst ← slice packet IPv4offsetDst (IPv4offsetDst + 4); Lookup routes dst
      else if (version =? 6) && (40 <=? zlen packet) then
        dst ← slice packet IPv6offsetDst (IPv6offsetDst + 16); Lookup routes dst
      else Some None
  end.

Lemma route_packet_eq packet w :
  1 <= zlen packet ->
  route_packet packet w = match packet_route (w_allowedips w) packet with Some r => Some (r, w) | None => None end.
Proof.
  intros Hl. unfold route_packet, packet_route. destruct packet as [|b packet]; [done|].
  change (byte_at (b :: packet) 0) with (Some b). set (pk := b :: packet). st. cbv zeta.
  destruct (Z.shiftr b 4 =? 4) eqn:E4; cbn [andb].
  - destruct (Z.leb_spec 20 (zlen pk)).
    + rewrite (proj2 (Z.ltb_ge _ _)) by lia. rewrite bind_eq. destruct (slice pk _ _); [|done]. cbn [mbind option_bind].
      rewrite deref_eq. unfold deref. by destruct (Lookup _ _).
    + rewrite (proj2 (Z.ltb_lt _ _)) by lia. rewrite (proj1 (Z.eqb_eq _ _) E4). done.
  - destruct (Z.shiftr b 4 =? 6); [|done]. cbn [andb]. destruct (Z.leb_spec 40 (zlen pk)).
    + rewrite (proj2 (Z.ltb_ge _ _)) by lia. rewrite bind_eq. destruct (slice pk _ _); [|done]. cbn [mbind option_bind].
      rewrite deref_eq. unfold deref. by destruct (Lookup _ _).
    + by rewrite (proj2 (Z.ltb_lt _ _)) by lia.
Qed.

(** The packets of a list that are routed to [p]. *)
Definition routed (routes : AllowedIPs) (p : PeerPtr) (packets : list (list Z)) : list (list Z) :=
  filter (fun packet => packet_route routes packet = Some (Some p)) packets.

(** A grouping has one entry per peer with packets, with its packets in order. *)
Record grouped (routes : AllowedIPs) (packets : list (list Z))
    (m : list (PeerPtr * list QueueOutboundElement)) : Prop := {
  gr_nodup : NoDup m.*1;
  gr_keys p : p ∈ m.*1 <-> routed routes p packets <> [];
  gr_elems p es : (p, es) ∈ m -> es = map NewOutboundElement (routed routes p packets)
}.

Lemma group_add_keys p e m :
  (group_add p e m).*1 = if decide (p ∈ m.*1) then m.*1 else m.*1 ++ [p].
Proof.
  induction m as [|[q es] m IH]; [done|]. cbn [group_add fmap list_fmap fst].
  case_bool_decide as Hpq; cbn [fmap list_fmap fst].
  - subst q. by rewrite decide_True by left.
  - change (list_fmap _ _ fst) with (fmap (M := list) (A := PeerPtr * list QueueOutboundElement) fst).
    rewrite IH. destruct (decide (p ∈ m.*1)) as [Hin|Hin].
    + by rewrite decide_True by (by right).
    + rewrite decide_False; [done|]. by intros [?|?]%elem_of_cons.
Qed.

Lemma group_add_elems p e m q es :
  NoDup m.*1 -> (q, es) ∈ group_add p e m ->
  (q <> p /\ (q, es) ∈ m) \/
  (q = p /\ ((exists es0, (p, es0) ∈ m /\ es = es0 ++ [e]) \/ (p ∉ m.*1 /\ es = [e]))).
Proof.
  induction m as [|[r rs] m IH]; cbn [group_add fmap list_fmap fst]; intros Hm.
  - intros [= -> ->]%list_elem_of_singleton. right. split; [done|]. right. split; [apply not_elem_of_nil|done].
  - apply NoDup_cons in Hm as [Hr Hm]. case_bool_decide as Hpr; intros [Heq|Hin]%elem_of_cons.
    + injection Heq as -> ->. subst r. right. split; [done|]. left. exists rs. split; [by left|done].
    + left. subst r. split; [|by right]. intros ->. apply Hr. by apply (list_elem_of_fmap_2 fst _ _ Hin).
    + injection Heq as -> ->. left. split; [done|by left].
    + destruct (IH Hm Hin) as [[? ?]|[-> [(es0 & ? & ?)|[? ?]]]].
      * left. split; [done|by right].
      * right. split; [done|]. left. exists es0. split; [by right|done].
      * right. split; [done|]. right. split; [|done]. by intros [?|?]%elem_of_cons.
Qed.

Lemma routed_snoc routes p packets packet :
  routed routes p (packets ++ [packet]) =
  routed routes p packets ++ (if decide (packet_route routes packet = Some (Some p)) then [packet] else []).
Proof. unfold routed. rewrite filter_app, filter_cons, filter_nil. by case_decide. Qed.

Lemma grouped_skip routes packets packet m :
  grouped routes packets m -> (forall p, packet_route routes packet <> Some (Some p)) ->
  grouped routes (packets ++ [packet]) m.
Proof.
  intros [Hn Hk He] Hr. split; [done|intros p|intros p es]; rewrite routed_snoc, decide_False, app_nil_r by done; auto.
Qed.

Lemma grouped_add routes packets packet p m :
  grouped routes packets m -> packet_route routes packet = Some (Some p) ->
  grouped routes (packets ++ [packet]) (group_add p (NewOutboundElement packet) m).
Proof.
  intros [Hn Hk He] Hr. split.
  - rewrite group_add_keys. case_decide; [done|]. apply NoDup_app. split; [done|].
    split; [by intros x Hx ->%list_elem_of_singleton|apply NoDup_singleton].
  - intros q. rewrite routed_snoc, group_add_keys, Hr.
    destruct (decide (Some (Some p) = Some (Some q))) as [[= <-]|Hne].
    + split; [intros _ [_ ?]%app_nil; done|]. intros _. case_decide; [done|]. apply elem_of_app. right. by left.
    + rewrite app_nil_r, <- Hk. case_decide; [done|]. rewrite elem_of_app, list_elem_of_singleton. naive_solver.
  - intros q es Hin. rewrite routed_snoc, Hr, map_app.
    destruct (group_add_elems _ _ _ _ _ Hn Hin) as [[Hne Hm]|[-> [(es0 & Hm & ->)|[Hni ->]]]].
    + rewrite decide_False by congruence. cbn. rewrite app_nil_r. by apply He.
    + rewrite decide_True by done. by rewrite (He _ _ Hm).
    + rewrite decide_True by done. destruct (decide (routed routes p packets = [])) as [->|Hne]; [done|].
      by apply Hk in Hne.
Qed.

Lemma group_packets_grouped packets w don m m' w' :
  grouped (w_allowedips w) don m -> group_packets packets m w = Some (m', w') ->
  w' = w /\ grouped (w_allowedips w) (don ++ packets) m'.
Proof.
  revert don m. induction packets as [|packet packets IH]; intros don m Hm; cbn [group_packets].
  { intros [= <- <-]. by rewrite app_nil_r. }
  rewrite cons_middle, app_assoc. destruct (Z.ltb_spec (zlen packet) 1) as [Hl|Hl].
  - intros Hr. apply (IH _ m); [|done]. apply grouped_skip; [done|]. intros p.
    destruct packet; [done|]. unfold zlen in Hl. cbn in Hl. lia.
  - rewrite bind_eq, route_packet_eq by done. destruct (packet_route _ _) as [[p|]|] eqn:Er; [| |done]; cbv beta iota.
    + apply IH. by apply grouped_add.
    + apply IH. apply grouped_skip; [done|]. by rewrite Er.
Qed.

Lemma slice_lookup routes packet lo n :
  (forall ip, addr_len (length ip) -> is_bytes ip -> is_Some (Lookup routes ip)) ->
  0 <= lo /\ lo + n <= zlen packet -> addr_len (Z.to_nat n) -> is_bytes packet ->
  is_Some (dst ← slice packet lo (lo + n); Lookup routes dst).
Proof.
  intros Hl Hlen Hn Hb. assert (Hn' : 0 <= n) by (destruct Hn; unfold IPv4len, IPv6len in *; lia).
  unfold slice, zlen in *. rewrite decide_True by lia. cbn [mbind option_bind].
  apply Hl; [|by apply Forall_take, Forall_drop]. rewrite length_take, length_drop.
  replace (Z.to_nat (lo + n - lo)) with (Z.to_nat n) by lia. rewrite Nat.min_l by lia. done.
Qed.

Lemma group_packets_total packets m w :
  (forall ip, addr_len (length ip) -> is_bytes ip -> is_Some (Lookup (w_allowedips w) ip)) ->
  Forall is_bytes packets -> is_Some (group_packets packets m w).
Proof.
  intros Hl Hp. revert m. induction Hp as [|packet packets Hb Hp IH]; intros m; cbn [group_packets]; [by eexists|].
  destruct (Z.ltb_spec (zlen packet) 1) as [Hz|Hz]; [apply IH|]. rewrite bind_eq, route_packet_eq by done.
  assert (Hr : is_Some (packet_route (w_allowedips w) packet)).
  { unfold packet_route. destruct (byte_at packet 0) as [b|]; [|by eexists]. cbv zeta.
    destruct ((_ =? 4) && _) eqn:E4; [|destruct ((_ =? 6) && _) eqn:E6; [|by eexists]].
    - apply andb_true_iff in E4 as [_ E4]. apply slice_lookup; [done|unfold IPv4offsetDst, IPv4offsetSrc; lia|by left|done].
    - apply andb_true_iff in E6 as [_ E6]. apply slice_lookup; [done|unfold IPv6offsetDst, IPv6offsetSrc; lia|by right|done]. }
  destruct Hr as [[p|] ->]; apply IH.
Qed.

(** C23: cryptokey routing of sent packets. In any reachable state, the packets
    of one read from the TUN device are divided between the peers without
    failing: a peer gets exactly the packets whose destination the routing table
    maps to it, in the order they were read; packets that are routed nowhere go
    to no peer. *)
Theorem outbound_grouping packets w :
  reachable w -> Forall is_bytes packets ->
  exists m, group_packets packets [] w = Some (m, w) /\ NoDup m.*1 /\
  (forall p, p ∈ m.*1 <-> routed (w_allowedips w) p packets <> []) /\
  (forall p es, (p, es) ∈ m -> es = map NewOutboundElement (routed (w_allowedips w) p packets)).
Proof.
  intros Hw%reachable_conf Hb. destruct (co_routes _ Hw) as (rt & Hrt & _).
  destruct (group_packets_total packets [] w) as [[m w'] Hr]; [|done|].
  { intros ip Hl Hip. rewrite (Lookup_holds _ _ _ Hrt Hl Hip). by eexists. }
  destruct (group_packets_grouped packets w [] [] m w') as [-> []]; [|done|by exists m].
  split; [constructor| |]; cbn.
  - intros p. split; [by intros ?%elem_of_nil|done].
  - by intros p es ?%elem_of_nil.
Qed.

End routing.
