(* ===== verification/Nonces.v ===== *)
(** * Nonces

    The counters of the sessions: each packet takes the next one, they never
    go back over any run of the device, and none is used beyond the limit. *)

From stdpp Require Import base numbers list gmap relations.
From S2P Require Import Tai64n Replay Ratelimiter AllowedIPs.
From S2P Require Import Prelude Setters GoStrings Netip Env Crypto Messages Cookie NoiseTypes DeviceState Noise Timers PeerOps Send Receive Device Uapi System Frame DeviceFrame.

Open Scope Z_scope.

(** ** One container *)

(** The number of nonces left to a counter. *)
Definition nonces_left (n : Z) : nat := Z.to_nat (RejectAfterMessages - n).

Lemma u64_pred n : 0 <= n < 2 ^ 64 -> u64 (u64 (n + 1) - 1) = n.
Proof. unfold u64. intros Hn. zdm. Qed.

(** What [assign_nonces] does to a key pair with counter [n]: the first
    elements, as many as there are nonces left, take consecutive nonces. *)
Lemma assign_nonces_run p k l w kp :
  w_keypairs w !! k = Some kp -> 0 <= kp_sendNonce kp <= RejectAfterMessages ->
  let n := kp_sendNonce kp in
  let m := Nat.min (length l) (nonces_left n) in
  exists kept ooo w', assign_nonces p k l w = Some ((kept, ooo), w') /\
    w_keypairs w' = <[k := kp <| kp_sendNonce := n + Z.of_nat m |>]> (w_keypairs w) /\
    w_fresh w' = w_fresh w /\
    map oe_nonce kept = seqZ n (Z.of_nat m) /\
    map oe_packet kept = map oe_packet (take m l) /\
    Forall (fun e => oe_keypair e = Some k /\ oe_peer e = Some p) kept /\
    map oe_packet ooo = map oe_packet (drop m l).
Proof.
  revert w kp. induction l as [|e l IH]; intros w kp Hk Hn; cbn [assign_nonces].
  { exists [], [], w. cbn. rewrite Z.add_0_r. split_and!; try done.
    symmetry. apply insert_id. rewrite Hk. by destruct kp. }
  assert (HR : RejectAfterMessages = 2 ^ 64 - 2 ^ 13 - 1) by done.
  rewrite bind_eq, (keypair_eq _ _ _ Hk). cbv beta iota zeta. rewrite bind_eq, (set_keypair_eq _ _ _ _ Hk). cbv beta iota.
  rewrite u64_pred by lia. set (n := kp_sendNonce kp) in *.
  destruct (n >=? RejectAfterMessages) eqn:Ec.
  - assert (n = RejectAfterMessages) as Hnr by lia.
    pose (w1 := w <| w_keypairs ::= <[k := kp <| kp_sendNonce := u64 (n + 1) |>]> |>).
    assert (H1 : w_keypairs w1 !! k = Some (kp <| kp_sendNonce := u64 (n + 1) |>)) by apply lookup_insert_eq.
    fold w1. rewrite bind_eq, (set_keypair_eq _ _ _ _ H1). cbv beta iota.
    change (kp <| kp_sendNonce := u64 (n + 1) |> <| kp_sendNonce := RejectAfterMessages |>)
      with (kp <| kp_sendNonce := RejectAfterMessages |>).
    pose (kp2 := kp <| kp_sendNonce := RejectAfterMessages |>).
    destruct (IH (w1 <| w_keypairs ::= <[k := kp2]> |>) kp2) as (kept & ooo & w' & E & Ek & Ef & Hs & Hp & Hf & Ho);
      [apply lookup_insert_eq | cbn; lia |].
    fold kp2. rewrite bind_eq, E. cbv beta iota. clear E.
    assert (Hz : nonces_left n = 0%nat) by (unfold nonces_left; lia).
    change (kp_sendNonce kp2) with RejectAfterMessages in *.
    rewrite <- Hnr in Ek, Hs, Hp, Ho. rewrite Hz, Nat.min_0_r in *.
    eexists _, _, _. split; [reflexivity|]. rewrite Ek. cbn. rewrite !insert_insert_eq, Ho.
    unfold kp2. rewrite <- Hnr. cbn. by destruct kept.
  - assert (n < RejectAfterMessages) as Hlt by lia.
    rewrite u64_small by (unfold is_u64; lia). pose (kp2 := kp <| kp_sendNonce := n + 1 |>).
    destruct (IH (w <| w_keypairs ::= <[k := kp2]> |>) kp2) as (kept & ooo & w' & E & Ek & Ef & Hs & Hp & Hf & Ho);
      [apply lookup_insert_eq | cbn; lia |].
    change (kp_sendNonce kp2) with (n + 1) in *.
    set (m := Nat.min (length l) (nonces_left (n + 1))) in *.
    assert (Hm : Nat.min (length (e :: l)) (nonces_left n) = S m).
    { unfold m, nonces_left. cbn [length]. lia. }
    fold kp2. rewrite Hm, bind_eq, E. cbv beta iota. eexists _, _, _. split; [reflexivity|].
    rewrite Ek. cbn. rewrite insert_insert_eq. unfold kp2. cbn. split_and!; try done.
    + by replace (n + 1 + Z.of_nat m) with (n + Z.of_nat (S m)) by lia.
    + rewrite Hs, (seqZ_cons n) by lia. f_equal. f_equal; lia.
    + by f_equal.
    + by constructor.
Qed.

(** ** Over a run *)

(** Every counter is within the limit, and every key pair is older than the
    next allocation. *)
Definition nonces_ok (w : World) : Prop :=
  forall k kp, w_keypairs w !! k = Some kp ->
    (k < w_fresh w)%nat /\ 0 <= kp_sendNonce kp <= RejectAfterMessages.

(** No key pair disappears and no counter goes back. *)
Definition nonces_le (w w' : World) : Prop :=
  forall k kp, w_keypairs w !! k = Some kp ->
    exists kp', w_keypairs w' !! k = Some kp' /\ kp_sendNonce kp <= kp_sendNonce kp' /\
      kp_send kp' = kp_send kp.

Definition keeps_nonces (w w' : World) : Prop := nonces_ok w -> nonces_ok w' /\ nonces_le w w'.

#[local] Instance keeps_nonces_pre : PreOrder keeps_nonces.
Proof.
  split.
  - intros w Hw. split; [done|]. intros k kp Hk. exists kp. split_and!; done || lia.
  - intros a b c H1 H2 Ha. destruct (H1 Ha) as [Hb Hab]. destruct (H2 Hb) as [Hc Hbc]. split; [done|].
    intros k kp Hk. destruct (Hab _ _ Hk) as (kp1 & Hk1 & ? & ?). destruct (Hbc _ _ Hk1) as (kp2 & ? & ? & ?).
    exists kp2. split_and!; [done|lia|congruence].
Qed.

Lemma nonces_same w w' :
  w_keypairs w' = w_keypairs w -> (w_fresh w <= w_fresh w')%nat -> keeps_nonces w w'.
Proof.
  intros Ek Ef Hw. split.
  - intros k kp. rewrite Ek. intros Hk. destruct (Hw _ _ Hk). split; [lia|done].
  - intros k kp Hk. exists kp. rewrite Ek. split_and!; done || lia.
Qed.

(** A key pair is replaced by one with a later counter. *)
Lemma nonces_set w w' k kp kp' :
  w_keypairs w !! k = Some kp -> w_keypairs w' = <[k := kp']> (w_keypairs w) -> w_fresh w' = w_fresh w ->
  kp_sendNonce kp <= kp_sendNonce kp' -> kp_sendNonce kp' <= RejectAfterMessages -> kp_send kp' = kp_send kp ->
  keeps_nonces w w'.
Proof.
  intros Hk Ek Ef Hle Hr Hs Hw. destruct (Hw _ _ Hk) as [Hkf Hkn]. split; intros k1 kp1.
  - rewrite Ek, Ef. intros [[<- <-]|[Hne Hk1]]%lookup_insert_Some; [split; [done|lia]|by apply Hw].
  - intros Hk1. rewrite Ek. destruct (decide (k = k1)) as [<-|Hne].
    + exists kp'. rewrite lookup_insert_eq. rewrite Hk in Hk1. injection Hk1 as <-. done.
    + exists kp1. rewrite lookup_insert_ne by done. split_and!; done || lia.
Qed.

(** The nonces of a batch lie between the counters before and after it. *)
Lemma assigned_range p k l w kept ooo w' :
  nonces_ok w -> assign_nonces p k l w = Some ((kept, ooo), w') ->
  keeps_nonces w w' /\
  (kept = [] \/ exists kp kp' m, w_keypairs w !! k = Some kp /\ w_keypairs w' !! k = Some kp' /\
     map oe_nonce kept = seqZ (kp_sendNonce kp) m /\ kp_sendNonce kp' = kp_sendNonce kp + m).
Proof.
  intros Hw Hr. destruct l as [|e l]; [injection Hr as <- <- <-; split; [reflexivity|by left]|].
  destruct (w_keypairs w !! k) as [kp|] eqn:Hk.
  2: { cbn [assign_nonces] in Hr. apply bind_inv in Hr as (? & ? & [? _]%deref_inv & _). congruence. }
  destruct (Hw _ _ Hk) as [Hf Hn].
  destruct (assign_nonces_run p k (e :: l) w kp Hk Hn) as (? & ? & ? & E & Ek & Ef & Hs & _). cbv zeta in Ek, Hs.
  rewrite E in Hr. injection Hr as -> -> ->. clear E.
  assert (Hm : (Nat.min (length (e :: l)) (nonces_left (kp_sendNonce kp)) <= nonces_left (kp_sendNonce kp))%nat) by lia.
  generalize dependent (Nat.min (length (e :: l)) (nonces_left (kp_sendNonce kp))). intros m Ek Hs Hm.
  unfold nonces_left in Hm. split; [by eapply nonces_set; [done|exact Ek|exact Ef|cbn; lia|cbn; lia|]|].
  right. eexists kp, _, _. split_and!; [done|rewrite Ek; apply lookup_insert_eq|exact Hs|done].
Qed.

Lemma assigned_below p k l w kept ooo w' :
  nonces_ok w -> assign_nonces p k l w = Some ((kept, ooo), w') ->
  Forall (fun e => 0 <= oe_nonce e < RejectAfterMessages) kept.
Proof.
  intros Hw Hr. destruct (assigned_range _ _ _ _ _ _ _ Hw Hr) as [Hw' [->|(kp & kp' & m & Hk & Hk' & Hs & Em)]]; [done|].
  destruct (Hw _ _ Hk), (proj1 (Hw' Hw) _ _ Hk'). apply Forall_forall. intros e He.
  assert (Hin : oe_nonce e ∈ map oe_nonce kept) by (by apply list_elem_of_fmap_2).
  rewrite Hs in Hin. apply elem_of_seqZ in Hin. lia.
Qed.

Lemma nonces_assign p k l : pres keeps_nonces (assign_nonces p k l).
Proof. intros w [kept ooo] w' Hr Hw. by apply (proj1 (assigned_range _ _ _ _ _ _ _ Hw Hr)). Qed.

#[local] Instance nonces_frame : Frame keeps_nonces.
Proof.
  split; intros; try (by apply pres_modify; intros w; apply nonces_same).
  - apply keeps_nonces_pre.
  - intros w a w'. unfold env. destruct (m _) as [[x e]|]; [|done]. intros [= <- <-]. by apply nonces_same.
  - intros w a w' [= <- <-]. by apply nonces_same.
  - intros w a w'. unfold set_peer. destruct (w_peers w !! p); [|done]. intros [= <- <-]. by apply nonces_same.
  - apply nonces_assign.
  - intros w a w'. unfold set_keypair. destruct (w_keypairs w !! k) as [kp|] eqn:Hk; [|done]. intros [= <- <-].
    intros Hw. destruct (Hw _ _ Hk). revert Hw. by eapply nonces_set; [done|reflexivity|done|cbn; lia| |].
  - intros w a w' [= <- <-] Hw.
    assert (Hnew : w_keypairs w !! w_fresh w = None).
    { apply eq_None_not_Some. intros [kp Hk]. destruct (Hw _ _ Hk). lia. }
    split; intros k1 kp1; cbn [w_keypairs w_fresh set].
    + intros [[<- <-]|[Hne Hk1]]%lookup_insert_Some; [split; [lia|done]|].
      destruct (Hw _ _ Hk1). split; [lia|done].
    + intros Hk1. exists kp1. rewrite lookup_insert_ne by congruence. split_and!; done || lia.
  - intros w a w' [= <- <-]. by apply nonces_same.
  - intros w a w' [= <- <-]. apply nonces_same; cbn; done || lia.
Qed.


Lemma nonces_write f : (forall w, w_keypairs (f w) = w_keypairs w /\ w_fresh (f w) = w_fresh w) ->
  pres keeps_nonces (modify f).
Proof. intros Hf. apply pres_modify. intros w. destruct (Hf w) as (? & E). apply nonces_same; by rewrite ?E. Qed.

#[local] Instance nonces_quiet_frame : QuietFrame keeps_nonces.
Proof.
  split; intros; try (by apply nonces_write).
  - apply _.
  - apply nonces_write. intros w. by destruct (H w) as (? & ? & _).
  - intros w a w'. unfold set_keypair. destruct (w_keypairs w !! k) as [kp|] eqn:Hk; [|done]. intros [= <- <-] Hw.
    destruct (Hw _ _ Hk). revert Hw. by eapply nonces_set; [done|reflexivity|done|cbn; lia|cbn; lia|].
Qed.

Section nonces.
Context {CR : Crypto} {EP : Endpoints}.

#[local] Instance nonces_config_frame : ConfigFrame keeps_nonces.
Proof. split; [apply _|..]; intros; by apply nonces_write. Qed.

#[local] Instance nonces_system_frame : SystemFrame keeps_nonces.
Proof. apply config_system_frame; [apply _|]. intros s. by apply nonces_write. Qed.

Lemma reachable_nonces w : reachable w -> nonces_ok w.
Proof.
  intros (mtu & out & w0 & [= <-] & Hr). apply (sf_rtc keeps_nonces _ _ Hr).
  intros k kp Hk. cbn in Hk. by rewrite lookup_empty in Hk.
Qed.

(** ** Properties *)

(** The sending counters of sessions only move forward. Along any run of a
    device, no session is forgotten, its sending key stays the same, and its
    counter never decreases and never exceeds [RejectAfterMessages]. *)
Theorem send_nonces_monotone w w' k kp :
  reachable w -> rtc step w w' -> w_keypairs w !! k = Some kp ->
  exists kp', w_keypairs w' !! k = Some kp' /\ kp_send kp' = kp_send kp /\
    0 <= kp_sendNonce kp <= kp_sendNonce kp' /\ kp_sendNonce kp' <= RejectAfterMessages.
Proof.
  intros Hw%reachable_nonces Hr Hk. destruct (sf_rtc keeps_nonces _ _ Hr Hw) as [Hw' Hle].
  destruct (Hle _ _ Hk) as (kp' & Hk' & ? & ?). exists kp'. destruct (Hw _ _ Hk). destruct (Hw' _ _ Hk'). split_and!; done || lia.
Qed.

(** C5: no nonce is used twice. Two batches of packets that are given nonces of
    the same session in a run, the second at any later point, get different
    nonces throughout, all below [RejectAfterMessages]. *)
Theorem assigned_nonces_fresh w p k l kept ooo w1 w2 q l' kept' ooo' w3 :
  reachable w -> assign_nonces p k l w = Some ((kept, ooo), w1) -> rtc step w1 w2 ->
  assign_nonces q k l' w2 = Some ((kept', ooo'), w3) ->
  NoDup (map oe_nonce kept ++ map oe_nonce kept') /\
  Forall (fun e => 0 <= oe_nonce e < RejectAfterMessages) (kept ++ kept').
Proof.
  intros Hw%reachable_nonces H1 Hr H2.
  destruct (assigned_range _ _ _ _ _ _ _ Hw H1) as [Hw1 C1]. destruct (Hw1 Hw) as [Hok1 _].
  destruct (sf_rtc keeps_nonces _ _ Hr Hok1) as [Hok2 Hle].
  destruct (assigned_range _ _ _ _ _ _ _ Hok2 H2) as [Hw3 C2]. destruct (Hw3 Hok2) as [Hok3 _].
  split.
  - destruct C1 as [->|(kp & kp1 & m & Hk & Hk1 & -> & E1)], C2 as [->|(kp2 & kp3 & m' & Hk2 & Hk3 & -> & E3)];
      cbn [map app]; rewrite ?app_nil_r; try apply NoDup_seqZ; [constructor|].
    apply NoDup_app. split; [apply NoDup_seqZ|]. split; [|apply NoDup_seqZ].
    intros x Hx%elem_of_seqZ Hx'%elem_of_seqZ. destruct (Hle _ _ Hk1) as (kp2' & Hk2' & Hle' & _).
    rewrite Hk2 in Hk2'. injection Hk2' as <-. lia.
  - apply Forall_app. split; [exact (assigned_below _ _ _ _ _ _ _ Hw H1)|exact (assigned_below _ _ _ _ _ _ _ Hok2 H2)].
Qed.

End nonces.
