(* ===== verification/Transport.v ===== *)
(** * Transport messages

    Padding, and the way of one packet: encrypted under the sending key of a
    session, decrypted under the receiving key of the session at the other
    end, cut to the length its IP header declares. *)

From stdpp Require Import base numbers list gmap.
From S2P Require Import Tai64n Replay Ratelimiter AllowedIPs.
From S2P Require Import Prelude Setters GoStrings Env Crypto Messages Cookie DeviceState Noise Timers PeerOps Send Receive Frame DeviceFrame Delivery.

Open Scope Z_scope.

(** ** Padding *)

Lemma round_up_spec n : round_up n = 16 * ((n + 15) / 16).
Proof.
  unfold round_up. change PaddingMultiple with 16. rewrite <- Z.ldiff_land.
  change (16 - 1) with (Z.ones 4). rewrite Z.ldiff_ones_r, Z.shiftl_mul_pow2, Z.shiftr_div_pow2 by lia.
  change (2 ^ 4) with 16. replace (n + 16 - 1) with (n + 15) by lia. lia.
Qed.

Lemma round_up_bounds n : n <= round_up n < n + 16 /\ round_up n mod 16 = 0.
Proof.
  rewrite round_up_spec. split; [zdm|]. rewrite Z.mul_comm. by apply Z_mod_mult.
Qed.

(** The part of a packet after the last full MTU. *)
Definition last_unit (packetSize mtu : Z) : Z :=
  if packetSize >? mtu then packetSize mod mtu else packetSize.

Lemma padding_cases size mtu :
  0 <= size -> 0 < mtu ->
  calculatePaddingSize size mtu = Z.min (round_up (last_unit size mtu)) mtu - last_unit size mtu.
Proof.
  intros Hs Hm. unfold calculatePaddingSize, last_unit. rewrite (proj2 (Z.eqb_neq mtu 0)) by lia.
  rewrite Z.rem_mod_nonneg by lia. cbv zeta. destruct (_ >? mtu) eqn:E at 1; destruct (_ >? mtu) eqn:E'; lia.
Qed.

Lemma last_unit_bounds size mtu : 0 <= size -> 0 < mtu -> 0 <= last_unit size mtu <= mtu.
Proof.
  intros Hs Hm. unfold last_unit. destruct (size >? mtu) eqn:E; [|lia].
  pose proof (Z.mod_pos_bound size mtu Hm). lia.
Qed.

Lemma padding_bounds size mtu : 0 <= size -> 0 <= mtu -> 0 <= calculatePaddingSize size mtu < 16.
Proof.
  intros Hs Hm. destruct (decide (mtu = 0)) as [->|Hne].
  - unfold calculatePaddingSize. cbn. pose proof (round_up_bounds size). lia.
  - rewrite padding_cases by lia. pose proof (round_up_bounds (last_unit size mtu)).
    pose proof (last_unit_bounds size mtu). lia.
Qed.

(** The padding is between 0 and 15 bytes. A packet of at most the
    MTU stays within it, and the part after the last full MTU is filled up to
    a multiple of 16 unless the MTU cuts it short. *)
Theorem calculatePaddingSize_spec size mtu :
  0 <= size -> 0 <= mtu ->
  let pad := calculatePaddingSize size mtu in
  0 <= pad < 16 /\
  (mtu = 0 -> (size + pad) mod 16 = 0) /\
  (0 < mtu -> (last_unit size mtu + pad) mod 16 = 0 \/ last_unit size mtu + pad = mtu) /\
  (0 < mtu -> size <= mtu -> size + pad <= mtu).
Proof.
  intros Hs Hm pad. split; [by apply padding_bounds|]. unfold pad. split; [|split].
  - intros ->. unfold calculatePaddingSize. cbn. rewrite Zplus_minus. apply round_up_bounds.
  - intros Hm'. rewrite padding_cases by done. rewrite Zplus_minus. pose proof (round_up_bounds (last_unit size mtu)).
    destruct (Z.min_spec (round_up (last_unit size mtu)) mtu) as [[? ->]|[? ->]]; [left|right]; tauto.
  - intros Hm' Hle. rewrite padding_cases by done. unfold last_unit.
    destruct (size >? mtu) eqn:E; lia.
Qed.

(** ** One packet *)

Section transport.
Context {CR : Crypto} {CL : CryptoLaws}.

(** A packet whose IP header declares its length. *)
Definition ip_packet (packet : list Z) : Prop :=
  exists b, byte_at packet 0 = Some b /\
    ((Z.shiftr b 4 = 4 /\ 20 <= zlen packet /\
        (slice packet 2 4 ≫= be_get 2) = Some (zlen packet)) \/
     (Z.shiftr b 4 = 6 /\ 40 <= zlen packet < 2 ^ 16 /\
        (slice packet 4 6 ≫= be_get 2) = Some (zlen packet - 40))).

Lemma slice_app_l (a b : list Z) lo hi : hi <= zlen a -> slice (a ++ b) lo hi = slice a lo hi.
Proof.
  intros Hh. unfold slice, zlen in *. destruct (decide (0 <= lo <= hi /\ hi <= Z.of_nat (length a))).
  - rewrite decide_True by (rewrite length_app; lia). f_equal. rewrite drop_app_le by lia. apply take_app_le.
    rewrite length_drop. lia.
  - rewrite decide_False by lia. done.
Qed.

Lemma slice_app_r (a b : list Z) : slice (a ++ b) (zlen a) (zlen (a ++ b)) = Some b.
Proof.
  unfold slice, zlen. rewrite length_app, decide_True by lia. f_equal.
  rewrite Nat2Z.id, drop_app_length, take_ge; [done|]. lia.
Qed.

Lemma byte_at_app (a b : list Z) i x : byte_at a i = Some x -> byte_at (a ++ b) i = Some x.
Proof. unfold byte_at. case_decide; [|done]. by apply lookup_app_l_Some. Qed.

(** Cutting the padding off. *)
Lemma check_packet_padded p packet pad src w :
  ip_packet packet -> packet_source packet = Some src -> Lookup (w_allowedips w) src = Some (Some p) ->
  check_packet p (packet ++ pad) w = Some (Some packet, w).
Proof.
  intros (b & Hb & Hip) Hs Hl. unfold check_packet, packet_source in *.
  rewrite Hb in Hs. cbn [mbind option_bind] in Hs. rewrite (byte_at_app _ _ _ _ Hb). st. cbv zeta.
  assert (Hz : zlen packet <= zlen (packet ++ pad)) by (unfold zlen; rewrite length_app; lia).
  assert (Hcut : slice (packet ++ pad) 0 (zlen packet) = Some packet).
  { rewrite slice_app_l by lia. unfold slice, zlen. rewrite decide_True by lia. f_equal.
    by rewrite drop_0, take_ge by lia. }
  destruct Hip as [(Hv & Hlen & Hf)|(Hv & Hlen & Hf)]; rewrite Hv in Hs |- *; cbn [Z.eqb Pos.eqb] in Hs |- *.
  - rewrite (proj2 (Z.ltb_ge _ 20)) by lia. unfold IPv4offsetTotalLength, IPv4offsetSrc in *.
    rewrite (slice_app_l packet pad) by lia. change (2 + 2) with 4.
    destruct (slice packet 2 4) as [f|]; [|done]. cbn [mbind option_bind] in Hf. st. rewrite Hf. st.
    replace ((zlen packet >? zlen (packet ++ pad)) || (zlen packet <? 20)) with false by lia.
    rewrite Hcut. st. rewrite Hs. st. rewrite Hl. st. by rewrite bool_decide_eq_true_2.
  - rewrite (proj2 (Z.ltb_ge _ 40)) by lia. unfold IPv6offsetPayloadLength, IPv6offsetSrc in *.
    rewrite (slice_app_l packet pad 4) by lia. change (4 + 2) with 6.
    destruct (slice packet 4 6) as [f|]; [|done]. cbn [mbind option_bind] in Hf. st. rewrite Hf. st.
    replace (u16 (zlen packet - 40 + 40)) with (zlen packet) by (unfold u16; zdm).
    replace (zlen packet >? zlen (packet ++ pad)) with false by lia.
    rewrite Hcut. st. rewrite slice_app_l by lia. rewrite Hs. st. rewrite Hl. st. by rewrite bool_decide_eq_true_2.
Qed.

(** Encryption never fails on a session that exists, and adds a header and at
    most 15 zero bytes. *)
Lemma encrypt_elem_run mtu packet n k q w kp :
  w_keypairs w !! k = Some kp -> 0 <= mtu ->
  let pad := zeros (Z.to_nat (calculatePaddingSize (zlen packet) mtu)) in
  encrypt_elem mtu (mkOutElem packet n (Some k) q) w =
    Some (mkOutElem (transport_header (kp_remoteIndex kp) n ++
      Seal (kp_send kp) (nonce_bytes n) (packet ++ pad) []) n (Some k) q, w).
Proof.
  intros Hk Hm pad. unfold encrypt_elem. cbn [oe_keypair oe_packet oe_nonce oe_peer]. st.
  rewrite (keypair_eq _ _ _ Hk). cbv beta iota.
  assert (Hz : 0 <= zlen packet) by (unfold zlen; lia).
  pose proof (padding_bounds (zlen packet) mtu Hz Hm) as Hp.
  assert (Hs : slice (zeros (Z.to_nat PaddingMultiple)) 0 (calculatePaddingSize (zlen packet) mtu) = Some pad).
  { unfold slice, pad, zeros. change (Z.to_nat PaddingMultiple) with 16%nat.
    rewrite length_replicate, decide_True by lia. f_equal. rewrite Z.sub_0_r, drop_0, take_replicate.
    f_equal. lia. }
  rewrite Hs. st. done.
Qed.

Lemma length_transport_header r n : length (transport_header r n) = 16%nat.
Proof. unfold transport_header. rewrite !length_app, !length_le_put. done. Qed.

(** The receiver reads the header back. *)
Lemma transport_header_counter r n body :
  is_u64 n -> let packet := transport_header r n ++ body in
  (slice packet (Z.of_nat MessageTransportOffsetCounter) (Z.of_nat MessageTransportOffsetContent) ≫= le_get 8)
    = Some n.
Proof.
  intros Hn packet. unfold packet. rewrite slice_app_l by (unfold zlen; by rewrite length_transport_header).
  unfold slice. rewrite decide_True by (by rewrite length_transport_header). cbn [mbind option_bind].
  replace (take _ _) with (le_put 8 n).
  { rewrite <- (app_nil_r (le_put 8 n)). by apply le_get_app. }
  unfold transport_header. rewrite app_assoc.
  rewrite drop_app_length' by (rewrite length_app, !length_le_put; done).
  by rewrite take_ge by (by rewrite length_le_put).
Qed.

Lemma decrypt_elem_run r n key plain k kp ep w :
  is_u64 n -> w_keypairs w !! k = Some kp -> kp_receive kp = key ->
  let packet := transport_header r n ++ Seal key (nonce_bytes n) plain [] in
  decrypt_elem (mkInElem packet (Some packet) 0 (Some k) ep) w =
    Some (mkInElem (copy_at packet MessageTransportOffsetContent plain) (Some plain) n (Some k) ep, w).
Proof.
  intros Hn Hk Hkey packet. unfold decrypt_elem. cbn [ie_packet ie_keypair ie_buffer ie_endpoint]. st.
  pose proof (transport_header_counter r n (Seal key (nonce_bytes n) plain []) Hn) as Hc. cbv zeta in Hc.
  fold packet in Hc. destruct (slice packet _ _) as [f|]; [|done]. cbn [mbind option_bind] in Hc. st.
  assert (Hs : slice packet (Z.of_nat MessageTransportOffsetContent) (zlen packet) =
    Some (Seal key (nonce_bytes n) plain [])).
  { pose proof (slice_app_r (transport_header r n) (Seal key (nonce_bytes n) plain [])) as H.
    unfold zlen in H at 1. rewrite length_transport_header in H. exact H. }
  rewrite Hs. st. rewrite Hc. st. rewrite (keypair_eq _ _ _ Hk). cbv beta iota. by rewrite Hkey, Open_Seal.
Qed.

(** C8: a packet survives the tunnel. An IP packet encrypted with any nonce
    under a session, and decrypted under a session whose receiving key is the
    sending key of the first, is handed on unchanged, padding removed, with
    its nonce as the counter, when its source is routed to the peer. The
    message names the session of the receiver and its plaintext is padded by
    at most 15 bytes. *)
Theorem transport_roundtrip mtu packet n k q w kp p src k' ep v kp' :
  0 <= mtu -> is_u64 n -> ip_packet packet -> w_keypairs w !! k = Some kp -> is_u32 (kp_remoteIndex kp) ->
  w_keypairs v !! k' = Some kp' -> kp_receive kp' = kp_send kp ->
  packet_source packet = Some src -> Lookup (w_allowedips v) src = Some (Some p) ->
  exists msg,
    encrypt_elem mtu (mkOutElem packet n (Some k) q) w = Some (mkOutElem msg n (Some k) q, w) /\
    zlen packet + 32 <= zlen msg < zlen packet + 48 /\
    le_get 4 msg = Some MessageTransportType /\ le_get 4 (drop 4 msg) = Some (kp_remoteIndex kp) /\
    exists elem plain,
      decrypt_elem (mkInElem msg (Some msg) 0 (Some k') ep) v = Some (elem, v) /\
      ie_counter elem = n /\ ie_packet elem = Some plain /\
      check_packet p plain v = Some (Some packet, v).
Proof.
  intros Hm Hn Hip Hk Hri Hk' Hkey Hs Hl. rewrite (encrypt_elem_run _ _ _ _ _ _ _ Hk Hm).
  assert (Hz : 0 <= zlen packet) by (unfold zlen; lia).
  pose proof (padding_bounds (zlen packet) mtu Hz Hm) as Hp.
  set (pad := zeros _). eexists. split; [reflexivity|]. split.
  { unfold zlen in *. rewrite length_app, length_transport_header, Seal_len, length_app. unfold pad, zeros.
    rewrite length_replicate. unfold TagSize. lia. }
  unfold transport_header at 1 2. rewrite <- !app_assoc.
  split; [by apply le_get_app|]. rewrite drop_app_length' by (by rewrite length_le_put).
  split; [by apply le_get_app|]. eexists _, _. split; [by apply (decrypt_elem_run _ _ _ _ _ kp')|].
  split; [done|]. split; [done|]. by eapply check_packet_padded.
Qed.

End transport.
