(* ===== verification/Staging.v ===== *)
(** * Queues and loops of the outbound path

    The loops over the staged packets of a peer, with what the rest of their fuel
    changes; the rate of handshake initiations; what is left of a peer that is
    stopped. *)

From stdpp Require Import base numbers list gmap.
From S2P Require Import Tai64n Replay Ratelimiter AllowedIPs.
From S2P Require Import Prelude Setters GoStrings Env Crypto Messages Cookie DeviceState Noise Timers PeerOps Send Frame DeviceFrame Nonces.

Open Scope Z_scope.

#[global] Arguments QueueStagedSize : simpl never.

(** ** Staging *)

(** The queue after a container was staged: the oldest ones make room. *)
Definition stage (q : list ContainerPtr) (c : ContainerPtr) : list ContainerPtr :=
  drop (S (length q) - QueueStagedSize) q ++ [c].

Lemma stage_loop_run fuel p c w pe :
  w_peers w !! p = Some pe -> (S (length (p_staged pe)) - QueueStagedSize < fuel)%nat ->
  exists w', stage_loop fuel p c w = Some (tt, w') /\
    w_peers w' = <[p := pe <| p_staged := stage (p_staged pe) c |>]> (w_peers w) /\
    w_keypairs w' = w_keypairs w.
Proof.
  assert (HQ : (1 <= QueueStagedSize)%nat) by (unfold QueueStagedSize; lia).
  revert w pe. induction fuel as [|fuel IH]; intros w pe Hp Hf; [lia|]. cbn [stage_loop].
  rewrite bind_eq, (peer_eq _ _ _ Hp). cbv beta iota. unfold chan_send. case_decide as Hq.
  - rewrite (set_peer_eq _ _ _ _ Hp). eexists. split; [done|]. split; [|done]. cbn [w_peers set]. unfold stage.
    replace (S (length (p_staged pe)) - QueueStagedSize)%nat with 0%nat by lia. by rewrite drop_0.
  - destruct (p_staged pe) as [|old q] eqn:Eq; [cbn in Hq; lia|]. rewrite bind_eq, bind_eq.
    rewrite (set_peer_eq _ _ _ _ Hp). cbv beta iota. unfold PutOutboundElementsContainer. rewrite modify_eq. cbv beta iota.
    set (pe1 := pe <| p_staged := q |>). set (w1 := _ <| w_outs ::= _ |>).
    destruct (IH w1 pe1) as (w' & Hr & Hw' & Hk'); [apply lookup_insert_eq|cbn in *; lia|].
    exists w'. split; [exact Hr|]. split; [|exact Hk']. rewrite Hw'. cbn [w1 w_peers set]. rewrite insert_insert_eq.
    f_equal. unfold pe1, stage. cbn [p_staged set length]. cbn [length] in Hq.
    by replace (S (S (length q)) - QueueStagedSize)%nat with (S (S (length q) - QueueStagedSize)) by lia.
Qed.

(** Staging ends and keeps the newest packets. On a peer that exists,
    [StagePackets] returns, and the staged queue is the old one with the new
    container at its end, without the oldest containers when the queue was
    full; no queue that respects its capacity ever exceeds it. *)
Theorem StagePackets_total p c w pe :
  w_peers w !! p = Some pe ->
  exists w', StagePackets p c w = Some (tt, w') /\
    w_peers w' = <[p := pe <| p_staged := stage (p_staged pe) c |>]> (w_peers w) /\
    (length (stage (p_staged pe) c) <= QueueStagedSize)%nat.
Proof.
  intros Hp. assert (HQ : (1 <= QueueStagedSize)%nat) by (unfold QueueStagedSize; lia).
  destruct (stage_loop_run (S (length (p_staged pe))) p c w pe Hp ltac:(lia)) as (w' & Hr & Hw' & _).
  exists w'. unfold StagePackets. rewrite Hp. split; [done|]. split; [done|].
  unfold stage. rewrite length_app, length_drop. cbn [length]. lia.
Qed.

(** ** Flushing *)

Lemma flush_staged_run fuel p w pe :
  w_peers w !! p = Some pe -> (length (p_staged pe) < fuel)%nat ->
  exists w', flush_staged fuel p w = Some (tt, w') /\
    w_peers w' = <[p := pe <| p_staged := [] |>]> (w_peers w) /\
    w_outs w' = foldl (fun m c => delete c m) (w_outs w) (p_staged pe) /\
    w_indexTable w' = w_indexTable w.
Proof.
  revert w pe. induction fuel as [|fuel IH]; intros w pe Hp Hf; [lia|]. cbn [flush_staged].
  rewrite bind_eq, (peer_eq _ _ _ Hp). cbv beta iota. destruct (p_staged pe) as [|c q] eqn:Eq.
  - exists w. split; [done|]. split; [|done]. symmetry. apply insert_id. rewrite Hp. f_equal. destruct pe. by cbn in *; subst.
  - rewrite bind_eq, (set_peer_eq _ _ _ _ Hp). cbv beta iota. unfold PutOutboundElementsContainer.
    rewrite bind_eq, modify_eq. cbv beta iota. set (pe1 := pe <| p_staged := q |>). set (w1 := _ <| w_outs ::= _ |>).
    destruct (IH w1 pe1) as (w' & Hr & Hw' & Ho & Ht); [apply lookup_insert_eq|cbn in *; lia|].
    exists w'. split; [exact Hr|]. rewrite Hw', Ho, Ht. cbn [w1 w_peers w_outs set]. by rewrite insert_insert_eq.
Qed.

(** ** Sending what is staged *)

Definition same_peers (w w' : World) : Prop := w_peers w' = w_peers w.

#[local] Instance same_peers_pre : PreOrder same_peers.
Proof. split; [done|]. intros a b c. unfold same_peers. congruence. Qed.

Lemma assign_nonces_peers p k l w r w' : assign_nonces p k l w = Some (r, w') -> w_peers w' = w_peers w.
Proof.
  apply (assign_nonces_pres same_peers). intros n v a v'. unfold set_keypair.
  destruct (w_keypairs v !! k); [|done]. by intros [= <- <-].
Qed.

(** The peer [p] with its key pairs [ks] and the counter [n] of [k]. *)
Definition sending (p : PeerPtr) (k : KeypairPtr) (ks : Keypairs) (q : list ContainerPtr) (n : Z) (w : World) : Prop :=
  (exists pe, w_peers w !! p = Some pe /\ p_keypairs pe = ks /\ p_staged pe = q) /\
  (exists kp, w_keypairs w !! k = Some kp /\ kp_sendNonce kp = n) /\ 0 <= n <= RejectAfterMessages.

Lemma queue_container_sending p k ks q n c w w' :
  queue_container p c w = Some (tt, w') -> sending p k ks q n w -> sending p k ks q n w'.
Proof.
  intros Hr [(pe & Hp & Hks & Hq) Hk]. unfold queue_container in Hr. rewrite bind_eq, (peer_eq _ _ _ Hp) in Hr.
  cbv beta iota in Hr. deref_step Hr q1 E1. rewrite bind_eq, (set_peer_eq _ _ _ _ Hp) in Hr. cbv beta iota in Hr.
  rewrite bind_eq, get_eq in Hr. cbv beta iota in Hr. deref_step Hr q2 E2. injection Hr as <-.
  split; [|done]. eexists. split; [apply lookup_insert_eq|]. done.
Qed.

(** One container: either the staged queue is the same, or the nonces are used
    up and the loop starts again. *)
Lemma send_container_sending p k ks q n c w top w' :
  sending p k ks q n w -> send_container p k c w = Some (top, w') ->
  exists q' n', sending p k ks q' n' w' /\ (q' = q \/ (top = true /\ n' = RejectAfterMessages)).
Proof.
  intros [(pe & Hp & Hks & Hq) [(kp & Hk & Hn) Hr]] Hs. unfold send_container in Hs.
  apply bind_inv in Hs as (oc & ? & [_ ->]%deref_inv & Hs). subst n.
  destruct (assign_nonces_run p k (oc_elems oc) w kp Hk Hr) as (kept & ooo & w1 & Ha & Hk1 & _ & _ & _ & _ & Ho).
  cbv zeta in *. set (m := Nat.min _ _) in *. pose proof (assign_nonces_peers _ _ _ _ _ _ Ha) as Hp1.
  rewrite bind_eq, Ha in Hs. cbv beta iota in Hs. clear Ha.
  set (n' := kp_sendNonce kp + Z.of_nat m) in *.
  assert (Hn' : 0 <= n' <= RejectAfterMessages /\ (ooo <> [] -> n' = RejectAfterMessages)).
  { unfold n', m, nonces_left in *. split; [lia|]. intros Hne.
    assert (drop (Nat.min (length (oc_elems oc)) (Z.to_nat (RejectAfterMessages - kp_sendNonce kp))) (oc_elems oc) <> []).
    { intros E. rewrite E in Ho. by destruct ooo. }
    destruct (decide (length (oc_elems oc) <= Z.to_nat (RejectAfterMessages - kp_sendNonce kp))%nat); [|lia].
    rewrite drop_ge in * by lia. done. }
  destruct Hn' as [Hn' Hooo].
  assert (H1 : sending p k ks q n' w1).
  { split; [exists pe; by rewrite Hp1|]. split; [|done]. eexists. rewrite Hk1, lookup_insert_eq. by split. }
  clearbody n'. clear Hk1 Hp1 Hp Hk Hr Ho.
  apply bind_inv in Hs as ([] & w2 & [= <-] & Hs). set (w2 := w1 <| w_outs ::= _ |>) in *.
  assert (H2 : sending p k ks q n' w2) by exact H1. clearbody w2. clear H1.
  apply bind_inv in Hs as ([] & w3 & H3 & Hs).
  assert (Hw3 : exists q', sending p k ks q' n' w3 /\ (ooo = [] -> q' = q)).
  { destruct ooo as [|e ooo]; [injection H3 as <-; eauto|].
    apply bind_inv in H3 as (c' & w4 & H4 & H3). injection H4 as <- <-.
    set (w4 := w2 <| w_fresh ::= _ |> <| w_outs ::= _ |>) in *.
    assert (H4 : sending p k ks q n' w4) by exact H2. clearbody w4. destruct H4 as [(pe4 & Hp4 & Hks4 & _) Hk4].
    destruct (stage_loop_run (S (length (p_staged pe4))) p (w_fresh w2) w4 pe4 Hp4) as (w5 & Hr5 & Hp5 & Hk5).
    { unfold QueueStagedSize. lia. }
    unfold StagePackets in H3. rewrite Hp4 in H3. cbn [from_option] in H3. rewrite Hr5 in H3. injection H3 as ->.
    exists (stage (p_staged pe4) (w_fresh w2)). split; [|done]. split; [|by rewrite Hk5].
    eexists. rewrite Hp5, lookup_insert_eq. by split. }
  clear H2 H3. destruct Hw3 as (q' & H3 & Hq'). exists q', n'.
  assert (Hdone : sending p k ks q' n' w' /\ (ooo <> [] -> top = true)).
  { destruct kept as [|e kept]; [by injection Hs as <- <-|]. apply bind_inv in Hs as (pe3 & ? & [_ ->]%deref_inv & Hs).
    apply bind_inv in Hs as ([] & w6 & H6 & [= <- <-]). split; [|by destruct ooo].
    destruct (p_isRunning pe3); [by eapply queue_container_sending|]. by injection H6 as <-. }
  destruct Hdone as [Hd Ht]. split; [done|]. destruct ooo as [|e ooo]; [left; by apply Hq'|right]. split; [by apply Ht|by apply Hooo].
Qed.

(** The loop: the rest of its fuel does not matter, and it stops with fewer
    staged containers or without nonces. *)
Lemma staged_loop_sending q fuel p k ks n w :
  sending p k ks q n w -> (length q < fuel)%nat ->
  staged_loop fuel p k w = staged_loop (S (length q)) p k w /\
  forall top w', staged_loop fuel p k w = Some (top, w') -> top = true ->
    exists q' n', sending p k ks q' n' w' /\ ((length q' < length q)%nat \/ n' = RejectAfterMessages).
Proof.
  revert fuel n w. induction q as [|c q IH]; intros fuel n w Hs Hf; destruct fuel as [|fuel]; try (cbn in Hf; lia).
  - destruct Hs as [(pe & Hp & Hks & Hq) _]. cbn [staged_loop length]. rewrite !bind_eq, (peer_eq _ _ _ Hp). cbv beta iota.
    rewrite Hq. split; [done|]. by intros top w' [= <- <-].
  - pose proof Hs as [(pe & Hp & Hks & Hq) Hk]. cbn [length] in *. remember (S (length q)) as len eqn:El.
    cbn [staged_loop]. rewrite !bind_eq, (peer_eq _ _ _ Hp). cbv beta iota. rewrite Hq, !bind_eq, (set_peer_eq _ _ _ _ Hp).
    cbv beta iota. rewrite !bind_eq. set (w1 := w <| w_peers ::= _ |>).
    assert (H1 : sending p k ks q n w1) by (split; [eexists; split; [apply lookup_insert_eq|done]|done]).
    clearbody w1. destruct (send_container p k c w1) as [[top w2]|] eqn:E2; [|done].
    destruct (send_container_sending _ _ _ _ _ _ _ _ _ H1 E2) as (q2 & n2 & H2 & Hq2). destruct top.
    + split; [done|]. intros top w' [= <- <-] _. exists q2, n2. split; [done|]. destruct Hq2 as [->|[_ ?]]; [left; lia|by right].
    + destruct Hq2 as [->|[[=] _]]. destruct (IH fuel n2 w2 H2) as [E Hpost]; [lia|]. subst len.
      split; [exact E|]. intros top w' Hr Ht. destruct (Hpost top w' Hr Ht) as (q' & n' & ? & [?|?]); exists q', n';
        (split; [done|]); [left; lia|by right].
Qed.

(** The counter of the current session of [p] is within the limit. *)
Definition current_ok (p : PeerPtr) (w : World) : Prop :=
  forall pe k kp, w_peers w !! p = Some pe -> current (p_keypairs pe) = Some k -> w_keypairs w !! k = Some kp ->
    0 <= kp_sendNonce kp <= RejectAfterMessages.

Lemma usable_keypair_inv p pe w r w' :
  w_peers w !! p = Some pe -> usable_keypair p w = Some (r, w') ->
  w_peers w' = w_peers w /\ w_keypairs w' = w_keypairs w /\
  forall k, r = Some k -> current (p_keypairs pe) = Some k /\
    exists kp, w_keypairs w !! k = Some kp /\ kp_sendNonce kp < RejectAfterMessages.
Proof.
  intros Hp Hr. unfold usable_keypair in Hr. rewrite bind_eq, (peer_eq _ _ _ Hp) in Hr. cbv beta iota in Hr.
  destruct (current (p_keypairs pe)) as [k|]; [|by injection Hr as <- <-].
  apply bind_inv in Hr as (kp & ? & [Hk ->]%deref_inv & Hr).
  destruct (kp_sendNonce kp >=? RejectAfterMessages) eqn:E; [by injection Hr as <- <-|].
  rewrite bind_eq, env_Since in Hr. cbv beta iota in Hr. injection Hr as <- <-. split; [done|]. split; [done|].
  intros k' Hk'. destruct (_ >=? RejectAfterTime); [done|]. injection Hk' as <-. split; [done|]. exists kp. split; [done|lia].
Qed.

(** Without nonces the round sends a handshake initiation and ends. *)
Lemma staged_top_exhausted p k ks q w fuel `{Crypto} :
  sending p k ks q RejectAfterMessages w -> current ks = Some k -> staged_top (S fuel) p w = staged_top 1 p w.
Proof.
  intros [(pe & Hp & Hks & Hq) [(kp & Hk & Hn) _]] Hc. cbn [staged_top]. rewrite !bind_eq, (peer_eq _ _ _ Hp).
  cbv beta iota. unfold isUp. rewrite !bind_eq, gets_eq. cbv beta iota. destruct (_ || _); [done|].
  rewrite !bind_eq. assert (E : usable_keypair p w = Some (None, w)).
  { unfold usable_keypair. rewrite bind_eq, (peer_eq _ _ _ Hp). cbv beta iota. rewrite Hks, Hc.
    rewrite bind_eq, (keypair_eq _ _ _ Hk). cbv beta iota. by rewrite Hn, (proj2 (Z.geb_le _ _)). }
  by rewrite E.
Qed.

Section fuel.
Context {CR : Crypto}.

Lemma staged_top_fuel len p w pe fuel :
  w_peers w !! p = Some pe -> (length (p_staged pe) <= len)%nat -> current_ok p w -> (S len < fuel)%nat ->
  staged_top fuel p w = staged_top (S (S len)) p w.
Proof.
  revert w pe fuel. induction len as [len IH] using (well_founded_induction lt_wf). intros w pe fuel Hp Hl Hc Hf.
  destruct fuel as [|fuel]; [lia|]. remember (S len) as len1 eqn:El. cbn [staged_top]. subst len1.
  rewrite !bind_eq, (peer_eq _ _ _ Hp). cbv beta iota. unfold isUp. rewrite !bind_eq, gets_eq. cbv beta iota.
  destruct (_ || _); [done|]. rewrite !bind_eq. destruct (usable_keypair p w) as [[r w1]|] eqn:Eu; [|done].
  destruct (usable_keypair_inv _ _ _ _ _ Hp Eu) as (Hp1 & Hk1 & Hr). destruct r as [k|]; [|done].
  destruct (Hr k eq_refl) as (Hcur & kp & Hkp & Hn). rewrite !bind_eq.
  assert (Hs : sending p k (p_keypairs pe) (p_staged pe) (kp_sendNonce kp) w1).
  { split; [exists pe; by rewrite Hp1|]. split; [exists kp; by rewrite Hk1|]. by eapply Hc. }
  destruct (staged_loop_sending _ (S (length (p_staged pe))) _ _ _ _ _ Hs ltac:(lia)) as [_ Hpost].
  destruct (staged_loop _ p k w1) as [[top w2]|]; [|done]. destruct top; [|done].
  destruct (Hpost _ _ eq_refl eq_refl) as (q' & n' & Hs' & [Hq'| ->]).
  - destruct len as [|len]; [lia|]. pose proof Hs' as [(pe' & Hp' & Hks' & Hst') [(kp' & Hk' & Hn') Hb']].
    assert (Hc' : current_ok p w2).
    { intros pe2 k2 kp2 H1 H2 H3. rewrite Hp' in H1. injection H1 as <-. rewrite Hks', Hcur in H2. injection H2 as <-.
      rewrite Hk' in H3. injection H3 as <-. by rewrite Hn'. }
    rewrite <- Hst' in Hq'. apply (IH len ltac:(lia) w2 pe'); [done|lia|done|lia].
  - destruct fuel as [|fuel]; [lia|]. etrans; [exact (staged_top_exhausted _ _ _ _ _ fuel Hs' Hcur)|].
    symmetry. exact (staged_top_exhausted _ _ _ _ _ len Hs' Hcur).
Qed.

End fuel.

(** ** The rate of initiations *)

Definition last_sent (pe : Peer) : Z := hs_lastSentHandshake (p_handshake pe).

(** No peer's time of the last handshake message changes. *)
Definition same_sent (w w' : World) : Prop :=
  forall p, last_sent <$> w_peers w' !! p = last_sent <$> w_peers w !! p.

#[local] Instance same_sent_pre : PreOrder same_sent.
Proof. split; [done|]. intros a b c H1 H2 p. by rewrite H2, H1. Qed.

Lemma sent_set_peer p f : (forall pe, last_sent (f pe) = last_sent pe) -> pres same_sent (set_peer p f).
Proof.
  intros Hf w a w'. unfold set_peer. destruct (w_peers w !! p) as [pe|] eqn:E; [|done]. intros [= <- <-] q. cbn.
  destruct (decide (p = q)) as [<-|Hne]; [|by rewrite lookup_insert_ne]. rewrite lookup_insert_eq, E. cbn. by rewrite Hf.
Qed.

Lemma sent_modify f : (forall w, w_peers (f w) = w_peers w) -> pres same_sent (modify f).
Proof. intros Hf. apply pres_modify. intros w p. by rewrite Hf. Qed.

Lemma sent_env {A} (m : ST Env A) : pres same_sent (env m).
Proof. intros w a w'. unfold env. destruct (m _) as [[x e]|]; [|done]. by intros [= <- <-]. Qed.

Lemma sent_read {A} (f : World -> option A) : pres same_sent (fun w => deref (f w) w).
Proof. intros w a w' [_ ->]%deref_inv. done. Qed.

#[local] Hint Extern 1 (pres same_sent (set_peer _ _)) => apply sent_set_peer; intros ?; reflexivity : pres.
#[local] Hint Extern 1 (pres same_sent (modify _)) => by apply sent_modify : pres.
#[local] Hint Extern 1 (pres same_sent (peer _)) => apply (sent_read (fun w => w_peers w !! _)) : pres.
#[local] Hint Resolve sent_env : pres.

Section rate.
Context {CR : Crypto}.

Lemma sent_bind_Send b ep : pres same_sent (bind_Send b ep).
Proof. by intros w a w' [= <- <-]. Qed.

Lemma sent_fastrandn n : pres same_sent (fastrandn n).
Proof. by intros w a w' [= <- <-]. Qed.

Lemma sent_new_index fuel p : pres same_sent (new_index fuel p).
Proof. induction fuel as [|fuel IH]; cbn [new_index]; pres. Qed.

Lemma sent_NewIndexForHandshake p : pres same_sent (NewIndexForHandshake p).
Proof. intros w a w'. apply sent_new_index. Qed.

#[local] Hint Resolve sent_bind_Send sent_fastrandn sent_NewIndexForHandshake : pres.

Lemma sent_CreateMessageInitiation p : pres same_sent (CreateMessageInitiation p).
Proof. unfold CreateMessageInitiation, initiation_static, handshake, set_handshake, Delete. pres. Qed.

Lemma sent_timersActive p : pres same_sent (timersActive p).
Proof. unfold timersActive, isUp. pres. Qed.

Lemma sent_Mod p i d : pres same_sent (Mod p i d).
Proof. unfold Mod, set_timers. pres. Qed.

Lemma sent_SendBuffers p b : pres same_sent (SendBuffers p b).
Proof. unfold SendBuffers, isClosed, emit. pres. Qed.

#[local] Hint Resolve sent_CreateMessageInitiation sent_timersActive sent_Mod sent_SendBuffers : pres.

Lemma Sub_ge a b d : Sub a b >= d -> 0 <= d -> a - b >= d.
Proof. unfold Sub. lia. Qed.

(** The rate of handshake initiations. A call of [SendHandshakeInitiation]
    either sends nothing and leaves the time of the last handshake message of
    the peer, or moves it forward by at least [RekeyTimeout]. [Start] and
    [ExpireCurrentKeypairs] set that time back, so that the next call may send at
    once. *)
Theorem initiation_rate p isRetry w pe r w' :
  w_peers w !! p = Some pe -> SendHandshakeInitiation p isRetry w = Some (r, w') ->
  exists pe', w_peers w' !! p = Some pe' /\
    ((w_out w' = w_out w /\ last_sent pe' = last_sent pe) \/
     last_sent pe' - last_sent pe >= RekeyTimeout).
Proof.
  intros Hp Hr. unfold SendHandshakeInitiation in Hr. apply bind_inv in Hr as (u & w1 & H1 & Hr).
  assert (Hw1 : w_out w1 = w_out w /\ exists pe1, w_peers w1 !! p = Some pe1 /\ last_sent pe1 = last_sent pe).
  { destruct isRetry; cbn [negb when] in H1; [injection H1 as _ <-; eauto|]. unfold set_timers in H1.
    rewrite (set_peer_eq _ _ _ _ Hp) in H1. injection H1 as _ <-. split; [done|]. eexists. split; [apply lookup_insert_eq|done]. }
  destruct Hw1 as (Ho & pe1 & Hp1 & Hs1). clear H1. unfold handshake in Hr.
  rewrite bind_eq, bind_eq, (peer_eq _ _ _ Hp1) in Hr. cbv beta iota in Hr. rewrite ret_eq in Hr. cbv beta iota in Hr.
  rewrite bind_eq, env_Since in Hr. cbv beta iota in Hr. set (w2 := w1 <| w_outside; o_env ::= tick |>) in Hr.
  assert (Hp2 : w_peers w2 !! p = Some pe1) by exact Hp1. assert (Ho2 : w_out w2 = w_out w) by exact Ho.
  destruct (_ <? _) in Hr; [injection Hr as <- <-; eauto 6|]. clearbody w2.
  rewrite bind_eq, env_Since in Hr. cbv beta iota in Hr. set (w3 := w2 <| w_outside; o_env ::= tick |>) in Hr.
  destruct (_ <? _) eqn:Ed in Hr; [injection Hr as <- <-; exists pe1; eauto|].
  set (t2 := next_now (o_env (w_outside w2))) in *.
  rewrite bind_eq, env_now in Hr. cbv beta iota in Hr. unfold set_handshake in Hr.
  set (w4 := w3 <| w_outside; o_env ::= tick |>) in Hr. set (t3 := next_now _) in Hr.
  assert (Hp4 : w_peers w4 !! p = Some pe1) by exact Hp2.
  assert (Ht : t2 <= t3) by (pose proof (next_now_ge (tick (o_env (w_outside w2)))); exact H).
  clearbody w4 t3. rewrite bind_eq, (set_peer_eq _ _ _ _ Hp4) in Hr. cbv beta iota in Hr.
  set (w5 := w4 <| w_peers ::= _ |>) in Hr.
  assert (Hp5 : last_sent <$> w_peers w5 !! p = Some t3) by (cbn; by rewrite lookup_insert_eq). clearbody w5.
  match type of Hr with ?m _ = _ => assert (Hm : pres same_sent m) end.
  { unfold peer_AddMacs, timersAnyAuthenticatedPacketTraversal, timersAnyAuthenticatedPacketSent,
      timersHandshakeInitiated, jitter, Del, set_timers. pres. }
  apply Hm in Hr. specialize (Hr p). rewrite Hp5 in Hr. apply fmap_Some in Hr as (pe' & Hp' & Hs').
  exists pe'. split; [done|]. right. rewrite <- Hs'.
  assert (Hd : Sub t2 (last_sent pe1) >= RekeyTimeout) by (apply Z.ltb_ge in Ed; apply Z.le_ge; exact Ed).
  apply Sub_ge in Hd; [|done]. lia.
Qed.

End rate.

(** ** Forgetting key material *)

(** The indices a peer can be reached by: its sessions' and its handshake's. *)
Definition session_index (mem : gmap KeypairPtr Keypair) (k : option KeypairPtr) : list Z :=
  match k ≫= (mem !!.) with Some kp => [kp_localIndex kp] | None => [] end.

Definition peer_indices (w : World) (pe : Peer) : list Z :=
  session_index (w_keypairs w) (previous (p_keypairs pe)) ++ session_index (w_keypairs w) (current (p_keypairs pe)) ++
  session_index (w_keypairs w) (next (p_keypairs pe)) ++ [hs_localIndex (p_handshake pe)].

Lemma DeleteKeypair_run k w :
  (forall x, k = Some x -> is_Some (w_keypairs w !! x)) ->
  DeleteKeypair k w = Some (tt, w <| w_indexTable ::= fun t => foldl (fun t i => delete i t) t (session_index (w_keypairs w) k) |>).
Proof.
  intros Hk. unfold DeleteKeypair, session_index. destruct k as [k|]; [|by destruct w]. destruct (Hk k eq_refl) as [kp Hkp].
  rewrite bind_eq, (keypair_eq _ _ _ Hkp). cbn [mbind option_bind]. by rewrite Hkp.
Qed.

Lemma foldl_delete_app {A} (t : gmap Z A) l l' :
  foldl (fun t i => delete i t) (foldl (fun t i => delete i t) t l) l' = foldl (fun t i => delete i t) t (l ++ l').
Proof. by rewrite foldl_app. Qed.

Lemma foldl_delete_lookup {A} (t : gmap Z A) l i :
  foldl (fun t i => delete i t) t l !! i = if decide (i ∈ l) then None else t !! i.
Proof.
  revert t. induction l as [|j l IH]; intros t; cbn [foldl]; [done|]. rewrite IH. destruct (decide (i ∈ l)) as [Hi|Hi].
  - by rewrite decide_True by (by right).
  - destruct (decide (i = j)) as [->|Hne].
    + rewrite decide_True by (by left). apply lookup_delete_eq.
    + rewrite decide_False by (rewrite elem_of_cons; tauto). by rewrite lookup_delete_ne.
Qed.

Lemma ZeroAndFlushAll_run p w pe :
  w_peers w !! p = Some pe ->
  (forall k, k = previous (p_keypairs pe) \/ k = current (p_keypairs pe) \/ k = next (p_keypairs pe) ->
     forall x, k = Some x -> is_Some (w_keypairs w !! x)) ->
  exists w' pe', ZeroAndFlushAll p w = Some (tt, w') /\ w_peers w' !! p = Some pe' /\
    p_keypairs pe' = mkKeypairs None None None /\ p_staged pe' = [] /\
    hs_state (p_handshake pe') = handshakeZeroed /\
    Forall (fun x => x = 0) (hs_localEphemeral (p_handshake pe') ++ hs_chainKey (p_handshake pe') ++
      hs_hash (p_handshake pe')) /\
    forall i, w_indexTable w' !! i = if decide (i ∈ peer_indices w pe) then None else w_indexTable w !! i.
Proof.
  intros Hp Hk. unfold ZeroAndFlushAll. rewrite bind_eq, (peer_eq _ _ _ Hp). cbv beta iota.
  rewrite bind_eq, DeleteKeypair_run by (apply Hk; auto). cbv beta iota.
  rewrite bind_eq, DeleteKeypair_run by (apply Hk; auto). cbv beta iota.
  rewrite bind_eq, DeleteKeypair_run by (apply Hk; auto). cbv beta iota.
  set (w3 := w <| w_indexTable ::= _ |> <| w_indexTable ::= _ |> <| w_indexTable ::= _ |>).
  assert (Hp3 : w_peers w3 !! p = Some pe) by exact Hp.
  assert (Ht3 : w_indexTable w3 = foldl (fun t i => delete i t) (w_indexTable w)
    (session_index (w_keypairs w) (previous (p_keypairs pe)) ++ session_index (w_keypairs w) (current (p_keypairs pe)) ++
     session_index (w_keypairs w) (next (p_keypairs pe)))).
  { rewrite app_assoc, <- !foldl_delete_app. done. }
  clearbody w3. rewrite bind_eq, (set_peer_eq _ _ _ _ Hp3). cbv beta iota.
  set (pe4 := pe <| p_keypairs := _ |>). set (w4 := w3 <| w_peers ::= _ |>).
  assert (Hp4 : w_peers w4 !! p = Some pe4) by apply lookup_insert_eq.
  assert (Ht4 : w_indexTable w4 = w_indexTable w3) by done. clearbody w4.
  unfold handshake. rewrite bind_eq, bind_eq, (peer_eq _ _ _ Hp4). cbv beta iota. rewrite ret_eq. cbv beta iota.
  unfold Delete. rewrite bind_eq, modify_eq. cbv beta iota. set (w5 := w4 <| w_indexTable ::= _ |>).
  assert (Hp5 : w_peers w5 !! p = Some pe4) by exact Hp4. unfold set_handshake.
  rewrite bind_eq, (set_peer_eq _ _ _ _ Hp5). cbv beta iota. set (pe6 := pe4 <| p_handshake ::= Clear |>).
  set (w6 := w5 <| w_peers ::= _ |>). assert (Hp6 : w_peers w6 !! p = Some pe6) by apply lookup_insert_eq.
  destruct (flush_staged_run (S (length (p_staged pe6))) p w6 pe6 Hp6 ltac:(lia)) as (w' & Hr & Hp' & _ & Ht').
  unfold FlushStagedPackets. rewrite Hp6. cbn [from_option]. rewrite Hr. eexists w', _. split; [done|].
  rewrite Hp', lookup_insert_eq. split; [done|]. do 3 (split; [done|]). split.
  - cbn. rewrite !setZero_zeros. unfold zeros. repeat (apply Forall_app; split); by apply Forall_replicate.
  - intros i. rewrite Ht'. cbn [w6 w5 w_indexTable set]. rewrite Ht4, Ht3.
    rewrite <- foldl_delete_lookup. unfold peer_indices. by rewrite !app_assoc, foldl_snoc.
Qed.

(** Key material is forgotten. [ZeroAndFlushAll], which ends the stopping of
    a peer and the life of unused keys, returns, and leaves the peer without
    sessions and without staged packets; the secrets of its handshake are
    zeros; no index leads to its sessions or its handshake any more, and all
    other indices are as before. *)
Theorem ZeroAndFlushAll_clears p w pe :
  w_peers w !! p = Some pe ->
  (forall k, k = previous (p_keypairs pe) \/ k = current (p_keypairs pe) \/ k = next (p_keypairs pe) ->
     forall x, k = Some x -> is_Some (w_keypairs w !! x)) ->
  exists w' pe', ZeroAndFlushAll p w = Some (tt, w') /\ w_peers w' !! p = Some pe' /\
    p_keypairs pe' = mkKeypairs None None None /\ p_staged pe' = [] /\
    hs_state (p_handshake pe') = handshakeZeroed /\
    Forall (fun x => x = 0) (hs_localEphemeral (p_handshake pe') ++ hs_chainKey (p_handshake pe') ++
      hs_hash (p_handshake pe')) /\
    forall i, w_indexTable w' !! i = if decide (i ∈ peer_indices w pe) then None else w_indexTable w !! i.
Proof. apply ZeroAndFlushAll_run. Qed.
