(* ===== verification/Staged.v ===== *)
(** * Sending what is staged

    [SendStagedPackets] returns: that it does not panic, its loop ends, and what
    it does with the packets it takes. The components it calls are shown to
    return as well. *)

From stdpp Require Import base numbers list gmap.
From S2P Require Import Tai64n Replay Ratelimiter AllowedIPs.
From S2P Require Import Prelude Setters GoStrings Env Crypto Messages Cookie DeviceState Noise NoiseCorrect Timers PeerOps Send Frame DeviceFrame Delivery Nonces Staging.

Open Scope Z_scope.

#[global] Arguments QueueOutboundSize : simpl never.

(** ** Programs that return *)

(** On a device that has peer [p], [m] returns, and [p] is still there. *)
Definition total {A} (p : PeerPtr) (m : M A) : Prop :=
  forall w, is_Some (w_peers w !! p) -> exists a w', m w = Some (a, w') /\ is_Some (w_peers w' !! p).

Section total.
Context (p : PeerPtr).

Lemma total_ret {A} (a : A) : total p (mret a).
Proof. intros w Hw. by exists a, w. Qed.

Lemma total_bind {A B} (m : M A) (k : A -> M B) : total p m -> (forall a, total p (k a)) -> total p (m ≫= k).
Proof.
  intros Hm Hk w Hw. destruct (Hm w Hw) as (a & w1 & E & Hw1). rewrite bind_eq, E. by apply Hk.
Qed.

Lemma total_when b m : total p m -> total p (when b m).
Proof. destruct b; [done|]. intros _. apply total_ret. Qed.

Lemma total_get : total p get.
Proof. intros w Hw. by exists w, w. Qed.

Lemma total_gets {A} (f : World -> A) : total p (gets f).
Proof. intros w Hw. by exists (f w), w. Qed.

Lemma total_modify f : (forall w, w_peers (f w) = w_peers w) -> total p (modify f).
Proof. intros Hf w Hw. exists tt, (f w). split; [done|]. by rewrite Hf. Qed.

Lemma total_env {A} (m : ST Env A) : (forall e, is_Some (m e)) -> total p (env m).
Proof. intros Hm w Hw. unfold env. destruct (Hm (o_env (w_outside w))) as [[a e] ->]. eexists a, _. by split. Qed.

Lemma total_peer : total p (peer p).
Proof. intros w [pe Hp]. exists pe, w. split; [by apply peer_eq|by exists pe]. Qed.

Lemma total_set_peer f : total p (set_peer p f).
Proof.
  intros w [pe Hp]. eexists tt, _. split; [by apply (set_peer_eq _ _ _ _ Hp)|]. cbn. rewrite lookup_insert_eq. by eexists.
Qed.

Lemma total_emit ev : total p (emit ev).
Proof. by apply total_modify. Qed.

Lemma total_bind_Send b ep : total p (bind_Send b ep).
Proof. intros w Hw. eexists _, _. by split. Qed.

Lemma total_fastrandn n : total p (fastrandn n).
Proof. intros w Hw. eexists _, _. by split. Qed.

End total.

Create HintDb total.
#[export] Hint Resolve total_ret total_get total_gets total_peer total_set_peer total_emit total_bind_Send
  total_fastrandn : total.
#[export] Hint Extern 2 (total _ (modify _)) => by apply total_modify : total.

(** Decomposes a program into its statements and closes the known ones. *)
Ltac total_step :=
  cbv beta zeta;
  lazymatch goal with
  | |- total _ (mbind _ _) => apply total_bind; [|intros ?]
  | |- total _ (when _ _) => apply total_when
  | |- total _ (match ?x with _ => _ end) => destruct x eqn:?
  end.

Ltac total := repeat first [solve [eauto with total] | total_step].

(** ** What the environment delivers is enough *)

Lemma total_Since p t : total p (env (Since t)).
Proof. apply total_env. intros e. by eexists. Qed.

Lemma total_now p : total p (env now).
Proof. apply total_env. intros e. by eexists. Qed.

Lemma clamp_total sk : length sk = 32%nat -> is_Some (clamp sk).
Proof.
  intros Hl. unfold clamp, byte_at. rewrite !decide_True by done. change (Z.to_nat 0) with 0%nat. destruct (lookup_lt_is_Some_2 sk 0) as [b ->]; [lia|].
  cbn [mbind option_bind]. change (Z.to_nat 31) with 31%nat. cbv zeta.
  destruct (lookup_lt_is_Some_2 (<[0%nat := Z.land b 248]> sk) 31) as [b' ->]; [rewrite length_insert; lia|]. by eexists.
Qed.

Lemma total_newPrivateKey p : total p (env newPrivateKey).
Proof.
  apply total_env. intros e. unfold newPrivateKey. rewrite bind_eq. unfold rand_Read. cbv beta iota.
  rewrite bind_eq. set (r := copy _ _). assert (Hl : length r = 32%nat) by (unfold r; by rewrite length_copy, length_zeros).
  destruct (clamp_total r Hl) as [sk ->]. by eexists.
Qed.

Lemma new_index_peers fuel p w r w' : new_index fuel p w = Some (r, w') -> w_peers w' = w_peers w.
Proof.
  revert w. induction fuel as [|fuel IH]; intros w; [done|]. cbn [new_index].
  intros ((index & ok) & w1 & (e & _ & ->)%env_inv & Hr)%bind_inv. destruct ok; [|by injection Hr as <- <-].
  rewrite bind_eq, gets_eq in Hr. cbv beta iota in Hr. cbn [w_indexTable set] in Hr.
  destruct (w_indexTable w !! index); [by apply IH in Hr|]. by injection Hr as <- <-.
Qed.

Lemma total_NewIndexForHandshake p : total p (NewIndexForHandshake p).
Proof.
  intros w Hw. unfold NewIndexForHandshake. destruct (new_index_total (S (length (rands (o_env (w_outside w))))) p w) as [[a w'] E]; [lia|].
  exists a, w'. split; [exact E|]. by rewrite (new_index_peers _ _ _ _ _ E).
Qed.

#[export] Hint Resolve total_Since total_now total_newPrivateKey total_NewIndexForHandshake : total.

(** ** What assigning nonces and staging leave alone *)

Definition same_queues (w w' : World) : Prop :=
  w_peers w' = w_peers w /\ w_outs w' = w_outs w /\ w_encryption w' = w_encryption w.

#[local] Instance same_queues_pre : PreOrder same_queues.
Proof. split; [done|]. intros a b c (? & ? & ?) (? & ? & ?). split_and!; congruence. Qed.

Lemma assign_nonces_rest p k l w r w' : assign_nonces p k l w = Some (r, w') -> same_queues w w'.
Proof.
  apply (assign_nonces_pres same_queues). intros n v a v'. unfold set_keypair.
  destruct (w_keypairs v !! k); [|done]. by intros [= <- <-].
Qed.

Lemma stage_loop_encryption fuel p c : pres (fun w w' => w_encryption w' = w_encryption w) (stage_loop fuel p c).
Proof.
  assert (PreOrder (fun w w' : World => w_encryption w' = w_encryption w)) by (split; [done|intros ? ? ? ? ?; congruence]).
  assert (Hs : forall p f, pres (fun w w' => w_encryption w' = w_encryption w) (set_peer p f)).
  { intros q f w a w'. unfold set_peer. destruct (w_peers w !! q); [|done]. by intros [= <- <-]. }
  assert (Hp : forall p, pres (fun w w' => w_encryption w' = w_encryption w) (peer p)) by (intros q w a w' [_ ->]%deref_inv; done).
  assert (Ho : forall c, pres (fun w w' => w_encryption w' = w_encryption w) (PutOutboundElementsContainer c)) by (intros d; by apply pres_modify).
  induction fuel as [|fuel IH]; cbn [stage_loop]; pres.
Qed.

Lemma staged_again p c w pe :
  w_peers w !! p = Some pe ->
  exists w', StagePackets p c w = Some (tt, w') /\
    w_peers w' = <[p := pe <| p_staged := stage (p_staged pe) c |>]> (w_peers w) /\
    w_keypairs w' = w_keypairs w /\ w_encryption w' = w_encryption w.
Proof.
  intros Hp. destruct (stage_loop_run (S (length (p_staged pe))) p c w pe Hp) as (w' & E & Hp' & Hk').
  { unfold QueueStagedSize. lia. }
  exists w'. unfold StagePackets. rewrite Hp. cbn [from_option]. split; [done|]. split; [done|]. split; [done|].
  by apply stage_loop_encryption in E.
Qed.

Section staged.
Context {CR : Crypto}.

(** ** Handshake initiations *)

Lemma AddMacs_total gen msg e : (32 <= length msg)%nat -> is_Some (AddMacs gen msg e).
Proof.
  intros Hl. unfold AddMacs. change (Z.of_nat blake2s_Size128) with 16. cbv zeta.
  rewrite bind_eq. unfold slice at 1. rewrite decide_True by (unfold zlen; lia). rewrite deref_eq. cbv beta iota.
  rewrite bind_eq, Since_eq. cbv beta iota. destruct (_ >? _); [by eexists|].
  rewrite bind_eq. unfold slice. rewrite decide_True by (rewrite copy_at_len; unfold zlen; lia). by eexists.
Qed.

Lemma initiation_size msg : length (default (zeros MessageInitiationSize) (Initiation.marshal msg (zeros MessageInitiationSize))) = MessageInitiationSize.
Proof. unfold Initiation.marshal. rewrite decide_True by apply length_zeros. cbn [default from_option id]. by rewrite !copy_at_len, length_zeros. Qed.

Lemma total_CreateMessageInitiation p : total p (CreateMessageInitiation p).
Proof. unfold CreateMessageInitiation, initiation_static, handshake, set_handshake, Delete. total. Qed.

Lemma total_peer_AddMacs p packet : (32 <= length packet)%nat -> total p (peer_AddMacs p packet).
Proof.
  intros Hl. unfold peer_AddMacs. apply total_bind; [total|]. intros pe. apply total_bind.
  - apply total_env. intros e. by apply AddMacs_total.
  - intros [gen pk]. total.
Qed.

Lemma total_SendBuffers p b : total p (SendBuffers p b).
Proof. unfold SendBuffers, isClosed. total. Qed.

Lemma total_timersActive p : total p (timersActive p).
Proof. unfold timersActive, isUp. total. Qed.

Lemma total_Mod p i d : total p (Mod p i d).
Proof. unfold Mod, set_timers. total. Qed.

Hint Resolve total_CreateMessageInitiation total_SendBuffers total_timersActive total_Mod : total.

Lemma SendHandshakeInitiation_total p isRetry : total p (SendHandshakeInitiation p isRetry).
Proof.
  unfold SendHandshakeInitiation, set_timers, handshake, set_handshake, timersAnyAuthenticatedPacketTraversal,
    timersAnyAuthenticatedPacketSent, timersHandshakeInitiated, jitter, Del, set_timers. total.
  apply total_peer_AddMacs. rewrite initiation_size. unfold MessageInitiationSize. lia.
Qed.

(** ** The loop over the staged containers *)

(** Room for [r] more containers in the two queues. *)
Definition room (r : nat) (pe : Peer) (w : World) : Prop :=
  (length (p_outbound pe) + r <= QueueOutboundSize)%nat /\ (length (w_encryption w) + r <= QueueOutboundSize)%nat.

(** Peer [p] has the staged containers [q], which exist, and session [k], which
    may be the current one; there is room for the containers. *)
Record ready (p : PeerPtr) (k : KeypairPtr) (ks : Keypairs) (q : list ContainerPtr) (w : World) : Prop := {
  re_peer : exists pe, w_peers w !! p = Some pe /\ p_keypairs pe = ks /\ p_staged pe = q /\ room (length q) pe w;
  re_key : exists kp, w_keypairs w !! k = Some kp /\ 0 <= kp_sendNonce kp <= RejectAfterMessages;
  re_nodup : NoDup q;
  re_there : Forall (fun c => is_Some (w_outs w !! c)) q
}.

(** Peer [p] with a session [k] without nonces. *)
Definition exhausted (p : PeerPtr) (k : KeypairPtr) (ks : Keypairs) (w : World) : Prop :=
  (exists pe, w_peers w !! p = Some pe /\ p_keypairs pe = ks) /\
  exists kp, w_keypairs w !! k = Some kp /\ kp_sendNonce kp = RejectAfterMessages.

Lemma chan_send_room {A} (q : list A) x r :
  (length q + S r <= QueueOutboundSize)%nat -> chan_send QueueOutboundSize q x = Some (q ++ [x]).
Proof. intros Hr. unfold chan_send. rewrite decide_True by lia. done. Qed.

Lemma queue_container_run p c w pe r :
  w_peers w !! p = Some pe -> room (S r) pe w ->
  queue_container p c w = Some (tt, w <| w_peers ::= <[p := pe <| p_outbound := p_outbound pe ++ [Some c] |>]> |>
    <| w_encryption := w_encryption w ++ [c] |>).
Proof.
  intros Hp [H1 H2]. unfold queue_container. rewrite bind_eq, (peer_eq _ _ _ Hp). cbv beta iota.
  rewrite bind_eq, (chan_send_room _ _ r H1), deref_eq. cbv beta iota. rewrite bind_eq, (set_peer_eq _ _ _ _ Hp).
  cbv beta iota. rewrite bind_eq, get_eq. cbv beta iota. cbn [w_encryption set].
  by rewrite bind_eq, (chan_send_room _ _ r H2), deref_eq.
Qed.

(** What becomes of a container whose elements have all got nonces. *)
Lemma send_container_end p k ks c (kept : list QueueOutboundElement) w pe q :
  w_peers w !! p = Some pe -> p_keypairs pe = ks -> p_staged pe = q -> room (S (length q)) pe w ->
  (exists kp, w_keypairs w !! k = Some kp /\ 0 <= kp_sendNonce kp <= RejectAfterMessages) ->
  NoDup (c :: q) -> Forall (fun c => is_Some (w_outs w !! c)) q ->
  exists top w', (match kept with
    | [] => PutOutboundElementsContainer c;; mret true
    | _ :: _ => pe ← peer p; (if p_isRunning pe then queue_container p c else PutOutboundElementsContainer c);; mret false
    end) w = Some (top, w') /\ ready p k ks q w'.
Proof.
  intros Hp Hks Hq Hr Hk [Hc Hn]%NoDup_cons Hin.
  assert (Hdel : Forall (fun x => is_Some (delete c (w_outs w) !! x)) q).
  { apply Forall_forall. intros x Hx. rewrite lookup_delete_ne by (intros ->; done). by apply (proj1 (Forall_forall _ _) Hin). }
  assert (Hroom : room (length q) pe w) by (unfold room in *; lia).
  assert (Hput : ready p k ks q (w <| w_outs ::= delete c |>)) by (split; [by exists pe|done..]).
  destruct kept as [|e kept]; [by eexists _, _|].
  rewrite bind_eq, (peer_eq _ _ _ Hp). cbv beta iota. destruct (p_isRunning pe).
  - rewrite bind_eq, (queue_container_run _ _ _ _ _ Hp Hr). eexists _, _. split; [reflexivity|].
    split; [|done..]. eexists. split; [apply lookup_insert_eq|]. split; [done|]. split; [done|].
    unfold room in *. cbn [p_outbound w_encryption set]. rewrite !length_app. cbn [length]. lia.
  - rewrite bind_eq. by eexists _, _.
Qed.

Lemma send_container_run p k ks c q w pe :
  w_peers w !! p = Some pe -> p_keypairs pe = ks -> p_staged pe = q -> room (S (length q)) pe w ->
  (exists kp, w_keypairs w !! k = Some kp /\ 0 <= kp_sendNonce kp <= RejectAfterMessages) ->
  NoDup (c :: q) -> Forall (fun c => is_Some (w_outs w !! c)) (c :: q) ->
  exists top w', send_container p k c w = Some (top, w') /\ (ready p k ks q w' \/ (top = true /\ exhausted p k ks w')).
Proof.
  intros Hp Hks Hq Hroom (kp & Hk & Hn) Hnd Hin. apply Forall_cons in Hin as [[oc Hc] Hin].
  unfold send_container, out_container. rewrite bind_eq, Hc, deref_eq. cbv beta iota.
  destruct (assign_nonces_run p k (oc_elems oc) w kp Hk Hn) as (kept & ooo & w1 & Ha & Hk1 & _ & _ & _ & _ & Ho). cbv zeta in *.
  pose proof (assign_nonces_rest _ _ _ _ _ _ Ha) as (Hp1 & Ho1 & He1). rewrite bind_eq, Ha. cbv beta iota. clear Ha.
  set (m := Nat.min _ _) in *. set (kp1 := kp <| kp_sendNonce := _ |>) in *.
  assert (Hn1 : 0 <= kp_sendNonce kp1 <= RejectAfterMessages /\ (ooo <> [] -> kp_sendNonce kp1 = RejectAfterMessages)).
  { cbn. unfold m, nonces_left in *. split; [lia|]. intros Hne.
    destruct (decide (length (oc_elems oc) <= Z.to_nat (RejectAfterMessages - kp_sendNonce kp))%nat); [|lia].
    rewrite drop_ge in Ho by lia. by destruct ooo. }
  destruct Hn1 as [Hn1 Hx1]. clearbody kp1. unfold set_out_container. rewrite bind_eq, modify_eq. cbv beta iota.
  set (w2 := w1 <| w_outs ::= _ |>).
  assert (Hp2 : w_peers w2 !! p = Some pe) by (cbn; by rewrite Hp1).
  assert (Hk2 : w_keypairs w2 !! k = Some kp1) by (cbn; rewrite Hk1; apply lookup_insert_eq).
  assert (Hr2 : room (S (length q)) pe w2) by (unfold room in *; cbn; by rewrite He1).
  assert (Hin2 : Forall (fun x => is_Some (w_outs w2 !! x)) q).
  { eapply Forall_impl; [exact Hin|]. cbn. rewrite Ho1. intros x Hx. rewrite lookup_insert_is_Some'. by right. }
  clearbody w2. clear Hp1 Ho1 He1 Hk1. rewrite bind_eq. destruct ooo as [|e ooo].
  - rewrite ret_eq. cbv beta iota.
    destruct (send_container_end p k ks c kept w2 pe q Hp2 Hks Hq Hr2 (ex_intro _ kp1 (conj Hk2 Hn1)) Hnd Hin2) as (top & w' & E & Hre).
    exists top, w'. split; [exact E|by left].
  - rewrite bind_eq. unfold new_container. rewrite bind_eq. cbn [fresh]. rewrite bind_eq, modify_eq. cbv beta iota. rewrite ret_eq.
    cbv beta iota. set (w3 := w2 <| w_fresh ::= S |> <| w_outs ::= _ |>).
    assert (Hp3 : w_peers w3 !! p = Some pe) by exact Hp2.
    destruct (staged_again p (w_fresh w2) w3 pe Hp3) as (w4 & E4 & Hp4 & Hk4 & He4). rewrite E4. cbv beta iota.
    assert (Hr4 : room (S (length q)) pe w4) by (unfold room in *; by rewrite He4).
    assert (Hx : forall w', w_keypairs w' = w_keypairs w4 ->
      (exists pe', w_peers w' !! p = Some pe' /\ p_keypairs pe' = ks) -> exhausted p k ks w').
    { intros w' Ek Hpe. split; [done|]. exists kp1. rewrite Ek, Hk4. split; [exact Hk2|by apply Hx1]. }
    destruct kept as [|e' kept].
    + eexists _, _. split; [reflexivity|]. right. split; [done|]. apply Hx; [done|]. cbn. rewrite Hp4, lookup_insert_eq. by eexists.
    + rewrite bind_eq. assert (Hp5 : w_peers w4 !! p = Some (pe <| p_staged := stage (p_staged pe) (w_fresh w2) |>)).
      { rewrite Hp4. apply lookup_insert_eq. }
      rewrite (peer_eq _ _ _ Hp5). cbv beta iota. rewrite bind_eq. cbn [p_isRunning set]. destruct (p_isRunning pe).
      * rewrite (queue_container_run _ _ _ _ (length q) Hp5 Hr4). eexists _, _. split; [reflexivity|]. right. split; [done|].
        apply Hx; [done|]. cbn. rewrite lookup_insert_eq. by eexists.
      * eexists _, _. split; [reflexivity|]. right. split; [done|]. apply Hx; [done|]. cbn. rewrite Hp5. by eexists.
Qed.

Lemma staged_loop_run p k ks q fuel w :
  ready p k ks q w -> (length q < fuel)%nat ->
  exists top w', staged_loop fuel p k w = Some (top, w') /\
    (exists pe, w_peers w' !! p = Some pe) /\
    (top = true -> (exists q', ready p k ks q' w' /\ (length q' < length q)%nat) \/ exhausted p k ks w').
Proof.
  revert fuel w. induction q as [|c q IH]; intros fuel w [(pe & Hp & Hks & Hq & Hr) Hk Hn Hin] Hf;
    (destruct fuel as [|fuel]; [cbn in Hf; lia|]); cbn [staged_loop]; rewrite bind_eq, (peer_eq _ _ _ Hp); cbv beta iota; rewrite Hq.
  { exists false, w. split; [done|]. split; [by exists pe|done]. }
  rewrite bind_eq, (set_peer_eq _ _ _ _ Hp). cbv beta iota. set (w1 := w <| w_peers ::= _ |>).
  destruct (send_container_run p k ks c q w1 (pe <| p_staged := q |>)) as (top & w2 & E & Hw2); try done.
  { apply lookup_insert_eq. }
  rewrite bind_eq, E. cbv beta iota. destruct top.
  - exists true, w2. split; [done|]. destruct Hw2 as [Hre|[_ Hx]].
    + split; [destruct (re_peer _ _ _ _ _ Hre) as (pe2 & ? & _); by exists pe2|]. intros _. left. exists q. split; [done|cbn; lia].
    + split; [destruct Hx as [(pe2 & ? & _) _]; by exists pe2|]. by right.
  - destruct Hw2 as [Hre|[[=] _]]. destruct (IH fuel w2 Hre) as (top & w3 & E3 & Hpe & Ht); [cbn in Hf; lia|].
    exists top, w3. split; [done|]. split; [done|]. intros Htop. destruct (Ht Htop) as [(q' & ? & ?)|?]; [left|by right].
    exists q'. split; [done|cbn; lia].
Qed.

(** Without nonces a round is the last. *)
Lemma staged_top_last p k ks w fuel :
  exhausted p k ks w -> current ks = Some k -> exists w', staged_top (S fuel) p w = Some (tt, w').
Proof.
  intros [(pe & Hp & Hks) (kp & Hk & Hn)] Hc. cbn [staged_top]. rewrite bind_eq, (peer_eq _ _ _ Hp). cbv beta iota.
  unfold isUp. rewrite bind_eq, gets_eq. cbv beta iota. destruct (_ || _); [by exists w|]. rewrite bind_eq.
  unfold usable_keypair. rewrite bind_eq, (peer_eq _ _ _ Hp). cbv beta iota. rewrite Hks, Hc.
  rewrite bind_eq, (keypair_eq _ _ _ Hk). cbv beta iota. rewrite Hn, (proj2 (Z.geb_le _ _)) by done. rewrite ret_eq. cbv beta iota.
  destruct (SendHandshakeInitiation_total p false w) as (b & w' & E & _); [by exists pe|]. rewrite bind_eq, E. by exists w'.
Qed.

(** A round that finds nothing to send with asks for a handshake. *)
Lemma staged_top_round p w pe fuel :
  w_peers w !! p = Some pe ->
  (forall k, current (p_keypairs pe) = Some k -> is_Some (w_keypairs w !! k)) ->
  (exists w', staged_top (S fuel) p w = Some (tt, w')) \/
  (exists k w1, current (p_keypairs pe) = Some k /\ w_peers w1 = w_peers w /\ w_keypairs w1 = w_keypairs w /\
    w_outs w1 = w_outs w /\ w_encryption w1 = w_encryption w /\
    staged_top (S fuel) p w = (top ← staged_loop (S (length (p_staged pe))) p k; if top : bool then staged_top fuel p else mret tt) w1).
Proof.
  intros Hp Hk. cbn [staged_top]. rewrite bind_eq, (peer_eq _ _ _ Hp). cbv beta iota.
  unfold isUp. rewrite bind_eq, gets_eq. cbv beta iota. destruct (_ || _); [left; by exists w|]. rewrite bind_eq.
  assert (Hinit : forall w', w_peers w' = w_peers w -> exists w'', (_ ← SendHandshakeInitiation p false; mret tt) w' = Some (tt, w'')).
  { intros w' E. destruct (SendHandshakeInitiation_total p false w') as (b & w'' & E' & _); [rewrite E; by exists pe|].
    rewrite bind_eq, E'. by exists w''. }
  unfold usable_keypair. rewrite bind_eq, (peer_eq _ _ _ Hp). cbv beta iota.
  destruct (current (p_keypairs pe)) as [k|] eqn:Ec; [|left; rewrite ret_eq; by apply Hinit].
  destruct (Hk k eq_refl) as [kp Hkp]. rewrite bind_eq, (keypair_eq _ _ _ Hkp). cbv beta iota.
  destruct (_ >=? _); [left; rewrite ret_eq; by apply Hinit|]. rewrite bind_eq, env_Since. cbv beta iota. rewrite ret_eq. cbv beta iota.
  destruct (_ >=? _); [left; by apply Hinit|]. right. eexists k, _. split; [done|]. by split_and!; [..|reflexivity].
Qed.

Lemma staged_top_run len p k ks q fuel w :
  ready p k ks q w -> current ks = Some k -> (length q <= len)%nat -> (S len < fuel)%nat ->
  exists w', staged_top fuel p w = Some (tt, w').
Proof.
  revert q fuel w. induction len as [len IH] using (well_founded_induction lt_wf). intros q fuel w Hre Hc Hl Hf.
  destruct fuel as [|fuel]; [lia|]. pose proof Hre as [(pe & Hp & Hks & Hq & Hr) (kp & Hk & Hn) Hnd Hin].
  destruct (staged_top_round p w pe fuel Hp) as [?|(k' & w1 & Hc' & Hp1 & Hk1 & Ho1 & He1 & E)]; [|done|].
  { rewrite Hks, Hc. intros ? [= <-]. by exists kp. }
  rewrite Hks, Hc in Hc'. injection Hc' as <-. rewrite E, bind_eq, Hq.
  assert (Hre1 : ready p k ks q w1).
  { split; [exists pe|exists kp|done|by rewrite Ho1]; rewrite ?Hp1, ?Hk1; [|done]. unfold room in *. by rewrite He1. }
  destruct (staged_loop_run _ _ _ _ (S (length q)) _ Hre1 ltac:(lia)) as (top & w2 & E2 & _ & Ht). rewrite E2. cbv beta iota.
  destruct top; [|by exists w2]. destruct (Ht eq_refl) as [(q' & Hre' & Hl')|Hx].
  - apply (IH (length q') ltac:(lia) q' fuel w2 Hre' Hc); lia.
  - destruct fuel as [|fuel]; [lia|]. by apply (staged_top_last _ k ks).
Qed.

(** C25: sending what is staged ends. When the staged containers of a peer exist and
    are different, its current session exists, and the queues have room for them,
    [SendStagedPackets] returns; and any larger number of rounds than the model
    gives its loop has the same result, so the loop of the code, which has no
    bound, ends with it. *)
Theorem SendStagedPackets_terminates p w pe :
  nonces_ok w -> w_peers w !! p = Some pe ->
  (forall k, current (p_keypairs pe) = Some k -> is_Some (w_keypairs w !! k)) ->
  NoDup (p_staged pe) -> Forall (fun c => is_Some (w_outs w !! c)) (p_staged pe) -> room (length (p_staged pe)) pe w ->
  exists w', SendStagedPackets p w = Some (tt, w') /\
    forall fuel, (S (length (p_staged pe)) < fuel)%nat -> staged_top fuel p w = Some (tt, w').
Proof.
  intros Hw Hp Hk Hn Hin Hr.
  assert (Hrun : exists w', SendStagedPackets p w = Some (tt, w')).
  { unfold SendStagedPackets. rewrite Hp. cbn [from_option].
    destruct (current (p_keypairs pe)) as [k|] eqn:Ec; cycle 1.
    - destruct (staged_top_round p w pe (S (length (p_staged pe))) Hp) as [?|(k & w1 & Hc' & _)]; [by rewrite Ec|done|congruence].
    - destruct (Hk k eq_refl) as [kp Hkp]. apply (staged_top_run (length (p_staged pe)) p k (p_keypairs pe) (p_staged pe)); [|done|lia|lia].
      split; [by exists pe|exists kp; split; [done|by apply (Hw k)]|done|done]. }
  destruct Hrun as [w' E]. exists w'. split; [done|]. intros fuel Hf. rewrite <- E. unfold SendStagedPackets. rewrite Hp. cbn [from_option].
  apply (staged_top_fuel _ _ _ pe); [done|lia| |done]. intros pe' k kp _ _ Hkp. by apply (Hw k).
Qed.

(** ** What is sent *)

Definition elems_at (w : World) (c : ContainerPtr) : list QueueOutboundElement := from_option oc_elems [] (w_outs w !! c).

(** The elements of the containers, in order. *)
Definition elems_of (w : World) (q : list ContainerPtr) : list QueueOutboundElement := concat (map (elems_at w) q).

Lemma elems_of_same w w' q : (forall c, c ∈ q -> w_outs w' !! c = w_outs w !! c) -> elems_of w' q = elems_of w q.
Proof.
  intros Hq. unfold elems_of. f_equal. apply map_ext_Forall, Forall_forall. intros c Hc. unfold elems_at. by rewrite Hq.
Qed.

(** A container that gets nonces for all its elements goes to both queues. *)
Lemma send_container_all p k c w pe kp oc r :
  w_peers w !! p = Some pe -> p_isRunning pe = true -> room (S r) pe w -> w_keypairs w !! k = Some kp ->
  w_outs w !! c = Some oc -> oc_elems oc <> [] -> 0 <= kp_sendNonce kp ->
  kp_sendNonce kp + Z.of_nat (length (oc_elems oc)) <= RejectAfterMessages ->
  exists kept w', send_container p k c w = Some (false, w') /\
    w_peers w' = <[p := pe <| p_outbound := p_outbound pe ++ [Some c] |>]> (w_peers w) /\
    w_encryption w' = w_encryption w ++ [c] /\ w_outs w' = <[c := mkOutContainer true kept]> (w_outs w) /\
    w_keypairs w' !! k = Some (kp <| kp_sendNonce := kp_sendNonce kp + Z.of_nat (length (oc_elems oc)) |>) /\
    map oe_nonce kept = seqZ (kp_sendNonce kp) (Z.of_nat (length (oc_elems oc))) /\
    map oe_packet kept = map oe_packet (oc_elems oc) /\ Forall (fun e => oe_keypair e = Some k) kept.
Proof.
  intros Hp Hrun Hroom Hk Hc Hne Hn0 Hn. unfold send_container, out_container. rewrite bind_eq, Hc, deref_eq. cbv beta iota.
  destruct (assign_nonces_run p k (oc_elems oc) w kp Hk ltac:(lia)) as (kept & ooo & w1 & Ha & Hk1 & _ & Hs & Hpk & Hf & Ho). cbv zeta in *.
  pose proof (assign_nonces_rest _ _ _ _ _ _ Ha) as (Hp1 & Ho1 & He1). rewrite bind_eq, Ha. cbv beta iota.
  replace (Nat.min _ _) with (length (oc_elems oc)) in * by (unfold nonces_left; lia).
  rewrite take_ge in Hpk by lia. rewrite drop_ge in Ho by lia. destruct ooo; [|done].
  unfold set_out_container. rewrite bind_eq, modify_eq. cbv beta iota. rewrite bind_eq, ret_eq. cbv beta iota.
  destruct kept as [|e kept]; [by destruct (oc_elems oc)|].
  set (w2 := w1 <| w_outs ::= _ |>). assert (Hp2 : w_peers w2 !! p = Some pe) by (cbn; by rewrite Hp1).
  rewrite bind_eq, (peer_eq _ _ _ Hp2), Hrun. cbv beta iota.
  rewrite bind_eq, (queue_container_run p c w2 pe r Hp2) by (unfold room in *; cbn; by rewrite He1).
  eexists (e :: kept), _. split; [reflexivity|]. cbn. rewrite Hp1, Ho1, He1, Hk1, lookup_insert_eq. split_and!; try done.
  eapply Forall_impl; [exact Hf|]. by intros ? [? _].
Qed.

Lemma staged_loop_all p k q fuel w pe kp :
  w_peers w !! p = Some pe -> p_staged pe = q -> p_isRunning pe = true -> room (length q) pe w -> w_keypairs w !! k = Some kp ->
  NoDup q -> Forall (fun c => elems_at w c <> []) q -> 0 <= kp_sendNonce kp ->
  kp_sendNonce kp + Z.of_nat (length (elems_of w q)) <= RejectAfterMessages -> (length q < fuel)%nat ->
  exists w', staged_loop fuel p k w = Some (false, w') /\
    w_peers w' !! p = Some (pe <| p_staged := [] |> <| p_outbound := p_outbound pe ++ map Some q |>) /\
    w_encryption w' = w_encryption w ++ q /\ (forall c, c ∉ q -> w_outs w' !! c = w_outs w !! c) /\
    map oe_nonce (elems_of w' q) = seqZ (kp_sendNonce kp) (Z.of_nat (length (elems_of w q))) /\
    map oe_packet (elems_of w' q) = map oe_packet (elems_of w q) /\ Forall (fun e => oe_keypair e = Some k) (elems_of w' q).
Proof.
  revert fuel w pe kp. induction q as [|c q IH]; intros fuel w pe kp Hp Hq Hrun Hroom Hk Hnd Hin Hn0 Hn Hf;
    (destruct fuel as [|fuel]; [cbn in Hf; lia|]); cbn [staged_loop]; rewrite bind_eq, (peer_eq _ _ _ Hp); cbv beta iota; rewrite Hq.
  { exists w. rewrite !app_nil_r. split; [done|]. split; [rewrite Hp; by destruct pe; cbn in *; subst|]. by split_and!. }
  apply NoDup_cons in Hnd as [Hc Hnd]. apply Forall_cons in Hin as [Hne Hin].
  rewrite bind_eq, (set_peer_eq _ _ _ _ Hp). cbv beta iota. set (w1 := w <| w_peers ::= _ |>). set (pe1 := pe <| p_staged := q |>).
  unfold elems_at in Hne. destruct (w_outs w !! c) as [oc|] eqn:Hoc; [|done]. cbn [from_option] in Hne.
  assert (El : length (elems_of w (c :: q)) = (length (oc_elems oc) + length (elems_of w q))%nat).
  { unfold elems_of. cbn [map concat]. unfold elems_at at 1. rewrite Hoc. apply length_app. }
  destruct (send_container_all p k c w1 pe1 kp oc (length q)) as (kept & w2 & E & Hp2 & He2 & Ho2 & Hk2 & Hs2 & Hpk2 & Hf2); try done; [|lia|].
  { apply lookup_insert_eq. }
  rewrite bind_eq, E. cbv beta iota. clear E. cbn [w1 w_peers w_encryption w_outs set] in Hp2, He2, Ho2.
  set (pe2 := pe1 <| p_outbound := p_outbound pe1 ++ [Some c] |>) in *.
  assert (Hold : forall x, x <> c -> w_outs w2 !! x = w_outs w !! x) by (intros x Hx; by rewrite Ho2, lookup_insert_ne).
  assert (Heq : elems_of w2 q = elems_of w q) by (apply elems_of_same; intros x Hx; apply Hold; intros ->; done).
  destruct (IH fuel w2 pe2 (kp <| kp_sendNonce := kp_sendNonce kp + Z.of_nat (length (oc_elems oc)) |>)) as (w' & E' & Hp' & He' & Ho' & Hs' & Hpk' & Hf'); try done.
  { rewrite Hp2. apply lookup_insert_eq. }
  { unfold room in *. rewrite He2. cbn in *. rewrite !length_app. cbn. lia. }
  { apply Forall_forall. intros x Hx. unfold elems_at. rewrite Hold by (intros ->; done). by apply (proj1 (Forall_forall _ _) Hin). }
  { cbn. lia. }
  { rewrite Heq. cbn [kp_sendNonce set]. lia. }
  { cbn in Hf. lia. }
  assert (Hce : elems_of w' (c :: q) = kept ++ elems_of w' q).
  { unfold elems_of. cbn [map concat]. f_equal. unfold elems_at. rewrite (Ho' c Hc), Ho2, lookup_insert_eq. done. }
  exists w'. split; [exact E'|]. split_and!.
  - rewrite Hp'. cbn. by rewrite <- app_assoc.
  - by rewrite He', He2, <- app_assoc.
  - intros x Hx. apply not_elem_of_cons in Hx as [? ?]. by rewrite Ho', Hold.
  - rewrite Hce, map_app, Hs2, Hs', Heq, El, Nat2Z.inj_add. cbn [kp_sendNonce set]. by rewrite seqZ_app by lia.
  - rewrite Hce, map_app, Hpk2, Hpk', Heq. unfold elems_of. cbn [map concat]. rewrite map_app. unfold elems_at at 2. by rewrite Hoc.
  - rewrite Hce. by apply Forall_app.
Qed.

(** C24: what is staged is sent in order. On a device that is up, for a peer that runs
    and whose current session is young enough and has a nonce left for every staged
    packet, with room in the queues, [SendStagedPackets] empties the staged queue
    and appends its containers, in order, to the peer's outbound queue and to the
    encryption queue; their packets are the staged ones, marked with the session and
    numbered consecutively from its counter. *)
Theorem SendStagedPackets_sends p k w pe kp :
  w_state w = deviceStateUp -> w_peers w !! p = Some pe -> p_isRunning pe = true -> p_staged pe <> [] ->
  current (p_keypairs pe) = Some k -> w_keypairs w !! k = Some kp ->
  Sub (next_now (o_env (w_outside w))) (kp_created kp) < RejectAfterTime ->
  NoDup (p_staged pe) -> Forall (fun c => elems_at w c <> []) (p_staged pe) -> room (length (p_staged pe)) pe w ->
  0 <= kp_sendNonce kp -> kp_sendNonce kp + Z.of_nat (length (elems_of w (p_staged pe))) <= RejectAfterMessages ->
  exists w', SendStagedPackets p w = Some (tt, w') /\
    w_peers w' !! p = Some (pe <| p_staged := [] |> <| p_outbound := p_outbound pe ++ map Some (p_staged pe) |>) /\
    w_encryption w' = w_encryption w ++ p_staged pe /\
    map oe_nonce (elems_of w' (p_staged pe)) = seqZ (kp_sendNonce kp) (Z.of_nat (length (elems_of w (p_staged pe)))) /\
    map oe_packet (elems_of w' (p_staged pe)) = map oe_packet (elems_of w (p_staged pe)) /\
    Forall (fun e => oe_keypair e = Some k) (elems_of w' (p_staged pe)).
Proof.
  intros Hup Hp Hrun Hne Hc Hk Hage Hnd Hin Hroom Hn0 Hn.
  assert (Hlt : kp_sendNonce kp < RejectAfterMessages).
  { destruct (p_staged pe) as [|c q]; [done|]. apply Forall_cons in Hin as [Hin _]. unfold elems_of in Hn. cbn [map concat] in Hn.
    destruct (elems_at w c); [done|]. cbn [app length] in Hn. lia. }
  unfold SendStagedPackets. rewrite Hp. cbn [from_option]. cbn [staged_top]. rewrite bind_eq, (peer_eq _ _ _ Hp). cbv beta iota.
  unfold isUp. rewrite bind_eq, gets_eq. cbv beta iota. rewrite bool_decide_false, bool_decide_true by done. cbn [negb orb].
  rewrite bind_eq. unfold usable_keypair. rewrite bind_eq, (peer_eq _ _ _ Hp). cbv beta iota. rewrite Hc.
  rewrite bind_eq, (keypair_eq _ _ _ Hk). cbv beta iota. replace (kp_sendNonce kp >=? RejectAfterMessages) with false by (symmetry; lia).
  rewrite bind_eq, env_Since. cbv beta iota. rewrite ret_eq. cbv beta iota.
  replace (Sub _ _ >=? RejectAfterTime) with false by (symmetry; lia). set (w1 := w <| w_outside; o_env ::= tick |>).
  destruct (staged_loop_all p k (p_staged pe) (S (length (p_staged pe))) w1 pe kp) as (w' & E & H1 & H2 & _ & H3 & H4 & H5); try done; [lia|].
  exists w'. rewrite bind_eq, E. done.
Qed.

End staged.
