(* ===== verification/Corners.v ===== *)
(** * Corner cases

    What the code does at the edges of its encodings: payload lengths near
    2^16, the index zero, and a flag that outlives the peer it was set for. *)

From Stdlib Require Import String.
From stdpp Require Import base numbers list gmap.
From S2P Require Import Tai64n Replay Ratelimiter AllowedIPs.
From S2P Require Import Prelude Setters GoStrings Netip Env Crypto Messages Cookie NoiseTypes DeviceState Noise Timers PeerOps Send Receive Device Uapi Frame DeviceFrame Delivery Nonces Transport Staging.

Open Scope Z_scope.

(** C38: long IPv6 payload lengths wrap around. A received packet whose IPv6
    header declares a payload of 65496 bytes or more is not dropped as too
    short: the declared length plus that of the header overflows 16 bits, so a
    prefix of it of less than 40 bytes, no complete header, is passed on. *)
Theorem ipv6_length_wraps p packet b len src w :
  byte_at packet 0 = Some b -> Z.shiftr b 4 = 6 -> 40 <= zlen packet ->
  (slice packet 4 6 ≫= be_get 2) = Some len -> 65496 <= len <= 65535 ->
  packet_source packet = Some src -> Lookup (w_allowedips w) src = Some (Some p) ->
  exists cut, check_packet p packet w = Some (Some cut, w) /\ cut = take (Z.to_nat (len - 65496)) packet /\
    zlen cut < 40.
Proof.
  intros Hb Hv Hl Hlen Hr Hs Hlk. unfold packet_source in Hs. rewrite Hb in Hs. cbn [mbind option_bind] in Hs.
  unfold check_packet. rewrite Hb. st. cbv zeta. rewrite Hv in Hs |- *. cbn [Z.eqb Pos.eqb] in Hs |- *.
  rewrite (proj2 (Z.ltb_ge _ 40)) by lia. unfold IPv6offsetPayloadLength. change (4 + 2) with 6.
  destruct (slice packet 4 6) as [f|]; [|done]. cbn [mbind option_bind] in Hlen. st. rewrite Hlen. st.
  replace (u16 (len + 40)) with (len - 65496) by (unfold u16; zdm).
  replace (len - 65496 >? zlen packet) with false by lia.
  assert (Hcut : slice packet 0 (len - 65496) = Some (take (Z.to_nat (len - 65496)) packet)).
  { unfold slice, zlen in *. rewrite decide_True by lia. by rewrite drop_0, Z.sub_0_r. }
  rewrite Hcut. st. rewrite Hs. st. rewrite Hlk. st. rewrite bool_decide_eq_true_2 by done.
  eexists. split; [done|]. split; [done|]. unfold zlen. rewrite length_take. lia.
Qed.

(** C39: the index zero stands for two things. A peer without a handshake has
    local index 0, but 0 can also be drawn for a session. Forgetting the keys
    of a peer that has none then removes the entry with index 0 from the index
    table, whichever peer it belongs to; if that is a session of another peer, its
    packets are dropped. *)
Theorem index_zero_shared p w pe e :
  w_peers w !! p = Some pe -> p_keypairs pe = mkKeypairs None None None -> hs_localIndex (p_handshake pe) = 0 ->
  w_indexTable w !! 0 = Some e ->
  exists w', ZeroAndFlushAll p w = Some (tt, w') /\ w_indexTable w' !! 0 = None.
Proof.
  intros Hp Hks Hi He. destruct (ZeroAndFlushAll_run p w pe Hp) as (w' & pe' & Hr & _ & _ & _ & _ & _ & Ht).
  - rewrite Hks. cbn. intros k Hk x ->. destruct Hk as [[=]|[[=]|[=]]].
  - exists w'. split; [done|]. rewrite Ht, decide_True; [done|]. unfold peer_indices. rewrite Hks, Hi. by left.
Qed.

Section uapi.
Context {CR : Crypto} {EP : Endpoints}.

(** C40: the keepalive flag carries over. The line that starts the configuration
    of the next peer leaves the flag which says that persistent keepalives were
    just switched on, so that the next peer is sent a keepalive as well. *)
Theorem keepalive_flag_carries_over sp value w sp' err w' :
  handlePublicKeyLine sp value w = Some ((sp', err), w') -> sip_pkaOn sp' = sip_pkaOn sp.
Proof.
  intros Hr. unfold handlePublicKeyLine in Hr. destruct (PublicKey_FromHex _ _) as [pk ok].
  destruct (negb ok); [by injection Hr as <- _ _|]. rewrite bind_eq, get_eq in Hr. cbv beta iota zeta in Hr.
  apply bind_inv in Hr as (sp1 & w1 & H1 & Hr). assert (E : sip_pkaOn sp1 = sip_pkaOn sp).
  { destruct (Equals _ _); apply bind_inv in H1 as (q & w2 & _ & [= <- _]); done. }
  destruct (sip_Peer sp1); [by injection Hr as <- _ _|].
  apply bind_inv in Hr as (q & w2 & _ & [= <- _ _]). exact E.
Qed.

End uapi.
