(* ===== verification/Demo.v ===== *)
(** * Two devices

    A pair of devices configured over the configuration protocol, a handshake
    between them and a packet that travels from one TUN device to the other.
    The hypotheses of the theorems about devices hold along this run. *)

From Stdlib Require Import String.
From stdpp Require Import base numbers list gmap relations.
From S2P Require Import Tai64n Replay Ratelimiter AllowedIPs BitTrie Trie AllowedIPsCorrect AllowedIPsTable.
From S2P Require Import Prelude Setters GoStrings Netip Env Crypto Messages Cookie NoiseTypes DeviceState Noise NoiseCorrect NoiseComplete NoiseReplay Timers PeerOps Send Receive Device Uapi System Frame DeviceFrame Config Delivery Routing Nonces Transport Staging Staged Corners.

Open Scope Z_scope.

Import Toy.

(** An endpoint is its number; its text is a decimal number. *)
#[local] Instance demo_endpoints : Endpoints := {|
  DstToBytes := fun ep => [10; 0; 0; Z.of_nat ep];
  DstIP := fun ep => [10; 0; 0; Z.of_nat ep];
  DstToString := fun ep => decimal (Z.of_nat ep);
  ParseEndpoint := fun s => n ← ParseUint s 8; Some (Z.to_nat n)
|}.

(** Clocks that move by a second at each reading, and a source of
    random bytes for a key and an index in turn. *)
Definition demo_outside (seed : Z) : Outside :=
  mkOutside (mkEnv (unixEpoch + 1800000000 * Second) (replicate 40 Second)
      (map (fun i => map (fun j => (i * seed + j) mod 251) (seqZ 1 (if Z.odd (i + seed) then 32 else 4))) (seqZ 1 6)))
    [] [] [] [] [] [].

Definition secret (seed : Z) : list Z := map (fun j => (seed * j + 3) mod 256) (seqZ 1 32).

Definition public (seed : Z) : list Z := publicKey (default [] (clamp (secret seed))).

Definition line (key value : string) : list Z := lit key ++ [61] ++ lit value ++ [10].

(** Sets the private key [me], and [you] as a peer at endpoint [ep] with [route]. *)
Definition demo_config (me you : Z) (ep route : string) : list Z :=
  keyf (lit "private_key") (secret me) ++
  keyf (lit "public_key") (public you) ++
  line "endpoint" ep ++
  line "allowed_ip" route.

Definition new_world (seed : Z) : World := default (mkWorld deviceStateDown 0 0 false [] [] ∅ 0
    Ratelimiter.zero_ratelimiter empty_table ∅ zero_checker [] [] [] 0 ∅ ∅ ∅ ∅ 0 (demo_outside seed) [])
  (NewDevice None (demo_outside seed)).

Definition after (ops : list op) (w : World) : World := from_option snd w (run_list ops w).

(** The datagrams sent so far. *)
Definition sent (w : World) : list (list Z) :=
  concat (map (fun e => match e with EvSend bufs _ => bufs | _ => [] end) (w_out w)).

(** What [w] has sent since it was [w0]. *)
Definition wire (w0 w : World) : list (list Z) := drop (length (sent w0)) (sent w).

(** An IPv4 packet from 10.1.0.1 to 10.2.0.9, and the answer. *)
Definition demo_packet : list Z :=
  [69; 0; 0; 21; 0; 0; 0; 0; 64; 17; 0; 0; 10; 1; 0; 1; 10; 2; 0; 9; 42].

Definition a0_ops : list op := [OpIpcSet (demo_config 11 22 "2" "10.2.0.0/16"); OpUp].
Definition a0 : World := Eval vm_compute in after a0_ops (new_world 4).
Definition b0_ops : list op := [OpIpcSet (demo_config 22 11 "1" "10.1.0.0/16"); OpUp].
Definition b0 : World := Eval vm_compute in after b0_ops (new_world 9).

(** A has a packet for B and starts a handshake; B answers; A sends. *)
Definition a1_ops : list op := [OpReadTUN [demo_packet]].
Definition a1 : World := Eval vm_compute in after a1_ops a0.
Definition b1_ops : list op := [OpReceive (map (fun b => (b, 1%nat)) (wire a0 a1)); OpHandshake].
Definition b1 : World := Eval vm_compute in after b1_ops b0.
Definition a2_ops : list op := [OpReceive (map (fun b => (b, 2%nat)) (wire b0 b1)); OpHandshake].
Definition a2 : World := Eval vm_compute in after a2_ops a1.
Definition a3_ops : list op := [OpEncrypt].
Definition a3 : World := Eval vm_compute in after a3_ops a2.
Definition a4_ops : list op := [OpSequentialSend 0%nat].
Definition a4 : World := Eval vm_compute in after a4_ops a3.
Definition b2_ops : list op := [OpReceive (map (fun b => (b, 1%nat)) (wire a2 a4)); OpDecrypt].
Definition b2 : World := Eval vm_compute in after b2_ops b1.
Definition b3_ops : list op := [OpSequentialReceive 0%nat].
Definition b3 : World := Eval vm_compute in after b3_ops b2.

(** ** Reachability *)

#[local] Instance op_wf_dec o : Decision (op_wf o).
Proof. destruct o; cbn [op_wf]; apply _. Defined.

(** The operations are well formed and lead from [w] to [w']. *)
Definition runs (ops : list op) (w w' : World) : Prop :=
  bool_decide (Forall op_wf ops) = true /\ run_list ops w = Some (tt, w').

Lemma runs_rtc ops w w' : runs ops w w' -> rtc step w w'.
Proof. intros [Hf%bool_decide_eq_true Hr]. by eapply run_list_rtc. Qed.

Lemma reachable_after ops w w' : reachable w -> runs ops w w' -> reachable w'.
Proof. intros (mtu & out & w0 & H0 & Hr) Hw%runs_rtc. exists mtu, out, w0. split; [done|]. by etrans. Qed.

(** Evaluates a run. *)
Ltac run := split; vm_compute; reflexivity.

Lemma reachable_new seed : reachable (new_world seed).
Proof. eexists None, (demo_outside seed), (new_world seed). split; [|done]. reflexivity. Qed.

Lemma reachable_a0 : reachable a0.
Proof. apply (reachable_after a0_ops (new_world 4)); [apply reachable_new|run]. Qed.

Lemma reachable_b0 : reachable b0.
Proof. apply (reachable_after b0_ops (new_world 9)); [apply reachable_new|run]. Qed.

Lemma reachable_a1 : reachable a1.
Proof. apply (reachable_after a1_ops a0); [apply reachable_a0|run]. Qed.

Lemma reachable_b1 : reachable b1.
Proof. apply (reachable_after b1_ops b0); [apply reachable_b0|run]. Qed.

Lemma reachable_a2 : reachable a2.
Proof. apply (reachable_after a2_ops a1); [apply reachable_a1|run]. Qed.

Lemma reachable_b2 : reachable b2.
Proof. apply (reachable_after b2_ops b1); [apply reachable_b1|run]. Qed.

Lemma reachable_b3 : reachable b3.
Proof. apply (reachable_after b3_ops b2); [apply reachable_b2|run]. Qed.

(** What arrives is what was sent. *)
Example demo_delivery : tun_bufs (w_out b3) = [take 16 (nth 0 (wire a2 a4) []) ++ demo_packet].
Proof. vm_compute. reflexivity. Qed.

(** ** Delivery and routing *)

Definition b_ops : list op := b0_ops ++ b1_ops ++ b2_ops ++ b3_ops.

Lemma tun_delivery_witness :
  exists log : list (list Z * (KeypairPtr * Z)),
    log.*1 ≡ₚ [take 16 (nth 0 (wire a2 a4) []) ++ demo_packet] /\ NoDup log.*2 /\
    Forall (fun '(buf, (k, c)) => delivered (arrived b_ops) (w_keypairs b3) buf k c) log.
Proof.
  rewrite <- demo_delivery. apply (tun_delivery b_ops None (demo_outside 9) (new_world 9) b3).
  - reflexivity.
  - apply (bool_decide_unpack _). vm_compute. exact I.
  - vm_compute. reflexivity.
Defined.

Lemma inbound_source_routed_witness :
  exists bufs, tun_bufs (w_out b3) = tun_bufs (w_out b2) ++ bufs /\ Forall (from_peer (w_allowedips b2) 0) bufs.
Proof. apply (inbound_source_routed 0 b2 true b3 reachable_b2). vm_compute. reflexivity. Defined.

Lemma outbound_grouping_witness :
  exists m, group_packets [demo_packet; []; [96; 0]] [] a0 = Some (m, a0) /\ NoDup m.*1 /\
  (forall p, p ∈ m.*1 <-> routed (w_allowedips a0) p [demo_packet; []; [96; 0]] <> []) /\
  (forall p es, (p, es) ∈ m -> es = map NewOutboundElement (routed (w_allowedips a0) p [demo_packet; []; [96; 0]])).
Proof.
  apply (outbound_grouping [demo_packet; []; [96; 0]] a0 reachable_a0).
  apply (bool_decide_unpack _). vm_compute. exact I.
Defined.

(** ** Configuration *)

Lemma peers_listed_witness :
  w_keyMap a0 !! public 22 = Some 0%nat /\
  exists pe, w_peers a0 !! 0%nat = Some pe /\ hs_remoteStatic (p_handshake pe) = public 22.
Proof.
  destruct (peers_listed a0 reachable_a0) as (_ & H & _).
  assert (E : w_keyMap a0 !! public 22 = Some 0%nat) by (vm_compute; reflexivity).
  split; [exact E|apply (H _ _ E)].
Defined.

Lemma routes_longest_prefix_witness :
  exists m : prefixes,
    lists (w_allowedips a0) m /\
    Lookup (w_allowedips a0) [10; 2; 7; 7] = Some (lpm (m false) (bits_of [10; 2; 7; 7])) /\
    Lookup (w_allowedips a0) [10; 2; 7; 7] = Some (Some 0%nat) /\
    forall v6 q p, m v6 !! q = Some p -> exists pk, w_keyMap a0 !! pk = Some p.
Proof.
  destruct (routes_longest_prefix a0 reachable_a0) as (m & Hi & Hm & Hl). exists m. split; [exact Hi|].
  split; [|split; [vm_compute; reflexivity|exact Hl]].
  apply Hm; [by left|]. repeat (constructor; [vm_compute; split; congruence|]). constructor.
Defined.

Lemma allowed_ip_line_witness :
  exists m t,
    lists (w_allowedips a0) m /\
    handlePeerLine (mkSetPeer (Some 0%nat) false false false) (lit "allowed_ip") (lit "10.2.3.0/24") a0 =
      Some ((mkSetPeer (Some 0%nat) false false false, None), a0 <| w_allowedips := t |>) /\
    lists t (spec_call m (CInsert (mkPrefix [10; 2; 3; 0] 24) 0)).
Proof.
  apply (allowed_ip_line a0 (mkSetPeer (Some 0%nat) false false false) 0 (lit "10.2.3.0/24") (mkPrefix [10; 2; 3; 0] 24) false
    reachable_a0); [reflexivity|reflexivity|vm_compute; reflexivity|right; vm_compute; congruence].
Defined.

Definition a_closed_ops : list op := [OpClose].
Definition a_closed : World := Eval vm_compute in after a_closed_ops a2.

Definition after_close_ops : list op :=
  [OpUp; OpIpcSet (demo_config 11 22 "2" "10.2.0.0/16"); OpReadTUN [demo_packet]].
Definition after_close : World := Eval vm_compute in after after_close_ops a_closed.

(** ** Sessions *)

(** The sessions at both ends. *)
Definition a_key : KeypairPtr := 2.
Definition b_key : KeypairPtr := 1.
Definition zero_keypair : Keypair := mkKeypair 0 [] [] (Reset zero_filter) false 0 0 0.
Definition a_session : Keypair := default zero_keypair (w_keypairs a2 !! a_key).
Definition b_session : Keypair := default zero_keypair (w_keypairs b1 !! b_key).

Definition batch (n : nat) : list QueueOutboundElement := replicate n (NewOutboundElement demo_packet).

(** Three nonces, a round of encryption, and two more nonces. *)
Definition first_batch : (list QueueOutboundElement * list QueueOutboundElement) * World :=
  Eval vm_compute in default (([], []), a2) (assign_nonces 0 a_key (batch 3) a2).
Definition between : World := Eval vm_compute in after a3_ops first_batch.2.
Definition second_batch : (list QueueOutboundElement * list QueueOutboundElement) * World :=
  Eval vm_compute in default (([], []), between) (assign_nonces 0 a_key (batch 2) between).

Lemma assigned_nonces_fresh_witness :
  NoDup (map oe_nonce first_batch.1.1 ++ map oe_nonce second_batch.1.1) /\
  map oe_nonce first_batch.1.1 = [1; 2; 3].
Proof.
  split; [|vm_compute; reflexivity].
  apply (assigned_nonces_fresh a2 0 a_key (batch 3) first_batch.1.1 first_batch.1.2 first_batch.2 between 0 (batch 2)
    second_batch.1.1 second_batch.1.2 second_batch.2 reachable_a2);
    [vm_compute; reflexivity|apply (runs_rtc a3_ops); run|vm_compute; reflexivity].
Defined.

Lemma transport_roundtrip_witness :
  exists msg,
    encrypt_elem 1420 (mkOutElem demo_packet 7 (Some a_key) None) a2 =
      Some (mkOutElem msg 7 (Some a_key) None, a2) /\
    zlen demo_packet + 32 <= zlen msg < zlen demo_packet + 48 /\
    le_get 4 msg = Some MessageTransportType /\ le_get 4 (drop 4 msg) = Some (kp_remoteIndex a_session) /\
    exists elem plain,
      decrypt_elem (mkInElem msg (Some msg) 0 (Some b_key) 1) b1 = Some (elem, b1) /\
      ie_counter elem = 7 /\ ie_packet elem = Some plain /\
      check_packet 0 plain b1 = Some (Some demo_packet, b1).
Proof.
  apply (transport_roundtrip 1420 demo_packet 7 a_key None a2 a_session 0 [10; 1; 0; 1] b_key 1 b1 b_session);
    [lia|unfold is_u64; lia| |vm_compute; reflexivity|vm_compute; split; congruence|vm_compute; reflexivity..].
  exists 69. split; [reflexivity|]. left. split; [reflexivity|]. split; [vm_compute; congruence|vm_compute; reflexivity].
Defined.

(** ** The handshake *)

Definition first_initiation : Initiation.MessageInitiation := Eval vm_compute in default Initiation.zero (Initiation.unmarshal Initiation.zero (nth 0 (wire a0 a1) [])).

Definition peer_of (w : World) : Peer := default zero_peer (w_peers w !! 0%nat).

(** The keys that the sources of both devices deliver. *)
Definition a_ephemeral : list Z := Eval vm_compute in default [] (clamp (nth 0 (rands (o_env (w_outside a0))) [])).
Definition b_ephemeral : list Z := Eval vm_compute in default [] (clamp (nth 1 (rands (o_env (w_outside b0))) [])).

Lemma configured_demo w sk :
  w_publicKey w = publicKey (w_privateKey w) -> w_peers w !! 0%nat = Some (peer_of w) ->
  p_keypairs (peer_of w) = mkKeypairs None None None ->
  hs_remoteStatic (p_handshake (peer_of w)) = publicKey sk ->
  hs_precomputedStaticStatic (p_handshake (peer_of w)) = ScalarMult (w_privateKey w) (publicKey sk) ->
  hs_presharedKey (p_handshake (peer_of w)) = zeros 32 ->
  configured w 0 (p_handshake (peer_of w)) (p_keypairs (peer_of w)) sk (zeros 32).
Proof.
  intros H1 H2 H3 H4 H5 H6. split; [done| | |done|done|done].
  - split; [by exists (peer_of w)|done].
  - rewrite H3. by split_and!.
Qed.

Lemma handshake_agreement_witness :
  exists m1 a1 b1 m2 b2 a2 a3 b3 kpa kpb,
    CreateMessageInitiation 0 a0 = Some (Some m1, a1) /\
    ConsumeMessageInitiation (with_macs m1 [1] [2]) b0 = Some (Some 0%nat, b1) /\
    CreateMessageResponse 0 b1 = Some (Some m2, b2) /\
    ConsumeMessageResponse (with_macs_r m2 [] []) a1 = Some (Some 0%nat, a2) /\
    BeginSymmetricSession 0 a2 = Some (true, a3) /\ BeginSymmetricSession 0 b2 = Some (true, b3) /\
    holds_session a3 0 kpa /\ holds_session b3 0 kpb /\ matching kpa kpb.
Proof.
  apply (handshake_agreement (zeros 32) a0 b0 0 0 (p_handshake (peer_of a0)) (p_handshake (peer_of b0))
    (p_keypairs (peer_of a0)) (p_keypairs (peer_of b0)) a_ephemeral b_ephemeral [1] [2] [] []).
  - apply configured_demo; vm_compute; reflexivity.
  - apply configured_demo; vm_compute; reflexivity.
  - split; [vm_compute; reflexivity| |vm_compute; reflexivity|vm_compute; reflexivity].
    exists (peer_of b0). split; [vm_compute; reflexivity|]. split; [vm_compute; reflexivity|reflexivity].
  - exists (nth 0 (rands (o_env (w_outside a0))) []), (drop 1 (rands (o_env (w_outside a0)))).
    split; [vm_compute; reflexivity|]. split; [vm_compute; reflexivity|]. split; [vm_compute; reflexivity|].
    vm_compute. eexists. reflexivity.
  - eexists _, (nth 1 (rands (o_env (w_outside b0))) []), (drop 2 (rands (o_env (w_outside b0)))).
    split; [vm_compute; reflexivity|]. split; [vm_compute; reflexivity|vm_compute; reflexivity].
  - vm_compute. reflexivity.
  - vm_compute. reflexivity.
  - vm_compute. reflexivity.
  - vm_compute. reflexivity.
Defined.

(** The same initiation twice, the second time with other codes. *)
Definition replayed : list hs_op :=
  [OpConsumeInitiation first_initiation; OpCreateResponse 0; OpConsumeInitiation (with_macs first_initiation [1] [2])].

Definition replayed_run : list (option PeerPtr) * World := Eval vm_compute in default ([], b0) (run_ops replayed b0).

Lemma initiation_no_replay_witness :
  replayed_run.1 !! 0%nat = Some (Some 0%nat) /\ replayed_run.1 !! 2%nat = Some None.
Proof.
  split; [vm_compute; reflexivity|].
  apply (initiation_no_replay replayed b0 replayed_run.1 replayed_run.2 0 2 first_initiation
    (with_macs first_initiation [1] [2]) 0); try (vm_compute; reflexivity). lia.
Defined.

(** ** Queues and loops *)

Lemma SendStagedPackets_terminates_witness :
  exists w', SendStagedPackets 0 a1 = Some (tt, w') /\ staged_top 9 0 a1 = Some (tt, w').
Proof.
  destruct (SendStagedPackets_terminates 0 a1 (peer_of a1)) as (w' & E & H).
  - apply reachable_nonces, reachable_a1.
  - vm_compute. reflexivity.
  - vm_compute. discriminate.
  - apply (bool_decide_unpack _). vm_compute. exact I.
  - vm_compute. repeat (constructor; [eexists; reflexivity|]). constructor.
  - split; vm_compute; lia.
  - exists w'. split; [exact E|]. apply H. vm_compute. lia.
Defined.

(** Three packets in two containers, for the session that A has. *)
Definition a_staged : World := Eval vm_compute in
  from_option snd a2 ((c ← new_container (batch 2); StagePackets 0 c;; c ← new_container (batch 1); StagePackets 0 c) a2).

Lemma SendStagedPackets_sends_witness :
  exists w', SendStagedPackets 0 a_staged = Some (tt, w') /\
    w_encryption w' = w_encryption a_staged ++ p_staged (peer_of a_staged) /\
    map oe_nonce (elems_of w' (p_staged (peer_of a_staged))) = [1; 2; 3].
Proof.
  destruct (SendStagedPackets_sends 0 a_key a_staged (peer_of a_staged) (default zero_keypair (w_keypairs a_staged !! a_key)))
    as (w' & E & _ & He & Hn & _).
  1-7: vm_compute; congruence.
  - apply (bool_decide_unpack _). vm_compute. exact I.
  - vm_compute. repeat (constructor; [discriminate|]). constructor.
  - split; vm_compute; lia.
  - vm_compute. congruence.
  - vm_compute. congruence.
  - exists w'. split; [exact E|]. split; [exact He|]. etransitivity; [exact Hn|]. vm_compute. reflexivity.
Defined.

(** ** Corner cases *)

(** An IPv6 packet from 101:101:... that declares 65497 bytes after the header. *)
Definition wrapped_packet : list Z := [96; 0; 0; 0; 255; 217; 59; 64] ++ replicate 40 1.
Definition c0 : World := Eval vm_compute in after [OpIpcSet (demo_config 22 11 "1" "101::/16")] (new_world 9).

Lemma ipv6_length_wraps_witness :
  exists cut, check_packet 0 wrapped_packet c0 = Some (Some cut, c0) /\
    cut = take (Z.to_nat (65497 - 65496)) wrapped_packet /\ zlen cut < 40.
Proof.
  apply (ipv6_length_wraps 0 wrapped_packet 96 65497 (replicate 16 1) c0); try (vm_compute; reflexivity).
  - vm_compute. congruence.
  - lia.
Defined.

(** [b1] with its session under the index 0, and a second peer. *)
Definition zero_index : World :=
  b1 <| w_indexTable := {[0 := mkIndexEntry (Some 0%nat) None (Some b_key)]} |> <| w_peers ::= <[9%nat := zero_peer]> |>.

Lemma index_zero_shared_witness :
  w_indexTable zero_index !! 0 = Some (mkIndexEntry (Some 0%nat) None (Some b_key)) /\
  exists w', ZeroAndFlushAll 9 zero_index = Some (tt, w') /\ w_indexTable w' !! 0 = None.
Proof.
  split; [vm_compute; reflexivity|].
  apply (index_zero_shared 9 zero_index zero_peer (mkIndexEntry (Some 0%nat) None (Some b_key))); vm_compute; reflexivity.
Defined.

(** A peer whose keepalives are switched on, then one without keepalives. *)
Definition two_peers : list Z :=
  keyf (lit "public_key") (public 22) ++ line "persistent_keepalive_interval" "25" ++
  keyf (lit "public_key") (public 33) ++ line "endpoint" "3".

Definition flag_set : ipcSetPeer := mkSetPeer (Some 0%nat) false false true.
Definition next_line : (ipcSetPeer * option ipc_code) * World :=
  Eval vm_compute in default ((flag_set, None), a0) (handlePublicKeyLine flag_set (hex_encode (public 33)) a0).

Lemma keepalive_flag_carries_over_witness :
  sip_Peer next_line.1.1 <> sip_Peer flag_set /\ sip_pkaOn next_line.1.1 = sip_pkaOn flag_set.
Proof.
  split; [vm_compute; discriminate|].
  apply (keepalive_flag_carries_over flag_set (hex_encode (public 33)) a0 next_line.1.1 next_line.1.2 next_line.2).
  vm_compute. reflexivity.
Defined.

(** Both get a keepalive: the endpoints that handshakes are started with. *)
Example keepalive_to_both :
  omap (fun e => match e with EvSend _ ep => Some ep | _ => None end)
    (drop (length (w_out a0)) (w_out (after [OpIpcSet two_peers] a0))) = [2%nat; 3%nat].
Proof. vm_compute. reflexivity. Qed.
