(* ===== verification/Encoding.v ===== *)
(** * Keys as text (src/wireguard-tools/src/encoding.c)

    The tool that configures the device reads and prints keys in base64 and in
    hexadecimal, in constant time: by arithmetic on characters instead of branches
    and tables. The arithmetic is kept as it is in the code; [int] is [Z], and
    unsigned types wrap around. The theorems show that it is base64 and the
    hexadecimal of the device, with no other text for a key than its own. *)

From Stdlib Require Import String.
From stdpp Require Import base numbers list.
From S2P Require Import AllowedIPs BitTrie Trie AllowedIPsCorrect AllowedIPsTable.
From S2P Require Import Prelude GoStrings Crypto NoiseTypes Netip NetipCorrect.

Open Scope Z_scope.

Definition WG_KEY_LEN : nat := 32.

Definition WG_KEY_LEN_BASE64 : nat := (WG_KEY_LEN + 2) / 3 * 4 + 1.

Definition WG_KEY_LEN_HEX : nat := WG_KEY_LEN * 2 + 1.

(** ** ctype.h *)

Definition char_is_space (c : Z) : bool :=
  let d := u8 (c - 9) in
  negb (Z.land (Z.shiftr 8388639 (Z.land d 31)) (Z.shiftr 1 (Z.shiftr d 5)) =? 0).

Definition char_is_digit (c : Z) : bool := negb (Z.shiftr (u32 (Z.land (48 - 1 - c) (c - (57 + 1)))) 31 =? 0).

Definition char_is_alpha (c : Z) : bool :=
  negb (Z.shiftr (u32 (Z.land (97 - 1 - Z.lor c 32) (Z.lor c 32 - (122 + 1)))) 31 =? 0).

(** ** Base64 *)

(** [dest[i]] for the six bits [input[i]] *)
Definition encode_char (x : Z) : Z :=
  u8 (x + 65 + Z.land (Z.shiftr (25 - x) 8) 6 - Z.land (Z.shiftr (51 - x) 8) 75 - Z.land (Z.shiftr (61 - x) 8) 15 +
      Z.land (Z.shiftr (62 - x) 8) 3).

Definition encode_base64 (s0 s1 s2 : Z) : list Z :=
  map encode_char
    [Z.land (Z.shiftr s0 2) 63; Z.land (Z.lor (Z.shiftl s0 4) (Z.shiftr s1 4)) 63;
     Z.land (Z.lor (Z.shiftl s1 2) (Z.shiftr s2 6)) 63; Z.land s2 63].

Definition byte_at (b : list Z) (i : nat) : Z := nth i b 0.

(** The text without its final NUL. *)
Definition key_to_base64 (key : list Z) : list Z :=
  let n := (WG_KEY_LEN / 3)%nat in
  concat (map (fun i => encode_base64 (byte_at key (i * 3)) (byte_at key (i * 3 + 1)) (byte_at key (i * 3 + 2))) (seq 0 n)) ++
  take 3 (encode_base64 (byte_at key (n * 3)) (byte_at key (n * 3 + 1)) 0) ++ [61].

(** The value of a character, -1 for one that is not base64. *)
Definition decode_char (c : Z) : Z :=
  -1 + Z.land (Z.shiftr (Z.land (65 - 1 - c) (c - (90 + 1))) 8) (c - 64)
     + Z.land (Z.shiftr (Z.land (97 - 1 - c) (c - (122 + 1))) 8) (c - 70)
     + Z.land (Z.shiftr (Z.land (48 - 1 - c) (c - (57 + 1))) 8) (c + 5)
     + Z.land (Z.shiftr (Z.land (43 - 1 - c) (c - (43 + 1))) 8) 63
     + Z.land (Z.shiftr (Z.land (47 - 1 - c) (c - (47 + 1))) 8) 64.

Definition decode_base64 (c0 c1 c2 c3 : Z) : Z :=
  Z.lor (Z.lor (Z.lor (Z.shiftl (decode_char c0) 18) (Z.shiftl (decode_char c1) 12)) (Z.shiftl (decode_char c2) 6)) (decode_char c3).

(** The loop of [key_from_base64] over [n] groups from group [i]: the key and
    [ret]. *)
Fixpoint decode_groups (base64 : list Z) (n i : nat) (key : list Z) (ret : Z) : list Z * Z :=
  match n with
  | O => (key, ret)
  | S n =>
      let val := decode_base64 (byte_at base64 (i * 4)) (byte_at base64 (i * 4 + 1)) (byte_at base64 (i * 4 + 2)) (byte_at base64 (i * 4 + 3)) in
      decode_groups base64 n (S i) (key ++ [Z.land (Z.shiftr val 16) 255; Z.land (Z.shiftr val 8) 255; Z.land val 255])
        (u8 (Z.lor ret (Z.shiftr (u32 val) 31)))
  end.

(** [1 & ((ret - 1) >> 8)] *)
Definition is_zero8 (ret : Z) : bool := negb (Z.land 1 (Z.shiftr (ret - 1) 8) =? 0).

Definition key_from_base64 (base64 : list Z) : option (list Z) :=
  if negb (bool_decide (length base64 = WG_KEY_LEN_BASE64 - 1)%nat) || negb (byte_at base64 (WG_KEY_LEN_BASE64 - 2) =? 61) then None
  else
    let n := (WG_KEY_LEN / 3)%nat in
    let '(key, ret) := decode_groups base64 n 0 [] 0 in
    let val := decode_base64 (byte_at base64 (n * 4)) (byte_at base64 (n * 4 + 1)) (byte_at base64 (n * 4 + 2)) 65 in
    let ret := u8 (Z.lor ret (Z.lor (Z.shiftr (u32 val) 31) (Z.land val 255))) in
    if is_zero8 ret then Some (key ++ [Z.land (Z.shiftr val 16) 255; Z.land (Z.shiftr val 8) 255]) else None.

(** ** Hexadecimal *)

(** The digit of four bits, in unsigned arithmetic. *)
Definition hex_char (x : Z) : Z := u8 (u32 (87 + x + Z.land (Z.shiftr (u32 (x - 10)) 8) (u32 (Z.lnot 38)))).

Definition key_to_hex (key : list Z) : list Z :=
  concat (map (fun b => [hex_char (Z.shiftr b 4); hex_char (Z.land b 15)]) key).

(** The value of a digit and what is added to [ret]. *)
Definition unhex_char (c : Z) : Z * Z :=
  let c_num := Z.lxor c 48 in
  let c_num0 := u8 (Z.shiftr (u32 (c_num - 10)) 8) in
  let c_alpha := u8 (u32 (Z.land c (u32 (Z.lnot 32)) - 55)) in
  let c_alpha0 := u8 (Z.shiftr (Z.lxor (u32 (c_alpha - 10)) (u32 (c_alpha - 16))) 8) in
  (Z.lor (Z.land c_num0 c_num) (Z.land c_alpha0 c_alpha), Z.shiftr (Z.lor c_num0 c_alpha0 - 1) 8).

(** The loop of [key_from_hex]. *)
Fixpoint unhex_loop (hex : list Z) (ret : Z) : list Z * Z :=
  match hex with
  | c :: d :: hex =>
      let '(hi, bad1) := unhex_char c in
      let ret := u8 (Z.lor ret bad1) in
      let c_acc := u8 (hi * 16) in
      let '(lo, bad2) := unhex_char d in
      let ret := u8 (Z.lor ret bad2) in
      let '(key, ret) := unhex_loop hex ret in
      (u8 (Z.lor c_acc lo) :: key, ret)
  | _ => ([], ret)
  end.

Definition key_from_hex (hex : list Z) : option (list Z) :=
  if negb (bool_decide (length hex = WG_KEY_LEN_HEX - 1)%nat) then None
  else
    let '(key, ret) := unhex_loop hex 0 in
    if is_zero8 ret then Some key else None.

Definition key_is_zero (key : list Z) : bool := is_zero8 (fold_left (fun acc b => u8 (Z.lor acc b)) key 0).

(** ** Characters, one by one *)

Lemma forall_range (f : Z -> bool) lo n a : forallb f (seqZ lo n) = true -> lo <= a < lo + n -> f a = true.
Proof. intros H Ha. rewrite forallb_forall in H. apply H, list_elem_of_In, elem_of_seqZ. lia. Qed.

Lemma char_is_space_spec c : 0 <= c < 256 -> char_is_space c = ((9 <=? c) && (c <=? 13) || (c =? 32)).
Proof.
  intros Hc. apply eqb_prop. apply (forall_range (fun c => Bool.eqb (char_is_space c) ((9 <=? c) && (c <=? 13) || (c =? 32))) 0 256); [|lia].
  vm_compute. reflexivity.
Qed.

Lemma char_is_digit_spec c : 0 <= c < 256 -> char_is_digit c = is_digit c.
Proof.
  intros Hc. apply eqb_prop. apply (forall_range (fun c => Bool.eqb (char_is_digit c) (is_digit c)) 0 256); [|lia]. vm_compute. reflexivity.
Qed.

(** The alphabet of RFC 4648. *)
Definition alphabet : list Z := Eval vm_compute in lit "ABCDEFGHIJKLMNOPQRSTUVWXYZabcdefghijklmnopqrstuvwxyz0123456789+/".

Lemma encode_char_alphabet x : 0 <= x < 64 -> encode_char x = nth (Z.to_nat x) alphabet 0.
Proof.
  intros Hx. apply Z.eqb_eq. apply (forall_range (fun x => encode_char x =? nth (Z.to_nat x) alphabet 0) 0 64); [|lia]. vm_compute. reflexivity.
Qed.

Lemma decode_encode x : 0 <= x < 64 -> decode_char (encode_char x) = x.
Proof.
  intros Hx. apply Z.eqb_eq. apply (forall_range (fun x => decode_char (encode_char x) =? x) 0 64); [|lia]. vm_compute. reflexivity.
Qed.

(** What a character decodes to; the code does not depend on the sign of [char]. *)
Lemma decode_char_cases c : -128 <= c < 256 -> decode_char c = -1 \/ (0 <= decode_char c < 64 /\ encode_char (decode_char c) = u8 c).
Proof.
  intros Hc. assert ((decode_char c =? -1) || (0 <=? decode_char c) && (decode_char c <? 64) && (encode_char (decode_char c) =? u8 c) = true) as Hd.
  { apply (forall_range (fun c => (decode_char c =? -1) || (0 <=? decode_char c) && (decode_char c <? 64) &&
      (encode_char (decode_char c) =? u8 c)) (-128) 384); [|lia]. vm_compute. reflexivity. }
  apply orb_prop in Hd as [Hd|Hd]; [left; lia|right]. lia.
Qed.

(** ** Groups *)

Definition sextets (v0 v1 v2 v3 : Z) : Z := v0 * 2 ^ 18 + v1 * 2 ^ 12 + v2 * 2 ^ 6 + v3.

Lemma decode_base64_sum c0 c1 c2 c3 :
  0 <= decode_char c0 -> 0 <= decode_char c1 < 64 -> 0 <= decode_char c2 < 64 -> 0 <= decode_char c3 < 64 ->
  decode_base64 c0 c1 c2 c3 = sextets (decode_char c0) (decode_char c1) (decode_char c2) (decode_char c3).
Proof.
  intros H0 H1 H2 H3. unfold decode_base64, sextets. set (v0 := decode_char c0) in *. set (v1 := decode_char c1) in *.
  set (v2 := decode_char c2) in *. set (v3 := decode_char c3) in *. rewrite (Z.shiftl_mul_pow2 v1), (Z.shiftl_mul_pow2 v2) by lia.
  rewrite (lor_shiftl_add v0 (v1 * 2 ^ 12) 18) by lia.
  replace (v0 * 2 ^ 18 + v1 * 2 ^ 12) with (Z.shiftl (v0 * 64 + v1) 12) by (rewrite Z.shiftl_mul_pow2 by lia; lia).
  rewrite lor_shiftl_add by lia.
  replace ((v0 * 64 + v1) * 2 ^ 12 + v2 * 2 ^ 6) with (Z.shiftl (v0 * 4096 + v1 * 64 + v2) 6) by (rewrite Z.shiftl_mul_pow2 by lia; lia).
  rewrite lor_shiftl_add by lia. rewrite ?Z.shiftl_mul_pow2 by lia. lia.
Qed.

(** A character that is not base64 makes the value negative. *)
Lemma decode_base64_sign c0 c1 c2 c3 :
  decode_base64 c0 c1 c2 c3 < 0 <-> decode_char c0 < 0 \/ decode_char c1 < 0 \/ decode_char c2 < 0 \/ decode_char c3 < 0.
Proof. unfold decode_base64. rewrite !Z.lor_neg, !Z.shiftl_neg. tauto. Qed.

Lemma lor_range n a b : 0 <= n -> - 2 ^ n <= a < 2 ^ n -> - 2 ^ n <= b < 2 ^ n -> - 2 ^ n <= Z.lor a b < 2 ^ n.
Proof.
  intros Hn Ha Hb. assert (forall x, - 2 ^ n <= x < 2 ^ n <-> Z.shiftr x n = 0 \/ Z.shiftr x n = -1) as Hs.
  { intros x. rewrite Z.shiftr_div_pow2 by lia. assert (0 < 2 ^ n) by lia. split; [|intros [E|E]; Z.div_mod_to_equations; nia].
    intros Hx. destruct (decide (0 <= x)); [left; apply Z.div_small; lia|right]. symmetry. apply (Z.div_unique _ _ _ (x + 2 ^ n)); lia. }
  apply Hs. apply Hs in Ha, Hb. rewrite Z.shiftr_lor. destruct Ha as [->| ->], Hb as [->| ->]; cbn; tauto.
Qed.

Lemma decode_base64_range c0 c1 c2 c3 :
  -128 <= c0 < 256 -> -128 <= c1 < 256 -> -128 <= c2 < 256 -> -128 <= c3 < 256 -> - 2 ^ 31 <= decode_base64 c0 c1 c2 c3 < 2 ^ 31.
Proof.
  intros H0 H1 H2 H3. unfold decode_base64. assert (forall c, -128 <= c < 256 -> -1 <= decode_char c < 64) as Hc.
  { intros c Hr. destruct (decode_char_cases c Hr); lia. }
  specialize (Hc _ H0) as V0. specialize (Hc _ H1) as V1. specialize (Hc _ H2) as V2. specialize (Hc _ H3) as V3.
  rewrite !Z.shiftl_mul_pow2 by lia. repeat apply lor_range; lia.
Qed.

Lemma sign_bit val : - 2 ^ 31 <= val < 2 ^ 31 -> Z.shiftr (u32 val) 31 = if val <? 0 then 1 else 0.
Proof.
  intros Hv. rewrite Z.shiftr_div_pow2 by lia. unfold u32. destruct (val <? 0) eqn:E; zbool.
  - replace (val mod 2 ^ 32) with (val + 2 ^ 32) by (apply (Z.mod_unique _ _ (-1)); lia). symmetry. apply (Z.div_unique _ _ _ (val + 2 ^ 31)); lia.
  - rewrite Z.mod_small by lia. apply Z.div_small. lia.
Qed.

(** The three bytes of a value. *)
Definition bytes3 (val : Z) : list Z := [Z.land (Z.shiftr val 16) 255; Z.land (Z.shiftr val 8) 255; Z.land val 255].

Lemma bytes3_div val : bytes3 val = [val / 65536 mod 256; val / 256 mod 256; val mod 256].
Proof. unfold bytes3. change 255 with (Z.ones 8). rewrite !Z.land_ones, !Z.shiftr_div_pow2 by lia. done. Qed.

(** The six bits of three bytes. *)
Lemma encode_base64_div s0 s1 s2 :
  0 <= s0 < 256 -> 0 <= s1 < 256 -> 0 <= s2 < 256 ->
  encode_base64 s0 s1 s2 = map encode_char [s0 / 4; s0 mod 4 * 16 + s1 / 16; s1 mod 16 * 4 + s2 / 64; s2 mod 64].
Proof.
  intros H0 H1 H2. unfold encode_base64. change 63 with (Z.ones 6). rewrite !Z.land_ones, !Z.shiftr_div_pow2 by lia.
  rewrite !lor_shiftl_add by zdm. f_equal. repeat (apply (f_equal2 cons); [zdm|]). done.
Qed.

(** Decoding what was encoded, and encoding what was decoded. *)
Lemma encode_group s0 s1 s2 :
  0 <= s0 < 256 -> 0 <= s1 < 256 -> 0 <= s2 < 256 ->
  exists c0 c1 c2 c3, encode_base64 s0 s1 s2 = [c0; c1; c2; c3] /\ decode_base64 c0 c1 c2 c3 = s0 * 65536 + s1 * 256 + s2.
Proof.
  intros H0 H1 H2. rewrite encode_base64_div by done. eexists _, _, _, _. split; [done|].
  rewrite decode_base64_sum; rewrite !decode_encode by zdm; [unfold sextets; zdm|zdm..].
Qed.

Lemma decode_group c0 c1 c2 c3 :
  0 <= c0 < 256 -> 0 <= c1 < 256 -> 0 <= c2 < 256 -> 0 <= c3 < 256 -> 0 <= decode_base64 c0 c1 c2 c3 ->
  exists b0 b1 b2, bytes3 (decode_base64 c0 c1 c2 c3) = [b0; b1; b2] /\ is_bytes [b0; b1; b2] /\ encode_base64 b0 b1 b2 = [c0; c1; c2; c3].
Proof.
  intros H0 H1 H2 H3 Hv. assert (~ (decode_char c0 < 0 \/ decode_char c1 < 0 \/ decode_char c2 < 0 \/ decode_char c3 < 0)) as Hn
    by (rewrite <- decode_base64_sign; lia).
  assert (forall c, 0 <= c < 256 -> ~ decode_char c < 0 -> 0 <= decode_char c < 64 /\ encode_char (decode_char c) = c) as Hc.
  { intros c Hr Hp. destruct (decode_char_cases c ltac:(lia)) as [?|[? E]]; [lia|]. split; [done|]. rewrite E. apply Z.mod_small. lia. }
  destruct (Hc c0 H0 ltac:(tauto)) as [R0 E0]. destruct (Hc c1 H1 ltac:(tauto)) as [R1 E1].
  destruct (Hc c2 H2 ltac:(tauto)) as [R2 E2]. destruct (Hc c3 H3 ltac:(tauto)) as [R3 E3].
  rewrite decode_base64_sum by lia. rewrite bytes3_div. set (v := sextets _ _ _ _).
  exists (v / 65536 mod 256), (v / 256 mod 256), (v mod 256). split; [done|]. split; [repeat constructor; zdm|].
  rewrite encode_base64_div by zdm. transitivity (map encode_char [decode_char c0; decode_char c1; decode_char c2; decode_char c3]).
  - f_equal. unfold v, sextets. clear -R0 R1 R2 R3. revert R0 R1 R2 R3. generalize (decode_char c0), (decode_char c1), (decode_char c2), (decode_char c3).
    intros. repeat (apply (f_equal2 cons); [zdm|]). done.
  - cbn [map]. by rewrite E0, E1, E2, E3.
Qed.

(** ** Keys in base64 *)

Definition is_key (key : list Z) : Prop := length key = WG_KEY_LEN /\ is_bytes key.

(** Group [g] of a text. *)
Definition group_value (s : list Z) (g : nat) : Z :=
  decode_base64 (byte_at s (g * 4)) (byte_at s (g * 4 + 1)) (byte_at s (g * 4 + 2)) (byte_at s (g * 4 + 3)).

Lemma byte_at_range s i : is_bytes s -> 0 <= byte_at s i < 256.
Proof.
  intros Hs. unfold byte_at. destruct (decide (i < length s)%nat) as [Hi|Hi]; [|rewrite nth_overflow by lia; lia].
  apply (proj1 (Forall_forall _ _) Hs). apply list_elem_of_In, nth_In. done.
Qed.

Lemma u8_lor a b : 0 <= a < 256 -> 0 <= b < 256 -> u8 (Z.lor a b) = Z.lor a b /\ 0 <= Z.lor a b < 256.
Proof.
  intros Ha Hb. assert (0 <= Z.lor a b) by (apply Z.lor_nonneg; lia). pose proof (lor_range 8 a b ltac:(lia) ltac:(lia) ltac:(lia)).
  split; [apply Z.mod_small; lia|lia].
Qed.

(** The groups are decoded one after the other, and [ret] remembers a failure. *)
Lemma decode_groups_ok s n : forall i key ret,
  is_bytes s -> 0 <= ret < 256 ->
  exists ret', decode_groups s n i key ret = (key ++ concat (map (fun g => bytes3 (group_value s g)) (seq i n)), ret') /\ 0 <= ret' < 256 /\
    (ret' = 0 <-> ret = 0 /\ forall g, (i <= g < i + n)%nat -> 0 <= group_value s g).
Proof.
  induction n as [|n IH]; intros i key ret Hs Hr; cbn [decode_groups seq map concat].
  - exists ret. rewrite app_nil_r. split; [done|]. split; [done|]. split; [|tauto]. intros ->. split; [done|]. lia.
  - fold (group_value s i). fold (bytes3 (group_value s i)). assert (Z.shiftr (u32 (group_value s i)) 31 = if group_value s i <? 0 then 1 else 0) as ->.
    { apply sign_bit. pose proof (fun j => byte_at_range s j Hs) as Hj. unfold group_value.
      apply decode_base64_range; (split; [|apply Hj]); (etransitivity; [|apply Hj]); lia. }
    destruct (u8_lor ret (if group_value s i <? 0 then 1 else 0)) as [E Hb]; [done|by destruct (_ <? _)|]. rewrite E.
    destruct (IH (S i) (key ++ bytes3 (group_value s i)) _ Hs Hb) as (ret' & -> & H1 & H2). exists ret'. rewrite <- app_assoc. split; [done|].
    split; [done|]. rewrite H2, Z.lor_eq_0_iff. split.
    + intros [[-> Hg] Hrest]. split; [done|]. intros g Hgr. destruct (decide (g = i)) as [->|]; [destruct (group_value s i <? 0) eqn:Es; lia|].
      apply Hrest. lia.
    + intros [-> Hall]. pose proof (Hall i ltac:(lia)). replace (group_value s i <? 0) with false by lia. split; [done|]. intros g Hg. apply Hall. lia.
Qed.

Lemma is_zero8_spec ret : 0 <= ret < 256 -> is_zero8 ret = (ret =? 0).
Proof.
  intros Hr. apply eqb_prop. apply (forall_range (fun ret => Bool.eqb (is_zero8 ret) (ret =? 0)) 0 256); [|lia]. vm_compute. reflexivity.
Qed.

(** The last group, whose last character is not read. *)
Definition last_value (s : list Z) : Z := decode_base64 (byte_at s 40) (byte_at s 41) (byte_at s 42) 65.

Lemma last_value_range s : is_bytes s -> - 2 ^ 31 <= last_value s < 2 ^ 31.
Proof.
  intros Hs. pose proof (byte_at_range s 40 Hs). pose proof (byte_at_range s 41 Hs). pose proof (byte_at_range s 42 Hs).
  unfold last_value. apply decode_base64_range; lia.
Qed.

(** [key_from_base64] in terms of groups. *)
Lemma key_from_base64_groups s key :
  is_bytes s -> key_from_base64 s = Some key <->
  length s = 44%nat /\ byte_at s 43 = 61 /\ (forall g, (g < 10)%nat -> 0 <= group_value s g) /\ 0 <= last_value s /\ last_value s mod 256 = 0 /\
  key = concat (map (fun g => bytes3 (group_value s g)) (seq 0 10)) ++ take 2 (bytes3 (last_value s)).
Proof.
  intros Hs. unfold key_from_base64. change (WG_KEY_LEN_BASE64 - 1)%nat with 44%nat. change (WG_KEY_LEN_BASE64 - 2)%nat with 43%nat.
  change (WG_KEY_LEN / 3)%nat with 10%nat. destruct (decode_groups_ok s 10 0 [] 0 Hs ltac:(lia)) as (ret & -> & Hr & Hz).
  change (10 * 4)%nat with 40%nat. change (40 + 1)%nat with 41%nat. change (40 + 2)%nat with 42%nat. fold (last_value s).
  pose proof (last_value_range s Hs) as Hl.
  rewrite (sign_bit _ Hl). change 255 with (Z.ones 8) at 1. rewrite Z.land_ones by lia. change (2 ^ 8) with 256.
  destruct (u8_lor (if last_value s <? 0 then 1 else 0) (last_value s mod 256)) as [_ Hb]; [by destruct (_ <? _)|zdm|].
  destruct (u8_lor ret _ Hr Hb) as [-> Hb2]. rewrite is_zero8_spec by done.
  destruct (decide (length s = 44%nat)) as [Hlen|Hlen]; [rewrite bool_decide_eq_true_2 by done|rewrite bool_decide_eq_false_2 by done; split; [done|tauto]].
  destruct (byte_at s 43 =? 61) eqn:E43; zbool; cbn [negb orb]; [|split; [done|tauto]].
  destruct (Z.lor ret _ =? 0) eqn:E; zbool.
  - apply Z.lor_eq_0_iff in E as [E1 [E2 E3]%Z.lor_eq_0_iff]. apply Hz in E1 as [_ Hg]. destruct (last_value s <? 0) eqn:El; [done|].
    split; [intros [= <-]; split_and!; try done; [intros g Hgr; apply Hg; lia|lia]|by intros (_ & _ & _ & _ & _ & ->)].
  - split; [done|]. intros (_ & _ & Hg & Hl0 & Hm & _). exfalso. apply E. apply Z.lor_eq_0_iff. split.
    + apply Hz. split; [done|]. intros g Hgr. apply Hg. lia.
    + rewrite Hm. replace (last_value s <? 0) with false by lia. done.
Qed.

(** ** Texts in groups *)

Lemma byte_at_lookup s i c : s !! i = Some c -> byte_at s i = c.
Proof. intros Hi. unfold byte_at. by apply nth_lookup_Some. Qed.

Lemma byte_at_group s a m : (a + m <= length s)%nat -> map (fun j => byte_at s (a + j)) (seq 0 m) = take m (drop a s).
Proof.
  intros Hl. apply list_eq. intros i. destruct (decide (i < m)%nat) as [Hi|Hi].
  - rewrite lookup_take_lt, lookup_drop by done. destruct (lookup_lt_is_Some_2 s (a + i) ltac:(lia)) as [c Hc]. rewrite Hc.
    apply list_lookup_fmap_Some. exists i. rewrite (byte_at_lookup _ _ _ Hc). split; [done|]. apply lookup_seq. lia.
  - rewrite !lookup_ge_None_2; [done|rewrite length_take; lia|rewrite length_map, length_seq; lia].
Qed.

Lemma groups_of k s n : (n * k <= length s)%nat -> concat (map (fun g => map (fun j => byte_at s (g * k + j)) (seq 0 k)) (seq 0 n)) = take (n * k) s.
Proof.
  induction n as [|n IH]; intros Hl; [done|]. rewrite seq_S, map_app, concat_app, IH by lia. cbn [map concat Nat.add]. rewrite app_nil_r.
  rewrite byte_at_group by lia. rewrite take_take_drop. f_equal. lia.
Qed.

Lemma length_groups k (f : nat -> list Z) n : (forall g, length (f g) = k) -> length (concat (map f (seq 0 n))) = (n * k)%nat.
Proof.
  intros Hf. induction n as [|n IH]; [done|]. rewrite seq_S, map_app, concat_app, length_app, IH. cbn [map concat Nat.add]. rewrite app_nil_r, Hf. lia.
Qed.

Lemma byte_at_groups k (f : nat -> list Z) n rest g j :
  (forall g, length (f g) = k) -> (g < n)%nat -> (j < k)%nat -> byte_at (concat (map f (seq 0 n)) ++ rest) (g * k + j) = byte_at (f g) j.
Proof.
  intros Hf Hg Hj. revert rest. induction n as [|n IH]; intros rest; [lia|]. rewrite seq_S, map_app, concat_app. cbn [map concat Nat.add].
  rewrite app_nil_r, <- app_assoc. destruct (decide (g = n)) as [->|Hne]; [|apply IH; lia]. unfold byte_at.
  rewrite app_nth2 by (rewrite (length_groups k) by done; lia). rewrite (length_groups k) by done. rewrite app_nth1 by (rewrite Hf; lia). f_equal. lia.
Qed.

(** The three bytes and the four characters of group [g]. *)
Definition key_group (key : list Z) (g : nat) : list Z := [byte_at key (g * 3); byte_at key (g * 3 + 1); byte_at key (g * 3 + 2)].

Definition text_group (key : list Z) (g : nat) : list Z :=
  encode_base64 (byte_at key (g * 3)) (byte_at key (g * 3 + 1)) (byte_at key (g * 3 + 2)).

Lemma key_groups key : length key = WG_KEY_LEN -> concat (map (key_group key) (seq 0 10)) ++ [byte_at key 30; byte_at key 31] = key.
Proof.
  intros Hl. transitivity (take (10 * 3) key ++ drop 30 key); [|apply take_drop]. rewrite <- (groups_of 3 key 10) by (rewrite Hl; unfold WG_KEY_LEN; lia).
  apply (f_equal2 app); [reflexivity|].
  unfold WG_KEY_LEN in Hl. pose proof (byte_at_group key 30 2 ltac:(lia)) as E. cbn in E. rewrite E. apply take_ge. rewrite length_drop. lia.
Qed.

Lemma group_value_text key rest g :
  is_bytes key -> (g < 10)%nat -> let s := concat (map (text_group key) (seq 0 10)) ++ rest in
  0 <= group_value s g /\ bytes3 (group_value s g) = key_group key g.
Proof.
  intros Hk Hg s. pose proof (fun j => byte_at_range key j Hk) as Hj. unfold key_group.
  destruct (encode_group _ _ _ (Hj (g * 3)%nat) (Hj (g * 3 + 1)%nat) (Hj (g * 3 + 2)%nat)) as (c0 & c1 & c2 & c3 & E & Ed).
  assert (group_value s g = decode_base64 c0 c1 c2 c3) as ->.
  { unfold group_value, s. rewrite <- (Nat.add_0_r (g * 4)) at 1. rewrite !(byte_at_groups 4) by (done || lia).
    unfold text_group. by rewrite E. }
  rewrite Ed, bytes3_div. pose proof (Hj (g * 3)%nat). pose proof (Hj (g * 3 + 1)%nat). pose proof (Hj (g * 3 + 2)%nat).
  split; [lia|]. repeat (apply (f_equal2 cons); [zdm|]). done.
Qed.

Lemma key_to_base64_groups key :
  key_to_base64 key = concat (map (text_group key) (seq 0 10)) ++ take 3 (encode_base64 (byte_at key 30) (byte_at key 31) 0) ++ [61].
Proof. done. Qed.

Lemma base64_decodes key : is_key key -> is_bytes (key_to_base64 key) -> key_from_base64 (key_to_base64 key) = Some key.
Proof.
  intros [Hl Hk] Hs. apply key_from_base64_groups; [done|]. rewrite key_to_base64_groups. pose proof (fun j => byte_at_range key j Hk) as Hj.
  destruct (encode_group _ _ 0 (Hj 30%nat) (Hj 31%nat) ltac:(lia)) as (c0 & c1 & c2 & c3 & E & Ed). rewrite E. cbn [take app].
  set (gs := concat _). assert (length gs = 40%nat) as Hg by (by apply (length_groups 4)).
  assert (c3 = 65) as -> by (unfold encode_base64 in E; cbn [map] in E; by injection E).
  assert (forall j n, n = (40 + j)%nat -> byte_at (gs ++ [c0; c1; c2; 61]) n = byte_at [c0; c1; c2; 61] j) as Hat.
  { intros j n ->. unfold byte_at. rewrite app_nth2 by lia. f_equal. lia. }
  assert (last_value (gs ++ [c0; c1; c2; 61]) = byte_at key 30 * 65536 + byte_at key 31 * 256) as Hlast.
  { unfold last_value. rewrite (Hat 0%nat), (Hat 1%nat), (Hat 2%nat) by done.
    change (decode_base64 c0 c1 c2 65 = byte_at key 30 * 65536 + byte_at key 31 * 256). lia. }
  pose proof (Hj 30%nat). pose proof (Hj 31%nat). rewrite Hlast. split_and!.
  - rewrite length_app, Hg. done.
  - by rewrite (Hat 3%nat).
  - intros g Hgr. by apply (group_value_text key).
  - lia.
  - zdm.
  - rewrite <- (key_groups key Hl) at 1. apply (f_equal2 app).
    + f_equal. apply map_ext_in. intros g [_ Hgr]%in_seq. symmetry. by apply (group_value_text key).
    + rewrite bytes3_div. cbn [take]. repeat (apply (f_equal2 cons); [zdm|]). done.
Qed.

(** The bytes of a group that decodes are those of the text. *)
Lemma group_text s g :
  is_bytes s -> 0 <= group_value s g ->
  exists b0 b1 b2, bytes3 (group_value s g) = [b0; b1; b2] /\ is_bytes [b0; b1; b2] /\
    encode_base64 b0 b1 b2 = map (fun j => byte_at s (g * 4 + j)) (seq 0 4).
Proof.
  intros Hs Hg. cbn [map seq]. rewrite Nat.add_0_r. unfold group_value in *. apply decode_group; try done; by apply byte_at_range.
Qed.

Lemma last_text s :
  is_bytes s -> 0 <= last_value s -> last_value s mod 256 = 0 ->
  exists b0 b1, take 2 (bytes3 (last_value s)) = [b0; b1] /\ is_bytes [b0; b1] /\
    take 3 (encode_base64 b0 b1 0) = [byte_at s 40; byte_at s 41; byte_at s 42].
Proof.
  intros Hs Hv Hm. unfold last_value in *.
  destruct (decode_group (byte_at s 40) (byte_at s 41) (byte_at s 42) 65) as (b0 & b1 & b2 & E & Hb & He); try done; try (by apply byte_at_range).
  exists b0, b1. rewrite E. split; [done|]. split; [exact (Forall_take _ 2%nat _ Hb)|].
  assert (b2 = 0) as -> by (rewrite bytes3_div in E; injection E as _ _ E; lia). by rewrite He.
Qed.

(** A text that decodes is the text of the key it decodes to. *)
Lemma base64_encodes s key : is_bytes s -> key_from_base64 s = Some key -> is_key key /\ s = key_to_base64 key.
Proof.
  intros Hs (Hl & H43 & Hg & Hlast & Hmod & ->)%key_from_base64_groups; [|done].
  destruct (last_text s Hs Hlast Hmod) as (b0 & b1 & -> & Hb & Ht). set (f := fun g => bytes3 (group_value s g)).
  assert (length (concat (map f (seq 0 10))) = 30%nat) as Hf by (by apply (length_groups 3)).
  assert (forall n j, n = (30 + j)%nat -> byte_at (concat (map f (seq 0 10)) ++ [b0; b1]) n = byte_at [b0; b1] j) as Hat.
  { intros n j ->. unfold byte_at. rewrite app_nth2 by lia. f_equal. lia. }
  split.
  - split; [by rewrite length_app, Hf|]. apply Forall_app. split; [|done]. apply Forall_concat, Forall_fmap, Forall_forall. intros g Hin.
    apply elem_of_seq in Hin. destruct (group_text s g Hs (Hg g ltac:(lia))) as (x & y & z & E & Hx & _). cbn. unfold f. by rewrite E.
  - rewrite key_to_base64_groups, (Hat 30%nat 0%nat), (Hat 31%nat 1%nat) by done. change (byte_at [b0; b1] 0) with b0. change (byte_at [b0; b1] 1) with b1.
    rewrite Ht. assert (concat (map (text_group (concat (map f (seq 0 10)) ++ [b0; b1])) (seq 0 10)) = take (10 * 4) s) as ->.
    { rewrite <- groups_of by lia. f_equal. apply map_ext_in. intros g [_ Hgr]%in_seq.
      destruct (group_text s g Hs (Hg g ltac:(lia))) as (x & y & z & E & _ & <-). unfold text_group.
      rewrite <- (Nat.add_0_r (g * 3)) at 1. rewrite !(byte_at_groups 3) by (done || lia). unfold f. by rewrite E. }
    rewrite <- (take_drop 40 s) at 1. apply (f_equal2 app); [done|]. pose proof (byte_at_group s 40 4 ltac:(lia)) as E. cbn [map seq Nat.add] in E.
    rewrite H43 in E. rewrite take_ge in E by (rewrite length_drop; lia). by rewrite <- E.
Qed.

Lemma key_to_base64_bytes key : is_bytes (key_to_base64 key).
Proof.
  assert (forall a b c, is_bytes (encode_base64 a b c)) as He.
  { intros a b c. unfold encode_base64, encode_char. repeat constructor; apply is_u8_u8. }
  rewrite key_to_base64_groups. apply Forall_app; split; [|apply Forall_app; split].
  - apply Forall_concat, Forall_fmap, Forall_true. intros g. apply He.
  - apply Forall_take, He.
  - by repeat constructor.
Qed.

(** The characters are those of RFC 4648: the [i]th sextet of the three bytes. *)
Lemma encode_base64_rfc s0 s1 s2 :
  0 <= s0 < 256 -> 0 <= s1 < 256 -> 0 <= s2 < 256 ->
  encode_base64 s0 s1 s2 = map (fun i => nth (Z.to_nat ((s0 * 65536 + s1 * 256 + s2) / 64 ^ i mod 64)) alphabet 0) [3; 2; 1; 0].
Proof.
  intros H0 H1 H2. rewrite encode_base64_div by done. cbn [map]. rewrite !encode_char_alphabet by zdm.
  repeat (apply (f_equal2 cons); [do 2 f_equal; zdm|]). done.
Qed.

(** ** Keys in hexadecimal *)

Lemma hex_char_digit x : 0 <= x < 16 -> hex_char x = hex_digit x.
Proof.
  intros Hx. apply Z.eqb_eq. apply (forall_range (fun x => hex_char x =? hex_digit x) 0 16); [|lia]. vm_compute. reflexivity.
Qed.

(** A digit has its value and leaves [ret] alone; anything else marks it. *)
Lemma unhex_char_spec c : 0 <= c < 256 ->
  match from_hex_char c with
  | Some d => unhex_char c = (d, 0) /\ 0 <= d < 16
  | None => (unhex_char c).2 = -1
  end.
Proof.
  intros Hc. assert (match from_hex_char c with
    | Some d => ((unhex_char c).1 =? d) && ((unhex_char c).2 =? 0) && (0 <=? d) && (d <? 16)
    | None => (unhex_char c).2 =? -1
    end = true) as Hd.
  { apply (forall_range (fun c => match from_hex_char c with
      | Some d => ((unhex_char c).1 =? d) && ((unhex_char c).2 =? 0) && (0 <=? d) && (d <? 16)
      | None => (unhex_char c).2 =? -1
      end) 0 256); [|lia]. vm_compute. reflexivity. }
  destruct (from_hex_char c) as [d|]; [|lia]. destruct (unhex_char c) as [v b]. cbn [fst snd] in Hd. zbool. split; [|lia]. f_equal; lia.
Qed.

(** What [ret] becomes: 0 as long as there are digits only. *)
Lemma unhex_loop_spec n : forall s ret, length s = (2 * n)%nat -> is_bytes s -> 0 <= ret < 256 ->
  exists key ret', unhex_loop s ret = (key, ret') /\ 0 <= ret' < 256 /\
    match hex_decode s with
    | Some key' => (ret' = 0 <-> ret = 0) /\ key = key'
    | None => ret' <> 0
    end.
Proof.
  assert (forall r, 0 <= r < 256 -> u8 (Z.lor r (-1)) = 255) as Hbad by (intros r _; by rewrite Z.lor_m1_r).
  assert (forall r, 0 <= r < 256 -> u8 (Z.lor r 0) = r) as Hgood by (intros r Hr; rewrite Z.lor_0_r; apply Z.mod_small; lia).
  induction n as [|n IH]; intros s ret Hl Hs Hr.
  - destruct s; [|done]. exists [], ret. split; [done|]. split; [done|]. by split.
  - destruct s as [|c [|d s]]; [done|cbn in Hl; lia|]. apply Forall_cons in Hs as [Hc Hs]. apply Forall_cons in Hs as [Hd Hs].
    pose proof (unhex_char_spec c Hc) as Sc. pose proof (unhex_char_spec d Hd) as Sd. cbn [unhex_loop hex_decode].
    destruct (unhex_char c) as [hi b1], (unhex_char d) as [lo b2]. cbn [snd] in Sc, Sd.
    assert (forall ret1, 0 <= ret1 < 256 -> exists key ret', unhex_loop s ret1 = (key, ret') /\ 0 <= ret' < 256 /\
      match hex_decode s with Some key' => (ret' = 0 <-> ret1 = 0) /\ key = key' | None => ret' <> 0 end) as Hrest.
    { intros ret1 Hr1. apply IH; [cbn in Hl; lia|done|done]. }
    destruct (from_hex_char c) as [x|], (from_hex_char d) as [y|]; cbn [mbind option_bind].
    + destruct Sc as [[= -> ->] Hx], Sd as [[= -> ->] Hy]. rewrite !(Hgood ret Hr). destruct (Hrest ret Hr) as (key & ret' & -> & H1 & H2).
      eexists _, ret'. split; [done|]. split; [done|]. destruct (hex_decode s) as [key'|]; [|done]. destruct H2 as [H2 ->]. split; [done|].
      cbn [mbind option_bind]. f_equal. assert (u8 (x * 16) = Z.shiftl x 4) as -> by (rewrite Z.shiftl_mul_pow2 by lia; apply Z.mod_small; lia).
      rewrite lor_shiftl_add by lia. apply Z.mod_small. lia.
    + destruct Sc as [[= -> ->] Hx]. subst b2. rewrite (Hgood ret Hr), (Hbad ret Hr). destruct (Hrest 255 ltac:(lia)) as (key & ret' & -> & H1 & H2).
      eexists _, ret'. split; [done|]. split; [done|]. destruct (hex_decode s); [|done]. destruct H2 as [H2 _]. lia.
    + destruct Sd as [[= -> ->] Hy]. subst b1. rewrite (Hbad ret Hr), (Hgood 255) by lia.
      destruct (Hrest 255 ltac:(lia)) as (key & ret' & -> & H1 & H2). eexists _, ret'. split; [done|]. split; [done|].
      destruct (hex_decode s); [|done]. destruct H2 as [H2 _]. lia.
    + subst b1 b2. rewrite (Hbad ret Hr), (Hbad 255) by lia. destruct (Hrest 255 ltac:(lia)) as (key & ret' & -> & H1 & H2).
      eexists _, ret'. split; [done|]. split; [done|]. destruct (hex_decode s); [|done]. destruct H2 as [H2 _]. lia.
Qed.

Lemma hex_decode_length s key : hex_decode s = Some key -> length s = (2 * length key)%nat.
Proof.
  revert s. assert (forall n s key, (length s <= n)%nat -> hex_decode s = Some key -> length s = (2 * length key)%nat) as Hn; [|intros s; by apply (Hn (length s))].
  clear key. induction n as [|n IH]; intros [|a [|b s]] key Hl E; try done; try (cbn in Hl; lia); try (by injection E as <-). cbn [hex_decode] in E.
  destruct (from_hex_char a); [|done]. destruct (from_hex_char b); [|done]. destruct (hex_decode s) as [r|] eqn:Er; [|done].
  injection E as <-. cbn [length] in *. apply IH in Er; lia.
Qed.

(** [key_from_hex] is [hex.DecodeString] on texts of the right length. *)
Lemma key_from_hex_decode s : is_bytes s -> key_from_hex s = if decide (length s = 64%nat) then hex_decode s else None.
Proof.
  intros Hs. unfold key_from_hex. change (WG_KEY_LEN_HEX - 1)%nat with 64%nat. destruct (decide (length s = 64%nat)) as [Hl|Hl].
  - rewrite bool_decide_eq_true_2 by done. cbn [negb]. destruct (unhex_loop_spec 32 s 0 Hl Hs ltac:(lia)) as (key & ret & -> & Hr & Hk).
    rewrite is_zero8_spec by done. destruct (hex_decode s) as [key'|].
    + destruct Hk as [Hk ->]. by rewrite (proj2 (Z.eqb_eq ret 0)) by (by apply Hk).
    + by rewrite (proj2 (Z.eqb_neq ret 0)).
  - by rewrite bool_decide_eq_false_2.
Qed.

Lemma key_to_hex_encode key : is_bytes key -> key_to_hex key = hex_encode key.
Proof.
  intros Hk. unfold key_to_hex, hex_encode. f_equal. apply map_ext_in. intros b Hb%list_elem_of_In.
  pose proof (proj1 (Forall_forall _ _) Hk b Hb) as Hr. destruct (nibbles b Hr) as (H1 & H2 & _). by rewrite !hex_char_digit.
Qed.

(** ** Base64 as RFC 4648 defines it *)

(** The characters of three bytes: the sextets of their 24 bits, from the highest. *)
Definition rfc_group (a b c : Z) : list Z :=
  map (fun i => nth (Z.to_nat ((a * 65536 + b * 256 + c) / 64 ^ i mod 64)) alphabet 0) [3; 2; 1; 0].

(** An incomplete group is filled with zero bits, and its text with [=]. *)
Fixpoint rfc4648 (s : list Z) : list Z :=
  match s with
  | a :: b :: c :: s => rfc_group a b c ++ rfc4648 s
  | [a; b] => take 3 (rfc_group a b 0) ++ [61]
  | [a] => take 2 (rfc_group a 0 0) ++ [61; 61]
  | [] => []
  end.

Lemma rfc4648_groups (f : nat -> list Z) rest n : forall i,
  (forall g, exists a b c, f g = [a; b; c]) ->
  rfc4648 (concat (map f (seq i n)) ++ rest) = concat (map (fun g => rfc4648 (f g)) (seq i n)) ++ rfc4648 rest.
Proof.
  induction n as [|n IH]; intros i Hf; [done|]. cbn [seq map concat]. rewrite <- !app_assoc. destruct (Hf i) as (a & b & c & E). rewrite E.
  cbn [app rfc4648]. rewrite (IH (S i) Hf), app_nil_r. done.
Qed.

Lemma key_to_base64_rfc key : is_key key -> key_to_base64 key = rfc4648 key.
Proof.
  intros [Hl Hk]. pose proof (fun j => byte_at_range key j Hk) as Hj. rewrite <- (key_groups key Hl) at 2.
  rewrite rfc4648_groups by (intros g; by eexists _, _, _). rewrite key_to_base64_groups. apply (f_equal2 app).
  - f_equal. apply map_ext. intros g. unfold text_group, key_group. cbn [rfc4648]. rewrite app_nil_r. by apply encode_base64_rfc.
  - cbn [rfc4648]. by rewrite encode_base64_rfc.
Qed.

Lemma or_all key acc : is_bytes key -> 0 <= acc < 256 ->
  0 <= fold_left (fun acc b => u8 (Z.lor acc b)) key acc < 256 /\
  (fold_left (fun acc b => u8 (Z.lor acc b)) key acc = 0 <-> acc = 0 /\ Forall (fun b => b = 0) key).
Proof.
  revert acc. induction key as [|b key IH]; intros acc Hk Ha; cbn [fold_left]; [split; [done|split; [done|by intros [? _]]]|]. apply Forall_cons in Hk as [Hb Hk].
  destruct (u8_lor acc b Ha Hb) as [-> Hr]. destruct (IH _ Hk Hr) as [H1 H2]. split; [done|]. rewrite H2, Z.lor_eq_0_iff, Forall_cons. tauto.
Qed.

(** ** What the tool relies on *)

(** C19: the constant-time arithmetic of [key_from_base64] accepts exactly the texts that
    [key_to_base64] prints: a string is accepted as a key if and only if it is the
    base64 of RFC 4648 of that key, so no key has two texts and no other string passes. *)
Theorem key_base64_canonical s key :
  is_bytes s -> (key_from_base64 s = Some key <-> is_key key /\ s = key_to_base64 key) /\ (is_key key -> key_to_base64 key = rfc4648 key).
Proof.
  intros Hs. split; [|apply key_to_base64_rfc]. split; [by apply base64_encodes|]. intros [Hk ->]. by apply base64_decodes.
Qed.

Lemma key_base64_canonical_witness :
  key_from_base64 (lit "AAECAwQFBgcICQoLDA0ODxAREhMUFRYXGBkaGxwdHh8=") = Some (seqZ 0 32) /\
  rfc4648 (seqZ 0 32) = lit "AAECAwQFBgcICQoLDA0ODxAREhMUFRYXGBkaGxwdHh8=".
Proof.
  destruct (key_base64_canonical (lit "AAECAwQFBgcICQoLDA0ODxAREhMUFRYXGBkaGxwdHh8=") (seqZ 0 32)) as [Hiff Hrfc]; [decide_closed|].
  assert (is_key (seqZ 0 32)) as Hk by (split; [reflexivity|decide_closed]). split.
  - apply Hiff. split; [exact Hk|vm_compute; reflexivity].
  - rewrite <- (Hrfc Hk). vm_compute. reflexivity.
Defined.

(** C20: the tool and the device agree on keys in hexadecimal: the device reads from a
    string the key that [key_from_hex] reads, and refuses it when that does; what
    [key_to_hex] prints is read back as the key by both. *)
Theorem key_hex_agrees s dst :
  is_bytes s -> length dst = WG_KEY_LEN ->
  loadExactHex dst s = match key_from_hex s with Some key => (key, true) | None => (dst, false) end /\
  forall key, is_key key -> key_from_hex (key_to_hex key) = Some key /\ loadExactHex dst (key_to_hex key) = (key, true).
Proof.
  intros Hs Hd. split.
  - rewrite key_from_hex_decode by done. unfold loadExactHex. destruct (hex_decode s) as [key|] eqn:E; [|by destruct (decide _)].
    apply hex_decode_length in E. unfold WG_KEY_LEN in Hd. destruct (decide (length s = 64%nat)) as [Hl|Hl].
    + rewrite bool_decide_eq_true_2 by lia. unfold copy. rewrite take_ge, drop_ge, app_nil_r by lia. done.
    + by rewrite bool_decide_eq_false_2 by lia.
  - intros key [Hl Hk]. rewrite key_to_hex_encode by done. split; [|apply loadExactHex_encode; [done|congruence]].
    rewrite key_from_hex_decode, hex_encode_len, Hl, hex_roundtrip; [done|done|]. rewrite <- key_to_hex_encode by done.
    unfold key_to_hex, hex_char. apply Forall_concat, Forall_fmap, Forall_true. intros b. repeat constructor; apply is_u8_u8.
Qed.

Lemma key_hex_agrees_witness :
  loadExactHex (zeros 32) (lit "0G") = (zeros 32, false) /\ key_from_hex (key_to_hex (seqZ 0 32)) = Some (seqZ 0 32).
Proof.
  destruct (key_hex_agrees (lit "0G") (zeros 32)) as [H1 H2]; [decide_closed|reflexivity|]. split; [exact H1|].
  apply H2. split; [reflexivity|decide_closed].
Defined.

Lemma key_is_zero_spec key : is_bytes key -> key_is_zero key = bool_decide (Forall (fun b => b = 0) key).
Proof.
  intros Hk. unfold key_is_zero. destruct (or_all key 0 Hk ltac:(lia)) as [Hr Hz]. rewrite is_zero8_spec by done.
  case_bool_decide as Hf; [apply Z.eqb_eq|apply Z.eqb_neq]; tauto.
Qed.
