(* ===== verification/Pools.v ===== *)
(** * Bounded pools (src/wireguard-go/device/pools.go)

    A [WaitPool] hands out at most [max] items at a time: [Get] waits on a condition
    variable, [Put] signals it. The model is a transition system: a client is a call
    of [Get] with the [Put] that follows, a step is what a client does between two
    operations of the lock. *)

From stdpp Require Import base numbers list relations.
From S2P Require Import Prelude Setters.

Open Scope Z_scope.

(** ** The pool *)

(** Where a client is. *)
Inductive client :=
| idle
| get_called
| get_locked
| waiting
| woken
| granted
| holding (x : nat)
| put_pooled
| put_locked.

(** [pool] are the items of the [sync.Pool], [fresh] is the next new one; [lock] is
    the client that has it. *)
Record WaitPool := mkWaitPool {
  pool : list nat;
  fresh : nat;
  lock : option nat;
  count : Z;
  max : Z;
  clients : list client
}.

#[export] Instance eta_WaitPool : Settable WaitPool := fun r =>
  mkWaitPool (pool r) (fresh r) (lock r) (count r) (max r) (clients r).

Definition NewWaitPool (max : Z) (n : nat) : WaitPool := mkWaitPool [] 0 None 0 max (replicate n idle).

Definition goto (i : nat) (c : client) (p : WaitPool) : WaitPool := p <| clients := <[i := c]> (clients p) |>.

(** [p.lock.Lock()], which blocks while another client has the lock. *)
Definition acquire (i : nat) (c : client) (p : WaitPool) : option WaitPool :=
  match lock p with
  | None => Some (goto i c p <| lock := Some i |>)
  | Some _ => None
  end.

Fixpoint first_waiting (l : list client) (i : nat) : option nat :=
  match l with
  | [] => None
  | waiting :: _ => Some i
  | _ :: l => first_waiting l (S i)
  end.

(** [p.cond.Signal()] wakes a client that waits, if there is one: [pick], or the
    first. *)
Definition Signal (pick : option nat) (p : WaitPool) : WaitPool :=
  let w := match pick with
           | Some k => match clients p !! k with Some waiting => Some k | _ => first_waiting (clients p) 0 end
           | None => first_waiting (clients p) 0
           end in
  match w with Some k => goto k woken p | None => p end.

(** [p.pool.Get()]: an item of the pool or a new one. *)
Definition pool_Get (pick : option nat) (p : WaitPool) : nat * WaitPool :=
  match k ← pick; x ← pool p !! k; Some (k, x) with
  | Some (k, x) => (x, p <| pool := delete k (pool p) |>)
  | None => (fresh p, p <| fresh := S (fresh p) |>)
  end.

(** [Get], one step of client [i]. *)
Definition Get_step (i : nat) (pick : option nat) (c : client) (p : WaitPool) : option WaitPool :=
  match c with
  | idle => Some (goto i (if max p =? 0 then granted else get_called) p)
  | get_called | woken => acquire i get_locked p
  | get_locked =>
      if count p >=? max p then Some (goto i waiting p <| lock := None |>)
      else Some (goto i granted p <| count := u32 (count p + 1) |> <| lock := None |>)
  | granted => let '(x, p) := pool_Get pick p in Some (goto i (holding x) p)
  | _ => None
  end.

(** [Put] of the item, one step of client [i]. *)
Definition Put_step (i : nat) (pick : option nat) (c : client) (p : WaitPool) : option WaitPool :=
  match c with
  | holding x => Some (goto i (if max p =? 0 then idle else put_pooled) p <| pool := pool p ++ [x] |>)
  | put_pooled => acquire i put_locked p
  | put_locked => Some (goto i idle (Signal pick (p <| count := u32 (count p - 1) |>)) <| lock := None |>)
  | _ => None
  end.

Definition pool_step (i : nat) (pick : option nat) (p : WaitPool) : option WaitPool :=
  c ← clients p !! i;
  match Get_step i pick c p with
  | Some p => Some p
  | None => Put_step i pick c p
  end.

Definition steps_to (p p' : WaitPool) : Prop := exists i pick, pool_step i pick p = Some p'.

(** Any interleaving of [n] clients. *)
Definition pool_reachable (max : Z) (n : nat) (p : WaitPool) : Prop := rtc steps_to (NewWaitPool max n) p.

(** ** Counting clients *)

Fixpoint tally (f : client -> Z) (l : list client) : Z :=
  match l with
  | [] => 0
  | c :: l => f c + tally f l
  end.

Lemma tally_insert f l i c c' : l !! i = Some c -> tally f (<[i := c']> l) = tally f l - f c + f c'.
Proof.
  revert i. induction l as [|d l IH]; intros [|i] Hi; [done|done| |].
  - injection Hi as ->. cbn. lia.
  - change (<[S i := c']> (d :: l)) with (d :: <[i := c']> l). cbn [tally]. rewrite (IH i Hi). lia.
Qed.

Lemma tally_replicate f n c : f c = 0 -> tally f (replicate n c) = 0.
Proof. intros Hc. induction n as [|n IH]; [done|]. cbn. lia. Qed.

Lemma tally_nonneg f l : (forall c, 0 <= f c) -> 0 <= tally f l.
Proof. intros Hf. induction l as [|c l IH]; [done|]. cbn. specialize (Hf c). lia. Qed.

Lemma tally_member f l i c : (forall c, 0 <= f c) -> l !! i = Some c -> f c <= tally f l.
Proof.
  intros Hf. revert i. induction l as [|d l IH]; intros [|i] Hi; [done|done| |]; cbn in *.
  - injection Hi as ->. pose proof (tally_nonneg f l Hf). lia.
  - specialize (IH i Hi). specialize (Hf d). lia.
Qed.

Lemma tally_zero f l : (forall c, c ∈ l -> f c = 0) -> tally f l = 0.
Proof.
  induction l as [|c l IH]; intros Hl; [done|]. cbn. rewrite (Hl c) by left. rewrite IH; [done|]. intros d Hd. apply Hl. by right.
Qed.

(** Clients that have the lock, that count, that hold an item, that wait, and that
    are about to look at the count. *)
Definition is_locked (c : client) : Z := match c with get_locked | put_locked => 1 | _ => 0 end.

Definition is_counted (c : client) : Z := match c with granted | holding _ | put_pooled | put_locked => 1 | _ => 0 end.

Definition is_holding (c : client) : Z := match c with holding _ => 1 | _ => 0 end.

Definition is_waiting (c : client) : Z := match c with waiting => 1 | _ => 0 end.

Definition is_looking (c : client) : Z := match c with woken | get_locked => 1 | _ => 0 end.

(** The items that clients hold. *)
Definition held (l : list client) : list nat := omap (fun c => match c with holding x => Some x | _ => None end) l.

#[local] Arguments held : simpl never.
#[local] Arguments tally : simpl never.

(** ** The invariant *)

(** The lock excludes; the count is the number of clients it stands for, within the
    bound; a client waits only while the bound is reached or about to be looked at
    again; no item is in two places. *)
Record pool_inv (p : WaitPool) : Prop := {
  pi_max : 1 <= max p < 2 ^ 32;
  pi_lock : tally is_locked (clients p) = match lock p with Some _ => 1 | None => 0 end;
  pi_owner : forall i, lock p = Some i -> exists c, clients p !! i = Some c /\ is_locked c = 1;
  pi_count : count p = tally is_counted (clients p);
  pi_bound : 0 <= count p <= max p;
  pi_wake : tally is_waiting (clients p) = 0 \/ max p <= count p + tally is_looking (clients p);
  pi_items : NoDup (held (clients p) ++ pool p) /\ Forall (fun x => (x < fresh p)%nat) (held (clients p) ++ pool p)
}.

(** Counting after a client moved. *)
Ltac tallies := rewrite ?(tally_insert _ _ _ _ _ ltac:(eassumption)); cbn [is_locked is_counted is_holding is_waiting is_looking].

Lemma held_insert l i c c' :
  l !! i = Some c -> (forall x, c <> holding x) -> (forall x, c' <> holding x) -> held (<[i := c']> l) = held l.
Proof.
  revert i. induction l as [|d l IH]; intros [|i] Hi Hc Hc'; [done|done| |].
  - injection Hi as ->. unfold held. cbn. destruct c, c'; try done; naive_solver.
  - change (<[S i := c']> (d :: l)) with (d :: <[i := c']> l). unfold held in *. cbn. by rewrite (IH i Hi Hc Hc').
Qed.

Lemma held_hold l i c x :
  l !! i = Some c -> (forall x, c <> holding x) -> held (<[i := holding x]> l) ≡ₚ x :: held l.
Proof.
  revert i. induction l as [|d l IH]; intros [|i] Hi Hc; [done|done| |].
  - injection Hi as ->. unfold held. cbn. destruct c; try done. naive_solver.
  - change (<[S i := holding x]> (d :: l)) with (d :: <[i := holding x]> l). unfold held in *. cbn.
    destruct d; try apply (IH i Hi Hc). rewrite (IH i Hi Hc). apply Permutation_swap.
Qed.

Lemma held_drop l i x c' :
  l !! i = Some (holding x) -> (forall x, c' <> holding x) -> held l ≡ₚ x :: held (<[i := c']> l).
Proof.
  revert i. induction l as [|d l IH]; intros [|i] Hi Hc; [done|done| |].
  - injection Hi as ->. unfold held. cbn. destruct c'; try done. naive_solver.
  - change (<[S i := c']> (d :: l)) with (d :: <[i := c']> l). unfold held in *. cbn.
    destruct d; try apply (IH i Hi Hc). rewrite (IH i Hi Hc). apply Permutation_swap.
Qed.

(** A client that neither takes nor gives back an item. *)
Lemma acquire_inv p i c c' p' :
  pool_inv p -> clients p !! i = Some c -> (forall x, c <> holding x) -> is_locked c = 0 -> is_locked c' = 1 -> is_counted c' = is_counted c ->
  is_waiting c = 0 -> is_waiting c' = 0 -> is_looking c <= is_looking c' -> (forall x, c' <> holding x) ->
  acquire i c' p = Some p' -> pool_inv p'.
Proof.
  intros [H1 H2 H3 H4 H5 H6 H7] Hi Hc L L' C W W' K Hc' E. unfold acquire in E. destruct (lock p) as [?|] eqn:El; [done|]. injection E as <-.
  split; cbn [goto set] in *; cbn.
  - done.
  - rewrite (tally_insert _ _ _ _ _ Hi). lia.
  - intros j [= <-]. exists c'. split; [|done]. apply list_lookup_insert_eq. by eapply lookup_lt_Some.
  - rewrite (tally_insert _ _ _ _ _ Hi). lia.
  - done.
  - rewrite !(tally_insert _ _ _ _ _ Hi). lia.
  - by rewrite (held_insert _ _ _ _ Hi Hc Hc').
Qed.

Lemma held_elem l i x : l !! i = Some (holding x) -> x ∈ held l.
Proof. intros Hi. rewrite (held_drop l i x idle Hi) by done. left. Qed.

Lemma first_waiting_spec l : forall i, match first_waiting l i with
  | Some k => exists j, k = (i + j)%nat /\ l !! j = Some waiting
  | None => tally is_waiting l = 0
  end.
Proof.
  induction l as [|c l IH]; intros i; [done|]. specialize (IH (S i)). unfold tally. cbn [first_waiting]. fold tally.
  assert (match first_waiting l (S i) with Some k => exists j, k = (i + j)%nat /\ (c :: l) !! j = Some waiting
    | None => tally is_waiting l = 0 end) as Hnext.
  { destruct (first_waiting l (S i)) as [k|]; [|done]. destruct IH as (j & -> & Hj). exists (S j). split; [lia|done]. }
  destruct c; try exact Hnext. exists 0%nat. split; [lia|done].
Qed.

(** The client that [Signal] wakes. *)
Lemma Signal_spec pick p :
  (exists k, clients p !! k = Some waiting /\ Signal pick p = goto k woken p) \/ (tally is_waiting (clients p) = 0 /\ Signal pick p = p).
Proof.
  unfold Signal. pose proof (first_waiting_spec (clients p) 0) as Hf.
  assert ((exists k, clients p !! k = Some waiting /\ match first_waiting (clients p) 0 with Some k => goto k woken p | None => p end = goto k woken p) \/
    (tally is_waiting (clients p) = 0 /\ match first_waiting (clients p) 0 with Some k => goto k woken p | None => p end = p)) as Hd.
  { destruct (first_waiting (clients p) 0) as [k|]; [|by right]. left. destruct Hf as (j & -> & Hj). by exists j. }
  destruct pick as [k|]; [|done]. destruct (clients p !! k) as [[]|] eqn:Ek; try done. left. by exists k.
Qed.

Lemma locked_owner p i c : pool_inv p -> clients p !! i = Some c -> is_locked c = 1 -> tally is_locked (clients p) = 1.
Proof.
  intros Hp Hi Hc. assert (forall d, 0 <= is_locked d) as Hn by (by intros []).
  pose proof (tally_member is_locked _ _ _ Hn Hi). pose proof (pi_lock p Hp). destruct (lock p); lia.
Qed.

(** A client that has looked at the count waits or goes on. *)
Lemma release_inv p i c' n :
  pool_inv p -> clients p !! i = Some get_locked ->
  c' = waiting /\ n = count p /\ max p <= count p \/ c' = granted /\ n = count p + 1 /\ n <= max p ->
  pool_inv (goto i c' p <| count := n |> <| lock := None |>).
Proof.
  intros Hp Hi Hc. pose proof (locked_owner p i _ Hp Hi eq_refl) as Hl. destruct Hp as [H1 H2 H3 H4 H5 H6 H7].
  assert (1 <= tally is_looking (clients p)) by (apply (tally_member is_looking _ i get_locked); [by intros []|done]).
  destruct Hc as [(-> & -> & Hm)|(-> & -> & Hm)]; split; cbn [goto] in *; cbn; try done;
    rewrite ?(tally_insert _ _ _ _ _ Hi); cbn [is_locked is_counted is_waiting is_looking]; try lia.
  all: by erewrite held_insert by (exact Hi || done).
Qed.

Lemma take_inv p i pick x p1 :
  pool_inv p -> clients p !! i = Some granted -> pool_Get pick p = (x, p1) -> pool_inv (goto i (holding x) p1).
Proof.
  intros [H1 H2 H3 H4 H5 H6 [H7 H8]] Hi E.
  assert (clients p1 = clients p /\ lock p1 = lock p /\ count p1 = count p /\ max p1 = max p /\
    NoDup (x :: held (clients p) ++ pool p1) /\ Forall (fun y => (y < fresh p1)%nat) (x :: held (clients p) ++ pool p1)) as (E1 & E2 & E3 & E4 & E5 & E6).
  { unfold pool_Get in E. destruct (k ← pick; y ← pool p !! k; Some (k, y)) as [[k y]|] eqn:Ek; injection E as <- <-; cbn; split_and!; try done.
    - destruct pick as [k0|]; [|done]. cbn in Ek. destruct (pool p !! k0) as [y0|] eqn:Ey; [|done]. injection Ek as -> ->.
      rewrite (delete_Permutation _ _ _ Ey) in H7. by rewrite <- Permutation_middle in H7.
    - destruct pick as [k0|]; [|done]. cbn in Ek. destruct (pool p !! k0) as [y0|] eqn:Ey; [|done]. injection Ek as -> ->.
      rewrite (delete_Permutation _ _ _ Ey) in H8. by rewrite <- Permutation_middle in H8.
    - constructor; [|done]. intros Hin. rewrite Forall_forall in H8. specialize (H8 _ Hin). lia.
    - constructor; [lia|]. eapply Forall_impl; [exact H8|]. cbn. lia. }
  split; cbn [goto] in *; cbn; rewrite ?E1, ?E2, ?E3, ?E4.
  - done.
  - rewrite (tally_insert _ _ _ _ _ Hi). cbn [is_locked]. lia.
  - intros j Hj. destruct (H3 j Hj) as (c & Hc & Hl). destruct (decide (j = i)) as [->|Hne]; [by rewrite Hi in Hc; injection Hc as <-|].
    exists c. by rewrite list_lookup_insert_ne.
  - rewrite (tally_insert _ _ _ _ _ Hi). cbn [is_counted]. lia.
  - done.
  - rewrite !(tally_insert _ _ _ _ _ Hi). cbn [is_waiting is_looking]. lia.
  - by rewrite (held_hold _ _ _ _ Hi ltac:(done)).
Qed.

Lemma give_inv p i x :
  pool_inv p -> clients p !! i = Some (holding x) -> pool_inv (goto i put_pooled p <| pool := pool p ++ [x] |>).
Proof.
  intros [H1 H2 H3 H4 H5 H6 [H7 H8]] Hi.
  assert (held (<[i := put_pooled]> (clients p)) ++ pool p ++ [x] ≡ₚ held (clients p) ++ pool p) as Hperm.
  { rewrite (held_drop (clients p) i x put_pooled Hi) by done. rewrite app_assoc, <- Permutation_cons_append. done. }
  split; cbn [goto] in *; cbn.
  - done.
  - rewrite (tally_insert _ _ _ _ _ Hi). cbn [is_locked]. lia.
  - intros j Hj. destruct (H3 j Hj) as (c & Hc & Hl). destruct (decide (j = i)) as [->|Hne]; [by rewrite Hi in Hc; injection Hc as <-|].
    exists c. by rewrite list_lookup_insert_ne.
  - rewrite (tally_insert _ _ _ _ _ Hi). cbn [is_counted]. lia.
  - done.
  - rewrite !(tally_insert _ _ _ _ _ Hi). cbn [is_waiting is_looking]. lia.
  - by rewrite Hperm.
Qed.

(** The end of [Put]: the count goes down and a waiting client looks again. *)
Lemma finish_inv p i pick :
  pool_inv p -> clients p !! i = Some put_locked -> pool_inv (goto i idle (Signal pick (p <| count := u32 (count p - 1) |>)) <| lock := None |>).
Proof.
  intros Hp Hi. pose proof (locked_owner p i _ Hp Hi eq_refl) as Hl. destruct Hp as [H1 H2 H3 H4 H5 H6 H7].
  assert (1 <= count p) as Hc by (rewrite H4; apply (tally_member is_counted _ i put_locked); [by intros []|done]).
  assert (u32 (count p - 1) = count p - 1) as Hu by (apply Z.mod_small; lia). rewrite Hu.
  assert (0 <= tally is_looking (clients p)) by (apply tally_nonneg; by intros []).
  destruct (Signal_spec pick (p <| count := count p - 1 |>)) as [(k & Hk & ->)|(Hw & ->)]; cbn [goto] in *; cbn in *.
  - assert (1 <= tally is_waiting (clients p)) by (apply (tally_member is_waiting _ k waiting); [by intros []|done]).
    assert (i <> k) as Hne by congruence. assert (<[k := woken]> (clients p) !! i = Some put_locked) as Hi' by (by rewrite list_lookup_insert_ne).
    split; cbn; try done; rewrite ?(tally_insert _ _ _ _ _ Hi'), ?(tally_insert _ _ _ _ _ Hk); cbn [is_locked is_counted is_waiting is_looking]; try lia.
    erewrite held_insert by (exact Hi' || done). by erewrite held_insert by (exact Hk || done).
  - split; cbn; try done; rewrite ?(tally_insert _ _ _ _ _ Hi); cbn [is_locked is_counted is_waiting is_looking]; try lia.
    by erewrite held_insert by (exact Hi || done).
Qed.

Lemma pool_step_inv p i pick p' : pool_inv p -> pool_step i pick p = Some p' -> pool_inv p'.
Proof.
  intros Hp E. unfold pool_step in E. destruct (clients p !! i) as [c|] eqn:Hi; [|done]. cbn [mbind option_bind] in E.
  pose proof (pi_max p Hp) as Hm. assert ((max p =? 0) = false) as Hm0 by lia. destruct c as [| | | | | |x| |]; cbn [Get_step Put_step] in E.
  - rewrite Hm0 in E. injection E as <-. destruct Hp as [H1 H2 H3 H4 H5 H6 H7]. split; cbn [goto]; cbn; try done;
      rewrite ?(tally_insert _ _ _ _ _ Hi); cbn [is_locked is_counted is_waiting is_looking]; try lia.
    + intros j Hj. destruct (H3 j Hj) as (c & Hc & Hl). destruct (decide (j = i)) as [->|Hne]; [by rewrite Hi in Hc; injection Hc as <-|].
      exists c. by rewrite list_lookup_insert_ne.
    + by erewrite held_insert by (exact Hi || done).
  - destruct (acquire i get_locked p) eqn:Ea; [|done]. injection E as <-. by eapply (acquire_inv p i get_called get_locked).
  - pose proof (pi_bound p Hp) as Hb. destruct (count p >=? max p) eqn:Ec; injection E as <-.
    + apply (release_inv p i waiting (count p) Hp Hi). left. split_and!; [done|done|lia].
    + assert (u32 (count p + 1) = count p + 1) as -> by (apply Z.mod_small; lia).
      apply (release_inv p i granted (count p + 1) Hp Hi). right. split_and!; [done|done|lia].
  - done.
  - destruct (acquire i get_locked p) eqn:Ea; [|done]. injection E as <-. by eapply (acquire_inv p i woken get_locked).
  - destruct (pool_Get pick p) as [x p1] eqn:Eg. injection E as <-. by eapply take_inv.
  - rewrite Hm0 in E. injection E as <-. by apply give_inv.
  - destruct (acquire i put_locked p) eqn:Ea; [|done]. injection E as <-. by eapply (acquire_inv p i put_pooled put_locked).
  - injection E as <-. by apply finish_inv.
Qed.

Lemma new_pool_inv m n : 1 <= m < 2 ^ 32 -> pool_inv (NewWaitPool m n).
Proof.
  intros Hm. assert (held (replicate n idle) = []) as Hh by (unfold held; induction n as [|n IH]; [done|exact IH]).
  split; cbn; rewrite ?tally_replicate by done; try done; [lia|by left|]. rewrite Hh. split; constructor.
Qed.

Lemma pool_step_max p i pick p' : pool_step i pick p = Some p' -> max p' = max p.
Proof.
  unfold pool_step. destruct (clients p !! i) as [c|]; [|done]. cbn [mbind option_bind].
  assert (forall c p1, acquire i c p = Some p1 -> max p1 = max p) as Ha by (unfold acquire; intros ? ?; destruct (lock p); [done|]; by intros [= <-]).
  destruct c; cbn [Get_step Put_step]; try (by intros [= <-]).
  - intros E. destruct (acquire i get_locked p) eqn:Ea; [|done]. injection E as <-. by eapply Ha.
  - destruct (_ >=? _); by intros [= <-].
  - intros E. destruct (acquire i get_locked p) eqn:Ea; [|done]. injection E as <-. by eapply Ha.
  - unfold pool_Get. destruct (k ← pick; _) as [[k x]|]; by intros [= <-].
  - intros E. by eapply Ha.
  - destruct (Signal_spec pick (p <| count := u32 (count p - 1) |>)) as [(k & _ & ->)|(_ & ->)]; by intros [= <-].
Qed.

Lemma pool_reachable_inv m n p : 1 <= m < 2 ^ 32 -> pool_reachable m n p -> pool_inv p /\ max p = m.
Proof.
  intros Hm Hr. unfold pool_reachable in Hr. assert (pool_inv (NewWaitPool m n) /\ max (NewWaitPool m n) = m) as H0 by (split; [by apply new_pool_inv|done]).
  induction Hr as [p|p q r (i & pick & E) _ IH]; [done|]. apply IH. destruct H0 as [Hp Hmax].
  split; [by eapply pool_step_inv|by rewrite (pool_step_max _ _ _ _ E)].
Qed.

(** ** What the pool promises *)

(** A client that is inside [Get] or [Put] and does not wait. *)
Definition busy (c : client) : Prop := match c with idle | waiting | holding _ => False | _ => True end.

#[export] Instance busy_dec c : Decision (busy c).
Proof. destruct c; cbn; apply _. Defined.

(** The lock never stops all of them. *)
Lemma busy_steps p : pool_inv p -> Exists busy (clients p) -> exists j c pick p', clients p !! j = Some c /\ busy c /\ pool_step j pick p = Some p'.
Proof.
  intros Hp (c & Hin & Hc)%list.Exists_exists. apply list_elem_of_lookup in Hin as [j Hj]. destruct (lock p) as [o|] eqn:El.
  - destruct (pi_owner p Hp o El) as (d & Hd & Hl). unfold pool_step. destruct d; try done.
    + exists o, get_locked, None. assert (exists p', pool_step o None p = Some p') as [p' E]; [|by exists p'].
      unfold pool_step. rewrite Hd. cbn. destruct (_ >=? _); by eexists.
    + eexists o, put_locked, None, _. split; [done|]. split; [done|]. rewrite Hd. reflexivity.
  - exists j, c, None. assert (exists p', pool_step j None p = Some p') as [p' E]; [|by exists p'].
    unfold pool_step. rewrite Hj. cbn [mbind option_bind]. destruct c; try done; cbn [Get_step Put_step]; unfold acquire; rewrite ?El; try by eexists.
    destruct (_ >=? _); by eexists.
Qed.

Lemma quiet_tally l : Forall (fun c => ~ busy c) l -> tally is_looking l = 0 /\ tally is_counted l = tally is_holding l.
Proof. unfold tally. induction 1 as [|c l Hc _ [IH1 IH2]]; [done|]. destruct c; cbn in *; try done; split; lia. Qed.

Lemma waiting_full p i :
  pool_inv p -> clients p !! i = Some waiting ->
  (exists j c pick p', clients p !! j = Some c /\ busy c /\ pool_step j pick p = Some p') \/ tally is_holding (clients p) = max p.
Proof.
  intros Hp Hi. destruct (decide (Exists busy (clients p))) as [He|Hn]; [left; by apply busy_steps|right].
  assert (Forall (fun c => ~ busy c) (clients p)) as Hq by (by apply not_Exists_Forall in Hn; [|apply _]).
  destruct (quiet_tally _ Hq) as [H1 H2]. pose proof (pi_count p Hp). pose proof (pi_bound p Hp).
  assert (1 <= tally is_waiting (clients p)) by (apply (tally_member is_waiting _ i waiting); [by intros []|done]).
  destruct (pi_wake p Hp); lia.
Qed.

Lemma held_once p i j x : pool_inv p -> clients p !! i = Some (holding x) -> clients p !! j = Some (holding x) -> i = j.
Proof.
  intros Hp Hi Hj. destruct (decide (i = j)) as [|Hne]; [done|]. exfalso. destruct (pi_items p Hp) as [Hnd _]. apply NoDup_app in Hnd as [Hnd _].
  rewrite (held_drop _ i x idle Hi) in Hnd by done. apply NoDup_cons in Hnd as [Hx _]. apply Hx. apply (held_elem _ j). by rewrite list_lookup_insert_ne.
Qed.

Lemma holding_bound p : pool_inv p -> tally is_holding (clients p) <= max p.
Proof.
  intros Hp. pose proof (pi_bound p Hp) as Hb. rewrite (pi_count p Hp) in Hb.
  assert (forall l, tally is_holding l <= tally is_counted l) as Hle; [|specialize (Hle (clients p)); lia].
  unfold tally. induction l as [|c l IH]; [done|]. destruct c; cbn; lia.
Qed.

(** C18: whatever the interleaving of its clients, a pool with a bound never hands out
    more items than the bound, nor an item to two clients at a time; and no wake-up is
    lost: while a client waits, some client inside [Get] or [Put] can go on, or the
    bound is reached by clients that hold an item. *)
Theorem waitpool_correct m n p :
  1 <= m < 2 ^ 32 -> pool_reachable m n p ->
  tally is_holding (clients p) <= m /\
  (forall i j x, clients p !! i = Some (holding x) -> clients p !! j = Some (holding x) -> i = j) /\
  (forall i, clients p !! i = Some waiting ->
    (exists j c pick p', clients p !! j = Some c /\ busy c /\ pool_step j pick p = Some p') \/ tally is_holding (clients p) = m).
Proof.
  intros Hm Hr. destruct (pool_reachable_inv m n p Hm Hr) as [Hp <-]. split_and!.
  - by apply holding_bound.
  - intros i j x. by apply held_once.
  - intros i. by apply waiting_full.
Qed.

(** Two clients of a pool with one item: one holds it, the other waits. *)
Definition sample_pool : WaitPool := mkWaitPool [] 1 None 1 1 [holding 0; waiting].

Lemma sample_pool_reachable : pool_reachable 1 2 sample_pool.
Proof.
  unfold pool_reachable. do 4 (eapply rtc_l; [exists 0%nat, None; reflexivity|]). do 3 (eapply rtc_l; [exists 1%nat, None; reflexivity|]).
  apply rtc_refl.
Qed.

Lemma waitpool_correct_witness :
  tally is_holding (clients sample_pool) <= 1 /\
  ((exists j c pick p', clients sample_pool !! j = Some c /\ busy c /\ pool_step j pick sample_pool = Some p') \/
   tally is_holding (clients sample_pool) = 1).
Proof.
  destruct (waitpool_correct 1 2 sample_pool ltac:(lia) sample_pool_reachable) as (H1 & _ & H3). split; [exact H1|]. by apply (H3 1%nat).
Defined.
