(* ===== verification/Slices.v ===== *)
(** * Reading and writing inside byte slices

    The operations of [encoding/binary] and the built-in [copy] at an offset,
    with the panics of Go, and the lemmas on the bytes they leave in place:
    [splice] replaces a range, [sub] reads one. *)

From stdpp Require Import base numbers list.
From S2P Require Import Prelude.

Open Scope Z_scope.

(** The bytes from [lo] up to [hi]. *)
Definition sub (b : list Z) (lo hi : Z) : list Z := take (Z.to_nat (hi - lo)) (drop (Z.to_nat lo) b).

(** [b] with the bytes at [i] replaced by [y]. *)
Definition splice (b : list Z) (i : Z) (y : list Z) : list Z :=
  take (Z.to_nat i) b ++ y ++ drop (Z.to_nat i + length y) b.

(** [b[i] = x] *)
Definition set_byte (b : list Z) (i x : Z) : option (list Z) :=
  if decide (0 <= i < zlen b) then Some (splice b i [x]) else None.

(** [binary.BigEndian.Uint16(b[i:])], [Uint32] for [n = 4] *)
Definition get_be (n : nat) (b : list Z) (i : Z) : option Z :=
  if decide (0 <= i /\ i + Z.of_nat n <= zlen b) then Some (be_uint (sub b i (i + Z.of_nat n))) else None.

(** [binary.BigEndian.PutUint16(b[i:], x)], [PutUint32] for [n = 4] *)
Definition put_be (n : nat) (b : list Z) (i x : Z) : option (list Z) :=
  if decide (0 <= i /\ i + Z.of_nat n <= zlen b) then Some (splice b i (be_put n x)) else None.

(** [copy(b[i:], src)] *)
Definition copy_to (b : list Z) (i : Z) (src : list Z) : option (list Z) :=
  if decide (0 <= i <= zlen b) then Some (copy_at b (Z.to_nat i) src) else None.

(** [copy(b[lo:hi], src)] *)
Definition copy_range (b : list Z) (lo hi : Z) (src : list Z) : option (list Z) :=
  if decide (0 <= lo <= hi /\ hi <= zlen b)
  then Some (copy_at b (Z.to_nat lo) (take (Z.to_nat (hi - lo)) src)) else None.

(** ** Lengths *)

Create Rewrite HintDb len.

#[export] Hint Rewrite @length_app @length_take @length_drop @length_replicate @length_insert
  length_be_put length_le_put length_copy @length_cons @length_nil : len.

Ltac len := unfold zlen in *; autorewrite with len in *; try lia.

Lemma zlen_splice b i y : 0 <= i -> i + zlen y <= zlen b -> zlen (splice b i y) = zlen b.
Proof. unfold splice. intros. len. Qed.

Lemma zlen_sub b lo hi : 0 <= lo <= hi -> hi <= zlen b -> zlen (sub b lo hi) = hi - lo.
Proof. unfold sub. intros. len. Qed.

Lemma zlen_nonneg {A} (b : list A) : 0 <= zlen b.
Proof. unfold zlen. lia. Qed.

Lemma zlen_app {A} (a b : list A) : zlen (a ++ b) = zlen a + zlen b.
Proof. len. Qed.

Lemma zlen_be_put n x : zlen (be_put n x) = Z.of_nat n.
Proof. len. Qed.

(** ** Lookups *)

(** The byte at an index, zero outside. *)
Definition at_ (b : list Z) (i : Z) : Z := if decide (0 <= i) then default 0 (b !! Z.to_nat i) else 0.

Lemma byte_at_at b i : 0 <= i < zlen b -> byte_at b i = Some (at_ b i).
Proof.
  intros H. unfold byte_at, at_. rewrite !decide_True by lia.
  destruct (b !! Z.to_nat i) eqn:E; [done|]. apply lookup_ge_None in E. unfold zlen in H. lia.
Qed.

Lemma lookup_sub b lo hi i : 0 <= lo -> Z.of_nat i < hi - lo -> sub b lo hi !! i = b !! (Z.to_nat lo + i)%nat.
Proof. intros. unfold sub. rewrite lookup_take_lt by lia. apply lookup_drop. Qed.

Lemma lookup_splice_out b i y k :
  0 <= i -> i + zlen y <= zlen b -> (Z.of_nat k < i \/ i + zlen y <= Z.of_nat k) -> splice b i y !! k = b !! k.
Proof.
  unfold splice, zlen. intros Hi Hl [Hk|Hk].
  - rewrite lookup_app_l by len. by rewrite lookup_take_lt by lia.
  - rewrite lookup_app_r by len. rewrite lookup_app_r by len. rewrite lookup_drop. f_equal. len.
Qed.

Lemma lookup_splice_in b i y k :
  0 <= i -> i + zlen y <= zlen b -> i <= Z.of_nat k < i + zlen y ->
  splice b i y !! k = y !! (k - Z.to_nat i)%nat.
Proof.
  unfold splice, zlen. intros Hi Hl Hk. rewrite lookup_app_r by len. rewrite lookup_app_l by len.
  f_equal. len.
Qed.

(** ** Reading back *)

(** A range away from the write is unchanged. *)
Lemma sub_splice_out b i y lo hi :
  0 <= i -> i + zlen y <= zlen b -> 0 <= lo <= hi -> hi <= zlen b -> (hi <= i \/ i + zlen y <= lo) ->
  sub (splice b i y) lo hi = sub b lo hi.
Proof.
  intros Hi Hl Hlo Hhi Hd. apply list_eq. intros k. destruct (decide (Z.of_nat k < hi - lo)) as [Hk|Hk].
  - rewrite !lookup_sub by lia. apply lookup_splice_out; lia.
  - rewrite !lookup_ge_None_2; [done| |].
    + pose proof (zlen_sub b lo hi Hlo Hhi). unfold zlen in *. lia.
    + pose proof (zlen_sub (splice b i y) lo hi Hlo ltac:(rewrite zlen_splice; done)). unfold zlen in *. lia.
Qed.

(** The write itself. *)
Lemma sub_splice_same b i y :
  0 <= i -> i + zlen y <= zlen b -> sub (splice b i y) i (i + zlen y) = y.
Proof.
  intros Hi Hl. unfold sub, splice, zlen in *. rewrite drop_app_ge by len.
  replace (Z.to_nat i - length (take (Z.to_nat i) b))%nat with 0%nat by len. rewrite drop_0.
  rewrite take_app_le by lia. apply take_ge. lia.
Qed.

(** A write inside the range that is read. *)
Lemma sub_splice_in b i y lo hi :
  0 <= lo <= i -> i + zlen y <= hi -> hi <= zlen b ->
  sub (splice b i y) lo hi = sub b lo i ++ y ++ sub b (i + zlen y) hi.
Proof.
  intros Hlo Hi Hhi. unfold zlen in *. apply list_eq. intros k.
  assert (length (sub b lo i) = Z.to_nat (i - lo)) as L1 by (unfold sub; len).
  destruct (decide (Z.of_nat k < hi - lo)) as [Hk|Hk].
  - rewrite lookup_sub by lia. destruct (decide (Z.of_nat k < i - lo)) as [H1|H1].
    + rewrite lookup_app_l by lia. rewrite lookup_sub by lia. apply lookup_splice_out; unfold zlen; lia.
    + rewrite lookup_app_r by lia. destruct (decide (Z.of_nat k < i - lo + zlen y)) as [H2|H2]; unfold zlen in *.
      * rewrite lookup_app_l by lia. rewrite lookup_splice_in by (unfold zlen; lia). f_equal. lia.
      * rewrite lookup_app_r by lia. rewrite lookup_sub by lia. rewrite lookup_splice_out by (unfold zlen; lia).
        f_equal. lia.
  - rewrite !lookup_ge_None_2; [done| |].
    + unfold sub in *. len.
    + pose proof (zlen_sub (splice b i y) lo hi ltac:(lia)) as Hz. rewrite zlen_splice in Hz by (unfold zlen; lia).
      unfold zlen in Hz. lia.
Qed.

Lemma sub_app_split b lo mid hi :
  0 <= lo <= mid -> mid <= hi -> hi <= zlen b -> sub b lo hi = sub b lo mid ++ sub b mid hi.
Proof.
  intros H1 H2 H3. unfold sub. replace (Z.to_nat (hi - lo)) with (Z.to_nat (mid - lo) + Z.to_nat (hi - mid))%nat by lia.
  rewrite <- (take_take_drop _ (Z.to_nat (mid - lo))), drop_drop. repeat f_equal. lia.
Qed.

Lemma sub_sub b lo hi lo' hi' :
  0 <= lo -> 0 <= lo' <= hi' -> hi' <= hi - lo -> sub (sub b lo hi) lo' hi' = sub b (lo + lo') (lo + hi').
Proof.
  intros H1 H2 H3. unfold sub. rewrite skipn_firstn_comm, take_take, drop_drop. f_equal; [lia|]. f_equal. lia.
Qed.

Lemma sub_full b : sub b 0 (zlen b) = b.
Proof. unfold sub. cbn. apply take_ge. len. Qed.

Lemma slice_sub b lo hi : 0 <= lo <= hi -> hi <= zlen b -> slice b lo hi = Some (sub b lo hi).
Proof. intros. unfold slice, sub. by rewrite decide_True. Qed.

Lemma is_bytes_sub b lo hi : is_bytes b -> is_bytes (sub b lo hi).
Proof. intros. by apply Forall_take, Forall_drop. Qed.

Lemma is_bytes_splice b i y : is_bytes b -> is_bytes y -> is_bytes (splice b i y).
Proof. intros. unfold splice. rewrite !is_bytes_app. split; [by apply Forall_take|]. split; [done|by apply Forall_drop]. Qed.

(** ** The operations in bounds *)

Lemma get_be_eq n b i : 0 <= i -> i + Z.of_nat n <= zlen b -> get_be n b i = Some (be_uint (sub b i (i + Z.of_nat n))).
Proof. intros. unfold get_be. by rewrite decide_True. Qed.

Lemma put_be_eq n b i x : 0 <= i -> i + Z.of_nat n <= zlen b -> put_be n b i x = Some (splice b i (be_put n x)).
Proof. intros. unfold put_be. by rewrite decide_True. Qed.

Lemma set_byte_eq b i x : 0 <= i < zlen b -> set_byte b i x = Some (splice b i [x]).
Proof. intros. unfold set_byte. by rewrite decide_True. Qed.

Lemma copy_at_splice b i src : 0 <= i -> i + zlen src <= zlen b -> copy_at b (Z.to_nat i) src = splice b i src.
Proof.
  intros Hi Hl. unfold copy_at, copy, splice. rewrite (take_ge src) by len. by rewrite drop_drop.
Qed.

Lemma copy_to_eq b i src : 0 <= i -> i + zlen src <= zlen b -> copy_to b i src = Some (splice b i src).
Proof. intros. unfold copy_to. rewrite decide_True by len. by rewrite copy_at_splice. Qed.

Lemma copy_range_eq b lo hi src :
  0 <= lo <= hi -> hi <= zlen b -> zlen src = hi - lo -> copy_range b lo hi src = Some (splice b lo src).
Proof.
  intros H1 H2 H3. unfold copy_range. rewrite decide_True by lia.
  rewrite take_ge by (unfold zlen in H3; lia). rewrite copy_at_splice by lia. done.
Qed.

(** ** Automation: reading a range of a buffer after writes *)

Lemma sub_splice_eq b i y lo hi :
  lo = i -> hi = i + zlen y -> 0 <= i -> i + zlen y <= zlen b -> sub (splice b i y) lo hi = y.
Proof. intros -> ->. apply sub_splice_same. Qed.

(** The length of a buffer after in-bounds writes. *)
Ltac zlens :=
  repeat first
    [ rewrite zlen_be_put in *
    | rewrite zlen_app in *
    | match goal with |- context [zlen [?x]] => change (zlen [x]) with 1 end
    | rewrite zlen_sub by zlens
    | rewrite zlen_splice by zlens ]; try lia.

(** [sub (splice ...) lo hi] where every write is inside or outside the range
    as a whole. *)
Ltac reads :=
  repeat first
    [ rewrite sub_splice_eq by zlens
    | rewrite sub_splice_out by zlens ].

Lemma sub_0_take b n : sub b 0 n = take (Z.to_nat n) b.
Proof. unfold sub. by rewrite Z.sub_0_r. Qed.

Lemma sub_drop b n : 0 <= n -> sub b n (zlen b) = drop (Z.to_nat n) b.
Proof. intros. unfold sub. apply take_ge. len. Qed.

(** A range read inside a range that is known. *)
Lemma sub_within b lo hi lo' hi' :
  0 <= lo <= lo' -> lo' <= hi' -> hi' <= hi -> sub b lo' hi' = sub (sub b lo hi) (lo' - lo) (hi' - lo).
Proof. intros. rewrite sub_sub by lia. f_equal; lia. Qed.

(** A write inside a range, seen in the range. *)
Lemma sub_splice_rel b i y lo hi :
  0 <= lo <= i -> i + zlen y <= hi -> hi <= zlen b ->
  sub (splice b i y) lo hi = splice (sub b lo hi) (i - lo) y.
Proof.
  intros H1 H2 H3. pose proof (zlen_nonneg y). rewrite sub_splice_in by lia.
  assert (zlen (sub b lo hi) = hi - lo) as Hl by (rewrite zlen_sub; lia).
  rewrite <- (sub_full (splice (sub b lo hi) (i - lo) y)), zlen_splice by lia.
  rewrite sub_splice_in, Hl by lia. rewrite !sub_sub by lia.
  f_equal; [f_equal; lia|]. f_equal. f_equal; lia.
Qed.

Lemma at_sub b lo hi i : 0 <= lo -> 0 <= i < hi - lo -> at_ (sub b lo hi) i = at_ b (lo + i).
Proof.
  intros. unfold at_. rewrite !decide_True by lia. rewrite lookup_sub by lia. do 2 f_equal. lia.
Qed.

Lemma at_splice_out b i y k :
  0 <= i -> i + zlen y <= zlen b -> (k < i \/ i + zlen y <= k) -> at_ (splice b i y) k = at_ b k.
Proof.
  intros. unfold at_. destruct (decide (0 <= k)); [|done]. by rewrite lookup_splice_out by lia.
Qed.

Lemma at_splice_eq b i x k : k = i -> 0 <= i < zlen b -> at_ (splice b i [x]) k = x.
Proof.
  intros -> H. unfold at_. rewrite decide_True by lia.
  rewrite lookup_splice_in by (change (zlen [x]) with 1; lia). by rewrite Nat.sub_diag.
Qed.

Lemma sub_single b i : 0 <= i < zlen b -> sub b i (i + 1) = [at_ b i].
Proof.
  intros H. unfold sub, at_. rewrite decide_True by lia. replace (Z.to_nat (i + 1 - i)) with 1%nat by lia.
  destruct (b !! Z.to_nat i) as [x|] eqn:E; [by rewrite (drop_S _ _ _ E)|].
  apply lookup_ge_None in E. unfold zlen in *. lia.
Qed.

Lemma splice_splice b i x y :
  0 <= i -> i + zlen x <= zlen b -> zlen y = zlen x -> splice (splice b i x) i y = splice b i y.
Proof.
  unfold splice, zlen. intros Hi Hl Hy. rewrite take_app_length' by len. f_equal. f_equal.
  rewrite app_assoc, drop_app_length' by len. f_equal. lia.
Qed.

Lemma splice_app a b i y : 0 <= i -> i + zlen y <= zlen a -> splice (a ++ b) i y = splice a i y ++ b.
Proof.
  intros Hi Hl. unfold splice, zlen in *. rewrite take_app_le, drop_app_le by lia. by rewrite <- !app_assoc.
Qed.

Lemma at_app_l a b i : i < zlen a -> at_ (a ++ b) i = at_ a i.
Proof.
  intros Hi. unfold at_, zlen in *. destruct (decide _); [|done]. by rewrite lookup_app_l by lia.
Qed.
