(* ===== verification/Gso.v ===== *)
(** * Segmentation of offloaded packets (src/wireguard-go/tun/offload_linux.go,
    src/wireguard-go/tun/tun_linux.go)

    A read from the Linux TUN device delivers a virtio-net header and one large
    packet; [handleVirtioRead] checks the header and [gsoSplit] cuts the packet
    into segments with headers and checksums of their own. The packet is read
    from a buffer larger than itself, so [In] carries the bytes up to the
    capacity and the length; the buffers written are whole arrays. *)

From stdpp Require Import base numbers list.
From S2P Require Import Prelude Setters Slices Checksum.

Open Scope Z_scope.

(** ** The virtio-net header *)

Record virtioNetHdr := mkHdr {
  flags : Z;
  gsoType : Z;
  hdrLen : Z;
  gsoSize : Z;
  csumStart : Z;
  csumOffset : Z
}.

#[export] Instance eta_virtioNetHdr : Settable virtioNetHdr := fun h =>
  mkHdr (flags h) (gsoType h) (hdrLen h) (gsoSize h) (csumStart h) (csumOffset h).

Definition virtioNetHdrLen : Z := 10.

Definition VIRTIO_NET_HDR_F_NEEDS_CSUM : Z := 1.

Definition VIRTIO_NET_HDR_GSO_NONE : Z := 0.

Definition VIRTIO_NET_HDR_GSO_TCPV4 : Z := 1.

Definition VIRTIO_NET_HDR_GSO_TCPV6 : Z := 4.

Definition VIRTIO_NET_HDR_GSO_UDP_L4 : Z := 5.

Definition IPPROTO_TCP : Z := 6.

Definition IPPROTO_UDP : Z := 17.

Definition tcpFlagsOffset : Z := 13.

Definition tcpFlagFIN : Z := 0x01.

Definition tcpFlagPSH : Z := 0x08.

Definition tcpFlagACK : Z := 0x10.

Definition ipv4SrcAddrOffset : Z := 12.

Definition ipv6SrcAddrOffset : Z := 8.

Inductive tun_error :=
| ErrShortBuffer
| ErrOverflowsBuffer
| ErrUnsupportedGSO
| ErrVersionGSOType
| ErrInvalidVersion
| ErrPacketTooShort
| ErrTCPHeaderLen
| ErrShorterThanHeader
| ErrHeaderBeforeChecksum
| ErrChecksumOffset
| ErrTooManySegments
| ErrInvalidOffset.

(** The bytes of the struct in memory order: 16-bit fields in the byte order
    of the machine. *)
Definition hdr_bytes (e : endian) (h : virtioNetHdr) : list Z :=
  [flags h; gsoType h] ++ ne_put e 2 (hdrLen h) ++ ne_put e 2 (gsoSize h) ++ ne_put e 2 (csumStart h) ++
  ne_put e 2 (csumOffset h).

Definition decode (e : endian) (b : list Z) : tun_error + virtioNetHdr :=
  if zlen b <? virtioNetHdrLen then inl ErrShortBuffer
  else inr (mkHdr (at_ b 0) (at_ b 1) (ne_uint e (sub b 2 4)) (ne_uint e (sub b 4 6)) (ne_uint e (sub b 6 8))
              (ne_uint e (sub b 8 10))).

(** [v.encode(b)]: the header over the first bytes of [b]. *)
Definition encode (e : endian) (h : virtioNetHdr) (b : list Z) : tun_error + list Z :=
  if zlen b <? virtioNetHdrLen then inl ErrShortBuffer else inr (splice b 0 (hdr_bytes e h)).

(** ** Splitting *)

(** A slice: the bytes from its start up to its capacity, and its length. *)
Record In := mkIn { mem : list Z; len_in : Z }.

(** [in[i] = x] *)
Definition in_set (b : In) (i x : Z) : option In :=
  if decide (0 <= i < len_in b) then Some (mkIn (splice (mem b) i [x]) (len_in b)) else None.

(** [in[lo:hi]]: a slice expression may reach up to the capacity. *)
Definition in_slice (b : In) (lo hi : Z) : option (list Z) := slice (mem b) lo hi.

(** The bytes of the slice itself. *)
Definition in_bytes (b : In) : list Z := take (Z.to_nat (len_in b)) (mem b).

(** The part of [gsoSplit] before the loop: the checksum fields cleared, and
    the transport protocol with the first sequence number. *)
Definition gso_prepare (inp : In) (hdr : virtioNetHdr) (isV6 : bool) : option (In * Z * Z) :=
  inp ← (if isV6 then Some inp else i ← in_set inp 10 0; in_set i 11 0);
  let transportCsumAt := u16 (csumStart hdr + csumOffset hdr) in
  inp ← in_set inp transportCsumAt 0;
  inp ← in_set inp (transportCsumAt + 1) 0;
  if (gsoType hdr =? VIRTIO_NET_HDR_GSO_TCPV4) || (gsoType hdr =? VIRTIO_NET_HDR_GSO_TCPV6) then
    seq ← get_be 4 (in_bytes inp) (u16 (csumStart hdr + 4));
    Some (inp, IPPROTO_TCP, seq)
  else Some (inp, IPPROTO_UDP, 0).

(** The IP header of segment [i] in [out]. *)
Definition gso_ip_header (e : endian) (inp : In) (hdr : virtioNetHdr) (isV6 : bool) (i totalLen : Z)
    (out : list Z) : option (list Z) :=
  let iphLen := csumStart hdr in
  ip ← in_slice inp 0 iphLen;
  out ← copy_to out 0 ip;
  if isV6 then put_be 2 out 4 (u16 (totalLen - iphLen))
  else
    out ← (if i >? 0 then id ← get_be 2 out 4; put_be 2 out 4 (u16 (id + u16 i)) else Some out);
    out ← put_be 2 out 2 (u16 totalLen);
    ip ← slice out 0 iphLen;
    put_be 2 out 10 (not16 (checksum e ip 0)).

(** The transport header of segment [i], before its checksum. *)
Definition gso_transport_header (inp : In) (hdr : virtioNetHdr) (protocol firstTCPSeqNum i nextSegmentEnd
    segmentDataLen : Z) (out : list Z) : option (list Z) :=
  th ← in_slice inp (csumStart hdr) (hdrLen hdr);
  out ← copy_range out (csumStart hdr) (hdrLen hdr) th;
  if protocol =? IPPROTO_TCP then
    let tcpSeq := u32 (firstTCPSeqNum + u16 (gsoSize hdr * u16 i)) in
    out ← put_be 4 out (u16 (csumStart hdr + 4)) tcpSeq;
    if negb (nextSegmentEnd =? len_in inp) then
      let clearFlags := Z.lor tcpFlagFIN tcpFlagPSH in
      let at_flags := u16 (csumStart hdr + tcpFlagsOffset) in
      f ← byte_at out at_flags;
      set_byte out at_flags (Z.ldiff f clearFlags)
    else Some out
  else put_be 2 out (u16 (csumStart hdr + 4)) (u16 (u16 segmentDataLen + u16 (hdrLen hdr - csumStart hdr))).

(** The body of the loop: segment [i], written to [out]; its length. *)
Definition gso_segment (e : endian) (inp : In) (hdr : virtioNetHdr) (isV6 : bool)
    (protocol firstTCPSeqNum i nextSegmentDataAt : Z) (out : list Z) : option (list Z * Z) :=
  let nextSegmentEnd := Z.min (nextSegmentDataAt + gsoSize hdr) (len_in inp) in
  let segmentDataLen := nextSegmentEnd - nextSegmentDataAt in
  let totalLen := hdrLen hdr + segmentDataLen in
  out ← gso_ip_header e inp hdr isV6 i totalLen out;
  out ← gso_transport_header inp hdr protocol firstTCPSeqNum i nextSegmentEnd segmentDataLen out;
  payload ← in_slice inp nextSegmentDataAt nextSegmentEnd;
  out ← copy_to out (hdrLen hdr) payload;
  let transportHeaderLen := u16 (hdrLen hdr - csumStart hdr) in
  let lenForPseudo := u16 (transportHeaderLen + segmentDataLen) in
  let srcAddrOffset := if isV6 then ipv6SrcAddrOffset else ipv4SrcAddrOffset in
  let addrLen := if isV6 then 16 else 4 in
  src ← in_slice inp srcAddrOffset (srcAddrOffset + addrLen);
  dst ← in_slice inp (srcAddrOffset + addrLen) (srcAddrOffset + addrLen * 2);
  let transportCSumNoFold := pseudoHeaderChecksumNoFold e protocol src dst lenForPseudo in
  seg ← slice out (csumStart hdr) totalLen;
  let transportCSum := not16 (checksum e seg transportCSumNoFold) in
  out ← put_be 2 out (u16 (csumStart hdr + csumOffset hdr)) transportCSum;
  Some (out, totalLen).

(** [outBuffs[i][outOffset:]] as a view that is written back. *)
Definition in_view (buf : list Z) (outOffset : Z) (f : list Z -> option (list Z * Z)) : option (list Z * Z) :=
  if decide (0 <= outOffset <= zlen buf) then
    '(out, n) ← f (drop (Z.to_nat outOffset) buf);
    Some (take (Z.to_nat outOffset) buf ++ out, n)
  else None.

(** The loop over the buffers from the [i]th on, with the sizes from the [i]th
    on: the buffers and sizes after it, and what [gsoSplit] returns. *)
Fixpoint gso_loop (e : endian) (inp : In) (hdr : virtioNetHdr) (isV6 : bool) (protocol firstTCPSeqNum outOffset : Z)
    (outBuffs : list (list Z)) (sizes : list Z) (i nextSegmentDataAt : Z) :
    option (list (list Z) * list Z * (Z * option tun_error)) :=
  if negb (nextSegmentDataAt <? len_in inp) then Some (outBuffs, sizes, (i, None))
  else
    match outBuffs with
    | [] => Some ([], sizes, (i - 1, Some ErrTooManySegments))
    | buf :: outBuffs =>
        match sizes with
        | [] => None
        | _ :: sizes =>
            '(buf, n) ← in_view buf outOffset
                          (gso_segment e inp hdr isV6 protocol firstTCPSeqNum i nextSegmentDataAt);
            '(bufs, ns, r) ← gso_loop e inp hdr isV6 protocol firstTCPSeqNum outOffset outBuffs sizes (i + 1)
                               (nextSegmentDataAt + gsoSize hdr);
            Some (buf :: bufs, n :: ns, r)
        end
    end.

Definition gsoSplit (e : endian) (inp : In) (hdr : virtioNetHdr) (outBuffs : list (list Z)) (sizes : list Z)
    (outOffset : Z) (isV6 : bool) : option (list (list Z) * list Z * (Z * option tun_error)) :=
  '(inp, protocol, seq) ← gso_prepare inp hdr isV6;
  gso_loop e inp hdr isV6 protocol seq outOffset outBuffs sizes 0 (hdrLen hdr).

(** The packet with its checksum completed. *)
Definition gsoNoneChecksum (e : endian) (inp : list Z) (cSumStart cSumOffset : Z) : option (list Z) :=
  let cSumAt := u16 (cSumStart + cSumOffset) in
  initial ← get_be 2 inp cSumAt;
  inp ← set_byte inp cSumAt 0;
  inp ← set_byte inp (u16 (cSumAt + 1)) 0;
  rest ← slice inp cSumStart (zlen inp);
  put_be 2 inp cSumAt (not16 (checksum e rest initial)).

(** ** Reading *)

(** The branch of [handleVirtioRead] for a packet that is not segmented. *)
Definition virtio_whole (e : endian) (inp : list Z) (hdr : virtioNetHdr) (bufs : list (list Z)) (sizes : list Z)
    (offset : Z) : option (list (list Z) * list Z * (Z * option tun_error)) :=
  inp ← (if Z.land (flags hdr) VIRTIO_NET_HDR_F_NEEDS_CSUM =? 0 then Some inp
         else gsoNoneChecksum e inp (csumStart hdr) (csumOffset hdr));
  match bufs with
  | [] => None
  | buf :: bufs' =>
      if decide (0 <= offset <= zlen buf) then
        if zlen inp >? zlen buf - offset then Some (bufs, sizes, (0, Some ErrOverflowsBuffer))
        else
          buf ← copy_to buf offset inp;
          match sizes with
          | [] => None
          | _ :: ns => Some (buf :: bufs', zlen inp :: ns, (1, None))
          end
      else None
  end.

(** The header length [handleVirtioRead] computes from the packet itself. *)
Definition virtio_hdrLen (inp : In) (hdr : virtioNetHdr) : option (tun_error + virtioNetHdr) :=
  if gsoType hdr =? VIRTIO_NET_HDR_GSO_UDP_L4 then Some (inr (hdr <| hdrLen := u16 (csumStart hdr + 8) |>))
  else if len_in inp <=? u16 (csumStart hdr + 12) then Some (inl ErrPacketTooShort)
  else
    b ← byte_at (in_bytes inp) (u16 (csumStart hdr + 12));
    let tcpHLen := u8 (Z.shiftr b 4 * 4) in
    if (tcpHLen <? 20) || (tcpHLen >? 60) then Some (inl ErrTCPHeaderLen)
    else Some (inr (hdr <| hdrLen := u16 (csumStart hdr + tcpHLen) |>)).

(** The checks of [handleVirtioRead] on a packet to segment, and the split. *)
Definition virtio_split (e : endian) (inp : In) (hdr : virtioNetHdr) (bufs : list (list Z)) (sizes : list Z)
    (offset : Z) : option (list (list Z) * list Z * (Z * option tun_error)) :=
  let fail err := Some (bufs, sizes, (0, Some err)) in
  b ← byte_at (in_bytes inp) 0;
  let ipVersion := Z.shiftr b 4 in
  if negb ((ipVersion =? 4) || (ipVersion =? 6)) then fail ErrInvalidVersion
  else if negb (gsoType hdr =? (if ipVersion =? 4 then VIRTIO_NET_HDR_GSO_TCPV4 else VIRTIO_NET_HDR_GSO_TCPV6)) &&
          negb (gsoType hdr =? VIRTIO_NET_HDR_GSO_UDP_L4) then fail ErrVersionGSOType
  else
    r ← virtio_hdrLen inp hdr;
    match r with
    | inl err => fail err
    | inr hdr =>
        if len_in inp <? hdrLen hdr then fail ErrShorterThanHeader
        else if hdrLen hdr <? csumStart hdr then fail ErrHeaderBeforeChecksum
        else
          let cSumAt := u16 (csumStart hdr + csumOffset hdr) in
          if cSumAt + 1 >=? len_in inp then fail ErrChecksumOffset
          else gsoSplit e inp hdr bufs sizes offset (ipVersion =? 6)
    end.

(** The buffers and sizes after the read, and what it returns. *)
Definition handleVirtioRead (e : endian) (inp : In) (bufs : list (list Z)) (sizes : list Z) (offset : Z) :
    option (list (list Z) * list Z * (Z * option tun_error)) :=
  match decode e (in_bytes inp) with
  | inl err => Some (bufs, sizes, (0, Some err))
  | inr hdr =>
      let inp := mkIn (drop (Z.to_nat virtioNetHdrLen) (mem inp)) (len_in inp - virtioNetHdrLen) in
      if gsoType hdr =? VIRTIO_NET_HDR_GSO_NONE then virtio_whole e (in_bytes inp) hdr bufs sizes offset
      else if negb (gsoType hdr =? VIRTIO_NET_HDR_GSO_TCPV4) && negb (gsoType hdr =? VIRTIO_NET_HDR_GSO_TCPV6) &&
              negb (gsoType hdr =? VIRTIO_NET_HDR_GSO_UDP_L4)
      then Some (bufs, sizes, (0, Some ErrUnsupportedGSO))
      else virtio_split e inp hdr bufs sizes offset
  end.
