(* ===== verification/GsoCorrect.v ===== *)
(** * Segmentation is correct

    The segments [gsoSplit] writes carry the payload of the packet, cut into
    pieces of the segment size; each has the headers of the packet with its own
    length, identification, sequence number, flags and checksums, and the
    checksums verify. *)

From stdpp Require Import base numbers list.
From S2P Require Import Prelude Setters Slices Checksum Gso.

Open Scope Z_scope.

(** ** Headers *)

(** An IPv4 header [H] with another total length, identification and
    checksum field. *)
Definition ipv4_header (H : list Z) (totalLen id : Z) (c : list Z) : list Z :=
  sub H 0 2 ++ be_put 2 totalLen ++ be_put 2 id ++ sub H 6 10 ++ c ++ sub H 12 (zlen H).

(** An IPv6 header with another payload length. *)
Definition ipv6_header (H : list Z) (payloadLen : Z) : list Z :=
  sub H 0 4 ++ be_put 2 payloadLen ++ sub H 6 (zlen H).

(** A TCP header with another sequence number, flags and checksum. *)
Definition tcp_header (T : list Z) (seq fl : Z) (c : list Z) : list Z :=
  sub T 0 4 ++ be_put 4 seq ++ sub T 8 13 ++ [fl] ++ sub T 14 16 ++ c ++ sub T 18 (zlen T).

(** A UDP header with another length and checksum. *)
Definition udp_header (T : list Z) (len : Z) (c : list Z) : list Z :=
  sub T 0 4 ++ be_put 2 len ++ c.

(** The IP header of segment [i] of total length [tl]. *)
Definition ip_header (isV6 : bool) (H : list Z) (tl i : Z) (c : list Z) : list Z :=
  if isV6 then ipv6_header H (tl - zlen H) else ipv4_header H tl (u16 (be_uint (sub H 4 6) + i)) c.

(** The transport header of segment [i]: the sequence number steps by the
    segment size, FIN and PSH stay on the last segment only. *)
Definition transport_header (tcp : bool) (T : list Z) (size i dataLen : Z) (last : bool) (c : list Z) : list Z :=
  if tcp then tcp_header T (u32 (be_uint (sub T 4 8) + size * i)) (if last then at_ T 13 else Z.ldiff (at_ T 13) 9) c
  else udp_header T (zlen T + dataLen) c.

(** The bytes of the headers outside their checksum fields decide. *)
Lemma ip_header_ext (isV6 : bool) (H H' : list Z) tl i c :
  zlen H' = zlen H -> 20 <= zlen H ->
  (forall lo hi, 0 <= lo <= hi -> hi <= zlen H -> isV6 = true \/ hi <= 10 \/ 12 <= lo -> sub H' lo hi = sub H lo hi) ->
  ip_header isV6 H' tl i c = ip_header isV6 H tl i c.
Proof.
  intros Hl H20 Hs. unfold ip_header, ipv4_header, ipv6_header. rewrite Hl. destruct isV6.
  - rewrite !Hs by (lia || by left). done.
  - rewrite !Hs by (lia || (right; lia)). done.
Qed.

Lemma transport_header_ext (tcp : bool) (T T' : list Z) size i dl last c :
  zlen T' = zlen T -> (if tcp then 20 else 8) <= zlen T ->
  (forall lo hi, 0 <= lo <= hi -> hi <= zlen T ->
    hi <= (if tcp then 16 else 6) \/ (if tcp then 16 else 6) + 2 <= lo -> sub T' lo hi = sub T lo hi) ->
  transport_header tcp T' size i dl last c = transport_header tcp T size i dl last c.
Proof.
  intros Hl Hmin Hs. unfold transport_header, tcp_header, udp_header. rewrite Hl. destruct tcp.
  - assert (sub T' 13 (13 + 1) = sub T 13 (13 + 1)) as E by (apply Hs; lia).
    rewrite !sub_single in E by lia. injection E as ->. rewrite !Hs by lia. done.
  - rewrite !Hs by lia. done.
Qed.

(** Two bytes that make the checksum over the parts around them verify. *)
Definition fills (e : endian) (init : Z) (pre post c : list Z) : Prop :=
  zlen c = 2 /\ is_bytes c /\ not16 (checksum e (pre ++ c ++ post) init) = 0.

Lemma fills_checksum e init pre post :
  Nat.Even (length pre) -> is_bytes pre -> is_bytes post -> is_u64 init ->
  fills e init pre post (be_put 2 (not16 (checksum e (pre ++ [0; 0] ++ post) init))).
Proof.
  intros. split; [apply zlen_be_put|]. split; [apply is_bytes_be_put|]. by apply checksum_fill_verifies.
Qed.

Lemma tcp_pieces t :
  20 <= zlen t ->
  t = sub t 0 4 ++ sub t 4 8 ++ sub t 8 13 ++ sub t 13 (13 + 1) ++ sub t 14 16 ++ sub t 16 18 ++ sub t 18 (zlen t).
Proof.
  intros Hl. rewrite <- (sub_app_split t 16 18), <- (sub_app_split t 14 16), <- (sub_app_split t 13 14),
    <- (sub_app_split t 8 13), <- (sub_app_split t 4 8), <- (sub_app_split t 0 4) by lia. by rewrite sub_full.
Qed.

(** The writes of [gsoSplit] to a TCP header. *)
Lemma tcp_header_written t seq :
  20 <= zlen t -> sub t 16 18 = [0; 0] -> splice t 4 (be_put 4 seq) = tcp_header t seq (at_ t 13) [0; 0].
Proof.
  intros Hl Hz. rewrite (tcp_pieces (splice t 4 (be_put 4 seq))) by zlens. rewrite zlen_splice by zlens. reads.
  rewrite Hz, sub_single by lia. done.
Qed.

Lemma tcp_header_flags t seq fl :
  20 <= zlen t -> sub t 16 18 = [0; 0] ->
  splice (splice t 4 (be_put 4 seq)) 13 [fl] = tcp_header t seq fl [0; 0].
Proof.
  intros Hl Hz. rewrite (tcp_pieces (splice (splice t 4 _) 13 _)) by zlens. rewrite !zlen_splice by zlens. reads.
  by rewrite Hz.
Qed.

(** ** One segment *)

Section segment.
Context (e : endian) (inp : In) (hdr : virtioNetHdr) (isV6 : bool) (i : Z) (out : list Z).

Notation ih := (csumStart hdr).
Notation H := (sub (mem inp) 0 ih).

(** The identification is stepped by the number of the segment. *)
Lemma gso_id out1 :
  is_bytes (mem inp) -> 20 <= ih -> ih <= zlen (mem inp) -> ih <= zlen out1 -> 0 <= i < 2 ^ 16 ->
  sub out1 0 ih = H ->
  exists out2, (if i >? 0 then id ← get_be 2 out1 4; put_be 2 out1 4 (u16 (id + u16 i)) else Some out1) = Some out2 /\
    zlen out2 = zlen out1 /\ sub out2 0 4 = sub H 0 4 /\ sub out2 4 6 = be_put 2 (u16 (be_uint (sub H 4 6) + i)) /\
    sub out2 6 ih = sub H 6 ih.
Proof.
  intros Hb H20 Hm Ho Hi HH.
  assert (forall lo hi, 0 <= lo <= hi -> hi <= ih -> sub out1 lo hi = sub H lo hi) as Hs.
  { intros lo hi H1 H2. rewrite <- HH. rewrite sub_sub by lia. done. }
  destruct (i >? 0) eqn:E; zbool.
  - rewrite get_be_eq by lia. cbn [mbind option_bind]. rewrite put_be_eq by lia. eexists. split; [done|].
    split; [zlens|]. reads. rewrite !Hs by lia. split; [done|]. split; [|done].
    repeat f_equal. rewrite u16_small by (unfold_words; lia). done.
  - assert (i = 0) as -> by lia. exists out1. split; [done|]. split; [done|]. rewrite !Hs by lia.
    split; [done|]. split; [|done]. rewrite Z.add_0_r.
    assert (length (sub H 4 6) = 2%nat) as Hl.
    { pose proof (zlen_sub H 4 6 ltac:(lia) ltac:(zlens)) as Hz. unfold zlen in Hz. lia. }
    assert (is_bytes (sub H 4 6)) as Hbs by by apply is_bytes_sub, is_bytes_sub.
    pose proof (be_uint_bound _ Hbs) as Hub. unfold zlen in Hub. rewrite Hl in Hub.
    rewrite u16_small by (unfold_words; lia). rewrite <- Hl. by rewrite be_put_uint.
Qed.

Lemma gso_ip_header_v4 tl :
  is_bytes (mem inp) -> 20 <= ih -> ih <= zlen (mem inp) -> ih <= zlen out -> 0 <= i < 2 ^ 16 -> 0 <= tl < 2 ^ 16 ->
  sub (mem inp) 10 12 = [0; 0] ->
  exists out' c, gso_ip_header e inp hdr false i tl out = Some out' /\ zlen out' = zlen out /\
    sub out' 0 ih = ipv4_header H tl (u16 (be_uint (sub H 4 6) + i)) c /\ zlen c = 2 /\
    not16 (checksum e (sub out' 0 ih) 0) = 0.
Proof.
  intros Hb H20 Hm Ho Hi Htl Hz. unfold gso_ip_header, in_slice.
  rewrite slice_sub by lia. cbn [mbind option_bind]. rewrite copy_to_eq by zlens. cbn [mbind option_bind].
  assert (zlen H = ih) as HlH by zlens.
  destruct (gso_id (splice out 0 H)) as (out2 & -> & Hl2 & S1 & S2 & S3); [done|lia|lia|zlens|lia|by reads|].
  cbn [mbind option_bind]. rewrite zlen_splice in Hl2 by lia.
  rewrite put_be_eq by lia. cbn [mbind option_bind]. rewrite u16_small by (unfold_words; lia).
  set (out3 := splice out2 2 (be_put 2 tl)). assert (zlen out3 = zlen out) as Hl3 by (unfold out3; zlens).
  rewrite slice_sub by lia. cbn [mbind option_bind]. rewrite put_be_eq by lia.
  assert (sub out3 0 10 = sub H 0 2 ++ be_put 2 tl ++ be_put 2 (u16 (be_uint (sub H 4 6) + i)) ++ sub H 6 10) as Ha.
  { rewrite (sub_app_split out3 0 2 10), (sub_app_split out3 2 4 10), (sub_app_split out3 4 6 10) by lia.
    unfold out3. reads. rewrite (sub_within out2 0 4 0 2), (sub_within out2 6 ih 6 10) by lia.
    rewrite S1, S2, S3, !sub_sub by lia. done. }
  assert (sub out3 10 12 = [0; 0] /\ sub out3 12 ih = sub H 12 ih) as [Hc Hd].
  { unfold out3. reads. split.
    - rewrite (sub_within out2 6 ih 10 12) by lia. rewrite S3, !sub_sub by lia. exact Hz.
    - rewrite (sub_within out2 6 ih 12 ih) by lia. rewrite S3, !sub_sub by lia. f_equal; lia. }
  assert (sub out3 0 ih = sub out3 0 10 ++ [0; 0] ++ sub out3 12 ih) as Hall.
  { rewrite (sub_app_split out3 0 10 ih), (sub_app_split out3 10 12 ih) by lia. by rewrite Hc. }
  set (c := be_put 2 (not16 (checksum e (sub out3 0 ih) 0))).
  assert (fills e 0 (sub out3 0 10) (sub out3 12 ih) c) as (Hlc & _ & Hv).
  { unfold c. rewrite Hall. apply fills_checksum.
    - exists 5%nat. pose proof (zlen_sub out3 0 10 ltac:(lia) ltac:(lia)) as Hz'. unfold zlen in Hz'. lia.
    - rewrite Ha, !is_bytes_app. split_and!; auto using is_bytes_sub, is_bytes_be_put.
    - rewrite Hd. auto using is_bytes_sub.
    - by compute. }
  exists (splice out3 10 c), c. split; [done|]. split; [zlens|].
  rewrite sub_splice_in by lia. rewrite Hlc. change (10 + 2) with 12. split; [|split; [done|exact Hv]].
  unfold ipv4_header. rewrite Ha, Hd, HlH. by rewrite <- !app_assoc.
Qed.

Lemma gso_ip_header_v6 tl :
  40 <= ih -> ih <= zlen (mem inp) -> ih <= zlen out -> 0 <= tl - ih < 2 ^ 16 ->
  exists out', gso_ip_header e inp hdr true i tl out = Some out' /\ zlen out' = zlen out /\
    sub out' 0 ih = ipv6_header H (tl - ih).
Proof.
  intros H40 Hm Ho Htl. unfold gso_ip_header, in_slice.
  rewrite slice_sub by lia. cbn [mbind option_bind]. assert (zlen H = ih) as HlH by zlens.
  rewrite copy_to_eq by lia. cbn [mbind option_bind]. rewrite put_be_eq by zlens. rewrite u16_small by (unfold_words; lia).
  eexists. split; [done|]. split; [zlens|]. rewrite sub_splice_in by zlens. rewrite zlen_be_put.
  unfold ipv6_header. rewrite HlH. change (4 + Z.of_nat 2) with 6.
  assert (sub (splice out 0 H) 0 ih = H) as E by by reads.
  rewrite (sub_within _ 0 ih 0 4), (sub_within (splice out 0 H) 0 ih 6 ih), E by lia. by rewrite !Z.sub_0_r.
Qed.

Lemma gso_ip_header_ok tl :
  is_bytes (mem inp) -> (if isV6 then 40 else 20) <= ih -> ih <= zlen (mem inp) -> ih <= zlen out ->
  0 <= i < 2 ^ 16 -> ih <= tl < 2 ^ 16 -> (isV6 = false -> sub (mem inp) 10 12 = [0; 0]) ->
  exists out' c, gso_ip_header e inp hdr isV6 i tl out = Some out' /\ zlen out' = zlen out /\ zlen c = 2 /\
    sub out' 0 ih = ip_header isV6 H tl i c /\
    (isV6 = false -> not16 (checksum e (sub out' 0 ih) 0) = 0).
Proof.
  intros Hb Hih Hm Ho Hi Htl Hz. assert (zlen H = ih) as HlH by (destruct isV6; zlens).
  unfold ip_header. rewrite HlH. destruct isV6.
  - destruct (gso_ip_header_v6 tl) as (out' & E & Hl & Hs); [lia..|]. exists out', [0; 0]. done.
  - destruct (gso_ip_header_v4 tl) as (out' & c & E & Hl & Hs & Hc & Hv); [done|lia..|auto|].
    exists out', c. done.
Qed.

End segment.

Section transport.
Context (inp : In) (hdr : virtioNetHdr) (i : Z).

Notation ih := (csumStart hdr).
Notation hl := (hdrLen hdr).
Notation T := (sub (mem inp) ih hl).

Lemma gso_transport_tcp out seq nextEnd dataLen :
  0 <= ih -> ih + 20 <= hl -> hl < 2 ^ 16 -> hl <= zlen (mem inp) -> hl <= zlen out ->
  0 <= i -> 0 <= gsoSize hdr -> gsoSize hdr * i < 2 ^ 16 -> i < 2 ^ 16 ->
  sub T 16 18 = [0; 0] -> seq = be_uint (sub T 4 8) ->
  exists out', gso_transport_header inp hdr IPPROTO_TCP seq i nextEnd dataLen out = Some out' /\
    zlen out' = zlen out /\ sub out' 0 ih = sub out 0 ih /\
    sub out' ih hl = transport_header true T (gsoSize hdr) i dataLen (nextEnd =? len_in inp) [0; 0].
Proof.
  intros Hih Hhl Hhl' Hm Ho Hi Hg Hgi Hi' Hz ->. unfold gso_transport_header, in_slice.
  rewrite slice_sub by lia. cbn [mbind option_bind]. assert (zlen T = hl - ih) as HT by zlens.
  rewrite copy_range_eq by lia. cbn [mbind option_bind]. change (IPPROTO_TCP =? IPPROTO_TCP) with true. cbv beta iota.
  rewrite (u16_small i), (u16_small (gsoSize hdr * i)), (u16_small (ih + 4)), (u16_small (ih + tcpFlagsOffset))
    by (unfold_words; unfold tcpFlagsOffset; nia).
  rewrite put_be_eq by zlens. cbn [mbind option_bind].
  set (seq' := u32 (be_uint (sub T 4 8) + gsoSize hdr * i)).
  set (out1 := splice (splice out ih T) (ih + 4) (be_put 4 seq')).
  assert (zlen out1 = zlen out) as Hl1 by (unfold out1; zlens).
  assert (sub out1 0 ih = sub out 0 ih) as H0 by (unfold out1; by reads).
  assert (sub out1 ih hl = splice T 4 (be_put 4 seq')) as HT1.
  { unfold out1. rewrite sub_splice_rel by zlens. reads. f_equal; lia. }
  destruct (nextEnd =? len_in inp); cbn [negb].
  - exists out1. split; [done|]. split; [done|]. split; [done|]. rewrite HT1. apply tcp_header_written; [lia|done].
  - unfold tcpFlagsOffset. rewrite byte_at_at by lia. cbn [mbind option_bind]. rewrite set_byte_eq by lia.
    eexists. split; [done|]. split; [zlens|]. split; [by reads|].
    rewrite sub_splice_rel by zlens. rewrite HT1. replace (ih + 13 - ih) with 13 by lia.
    assert (at_ out1 (ih + 13) = at_ T 13) as ->.
    { rewrite <- (at_sub out1 ih hl 13) by lia. rewrite HT1. by apply at_splice_out; zlens. }
    apply tcp_header_flags; [lia|done].
Qed.

Lemma gso_transport_udp out seq nextEnd dataLen :
  0 <= ih -> hl = ih + 8 -> hl <= zlen (mem inp) -> hl <= zlen out -> hl < 2 ^ 16 -> 0 <= dataLen -> dataLen + 8 < 2 ^ 16 ->
  sub T 6 8 = [0; 0] ->
  exists out', gso_transport_header inp hdr IPPROTO_UDP seq i nextEnd dataLen out = Some out' /\
    zlen out' = zlen out /\ sub out' 0 ih = sub out 0 ih /\
    sub out' ih hl = transport_header false T (gsoSize hdr) i dataLen (nextEnd =? len_in inp) [0; 0].
Proof.
  intros Hih Hhl Hm Ho Hhl' Hd Hd' Hz. unfold gso_transport_header, in_slice.
  rewrite slice_sub by lia. cbn [mbind option_bind]. assert (zlen T = hl - ih) as HT by zlens.
  rewrite copy_range_eq by lia. cbn [mbind option_bind]. change (IPPROTO_UDP =? IPPROTO_TCP) with false. cbv beta iota.
  rewrite (u16_small dataLen), (u16_small (hl - ih)), (u16_small (dataLen + _)), (u16_small (ih + 4)) by (unfold_words; lia).
  rewrite put_be_eq by zlens. eexists. split; [done|]. split; [zlens|]. split; [by reads|].
  rewrite sub_splice_rel by zlens. rewrite sub_splice_eq by zlens. replace (ih + 4 - ih) with 4 by lia.
  unfold transport_header, udp_header. rewrite <- (sub_full (splice T 4 _)), zlen_splice, HT by zlens.
  rewrite sub_splice_in, zlen_be_put by zlens. change (4 + Z.of_nat 2) with 6.
  replace (hl - ih) with 8 by lia. rewrite Hz. do 3 f_equal. lia.
Qed.

End transport.

(** ** A whole segment *)

Definition protocol_of (tcp : bool) : Z := if tcp then IPPROTO_TCP else IPPROTO_UDP.

Definition csum_at (tcp : bool) : Z := if tcp then 16 else 6.

(** The pseudo-header sum of a segment with IP header [H]. *)
Definition pseudo_sum (e : endian) (isV6 tcp : bool) (H : list Z) (len : Z) : Z :=
  let srcAt := if isV6 then ipv6SrcAddrOffset else ipv4SrcAddrOffset in
  let n := if isV6 then 16 else 4 in
  pseudoHeaderChecksumNoFold e (protocol_of tcp) (sub H srcAt (srcAt + n)) (sub H (srcAt + n) (srcAt + n * 2)) len.

(** Packet [p] is segment [i] with payload [data] of a packet with IP header
    [H] and transport header [T]: its own lengths, identification, sequence
    number and flags, the rest of the headers copied, and both checksums
    verify. *)
Definition segment_ok (e : endian) (isV6 tcp : bool) (H T : list Z) (size i : Z) (data : list Z) (last : bool)
    (p : list Z) : Prop :=
  exists c1 c2,
    let ip := ip_header isV6 H (zlen H + zlen T + zlen data) i c1 in
    let th := transport_header tcp T size i (zlen data) last c2 in
    p = ip ++ th ++ data /\ zlen c1 = 2 /\ zlen c2 = 2 /\
    (isV6 = false -> not16 (checksum e ip 0) = 0) /\
    not16 (checksum e (th ++ data) (pseudo_sum e isV6 tcp H (zlen T + zlen data))) = 0.

(** The transport header around its checksum field. *)
Definition th_pre (tcp : bool) (T : list Z) (size i dataLen : Z) (last : bool) : list Z :=
  if tcp then
    sub T 0 4 ++ be_put 4 (u32 (be_uint (sub T 4 8) + size * i)) ++ sub T 8 13 ++
    [if last then at_ T 13 else Z.ldiff (at_ T 13) 9] ++ sub T 14 16
  else sub T 0 4 ++ be_put 2 (zlen T + dataLen).

Definition th_post (tcp : bool) (T : list Z) : list Z := if tcp then sub T 18 (zlen T) else [].

Lemma transport_header_split tcp T size i dataLen last c :
  transport_header tcp T size i dataLen last c = th_pre tcp T size i dataLen last ++ c ++ th_post tcp T.
Proof.
  unfold transport_header, th_pre, th_post, tcp_header, udp_header.
  destruct tcp; rewrite <- !app_assoc; [done|]. by rewrite app_nil_r.
Qed.

Lemma th_pre_len (tcp : bool) (T : list Z) size i dataLen last :
  (if tcp then 20 else 8) <= zlen T -> zlen (th_pre tcp T size i dataLen last) = csum_at tcp.
Proof. intros H. unfold th_pre, csum_at. destruct tcp; zlens. Qed.

Lemma at_u8 b i : is_bytes b -> is_u8 (at_ b i).
Proof.
  intros Hb. unfold at_. destruct (decide _); [|by compute].
  destruct (b !! Z.to_nat i) as [x|] eqn:E; [|by compute]. by apply (Forall_lookup_1 _ _ _ _ Hb E).
Qed.

Lemma ldiff_u8 a b : is_u8 a -> 0 <= b -> is_u8 (Z.ldiff a b).
Proof.
  unfold is_u8. intros Ha Hb. assert (Z.ldiff a b = Z.ldiff a b mod 2 ^ 8) as ->; [|apply Z.mod_pos_bound; lia].
  apply Z.bits_inj'. intros n Hn. destruct (decide (n < 8)) as [H8|H8].
  - by rewrite Z.mod_pow2_bits_low by lia.
  - rewrite Z.mod_pow2_bits_high, Z.ldiff_spec by lia. rewrite <- (Z.mod_small a (2 ^ 8)) by lia.
    by rewrite Z.mod_pow2_bits_high by lia.
Qed.

Lemma th_pre_bytes tcp T size i dataLen last : is_bytes T -> is_bytes (th_pre tcp T size i dataLen last).
Proof.
  intros H. unfold th_pre. destruct tcp; rewrite ?is_bytes_app; split_and!; auto using is_bytes_sub, is_bytes_be_put.
  constructor; [|done]. pose proof (at_u8 T 13 H). destruct last; [done|]. apply ldiff_u8; [done|lia].
Qed.

(** What the split needs of the packet and of the header: complete headers, the
    checksum field of the protocol, and the checksum fields cleared. *)
Record ready (inp : In) (hdr : virtioNetHdr) (isV6 tcp : bool) : Prop := {
  rd_bytes : is_bytes (mem inp);
  rd_cap : len_in inp <= zlen (mem inp);
  rd_max : len_in inp < 2 ^ 16;
  rd_ih : (if isV6 then 40 else 20) <= csumStart hdr;
  rd_th : if tcp then csumStart hdr + 20 <= hdrLen hdr else hdrLen hdr = csumStart hdr + 8;
  rd_hl : hdrLen hdr <= len_in inp;
  rd_co : csumOffset hdr = csum_at tcp;
  rd_size : 0 < gsoSize hdr < 2 ^ 16;
  rd_ip0 : isV6 = false -> sub (mem inp) 10 12 = [0; 0];
  rd_th0 : sub (sub (mem inp) (csumStart hdr) (hdrLen hdr)) (csum_at tcp) (csum_at tcp + 2) = [0; 0]
}.

Section whole.
Context (e : endian) (inp : In) (hdr : virtioNetHdr) (isV6 tcp : bool) (Hr : ready inp hdr isV6 tcp).

Notation ih := (csumStart hdr).
Notation hl := (hdrLen hdr).
Notation size := (gsoSize hdr).
Notation H := (sub (mem inp) 0 ih).
Notation T := (sub (mem inp) ih hl).

Lemma ready_bounds :
  20 <= ih /\ (isV6 = true -> 40 <= ih) /\ ih + 8 <= hl /\ (tcp = true -> ih + 20 <= hl) /\ hl <= len_in inp /\
  len_in inp < 65536 /\ len_in inp <= zlen (mem inp) /\ zlen H = ih /\ zlen T = hl - ih /\ 0 < size < 65536 /\
  ih + csum_at tcp + 2 <= hl.
Proof.
  destruct Hr as [Hb Hc Hm Hi Ht Hh _ Hs _ _].
  assert (20 <= ih /\ (isV6 = true -> 40 <= ih)) as [? ?] by (destruct isV6; lia).
  assert (ih + 8 <= hl /\ (tcp = true -> ih + 20 <= hl) /\ ih + csum_at tcp + 2 <= hl) as (? & ? & ?)
    by (unfold csum_at; destruct tcp; lia).
  split_and!; try done; try lia; zlens.
Qed.

Lemma gso_transport_ok out seq i nextEnd dataLen :
  hl <= zlen out -> 0 <= i < 2 ^ 16 -> size * i < 2 ^ 16 -> 0 <= dataLen -> hl + dataLen < 2 ^ 16 ->
  (tcp = true -> seq = be_uint (sub T 4 8)) ->
  exists out', gso_transport_header inp hdr (protocol_of tcp) seq i nextEnd dataLen out = Some out' /\
    zlen out' = zlen out /\ sub out' 0 ih = sub out 0 ih /\
    sub out' ih hl = transport_header tcp T size i dataLen (nextEnd =? len_in inp) [0; 0].
Proof.
  intros Ho Hi Hsi Hd Hd' Hseq. destruct ready_bounds as (B1 & B2 & B3 & B4 & B5 & B6 & B7 & B8 & B9 & B10 & B11).
  pose proof (rd_th0 _ _ _ _ Hr) as Hz. pose proof (rd_th _ _ _ _ Hr) as Hth.
  destruct tcp; cbn [protocol_of csum_at] in *.
  - apply gso_transport_tcp; try lia; auto.
  - apply gso_transport_udp; try lia; auto.
Qed.

Lemma pseudo_sum_u64 len : 0 <= len < 2 ^ 16 -> is_u64 (pseudo_sum e isV6 tcp H len).
Proof.
  intros Hl. destruct ready_bounds as (B1 & B2 & _). pose proof (rd_bytes _ _ _ _ Hr).
  unfold pseudo_sum. apply pseudo_spec; auto using is_bytes_sub.
  by destruct tcp; compute.
Qed.

(** The transport checksum, last. *)
Lemma gso_checksum_ok out3 i data last :
  hl + zlen data <= zlen out3 -> hl + zlen data < 2 ^ 16 -> is_bytes data ->
  sub out3 ih hl = transport_header tcp T size i (zlen data) last [0; 0] -> sub out3 hl (hl + zlen data) = data ->
  let init := pseudo_sum e isV6 tcp H (zlen T + zlen data) in
  let c := be_put 2 (not16 (checksum e (sub out3 ih (hl + zlen data)) init)) in
  let out4 := splice out3 (ih + csum_at tcp) c in
  zlen out4 = zlen out3 /\ sub out4 0 ih = sub out3 0 ih /\
  sub out4 ih (hl + zlen data) = transport_header tcp T size i (zlen data) last c ++ data /\
  not16 (checksum e (transport_header tcp T size i (zlen data) last c ++ data) init) = 0.
Proof.
  intros Ho Hm Hd Hth Hdata init c out4. pose proof (zlen_nonneg data) as Hn.
  destruct ready_bounds as (B1 & B2 & B3 & B4 & B5 & B6 & B7 & B8 & B9 & B10 & B11).
  pose proof (rd_bytes _ _ _ _ Hr) as Hb. pose proof (rd_th _ _ _ _ Hr) as Hth'.
  assert (zlen c = 2) as Hc by apply zlen_be_put.
  assert (0 <= csum_at tcp) as Hcs by (by destruct tcp).
  set (pre := th_pre tcp T size i (zlen data) last) in *. set (post := th_post tcp T ++ data).
  assert (zlen pre = csum_at tcp) as Hpre by (apply th_pre_len; destruct tcp; lia).
  assert (forall c, transport_header tcp T size i (zlen data) last c ++ data = pre ++ c ++ post) as Hsplit.
  { intros c'. rewrite transport_header_split. unfold post. by rewrite <- !app_assoc. }
  assert (sub out3 ih (hl + zlen data) = pre ++ [0; 0] ++ post) as Hseg.
  { rewrite (sub_app_split out3 ih hl) by lia. by rewrite Hth, Hdata, Hsplit. }
  split; [unfold out4; zlens|]. split; [unfold out4; by reads|]. rewrite Hsplit. split.
  - unfold out4. rewrite sub_splice_rel by lia. rewrite Hseg. replace (ih + csum_at tcp - ih) with (zlen pre) by lia.
    rewrite <- copy_at_splice by (rewrite ?zlen_app; change (zlen [0; 0]) with 2; pose proof (zlen_nonneg post); lia).
    unfold zlen. rewrite Nat2Z.id. apply copy_at_mid. unfold c. by rewrite length_be_put.
  - unfold c. rewrite Hseg. apply fills_checksum.
    + rewrite <- (Nat2Z.id (length pre)). change (Z.of_nat (length pre)) with (zlen pre). rewrite Hpre.
      destruct tcp; [by exists 8%nat|by exists 3%nat].
    + by apply th_pre_bytes, is_bytes_sub.
    + unfold post. rewrite is_bytes_app. split; [|done]. unfold th_post. destruct tcp; [by apply is_bytes_sub, is_bytes_sub|constructor].
    + apply pseudo_sum_u64. lia.
Qed.

(** The payload of segment [i] and whether it is the last. *)
Definition seg_end (i : Z) : Z := Z.min (hl + size * i + size) (len_in inp).

Definition seg_data (i : Z) : list Z := sub (mem inp) (hl + size * i) (seg_end i).

Definition seg_last (i : Z) : bool := seg_end i =? len_in inp.

Lemma gso_addresses (lo hi : Z) : 0 <= lo <= hi -> hi <= ih -> in_slice inp lo hi = Some (sub H lo hi).
Proof.
  intros H1 H2. destruct ready_bounds as (B1 & B2 & B3 & B4 & B5 & B6 & B7 & _). unfold in_slice.
  rewrite slice_sub by lia. by rewrite sub_sub by lia.
Qed.

Lemma gso_segment_ok seq i out :
  0 <= i -> hl + size * i < len_in inp -> hl + size <= zlen out ->
  (tcp = true -> seq = be_uint (sub T 4 8)) ->
  exists out', gso_segment e inp hdr isV6 (protocol_of tcp) seq i (hl + size * i) out =
      Some (out', hl + zlen (seg_data i)) /\ zlen out' = zlen out /\
    segment_ok e isV6 tcp H T size i (seg_data i) (seg_last i) (sub out' 0 (hl + zlen (seg_data i))).
Proof.
  intros Hi Hnext Ho Hseq. destruct ready_bounds as (B1 & B2 & B3 & B4 & B5 & B6 & B7 & B8 & B9 & B10 & B11).
  pose proof Hr as [Hb _ _ Hih _ _ Hco _ Hip0 _].
  unfold gso_segment. cbv zeta. fold (seg_end i). set (dl := seg_end i - (hl + size * i)).
  assert (0 <= size * i) as Hsi by nia. assert (i <= size * i) as Hii by nia.
  assert (0 < dl <= size /\ hl + dl <= len_in inp /\ hl + size * i + dl = seg_end i /\ seg_end i <= len_in inp)
    as (Hdl & Hdl' & Hend & Hend') by (unfold dl, seg_end; lia).
  assert (zlen (seg_data i) = dl) as Hzd by (unfold seg_data; rewrite zlen_sub; lia). rewrite Hzd.
  destruct (gso_ip_header_ok e inp hdr isV6 i out (hl + dl)) as (out1 & c1 & -> & L1 & Hc1 & S1 & V1);
    [done|done|lia|lia|lia|lia|done|]. cbn [mbind option_bind].
  destruct (gso_transport_ok out1 seq i (seg_end i) dl) as (out2 & -> & L2 & S2 & S2'); [lia..|done|].
  assert (in_slice inp (hl + size * i) (seg_end i) = Some (seg_data i)) as Hpay by (apply slice_sub; lia).
  cbn [mbind option_bind]. rewrite Hpay. cbn [mbind option_bind].
  fold (seg_last i) in S2'. rewrite copy_to_eq by lia. cbn [mbind option_bind].
  set (out3 := splice out2 hl (seg_data i)). assert (zlen out3 = zlen out2) as L3 by (unfold out3; rewrite zlen_splice; lia).
  assert (sub out3 0 ih = sub out1 0 ih /\ sub out3 ih hl = sub out2 ih hl) as [S3 S3'].
  { rewrite <- S2. unfold out3. by rewrite !sub_splice_out by lia. }
  assert (sub out3 hl (hl + dl) = seg_data i) as S3'' by (unfold out3; apply sub_splice_eq; lia).
  rewrite !gso_addresses by (destruct isV6; unfold ipv6SrcAddrOffset, ipv4SrcAddrOffset; lia).
  cbn [mbind option_bind]. rewrite slice_sub by lia. cbn [mbind option_bind].
  rewrite Hco, (u16_small (ih + csum_at tcp)), (u16_small (hl - ih)), (u16_small (hl - ih + dl))
    by (unfold_words; destruct tcp; cbn [csum_at] in *; lia).
  assert (0 <= csum_at tcp) as Hcs by by destruct tcp.
  rewrite put_be_eq by lia. cbn [mbind option_bind]. rewrite <- B9, <- Hzd in *.
  fold (pseudo_sum e isV6 tcp H (zlen T + zlen (seg_data i))). eexists. split; [done|].
  rewrite S2' in S3'.
  destruct (gso_checksum_ok out3 i (seg_data i) (seg_last i)) as (L4 & S4 & S4' & V4);
    [lia|lia|by apply is_bytes_sub|done|done|]. split; [congruence|].
  exists c1. eexists. rewrite (sub_app_split _ 0 ih (hl + zlen (seg_data i))) by lia.
  rewrite S4, S4', S3, S1. replace (zlen H + zlen T + zlen (seg_data i)) with (hl + zlen (seg_data i)) by lia.
  split; [reflexivity|]. split; [done|]. split; [apply zlen_be_put|]. split; [by rewrite <- S1|exact V4].
Qed.

(** The number of segments. *)
Definition seg_count : Z := (len_in inp - hl + size - 1) / size.

Lemma seg_count_spec i : hl + size * i < len_in inp <-> i < seg_count.
Proof.
  destruct ready_bounds as (B1 & B2 & B3 & B4 & B5 & B6 & B7 & B8 & B9 & B10 & B11). unfold seg_count.
  split; intros Hi.
  - assert (i + 1 <= (len_in inp - hl + size - 1) / size); [|lia]. apply Z.div_le_lower_bound; nia.
  - assert (size * ((len_in inp - hl + size - 1) / size) <= len_in inp - hl + size - 1) by (apply Z.mul_div_le; lia). nia.
Qed.

Lemma seg_count_nonneg : 0 <= seg_count.
Proof.
  destruct ready_bounds as (B1 & B2 & B3 & B4 & B5 & B6 & B7 & B8 & B9 & B10 & B11).
  apply Z.div_pos; lia.
Qed.

(** Buffer [b] holds segment [i] and [n] is its size. *)
Definition holds (offset i : Z) (b : list Z) (n : Z) : Prop :=
  n = hl + zlen (seg_data i) /\
  segment_ok e isV6 tcp H T size i (seg_data i) (seg_last i) (sub b offset (offset + n)).

Lemma in_view_ok buf offset f out n :
  0 <= offset <= zlen buf -> f (drop (Z.to_nat offset) buf) = Some (out, n) ->
  in_view buf offset f = Some (take (Z.to_nat offset) buf ++ out, n).
Proof. intros Ho Hf. unfold in_view. rewrite decide_True by lia. by rewrite Hf. Qed.

Lemma sub_app_r (a b : list Z) n : zlen a = n -> forall k, 0 <= k -> sub (a ++ b) n (n + k) = sub b 0 k.
Proof.
  intros <- k Hk. unfold sub, zlen. rewrite Nat2Z.id, drop_app_length. cbn. rewrite drop_0. f_equal. lia.
Qed.

(** The loop from segment [i] on: every buffer up to the number of segments
    holds one. *)
Lemma gso_loop_ok offset seq outBuffs sizes i :
  0 <= offset -> 0 <= i <= seg_count -> (tcp = true -> seq = be_uint (sub T 4 8)) ->
  (length outBuffs <= length sizes)%nat -> Forall (fun b => offset + hl + size <= zlen b) outBuffs ->
  exists bufs ns, gso_loop e inp hdr isV6 (protocol_of tcp) seq offset outBuffs sizes i (hl + size * i) =
      Some (bufs, ns, if seg_count <=? i + zlen outBuffs then (seg_count, None)
                      else (i + zlen outBuffs - 1, Some ErrTooManySegments)) /\
    length bufs = length outBuffs /\
    (forall j, (j < length outBuffs)%nat -> i + Z.of_nat j < seg_count ->
      exists b n, bufs !! j = Some b /\ ns !! j = Some n /\ holds offset (i + Z.of_nat j) b n).
Proof.
  intros Ho Hi Hseq. revert sizes i Hi. induction outBuffs as [|buf outBuffs IH]; intros sizes i Hi Hl HF; cbn [gso_loop].
  - destruct (hl + size * i <? len_in inp) eqn:E; zbool; cbn [negb].
    + apply seg_count_spec in E. exists [], sizes. rewrite (proj2 (Z.leb_gt _ _)) by (unfold zlen; cbn; lia).
      split; [do 3 f_equal; unfold zlen; cbn; lia|]. split; [done|]. cbn. lia.
    + assert (seg_count = i) as -> by (pose proof (seg_count_spec i); lia).
      exists [], sizes. rewrite (proj2 (Z.leb_le _ _)) by (unfold zlen; cbn; lia). split; [done|]. split; [done|]. cbn. lia.
  - destruct (hl + size * i <? len_in inp) eqn:E; zbool; cbn [negb].
    2:{ assert (seg_count = i) as -> by (pose proof (seg_count_spec i); lia).
        eexists _, _. rewrite (proj2 (Z.leb_le _ _)) by (pose proof (zlen_nonneg (buf :: outBuffs)); lia).
        split; [done|]. split; [done|]. intros. lia. }
    pose proof E as E'. apply seg_count_spec in E'. destruct sizes as [|n0 sizes]; [cbn in Hl; lia|].
    inversion HF as [|? ? Hbuf HF']; subst.
    destruct ready_bounds as (B1 & _ & B3 & _ & _ & _ & _ & _ & _ & B10 & _).
    assert (zlen (drop (Z.to_nat offset) buf) = zlen buf - offset) as Hd by len.
    destruct (gso_segment_ok seq i (drop (Z.to_nat offset) buf)) as (out' & Es & Hlo & Hok); [lia|lia|lia|done|].
    rewrite (in_view_ok buf offset _ _ _ ltac:(lia) Es). cbn [mbind option_bind].
    replace (hl + size * i + size) with (hl + size * (i + 1)) by lia.
    destruct (IH sizes (i + 1)) as (bufs & ns & -> & Hlb & Hall); [lia|cbn in Hl; lia|done|].
    cbn [mbind option_bind]. eexists _, _. split.
    { replace (i + 1 + zlen outBuffs) with (i + zlen (buf :: outBuffs)) by (unfold zlen; cbn; lia). done. }
    split; [cbn; lia|]. intros [|j] Hj Hij; cbn.
    + eexists _, _. split; [done|]. split; [done|]. rewrite Z.add_0_r. split; [done|].
      pose proof (zlen_nonneg (seg_data i)). rewrite sub_app_r; [done|len|lia].
    + destruct (Hall j) as (b & n & Hb & Hn & Hh); [cbn in Hj; lia|lia|].
      exists b, n. split; [done|]. split; [done|]. by replace (i + Z.of_nat (S j)) with (i + 1 + Z.of_nat j) by lia.
Qed.

(** The payloads of the segments, one after the other, are the payload. *)
Lemma seg_data_concat k :
  0 <= k <= seg_count ->
  concat (map seg_data (seqZ 0 k)) = sub (mem inp) hl (Z.min (hl + size * k) (len_in inp)).
Proof.
  intros [Hk0 Hk]. destruct ready_bounds as (B1 & B2 & B3 & B4 & B5 & B6 & B7 & B8 & B9 & B10 & B11).
  rewrite <- (Z2Nat.id k) in * by lia. clear Hk0. induction (Z.to_nat k) as [|n IH].
  - cbn. rewrite Z.mul_0_r, Z.add_0_r, Z.min_l by lia. unfold sub. by rewrite Z.sub_diag.
  - rewrite seqZ_S, map_app, concat_app, IH by lia. cbn [map concat]. rewrite app_nil_r, Z.add_0_l.
    assert (hl + size * Z.of_nat n < len_in inp) as Hn by (apply seg_count_spec; lia).
    rewrite (Z.min_l (hl + size * Z.of_nat n)) by lia. unfold seg_data, seg_end.
    rewrite <- sub_app_split by nia. f_equal. lia.
Qed.

End whole.

(** ** The split *)

(** A packet to segment, in a read buffer: the IP version, the type of the
    offload, complete headers and the checksum field of the protocol. *)
Record offloaded (inp : In) (hdr : virtioNetHdr) (isV6 tcp : bool) : Prop := {
  of_bytes : is_bytes (mem inp);
  of_cap : len_in inp <= zlen (mem inp);
  of_max : len_in inp < 2 ^ 16;
  of_version : Z.shiftr (at_ (mem inp) 0) 4 = if isV6 then 6 else 4;
  of_type : gsoType hdr = if tcp then (if isV6 then VIRTIO_NET_HDR_GSO_TCPV6 else VIRTIO_NET_HDR_GSO_TCPV4)
                          else VIRTIO_NET_HDR_GSO_UDP_L4;
  of_ih : (if isV6 then 40 else 20) <= csumStart hdr;
  of_co : csumOffset hdr = csum_at tcp;
  of_size : 0 < gsoSize hdr < 2 ^ 16
}.

(** The length of its transport header. *)
Definition th_len (inp : In) (hdr : virtioNetHdr) (tcp : bool) : Z :=
  if tcp then Z.shiftr (at_ (mem inp) (csumStart hdr + 12)) 4 * 4 else 8.

(** The header as [handleVirtioRead] corrects it. *)
Definition with_hdrLen (inp : In) (hdr : virtioNetHdr) (tcp : bool) : virtioNetHdr :=
  hdr <| hdrLen := csumStart hdr + th_len inp hdr tcp |>.

(** The headers are complete. *)
Definition complete (inp : In) (hdr : virtioNetHdr) (tcp : bool) : Prop :=
  (if tcp then 20 else 8) <= th_len inp hdr tcp /\ csumStart hdr + th_len inp hdr tcp <= len_in inp.

Lemma splice_two b i x y : 0 <= i -> i + 2 <= zlen b -> splice (splice b i [x]) (i + 1) [y] = splice b i [x; y].
Proof.
  intros Hi Hl. unfold splice, zlen in *. rewrite take_app_ge, drop_app_ge by len.
  rewrite length_take_le by lia. replace (Z.to_nat (i + 1) - Z.to_nat i)%nat with 1%nat by lia.
  replace (Z.to_nat (i + 1) + length [y] - Z.to_nat i)%nat with 2%nat by (cbn; lia).
  cbn [app take drop length]. rewrite firstn_O, <- app_assoc. cbn [app]. rewrite drop_drop.
  do 4 f_equal. lia.
Qed.

(** The assignment of two neighbouring bytes. *)
Lemma in_set_two {A} b i x y (k : In -> option A) :
  0 <= i -> i + 2 <= len_in b -> len_in b <= zlen (mem b) ->
  (b1 ← in_set b i x; b2 ← in_set b1 (i + 1) y; k b2) = k (mkIn (splice (mem b) i [x; y]) (len_in b)).
Proof.
  intros Hi Hl Hc. unfold in_set. rewrite decide_True by lia. cbn [mbind option_bind len_in mem].
  rewrite decide_True by lia. cbn [mbind option_bind]. by rewrite splice_two by lia.
Qed.

(** The packet with its checksum fields cleared. *)
Definition cleared (inp : In) (hdr : virtioNetHdr) (isV6 : bool) : In :=
  let m := if isV6 then mem inp else splice (mem inp) 10 [0; 0] in
  mkIn (splice m (csumStart hdr + csumOffset hdr) [0; 0]) (len_in inp).

Section split.
Context (e : endian) (inp : In) (hdr : virtioNetHdr) (isV6 tcp : bool).
Context (Hoff : offloaded inp hdr isV6 tcp) (Hcomp : complete inp hdr tcp).

Notation hdr' := (with_hdrLen inp hdr tcp).
Notation inp' := (cleared inp hdr isV6).
Notation ih := (csumStart hdr).
Notation hl := (hdrLen (with_hdrLen inp hdr tcp)).

Lemma split_bounds :
  20 <= ih /\ (isV6 = true -> 40 <= ih) /\ hl = ih + th_len inp hdr tcp /\ ih + csumOffset hdr + 2 <= hl /\
  hl <= len_in inp /\ len_in inp < 65536 /\ len_in inp <= zlen (mem inp) /\ 6 <= csumOffset hdr.
Proof.
  destruct Hoff as [_ Hc Hm _ _ Hi Hco _]. destruct Hcomp as [H1 H2]. rewrite Hco.
  assert (20 <= ih /\ (isV6 = true -> 40 <= ih)) as [? ?] by (destruct isV6; lia).
  assert (hl = ih + th_len inp hdr tcp) as -> by done.
  assert (csum_at tcp + 2 <= th_len inp hdr tcp /\ 6 <= csum_at tcp) as [? ?] by (unfold csum_at; destruct tcp; lia).
  split_and!; try done; lia.
Qed.

Lemma cleared_mem :
  zlen (mem inp') = zlen (mem inp) /\ sub (mem inp') (ih + csumOffset hdr) (ih + csumOffset hdr + 2) = [0; 0] /\
  (isV6 = false -> sub (mem inp') 10 12 = [0; 0]) /\
  (forall lo hi, 0 <= lo <= hi -> hi <= zlen (mem inp) -> (isV6 = true \/ hi <= 10 \/ 12 <= lo) ->
    (hi <= ih + csumOffset hdr \/ ih + csumOffset hdr + 2 <= lo) -> sub (mem inp') lo hi = sub (mem inp) lo hi).
Proof.
  destruct split_bounds as (B1 & B2 & B3 & B4 & B5 & B6 & B7 & B8). unfold cleared. cbn [mem].
  assert (zlen [0; 0] = 2) as Hz by done.
  set (m := if isV6 then mem inp else splice (mem inp) 10 [0; 0]).
  assert (zlen m = zlen (mem inp)) as Hm by (unfold m; destruct isV6; [done|rewrite zlen_splice; lia]).
  split; [rewrite zlen_splice; lia|]. split; [apply sub_splice_eq; lia|]. split.
  - intros Hv. rewrite sub_splice_out by lia. unfold m. rewrite Hv. apply sub_splice_eq; lia.
  - intros lo hi Hlo Hhi H1 H2. rewrite sub_splice_out by lia. unfold m. destruct isV6; [done|].
    rewrite sub_splice_out; try lia. done.
Qed.

Lemma cleared_ready : ready inp' hdr' isV6 tcp.
Proof.
  destruct split_bounds as (B1 & B2 & B3 & B4 & B5 & B6 & B7 & B8). destruct cleared_mem as (M1 & M2 & M3 & _).
  destruct Hoff as [Hb Hc Hm _ _ Hi Hco Hs]. destruct Hcomp as [Ht1 Ht2].
  split; cbn [len_in cleared csumStart gsoSize csumOffset with_hdrLen set] in *; try done; try lia.
  - unfold cleared. cbn [mem]. apply is_bytes_splice; [|decide_closed].
    destruct isV6; [done|]. apply is_bytes_splice; [done|decide_closed].
  - destruct tcp; [lia|exact B3].
  - rewrite sub_sub by (unfold csum_at in *; destruct tcp; cbn in *; lia). rewrite <- Hco, Z.add_assoc. exact M2.
Qed.

Lemma gso_prepare_ok :
  exists seq, gso_prepare inp hdr' isV6 = Some (inp', protocol_of tcp, seq) /\
    (tcp = true -> seq = be_uint (sub (sub (mem inp') ih hl) 4 8)).
Proof.
  destruct split_bounds as (B1 & B2 & B3 & B4 & B5 & B6 & B7 & B8). destruct cleared_mem as (M1 & M2 & M3 & M4).
  unfold gso_prepare. cbn [csumStart csumOffset gsoType with_hdrLen set].
  rewrite (u16_small (ih + csumOffset hdr)), (u16_small (ih + 4)) by (unfold_words; lia).
  assert ((if isV6 then Some inp else i ← in_set inp 10 0; in_set i 11 0) =
    Some (mkIn (if isV6 then mem inp else splice (mem inp) 10 [0; 0]) (len_in inp))) as ->.
  { destruct isV6; [by destruct inp|].
    pose proof (in_set_two inp 10 0 0 Some ltac:(lia) ltac:(lia) ltac:(lia)) as <-.
    destruct (in_set inp 10 0) as [i|]; [|done].
    change (10 + 1) with 11. cbn [mbind option_bind]. by destruct (in_set i 11 0). }
  cbn [mbind option_bind]. set (i0 := mkIn _ _).
  assert (zlen (mem i0) = zlen (mem inp)) as Hm.
  { unfold i0. cbn [mem]. destruct isV6; [done|]. rewrite zlen_splice; [done|lia|change (zlen [0; 0]) with 2; lia]. }
  rewrite in_set_two by (cbn [len_in i0]; lia). change (mkIn (splice (mem i0) _ _) _) with inp'.
  destruct Hoff as [_ _ _ _ Htype _ _ _]. rewrite Htype. destruct tcp.
  - assert (((if isV6 then VIRTIO_NET_HDR_GSO_TCPV6 else VIRTIO_NET_HDR_GSO_TCPV4) =? VIRTIO_NET_HDR_GSO_TCPV4)
      || ((if isV6 then VIRTIO_NET_HDR_GSO_TCPV6 else VIRTIO_NET_HDR_GSO_TCPV4) =? VIRTIO_NET_HDR_GSO_TCPV6) = true)
      as -> by by destruct isV6.
    assert (zlen (in_bytes inp') = len_in inp) as Hlb.
    { unfold in_bytes. cbn [len_in cleared]. unfold zlen in *. rewrite length_take. lia. }
    rewrite get_be_eq by lia. eexists. split; [done|]. intros _.
    destruct Hcomp as [Ht _]. cbn in Ht. rewrite sub_sub by (unfold th_len in *; lia). f_equal.
    unfold in_bytes. rewrite <- sub_0_take, sub_sub by (cbn [len_in cleared]; lia). f_equal; lia.
  - eexists. split; [done|]. done.
Qed.

Notation H := (sub (mem inp) 0 ih).
Notation H' := (sub (mem inp') 0 ih).
Notation T := (sub (mem inp) ih hl).
Notation T' := (sub (mem inp') ih hl).

(** Clearing changes nothing the segments keep. *)
Lemma cleared_H lo hi :
  0 <= lo <= hi -> hi <= ih -> (isV6 = true \/ hi <= 10 \/ 12 <= lo) -> sub H' lo hi = sub H lo hi.
Proof.
  intros H1 H2 H3. destruct split_bounds as (B1 & B2 & B3 & B4 & B5 & B6 & B7 & B8).
  destruct cleared_mem as (_ & _ & _ & M4). rewrite !sub_sub by lia.
  apply M4; [lia|lia|destruct H3; [by left|right; lia]|lia].
Qed.

Lemma cleared_T lo hi :
  0 <= lo <= hi -> hi <= hl - ih -> (hi <= csumOffset hdr \/ csumOffset hdr + 2 <= lo) -> sub T' lo hi = sub T lo hi.
Proof.
  intros H1 H2 H3. destruct split_bounds as (B1 & B2 & B3 & B4 & B5 & B6 & B7 & B8).
  destruct cleared_mem as (_ & _ & _ & M4). rewrite !sub_sub by lia. apply M4; [lia|lia|right; lia|lia].
Qed.

Lemma cleared_lengths : zlen H' = ih /\ zlen H = ih /\ zlen T' = hl - ih /\ zlen T = hl - ih.
Proof.
  destruct split_bounds as (B1 & B2 & B3 & B4 & B5 & B6 & B7 & B8). destruct cleared_mem as (M1 & _).
  rewrite !zlen_sub by lia. lia.
Qed.

Lemma cleared_ip_header tl i c : ip_header isV6 H' tl i c = ip_header isV6 H tl i c.
Proof.
  destruct split_bounds as (B1 & B2 & _). destruct cleared_lengths as (L1 & L2 & _).
  apply ip_header_ext; [lia|lia|]. rewrite L2. apply cleared_H.
Qed.

Lemma cleared_transport_header i dl last c :
  transport_header tcp T' (gsoSize hdr) i dl last c = transport_header tcp T (gsoSize hdr) i dl last c.
Proof.
  destruct split_bounds as (B1 & B2 & B3 & B4 & B5 & B6 & B7 & B8). destruct cleared_lengths as (_ & _ & L3 & L4).
  destruct Hcomp as [Ht _]. apply transport_header_ext; [lia|lia|].
  change (if tcp then 16 else 6) with (csum_at tcp). rewrite L4, <- (of_co _ _ _ _ Hoff). apply cleared_T.
Qed.

Lemma cleared_pseudo len : pseudo_sum e isV6 tcp H' len = pseudo_sum e isV6 tcp H len.
Proof.
  destruct split_bounds as (B1 & B2 & _). unfold pseudo_sum.
  rewrite !cleared_H by (destruct isV6; unfold ipv6SrcAddrOffset, ipv4SrcAddrOffset; (lia || (by left) || (right; lia))). done.
Qed.

Lemma cleared_data i : 0 <= i -> i < seg_count inp hdr' -> seg_data inp' hdr' i = seg_data inp hdr' i.
Proof.
  intros Hi Hc. apply (seg_count_spec inp' hdr' isV6 tcp cleared_ready i) in Hc.
  destruct split_bounds as (B1 & B2 & B3 & B4 & B5 & B6 & B7 & B8). destruct cleared_mem as (_ & _ & _ & M4).
  destruct Hoff as [_ _ _ _ _ _ _ Hs]. cbn [len_in cleared gsoSize with_hdrLen set] in Hc.
  unfold seg_data, seg_end. cbn [len_in cleared gsoSize with_hdrLen set csumStart].
  apply M4; [nia|nia|right; nia|nia].
Qed.

(** The buffers hold the segments of the packet. *)
Definition splits (offset : Z) (n : Z) (bufs : list (list Z)) (sizes : list Z) : Prop :=
  forall j, 0 <= Z.of_nat j < n ->
  exists b m, bufs !! j = Some b /\ sizes !! j = Some m /\
    segment_ok e isV6 tcp H T (gsoSize hdr) (Z.of_nat j) (seg_data inp hdr' (Z.of_nat j))
      (seg_last inp hdr' (Z.of_nat j)) (sub b offset (offset + m)).

Lemma gsoSplit_ok offset outBuffs sizes :
  0 <= offset -> (length outBuffs <= length sizes)%nat ->
  Forall (fun b => offset + hl + gsoSize hdr <= zlen b) outBuffs ->
  let count := seg_count inp hdr' in
  exists bufs ns, gsoSplit e inp hdr' outBuffs sizes offset isV6 =
      Some (bufs, ns, if count <=? zlen outBuffs then (count, None)
                      else (zlen outBuffs - 1, Some ErrTooManySegments)) /\
    length bufs = length outBuffs /\ splits offset (Z.min count (zlen outBuffs)) bufs ns.
Proof.
  intros Ho Hl HF count. destruct gso_prepare_ok as (seq & Ep & Hseq). unfold gsoSplit. rewrite Ep.
  cbn [mbind option_bind]. pose proof cleared_ready as Hr.
  pose proof (seg_count_nonneg inp' hdr' isV6 tcp Hr) as Hc0.
  destruct (gso_loop_ok e inp' hdr' isV6 tcp Hr offset seq outBuffs sizes 0) as (bufs & ns & E & Hlb & Hall);
    [lia|lia|done|done|done|].
  rewrite Z.mul_0_r, Z.add_0_r, Z.add_0_l in E. exists bufs, ns. split; [exact E|]. split; [done|].
  intros j Hj. destruct (Hall j) as (b & m & Hb & Hm & -> & Hok); [unfold zlen in *; lia|change (seg_count inp' hdr') with count; lia|].
  exists b. eexists. split; [done|]. split; [exact Hm|]. rewrite Z.add_0_l in *.
  rewrite <- (cleared_data (Z.of_nat j)) by (fold count; lia).
  destruct Hok as (c1 & c2 & E1 & Hc1 & Hc2 & V1 & V2). destruct cleared_lengths as (L1 & L2 & L3 & L4).
  exists c1, c2. cbn [csumStart gsoSize with_hdrLen set] in *.
  rewrite L1, L3, cleared_ip_header, cleared_transport_header in E1.
  rewrite L1, L3, cleared_ip_header in V1. rewrite L3, cleared_transport_header, cleared_pseudo in V2.
  rewrite L2, L4. done.
Qed.

End split.

(** ** Reading *)

Definition hdr_ok (h : virtioNetHdr) : Prop :=
  is_u8 (flags h) /\ is_u8 (gsoType h) /\ is_u16 (hdrLen h) /\ is_u16 (gsoSize h) /\ is_u16 (csumStart h) /\
  is_u16 (csumOffset h).

Lemma ne_uint_put2 e x : is_u16 x -> ne_uint e (ne_put e 2 x) = x.
Proof.
  intros Hx. destruct e; cbn [ne_uint ne_put]; rewrite ?le_uint_put, ?be_uint_put; apply Z.mod_small; done.
Qed.

Lemma ne_put2 e x : exists a b, ne_put e 2 x = [a; b].
Proof. destruct e; cbn; eauto. Qed.

(** A header is read back as it was written, in both byte orders. *)
Lemma decode_hdr_bytes e h rest : hdr_ok h -> decode e (hdr_bytes e h ++ rest) = inr h.
Proof.
  intros (_ & _ & H1 & H2 & H3 & H4). unfold decode, hdr_bytes.
  pose proof (ne_uint_put2 e _ H1) as E1. pose proof (ne_uint_put2 e _ H2) as E2.
  pose proof (ne_uint_put2 e _ H3) as E3. pose proof (ne_uint_put2 e _ H4) as E4.
  destruct (ne_put2 e (hdrLen h)) as (a1 & b1 & P1). destruct (ne_put2 e (gsoSize h)) as (a2 & b2 & P2).
  destruct (ne_put2 e (csumStart h)) as (a3 & b3 & P3). destruct (ne_put2 e (csumOffset h)) as (a4 & b4 & P4).
  rewrite P1, P2, P3, P4 in *. rewrite (proj2 (Z.ltb_ge _ _)) by (unfold zlen, virtioNetHdrLen; cbn; lia).
  transitivity (@inr tun_error _ (mkHdr (flags h) (gsoType h) (ne_uint e [a1; b1]) (ne_uint e [a2; b2])
    (ne_uint e [a3; b3]) (ne_uint e [a4; b4]))); [reflexivity|].
  rewrite E1, E2, E3, E4. by destruct h.
Qed.

Lemma at_in_bytes inp i : 0 <= i < len_in inp -> len_in inp <= zlen (mem inp) ->
  byte_at (in_bytes inp) i = Some (at_ (mem inp) i).
Proof.
  intros Hi Hl. rewrite byte_at_at.
  - unfold in_bytes, at_. rewrite !decide_True by lia.
    by rewrite lookup_take_lt by lia.
  - unfold in_bytes, zlen in *. rewrite length_take. lia.
Qed.

Lemma nibble_u8 x : is_u8 x -> 0 <= Z.shiftr x 4 < 16.
Proof. unfold is_u8. rewrite Z.shiftr_div_pow2 by lia. intros. change (2 ^ 4) with 16. change (2 ^ 8) with 256 in *. zdm. Qed.

Section read.
Context (e : endian) (inp : In) (hdr : virtioNetHdr) (isV6 tcp : bool).
Context (Hoff : offloaded inp hdr isV6 tcp) (Hcomp : complete inp hdr tcp).

Lemma virtio_hdrLen_ok : virtio_hdrLen inp hdr = Some (inr (with_hdrLen inp hdr tcp)).
Proof.
  destruct (split_bounds inp hdr isV6 tcp Hoff Hcomp) as (B1 & B2 & B3 & B4 & B5 & B6 & B7 & B8).
  pose proof (of_type _ _ _ _ Hoff) as Ht. pose proof (of_bytes _ _ _ _ Hoff) as Hb. destruct Hcomp as [C1 C2].
  unfold virtio_hdrLen, with_hdrLen, th_len in *. rewrite Ht. destruct tcp.
  - assert ((if isV6 then VIRTIO_NET_HDR_GSO_TCPV6 else VIRTIO_NET_HDR_GSO_TCPV4) =? VIRTIO_NET_HDR_GSO_UDP_L4 = false)
      as -> by by destruct isV6.
    pose proof (nibble_u8 _ (at_u8 (mem inp) (csumStart hdr + 12) Hb)) as Hn.
    rewrite (u16_small (csumStart hdr + 12)) by (unfold_words; lia).
    rewrite (proj2 (Z.leb_gt _ _)) by lia. rewrite at_in_bytes by lia. cbn [mbind option_bind].
    set (n := Z.shiftr _ 4) in *. rewrite (u8_small (n * 4)) by (unfold_words; lia).
    rewrite (proj2 (Z.ltb_ge _ _)) by lia. replace (n * 4 >? 60) with false by (symmetry; rewrite Z.gtb_ltb; apply Z.ltb_ge; lia).
    cbn [orb]. by rewrite u16_small by (unfold_words; lia).
  - cbn [orb]. by rewrite u16_small by (unfold_words; lia).
Qed.

Lemma virtio_split_eq bufs sizes offset :
  virtio_split e inp hdr bufs sizes offset = gsoSplit e inp (with_hdrLen inp hdr tcp) bufs sizes offset isV6.
Proof.
  destruct (split_bounds inp hdr isV6 tcp Hoff Hcomp) as (B1 & B2 & B3 & B4 & B5 & B6 & B7 & B8).
  unfold virtio_split. rewrite at_in_bytes by lia. cbn [mbind option_bind].
  rewrite virtio_hdrLen_ok. cbn [mbind option_bind]. rewrite (of_version _ _ _ _ Hoff).
  assert (negb (((if isV6 then 6 else 4) =? 4) || ((if isV6 then 6 else 4) =? 6)) = false) as -> by by destruct isV6.
  rewrite (of_type _ _ _ _ Hoff).
  assert (forall (x y : bool), (if x then 6 else 4) =? 6 = x) as Hv by by intros [].
  match goal with |- (if ?b then _ else _) = _ => assert (b = false) as -> by by destruct isV6, tcp end.
  rewrite (proj2 (Z.ltb_ge _ _)) by lia. cbn [csumStart csumOffset with_hdrLen set].
  rewrite (proj2 (Z.ltb_ge _ _)) by (cbn [csumStart csumOffset with_hdrLen set] in *; lia).
  rewrite (u16_small (csumStart hdr + csumOffset hdr)) by (unfold_words; lia).
  replace (csumStart hdr + csumOffset hdr + 1 >=? len_in inp) with false
    by (symmetry; rewrite Z.geb_leb; apply Z.leb_gt; lia).
  by rewrite (Hv isV6 true).
Qed.

Lemma split_payload :
  let hdr' := with_hdrLen inp hdr tcp in
  concat (map (seg_data inp hdr') (seqZ 0 (seg_count inp hdr'))) = sub (mem inp) (hdrLen hdr') (len_in inp).
Proof.
  intros hdr'. pose proof (cleared_ready inp hdr isV6 tcp Hoff Hcomp) as Hr.
  destruct (split_bounds inp hdr isV6 tcp Hoff Hcomp) as (B1 & B2 & B3 & B4 & B5 & B6 & B7 & B8).
  pose proof (seg_count_nonneg _ _ _ _ Hr) as Hc0.
  pose proof (seg_data_concat _ _ _ _ Hr (seg_count inp hdr') ltac:(split; [exact Hc0|reflexivity])) as E.
  assert (map (seg_data inp hdr') (seqZ 0 (seg_count inp hdr')) =
          map (seg_data (cleared inp hdr isV6) hdr') (seqZ 0 (seg_count inp hdr'))) as ->.
  { apply map_ext_in. intros j Hj. apply list_elem_of_In, elem_of_seqZ in Hj.
    symmetry. apply (cleared_data inp hdr isV6 tcp Hoff Hcomp); [lia|exact (proj2 Hj)]. }
  fold hdr' in E. rewrite E. pose proof (seg_count_spec _ _ _ _ Hr (seg_count inp hdr')) as Hs.
  destruct (cleared_mem inp hdr isV6 tcp Hoff Hcomp) as (_ & _ & _ & M4).
  change (len_in (cleared inp hdr isV6)) with (len_in inp) in *.
  rewrite Z.min_r by (apply Z.nlt_ge; intros Hlt; apply Hs in Hlt; exact (Z.lt_irrefl _ Hlt)).
  unfold hdr' in *. apply M4; [lia|lia|right; lia|lia].
Qed.

End read.

(** A read buffer with the virtio-net header in front of a packet. *)
Definition framed (e : endian) (hdr : virtioNetHdr) (inp : In) : In :=
  mkIn (hdr_bytes e hdr ++ mem inp) (virtioNetHdrLen + len_in inp).

Lemma length_hdr_bytes e hdr : length (hdr_bytes e hdr) = 10%nat.
Proof. unfold hdr_bytes. by destruct e. Qed.

Lemma framed_decode e hdr inp :
  hdr_ok hdr -> 0 <= len_in inp -> decode e (in_bytes (framed e hdr inp)) = inr hdr.
Proof.
  intros Hh Hl. unfold in_bytes, framed, virtioNetHdrLen. cbn [len_in mem].
  rewrite take_app_ge by (rewrite length_hdr_bytes; lia). by apply decode_hdr_bytes.
Qed.

Lemma framed_rest e hdr inp :
  mkIn (drop (Z.to_nat virtioNetHdrLen) (mem (framed e hdr inp))) (len_in (framed e hdr inp) - virtioNetHdrLen) = inp.
Proof.
  unfold framed, virtioNetHdrLen. cbn [len_in mem]. rewrite drop_app_length' by by rewrite length_hdr_bytes.
  destruct inp as [m n]. cbn [len_in mem]. f_equal. lia.
Qed.

Lemma handleVirtioRead_split e inp hdr bufs sizes offset isV6 tcp :
  hdr_ok hdr -> offloaded inp hdr isV6 tcp -> complete inp hdr tcp ->
  handleVirtioRead e (framed e hdr inp) bufs sizes offset =
  gsoSplit e inp (with_hdrLen inp hdr tcp) bufs sizes offset isV6.
Proof.
  intros Hh Hoff Hcomp. destruct (split_bounds inp hdr isV6 tcp Hoff Hcomp) as (B1 & _ & _ & B4 & B5 & _ & _ & B8).
  unfold handleVirtioRead. rewrite framed_decode, framed_rest by (done || lia). cbv zeta.
  rewrite <- (virtio_split_eq e inp hdr isV6 tcp Hoff Hcomp). rewrite (of_type _ _ _ _ Hoff).
  by destruct tcp, isV6.
Qed.

(** C32: A packet the kernel hands over for segmentation is cut into its
    segments: the read reports as many packets as there are pieces of the segment
    size, each buffer holds the headers of the packet with the lengths, the
    identification, the sequence number and the flags of that segment and with
    checksums that verify, and the payloads in order are the payload of the
    packet. *)
Theorem virtio_read_segments (e : endian) (inp : In) (hdr : virtioNetHdr) (isV6 tcp : bool)
    (bufs : list (list Z)) (sizes : list Z) (offset : Z) :
  hdr_ok hdr -> offloaded inp hdr isV6 tcp -> complete inp hdr tcp ->
  let hdr' := with_hdrLen inp hdr tcp in
  let count := seg_count inp hdr' in
  0 <= offset -> (length bufs <= length sizes)%nat ->
  Forall (fun b => offset + hdrLen hdr' + gsoSize hdr <= zlen b) bufs -> count <= zlen bufs ->
  exists bufs' ns,
    handleVirtioRead e (framed e hdr inp) bufs sizes offset = Some (bufs', ns, (count, None)) /\
    splits e inp hdr isV6 tcp offset count bufs' ns /\
    concat (map (seg_data inp hdr') (seqZ 0 count)) = sub (mem inp) (hdrLen hdr') (len_in inp).
Proof.
  intros Hh Hoff Hcomp hdr' count Ho Hl HF Hc.
  destruct (gsoSplit_ok e inp hdr isV6 tcp Hoff Hcomp offset bufs sizes Ho Hl HF) as (bufs' & ns & E & _ & Hs).
  fold hdr' count in E, Hs. rewrite (proj2 (Z.leb_le _ _)) in E by done. rewrite Z.min_l in Hs by done.
  exists bufs', ns. rewrite (handleVirtioRead_split _ _ _ _ _ _ isV6 tcp) by done.
  split; [done|]. split; [done|]. exact (split_payload inp hdr isV6 tcp Hoff Hcomp).
Qed.

(** When there are more segments than buffers, every buffer is filled with
    its segment, but the number reported with the error is one less: the last
    segment written is not counted. *)
Theorem virtio_read_overflow (e : endian) (inp : In) (hdr : virtioNetHdr) (isV6 tcp : bool)
    (bufs : list (list Z)) (sizes : list Z) (offset : Z) :
  hdr_ok hdr -> offloaded inp hdr isV6 tcp -> complete inp hdr tcp ->
  let hdr' := with_hdrLen inp hdr tcp in
  0 <= offset -> (length bufs <= length sizes)%nat ->
  Forall (fun b => offset + hdrLen hdr' + gsoSize hdr <= zlen b) bufs -> zlen bufs < seg_count inp hdr' ->
  exists bufs' ns,
    handleVirtioRead e (framed e hdr inp) bufs sizes offset =
      Some (bufs', ns, (zlen bufs - 1, Some ErrTooManySegments)) /\
    length bufs' = length bufs /\ splits e inp hdr isV6 tcp offset (zlen bufs) bufs' ns.
Proof.
  intros Hh Hoff Hcomp hdr' Ho Hl HF Hc.
  destruct (gsoSplit_ok e inp hdr isV6 tcp Hoff Hcomp offset bufs sizes Ho Hl HF) as (bufs' & ns & E & Hlb & Hs).
  fold hdr' in E, Hs. rewrite (proj2 (Z.leb_gt _ _)) in E by done. rewrite Z.min_r in Hs by lia.
  exists bufs', ns. by rewrite (handleVirtioRead_split _ _ _ _ _ _ isV6 tcp).
Qed.

(** ** Packets that are not segmented *)

Lemma gsoNoneChecksum_ok e inp start off :
  is_bytes inp -> 0 <= start -> 0 <= off -> Z.even off = true -> start + off + 2 <= zlen inp -> zlen inp < 2 ^ 16 ->
  let initial := be_uint (sub inp (start + off) (start + off + 2)) in
  exists c, gsoNoneChecksum e inp start off = Some (splice inp (start + off) c) /\ zlen c = 2 /\
    not16 (checksum e (sub (splice inp (start + off) c) start (zlen inp)) initial) = 0.
Proof.
  intros Hb Hs Ho Hev Hl Hm initial. unfold gsoNoneChecksum.
  rewrite (u16_small (start + off)), (u16_small (start + off + 1)) by (unfold_words; lia).
  rewrite get_be_eq by (cbn; lia). cbn [mbind option_bind]. change (Z.of_nat 2) with 2. fold initial.
  rewrite set_byte_eq by lia. cbn [mbind option_bind]. rewrite set_byte_eq by zlens. cbn [mbind option_bind].
  rewrite splice_two by lia. assert (zlen [0; 0] = 2) as H00 by done.
  set (z := splice inp (start + off) [0; 0]). assert (zlen z = zlen inp) as Hz by (unfold z; rewrite zlen_splice; lia).
  rewrite Hz, slice_sub by lia. cbn [mbind option_bind]. rewrite put_be_eq by (cbn; lia).
  set (c := be_put 2 _). exists c. assert (zlen c = 2) as Hc by apply zlen_be_put.
  assert (splice z (start + off) c = splice inp (start + off) c) as Ez by (apply splice_splice; lia).
  split; [by rewrite Ez|]. split; [done|].
  assert (sub z start (zlen inp) = sub inp start (start + off) ++ [0; 0] ++ sub inp (start + off + 2) (zlen inp)) as Hseg.
  { unfold z. rewrite sub_splice_in by lia. by rewrite H00. }
  rewrite sub_splice_in by lia. rewrite Hc. unfold c. rewrite Hseg. apply fills_checksum; auto using is_bytes_sub.
  - apply Z.even_spec in Hev as [k Hk]. exists (Z.to_nat k). unfold sub. rewrite length_take, length_drop. unfold zlen in *. lia.
  - assert (0 <= initial < 256 ^ zlen (sub inp (start + off) (start + off + 2))) as Hi by by apply be_uint_bound, is_bytes_sub.
    rewrite zlen_sub in Hi by lia. replace (start + off + 2 - (start + off)) with 2 in Hi by lia.
    unfold is_u64. change (256 ^ 2) with 65536 in Hi. lia.
Qed.

(** A packet that is not segmented is delivered whole. If the kernel left
    its checksum partial the field is completed, so that it verifies with the
    pseudo-header sum the kernel had put there; nothing else changes. *)
Theorem virtio_read_whole (e : endian) (inp : In) (hdr : virtioNetHdr) (buf : list Z) (bufs : list (list Z))
    (size : Z) (sizes : list Z) (offset : Z) :
  hdr_ok hdr -> gsoType hdr = VIRTIO_NET_HDR_GSO_NONE -> is_bytes (mem inp) -> zlen (mem inp) = len_in inp ->
  len_in inp < 2 ^ 16 -> Z.even (csumOffset hdr) = true -> csumStart hdr + csumOffset hdr + 2 <= len_in inp ->
  0 <= offset -> offset + len_in inp <= zlen buf ->
  let at_csum := csumStart hdr + csumOffset hdr in
  let initial := be_uint (sub (mem inp) at_csum (at_csum + 2)) in
  exists pkt,
    handleVirtioRead e (framed e hdr inp) (buf :: bufs) (size :: sizes) offset =
      Some (splice buf offset pkt :: bufs, len_in inp :: sizes, (1, None)) /\
    (Z.land (flags hdr) VIRTIO_NET_HDR_F_NEEDS_CSUM = 0 -> pkt = mem inp) /\
    (Z.land (flags hdr) VIRTIO_NET_HDR_F_NEEDS_CSUM <> 0 ->
      exists c, zlen c = 2 /\ pkt = splice (mem inp) at_csum c /\
        not16 (checksum e (sub pkt (csumStart hdr) (len_in inp)) initial) = 0).
Proof.
  intros Hh Ht Hb Hl Hm Hev Hcs Ho Hbuf at_csum initial. pose proof Hh as (_ & _ & _ & _ & [Hs _] & [Hc _]).
  pose proof (zlen_nonneg (mem inp)) as Hn.
  unfold handleVirtioRead. rewrite framed_decode, framed_rest by (done || lia). cbv zeta. rewrite Ht.
  change (VIRTIO_NET_HDR_GSO_NONE =? VIRTIO_NET_HDR_GSO_NONE) with true. cbv iota.
  assert (in_bytes inp = mem inp) as -> by (unfold in_bytes; apply take_ge; unfold zlen in *; lia).
  unfold virtio_whole. destruct (gsoNoneChecksum_ok e (mem inp) (csumStart hdr) (csumOffset hdr)) as (c & Ec & Hlc & Hv);
    [done|lia|lia|done|lia|lia|]. fold at_csum initial in Ec, Hv. rewrite Hl in Hv.
  assert (forall pkt, zlen pkt = len_in inp ->
    (if decide (0 <= offset <= zlen buf) then
       if zlen pkt >? zlen buf - offset then Some (buf :: bufs, size :: sizes, (0, Some ErrOverflowsBuffer))
       else buf' ← copy_to buf offset pkt; Some (buf' :: bufs, zlen pkt :: sizes, (1, None))
     else None) = Some (splice buf offset pkt :: bufs, len_in inp :: sizes, (1, None))) as Hdone.
  { intros pkt Hp. rewrite decide_True by lia. rewrite Hp.
    replace (len_in inp >? zlen buf - offset) with false by (symmetry; rewrite Z.gtb_ltb; apply Z.ltb_ge; lia).
    by rewrite copy_to_eq by lia. }
  destruct (Z.land (flags hdr) VIRTIO_NET_HDR_F_NEEDS_CSUM =? 0) eqn:E; zbool.
  - exists (mem inp). split; [exact (Hdone (mem inp) Hl)|]. done.
  - rewrite Ec. exists (splice (mem inp) at_csum c).
    split; [apply Hdone; rewrite zlen_splice; unfold at_csum in *; lia|]. split; [done|]. intros _. exists c. done.
Qed.

(** ** Sample packets *)

(** Five bytes from 10.0.0.1 to 10.0.0.2 over TCP, to be sent in segments of
    two. *)
Definition sample_packet : list Z :=
  [0x45; 0; 0; 45; 0; 1; 0; 0; 64; 6; 0; 0; 10; 0; 0; 1; 10; 0; 0; 2] ++
  [0; 80; 0; 90; 0; 0; 0; 100; 0; 0; 0; 0; 0x50; 0x18; 1; 0; 0; 0; 0; 0] ++ [1; 2; 3; 4; 5].

Definition sample_in : In := mkIn sample_packet 45.

Definition sample_hdr : virtioNetHdr := mkHdr 1 VIRTIO_NET_HDR_GSO_TCPV4 40 2 20 16.

Lemma sample_offloaded : offloaded sample_in sample_hdr false true.
Proof. split; try reflexivity; try decide_closed; vm_compute; done. Qed.

Lemma sample_complete : complete sample_in sample_hdr true.
Proof. split; vm_compute; done. Qed.

Lemma virtio_read_segments_witness :
  exists bufs' ns,
    handleVirtioRead Little (framed Little sample_hdr sample_in) (replicate 3 (zeros 50)) [0; 0; 0] 8 =
      Some (bufs', ns, (3, None)) /\
    splits Little sample_in sample_hdr false true 8 3 bufs' ns /\
    concat (map (seg_data sample_in (with_hdrLen sample_in sample_hdr true)) (seqZ 0 3)) = [1; 2; 3; 4; 5].
Proof.
  apply (virtio_read_segments Little sample_in sample_hdr false true (replicate 3 (zeros 50)) [0; 0; 0] 8).
  - repeat split; vm_compute; done.
  - exact sample_offloaded.
  - exact sample_complete.
  - lia.
  - vm_compute. lia.
  - decide_closed.
  - vm_compute. done.
Defined.

Definition sample_whole : virtioNetHdr := mkHdr 1 VIRTIO_NET_HDR_GSO_NONE 40 0 20 16.

