(* ===== verification/Gro.v ===== *)
(** * Coalescing of packets to write (src/wireguard-go/tun/offload_linux.go,
    src/wireguard-go/tun/tun_linux.go)

    Before a batch of packets is written to the Linux TUN device, [handleGRO]
    merges TCP segments and UDP datagrams of one flow into large packets with a
    virtio-net header. A buffer is a slice with its capacity, as in [Gso];
    [bufs] are distinct arrays. The tables of flows are lists in the order the
    flows were inserted; the loops over them visit the flows in an order the
    run time picks, which is an argument. *)

From stdpp Require Import base numbers list.
From S2P Require Import Prelude Setters Slices Checksum Gso.

Open Scope Z_scope.

(** ** Slices *)

(** [b[off:]] *)
Definition tail_from (b : In) (off : Z) : option In :=
  if decide (0 <= off <= len_in b) then Some (mkIn (drop (Z.to_nat off) (mem b)) (len_in b - off)) else None.

(** [cap(b)] *)
Definition cap (b : In) : Z := zlen (mem b).

(** [b[i]] *)
Definition in_at (b : In) (i : Z) : option Z := byte_at (in_bytes b) i.

(** [binary.BigEndian.UintN(b[i:])] *)
Definition in_be (n : nat) (b : In) (i : Z) : option Z := get_be n (in_bytes b) i.

(** [binary.BigEndian.PutUintN(b[i:], x)] *)
Definition in_put_be (n : nat) (b : In) (i x : Z) : option In :=
  if decide (0 <= i /\ i + Z.of_nat n <= len_in b) then Some (mkIn (splice (mem b) i (be_put n x)) (len_in b))
  else None.

(** [append(b, make([]byte, n)...)]: in place when the capacity allows. How much
    larger a new array is the language leaves open: here it is as long as the
    slice. The callers compare lengths and capacities first, so that none is
    needed. *)
Definition append_zeros (b : In) (n : Z) : In :=
  if len_in b + n <=? cap b then mkIn (splice (mem b) (len_in b) (zeros (Z.to_nat n))) (len_in b + n)
  else mkIn (in_bytes b ++ zeros (Z.to_nat n)) (len_in b + n).

(** [copy(b[i:], src)] *)
Definition in_copy (b : In) (i : Z) (src : list Z) : option In :=
  if decide (0 <= i <= len_in b) then
    let n := Z.min (zlen src) (len_in b - i) in
    Some (mkIn (splice (mem b) i (take (Z.to_nat n) src)) (len_in b))
  else None.

(** ** Flow tables *)

Record tcpFlowKey := mkTcpKey {
  t_srcAddr : list Z;
  t_dstAddr : list Z;
  t_srcPort : Z;
  t_dstPort : Z;
  rxAck : Z;
  t_isV6 : bool
}.

#[export] Instance tcpFlowKey_eq_dec : EqDecision tcpFlowKey.
Proof. solve_decision. Defined.

Record tcpGROItem := mkTcpItem {
  t_key : tcpFlowKey;
  sentSeq : Z;
  t_bufsIndex : Z;
  t_numMerged : Z;
  t_gsoSize : Z;
  t_iphLen : Z;
  tcphLen : Z;
  pshSet : bool
}.

#[export] Instance eta_tcpGROItem : Settable tcpGROItem := fun r =>
  mkTcpItem (t_key r) (sentSeq r) (t_bufsIndex r) (t_numMerged r) (t_gsoSize r) (t_iphLen r) (tcphLen r) (pshSet r).

Record udpFlowKey := mkUdpKey {
  u_srcAddr : list Z;
  u_dstAddr : list Z;
  u_srcPort : Z;
  u_dstPort : Z;
  u_isV6 : bool
}.

#[export] Instance udpFlowKey_eq_dec : EqDecision udpFlowKey.
Proof. solve_decision. Defined.

Record udpGROItem := mkUdpItem {
  u_key : udpFlowKey;
  u_bufsIndex : Z;
  u_numMerged : Z;
  u_gsoSize : Z;
  u_iphLen : Z;
  cSumKnownInvalid : bool
}.

#[export] Instance eta_udpGROItem : Settable udpGROItem := fun r =>
  mkUdpItem (u_key r) (u_bufsIndex r) (u_numMerged r) (u_gsoSize r) (u_iphLen r) (cSumKnownInvalid r).

(** A table: the items of each flow, and how many item slices the pool still
    holds. *)
Record GROTable (K I : Type) := mkTable {
  itemsByFlow : list (K * list I);
  itemsPool : Z
}.

Arguments mkTable {K I}.

Arguments itemsByFlow {K I}.

Arguments itemsPool {K I}.

Definition tcpGROTable : Type := GROTable tcpFlowKey tcpGROItem.

Definition udpGROTable : Type := GROTable udpFlowKey udpGROItem.

Definition IdealBatchSize : Z := 128.

Definition newTCPGROTable : tcpGROTable := mkTable [] IdealBatchSize.

Definition newUDPGROTable : udpGROTable := mkTable [] IdealBatchSize.

Section table.
Context {K I : Type} `{EqDecision K}.

(** [items, ok := t.itemsByFlow[key]] *)
Fixpoint find_flow (l : list (K * list I)) (key : K) : option (list I) :=
  match l with
  | [] => None
  | (k, items) :: l => if decide (k = key) then Some items else find_flow l key
  end.

(** [t.itemsByFlow[key] = items] *)
Fixpoint set_flow (l : list (K * list I)) (key : K) (items : list I) : list (K * list I) :=
  match l with
  | [] => [(key, items)]
  | (k, old) :: l => if decide (k = key) then (k, items) :: l else (k, old) :: set_flow l key items
  end.

(** [newItems]: a slice from the pool, which must not be empty. *)
Definition newItems (t : GROTable K I) : option (GROTable K I) :=
  if itemsPool t >? 0 then Some (mkTable (itemsByFlow t) (itemsPool t - 1)) else None.

(** The part of [insert] that both tables share. *)
Definition insert_item (t : GROTable K I) (key : K) (item : I) : option (GROTable K I) :=
  match find_flow (itemsByFlow t) key with
  | Some items => Some (mkTable (set_flow (itemsByFlow t) key (items ++ [item])) (itemsPool t))
  | None => t ← newItems t; Some (mkTable (set_flow (itemsByFlow t) key [item]) (itemsPool t))
  end.

(** [updateAt] *)
Definition update_item (t : GROTable K I) (key : K) (item : I) (i : nat) : option (GROTable K I) :=
  items ← find_flow (itemsByFlow t) key;
  if decide (i < length items)%nat
  then Some (mkTable (set_flow (itemsByFlow t) key (<[i := item]> items)) (itemsPool t)) else None.

(** [deleteAt] *)
Definition delete_item (t : GROTable K I) (key : K) (i : nat) : option (GROTable K I) :=
  items ← find_flow (itemsByFlow t) key;
  if decide (i < length items)%nat
  then Some (mkTable (set_flow (itemsByFlow t) key (delete i items)) (itemsPool t)) else None.

(** [reset]: every slice goes back to the pool. *)
Definition reset (t : GROTable K I) : GROTable K I :=
  mkTable [] (itemsPool t + zlen (itemsByFlow t)).

End table.

(** [copy(key.addr[:], b)] of an array of 16 bytes *)
Definition addr16 (b : list Z) : list Z := copy (zeros 16) b.

Definition newTCPFlowKey (pkt : In) (srcAddrOffset dstAddrOffset tcphOffset : Z) : option tcpFlowKey :=
  let addrSize := dstAddrOffset - srcAddrOffset in
  src ← in_slice pkt srcAddrOffset dstAddrOffset;
  dst ← in_slice pkt dstAddrOffset (dstAddrOffset + addrSize);
  srcPort ← in_be 2 pkt tcphOffset;
  dstPort ← in_be 2 pkt (tcphOffset + 2);
  ack ← in_be 4 pkt (tcphOffset + 8);
  Some (mkTcpKey (addr16 src) (addr16 dst) srcPort dstPort ack (addrSize =? 16)).

(** [tcpGROTable.insert] *)
Definition tcp_insert (t : tcpGROTable) (pkt : In) (srcAddrOffset dstAddrOffset tcphOffset tcphLen bufsIndex : Z) :
    option tcpGROTable :=
  key ← newTCPFlowKey pkt srcAddrOffset dstAddrOffset tcphOffset;
  payload ← tail_from pkt (tcphOffset + tcphLen);
  seq ← in_be 4 pkt (tcphOffset + 4);
  fl ← in_at pkt (tcphOffset + tcpFlagsOffset);
  insert_item t key
    (mkTcpItem key seq (u16 bufsIndex) 0 (u16 (len_in payload)) (u8 tcphOffset) (u8 tcphLen)
      (negb (Z.land fl tcpFlagPSH =? 0))).

(** [tcpGROTable.lookupOrInsert]: the items of an existing flow. *)
Definition tcp_lookupOrInsert (t : tcpGROTable) (pkt : In)
    (srcAddrOffset dstAddrOffset tcphOffset tcphLen bufsIndex : Z) :
    option (option (list tcpGROItem) * tcpGROTable) :=
  key ← newTCPFlowKey pkt srcAddrOffset dstAddrOffset tcphOffset;
  match find_flow (itemsByFlow t) key with
  | Some items => Some (Some items, t)
  | None => t ← tcp_insert t pkt srcAddrOffset dstAddrOffset tcphOffset tcphLen bufsIndex; Some (None, t)
  end.

Definition udphLen : Z := 8.

Definition newUDPFlowKey (pkt : In) (srcAddrOffset dstAddrOffset udphOffset : Z) : option udpFlowKey :=
  let addrSize := dstAddrOffset - srcAddrOffset in
  src ← in_slice pkt srcAddrOffset dstAddrOffset;
  dst ← in_slice pkt dstAddrOffset (dstAddrOffset + addrSize);
  srcPort ← in_be 2 pkt udphOffset;
  dstPort ← in_be 2 pkt (udphOffset + 2);
  Some (mkUdpKey (addr16 src) (addr16 dst) srcPort dstPort (addrSize =? 16)).

(** [udpGROTable.insert] *)
Definition udp_insert (t : udpGROTable) (pkt : In) (srcAddrOffset dstAddrOffset udphOffset bufsIndex : Z)
    (invalid : bool) : option udpGROTable :=
  key ← newUDPFlowKey pkt srcAddrOffset dstAddrOffset udphOffset;
  payload ← tail_from pkt (udphOffset + udphLen);
  insert_item t key (mkUdpItem key (u16 bufsIndex) 0 (u16 (len_in payload)) (u8 udphOffset) invalid).

(** [udpGROTable.lookupOrInsert] *)
Definition udp_lookupOrInsert (t : udpGROTable) (pkt : In) (srcAddrOffset dstAddrOffset udphOffset bufsIndex : Z) :
    option (option (list udpGROItem) * udpGROTable) :=
  key ← newUDPFlowKey pkt srcAddrOffset dstAddrOffset udphOffset;
  match find_flow (itemsByFlow t) key with
  | Some items => Some (Some items, t)
  | None => t ← udp_insert t pkt srcAddrOffset dstAddrOffset udphOffset bufsIndex false; Some (None, t)
  end.

(** ** Which packets may be merged *)

Inductive canCoalesce := coalescePrepend | coalesceUnavailable | coalesceAppend.

#[export] Instance canCoalesce_eq_dec : EqDecision canCoalesce.
Proof. solve_decision. Defined.

(** On two packets of at least nine bytes each. *)
Definition ipHeadersCanCoalesce (pktA pktB : In) : bool :=
  if (len_in pktA <? 9) || (len_in pktB <? 9) then false
  else
    let a := at_ (mem pktA) in
    let b := at_ (mem pktB) in
    if Z.shiftr (a 0) 4 =? 6 then
      if negb (a 0 =? b 0) || negb (Z.shiftr (a 1) 4 =? Z.shiftr (b 1) 4) then false
      else if negb (a 7 =? b 7) then false else true
    else if negb (a 1 =? b 1) then false
    else if negb (Z.shiftr (a 6) 5 =? Z.shiftr (b 6) 5) then false
    else if negb (a 8 =? b 8) then false else true.

(** [bufs[i][off:]] *)
Definition buf_from (bufs : list In) (i off : Z) : option In :=
  b ← (if decide (0 <= i) then bufs !! Z.to_nat i else None);
  tail_from b off.

(** [x % y] of integers that are not negative; division by zero panics. *)
Definition rem (x y : Z) : option Z := if y =? 0 then None else Some (x mod y).

Definition udpPacketsCanCoalesce (pkt : In) (iphLen gsoSize : Z) (item : udpGROItem) (bufs : list In)
    (bufsOffset : Z) : option canCoalesce :=
  pktTarget ← buf_from bufs (u_bufsIndex item) bufsOffset;
  if negb (ipHeadersCanCoalesce pkt pktTarget) then Some coalesceUnavailable
  else
    payload ← tail_from pktTarget (u8 (iphLen + udphLen));
    r ← rem (len_in payload) (u_gsoSize item);
    if negb (r =? 0) then Some coalesceUnavailable
    else if gsoSize >? u_gsoSize item then Some coalesceUnavailable
    else Some coalesceAppend.

Definition tcpPacketsCanCoalesce (pkt : In) (iphLen tcphLen0 seq : Z) (psh : bool) (gsoSize : Z)
    (item : tcpGROItem) (bufs : list In) (bufsOffset : Z) : option canCoalesce :=
  pktTarget ← buf_from bufs (t_bufsIndex item) bufsOffset;
  if negb (tcphLen0 =? tcphLen item) then Some coalesceUnavailable
  else
    same ← (if tcphLen0 >? 20 then
              a ← in_slice pkt (u8 (iphLen + 20)) (u8 (iphLen + tcphLen0));
              b ← in_slice pktTarget (u8 (t_iphLen item + 20)) (u8 (iphLen + tcphLen0));
              Some (bytes_eqb a b)
            else Some true);
    if negb same then Some coalesceUnavailable
    else if negb (ipHeadersCanCoalesce pkt pktTarget) then Some coalesceUnavailable
    else
      let lhsLen := u16 (t_gsoSize item + u16 (t_numMerged item * t_gsoSize item)) in
      if seq =? u32 (sentSeq item + lhsLen) then
        if pshSet item then Some coalesceUnavailable
        else
          payload ← tail_from pktTarget (u8 (iphLen + tcphLen0));
          r ← rem (len_in payload) (t_gsoSize item);
          if negb (r =? 0) then Some coalesceUnavailable
          else if gsoSize >? t_gsoSize item then Some coalesceUnavailable
          else Some coalesceAppend
      else if u32 (seq + gsoSize) =? sentSeq item then
        if psh then Some coalesceUnavailable
        else if gsoSize <? t_gsoSize item then Some coalesceUnavailable
        else if (gsoSize >? t_gsoSize item) && (t_numMerged item >? 0) then Some coalesceUnavailable
        else Some coalescePrepend
      else Some coalesceUnavailable.

Definition checksumValid (e : endian) (pkt : In) (iphLen proto : Z) (isV6 : bool) : option bool :=
  let srcAddrAt := if isV6 then ipv6SrcAddrOffset else ipv4SrcAddrOffset in
  let addrSize := if isV6 then 16 else 4 in
  let lenForPseudo := u16 (len_in pkt - iphLen) in
  src ← in_slice pkt srcAddrAt (srcAddrAt + addrSize);
  dst ← in_slice pkt (srcAddrAt + addrSize) (srcAddrAt + addrSize * 2);
  let cSum := pseudoHeaderChecksumNoFold e proto src dst lenForPseudo in
  seg ← tail_from pkt iphLen;
  Some (not16 (checksum e (in_bytes seg) cSum) =? 0).

(** ** Merging *)

Inductive coalesceResult :=
| coalesceInsufficientCap
| coalescePSHEnding
| coalesceItemInvalidCSum
| coalescePktInvalidCSum
| coalesceSuccess.

(** [bufs[i] = b] *)
Definition set_buf (bufs : list In) (i : Z) (b : In) : list In := <[Z.to_nat i := b]> bufs.

Definition get_buf (bufs : list In) (i : Z) : option In := if decide (0 <= i) then bufs !! Z.to_nat i else None.

(** [bufs[i] = append(bufs[i], make([]byte, extendBy)...)] and
    [copy(bufs[i][at:], src)] *)
Definition extend_buf (bufs : list In) (i extendBy at_end : Z) (src : list Z) : option (list In) :=
  if extendBy <? 0 then None
  else
    b ← get_buf bufs i;
    b ← in_copy (append_zeros b extendBy) at_end src;
    Some (set_buf bufs i b).

(** [item.numMerged == 0] and an invalid checksum of the item's packet *)
Definition item_invalid (e : endian) (bufs : list In) (bufsOffset idx numMerged iphLen proto : Z) (known isV6 : bool) :
    option bool :=
  if numMerged =? 0 then
    if known then Some true
    else
      pkt ← buf_from bufs idx bufsOffset;
      v ← checksumValid e pkt iphLen proto isV6;
      Some (negb v)
  else Some false.

Definition coalesceUDPPackets (e : endian) (pkt : In) (item : udpGROItem) (bufs : list In) (bufsOffset : Z)
    (isV6 : bool) : option (coalesceResult * udpGROItem * list In) :=
  pktHead ← buf_from bufs (u_bufsIndex item) bufsOffset;
  let headersLen := u8 (u_iphLen item + udphLen) in
  let coalescedLen := len_in pktHead + len_in pkt - headersLen in
  if cap pktHead - bufsOffset <? coalescedLen then Some (coalesceInsufficientCap, item, bufs)
  else
    bad ← item_invalid e bufs bufsOffset (u_bufsIndex item) (u_numMerged item) (u_iphLen item) IPPROTO_UDP
            (cSumKnownInvalid item) isV6;
    if bad : bool then Some (coalesceItemInvalidCSum, item, bufs)
    else
      ok ← checksumValid e pkt (u_iphLen item) IPPROTO_UDP isV6;
      if negb ok then Some (coalescePktInvalidCSum, item, bufs)
      else
        let extendBy := len_in pkt - headersLen in
        payload ← tail_from pkt headersLen;
        bufs ← extend_buf bufs (u_bufsIndex item) extendBy (bufsOffset + len_in pktHead) (in_bytes payload);
        Some (coalesceSuccess, item <| u_numMerged := u16 (u_numMerged item + 1) |>, bufs).

(** The branch of [coalesceTCPPackets] that puts [pkt] in front. *)
Definition tcp_prepend (e : endian) (pkt : In) (pktBuffsIndex seq : Z) (psh : bool) (item : tcpGROItem)
    (bufs : list In) (bufsOffset : Z) (isV6 : bool) (headersLen coalescedLen : Z) :
    option (coalesceResult * tcpGROItem * list In) :=
  if cap pkt - bufsOffset <? coalescedLen then Some (coalesceInsufficientCap, item, bufs)
  else if psh then Some (coalescePSHEnding, item, bufs)
  else
    bad ← item_invalid e bufs bufsOffset (t_bufsIndex item) (t_numMerged item) (t_iphLen item) IPPROTO_TCP false isV6;
    if bad : bool then Some (coalesceItemInvalidCSum, item, bufs)
    else
      ok ← checksumValid e pkt (t_iphLen item) IPPROTO_TCP isV6;
      if negb ok then Some (coalescePktInvalidCSum, item, bufs)
      else
        let extendBy := coalescedLen - len_in pkt in
        tgt ← buf_from bufs (t_bufsIndex item) (bufsOffset + headersLen);
        bufs ← extend_buf bufs pktBuffsIndex extendBy (bufsOffset + len_in pkt) (in_bytes tgt);
        a ← get_buf bufs (t_bufsIndex item);
        b ← get_buf bufs pktBuffsIndex;
        Some (coalesceSuccess, item <| sentSeq := seq |>,
              set_buf (set_buf bufs (t_bufsIndex item) b) pktBuffsIndex a).

(** The branch of [coalesceTCPPackets] that puts [pkt] at the end. *)
Definition tcp_append (e : endian) (pkt : In) (psh : bool) (item : tcpGROItem) (bufs : list In) (bufsOffset : Z)
    (isV6 : bool) (headersLen coalescedLen : Z) : option (coalesceResult * tcpGROItem * list In) :=
  pktHead ← buf_from bufs (t_bufsIndex item) bufsOffset;
  if cap pktHead - bufsOffset <? coalescedLen then Some (coalesceInsufficientCap, item, bufs)
  else
    bad ← item_invalid e bufs bufsOffset (t_bufsIndex item) (t_numMerged item) (t_iphLen item) IPPROTO_TCP false isV6;
    if bad : bool then Some (coalesceItemInvalidCSum, item, bufs)
    else
      ok ← checksumValid e pkt (t_iphLen item) IPPROTO_TCP isV6;
      if negb ok then Some (coalescePktInvalidCSum, item, bufs)
      else
        '(item, bufs) ←
          (if psh then
             let at_flags := u8 (t_iphLen item + tcpFlagsOffset) in
             f ← in_at pktHead at_flags;
             b ← get_buf bufs (t_bufsIndex item);
             b ← in_set b (bufsOffset + at_flags) (Z.lor f tcpFlagPSH);
             Some (item <| pshSet := psh |>, set_buf bufs (t_bufsIndex item) b)
           else Some (item, bufs));
        let extendBy := len_in pkt - headersLen in
        payload ← tail_from pkt headersLen;
        bufs ← extend_buf bufs (t_bufsIndex item) extendBy (bufsOffset + len_in pktHead) (in_bytes payload);
        Some (coalesceSuccess, item, bufs).

Definition coalesceTCPPackets (e : endian) (mode : canCoalesce) (pkt : In) (pktBuffsIndex gsoSize seq : Z)
    (psh : bool) (item : tcpGROItem) (bufs : list In) (bufsOffset : Z) (isV6 : bool) :
    option (coalesceResult * tcpGROItem * list In) :=
  let headersLen := u8 (t_iphLen item + tcphLen item) in
  target ← buf_from bufs (t_bufsIndex item) bufsOffset;
  let coalescedLen := len_in target + len_in pkt - headersLen in
  '(result, item, bufs) ←
    (if decide (mode = coalescePrepend)
     then tcp_prepend e pkt pktBuffsIndex seq psh item bufs bufsOffset isV6 headersLen coalescedLen
     else tcp_append e pkt psh item bufs bufsOffset isV6 headersLen coalescedLen);
  match result with
  | coalesceSuccess =>
      let item := if gsoSize >? t_gsoSize item then item <| t_gsoSize := gsoSize |> else item in
      Some (result, item <| t_numMerged := u16 (t_numMerged item + 1) |>, bufs)
  | _ => Some (result, item, bufs)
  end.

(** ** One packet *)

Inductive groResult := groResultNoop | groResultTableInsert | groResultCoalesced.

Definition maxUint16 : Z := 65535.

Definition ipv4FlagMoreFragments : Z := 0x20.

(** The checks [tcpGRO] and [udpGRO] make of the IP header: the length of the
    IP header, unless the packet is left alone. *)
Definition gro_ip_check (pkt : In) (isV6 : bool) : option (option Z) :=
  if len_in pkt >? maxUint16 then Some None
  else
    b0 ← in_at pkt 0;
    if isV6 then
      payloadLen ← in_be 2 pkt 4;
      if negb (payloadLen =? len_in pkt - 40) then Some None
      else if len_in pkt <? 40 then Some None else Some (Some 40)
    else
      let iphLen := u8 (Z.land b0 0x0f * 4) in
      totalLen ← in_be 2 pkt 2;
      if negb (totalLen =? len_in pkt) then Some None
      else if len_in pkt <? iphLen then Some None else Some (Some iphLen).

(** [pkt[6]&ipv4FlagMoreFragments != 0 || pkt[6]<<3 != 0 || pkt[7] != 0] *)
Definition fragmented (pkt : In) : option bool :=
  b6 ← in_at pkt 6;
  b7 ← in_at pkt 7;
  Some (negb (Z.land b6 ipv4FlagMoreFragments =? 0) || negb (u8 (Z.shiftl b6 3) =? 0) || negb (b7 =? 0)).

(** The loop of [tcpGRO] over the items of the flow, last first. [Some r]: it
    returned [r]. *)
Fixpoint tcp_loop (e : endian) (pkt : In) (iphLen tcphLen0 seq : Z) (psh : bool) (gsoSize pktI : Z) (isV6 : bool)
    (offset : Z) (items : list tcpGROItem) (n : nat) (bufs : list In) (table : tcpGROTable) :
    option (option groResult * list In * tcpGROTable) :=
  match n with
  | O => Some (None, bufs, table)
  | S i =>
      item ← items !! i;
      can ← tcpPacketsCanCoalesce pkt (u8 iphLen) (u8 tcphLen0) seq psh gsoSize item bufs offset;
      if decide (can = coalesceUnavailable) then
        tcp_loop e pkt iphLen tcphLen0 seq psh gsoSize pktI isV6 offset items i bufs table
      else
        '(result, item, bufs) ← coalesceTCPPackets e can pkt pktI gsoSize seq psh item bufs offset isV6;
        match result with
        | coalesceSuccess =>
            table ← update_item table (t_key item) item i;
            Some (Some groResultCoalesced, bufs, table)
        | coalesceItemInvalidCSum =>
            table ← delete_item table (t_key item) i;
            tcp_loop e pkt iphLen tcphLen0 seq psh gsoSize pktI isV6 offset items i bufs table
        | coalescePktInvalidCSum => Some (Some groResultNoop, bufs, table)
        | _ => tcp_loop e pkt iphLen tcphLen0 seq psh gsoSize pktI isV6 offset items i bufs table
        end
  end.

Definition tcpGRO (e : endian) (bufs : list In) (offset pktI : Z) (table : tcpGROTable) (isV6 : bool) :
    option (groResult * list In * tcpGROTable) :=
  pkt ← buf_from bufs pktI offset;
  let noop := Some (groResultNoop, bufs, table) in
  c ← gro_ip_check pkt isV6;
  match c with
  | None => noop
  | Some iphLen =>
      b12 ← in_at pkt (iphLen + 12);
      let tcphLen0 := u8 (Z.shiftr b12 4 * 4) in
      if (tcphLen0 <? 20) || (tcphLen0 >? 60) then noop
      else if len_in pkt <? iphLen + tcphLen0 then noop
      else
        frag ← (if isV6 then Some false else fragmented pkt);
        if frag : bool then noop
        else
          tcpFlags ← in_at pkt (iphLen + tcpFlagsOffset);
          if negb (tcpFlags =? tcpFlagACK) && negb (tcpFlags =? Z.lor tcpFlagACK tcpFlagPSH) then noop
          else
            let psh := negb (tcpFlags =? tcpFlagACK) in
            let gsoSize := u16 (len_in pkt - tcphLen0 - iphLen) in
            if gsoSize <? 1 then noop
            else
              seq ← in_be 4 pkt (iphLen + 4);
              let srcAddrOffset := if isV6 then ipv6SrcAddrOffset else ipv4SrcAddrOffset in
              let addrLen := if isV6 then 16 else 4 in
              '(existing, table) ← tcp_lookupOrInsert table pkt srcAddrOffset (srcAddrOffset + addrLen) iphLen
                                    tcphLen0 pktI;
              match existing with
              | None => Some (groResultTableInsert, bufs, table)
              | Some items =>
                  '(r, bufs, table) ← tcp_loop e pkt iphLen tcphLen0 seq psh gsoSize pktI isV6 offset items
                                       (length items) bufs table;
                  match r with
                  | Some r => Some (r, bufs, table)
                  | None =>
                      table ← tcp_insert table pkt srcAddrOffset (srcAddrOffset + addrLen) iphLen tcphLen0 pktI;
                      Some (groResultTableInsert, bufs, table)
                  end
              end
  end.

Definition udpGRO (e : endian) (bufs : list In) (offset pktI : Z) (table : udpGROTable) (isV6 : bool) :
    option (groResult * list In * udpGROTable) :=
  pkt ← buf_from bufs pktI offset;
  let noop := Some (groResultNoop, bufs, table) in
  c ← gro_ip_check pkt isV6;
  match c with
  | None => noop
  | Some iphLen =>
      if len_in pkt <? iphLen + udphLen then noop
      else
        frag ← (if isV6 then Some false else fragmented pkt);
        if frag : bool then noop
        else
          let gsoSize := u16 (len_in pkt - udphLen - iphLen) in
          if gsoSize <? 1 then noop
          else
            let srcAddrOffset := if isV6 then ipv6SrcAddrOffset else ipv4SrcAddrOffset in
            let addrLen := if isV6 then 16 else 4 in
            '(existing, table) ← udp_lookupOrInsert table pkt srcAddrOffset (srcAddrOffset + addrLen) iphLen pktI;
            match existing with
            | None => Some (groResultTableInsert, bufs, table)
            | Some items =>
                item ← last items;
                can ← udpPacketsCanCoalesce pkt (u8 iphLen) gsoSize item bufs offset;
                '(result, item, bufs) ←
                  (if decide (can = coalesceAppend) then
                     '(r, item, bufs) ← coalesceUDPPackets e pkt item bufs offset isV6; Some (Some r, item, bufs)
                   else Some (None, item, bufs));
                match result with
                | Some coalesceSuccess =>
                    table ← update_item table (u_key item) item (length items - 1);
                    Some (groResultCoalesced, bufs, table)
                | _ =>
                    let invalid := match result with Some coalescePktInvalidCSum => true | _ => false end in
                    table ← udp_insert table pkt srcAddrOffset (srcAddrOffset + addrLen) iphLen pktI invalid;
                    Some (groResultTableInsert, bufs, table)
                end
            end
  end.

(** ** A batch *)

(** [hdr.encode(bufs[i][at:])] *)
Definition encode_at (e : endian) (hdr : virtioNetHdr) (bufs : list In) (i at_ : Z) :
    option (option tun_error * list In) :=
  b ← get_buf bufs i;
  view ← tail_from b at_;
  match encode e hdr (in_bytes view) with
  | inl err => Some (Some err, bufs)
  | inr bytes => Some (None, set_buf bufs i (mkIn (splice (mem b) at_ bytes) (len_in b)))
  end.

(** The IP header of a merged packet: its length, and for IPv4 its checksum. *)
Definition account_ip (e : endian) (b : In) (offset iphLen : Z) (isV6 : bool) : option In :=
  pkt ← tail_from b offset;
  if isV6 then in_put_be 2 b (offset + 4) (u16 (u16 (len_in pkt) - u16 iphLen))
  else
    b ← in_set b (offset + 10) 0;
    b ← in_set b (offset + 11) 0;
    b ← in_put_be 2 b (offset + 2) (u16 (len_in pkt));
    iph ← in_slice b offset (offset + iphLen);
    in_put_be 2 b (offset + 10) (not16 (checksum e iph 0)).

(** The pseudo header checksum of a merged packet in its checksum field. *)
Definition account_pseudo (e : endian) (b : In) (offset iphLen proto csumAt : Z) (isV6 : bool) : option In :=
  pkt ← tail_from b offset;
  let addrLen := if isV6 then 16 else 4 in
  let addrOffset := if isV6 then ipv6SrcAddrOffset else ipv4SrcAddrOffset in
  let srcAddrAt := offset + addrOffset in
  srcAddr ← in_slice b srcAddrAt (srcAddrAt + addrLen);
  dstAddr ← in_slice b (srcAddrAt + addrLen) (srcAddrAt + addrLen * 2);
  let psum := pseudoHeaderChecksumNoFold e proto srcAddr dstAddr (u16 (len_in pkt - iphLen)) in
  in_put_be 2 b (offset + csumAt) (checksum e [] psum).

Definition hdr_none : virtioNetHdr := mkHdr 0 0 0 0 0 0.

(** The virtio-net header of a merged TCP packet. *)
Definition tcp_hdr (item : tcpGROItem) : virtioNetHdr :=
  mkHdr VIRTIO_NET_HDR_F_NEEDS_CSUM
    (if t_isV6 (t_key item) then VIRTIO_NET_HDR_GSO_TCPV6 else VIRTIO_NET_HDR_GSO_TCPV4)
    (u8 (t_iphLen item + tcphLen item)) (t_gsoSize item) (t_iphLen item) 16.

(** The body of the loops of [applyTCPCoalesceAccounting]. *)
Definition account_tcp (e : endian) (offset : Z) (bufs : list In) (item : tcpGROItem) :
    option (option tun_error * list In) :=
  if t_numMerged item >? 0 then
    let hdr := tcp_hdr item in
    let isV6 := t_isV6 (t_key item) in
    b ← get_buf bufs (t_bufsIndex item);
    b ← account_ip e b offset (t_iphLen item) isV6;
    '(err, bufs) ← encode_at e hdr (set_buf bufs (t_bufsIndex item) b) (t_bufsIndex item) (offset - virtioNetHdrLen);
    match err with
    | Some err => Some (Some err, bufs)
    | None =>
        b ← get_buf bufs (t_bufsIndex item);
        b ← account_pseudo e b offset (t_iphLen item) IPPROTO_TCP (u16 (csumStart hdr + csumOffset hdr)) isV6;
        Some (None, set_buf bufs (t_bufsIndex item) b)
    end
  else encode_at e hdr_none bufs (t_bufsIndex item) (offset - virtioNetHdrLen).

(** The virtio-net header of a merged UDP packet. *)
Definition udp_hdr (item : udpGROItem) : virtioNetHdr :=
  mkHdr VIRTIO_NET_HDR_F_NEEDS_CSUM VIRTIO_NET_HDR_GSO_UDP_L4 (u8 (u_iphLen item + udphLen)) (u_gsoSize item)
    (u_iphLen item) 6.

(** The body of the loops of [applyUDPCoalesceAccounting]. *)
Definition account_udp (e : endian) (offset : Z) (bufs : list In) (item : udpGROItem) :
    option (option tun_error * list In) :=
  if u_numMerged item >? 0 then
    let hdr := udp_hdr item in
    let isV6 := u_isV6 (u_key item) in
    b ← get_buf bufs (u_bufsIndex item);
    b ← account_ip e b offset (u_iphLen item) isV6;
    '(err, bufs) ← encode_at e hdr (set_buf bufs (u_bufsIndex item) b) (u_bufsIndex item) (offset - virtioNetHdrLen);
    match err with
    | Some err => Some (Some err, bufs)
    | None =>
        b ← get_buf bufs (u_bufsIndex item);
        seg ← tail_from b (offset + u_iphLen item);
        b ← in_put_be 2 b (offset + u8 (u_iphLen item + 4)) (u16 (len_in seg));
        b ← account_pseudo e b offset (u_iphLen item) IPPROTO_UDP (u16 (csumStart hdr + csumOffset hdr)) isV6;
        Some (None, set_buf bufs (u_bufsIndex item) b)
    end
  else encode_at e hdr_none bufs (u_bufsIndex item) (offset - virtioNetHdrLen).

(** The loops over the items of the flows, up to the first error. *)
Fixpoint account_all {I : Type} (step : list In -> I -> option (option tun_error * list In))
    (items : list I) (bufs : list In) : option (option tun_error * list In) :=
  match items with
  | [] => Some (None, bufs)
  | item :: items =>
      '(err, bufs) ← step bufs item;
      match err with
      | Some err => Some (Some err, bufs)
      | None => account_all step items bufs
      end
  end.

(** The items in the order the flows are visited. *)
Definition visit {K I : Type} (order : list (K * list I) -> list (K * list I)) (t : GROTable K I) : list I :=
  concat (snd <$> order (itemsByFlow t)).

(** The order in which a loop over a table visits the flows. *)
Definition tcp_order : Type := list (tcpFlowKey * list tcpGROItem) -> list (tcpFlowKey * list tcpGROItem).

Definition udp_order : Type := list (udpFlowKey * list udpGROItem) -> list (udpFlowKey * list udpGROItem).

Definition applyTCPCoalesceAccounting (e : endian) (order : tcp_order)
    (bufs : list In) (offset : Z) (table : tcpGROTable) : option (option tun_error * list In) :=
  account_all (account_tcp e offset) (visit order table) bufs.

Definition applyUDPCoalesceAccounting (e : endian) (order : udp_order)
    (bufs : list In) (offset : Z) (table : udpGROTable) : option (option tun_error * list In) :=
  account_all (account_udp e offset) (visit order table) bufs.

Inductive groCandidateType :=
| notGROCandidate
| tcp4GROCandidate
| tcp6GROCandidate
| udp4GROCandidate
| udp6GROCandidate.

(** On a packet of at least 28 bytes, and more where the code checks it. *)
Definition packetIsGROCandidate (b : In) (canUDPGRO : bool) : groCandidateType :=
  if len_in b <? 28 then notGROCandidate
  else
    let x := at_ (mem b) in
    if Z.shiftr (x 0) 4 =? 4 then
      if negb (Z.land (x 0) 0x0f =? 5) then notGROCandidate
      else if (x 9 =? IPPROTO_TCP) && (len_in b >=? 40) then tcp4GROCandidate
      else if (x 9 =? IPPROTO_UDP) && canUDPGRO then udp4GROCandidate
      else notGROCandidate
    else if Z.shiftr (x 0) 4 =? 6 then
      if (x 6 =? IPPROTO_TCP) && (len_in b >=? 60) then tcp6GROCandidate
      else if (x 6 =? IPPROTO_UDP) && (len_in b >=? 48) && canUDPGRO then udp6GROCandidate
      else notGROCandidate
    else notGROCandidate.

(** What a batch works on. *)
Record Batch := mkBatch {
  b_bufs : list In;
  b_tcp : tcpGROTable;
  b_udp : udpGROTable;
  b_toWrite : list Z
}.

(** The switch over the kind of packet [i]. *)
Definition gro_packet (e : endian) (offset : Z) (canUDPGRO : bool) (i : Z) (s : Batch) : option (groResult * Batch) :=
  pkt ← buf_from (b_bufs s) i offset;
  let tcp v6 :=
    '(r, bufs, t) ← tcpGRO e (b_bufs s) offset i (b_tcp s) v6; Some (r, mkBatch bufs t (b_udp s) (b_toWrite s)) in
  let udp v6 :=
    '(r, bufs, t) ← udpGRO e (b_bufs s) offset i (b_udp s) v6; Some (r, mkBatch bufs (b_tcp s) t (b_toWrite s)) in
  match packetIsGROCandidate pkt canUDPGRO with
  | tcp4GROCandidate => tcp false
  | tcp6GROCandidate => tcp true
  | udp4GROCandidate => udp false
  | udp6GROCandidate => udp true
  | notGROCandidate => Some (groResultNoop, s)
  end.

(** One iteration of [handleGRO]; an error ends the batch. *)
Definition gro_step (e : endian) (offset : Z) (canUDPGRO : bool) (i : Z) (s : Batch) :
    option (option tun_error * Batch) :=
  b ← get_buf (b_bufs s) i;
  if (offset <? virtioNetHdrLen) || (offset >? len_in b - 1) then Some (Some ErrInvalidOffset, s)
  else
    '(r, s) ← gro_packet e offset canUDPGRO i s;
    let write bufs := Some (None, mkBatch bufs (b_tcp s) (b_udp s) (b_toWrite s ++ [i])) in
    match r with
    | groResultNoop =>
        '(err, bufs) ← encode_at e hdr_none (b_bufs s) i (offset - virtioNetHdrLen);
        match err with
        | Some err => Some (Some err, s)
        | None => write bufs
        end
    | groResultTableInsert => write (b_bufs s)
    | groResultCoalesced => Some (None, s)
    end.

Fixpoint gro_loop (e : endian) (offset : Z) (canUDPGRO : bool) (ixs : list Z) (s : Batch) :
    option (option tun_error * Batch) :=
  match ixs with
  | [] => Some (None, s)
  | i :: ixs =>
      '(err, s) ← gro_step e offset canUDPGRO i s;
      match err with
      | Some _ => Some (err, s)
      | None => gro_loop e offset canUDPGRO ixs s
      end
  end.

(** [range n] *)
Definition range (n : nat) : list Z := Z.of_nat <$> seq 0 n.

(** The batch after it, and the errors joined in the error returned. *)
Definition handleGRO (e : endian) (torder : tcp_order)
    (uorder : udp_order) (offset : Z) (canUDPGRO : bool)
    (s : Batch) : option (list tun_error * Batch) :=
  '(err, s) ← gro_loop e offset canUDPGRO (range (length (b_bufs s))) s;
  match err with
  | Some err => Some ([err], s)
  | None =>
      '(errTCP, bufs) ← applyTCPCoalesceAccounting e torder (b_bufs s) offset (b_tcp s);
      '(errUDP, bufs) ← applyUDPCoalesceAccounting e uorder bufs offset (b_udp s);
      Some (option_list errTCP ++ option_list errUDP, mkBatch bufs (b_tcp s) (b_udp s) (b_toWrite s))
  end.

(** ** The device *)

Inductive tun_read_error :=
| rerr_virtio (err : tun_error)
| rerr_file
| rerr_ErrClosed
| rerr_status.

(** [errors] are the errors waiting on the channel of that name. *)
Record NativeTun := mkTun {
  vnetHdr : bool;
  udpGSO : bool;
  tcpTable : tcpGROTable;
  udpTable : udpGROTable;
  toWrite : list Z;
  errors : list tun_read_error
}.

(** What a system call on the device's file returns. *)
Inductive file_result :=
| file_ok (n : Z)
| file_EBADFD
| file_error.

Inductive write_error :=
| werr_gro (err : tun_error)
| werr_file
| werr_ErrClosed.

(** The loop over [toWrite]: what is handed to the file, the bytes written and
    the errors. [file] answers for the [k]th call. *)
Fixpoint write_loop (file : nat -> list Z -> file_result) (k : nat) (bufs : list In) (offset : Z) (ixs : list Z)
    (total : Z) (errs : list write_error) : option (list (list Z) * Z * list write_error) :=
  match ixs with
  | [] => Some ([], total, errs)
  | i :: ixs =>
      view ← buf_from bufs i offset;
      match file k (in_bytes view) with
      | file_EBADFD => Some ([in_bytes view], total, [werr_ErrClosed])
      | file_error =>
          '(w, total, errs) ← write_loop file (S k) bufs offset ixs total (errs ++ [werr_file]);
          Some (in_bytes view :: w, total, errs)
      | file_ok n =>
          '(w, total, errs) ← write_loop file (S k) bufs offset ixs (total + n) errs;
          Some (in_bytes view :: w, total, errs)
      end
  end.

(** [NativeTun.Write]: the device after it, the buffers, what was handed to the
    file, and what it returns. *)
Definition Write (e : endian) (torder : tcp_order)
    (uorder : udp_order)
    (file : nat -> list Z -> file_result) (tun : NativeTun) (bufs : list In) (offset : Z) :
    option (NativeTun * list In * list (list Z) * (Z * list write_error)) :=
  let done s := mkTun (vnetHdr tun) (udpGSO tun) (reset (b_tcp s)) (reset (b_udp s)) (b_toWrite s) (errors tun) in
  let start := mkBatch bufs (tcpTable tun) (udpTable tun) [] in
  '(errs, s) ← (if vnetHdr tun then handleGRO e torder uorder offset (udpGSO tun) start
                else Some ([], mkBatch bufs (tcpTable tun) (udpTable tun) (range (length bufs))));
  match errs with
  | _ :: _ => Some (done s, b_bufs s, [], (0, werr_gro <$> errs))
  | [] =>
      let offset := if vnetHdr tun then offset - virtioNetHdrLen else offset in
      '(w, total, errs) ← write_loop file 0 (b_bufs s) offset (b_toWrite s) 0 [];
      Some (done s, b_bufs s, w, (total, errs))
  end.

(** What a read from the device's file delivers. *)
Inductive read_result :=
| read_bytes (b : list Z)
| read_EBADFD
| read_error.

(** [NativeTun.Read]: the device, the buffers and the sizes after it, and what
    it returns. [readBuff] is the device's own buffer as the last read left it;
    the bytes delivered fit into the slice they are read to. *)
Definition Read (e : endian) (readBuff : list Z) (file : Z -> read_result) (tun : NativeTun) (bufs : list (list Z))
    (sizes : list Z) (offset : Z) :
    option (NativeTun * list (list Z) * list Z * (Z * option tun_read_error)) :=
  match errors tun with
  | err :: rest =>
      Some (mkTun (vnetHdr tun) (udpGSO tun) (tcpTable tun) (udpTable tun) (toWrite tun) rest, bufs, sizes,
            (0, Some err))
  | [] =>
      match bufs with
      | [] => None
      | buf :: others =>
          if decide (0 <= offset <= zlen buf) then
            let room := if vnetHdr tun then zlen readBuff else zlen buf - offset in
            match file room with
            | read_EBADFD => Some (tun, bufs, sizes, (0, Some rerr_ErrClosed))
            | read_error => Some (tun, bufs, sizes, (0, Some rerr_file))
            | read_bytes b =>
                if vnetHdr tun then
                  r ← handleVirtioRead e (mkIn (splice readBuff 0 b) (zlen b)) bufs sizes offset;
                  let '(bufs, sizes, (n, err)) := r in
                  Some (tun, bufs, sizes, (n, option_map rerr_virtio err))
                else
                  match sizes with
                  | [] => None
                  | _ :: sizes => Some (tun, splice buf offset b :: others, zlen b :: sizes, (1, None))
                  end
            end
          else None
      end
  end.
