(* ===== verification/GroBytes.v ===== *)
(** * Packets to merge, as bytes

    What the checks of [Gro] read of a packet, as functions of its bytes: the
    fields of a TCP segment or UDP datagram, the flow it belongs to, and whether
    it may be merged. The lemmas say that the code computes them without a
    panic on every packet long enough for its headers, and how a buffer grows. *)

From stdpp Require Import base numbers list.
From S2P Require Import Prelude Setters Slices Checksum Gso Gro.

Open Scope Z_scope.

(** ** Buffers *)

(** A buffer of the device: a slice of an array of at most 65535 bytes. *)
Definition wf_in (b : In) : Prop := 0 <= len_in b <= cap b /\ cap b <= 65535 /\ is_bytes (mem b).

(** [b[off:]] where it exists *)
Definition tail (off : Z) (b : In) : In := mkIn (drop (Z.to_nat off) (mem b)) (len_in b - off).

(** The bytes of the packet at [off]. *)
Definition pkt_of (off : Z) (b : In) : list Z := drop (Z.to_nat off) (in_bytes b).

Lemma zlen_in_bytes b : wf_in b -> zlen (in_bytes b) = len_in b.
Proof. unfold wf_in, cap, in_bytes. intros. len. Qed.

Lemma is_bytes_in b : wf_in b -> is_bytes (in_bytes b).
Proof. intros (_ & _ & H). by apply take_bytes. Qed.

Lemma is_bytes_pkt off b : wf_in b -> is_bytes (pkt_of off b).
Proof. intros H. by apply drop_bytes, is_bytes_in. Qed.

Lemma zlen_pkt off b : wf_in b -> 0 <= off <= len_in b -> zlen (pkt_of off b) = len_in b - off.
Proof. intros H Ho. pose proof (zlen_in_bytes b H). unfold pkt_of. len. Qed.

Lemma tail_from_eq b off : 0 <= off <= len_in b -> tail_from b off = Some (tail off b).
Proof. intros. unfold tail_from. by rewrite decide_True. Qed.

Lemma wf_tail off b : wf_in b -> 0 <= off <= len_in b -> wf_in (tail off b).
Proof.
  unfold wf_in, cap. intros (H1 & H2 & H3) Ho. simpl. split_and!; [len..|]. by apply drop_bytes.
Qed.

Lemma in_bytes_tail off b : wf_in b -> 0 <= off <= len_in b -> in_bytes (tail off b) = pkt_of off b.
Proof.
  intros H Ho. unfold pkt_of, in_bytes, tail. simpl. rewrite take_drop_commute. do 2 f_equal. lia.
Qed.

Lemma cap_tail off b : wf_in b -> 0 <= off <= len_in b -> cap (tail off b) = cap b - off.
Proof. unfold wf_in, cap. intros. simpl. len. Qed.

(** Slices and bytes within the length. *)
Lemma in_slice_eq b lo hi : wf_in b -> 0 <= lo <= hi -> hi <= len_in b -> in_slice b lo hi = Some (sub (in_bytes b) lo hi).
Proof.
  intros H H1 H2. unfold in_slice. rewrite slice_sub; [|lia|unfold wf_in, cap in H; lia]. f_equal.
  unfold in_bytes, sub. rewrite skipn_firstn_comm, take_take. f_equal. lia.
Qed.

Lemma in_at_eq b i : wf_in b -> 0 <= i < len_in b -> in_at b i = Some (at_ (in_bytes b) i).
Proof. intros. unfold in_at. apply byte_at_at. by rewrite zlen_in_bytes. Qed.

Lemma in_be_eq n b i :
  wf_in b -> 0 <= i -> i + Z.of_nat n <= len_in b ->
  in_be n b i = Some (be_uint (sub (in_bytes b) i (i + Z.of_nat n))).
Proof. intros. unfold in_be. apply get_be_eq; [done|]. by rewrite zlen_in_bytes. Qed.

Lemma at_mem b i : wf_in b -> 0 <= i < len_in b -> at_ (mem b) i = at_ (in_bytes b) i.
Proof.
  intros H Hi. unfold at_, in_bytes. rewrite !decide_True by lia. rewrite lookup_take_lt by lia. done.
Qed.

(** ** Fields *)

(** The length of the IP header of a packet that may be merged. *)
Definition iph (v6 : bool) : Z := if v6 then 40 else 20.

Definition addr_at (v6 : bool) : Z := if v6 then 8 else 12.

Definition addr_len (v6 : bool) : Z := if v6 then 16 else 4.

Definition src_of (v6 : bool) (p : list Z) : list Z := sub p (addr_at v6) (addr_at v6 + addr_len v6).

Definition dst_of (v6 : bool) (p : list Z) : list Z :=
  sub p (addr_at v6 + addr_len v6) (addr_at v6 + addr_len v6 * 2).

(** The length the IP header declares, as the code compares it. *)
Definition length_ok (v6 : bool) (p : list Z) : bool :=
  if v6 then be_uint (sub p 4 6) =? zlen p - 40 else be_uint (sub p 2 4) =? zlen p.

Definition whole (v6 : bool) (p : list Z) : bool :=
  v6 || negb (negb (Z.land (at_ p 6) ipv4FlagMoreFragments =? 0) || negb (u8 (Z.shiftl (at_ p 6) 3) =? 0) ||
              negb (at_ p 7 =? 0)).

(** The length of the TCP header. *)
Definition tcph (v6 : bool) (p : list Z) : Z := u8 (Z.shiftr (at_ p (iph v6 + 12)) 4 * 4).

Definition tflags (v6 : bool) (p : list Z) : Z := at_ p (iph v6 + tcpFlagsOffset).

Definition tpsh (v6 : bool) (p : list Z) : bool := negb (tflags v6 p =? tcpFlagACK).

Definition tseq (v6 : bool) (p : list Z) : Z := be_uint (sub p (iph v6 + 4) (iph v6 + 8)).

Definition tkey (v6 : bool) (p : list Z) : tcpFlowKey :=
  mkTcpKey (addr16 (src_of v6 p)) (addr16 (dst_of v6 p)) (be_uint (sub p (iph v6) (iph v6 + 2)))
    (be_uint (sub p (iph v6 + 2) (iph v6 + 4))) (be_uint (sub p (iph v6 + 8) (iph v6 + 12))) v6.

Definition ukey (v6 : bool) (p : list Z) : udpFlowKey :=
  mkUdpKey (addr16 (src_of v6 p)) (addr16 (dst_of v6 p)) (be_uint (sub p (iph v6) (iph v6 + 2)))
    (be_uint (sub p (iph v6 + 2) (iph v6 + 4))) v6.

(** A TCP segment that may be merged: complete, not a fragment, with no flags
    but ACK and PSH, and with data. *)
Definition tcp_ok (v6 : bool) (p : list Z) : bool :=
  length_ok v6 p && (20 <=? tcph v6 p) && (tcph v6 p <=? 60) && (iph v6 + tcph v6 p <? zlen p) && whole v6 p &&
  ((tflags v6 p =? tcpFlagACK) || (tflags v6 p =? Z.lor tcpFlagACK tcpFlagPSH)).

(** A UDP datagram that may be merged. *)
Definition udp_ok (v6 : bool) (p : list Z) : bool :=
  length_ok v6 p && (iph v6 + udphLen <? zlen p) && whole v6 p.

(** The fields of the IP header that merged packets share. *)
Definition ip_fields (v6 : bool) (p : list Z) : list Z :=
  if v6 then [at_ p 0; Z.shiftr (at_ p 1) 4; at_ p 7] else [at_ p 1; Z.shiftr (at_ p 6) 5; at_ p 8].

(** The checksum of the segment of protocol [proto] verifies. *)
Definition cs_ok (e : endian) (proto : Z) (v6 : bool) (p : list Z) : bool :=
  not16 (checksum e (drop (Z.to_nat (iph v6)) p)
           (pseudoHeaderChecksumNoFold e proto (src_of v6 p) (dst_of v6 p) (zlen p - iph v6))) =? 0.

(** The packet a candidate of version [v6] is. *)
Definition version_ok (v6 : bool) (p : list Z) : bool :=
  if v6 then Z.shiftr (at_ p 0) 4 =? 6 else (Z.shiftr (at_ p 0) 4 =? 4) && (Z.land (at_ p 0) 0x0f =? 5).

(** ** The code computes them *)

Section packet.
Context (v6 : bool) (pkt : In) (wf : wf_in pkt) (long : iph v6 <= len_in pkt).

Notation p := (in_bytes pkt).

Lemma checksumValid_eq e proto : checksumValid e pkt (iph v6) proto v6 = Some (cs_ok e proto v6 p).
Proof.
  pose proof (zlen_in_bytes pkt wf) as Hz. assert (len_in pkt <= 65535) by (unfold wf_in in wf; lia).
  unfold checksumValid, cs_ok, src_of, dst_of, addr_at, addr_len, iph, ipv4SrcAddrOffset, ipv6SrcAddrOffset in *.
  destruct v6.
  all: rewrite !in_slice_eq by (first [exact wf|lia]); cbn [mbind option_bind].
  all: rewrite tail_from_eq by lia; cbn [mbind option_bind]; rewrite in_bytes_tail by (first [exact wf|lia]).
  all: unfold pkt_of; rewrite Hz, u16_small by (unfold is_u16; lia); reflexivity.
Qed.

#[global] Opaque cs_ok.

Lemma newTCPFlowKey_eq :
  iph v6 + 12 <= len_in pkt ->
  newTCPFlowKey pkt (addr_at v6) (addr_at v6 + addr_len v6) (iph v6) = Some (tkey v6 p).
Proof.
  intros Hl. unfold newTCPFlowKey, tkey, src_of, dst_of, addr_at, addr_len, iph in *. destruct v6.
  all: rewrite !in_slice_eq by (first [exact wf|lia]); cbn [mbind option_bind].
  all: rewrite !in_be_eq by (first [exact wf|lia]); done.
Qed.

Lemma newUDPFlowKey_eq :
  iph v6 + 4 <= len_in pkt ->
  newUDPFlowKey pkt (addr_at v6) (addr_at v6 + addr_len v6) (iph v6) = Some (ukey v6 p).
Proof.
  intros Hl. unfold newUDPFlowKey, ukey, src_of, dst_of, addr_at, addr_len, iph in *. destruct v6.
  all: rewrite !in_slice_eq by (first [exact wf|lia]); cbn [mbind option_bind].
  all: rewrite !in_be_eq by (first [exact wf|lia]); done.
Qed.

End packet.

(** The item of a segment that starts a merge. *)
Definition tsize (v6 : bool) (p : list Z) : Z := zlen p - iph v6 - tcph v6 p.

Definition tcp_new (v6 : bool) (p : list Z) (i : Z) : tcpGROItem :=
  mkTcpItem (tkey v6 p) (tseq v6 p) (u16 i) 0 (tsize v6 p) (iph v6) (tcph v6 p) (tpsh v6 p).

Definition usize (v6 : bool) (p : list Z) : Z := zlen p - iph v6 - udphLen.

Definition udp_new (v6 : bool) (p : list Z) (i : Z) (invalid : bool) : udpGROItem :=
  mkUdpItem (ukey v6 p) (u16 i) 0 (usize v6 p) (iph v6) invalid.

Lemma iph_bounds v6 : 20 <= iph v6 <= 40.
Proof. destruct v6; simpl; lia. Qed.

Lemma iph_u8 v6 : u8 (iph v6) = iph v6.
Proof. by destruct v6. Qed.

Lemma tcp_ok_inv v6 p :
  tcp_ok v6 p = true ->
  length_ok v6 p = true /\ 20 <= tcph v6 p <= 60 /\ iph v6 + tcph v6 p < zlen p /\ whole v6 p = true /\
  (tflags v6 p = tcpFlagACK \/ tflags v6 p = Z.lor tcpFlagACK tcpFlagPSH).
Proof.
  unfold tcp_ok. rewrite !andb_true_iff, orb_true_iff, !Z.leb_le, Z.ltb_lt, !Z.eqb_eq. tauto.
Qed.

Lemma udp_ok_inv v6 p :
  udp_ok v6 p = true -> length_ok v6 p = true /\ iph v6 + 8 < zlen p /\ whole v6 p = true.
Proof. unfold udp_ok, udphLen. rewrite !andb_true_iff, Z.ltb_lt. tauto. Qed.

Section insert.
Context (v6 : bool) (pkt : In) (wf : wf_in pkt).

Notation p := (in_bytes pkt).

Lemma tcp_insert_eq t i :
  tcp_ok v6 p = true ->
  tcp_insert t pkt (addr_at v6) (addr_at v6 + addr_len v6) (iph v6) (tcph v6 p) i =
  insert_item t (tkey v6 p) (tcp_new v6 p i).
Proof.
  intros (_ & Ht & Hl & _ & Hf)%tcp_ok_inv. pose proof (zlen_in_bytes pkt wf) as Hz.
  assert (len_in pkt <= 65535 /\ 20 <= iph v6) as [? ?] by (unfold wf_in in wf; destruct v6; simpl; lia).
  unfold tcp_insert. rewrite (newTCPFlowKey_eq v6) by (first [exact wf|lia]). cbn [mbind option_bind].
  rewrite tail_from_eq by lia. cbn [mbind option_bind]. rewrite in_be_eq by (first [exact wf|lia]).
  cbn [mbind option_bind]. rewrite in_at_eq by (first [exact wf|unfold tcpFlagsOffset; lia]).
  cbn [mbind option_bind]. unfold tcp_new, tsize. f_equal. f_equal.
  - unfold tseq. do 2 f_equal. lia.
  - simpl. rewrite u16_small by (unfold is_u16; lia). lia.
  - apply iph_u8.
  - apply u8_small. unfold is_u8. lia.
  - unfold tpsh, tflags in *. by destruct Hf as [-> | ->].
Qed.

Lemma udp_insert_eq t i invalid :
  udp_ok v6 p = true ->
  udp_insert t pkt (addr_at v6) (addr_at v6 + addr_len v6) (iph v6) i invalid =
  insert_item t (ukey v6 p) (udp_new v6 p i invalid).
Proof.
  intros (_ & Hl & _)%udp_ok_inv. pose proof (zlen_in_bytes pkt wf) as Hz.
  assert (len_in pkt <= 65535 /\ 20 <= iph v6) as [? ?] by (unfold wf_in in wf; destruct v6; simpl; lia).
  unfold udp_insert. rewrite (newUDPFlowKey_eq v6) by (first [exact wf|lia]). cbn [mbind option_bind].
  rewrite tail_from_eq by (unfold udphLen; lia). cbn [mbind option_bind]. unfold udp_new, usize. f_equal. f_equal.
  - simpl. rewrite u16_small by (unfold is_u16, udphLen; lia). lia.
  - apply iph_u8.
Qed.

Lemma gro_ip_check_eq :
  version_ok v6 p = true -> iph v6 <= len_in pkt ->
  gro_ip_check pkt v6 = Some (if length_ok v6 p then Some (iph v6) else None).
Proof.
  intros Hv Hl. pose proof (zlen_in_bytes pkt wf) as Hz. unfold gro_ip_check, version_ok, length_ok, iph, maxUint16 in *.
  assert (len_in pkt <= 65535) by (unfold wf_in in wf; lia).
  replace (len_in pkt >? 65535) with false by lia.
  rewrite in_at_eq by (first [exact wf|destruct v6; lia]). cbn [mbind option_bind].
  destruct v6; cbv iota in Hl, Hv; rewrite in_be_eq by (first [exact wf|lia]).
  all: cbn [mbind option_bind]; rewrite Hz.
  - change (4 + Z.of_nat 2) with 6. replace (len_in pkt <? 40) with false by lia.
    by destruct (be_uint _ =? _).
  - change (2 + Z.of_nat 2) with 4. apply andb_true_iff in Hv as [_ Hv%Z.eqb_eq]. rewrite Hv. change (u8 (5 * 4)) with 20.
    replace (len_in pkt <? 20) with false by lia. by destruct (be_uint _ =? _).
Qed.

Lemma fragmented_eq :
  iph v6 <= len_in pkt -> (if v6 then Some false else fragmented pkt) = Some (negb (whole v6 p)).
Proof.
  intros Hl. unfold whole, fragmented, iph in *. destruct v6; [done|].
  rewrite !in_at_eq by (first [exact wf|lia]). cbn [mbind option_bind orb]. by rewrite negb_involutive.
Qed.

End insert.

Section gro.
Context (e : endian) (bufs : list In) (offset i : Z) (v6 : bool) (pkt : In).
Context (Hb : buf_from bufs i offset = Some pkt) (wf : wf_in pkt).
Context (Hv : version_ok v6 (in_bytes pkt) = true).

Notation p := (in_bytes pkt).

Lemma gro_bounds : zlen p = len_in pkt /\ len_in pkt <= 65535 /\ 20 <= iph v6.
Proof. rewrite zlen_in_bytes by done. unfold wf_in in wf. destruct v6; simpl; lia. Qed.

(** [tcpGRO] leaves alone what may not be merged. *)
Lemma tcpGRO_refused table :
  iph v6 + 20 <= len_in pkt -> tcp_ok v6 p = false -> tcpGRO e bufs offset i table v6 = Some (groResultNoop, bufs, table).
Proof.
  intros Hl Hno. destruct gro_bounds as (Hz & ? & ?).
  unfold tcpGRO. rewrite Hb. cbn [mbind option_bind]. rewrite (gro_ip_check_eq v6) by (first [done|lia]).
  cbn [mbind option_bind]. destruct (length_ok v6 p) eqn:H1; [|done].
  rewrite (in_at_eq pkt (iph v6 + 12)) by (first [exact wf|lia]). cbn [mbind option_bind].
  change (u8 (Z.shiftr (at_ p (iph v6 + 12)) 4 * 4)) with (tcph v6 p).
  destruct ((tcph v6 p <? 20) || (tcph v6 p >? 60)) eqn:H2; [done|].
  destruct (len_in pkt <? iph v6 + tcph v6 p) eqn:H4; [done|].
  rewrite (fragmented_eq v6) by (first [done|lia]). cbn [mbind option_bind].
  destruct (whole v6 p) eqn:H5; cbn [negb]; [|done].
  rewrite in_at_eq by (first [exact wf|unfold tcpFlagsOffset; lia]). cbn [mbind option_bind].
  change (at_ p (iph v6 + tcpFlagsOffset)) with (tflags v6 p). rewrite <- negb_orb.
  destruct ((tflags v6 p =? tcpFlagACK) || _) eqn:H6; cbn [negb]; [|done].
  unfold tcp_ok in Hno. rewrite H1, H5, H6, !andb_true_r in Hno. clear H6. rewrite u16_small by (unfold is_u16; lia).
  by replace (len_in pkt - tcph v6 p - iph v6 <? 1) with true by lia.
Qed.

(** [tcpGRO] on a segment that may be merged works on the table. *)
Lemma tcpGRO_accepted table :
  tcp_ok v6 p = true ->
  tcpGRO e bufs offset i table v6 =
    match find_flow (itemsByFlow table) (tkey v6 p) with
    | None => t ← insert_item table (tkey v6 p) (tcp_new v6 p i); Some (groResultTableInsert, bufs, t)
    | Some items =>
        '(r, bufs, t) ← tcp_loop e pkt (iph v6) (tcph v6 p) (tseq v6 p) (tpsh v6 p) (tsize v6 p) i v6 offset items
                          (length items) bufs table;
        match r with
        | Some r => Some (r, bufs, t)
        | None => t ← insert_item t (tkey v6 p) (tcp_new v6 p i); Some (groResultTableInsert, bufs, t)
        end
    end.
Proof.
  intros Hok. destruct gro_bounds as (Hz & ? & ?). destruct (tcp_ok_inv _ _ Hok) as (H1 & H2 & H3 & H4 & H5).
  unfold tcpGRO. rewrite Hb. cbn [mbind option_bind]. rewrite (gro_ip_check_eq v6), H1 by (first [done|lia]).
  cbn [mbind option_bind]. rewrite (in_at_eq pkt (iph v6 + 12)) by (first [exact wf|lia]). cbn [mbind option_bind].
  change (u8 (Z.shiftr (at_ p (iph v6 + 12)) 4 * 4)) with (tcph v6 p).
  replace ((tcph v6 p <? 20) || (tcph v6 p >? 60)) with false by lia.
  replace (len_in pkt <? iph v6 + tcph v6 p) with false by lia.
  rewrite (fragmented_eq v6), H4 by (first [done|lia]). cbn [mbind option_bind negb].
  rewrite in_at_eq by (first [exact wf|unfold tcpFlagsOffset; lia]). cbn [mbind option_bind].
  change (at_ p (iph v6 + tcpFlagsOffset)) with (tflags v6 p). rewrite <- negb_orb.
  replace ((tflags v6 p =? tcpFlagACK) || (tflags v6 p =? Z.lor tcpFlagACK tcpFlagPSH)) with true by lia. cbn [negb].
  rewrite u16_small by (unfold is_u16; lia).
  replace (len_in pkt - tcph v6 p - iph v6) with (tsize v6 p) by (unfold tsize; lia).
  replace (tsize v6 p <? 1) with false by (unfold tsize; lia).
  rewrite in_be_eq by (first [exact wf|lia]). cbn [mbind option_bind].
  replace (be_uint (sub p (iph v6 + 4) _)) with (tseq v6 p) by (unfold tseq; do 2 f_equal; lia).
  change (if v6 then ipv6SrcAddrOffset else ipv4SrcAddrOffset) with (addr_at v6).
  change (if v6 then 16 else 4) with (addr_len v6). unfold tcp_lookupOrInsert.
  rewrite (newTCPFlowKey_eq v6) by (first [done|lia]). cbn [mbind option_bind].
  rewrite tcp_insert_eq by done. destruct (find_flow _ _) as [items|]; cbn [mbind option_bind].
  - change (negb (tflags v6 p =? tcpFlagACK)) with (tpsh v6 p).
    destruct (tcp_loop _ _ _ _ _ _ _ _ _ _ _ _ _ _) as [[[[r|] ?] t]|]; cbn [mbind option_bind]; [done| |done].
    by rewrite tcp_insert_eq.
  - by destruct (insert_item _ _ _).
Qed.

(** [udpGRO] leaves alone what may not be merged. *)
Lemma udpGRO_refused table :
  iph v6 + 8 <= len_in pkt -> udp_ok v6 p = false -> udpGRO e bufs offset i table v6 = Some (groResultNoop, bufs, table).
Proof.
  intros Hl Hno. destruct gro_bounds as (Hz & ? & ?).
  unfold udpGRO. rewrite Hb. cbn [mbind option_bind]. rewrite (gro_ip_check_eq v6) by (first [done|lia]).
  cbn [mbind option_bind]. unfold udp_ok, udphLen in *. destruct (length_ok v6 p); [|done].
  replace (len_in pkt <? iph v6 + 8) with false by lia.
  rewrite (fragmented_eq v6) by (first [done|lia]). cbn [mbind option_bind].
  destruct (whole v6 p); cbn [negb]; [|done]. rewrite andb_true_r in Hno. cbn [andb] in Hno.
  rewrite u16_small by (unfold is_u16; lia). by replace (len_in pkt - 8 - iph v6 <? 1) with true by lia.
Qed.

(** [udpGRO] on a datagram that may be merged works on the table. *)
Lemma udpGRO_accepted table :
  udp_ok v6 p = true ->
  udpGRO e bufs offset i table v6 =
    match find_flow (itemsByFlow table) (ukey v6 p) with
    | None => t ← insert_item table (ukey v6 p) (udp_new v6 p i false); Some (groResultTableInsert, bufs, t)
    | Some items =>
        item ← last items;
        can ← udpPacketsCanCoalesce pkt (iph v6) (usize v6 p) item bufs offset;
        '(result, item, bufs) ←
          (if decide (can = coalesceAppend) then
             '(r, item, bufs) ← coalesceUDPPackets e pkt item bufs offset v6; Some (Some r, item, bufs)
           else Some (None, item, bufs));
        match result with
        | Some coalesceSuccess =>
            table ← update_item table (u_key item) item (length items - 1);
            Some (groResultCoalesced, bufs, table)
        | _ =>
            let invalid := match result with Some coalescePktInvalidCSum => true | _ => false end in
            table ← insert_item table (ukey v6 p) (udp_new v6 p i invalid);
            Some (groResultTableInsert, bufs, table)
        end
    end.
Proof.
  intros Hok. destruct gro_bounds as (Hz & ? & ?). destruct (udp_ok_inv _ _ Hok) as (H1 & H2 & H3).
  unfold udpGRO. rewrite Hb. cbn [mbind option_bind]. rewrite (gro_ip_check_eq v6), H1 by (first [done|lia]).
  cbn [mbind option_bind]. replace (len_in pkt <? iph v6 + udphLen) with false by (unfold udphLen; lia).
  rewrite (fragmented_eq v6), H3 by (first [done|lia]). cbn [mbind option_bind negb].
  rewrite u16_small by (unfold is_u16, udphLen; lia).
  replace (len_in pkt - udphLen - iph v6) with (usize v6 p) by (unfold usize; lia).
  replace (usize v6 p <? 1) with false by (unfold usize, udphLen; lia).
  change (if v6 then ipv6SrcAddrOffset else ipv4SrcAddrOffset) with (addr_at v6).
  change (if v6 then 16 else 4) with (addr_len v6). unfold udp_lookupOrInsert.
  rewrite (newUDPFlowKey_eq v6) by (first [done|lia]). cbn [mbind option_bind].
  rewrite udp_insert_eq, iph_u8 by done. destruct (find_flow _ _) as [items|]; cbn [mbind option_bind].
  - destruct (last items) as [item|]; cbn [mbind option_bind]; [|done].
    destruct (udpPacketsCanCoalesce _ _ _ _ _ _) as [can|]; cbn [mbind option_bind]; [|done].
    destruct (decide _); [destruct (coalesceUDPPackets _ _ _ _ _ _) as [[[[] ?] ?]|]|]; cbn [mbind option_bind].
    all: first [done|by rewrite udp_insert_eq].
  - by destruct (insert_item _ _ _).
Qed.

End gro.

(** ** Which packets may follow each other *)

(** The options of a TCP header of [h] bytes. *)
Definition options (v6 : bool) (h : Z) (p : list Z) : list Z := sub p (iph v6 + 20) (iph v6 + h).

Lemma ipHeadersCanCoalesce_eq v6 a b :
  wf_in a -> wf_in b -> 9 <= len_in a -> 9 <= len_in b -> version_ok v6 (in_bytes a) = true ->
  ipHeadersCanCoalesce a b = bool_decide (ip_fields v6 (in_bytes a) = ip_fields v6 (in_bytes b)).
Proof.
  intros Ha Hb La Lb Hv. unfold ipHeadersCanCoalesce.
  replace ((len_in a <? 9) || (len_in b <? 9)) with false by lia.
  rewrite !at_mem by (first [done|lia]). unfold version_ok, ip_fields in *. destruct v6.
  - rewrite Hv. symmetry. repeat case_if; first [apply bool_decide_eq_true|apply bool_decide_eq_false].
    all: rewrite ?orb_true_iff, ?orb_false_iff, ?negb_true_iff, ?negb_false_iff, ?Z.eqb_eq, ?Z.eqb_neq in *.
    all: intuition congruence.
  - apply andb_true_iff in Hv as [Hv%Z.eqb_eq _]. rewrite Hv. change (4 =? 6) with false. symmetry.
    repeat case_if; first [apply bool_decide_eq_true|apply bool_decide_eq_false].
    all: rewrite ?negb_true_iff, ?negb_false_iff, ?Z.eqb_eq, ?Z.eqb_neq in *; intuition congruence.
Qed.

(** What a segment that may be appended to, or put in front of, an item has in
    common with the packet of the item, and how it continues it. *)
Definition tcp_fits (v6 : bool) (p q : list Z) (item : tcpGROItem) (can : canCoalesce) : Prop :=
  let same := tcph v6 p = tcphLen item /\ options v6 (tcphLen item) p = options v6 (tcphLen item) q /\
              ip_fields v6 p = ip_fields v6 q in
  match can with
  | coalesceAppend =>
      same /\ tseq v6 p = u32 (sentSeq item + u16 (t_gsoSize item + u16 (t_numMerged item * t_gsoSize item))) /\
      pshSet item = false /\ (zlen q - (iph v6 + tcphLen item)) mod t_gsoSize item = 0 /\
      tsize v6 p <= t_gsoSize item
  | coalescePrepend =>
      same /\ u32 (tseq v6 p + tsize v6 p) = sentSeq item /\ tpsh v6 p = false /\ t_gsoSize item <= tsize v6 p /\
      (t_numMerged item <= 0 \/ tsize v6 p = t_gsoSize item)
  | coalesceUnavailable => True
  end.

(** What a datagram that may be appended has in common with the packet of the
    item. *)
Definition udp_fits (v6 : bool) (p q : list Z) (item : udpGROItem) : Prop :=
  ip_fields v6 p = ip_fields v6 q /\ (zlen q - (iph v6 + 8)) mod u_gsoSize item = 0 /\ usize v6 p <= u_gsoSize item.

Section can.
Context (v6 : bool) (pkt tgt : In) (bufs : list In) (off : Z).
Context (wf : wf_in pkt) (wft : wf_in tgt) (Hv : version_ok v6 (in_bytes pkt) = true).

Notation p := (in_bytes pkt).
Notation q := (in_bytes tgt).

Lemma tcp_options_eq item h :
  t_iphLen item = iph v6 -> 20 <= h <= 60 -> iph v6 + h <= len_in pkt -> iph v6 + h <= len_in tgt ->
  (if h >? 20 then
     a ← in_slice pkt (u8 (iph v6 + 20)) (u8 (iph v6 + h));
     b ← in_slice tgt (u8 (t_iphLen item + 20)) (u8 (iph v6 + h));
     Some (bytes_eqb a b)
   else Some true) = Some (bytes_eqb (options v6 h p) (options v6 h q)).
Proof.
  intros Hi Hh Hp Hq. rewrite Hi. unfold options. assert (20 <= iph v6 <= 40) by (destruct v6; simpl; lia).
  rewrite !u8_small by (unfold is_u8; lia). destruct (h >? 20) eqn:E; zbool.
  - by rewrite !in_slice_eq by (first [done|lia]).
  - replace h with 20 by lia. unfold sub. rewrite Z.sub_diag. by rewrite !take_0.
Qed.

Lemma tcpPacketsCanCoalesce_ok item :
  tcp_ok v6 p = true -> buf_from bufs (t_bufsIndex item) off = Some tgt -> t_iphLen item = iph v6 ->
  20 <= tcphLen item <= 60 -> iph v6 + tcphLen item <= len_in tgt -> 0 < t_gsoSize item ->
  exists can, tcpPacketsCanCoalesce pkt (u8 (iph v6)) (u8 (tcph v6 p)) (tseq v6 p) (tpsh v6 p) (tsize v6 p) item bufs off
      = Some can /\ tcp_fits v6 p q item can.
Proof.
  intros (_ & Ht & Hl & _)%tcp_ok_inv Hb Hi Hh Hq Hg. pose proof (zlen_in_bytes _ wf) as Hz.
  pose proof (zlen_in_bytes _ wft) as Hzq. assert (20 <= iph v6 <= 40) by (destruct v6; simpl; lia).
  unfold tcpPacketsCanCoalesce. rewrite Hb. cbn [mbind option_bind].
  rewrite iph_u8, (u8_small (tcph v6 p)) by (unfold is_u8; lia).
  destruct (tcph v6 p =? tcphLen item) eqn:E1; cbn [negb]; [|by eexists]. apply Z.eqb_eq in E1.
  rewrite tcp_options_eq by lia. cbn [mbind option_bind].
  destruct (bytes_eqb _ _) eqn:E2; cbn [negb]; [|by eexists]. apply bytes_eqb_eq in E2.
  rewrite (ipHeadersCanCoalesce_eq v6) by (first [done|lia]).
  destruct (bool_decide _) eqn:E3; cbn [negb]; [|by eexists]. apply bool_decide_eq_true in E3.
  rewrite E1 in *. rewrite (u8_small (iph v6 + _)) by (unfold is_u8; lia).
  rewrite tail_from_eq by lia. cbn [mbind option_bind]. unfold rem.
  replace (t_gsoSize item =? 0) with false by lia. cbn [mbind option_bind len_in tail].
  assert (tcph v6 p = tcphLen item) as E1' by done.
  repeat (case_if; [|]); first [by eexists|eexists; split; [done|]]; simpl.
  all: rewrite ?negb_false_iff, ?Z.eqb_eq in *; zbool; split_and!; try done; try congruence; try lia.
Qed.

Lemma udpPacketsCanCoalesce_ok item :
  udp_ok v6 p = true -> buf_from bufs (u_bufsIndex item) off = Some tgt -> iph v6 + 8 <= len_in tgt ->
  0 < u_gsoSize item ->
  exists can, udpPacketsCanCoalesce pkt (iph v6) (usize v6 p) item bufs off = Some can /\
    (can = coalesceAppend -> udp_fits v6 p q item).
Proof.
  intros (_ & Hl & _)%udp_ok_inv Hb Hq Hg. pose proof (zlen_in_bytes _ wf) as Hz.
  pose proof (zlen_in_bytes _ wft) as Hzq. assert (20 <= iph v6 <= 40) by (destruct v6; simpl; lia).
  unfold udpPacketsCanCoalesce. rewrite Hb. cbn [mbind option_bind].
  rewrite (ipHeadersCanCoalesce_eq v6) by (first [done|lia]).
  destruct (bool_decide _) eqn:E3; cbn [negb]; [|by eexists]. apply bool_decide_eq_true in E3.
  unfold udphLen. rewrite (u8_small (iph v6 + _)) by (unfold is_u8; lia).
  rewrite tail_from_eq by lia. cbn [mbind option_bind]. unfold rem.
  replace (u_gsoSize item =? 0) with false by lia. cbn [mbind option_bind len_in tail].
  repeat (case_if; [|]); eexists; (split; [done|]); try done. intros _.
  rewrite ?negb_false_iff, ?Z.eqb_eq in *; zbool. unfold udp_fits. rewrite Hzq. split_and!; [done|done|lia].
Qed.

End can.
