(* ===== verification/GroMerge.v ===== *)
(** * One merge

    [coalesceTCPPackets] and [coalesceUDPPackets] on buffers that exist: they
    never panic, they change nothing unless they succeed, and on success both
    packets had valid checksums and the buffer of the item is the old one with
    the data of the other packet added. *)

From stdpp Require Import base numbers list.
From S2P Require Import Prelude Setters Slices Checksum Gso Gro GroBytes.

Open Scope Z_scope.

(** ** Growing a buffer *)

(** The buffer with [src] after its bytes. *)
Definition grow (b : In) (src : list Z) : In := mkIn (splice (mem b) (len_in b) src) (len_in b + zlen src).

(** The packet with the PSH flag set in its TCP header. *)
Definition with_psh (v6 : bool) (p : list Z) : list Z :=
  splice p (iph v6 + tcpFlagsOffset) [Z.lor (tflags v6 p) tcpFlagPSH].

(** The buffer whose packet at [off] is [with_psh]. *)
Definition push (off : Z) (v6 : bool) (b : In) : In :=
  mkIn (splice (mem b) (off + (iph v6 + tcpFlagsOffset)) [Z.lor (tflags v6 (pkt_of off b)) tcpFlagPSH]) (len_in b).

Lemma in_bytes_splice b i y :
  wf_in b -> 0 <= i -> i + zlen y <= len_in b -> in_bytes (mkIn (splice (mem b) i y) (len_in b)) = splice (in_bytes b) i y.
Proof.
  intros H Hi Hy. unfold in_bytes. cbn [mem len_in]. rewrite <- !sub_0_take.
  rewrite sub_splice_rel by (first [lia|unfold wf_in, cap in H; lia]). f_equal. lia.
Qed.

Lemma wf_splice b i y :
  wf_in b -> 0 <= i -> i + zlen y <= cap b -> is_bytes y -> wf_in (mkIn (splice (mem b) i y) (len_in b)).
Proof.
  unfold wf_in, cap. intros (H1 & H2 & H3) Hi Hy Hb. cbn [mem len_in]. rewrite zlen_splice by lia.
  split_and!; [lia..|]. by apply is_bytes_splice.
Qed.

Lemma pkt_of_splice off b i y :
  wf_in b -> 0 <= off -> 0 <= i -> off + i + zlen y <= len_in b ->
  pkt_of off (mkIn (splice (mem b) (off + i) y) (len_in b)) = splice (pkt_of off b) i y.
Proof.
  intros H Ho Hi Hy. pose proof (zlen_in_bytes b H) as Hz. pose proof (zlen_nonneg y). unfold pkt_of.
  rewrite in_bytes_splice by (first [done|lia]).
  rewrite <- !sub_drop by lia. rewrite zlen_splice by lia. rewrite sub_splice_rel by lia. f_equal. lia.
Qed.

Lemma wf_grow b src : wf_in b -> len_in b + zlen src <= cap b -> is_bytes src -> wf_in (grow b src).
Proof.
  unfold wf_in, cap, grow. intros (H1 & H2 & H3) Hl Hb. cbn [mem len_in]. pose proof (zlen_nonneg src).
  rewrite zlen_splice by lia. split_and!; [lia..|]. by apply is_bytes_splice.
Qed.

Lemma cap_grow b src : wf_in b -> len_in b + zlen src <= cap b -> cap (grow b src) = cap b.
Proof. unfold wf_in, cap, grow. intros. cbn [mem]. apply zlen_splice; lia. Qed.

Lemma in_bytes_grow b src : wf_in b -> len_in b + zlen src <= cap b -> in_bytes (grow b src) = in_bytes b ++ src.
Proof.
  intros H Hl. unfold in_bytes, grow, splice, wf_in, cap in *. cbn [mem len_in].
  rewrite app_assoc, take_app_length'; [done|]. len.
Qed.

Lemma pkt_of_grow off b src :
  wf_in b -> 0 <= off <= len_in b -> len_in b + zlen src <= cap b -> pkt_of off (grow b src) = pkt_of off b ++ src.
Proof.
  intros H Ho Hl. pose proof (zlen_in_bytes b H) as Hz. unfold pkt_of. rewrite in_bytes_grow by done.
  rewrite drop_app_le; [done|]. unfold zlen in Hz. lia.
Qed.

Lemma tflags_lor v6 p : is_bytes p -> is_u8 (Z.lor (tflags v6 p) tcpFlagPSH).
Proof.
  intros H. assert (is_u8 (tflags v6 p)) as Hf.
  { unfold tflags, at_. destruct (decide _); [|unfold is_u8; lia].
    destruct (p !! _) as [x|] eqn:E; [|unfold is_u8; simpl; lia]. by eapply Forall_lookup in E. }
  unfold is_u8 in *. split; [apply Z.lor_nonneg; split; [lia|done]|].
  destruct (Z.eq_dec (Z.lor (tflags v6 p) tcpFlagPSH) 0) as [->|Hn]; [lia|].
  assert (0 <= Z.lor (tflags v6 p) tcpFlagPSH) by (apply Z.lor_nonneg; split; [lia|done]).
  apply Z.log2_lt_pow2; [lia|]. rewrite Z.log2_lor by (first [lia|done]).
  apply Z.max_lub_lt; [|done]. destruct (Z.eq_dec (tflags v6 p) 0) as [->|]; [done|]. apply Z.log2_lt_pow2; lia.
Qed.

Section push.
Context (off : Z) (v6 : bool) (b : In) (wf : wf_in b) (Ho : 0 <= off) (Hl : off + iph v6 + 20 <= len_in b).

Lemma wf_push : wf_in (push off v6 b).
Proof.
  pose proof (iph_bounds v6). apply wf_splice; unfold tcpFlagsOffset; [done|lia| |].
  - change (zlen [_]) with 1. unfold wf_in in wf. lia.
  - constructor; [|done]. by apply tflags_lor, is_bytes_pkt.
Qed.

Lemma pkt_of_push : pkt_of off (push off v6 b) = with_psh v6 (pkt_of off b).
Proof.
  pose proof (iph_bounds v6). unfold push. apply pkt_of_splice; unfold tcpFlagsOffset; [done|lia|lia|].
  change (zlen [_]) with 1. lia.
Qed.

Lemma cap_push : cap (push off v6 b) = cap b.
Proof.
  pose proof (iph_bounds v6). unfold push, cap, tcpFlagsOffset. cbn [mem]. apply zlen_splice; [lia|].
  change (zlen [_]) with 1. unfold wf_in, cap in wf. lia.
Qed.

End push.

(** ** The operations on [bufs] *)

Lemma get_set_buf bufs i b b' : get_buf bufs i = Some b -> get_buf (set_buf bufs i b') i = Some b'.
Proof.
  unfold get_buf, set_buf. destruct (decide _); [|done]. intros H. apply list_lookup_insert_eq.
  by eapply lookup_lt_Some.
Qed.

Lemma get_set_buf_ne bufs i j b : 0 <= i -> i <> j -> get_buf (set_buf bufs i b) j = get_buf bufs j.
Proof.
  intros Hi Hij. unfold get_buf, set_buf. destruct (decide _); [|done]. apply list_lookup_insert_ne. lia.
Qed.

Lemma set_set_buf bufs i b b' : set_buf (set_buf bufs i b) i b' = set_buf bufs i b'.
Proof. apply list_insert_insert_eq. Qed.

Lemma set_buf_id bufs i b : get_buf bufs i = Some b -> set_buf bufs i b = bufs.
Proof. unfold get_buf, set_buf. destruct (decide _); [|done]. apply list_insert_id. Qed.

Lemma length_set_buf bufs i b : length (set_buf bufs i b) = length bufs.
Proof. apply length_insert. Qed.

Lemma get_buf_nonneg bufs i b : get_buf bufs i = Some b -> 0 <= i.
Proof. unfold get_buf. by destruct (decide _). Qed.

Lemma buf_from_eq bufs i off b :
  get_buf bufs i = Some b -> 0 <= off <= len_in b -> buf_from bufs i off = Some (tail off b).
Proof. intros H Ho. unfold buf_from, get_buf in *. rewrite H. by apply tail_from_eq. Qed.

Lemma extend_buf_eq bufs i b n at_end src :
  get_buf bufs i = Some b -> wf_in b -> n = zlen src -> at_end = len_in b -> len_in b + n <= cap b ->
  extend_buf bufs i n at_end src = Some (set_buf bufs i (grow b src)).
Proof.
  intros Hb wf -> -> Hl. pose proof (zlen_nonneg src) as Hn. unfold extend_buf.
  replace (zlen src <? 0) with false by lia. rewrite Hb. cbn [mbind option_bind]. unfold append_zeros.
  replace (len_in b + zlen src <=? cap b) with true by lia. unfold in_copy. cbn [mem len_in].
  unfold wf_in, cap in *. rewrite decide_True by lia. cbn [mbind option_bind]. do 3 f_equal.
  rewrite Z.min_l by lia. rewrite take_ge by (unfold zlen; lia).
  assert (zlen (zeros (Z.to_nat (zlen src))) = zlen src) as Hz by (unfold zeros; len).
  rewrite splice_splice; [done|lia|lia|lia].
Qed.

(** ** Merging two packets *)

Section merge.
Context (e : endian) (off : Z) (v6 : bool) (bufs : list In) (i w : Z) (bi bw : In).
Context (Hi : get_buf bufs i = Some bi) (Hw : get_buf bufs w = Some bw).
Context (wfi : wf_in bi) (wfw : wf_in bw) (Ho : 0 <= off).

Notation pkt := (tail off bi).
Notation p := (pkt_of off bi).
Notation q := (pkt_of off bw).

Lemma item_invalid_eq nm proto known :
  off + iph v6 <= len_in bw ->
  item_invalid e bufs off w nm (iph v6) proto known v6 =
  Some (if nm =? 0 then known || negb (cs_ok e proto v6 q) else false).
Proof.
  intros Hl. pose proof (iph_bounds v6). unfold item_invalid. destruct (nm =? 0); [|done]. destruct known; [done|].
  rewrite (buf_from_eq _ _ _ _ Hw) by lia. cbn [mbind option_bind].
  rewrite (checksumValid_eq v6) by (first [apply wf_tail; [done|lia]|simpl; lia]). cbn [mbind option_bind].
  by rewrite in_bytes_tail by (first [done|lia]).
Qed.

Lemma pkt_checksum_eq proto : off + iph v6 <= len_in bi -> checksumValid e pkt (iph v6) proto v6 = Some (cs_ok e proto v6 p).
Proof.
  intros Hl. pose proof (iph_bounds v6).
  rewrite (checksumValid_eq v6) by (first [apply wf_tail; [done|lia]|simpl; lia]).
  by rewrite in_bytes_tail by (first [done|lia]).
Qed.

(** The data of the packet after [hl] bytes of headers, as the code copies it. *)
Lemma pkt_data_eq hl :
  0 <= hl -> off + hl <= len_in bi ->
  tail_from pkt hl = Some (tail hl pkt) /\ in_bytes (tail hl pkt) = drop (Z.to_nat hl) p /\
  zlen (drop (Z.to_nat hl) p) = len_in pkt - hl.
Proof.
  intros H1 H2. assert (wf_in pkt) by (apply wf_tail; [done|lia]).
  rewrite tail_from_eq, in_bytes_tail by (first [done|simpl; lia]). unfold pkt_of at 1 2.
  rewrite in_bytes_tail by (first [done|lia]). split_and!; [done|done|].
  pose proof (zlen_pkt off bi wfi ltac:(lia)) as Hz. simpl. len.
Qed.

Lemma append_eq hl :
  0 <= hl -> off + hl <= len_in bi -> len_in bw + (len_in pkt - hl) <= cap bw ->
  extend_buf bufs w (len_in pkt - hl) (off + len_in (tail off bw)) (drop (Z.to_nat hl) p) =
  Some (set_buf bufs w (grow bw (drop (Z.to_nat hl) p))).
Proof.
  intros H1 H2 H3. destruct (pkt_data_eq hl) as (_ & _ & Hz); [done..|].
  apply extend_buf_eq; [done|done|lia|simpl; lia|lia].
Qed.

Lemma invalid_false nm proto (known : bool) :
  (if nm =? 0 then known || negb (cs_ok e proto v6 q) else false) = false -> nm = 0 -> cs_ok e proto v6 q = true.
Proof. intros H ->. rewrite Z.eqb_refl in H. by apply orb_false_iff in H as [_ ->%negb_false_iff]. Qed.

(** The outcome of merging a datagram. *)
Definition udp_outcome (item : udpGROItem) (r : coalesceResult) (item' : udpGROItem) (bufs' : list In) : Prop :=
  match r with
  | coalesceSuccess =>
      cs_ok e IPPROTO_UDP v6 p = true /\ (u_numMerged item = 0 -> cs_ok e IPPROTO_UDP v6 q = true) /\
      item' = item <| u_numMerged := u16 (u_numMerged item + 1) |> /\
      len_in bw + (len_in pkt - (iph v6 + 8)) <= cap bw /\
      bufs' = set_buf bufs w (grow bw (drop (Z.to_nat (iph v6 + 8)) p))
  | _ => item' = item /\ bufs' = bufs
  end.

Lemma coalesceUDPPackets_ok item :
  u_bufsIndex item = w -> u_iphLen item = iph v6 -> off + iph v6 + 8 <= len_in bi -> off + iph v6 + 8 <= len_in bw ->
  exists r item' bufs', coalesceUDPPackets e pkt item bufs off v6 = Some (r, item', bufs') /\
    udp_outcome item r item' bufs'.
Proof.
  intros Ew Ei Li Lw. pose proof (iph_bounds v6) as Hb. unfold coalesceUDPPackets. rewrite Ew, Ei.
  rewrite (buf_from_eq _ _ _ _ Hw) by lia. cbn [mbind option_bind]. unfold udphLen.
  rewrite (u8_small (iph v6 + 8)) by (unfold is_u8; lia).
  rewrite cap_tail by (first [done|lia]). case_if; [by do 3 eexists|].
  rewrite item_invalid_eq by lia. cbn [mbind option_bind].
  destruct (if u_numMerged item =? 0 then _ else _) eqn:Hinv; [by do 3 eexists|].
  rewrite pkt_checksum_eq by lia. cbn [mbind option_bind].
  destruct (cs_ok e IPPROTO_UDP v6 p) eqn:Hc; cbn [negb]; [|by do 3 eexists].
  destruct (pkt_data_eq (iph v6 + 8)) as (E1 & E2 & Hz); [lia..|]. rewrite E1. cbn [mbind option_bind]. rewrite E2.
  rewrite (append_eq (iph v6 + 8)) by (cbn [len_in tail] in *; lia). cbn [mbind option_bind].
  do 3 eexists. split; [done|]. cbn [udp_outcome len_in tail] in *. split_and!; [done| |done|lia|done].
  exact (invalid_false _ _ _ Hinv).
Qed.

(** The size of the segments after a merge. *)
Lemma with_size n (it : tcpGROItem) :
  let it' := if n >? t_gsoSize it then it <| t_gsoSize := n |> else it in
  it' <| t_numMerged := u16 (t_numMerged it' + 1) |> =
  it <| t_gsoSize := Z.max n (t_gsoSize it) |> <| t_numMerged := u16 (t_numMerged it + 1) |>.
Proof.
  destruct it as [k s b m g il hlen ps]. cbn -[Z.max u16]. destruct (n >? g) eqn:E; zbool; cbn -[Z.max u16].
  - by rewrite Z.max_l by lia.
  - by rewrite Z.max_r by lia.
Qed.

(** The outcome of merging a segment. *)
Definition tcp_outcome (mode : canCoalesce) (item : tcpGROItem) (r : coalesceResult) (item' : tcpGROItem)
    (bufs' : list In) : Prop :=
  let hl := iph v6 + tcphLen item in
  let size := Z.max (tsize v6 p) (t_gsoSize item) in
  match r with
  | coalesceSuccess =>
      cs_ok e IPPROTO_TCP v6 p = true /\ (t_numMerged item = 0 -> cs_ok e IPPROTO_TCP v6 q = true) /\
      if decide (mode = coalescePrepend) then
        item' = item <| sentSeq := tseq v6 p |> <| t_gsoSize := size |> <| t_numMerged := u16 (t_numMerged item + 1) |> /\
        len_in bi + (len_in bw - off - hl) <= cap bi /\
        bufs' = set_buf (set_buf bufs w (grow bi (drop (Z.to_nat hl) q))) i bw
      else
        item' = item <| pshSet := pshSet item || tpsh v6 p |> <| t_gsoSize := size |>
                  <| t_numMerged := u16 (t_numMerged item + 1) |> /\
        len_in bw + (len_in bi - off - hl) <= cap bw /\
        bufs' = set_buf bufs w (grow (if tpsh v6 p then push off v6 bw else bw) (drop (Z.to_nat hl) p))
  | coalesceItemInvalidCSum =>
      t_numMerged item = 0 /\ cs_ok e IPPROTO_TCP v6 q = false /\ item' = item /\ bufs' = bufs
  | _ => item' = item /\ bufs' = bufs
  end.

Context (item : tcpGROItem) (Ew : t_bufsIndex item = w) (Ei : t_iphLen item = iph v6).
Context (Hh : 20 <= tcphLen item <= 60).

Notation hl := (iph v6 + tcphLen item).

Context (Hne : i <> w) (Li : off + hl <= len_in bi) (Lw : off + hl <= len_in bw).

Lemma tcp_prepend_ok :
  exists r item' bufs',
    tcp_prepend e pkt i (tseq v6 p) (tpsh v6 p) item bufs off v6 hl (len_in bw - off + len_in pkt - hl) =
      Some (r, item', bufs') /\
    match r with
    | coalesceSuccess =>
        cs_ok e IPPROTO_TCP v6 p = true /\ (t_numMerged item = 0 -> cs_ok e IPPROTO_TCP v6 q = true) /\
        item' = item <| sentSeq := tseq v6 p |> /\ len_in bi + (len_in bw - off - hl) <= cap bi /\
        bufs' = set_buf (set_buf bufs w (grow bi (drop (Z.to_nat hl) q))) i bw
    | coalesceItemInvalidCSum =>
        t_numMerged item = 0 /\ cs_ok e IPPROTO_TCP v6 q = false /\ item' = item /\ bufs' = bufs
    | _ => item' = item /\ bufs' = bufs
    end.
Proof.
  pose proof (iph_bounds v6) as Hb. pose proof (zlen_pkt off bw wfw ltac:(lia)) as Hzq. unfold tcp_prepend.
  rewrite Ew, Ei, cap_tail by (first [done|lia]). case_if; [by do 3 eexists|]. destruct (tpsh v6 p); [by do 3 eexists|].
  rewrite item_invalid_eq by lia. cbn [mbind option_bind].
  destruct (if t_numMerged item =? 0 then _ else _) eqn:Hinv.
  { do 3 eexists. split; [done|]. destruct (Z.eqb_spec (t_numMerged item) 0); [|done].
    apply negb_true_iff in Hinv. by split_and!. }
  rewrite pkt_checksum_eq by lia. cbn [mbind option_bind].
  destruct (cs_ok e IPPROTO_TCP v6 p) eqn:Hc; cbn [negb]; [|by do 3 eexists].
  rewrite (buf_from_eq _ _ _ _ Hw) by lia. cbn [mbind option_bind]. rewrite in_bytes_tail by (first [done|lia]).
  assert (pkt_of (off + hl) bw = drop (Z.to_nat hl) q) as ->.
  { unfold pkt_of. rewrite drop_drop. f_equal. lia. }
  assert (zlen (drop (Z.to_nat hl) q) = len_in bw - off - hl) as Hzd by len. cbn [len_in tail] in *.
  rewrite (extend_buf_eq _ _ bi) by (first [done|lia]). cbn [mbind option_bind].
  assert (0 <= i) by (by eapply get_buf_nonneg). rewrite (get_set_buf_ne bufs i w), Hw by done. cbn [mbind option_bind].
  rewrite (get_set_buf _ _ _ _ Hi). cbn [mbind option_bind].
  do 3 eexists. split; [done|]. cbv beta iota. split_and!; [done|exact (invalid_false _ _ _ Hinv)|done|lia|].
  apply get_buf_nonneg in Hw as Hw0. unfold set_buf.
  rewrite (list_insert_insert_ne bufs (Z.to_nat w)) by lia. by rewrite list_insert_insert_eq.
Qed.

(** The PSH flag of an appended segment goes into the head. *)
Lemma tcp_psh_eq :
  (if tpsh v6 p then
     f ← in_at (tail off bw) (u8 (iph v6 + tcpFlagsOffset));
     b ← get_buf bufs w;
     b ← in_set b (off + u8 (iph v6 + tcpFlagsOffset)) (Z.lor f tcpFlagPSH);
     Some (item <| pshSet := tpsh v6 p |>, set_buf bufs w b)
   else Some (item, bufs)) =
  Some (item <| pshSet := pshSet item || tpsh v6 p |>,
        set_buf bufs w (if tpsh v6 p then push off v6 bw else bw)).
Proof.
  pose proof (iph_bounds v6). destruct (tpsh v6 p).
  - rewrite u8_small by (unfold is_u8, tcpFlagsOffset; lia).
    rewrite in_at_eq by (first [apply wf_tail; [done|lia]|unfold tcpFlagsOffset; simpl; lia]).
    cbn [mbind option_bind]. rewrite Hw. cbn [mbind option_bind]. unfold in_set.
    rewrite decide_True by (unfold tcpFlagsOffset; lia). cbn [mbind option_bind].
    rewrite in_bytes_tail by (first [done|lia]). by rewrite orb_true_r.
  - rewrite orb_false_r. f_equal. f_equal; [by destruct item|]. by rewrite set_buf_id.
Qed.

Lemma tcp_append_ok :
  exists r item' bufs',
    tcp_append e pkt (tpsh v6 p) item bufs off v6 hl (len_in bw - off + len_in pkt - hl) = Some (r, item', bufs') /\
    match r with
    | coalesceSuccess =>
        cs_ok e IPPROTO_TCP v6 p = true /\ (t_numMerged item = 0 -> cs_ok e IPPROTO_TCP v6 q = true) /\
        item' = item <| pshSet := pshSet item || tpsh v6 p |> /\ len_in bw + (len_in bi - off - hl) <= cap bw /\
        bufs' = set_buf bufs w (grow (if tpsh v6 p then push off v6 bw else bw) (drop (Z.to_nat hl) p))
    | coalesceItemInvalidCSum =>
        t_numMerged item = 0 /\ cs_ok e IPPROTO_TCP v6 q = false /\ item' = item /\ bufs' = bufs
    | _ => item' = item /\ bufs' = bufs
    end.
Proof.
  pose proof (iph_bounds v6) as Hb. unfold tcp_append. rewrite Ew, Ei.
  rewrite (buf_from_eq _ _ _ _ Hw) by lia. cbn [mbind option_bind]. rewrite cap_tail by (first [done|lia]).
  case_if; [by do 3 eexists|]. rewrite item_invalid_eq by lia. cbn [mbind option_bind].
  destruct (if t_numMerged item =? 0 then _ else _) eqn:Hinv.
  { do 3 eexists. split; [done|]. destruct (Z.eqb_spec (t_numMerged item) 0); [|done].
    apply negb_true_iff in Hinv. by split_and!. }
  rewrite pkt_checksum_eq by lia. cbn [mbind option_bind].
  destruct (cs_ok e IPPROTO_TCP v6 p) eqn:Hc; cbn [negb]; [|by do 3 eexists].
  destruct (pkt_data_eq hl) as (E1 & E2 & Hz); [lia..|]. cbn [len_in tail] in *.
  set (bw' := if tpsh v6 p then push off v6 bw else bw).
  assert (wf_in bw' /\ len_in bw' = len_in bw /\ cap bw' = cap bw) as (wf' & Hlen & Hcap).
  { unfold bw'. destruct (tpsh v6 p); [|done]. split_and!; [apply wf_push|done|apply cap_push]; first [done|lia]. }
  rewrite tcp_psh_eq. cbn [mbind option_bind]. rewrite E1. cbn [mbind option_bind]. rewrite E2.
  change (t_bufsIndex (item <| pshSet := _ |>)) with (t_bufsIndex item). rewrite Ew.
  rewrite (extend_buf_eq _ _ bw') by first [exact (get_set_buf _ _ _ _ Hw)|done|lia]. cbn [mbind option_bind].
  rewrite set_set_buf. do 3 eexists. split; [done|]. cbv beta iota.
  split_and!; [done|exact (invalid_false _ _ _ Hinv)|done|lia|done].
Qed.

Lemma coalesceTCPPackets_ok mode :
  exists r item' bufs',
    coalesceTCPPackets e mode pkt i (tsize v6 p) (tseq v6 p) (tpsh v6 p) item bufs off v6 = Some (r, item', bufs') /\
    tcp_outcome mode item r item' bufs'.
Proof.
  pose proof (iph_bounds v6) as Hb. unfold coalesceTCPPackets, tcp_outcome. rewrite Ew, Ei.
  rewrite (u8_small hl) by (unfold is_u8; lia). rewrite (buf_from_eq _ _ _ _ Hw) by lia.
  cbn [mbind option_bind]. change (len_in (tail off bw)) with (len_in bw - off).
  destruct (decide (mode = coalescePrepend)).
  - destruct tcp_prepend_ok as (r & item' & bufs' & -> & Hr). cbn [mbind option_bind].
    destruct r; try by do 3 eexists. destruct Hr as (H1 & H2 & -> & H3 & ->).
    do 3 eexists. split; [done|]. split_and!; [done|done| |done|done].
    exact (with_size (tsize v6 p) (item <| sentSeq := tseq v6 p |>)).
  - destruct tcp_append_ok as (r & item' & bufs' & -> & Hr). cbn [mbind option_bind].
    destruct r; try by do 3 eexists. destruct Hr as (H1 & H2 & -> & H3 & ->).
    do 3 eexists. split; [done|]. split_and!; [done|done| |done|done].
    exact (with_size (tsize v6 p) (item <| pshSet := pshSet item || tpsh v6 p |>)).
Qed.

End merge.
