(* ===== verification/GroGroups.v ===== *)
(** * Groups of merged packets

    What a merged packet stands for: a run of the packets that came in, with
    headers that agree, data that is contiguous (TCP) and pieces of one size.
    [tcp_item] and [udp_item] tie an item of the tables to its run and to the
    bytes in its buffer; appending and prepending a packet keep them. *)

From stdpp Require Import base numbers list.
From S2P Require Import Prelude Setters Slices Checksum Gso Gro GroBytes GroMerge.

Open Scope Z_scope.

(** ** Lists of pieces *)

(** All pieces but the last have [n] bytes, the last one between 1 and [n]. *)
Fixpoint sized (n : Z) (ds : list (list Z)) : Prop :=
  match ds with
  | [] => False
  | [d] => 1 <= zlen d <= n
  | d :: ds => zlen d = n /\ sized n ds
  end.

Lemma sized_snoc n ds d :
  sized n ds -> zlen (concat ds) mod n = 0 -> 1 <= zlen d <= n ->
  sized n (ds ++ [d]) /\ zlen (concat ds) = n * zlen ds.
Proof.
  intros Hs Hm Hd. induction ds as [|x [|y ds] IH]; [done| |].
  - simpl in *. rewrite app_nil_r in *. assert (zlen x = n) as Hx.
    { destruct (decide (zlen x = n)); [done|]. rewrite Z.mod_small in Hm; lia. }
    split; [done|]. unfold zlen in *. simpl. lia.
  - destruct Hs as [Hx Hs]. change (concat (x :: y :: ds)) with (x ++ concat (y :: ds)) in *.
    rewrite zlen_app, Hx in *. assert (0 < n) by lia.
    rewrite Z.add_comm, <- (Z.mul_1_l n) in Hm at 1. rewrite Z.mod_add in Hm by lia.
    destruct IH as [IH1 IH2]; [done|done|]. split; [by split|]. rewrite IH2. unfold zlen. simpl. lia.
Qed.

Lemma sized_cons n m d ds :
  sized n ds -> zlen d = m -> n <= m -> (zlen ds <= 1 \/ m = n) -> sized m (d :: ds).
Proof.
  intros Hs Hd Hm Hl. destruct ds as [|x ds]; [done|]. split; [done|].
  destruct Hl as [Hl | ->]; [|done]. destruct ds; [|unfold zlen in Hl; simpl in Hl; lia]. simpl in *. lia.
Qed.

Lemma sized_head_pos n d ds : sized n (d :: ds) -> 1 <= zlen d.
Proof.
  revert d. induction ds as [|x ds IH]; intros d; simpl; [lia|]. intros [-> Hs]. pose proof (IH x Hs) as Hx.
  destruct ds; simpl in Hs; lia.
Qed.

Lemma sized_pos n ds : sized n ds -> 0 < n.
Proof.
  induction ds as [|x [|y ds] IH]; simpl; [done|lia|]. intros [_ H]. by apply IH.
Qed.

Lemma last_cons_eq {A} (x d : A) l : List.last (x :: l) d = List.last l x.
Proof.
  revert x d. induction l as [|y l IH]; intros x d; [done|].
  change (List.last (y :: l) d = List.last (y :: l) x). by rewrite !IH.
Qed.

(** ** Runs *)

Section groups.
Context (e : endian) (P : nat -> list Z).

(** Segments whose sequence numbers follow each other from [s] on. *)
Fixpoint chain (v6 : bool) (s : Z) (g : list nat) : Prop :=
  match g with
  | [] => True
  | j :: g => tseq v6 (P j) = s /\ chain v6 (u32 (s + tsize v6 (P j))) g
  end.

(** Two segments with the same flow, options and IP fields. *)
Definition same_headers (v6 : bool) (p q : list Z) : Prop :=
  tkey v6 p = tkey v6 q /\ tcph v6 p = tcph v6 q /\ options v6 (tcph v6 q) p = options v6 (tcph v6 q) q /\
  ip_fields v6 p = ip_fields v6 q.

(** What comes after [hl] bytes of headers. *)
Definition data (hl : Z) (j : nat) : list Z := drop (Z.to_nat hl) (P j).

(** The transport protocol. *)
Definition proto_of (v6 : bool) (p : list Z) : Z := at_ p (if v6 then 6 else 9).

(** A TCP segment of this version that may be merged. *)
Definition segment (v6 : bool) (p : list Z) : Prop :=
  version_ok v6 p = true /\ proto_of v6 p = IPPROTO_TCP /\ tcp_ok v6 p = true /\ zlen p <= 65535 /\ is_bytes p.

(** A run of segments of one flow that merge into one packet of pieces of
    [size] bytes: only the last one may have PSH set, and no checksum is wrong
    when there are two or more. *)
Record tcp_run (v6 : bool) (size : Z) (h : nat) (r : list nat) : Prop := {
  run_segments : Forall (fun j => segment v6 (P j)) (h :: r);
  run_same : Forall (fun j => same_headers v6 (P j) (P h)) (h :: r);
  run_seq : chain v6 (tseq v6 (P h)) (h :: r);
  run_sized : sized size (data (iph v6 + tcph v6 (P h)) <$> h :: r);
  run_psh : Forall (fun j => tpsh v6 (P j) = false) (removelast (h :: r));
  run_valid : r <> [] -> Forall (fun j => cs_ok e IPPROTO_TCP v6 (P j) = true) (h :: r)
}.

(** The packet of a run: the headers of its first segment and all the data. *)
Definition tcp_packet (v6 : bool) (psh : bool) (h : nat) (r : list nat) : list Z :=
  let hl := iph v6 + tcph v6 (P h) in
  let H := take (Z.to_nat hl) (P h) in
  (if psh then with_psh v6 H else H) ++ concat (data hl <$> h :: r).

(** The item describes the run and the packet in its buffer. *)
Record tcp_item (v6 : bool) (it : tcpGROItem) (h : nat) (r : list nat) (q : list Z) : Prop := {
  ti_run : tcp_run v6 (t_gsoSize it) h r;
  ti_key : t_key it = tkey v6 (P h);
  ti_iph : t_iphLen it = iph v6;
  ti_tcph : tcphLen it = tcph v6 (P h);
  ti_num : t_numMerged it = zlen r;
  ti_seq : sentSeq it = tseq v6 (P h);
  ti_psh : pshSet it = tpsh v6 (P (List.last r h));
  ti_pkt : exists psh, q = tcp_packet v6 psh h r /\ (psh = true -> r <> [] /\ tpsh v6 (P (List.last r h)) = true)
}.

Lemma segment_bounds v6 p :
  segment v6 p ->
  20 <= tcph v6 p <= 60 /\ iph v6 + tcph v6 p < zlen p /\ 1 <= tsize v6 p /\ zlen p <= 65535 /\
  zlen (drop (Z.to_nat (iph v6 + tcph v6 p)) p) = tsize v6 p /\ 20 <= iph v6 <= 40.
Proof.
  intros (_ & _ & (_ & H1 & H2 & _)%tcp_ok_inv & H3 & _). pose proof (iph_bounds v6).
  split_and!; [lia..|unfold tsize; lia|lia| |lia|lia]. unfold tsize. len.
Qed.

(** Every segment starts with headers and ends with its data. *)
Lemma segment_split v6 j :
  segment v6 (P j) -> tcp_packet v6 false j [] = P j.
Proof. intros _. unfold tcp_packet, data. simpl. rewrite app_nil_r. apply take_drop. Qed.

Lemma zlen_head v6 psh p :
  segment v6 p ->
  let hl := iph v6 + tcph v6 p in
  let H := take (Z.to_nat hl) p in zlen (if psh : bool then with_psh v6 H else H) = hl.
Proof.
  intros Hs hl H. destruct (segment_bounds _ _ Hs) as (? & ? & ? & ? & ? & ?).
  assert (zlen H = hl) as Hz by (unfold H, hl; len). destruct psh; [|done].
  unfold with_psh. rewrite zlen_splice; [done|unfold tcpFlagsOffset; lia|].
  change (zlen [_]) with 1. unfold tcpFlagsOffset, hl in *. lia.
Qed.

Lemma packet_data v6 psh h r :
  segment v6 (P h) ->
  let hl := iph v6 + tcph v6 (P h) in
  drop (Z.to_nat hl) (tcp_packet v6 psh h r) = concat (data hl <$> h :: r) /\
  zlen (tcp_packet v6 psh h r) = hl + zlen (concat (data hl <$> h :: r)).
Proof.
  intros Hs hl. pose proof (zlen_head v6 psh (P h) Hs) as Hz. unfold tcp_packet. cbv zeta in *.
  split; [|rewrite zlen_app; unfold hl; lia]. rewrite drop_app_length'; [done|]. unfold zlen, hl in *. lia.
Qed.

(** Reading in the headers of a packet, outside the flags. *)
Lemma packet_sub v6 psh h r lo hi :
  segment v6 (P h) -> 0 <= lo <= hi -> hi <= iph v6 + tcph v6 (P h) ->
  (hi <= iph v6 + 13 \/ iph v6 + 14 <= lo) ->
  sub (tcp_packet v6 psh h r) lo hi = sub (P h) lo hi.
Proof.
  intros Hs Hlo Hhi Hout. pose proof (zlen_head v6 psh (P h) Hs) as Hz. cbv zeta in Hz.
  destruct (segment_bounds _ _ Hs) as (? & ? & ? & ? & ? & ?).
  set (T := take (Z.to_nat (iph v6 + tcph v6 (P h))) (P h)) in *.
  assert (sub (tcp_packet v6 psh h r) lo hi = sub (if psh then with_psh v6 T else T) lo hi) as ->.
  { unfold tcp_packet, sub. fold T. rewrite drop_app_le by (unfold zlen in Hz; lia).
    rewrite take_app_le; [done|]. unfold zlen in Hz. len. }
  assert (sub T lo hi = sub (P h) lo hi) as <-.
  { unfold T. rewrite <- sub_0_take, sub_sub by lia. f_equal; lia. }
  destruct psh; [|done]. unfold with_psh. assert (zlen T = iph v6 + tcph v6 (P h)) by (unfold T; len).
  apply sub_splice_out; unfold tcpFlagsOffset; change (zlen [_]) with 1; lia.
Qed.

Lemma packet_at v6 psh h r i :
  segment v6 (P h) -> 0 <= i < iph v6 + tcph v6 (P h) -> i <> iph v6 + 13 -> at_ (tcp_packet v6 psh h r) i = at_ (P h) i.
Proof.
  intros Hs Hi Hne. destruct (segment_bounds _ _ Hs) as (? & ? & ? & ? & ? & ?).
  pose proof (packet_data v6 psh h r Hs) as [_ Hz]. cbv zeta in Hz.
  pose proof (zlen_nonneg (concat (data (iph v6 + tcph v6 (P h)) <$> h :: r))).
  pose proof (packet_sub v6 psh h r i (i + 1) Hs ltac:(lia) ltac:(lia) ltac:(lia)) as E.
  rewrite !sub_single in E by lia. by injection E.
Qed.

Lemma packet_fields v6 psh h r :
  segment v6 (P h) -> ip_fields v6 (tcp_packet v6 psh h r) = ip_fields v6 (P h) /\
  options v6 (tcph v6 (P h)) (tcp_packet v6 psh h r) = options v6 (tcph v6 (P h)) (P h).
Proof.
  intros Hs. destruct (segment_bounds _ _ Hs) as (? & ? & ? & ? & ? & ?). split.
  - unfold ip_fields. destruct v6; simpl in *; rewrite !packet_at by (first [done|simpl; lia]); done.
  - apply packet_sub; [done|lia|lia|lia].
Qed.

Lemma tseq_u32 v6 p : segment v6 p -> is_u32 (tseq v6 p).
Proof.
  intros Hs. destruct (segment_bounds _ _ Hs) as (? & ? & _). destruct Hs as (_ & _ & _ & _ & Hb). pose proof (iph_bounds v6).
  unfold tseq, is_u32.
  pose proof (be_uint_bound (sub p (iph v6 + 4) (iph v6 + 8)) (is_bytes_sub _ _ _ Hb)) as Hu.
  rewrite zlen_sub in Hu by lia. replace (iph v6 + 8 - (iph v6 + 4)) with 4 in Hu by lia. lia.
Qed.

Lemma u32_add x y : u32 (u32 x + y) = u32 (x + y).
Proof. unfold u32. by rewrite Zplus_mod_idemp_l. Qed.

(** One more segment at the end of a chain. *)
Lemma chain_snoc v6 hl s g i :
  is_u32 s -> Forall (fun j => zlen (data hl j) = tsize v6 (P j)) g -> chain v6 s g ->
  tseq v6 (P i) = u32 (s + zlen (concat (data hl <$> g))) -> chain v6 s (g ++ [i]).
Proof.
  intros Hs Hd Hc Hi. revert s Hs Hc Hi. induction Hd as [|j g Hj Hd IH]; intros s Hs Hc Hi.
  - split; [|done]. simpl in Hi. rewrite Z.add_0_r, u32_small in Hi by done. done.
  - destruct Hc as [H1 H2]. split; [done|]. apply IH; [|done|].
    + unfold is_u32, u32. apply Z.mod_pos_bound. lia.
    + rewrite fmap_cons in Hi. cbn [concat] in Hi. rewrite zlen_app in Hi. rewrite u32_add, Hi. f_equal. lia.
Qed.

(** ** The items of TCP flows *)

Lemma packet_snoc v6 psh h r i :
  tcp_packet v6 psh h (r ++ [i]) = tcp_packet v6 psh h r ++ data (iph v6 + tcph v6 (P h)) i.
Proof.
  unfold tcp_packet. rewrite app_comm_cons, fmap_app, concat_app, app_assoc. simpl. by rewrite app_nil_r.
Qed.

Lemma packet_cons v6 psh h r i :
  segment v6 (P h) -> segment v6 (P i) -> tcph v6 (P i) = tcph v6 (P h) ->
  tcp_packet v6 false i (h :: r) = P i ++ drop (Z.to_nat (iph v6 + tcph v6 (P h))) (tcp_packet v6 psh h r).
Proof.
  intros Hh Hi Ht. destruct (packet_data v6 psh h r Hh) as [-> _]. unfold tcp_packet. rewrite Ht.
  change (data ?n <$> i :: h :: r) with (data n i :: (data n <$> h :: r)). cbn [concat].
  rewrite app_assoc. f_equal. apply take_drop.
Qed.

Lemma packet_push v6 h r : segment v6 (P h) -> with_psh v6 (tcp_packet v6 false h r) = tcp_packet v6 true h r.
Proof.
  intros Hs. destruct (segment_bounds _ _ Hs) as (? & ? & _). pose proof (iph_bounds v6).
  pose proof (zlen_head v6 false (P h) Hs) as Hz. cbv zeta iota in Hz. unfold tcp_packet, with_psh.
  set (T := take _ (P h)) in *. unfold tcpFlagsOffset.
  assert (tflags v6 (T ++ concat (data (iph v6 + tcph v6 (P h)) <$> h :: r)) = tflags v6 T) as ->.
  { apply at_app_l. unfold tcpFlagsOffset. lia. }
  apply splice_app; [lia|]. change (zlen [_]) with 1. lia.
Qed.

Lemma same_headers_data v6 h r :
  Forall (fun j => segment v6 (P j)) r -> Forall (fun j => same_headers v6 (P j) (P h)) r ->
  Forall (fun j => zlen (data (iph v6 + tcph v6 (P h)) j) = tsize v6 (P j)) r.
Proof.
  intros H1 H2. apply Forall_forall. intros j Hj. rewrite Forall_forall in H1, H2.
  destruct (H2 j Hj) as (_ & <- & _). by apply segment_bounds, H1.
Qed.

Lemma tcp_item_new v6 i :
  segment v6 (P i) -> Z.of_nat i < 2 ^ 16 -> tcp_item v6 (tcp_new v6 (P i) (Z.of_nat i)) i [] (P i).
Proof.
  intros Hs Hi. pose proof (segment_bounds _ _ Hs) as (? & ? & ? & ? & Hd & ?).
  split; try done.
  - split; try done.
    + by constructor.
    + constructor; [by repeat split|done].
    + simpl. unfold data. rewrite Hd. lia.
  - exists false. split; [|done]. by rewrite segment_split.
Qed.

Lemma item_long v6 it h r q : tcp_item v6 it h r q -> iph v6 + tcph v6 (P h) <= zlen q.
Proof.
  intros [[R1 _ _ _ _ _] _ _ _ _ _ _ (psh & -> & _)]. apply Forall_inv in R1.
  destruct (packet_data v6 psh h r R1) as [_ ->].
  pose proof (zlen_nonneg (concat (data (iph v6 + tcph v6 (P h)) <$> h :: r))). lia.
Qed.

Section item.
Context (v6 : bool) (it : tcpGROItem) (h : nat) (r : list nat) (q : list Z) (i : nat).
Context (Hit : tcp_item v6 it h r q) (Hi : segment v6 (P i)) (Hk : tkey v6 (P i) = t_key it).
Context (Hci : cs_ok e IPPROTO_TCP v6 (P i) = true) (Hcq : t_numMerged it = 0 -> cs_ok e IPPROTO_TCP v6 q = true).

Lemma item_head : segment v6 (P h).
Proof. destruct Hit as [[H _ _ _ _ _]]. by apply Forall_inv in H. Qed.

Lemma item_valid : Forall (fun j => cs_ok e IPPROTO_TCP v6 (P j) = true) (h :: r).
Proof.
  pose proof item_head as Hh. destruct Hit as [[_ _ _ _ _ Hv] _ _ _ Hn _ _ (psh & -> & Hp)]. destruct r as [|x r']; [|by apply Hv].
  constructor; [|done]. destruct psh.
  { destruct Hp as [Hp _]; [reflexivity|]. by destruct Hp. }
  rewrite (segment_split _ _ Hh) in Hcq.
  apply Hcq.
  exact Hn.
Qed.

(** The headers of the segment are those of the head. *)
Lemma item_same can :
  tcp_fits v6 (P i) q it can -> can <> coalesceUnavailable -> same_headers v6 (P i) (P h).
Proof.
  pose proof item_head as Hh. destruct Hit as [_ Hkey _ Ht _ _ _ (psh & -> & _)].
  destruct (packet_fields v6 psh h r Hh) as [E1 E2].
  intros Hf Hne. assert (tcph v6 (P i) = tcph v6 (P h) /\
    options v6 (tcph v6 (P h)) (P i) = options v6 (tcph v6 (P h)) (tcp_packet v6 psh h r) /\
    ip_fields v6 (P i) = ip_fields v6 (tcp_packet v6 psh h r)) as (F1 & F2 & F3).
  { destruct can; [|done|]; unfold tcp_fits in Hf; rewrite Ht in Hf; tauto. }
  split_and!; [congruence|done|congruence|congruence].
Qed.

Notation hl := (iph v6 + tcph v6 (P h)).

(** The sequence number after the item, as the code computes it. *)
Lemma item_end :
  zlen q <= 65535 -> (zlen q - hl) mod t_gsoSize it = 0 ->
  let ds := data hl <$> h :: r in
  u16 (t_gsoSize it + u16 (t_numMerged it * t_gsoSize it)) = zlen (concat ds) /\
  forall d, 1 <= zlen d <= t_gsoSize it -> sized (t_gsoSize it) (ds ++ [d]).
Proof.
  intros Hq Hmod ds. pose proof item_head as Hh.
  destruct Hit as [[_ _ _ R4 _ _] _ _ _ Hn _ _ (psh & -> & _)].
  destruct (packet_data v6 psh h r Hh) as [_ Hz]. fold ds in Hz, R4. rewrite Hz in *.
  replace (hl + zlen (concat ds) - hl) with (zlen (concat ds)) in Hmod by lia.
  destruct (segment_bounds _ _ Hh) as (? & ? & _). pose proof (iph_bounds v6).
  pose proof (sized_pos _ _ R4) as Hpos. split; [|intros d Hd; by apply sized_snoc].
  destruct (sized_snoc _ ds (replicate 1 0) R4 Hmod) as [_ E]; [change (zlen (replicate 1 0)) with 1; lia|].
  assert (zlen ds = zlen r + 1) as Hl by (unfold ds, zlen; rewrite length_fmap; simpl; lia). rewrite Hl in E. rewrite Hn.
  pose proof (zlen_nonneg r). rewrite (u16_small (zlen r * _)) by (unfold is_u16; nia).
  rewrite u16_small by (unfold is_u16; nia). lia.
Qed.

Lemma tcp_run_append :
  zlen q <= 65535 -> tcp_fits v6 (P i) q it coalesceAppend -> tcp_run v6 (t_gsoSize it) h (r ++ [i]).
Proof.
  intros Hq Hf. pose proof item_head as Hh. pose proof item_valid as Hv.
  pose proof (item_same _ Hf ltac:(done)) as Hsame. destruct Hf as (_ & Hseq & Hpsh & Hmod & Hsize).
  assert (tcphLen it = tcph v6 (P h)) as Ht by apply Hit. rewrite Ht in Hmod.
  destruct (item_end Hq Hmod) as [Hend Hsnoc]. rewrite Hend in Hseq.
  destruct Hit as [[R1 R2 R3 R4 R5 R6] _ _ _ _ Hs Hp _].
  assert (zlen (data hl i) = tsize v6 (P i)) as Hd.
  { destruct Hsame as (_ & <- & _). by apply segment_bounds. }
  split; rewrite ?app_comm_cons.
  - apply Forall_app. by split; [|constructor].
  - apply Forall_app. by split; [|constructor].
  - apply chain_snoc with hl; [by apply tseq_u32|by apply same_headers_data|done|]. by rewrite <- Hs.
  - rewrite fmap_app. apply Hsnoc. rewrite Hd. destruct (segment_bounds _ _ Hi) as (_ & _ & ? & _). lia.
  - rewrite removelast_last. rewrite (app_removelast_last h (l := h :: r)) by done.
    apply Forall_app. split; [done|]. constructor; [|done]. rewrite last_cons_eq. congruence.
  - intros _. apply Forall_app. by split; [|constructor].
Qed.

Lemma tcp_item_append :
  zlen q <= 65535 -> t_numMerged it < 65535 -> tcp_fits v6 (P i) q it coalesceAppend ->
  tcp_item v6 (it <| pshSet := pshSet it || tpsh v6 (P i) |> <| t_gsoSize := Z.max (tsize v6 (P i)) (t_gsoSize it) |>
                  <| t_numMerged := u16 (t_numMerged it + 1) |>)
    h (r ++ [i]) ((if tpsh v6 (P i) then with_psh v6 q else q) ++ data hl i).
Proof.
  intros Hq Hnum Hf. pose proof item_head as Hh. pose proof (tcp_run_append Hq Hf) as Hrun.
  destruct Hf as (_ & _ & Hpsh & _ & Hsize). rewrite Z.max_r by done.
  destruct Hit as [_ Hkey Hip Ht Hn Hs Hp (psh & Eq & Hpp)]. split; try done.
  - cbn. rewrite Hn in *. pose proof (zlen_nonneg r). rewrite u16_small by (unfold is_u16; lia).
    by rewrite zlen_app.
  - cbn. by rewrite Hpsh, last_last.
  - exists (tpsh v6 (P i)). rewrite packet_snoc, last_last. split; [|by destruct r].
    destruct psh; [destruct Hpp as [_ ?]; [done|congruence]|]. f_equal. rewrite Eq.
    destruct (tpsh v6 (P i)); [by apply packet_push|done].
Qed.

Lemma tcp_run_prepend :
  tcp_fits v6 (P i) q it coalescePrepend -> tcp_run v6 (tsize v6 (P i)) i (h :: r).
Proof.
  intros Hf. pose proof item_head as Hh. pose proof item_valid as Hv.
  pose proof (item_same _ Hf ltac:(done)) as Hsame. destruct Hf as (_ & Hseq & Hpsh & Hsize & Hone).
  destruct Hit as [[R1 R2 R3 R4 R5 R6] _ _ _ Hn Hs _ _].
  assert (zlen (data hl i) = tsize v6 (P i)) as Hd.
  { destruct Hsame as (_ & <- & _). by apply segment_bounds. }
  split.
  - by constructor.
  - constructor; [by repeat split|]. eapply Forall_impl; [exact R2|]. intros j Hj. cbv beta in *.
    unfold same_headers in *. destruct Hj as (-> & -> & F1 & ->), Hsame as (-> & -> & F2 & ->).
    split_and!; [done|done|congruence|done].
  - split; [done|]. by rewrite Hseq, Hs.
  - destruct Hsame as (_ & -> & _). rewrite (fmap_cons _ i). apply (sized_cons (t_gsoSize it)); [done|done|done|].
    destruct Hone as [H | ->]; [left|by right]. unfold zlen in *. rewrite length_fmap. simpl. lia.
  - by constructor.
  - by constructor.
Qed.

Lemma tcp_item_prepend :
  t_numMerged it < 65535 -> tcp_fits v6 (P i) q it coalescePrepend ->
  tcp_item v6 (it <| sentSeq := tseq v6 (P i) |> <| t_gsoSize := Z.max (tsize v6 (P i)) (t_gsoSize it) |>
                  <| t_numMerged := u16 (t_numMerged it + 1) |>)
    i (h :: r) (P i ++ drop (Z.to_nat hl) q).
Proof.
  intros Hnum Hf. pose proof item_head as Hh. pose proof (tcp_run_prepend Hf) as Hrun.
  pose proof (item_same _ Hf ltac:(done)) as (_ & Ht' & _).
  destruct Hf as (_ & _ & _ & Hsize & _). rewrite Z.max_l by done.
  destruct Hit as [_ Hkey Hip Ht Hn Hs Hp (psh & Eq & Hpp)]. split; try done.
  - cbn. congruence.
  - cbn. rewrite Hn in *. pose proof (zlen_nonneg r). rewrite u16_small by (unfold is_u16; lia).
    unfold zlen. simpl. lia.
  - cbn -[List.last]. by rewrite last_cons_eq.
  - exists false. split; [|done]. rewrite Eq. symmetry. by apply packet_cons.
Qed.

End item.

(** ** The items of UDP flows *)

(** A UDP datagram of this version that may be merged. *)
Definition datagram (v6 : bool) (p : list Z) : Prop :=
  version_ok v6 p = true /\ proto_of v6 p = IPPROTO_UDP /\ udp_ok v6 p = true /\ zlen p <= 65535 /\ is_bytes p.

Notation uhl v6 := (iph v6 + 8).

(** A run of datagrams of one flow. *)
Record udp_run (v6 : bool) (size : Z) (h : nat) (r : list nat) : Prop := {
  urun_datagrams : Forall (fun j => datagram v6 (P j)) (h :: r);
  urun_same : Forall (fun j => ukey v6 (P j) = ukey v6 (P h) /\ ip_fields v6 (P j) = ip_fields v6 (P h)) (h :: r);
  urun_sized : sized size (data (uhl v6) <$> h :: r);
  urun_valid : r <> [] -> Forall (fun j => cs_ok e IPPROTO_UDP v6 (P j) = true) (h :: r)
}.

Definition udp_packet (v6 : bool) (h : nat) (r : list nat) : list Z :=
  take (Z.to_nat (uhl v6)) (P h) ++ concat (data (uhl v6) <$> h :: r).

Record udp_item (v6 : bool) (it : udpGROItem) (h : nat) (r : list nat) (q : list Z) : Prop := {
  ui_run : udp_run v6 (u_gsoSize it) h r;
  ui_key : u_key it = ukey v6 (P h);
  ui_iph : u_iphLen it = iph v6;
  ui_num : u_numMerged it = zlen r;
  ui_pkt : q = udp_packet v6 h r
}.

Lemma datagram_bounds v6 p :
  datagram v6 p ->
  uhl v6 < zlen p /\ 1 <= usize v6 p /\ zlen p <= 65535 /\ zlen (drop (Z.to_nat (uhl v6)) p) = usize v6 p.
Proof.
  intros (_ & _ & (_ & H1 & _)%udp_ok_inv & H2 & _). pose proof (iph_bounds v6). unfold usize, udphLen.
  split_and!; [lia..|]. len.
Qed.

(** No packet is a segment and a datagram. *)
Lemma segment_not_datagram v6 v6' p : segment v6 p -> datagram v6' p -> False.
Proof.
  intros (H1 & H2 & _) (H3 & H4 & _). unfold version_ok, proto_of in *.
  destruct v6, v6'; rewrite ?andb_true_iff, ?Z.eqb_eq in *; destruct_and?; unfold IPPROTO_TCP, IPPROTO_UDP in *; lia.
Qed.

Lemma udp_packet_new v6 h : udp_packet v6 h [] = P h.
Proof. unfold udp_packet, data. simpl. rewrite app_nil_r. apply take_drop. Qed.

Lemma udp_packet_data v6 h r :
  datagram v6 (P h) ->
  zlen (udp_packet v6 h r) = uhl v6 + zlen (concat (data (uhl v6) <$> h :: r)) /\
  ip_fields v6 (udp_packet v6 h r) = ip_fields v6 (P h).
Proof.
  intros Hd. destruct (datagram_bounds _ _ Hd) as (H1 & _). pose proof (iph_bounds v6). unfold udp_packet.
  assert (zlen (take (Z.to_nat (uhl v6)) (P h)) = uhl v6) as Hz by len.
  split; [rewrite zlen_app; lia|].
  assert (forall i, 0 <= i < uhl v6 ->
    at_ (take (Z.to_nat (uhl v6)) (P h) ++ concat (data (uhl v6) <$> h :: r)) i = at_ (P h) i) as Hat.
  { intros i Hi. rewrite at_app_l by lia. rewrite <- sub_0_take, at_sub by lia. f_equal. }
  unfold ip_fields. destruct v6; simpl in *; rewrite !Hat by lia; done.
Qed.

Lemma udp_item_new v6 i invalid :
  datagram v6 (P i) -> Z.of_nat i < 2 ^ 16 -> udp_item v6 (udp_new v6 (P i) (Z.of_nat i) invalid) i [] (P i).
Proof.
  intros Hs Hi. pose proof (datagram_bounds _ _ Hs) as (? & ? & ? & Hd). split; try done.
  - split; [by constructor|by constructor| |done]. simpl. unfold data. rewrite Hd. lia.
  - by rewrite udp_packet_new.
Qed.

Lemma udp_item_append v6 it h r q i :
  udp_item v6 it h r q -> datagram v6 (P i) -> ukey v6 (P i) = u_key it -> udp_fits v6 (P i) q it ->
  cs_ok e IPPROTO_UDP v6 (P i) = true -> (u_numMerged it = 0 -> cs_ok e IPPROTO_UDP v6 q = true) ->
  u_numMerged it < 65535 ->
  udp_item v6 (it <| u_numMerged := u16 (u_numMerged it + 1) |>) h (r ++ [i]) (q ++ data (uhl v6) i).
Proof.
  intros [[R1 R2 R3 R4] Hk Hip Hn ->] Hi Hki (Hf & Hmod & Hsize) Hci Hcq Hnum.
  pose proof (Forall_inv R1) as Hh. destruct (udp_packet_data v6 h r Hh) as [Hz Hfields]. rewrite Hz in Hmod.
  replace (uhl v6 + _ - uhl v6) with (zlen (concat (data (uhl v6) <$> h :: r))) in Hmod by lia.
  destruct (datagram_bounds _ _ Hi) as (? & ? & ? & Hd).
  destruct (sized_snoc _ _ (data (uhl v6) i) R3 Hmod) as [Hs _]; [unfold data; lia|].
  split; try done.
  - split; rewrite ?app_comm_cons.
    + apply Forall_app. by split; [|constructor].
    + apply Forall_app. split; [done|]. constructor; [|done]. split; congruence.
    + by rewrite fmap_app.
    + intros _. apply Forall_app. split; [|by constructor]. destruct r as [|x r']; [|by apply R4].
      constructor; [|done]. rewrite udp_packet_new in Hcq. by apply Hcq.
  - cbn. rewrite Hn in *. pose proof (zlen_nonneg r). rewrite u16_small by (unfold is_u16; lia).
    by rewrite zlen_app.
  - unfold udp_packet. rewrite app_comm_cons, fmap_app, concat_app, app_assoc. f_equal. simpl. by rewrite app_nil_r.
Qed.

End groups.
