(* ===== verification/GroTable.v ===== *)
(** * The flow tables

    The items of a table and what the operations on it change: the items after
    an insertion, an update or a deletion are the others and the new one. *)

From stdpp Require Import base numbers list.
From S2P Require Import Prelude Slices Gro.

Open Scope Z_scope.

Section flows.
Context {K I : Type} `{EqDecision K}.

(** All items of the flows. *)
Definition all_items (l : list (K * list I)) : list I := concat (snd <$> l).

Lemma find_set_flow (l : list (K * list I)) k items : find_flow (set_flow l k items) k = Some items.
Proof.
  induction l as [|[k' old] l IH]; simpl; [by rewrite decide_True|].
  destruct (decide (k' = k)); simpl; [by rewrite decide_True|by rewrite decide_False].
Qed.

Lemma find_set_flow_ne (l : list (K * list I)) k k' items :
  k <> k' -> find_flow (set_flow l k items) k' = find_flow l k'.
Proof.
  intros Hne. induction l as [|[k0 old] l IH]; simpl; [by rewrite decide_False|].
  destruct (decide (k0 = k)) as [->|]; simpl; [by rewrite !decide_False|]. by destruct (decide (k0 = k')).
Qed.

(** What the other flows hold does not change. *)
Lemma set_flow_found (l : list (K * list I)) k items :
  find_flow l k = Some items ->
  exists rest, all_items l ≡ₚ items ++ rest /\
    forall items', all_items (set_flow l k items') ≡ₚ items' ++ rest /\ length (set_flow l k items') = length l.
Proof.
  induction l as [|[k' old] l IH]; simpl; [done|]. destruct (decide (k' = k)).
  - intros [= ->]. exists (all_items l). split; [done|]. done.
  - intros (rest & H1 & H2)%IH. exists (old ++ rest). split.
    + unfold all_items in *. simpl. rewrite H1. apply Permutation_app_swap_app.
    + intros items'. destruct (H2 items') as [H3 H4]. unfold all_items in *. simpl. rewrite H3, H4.
      split; [apply Permutation_app_swap_app|done].
Qed.

Lemma set_flow_new (l : list (K * list I)) k items' :
  find_flow l k = None ->
  all_items (set_flow l k items') ≡ₚ items' ++ all_items l /\ length (set_flow l k items') = S (length l).
Proof.
  unfold all_items. induction l as [|[k' old] l IH]; simpl; [done|]. destruct (decide (k' = k)); [done|].
  intros [H1 H2]%IH. simpl. rewrite H1, H2. split; [apply Permutation_app_swap_app|done].
Qed.

Lemma find_flow_items (l : list (K * list I)) k items it :
  find_flow l k = Some items -> it ∈ items -> it ∈ all_items l.
Proof.
  intros (rest & H1 & _)%set_flow_found Hit. rewrite H1. apply elem_of_app. by left.
Qed.

(** Every item is in the flow of its key. *)
Definition keyed (key : I -> K) (l : list (K * list I)) : Prop :=
  Forall (fun f => Forall (fun it => key it = f.1) f.2) l.

Lemma keyed_set key l k items :
  keyed key l -> Forall (fun it => key it = k) items -> keyed key (set_flow l k items).
Proof.
  intros Hl Hi. induction Hl as [|[k' old] l H Hl IH]; simpl; [by constructor|].
  destruct (decide (k' = k)) as [->|]; by constructor.
Qed.

Lemma keyed_find key l k items : keyed key l -> find_flow l k = Some items -> Forall (fun it => key it = k) items.
Proof.
  induction 1 as [|[k' old] l H Hl IH]; simpl; [done|]. destruct (decide (k' = k)) as [->|]; [|done].
  by intros [= <-].
Qed.

(** A table whose flows and pool together have [IdealBatchSize] slices, and at
    most [k] flows. *)
Definition stocked (k : Z) (t : GROTable K I) : Prop :=
  itemsPool t + zlen (itemsByFlow t) = IdealBatchSize /\ zlen (itemsByFlow t) <= k.

Lemma stocked_le k k' t : stocked k t -> k <= k' -> stocked k' t.
Proof. unfold stocked. lia. Qed.

(** An insertion succeeds while there are fewer flows than slices. *)
Lemma insert_item_ok key t k it n :
  stocked n t -> n < IdealBatchSize -> keyed key (itemsByFlow t) -> key it = k ->
  exists t', insert_item t k it = Some t' /\ stocked (n + 1) t' /\ keyed key (itemsByFlow t') /\
    all_items (itemsByFlow t') ≡ₚ it :: all_items (itemsByFlow t) /\
    find_flow (itemsByFlow t') k = Some (default [] (find_flow (itemsByFlow t) k) ++ [it]) /\
    (forall k', k' <> k -> find_flow (itemsByFlow t') k' = find_flow (itemsByFlow t) k').
Proof.
  intros [Hp Hn] Hlt Hk Hit. unfold insert_item, newItems. destruct (find_flow (itemsByFlow t) k) as [items|] eqn:Hf.
  - eexists. split; [done|]. cbn. destruct (set_flow_found _ _ _ Hf) as (rest & H1 & H2).
    destruct (H2 (items ++ [it])) as [H3 H4]. pose proof (keyed_find _ _ _ _ Hk Hf) as Hki. split_and!.
    + unfold stocked, zlen in *. cbn. lia.
    + apply keyed_set; [done|]. apply Forall_app. by split; [|constructor].
    + rewrite H3, H1, <- app_assoc. symmetry. apply Permutation_middle.
    + apply find_set_flow.
    + intros k' Hne. by apply find_set_flow_ne.
  - replace (itemsPool t >? 0) with true by (unfold zlen in *; lia). eexists. split; [done|]. cbn.
    destruct (set_flow_new _ _ [it] Hf) as [H3 H4]. split_and!.
    + unfold stocked, zlen in *. cbn. lia.
    + apply keyed_set; [done|]. by constructor.
    + by rewrite H3.
    + apply find_set_flow.
    + intros k' Hne. by apply find_set_flow_ne.
Qed.

(** Replacing an item. *)
Lemma update_item_ok key t k items i it it' n :
  stocked n t -> keyed key (itemsByFlow t) -> find_flow (itemsByFlow t) k = Some items -> items !! i = Some it ->
  key it' = k ->
  exists t' rest, update_item t k it' i = Some t' /\ stocked n t' /\ keyed key (itemsByFlow t') /\
    all_items (itemsByFlow t) ≡ₚ it :: rest /\ all_items (itemsByFlow t') ≡ₚ it' :: rest /\
    find_flow (itemsByFlow t') k = Some (<[i := it']> items) /\
    (forall k', k' <> k -> find_flow (itemsByFlow t') k' = find_flow (itemsByFlow t) k').
Proof.
  intros [Hp Hn] Hk Hf Hi Hit. unfold update_item. rewrite Hf. cbn.
  apply lookup_lt_Some in Hi as Hlt. rewrite decide_True by done.
  destruct (set_flow_found _ _ _ Hf) as (rest & H1 & H2). destruct (H2 (<[i := it']> items)) as [H3 H4].
  eexists _, (delete i items ++ rest). split; [done|]. cbn. split_and!.
  - unfold stocked, zlen in *. cbn. lia.
  - apply keyed_set; [done|]. apply Forall_insert; [by eapply keyed_find|done].
  - by rewrite H1, (delete_Permutation items i it) at 1.
  - rewrite H3. rewrite (delete_Permutation (<[i := it']> items) i it') by (by apply list_lookup_insert_eq).
    simpl.
    by rewrite !delete_take_drop, take_insert_ge, drop_insert_lt by lia.
  - apply find_set_flow.
  - intros k' Hne. by apply find_set_flow_ne.
Qed.

(** Deleting an item. *)
Lemma delete_item_ok key t k items i it n :
  stocked n t -> keyed key (itemsByFlow t) -> find_flow (itemsByFlow t) k = Some items -> items !! i = Some it ->
  exists t', delete_item t k i = Some t' /\ stocked n t' /\ keyed key (itemsByFlow t') /\
    all_items (itemsByFlow t) ≡ₚ it :: all_items (itemsByFlow t') /\
    find_flow (itemsByFlow t') k = Some (delete i items).
Proof.
  intros [Hp Hn] Hk Hf Hi. unfold delete_item. rewrite Hf. cbn.
  apply lookup_lt_Some in Hi as Hlt. rewrite decide_True by done.
  destruct (set_flow_found _ _ _ Hf) as (rest & H1 & H2). destruct (H2 (delete i items)) as [H3 H4].
  eexists. split; [done|]. cbn. split_and!.
  - unfold stocked, zlen in *. cbn. lia.
  - apply keyed_set; [done|]. apply Forall_delete. by eapply keyed_find.
  - by rewrite H3, H1, (delete_Permutation items i it) at 1.
  - apply find_set_flow.
Qed.

End flows.
