(* ===== verification/GroCore.v ===== *)
(** * The state of a batch

    While [handleGRO] works through a batch, every packet seen so far is in one
    group of packets to write, the items of the tables describe the groups that
    may still grow, and the other buffers hold the packets that came in. The
    lemmas are the four ways this state changes: a packet becomes a group of
    its own with or without an item, joins a group, or its item is dropped. *)

From stdpp Require Import base numbers list.
From S2P Require Import Prelude Setters Slices Checksum Gso Gro GroBytes GroMerge GroGroups.

Open Scope Z_scope.

(** An item of either table. *)
Definition item : Type := tcpGROItem + udpGROItem.

Definition idx (x : item) : Z := match x with inl it => t_bufsIndex it | inr it => u_bufsIndex it end.

(** The groups to write: the buffer of each, and the packets it stands for. *)
Notation groups := (list (nat * list nat)).

Lemma elem_of_concat {A} (x : A) ls : x ∈ concat ls <-> exists l, l ∈ ls /\ x ∈ l.
Proof.
  rewrite list_elem_of_In, in_concat. by setoid_rewrite list_elem_of_In.
Qed.

Section core.
Context (e : endian) (off : Z) (orig : list In).

(** The packets that came in. *)
Definition packets (j : nat) : list Z := pkt_of off (default (mkIn [] 0) (orig !! j)).

Notation P := packets.

(** The item describes the group [g] written from buffer [w], whose packet is
    [q]. *)
Definition describes (x : item) (w : nat) (g : list nat) (q : list Z) : Prop :=
  exists v6 h r, g = h :: r /\ (r = [] -> h = w) /\
    match x with
    | inl it => tcp_item e P v6 it h r q
    | inr it => udp_item e P v6 it h r q
    end.

Definition tracked (bufs : list In) (out : groups) (x : item) : Prop :=
  exists w g b, idx x = Z.of_nat w /\ (w, g) ∈ out /\ bufs !! w = Some b /\ describes x w g (pkt_of off b).

(** The bytes in front of the packet, where the virtio-net header goes. *)
Definition front (b : In) : list Z := sub (in_bytes b) (off - virtioNetHdrLen) off.

(** A group of one packet as it came in, with no item. It has an empty
    virtio-net header, unless it is a segment with a wrong checksum. *)
Definition alone (bufs : list In) (w : nat) (g : list nat) : Prop :=
  g = [w] /\ exists b, bufs !! w = Some b /\ pkt_of off b = P w /\
    (front b = hdr_bytes e hdr_none \/ exists v6, segment v6 (P w) /\ cs_ok e IPPROTO_TCP v6 (P w) = false).

Definition buf_ok (b : In) : Prop := wf_in b /\ off < len_in b.

Record Core (k : nat) (bufs : list In) (its : list item) (out : groups) : Prop := {
  c_len : length bufs = length orig;
  c_bufs : Forall buf_ok bufs;
  c_rest : forall j, (k <= j)%nat -> bufs !! j = orig !! j;
  c_nodup : NoDup (fst <$> out);
  c_lt : Forall (fun en => (en.1 < k)%nat) out;
  c_perm : concat (snd <$> out) ≡ₚ seq 0 k;
  c_idx : NoDup (idx <$> its);
  c_its : Forall (tracked bufs out) its;
  c_alone : forall w g, (w, g) ∈ out -> Z.of_nat w ∈ idx <$> its \/ alone bufs w g
}.

#[global] Instance Core_proper k bufs : Proper ((≡ₚ) ==> (=) ==> iff) (Core k bufs).
Proof.
  assert (forall a b out, a ≡ₚ b -> Core k bufs a out -> Core k bufs b out) as H.
  { intros a b out Hab [? ? ? ? ? ? H1 H2 H3]. split; try done.
    - by rewrite <- Hab.
    - by rewrite <- Hab.
    - intros w g Hg. rewrite <- Hab. by apply H3. }
  intros a b Hab out ? <-. split; apply H; [done|by symmetry].
Qed.

(** ** Lookups in groups *)

Lemma entry_unique (out : groups) w g g' : NoDup (fst <$> out) -> (w, g) ∈ out -> (w, g') ∈ out -> g = g'.
Proof.
  intros Hnd (i & Hi)%list_elem_of_lookup (j & Hj)%list_elem_of_lookup.
  assert (i = j) as ->; [|congruence].
  eapply NoDup_lookup; [exact Hnd| |]; rewrite list_lookup_fmap; [by rewrite Hi|by rewrite Hj].
Qed.

Lemma concat_insert (out : groups) i w g g' :
  out !! i = Some (w, g) ->
  let A := concat (snd <$> take i out) in
  let B := concat (snd <$> drop (S i) out) in
  concat (snd <$> out) = A ++ g ++ B /\ concat (snd <$> <[i := (w, g')]> out) = A ++ g' ++ B.
Proof.
  intros Hi. apply lookup_lt_Some in Hi as Hlt. split.
  - rewrite <- (take_drop_middle _ _ _ Hi) at 1. rewrite fmap_app, concat_app. done.
  - rewrite insert_take_drop by done. rewrite fmap_app, concat_app. done.
Qed.

Lemma fst_insert (out : groups) i w g g' : out !! i = Some (w, g) -> fst <$> <[i := (w, g')]> out = fst <$> out.
Proof.
  intros Hi. rewrite list_fmap_insert. simpl. apply list_insert_id. rewrite list_lookup_fmap, Hi. done.
Qed.

Lemma insert_entries (out : groups) i w g g' en :
  out !! i = Some (w, g) -> NoDup (fst <$> out) ->
  en ∈ <[i := (w, g')]> out <-> en = (w, g') \/ (en ∈ out /\ en.1 <> w).
Proof.
  intros Hi Hnd. rewrite !list_elem_of_lookup. split.
  - intros (j & Hj). destruct (decide (i = j)) as [<-|Hne].
    + left. rewrite list_lookup_insert_eq in Hj by (by eapply lookup_lt_Some). congruence.
    + right. rewrite list_lookup_insert_ne in Hj by done. split; [by exists j|].
      intros Ew. apply Hne. eapply NoDup_lookup; [exact Hnd| |]; rewrite list_lookup_fmap; [by rewrite Hi|].
      rewrite Hj. simpl. by rewrite Ew.
  - intros [-> | [(j & Hj) Hw]].
    + exists i. apply list_lookup_insert_eq. by eapply lookup_lt_Some.
    + exists j. rewrite list_lookup_insert_ne; [done|]. intros <-. rewrite Hi in Hj. by injection Hj as <-.
Qed.

(** ** How the state changes *)

Lemma tracked_lt k bufs its out x w :
  Core k bufs its out -> x ∈ its -> idx x = Z.of_nat w -> (w < k)%nat.
Proof.
  intros C Hx Hw. pose proof (c_its _ _ _ _ C) as H. rewrite Forall_forall in H.
  destruct (H x Hx) as (w' & g & b & Hi & Hg & _). assert (w = w') as -> by lia.
  pose proof (c_lt _ _ _ _ C) as Hlt. rewrite Forall_forall in Hlt. by apply (Hlt _ Hg).
Qed.

Lemma not_indexed k bufs its out x : Core k bufs its out -> idx x = Z.of_nat k -> idx x ∉ idx <$> its.
Proof.
  intros C Hx (y & Hy & Hin)%list_elem_of_fmap. rewrite Hx in Hy. symmetry in Hy.
  pose proof (tracked_lt _ _ _ _ _ _ C Hin Hy). lia.
Qed.

Lemma tracked_frame bufs bufs' out out' x :
  tracked bufs out x -> (forall w g, (w, g) ∈ out -> idx x = Z.of_nat w -> (w, g) ∈ out' /\ bufs' !! w = bufs !! w) ->
  tracked bufs' out' x.
Proof.
  intros (w & g & b & Hi & Hg & Hb & Hd) H. destruct (H w g Hg Hi) as [H1 H2].
  exists w, g, b. split_and!; [done|done|congruence|done].
Qed.

Lemma seq_snoc k : seq 0 (S k) = seq 0 k ++ [k].
Proof. by rewrite seq_S. Qed.

(** The entries of the groups after a packet of its own is added. *)
Lemma add_entry k bufs its out :
  Core k bufs its out ->
  NoDup (fst <$> out ++ [(k, [k])]) /\ Forall (fun en => (en.1 < S k)%nat) (out ++ [(k, [k])]) /\
  concat (snd <$> out ++ [(k, [k])]) ≡ₚ seq 0 (S k).
Proof.
  intros [_ _ _ Hnd Hlt Hp _ _ _]. split_and!.
  - rewrite fmap_app. apply NoDup_app. split_and!; [done| |apply NoDup_singleton].
    intros w Hw. simpl. rewrite list_elem_of_singleton. intros ->.
    apply list_elem_of_fmap in Hw as ([w g] & -> & Hin). rewrite Forall_forall in Hlt.
    pose proof (Hlt _ Hin). simpl in *. lia.
  - apply Forall_app. split; [|by repeat constructor; simpl; lia]. eapply Forall_impl; [exact Hlt|].
    intros [w g]. simpl. lia.
  - rewrite fmap_app, concat_app, seq_snoc, Hp. done.
Qed.

(** A packet gets an item of its own. *)
Lemma core_add_item k bufs its out x b :
  Core k bufs its out -> idx x = Z.of_nat k -> bufs !! k = Some b -> describes x k [k] (pkt_of off b) ->
  Core (S k) bufs (x :: its) (out ++ [(k, [k])]).
Proof.
  intros C Hx Hb Hd. destruct (add_entry _ _ _ _ C) as (H1 & H2 & H3).
  pose proof (not_indexed _ _ _ _ _ C Hx) as Hni. destruct C as [? ? Hr ? ? ? ? Hits Hal]. split; try done.
  - intros j Hj. apply Hr. lia.
  - rewrite fmap_cons. by constructor.
  - constructor.
    + exists k, [k], b. split_and!; try done. apply elem_of_app. right. by apply list_elem_of_singleton.
    + eapply Forall_impl; [exact Hits|]. intros y Hy. apply (tracked_frame bufs bufs out); [done|].
      intros w g Hg _. split; [|done]. apply elem_of_app. by left.
  - intros w g [Hg|Hg]%elem_of_app.
    + destruct (Hal w g Hg) as [Ha|Ha]; [left|by right]. rewrite fmap_cons. by right.
    + apply list_elem_of_singleton in Hg as [= -> ->]. left. rewrite fmap_cons, Hx. by left.
Qed.

(** A packet is written as it is. *)
Lemma core_add_alone k bufs its out b :
  Core k bufs its out -> (k < length orig)%nat -> buf_ok b -> pkt_of off b = P k ->
  front b = hdr_bytes e hdr_none -> Core (S k) (<[k := b]> bufs) its (out ++ [(k, [k])]).
Proof.
  intros C Hk Hb Hp Hfr. destruct (add_entry _ _ _ _ C) as (H1 & H2 & H3).
  destruct C as [Hl Hbs Hr ? Hlt ? ? Hits Hal]. rewrite Forall_forall in Hlt. split; try done.
  - by rewrite length_insert.
  - by apply Forall_insert.
  - intros j Hj. rewrite list_lookup_insert_ne by lia. apply Hr. lia.
  - eapply Forall_impl; [exact Hits|]. intros y Hy. apply (tracked_frame bufs _ out); [done|].
    intros w g Hg _. pose proof (Hlt _ Hg). simpl in *. split; [|apply list_lookup_insert_ne; lia].
    apply elem_of_app. by left.
  - intros w g [Hg|Hg]%elem_of_app.
    + destruct (Hal w g Hg) as [Ha|(-> & b' & Hb' & Hp')]; [by left|right]. pose proof (Hlt _ Hg). simpl in *.
      split; [done|]. exists b'. by rewrite list_lookup_insert_ne by lia.
    + apply list_elem_of_singleton in Hg as [= -> ->]. right. split; [done|]. exists b. split_and!; [|done|by left].
      apply list_lookup_insert_eq. lia.
Qed.

(** A packet joins the group of an item. *)
Lemma core_grow k bufs its out x x' i w g g' bufs' b' :
  Core k bufs (x :: its) out -> idx x = Z.of_nat w -> idx x' = Z.of_nat w -> out !! i = Some (w, g) -> g' ≡ₚ g ++ [k] ->
  length bufs' = length bufs -> Forall buf_ok bufs' -> (forall j, j <> w -> j <> k -> bufs' !! j = bufs !! j) ->
  bufs' !! w = Some b' -> describes x' w g' (pkt_of off b') ->
  Core (S k) bufs' (x' :: its) (<[i := (w, g')]> out).
Proof.
  intros C Hx Hx' Hi Hg Hlen Hbs Hsame Hb' Hd.
  pose proof (tracked_lt _ _ _ _ x w C ltac:(left) Hx) as Hwk.
  destruct C as [Hl _ Hr Hnd Hlt Hp Hidx Hits Hal]. pose proof Hlt as Hlt'. rewrite Forall_forall in Hlt'.
  rewrite fmap_cons in Hidx. apply NoDup_cons in Hidx as [Hni Hidx]. apply Forall_cons in Hits as [_ Hits].
  assert (forall y v, y ∈ its -> idx y = Z.of_nat v -> v <> w) as Hother.
  { intros y v Hy Hv ->. apply Hni. rewrite Hx, <- Hv. by apply list_elem_of_fmap_2. }
  split; try done.
  - lia.
  - intros j Hj. rewrite Hsame by lia. apply Hr. lia.
  - by rewrite (fst_insert _ _ _ _ _ Hi).
  - apply Forall_insert; [|simpl; lia]. eapply Forall_impl; [exact Hlt|]. intros [v ?]. simpl. lia.
  - destruct (concat_insert out i w g g' Hi) as (EA & EB). rewrite EB, Hg, seq_snoc, <- Hp, EA.
    rewrite <- !app_assoc. do 2 f_equiv. apply Permutation_app_comm.
  - rewrite fmap_cons, Hx'. constructor; [by rewrite <- Hx|done].
  - constructor.
    + exists w, g', b'. split_and!; try done. apply (insert_entries _ _ _ _ _ _ Hi Hnd). by left.
    + apply Forall_forall. intros y Hy. rewrite Forall_forall in Hits. apply (tracked_frame bufs _ out); [by apply Hits|].
      intros v gv Hv Hyv. pose proof (Hother y v Hy Hyv). pose proof (Hlt' _ Hv). simpl in *. split.
      * apply (insert_entries _ _ _ _ _ _ Hi Hnd). by right.
      * apply Hsame; lia.
  - intros v gv Hv. apply (insert_entries _ _ _ _ _ _ Hi Hnd) in Hv as [[= -> ->] | [Hv Hne]].
    + left. rewrite fmap_cons, Hx'. by left.
    + simpl in Hne. destruct (Hal v gv Hv) as [Ha|(-> & b & Hb & Hpb)].
      * left. rewrite fmap_cons in *. apply elem_of_cons in Ha as [Ha|Ha]; [|by right]. lia.
      * right. split; [done|]. exists b. pose proof (Hlt' _ Hv). simpl in *. by rewrite Hsame by lia.
Qed.

(** The item of a single packet is dropped. *)
Lemma core_drop k bufs its out x :
  Core k bufs (x :: its) out -> (forall w g, (w, g) ∈ out -> idx x = Z.of_nat w -> alone bufs w g) ->
  Core k bufs its out.
Proof.
  intros [? ? ? ? ? ? Hidx Hits Hal] H. rewrite fmap_cons in Hidx. split; try done.
  - by apply NoDup_cons in Hidx as [_ ?].
  - by apply Forall_cons in Hits as [_ ?].
  - intros w g Hg. destruct (Hal w g Hg) as [Ha|Ha]; [|by right]. rewrite fmap_cons in Ha.
    apply elem_of_cons in Ha as [Ha|Ha]; [right; by apply H|by left].
Qed.

End core.
