(* ===== verification/GroOrder.v ===== *)
(** * The order of datagrams

    TCP segments may be merged out of order, datagrams may not: a datagram joins
    only the last group of its flow, so that the datagrams of a flow are written
    in the order they came in. *)

From stdpp Require Import base numbers list.
From S2P Require Import Prelude Setters Slices Gso Gro GroBytes GroGroups GroTable GroCore.

Open Scope Z_scope.

Section order.
Context (P : nat -> list Z) (canUDP : bool).

(** Packet [j] is a datagram of the flow, and datagrams are merged. *)
Definition in_flow (key : udpFlowKey) (j : nat) : Prop :=
  canUDP = true /\ datagram (u_isV6 key) (P j) /\ ukey (u_isV6 key) (P j) = key.

(** The order in which the packets of the groups are written. *)
Definition written (out : groups) : list nat := concat (snd <$> out).

Record Ord (k : nat) (u : udpGROTable) (out : groups) : Prop := {
  o_items : forall key items, find_flow (itemsByFlow u) key = Some items -> items <> [];
  o_before : forall key a b, in_flow key a -> in_flow key b -> (a < b < k)%nat -> sublist [a; b] (written out);
  o_last : forall key items it i w g j en x, find_flow (itemsByFlow u) key = Some items -> last items = Some it ->
    u_bufsIndex it = Z.of_nat w -> out !! i = Some (w, g) -> (i < j)%nat -> out !! j = Some en -> x ∈ en.2 ->
    in_flow key x -> False
}.

Lemma in_flow_unique key key' j : in_flow key j -> in_flow key' j -> key = key'.
Proof.
  intros (_ & (H1 & _) & H2) (_ & (H3 & _) & H4). assert (u_isV6 key = u_isV6 key') as Hv; [|congruence].
  unfold version_ok in *. destruct (u_isV6 key), (u_isV6 key'); rewrite ?andb_true_iff, ?Z.eqb_eq in *; [done| | |done].
  all: destruct_and?; lia.
Qed.

(** A packet that is in no flow is added on its own. *)
Lemma ord_add_other k u out : Ord k u out -> (forall key, ~ in_flow key k) -> Ord (S k) u (out ++ [(k, [k])]).
Proof.
  intros [H1 H2 H3] Hno. split; [done| |].
  - intros key a b Ha Hb Hab. unfold written. rewrite fmap_app, concat_app.
    destruct (decide (b = k)) as [->|]; [by destruct (Hno key)|].
    transitivity (written out); [apply (H2 key); [done|done|lia]|]. by apply sublist_inserts_r.
  - intros key items it i w g j en x Hf Hl Hw Hi Hij Hj Hx Hin. apply lookup_app_Some in Hj as [Hj|[Hle Hj]].
    + rewrite lookup_app_l in Hi by (apply lookup_lt_Some in Hj; lia). by eapply H3.
    + apply list_lookup_singleton_Some in Hj as [_ <-]. simpl in Hx. apply list_elem_of_singleton in Hx as ->.
      by apply (Hno key).
Qed.

(** A datagram gets an item of its own, the last one of its flow. *)
Lemma ord_add_item k u u' out key it items :
  Ord k u out -> in_flow key k -> u_bufsIndex it = Z.of_nat k -> written out ≡ₚ seq 0 k ->
  Forall (fun en => (en.1 < k)%nat) out ->
  find_flow (itemsByFlow u') key = Some (items ++ [it]) ->
  (forall key', key' <> key -> find_flow (itemsByFlow u') key' = find_flow (itemsByFlow u) key') ->
  Ord (S k) u' (out ++ [(k, [k])]).
Proof.
  intros [H1 H2 H3] Hk Hidx Hp Hlt Hf Hother. split.
  - intros key' items' Hf'. destruct (decide (key' = key)) as [->|Hne].
    + rewrite Hf in Hf'. injection Hf' as <-. by destruct items.
    + rewrite Hother in Hf' by done. by eapply H1.
  - intros key' a b Ha Hb Hab. unfold written. rewrite fmap_app, concat_app.
    destruct (decide (b = k)) as [->|].
    + apply (sublist_app [a] _ [k]); [|done]. apply singleton_sublist_l. fold (written out). rewrite Hp.
      apply elem_of_seq. lia.
    + transitivity (written out); [apply (H2 key'); [done|done|lia]|]. by apply sublist_inserts_r.
  - intros key' items' it' i w g j en x Hf' Hl Hw Hi Hij Hj Hx Hin.
    destruct (decide (key' = key)) as [->|Hne].
    + rewrite Hf in Hf'. injection Hf' as <-. rewrite last_snoc in Hl. injection Hl as <-.
      assert (w = k) as -> by lia. apply lookup_app_Some in Hi as [Hi|[Hle Hi]].
      * apply (list_elem_of_lookup_2 _ _ _) in Hi. rewrite Forall_forall in Hlt.
        pose proof (Hlt _ Hi). simpl in *. lia.
      * apply lookup_lt_Some in Hj. rewrite length_app in Hj. simpl in Hj. apply list_lookup_singleton_Some in Hi as [? _].
        lia.
    + rewrite Hother in Hf' by done. apply lookup_app_Some in Hj as [Hj|[Hle Hj]].
      * rewrite lookup_app_l in Hi by (apply lookup_lt_Some in Hj; lia). by eapply H3.
      * apply list_lookup_singleton_Some in Hj as [_ <-]. simpl in Hx. apply list_elem_of_singleton in Hx as ->.
        apply Hne. by apply (in_flow_unique _ _ k).
Qed.

(** The entries after a group has grown. *)
Lemma lookup_grown (out : groups) i w g g' j v x :
  out !! i = Some (w, g) -> <[i := (w, g')]> out !! j = Some (v, x) ->
  (j = i /\ v = w /\ x = g') \/ (j <> i /\ out !! j = Some (v, x)).
Proof.
  intros Hi Hj. destruct (decide (j = i)) as [->|Hne]; [left|right].
  - rewrite list_lookup_insert_eq in Hj by (by eapply lookup_lt_Some). by injection Hj as <- <-.
  - by rewrite list_lookup_insert_ne in Hj by done.
Qed.

(** What is written is inserted, not reordered. *)
Lemma written_grown (out : groups) i w g g' :
  out !! i = Some (w, g) -> sublist g g' -> sublist (written out) (written (<[i := (w, g')]> out)).
Proof.
  intros Hi Hg. destruct (concat_insert out i w g g' Hi) as [EA EB]. unfold written. rewrite EA, EB.
  apply sublist_app; [done|]. by apply sublist_app.
Qed.

(** A packet that is in no flow joins a group. *)
Lemma ord_grow_other k u out i w g g' :
  Ord k u out -> (forall key, ~ in_flow key k) -> out !! i = Some (w, g) -> sublist g g' -> g' ≡ₚ g ++ [k] ->
  Ord (S k) u (<[i := (w, g')]> out).
Proof.
  intros [H1 H2 H3] Hno Hi Hg Hg'. split; [done| |].
  - intros key a b Ha Hb Hab. destruct (decide (b = k)) as [->|]; [by destruct (Hno key)|].
    transitivity (written out); [apply (H2 key); [done|done|lia]|]. by apply written_grown with g.
  - intros key items it i1 w1 g1 j [v x'] x Hf Hl Hw Hi1 Hij Hj Hx Hin. simpl in Hx.
    assert (exists g0, out !! i1 = Some (w1, g0)) as [g0 Hi0].
    { apply (lookup_grown _ _ _ _ _ _ _ _ Hi) in Hi1 as [(-> & -> & _)|[_ ?]]; by eexists. }
    apply (lookup_grown _ _ _ _ _ _ _ _ Hi) in Hj as [(-> & -> & ->)|[_ Hj]]; [|by eapply H3].
    rewrite Hg' in Hx. apply elem_of_app in Hx as [Hx|Hx]; [by eapply H3|].
    apply list_elem_of_singleton in Hx as ->. by apply (Hno key).
Qed.

(** A datagram joins the last group of its flow. *)
Lemma ord_grow_item k u u' out key i w g items items' it it' :
  Ord k u out -> in_flow key k -> written out ≡ₚ seq 0 k -> NoDup (fst <$> out) -> out !! i = Some (w, g) ->
  find_flow (itemsByFlow u) key = Some items -> last items = Some it -> u_bufsIndex it = Z.of_nat w ->
  find_flow (itemsByFlow u') key = Some items' -> last items' = Some it' -> u_bufsIndex it' = Z.of_nat w ->
  (forall key', key' <> key -> find_flow (itemsByFlow u') key' = find_flow (itemsByFlow u) key') ->
  Ord (S k) u' (<[i := (w, g ++ [k])]> out).
Proof.
  intros [H1 H2 H3] Hk Hp Hnd Hi Hf Hl Hw Hf' Hl' Hw' Hother. split.
  - intros key' its Hits. destruct (decide (key' = key)) as [->|Hne].
    + rewrite Hf' in Hits. injection Hits as <-. by destruct items'.
    + rewrite Hother in Hits by done. by eapply H1.
  - intros key' a b Ha Hb Hab. destruct (decide (b = k)) as [->|].
    2:{ transitivity (written out); [apply (H2 key'); [done|done|lia]|].
        apply written_grown with g; [done|]. by apply sublist_inserts_r. }
    pose proof (in_flow_unique _ _ _ Hk Hb) as <-. destruct (concat_insert out i w g (g ++ [k]) Hi) as [EA EB].
    unfold written. rewrite EB, !app_assoc. apply sublist_inserts_r. apply (sublist_app [a] _ [k]); [|done].
    apply singleton_sublist_l. assert (a ∈ written out) as Hin by (rewrite Hp; apply elem_of_seq; lia).
    unfold written in Hin. rewrite EA, app_assoc in Hin. apply elem_of_app in Hin as [Hin|Hin]; [done|exfalso].
    apply elem_of_concat in Hin as (x & Hx & Hax). apply list_elem_of_fmap in Hx as (en & -> & Hen).
    apply list_elem_of_lookup in Hen as (j & Hj). rewrite lookup_drop in Hj.
    eapply (H3 key items it i w g (S i + j)%nat en a); try done. lia.
  - intros key' its x i1 w1 g1 j [v x'] y Hits Hlx Hwx Hi1 Hij Hj Hy Hin. simpl in Hy.
    destruct (decide (key' = key)) as [->|Hne].
    + rewrite Hf' in Hits. injection Hits as <-. rewrite Hl' in Hlx. injection Hlx as <-. assert (w1 = w) as -> by lia.
      assert (i1 = i) as ->.
      { rewrite <- (fst_insert _ _ _ _ (g ++ [k]) Hi) in Hnd.
        eapply NoDup_lookup; [exact Hnd| |]; rewrite list_lookup_fmap; [by rewrite Hi1|].
        rewrite list_lookup_insert_eq by (by eapply lookup_lt_Some). done. }
      rewrite list_lookup_insert_ne in Hj by lia. by eapply (H3 key items it i w g j (v, x') y).
    + rewrite Hother in Hits by done.
      assert (exists g0, out !! i1 = Some (w1, g0)) as [g0 Hi0].
      { apply (lookup_grown _ _ _ _ _ _ _ _ Hi) in Hi1 as [(-> & -> & _)|[_ ?]]; by eexists. }
      apply (lookup_grown _ _ _ _ _ _ _ _ Hi) in Hj as [(-> & -> & ->)|[_ Hj]]; [|by eapply H3].
      apply elem_of_app in Hy as [Hy|Hy]; [by eapply H3|].
      apply list_elem_of_singleton in Hy as ->. apply Hne. by apply (in_flow_unique _ _ k).
Qed.

End order.
