(* ===== verification/GroStep.v ===== *)
(** * One packet of a batch

    [tcpGRO] and [udpGRO] keep the state of a batch: they do not panic, and the
    packet is left alone, becomes an item of its own or joins the group of an
    item. *)

From stdpp Require Import base numbers list.
From S2P Require Import Prelude Setters Slices Checksum Gso Gro GroBytes GroMerge GroGroups GroTable GroCore GroOrder.

Open Scope Z_scope.

(** The items of both tables. *)
Definition items_of (t : tcpGROTable) (u : udpGROTable) : list item :=
  (inl <$> all_items (itemsByFlow t)) ++ (inr <$> all_items (itemsByFlow u)).

Lemma items_inr (a : list tcpGROItem) (c l : list udpGROItem) x :
  l ≡ₚ x :: c -> ((inl <$> a) ++ (inr <$> l) : list item) ≡ₚ inr x :: (inl <$> a) ++ (inr <$> c).
Proof.
  intros H. etrans; [apply Permutation_app_head, (fmap_Permutation inr), H|]. symmetry. apply Permutation_middle.
Qed.

Section step.
Context (e : endian) (off : Z) (canUDP : bool) (orig : list In).
Context (Hoff : virtioNetHdrLen <= off) (Horig : Forall (buf_ok off) orig) (Hmax : (length orig <= 128)%nat).

Notation P := (packets off orig).

Record Inv (k : nat) (bufs : list In) (t : tcpGROTable) (u : udpGROTable) (out : groups) : Prop := {
  v_core : Core e off orig k bufs (items_of t u) out;
  v_tkeys : keyed t_key (itemsByFlow t);
  v_ukeys : keyed u_key (itemsByFlow u);
  v_tstock : stocked (Z.of_nat k) t;
  v_ustock : stocked (Z.of_nat k) u;
  v_ord : Ord P canUDP k u out
}.

(** What the result of [tcpGRO] or [udpGRO] for packet [k] means. *)
Definition outcome (k : nat) (bufs : list In) (out : groups) (r : groResult) (bufs' : list In) (t : tcpGROTable)
    (u : udpGROTable) : Prop :=
  match r with
  | groResultNoop => bufs' = bufs /\ Inv k bufs t u out
  | groResultTableInsert => bufs' = bufs /\ Inv (S k) bufs t u (out ++ [(k, [k])])
  | groResultCoalesced => exists out', fst <$> out' = fst <$> out /\ Inv (S k) bufs' t u out'
  end.

(** ** The packet at hand *)

Context (k : nat) (bufs : list In) (u : udpGROTable) (out : groups).
Context (Hk : (k < length orig)%nat).

(** The buffer of packet [k] is the one that came in. *)
Lemma current its :
  Core e off orig k bufs its out ->
  exists b, bufs !! k = Some b /\ buf_ok off b /\ pkt_of off b = P k /\ get_buf bufs (Z.of_nat k) = Some b.
Proof.
  intros C. destruct (lookup_lt_is_Some_2 orig k Hk) as [b Hb]. exists b.
  rewrite (c_rest _ _ _ _ _ _ _ C k) by done. split_and!; [done| | |].
  - rewrite Forall_forall in Horig. by apply Horig, list_elem_of_lookup_2 with k.
  - unfold packets. by rewrite Hb.
  - unfold get_buf. rewrite decide_True by lia. rewrite Nat2Z.id. by rewrite (c_rest _ _ _ _ _ _ _ C k).
Qed.

Lemma group_length its w g : Core e off orig k bufs its out -> (w, g) ∈ out -> (length g <= k)%nat.
Proof.
  intros C Hg. pose proof (c_perm _ _ _ _ _ _ _ C) as Hp.
  apply list_elem_of_split in Hg as (o1 & o2 & ->). apply Permutation_length in Hp.
  rewrite fmap_app, concat_app, length_app, fmap_cons, length_seq in Hp. cbn [concat snd] in Hp.
  rewrite length_app in Hp. lia.
Qed.

Lemma get_buf_nat (l : list In) (w : nat) : get_buf l (Z.of_nat w) = l !! w.
Proof. unfold get_buf. rewrite decide_True by lia. by rewrite Nat2Z.id. Qed.

Lemma set_buf_nat (l : list In) (w : nat) b : set_buf l (Z.of_nat w) b = <[w := b]> l.
Proof. unfold set_buf. by rewrite Nat2Z.id. Qed.

(** An item of the tables, with its group and buffer. *)
Lemma tracked_item its x :
  Core e off orig k bufs its out -> x ∈ its ->
  exists w g b i, idx x = Z.of_nat w /\ out !! i = Some (w, g) /\ get_buf bufs (Z.of_nat w) = Some b /\ buf_ok off b /\
    describes e off orig x w g (pkt_of off b) /\ (w < k)%nat /\ (length g <= k)%nat.
Proof.
  intros C Hx. pose proof (c_its _ _ _ _ _ _ _ C) as H. rewrite Forall_forall in H.
  destruct (H x Hx) as (w & g & b & Hi & Hg & Hb & Hd). apply list_elem_of_lookup in Hg as Hg'. destruct Hg' as [i Hi'].
  exists w, g, b, i. split_and!; try done.
  - by rewrite get_buf_nat.
  - pose proof (c_bufs _ _ _ _ _ _ _ C) as Hbs. rewrite Forall_forall in Hbs. by eapply Hbs, list_elem_of_lookup_2.
  - by eapply tracked_lt.
  - by eapply group_length.
Qed.

(** ** New items *)

Lemma segment_no_flow v6 key : segment v6 (P k) -> ~ in_flow P canUDP key k.
Proof. intros Hs (_ & Hd & _). by eapply segment_not_datagram. Qed.

Lemma tcp_insert_step v6 t :
  Inv k bufs t u out -> segment v6 (P k) ->
  exists t', insert_item t (tkey v6 (P k)) (tcp_new v6 (P k) (Z.of_nat k)) = Some t' /\
    Inv (S k) bufs t' u (out ++ [(k, [k])]).
Proof.
  intros [C Ht Hu Hst Hsu Ho] Hs. destruct (current _ C) as (b & Hb & Hbok & Hp & _).
  destruct (insert_item_ok t_key t (tkey v6 (P k)) (tcp_new v6 (P k) (Z.of_nat k)) (Z.of_nat k))
    as (t' & E & Hst' & Ht' & Hall & _); [done|unfold IdealBatchSize; lia|done|done|].
  exists t'. split; [done|]. split; try done.
  - unfold items_of. rewrite Hall, fmap_cons. apply core_add_item with b; try done.
    + simpl. apply u16_small. unfold is_u16. lia.
    + exists v6, k, []. split_and!; [done|done|]. rewrite Hp. apply tcp_item_new; [done|lia].
  - replace (Z.of_nat (S k)) with (Z.of_nat k + 1) by lia. done.
  - eapply stocked_le; [done|lia].
  - apply ord_add_other; [done|]. intros key. by apply segment_no_flow with v6.
Qed.

(** ** Merging segments *)

Section tcp.
Context (v6 : bool) (b : In) (t : tcpGROTable) (cur : list tcpGROItem) (n : nat) (it : tcpGROItem).
Context (HI : Inv k bufs t u out) (Hseg : segment v6 (P k)) (Hb : get_buf bufs (Z.of_nat k) = Some b).
Context (Hbok : buf_ok off b) (Hp : pkt_of off b = P k).
Context (Hcur : find_flow (itemsByFlow t) (tkey v6 (P k)) = Some cur) (Hit : cur !! n = Some it).

Notation pkt := (tail off b).

Lemma off_pos : 0 <= off.
Proof. unfold virtioNetHdrLen in Hoff. lia. Qed.

Lemma pkt_bytes : wf_in pkt /\ in_bytes pkt = P k /\ len_in b = off + zlen (P k).
Proof.
  destruct Hbok as [H1 H2]. pose proof off_pos. split_and!.
  - apply wf_tail; [done|lia].
  - rewrite <- Hp. apply in_bytes_tail; [done|lia].
  - rewrite <- Hp, zlen_pkt by (first [done|lia]). lia.
Qed.

(** The item with its run. *)
Lemma tcp_item_inv :
  exists w g bw i h r, t_bufsIndex it = Z.of_nat w /\ out !! i = Some (w, g) /\
    get_buf bufs (Z.of_nat w) = Some bw /\ buf_ok off bw /\ (w < k)%nat /\ (length g <= k)%nat /\
    g = h :: r /\ (r = [] -> h = w) /\ tcp_item e P v6 it h r (pkt_of off bw) /\ t_key it = tkey v6 (P k).
Proof.
  destruct HI as [C Ht _ _ _ _]. apply list_elem_of_lookup_2 in Hit as Hin.
  assert (t_key it = tkey v6 (P k)) as Hkey.
  { pose proof (keyed_find _ _ _ _ Ht Hcur) as H. rewrite Forall_forall in H. by apply H. }
  destruct (tracked_item (items_of t u) (inl it) C) as (w & g & bw & i & H1 & H2 & H3 & H4 & H5 & H6 & H7).
  { apply elem_of_app. left. apply list_elem_of_fmap_2. by eapply find_flow_items. }
  destruct H5 as (v & h & r & -> & Hw & Hti). exists w, (h :: r), bw, i, h, r. split_and!; try done.
  assert (v = v6) as <-; [|done]. pose proof (ti_key _ _ _ _ _ _ _ Hti) as E. rewrite Hkey in E.
  by injection E.
Qed.

(** Dropping the item of a packet with a wrong checksum. *)
Lemma tcp_delete_step w bw :
  t_bufsIndex it = Z.of_nat w -> get_buf bufs (Z.of_nat w) = Some bw -> t_numMerged it = 0 ->
  cs_ok e IPPROTO_TCP v6 (pkt_of off bw) = false ->
  exists t', delete_item t (t_key it) n = Some t' /\ Inv k bufs t' u out /\
    find_flow (itemsByFlow t') (tkey v6 (P k)) = Some (delete n cur).
Proof.
  intros Hw Hbw Hnum Hbad.
  destruct tcp_item_inv as (w0 & g & bw0 & i & h & r & Hw0 & Ho & Hbw0 & _ & _ & _ & -> & Hone & Hti & Hkey).
  assert (w0 = w) as -> by lia. rewrite Hbw in Hbw0. injection Hbw0 as <-.
  destruct HI as [C Ht Hu Hst Hsu Hord]. rewrite Hkey.
  destruct (delete_item_ok t_key t _ cur n it _ Hst Ht Hcur Hit) as (t' & E & Hst' & Ht' & Hall & Hf).
  exists t'. split; [done|]. split; [|done]. split; try done.
  unfold items_of in C |- *. rewrite Hall, fmap_cons in C. apply core_drop in C; [done|].
  intros w' g' Hg' Hw'. simpl in Hw'. assert (w' = w) as -> by lia.
  assert (g' = h :: r) as ->.
  { eapply entry_unique; [by apply (c_nodup _ _ _ _ _ _ _ C)|done|]. by eapply list_elem_of_lookup_2. }
  assert (r = []) as ->. { pose proof (ti_num _ _ _ _ _ _ _ Hti) as E'. destruct r; [done|]. unfold zlen in E'. simpl in E'. lia. }
  rewrite Hone by done. split; [done|]. exists bw. rewrite get_buf_nat in Hbw. split; [done|].
  assert (segment v6 (P w)) as Hsw by (rewrite Hone in Hti by done; by eapply item_head).
  assert (pkt_of off bw = P w) as Epw; [|split; [done|]; right; exists v6; by rewrite <- Epw at 2].
  destruct (ti_pkt _ _ _ _ _ _ _ Hti) as (psh & -> & Hpsh).
  destruct psh; [by destruct Hpsh|]. rewrite Hone by done. by eapply segment_split.
Qed.

(** The tables and groups after the item has grown. *)
Lemma tcp_update_step it' w i g g' bufs' b' :
  t_key it' = t_key it -> t_bufsIndex it' = t_bufsIndex it ->
  t_bufsIndex it = Z.of_nat w -> out !! i = Some (w, g) -> g' ≡ₚ g ++ [k] -> sublist g g' ->
  length bufs' = length bufs -> Forall (buf_ok off) bufs' -> (forall j, j <> w -> j <> k -> bufs' !! j = bufs !! j) ->
  bufs' !! w = Some b' -> describes e off orig (inl it') w g' (pkt_of off b') ->
  exists t', update_item t (t_key it') it' n = Some t' /\ outcome k bufs out groResultCoalesced bufs' t' u.
Proof.
  intros Hk' Hi' Hw Hi Hg Hsub Hlen Hbs Hsame Hb' Hd.
  destruct tcp_item_inv as (_ & _ & _ & _ & _ & _ & _ & _ & _ & _ & _ & _ & _ & _ & _ & Hkey).
  destruct HI as [C Ht Hu Hst Hsu Hord].
  destruct (update_item_ok t_key t _ cur n it it' _ Hst Ht Hcur Hit) as (t' & rest & E & Hst' & Ht' & Hall & Hall' & _).
  { congruence. }
  rewrite Hk', Hkey. exists t'. split; [done|]. exists (<[i := (w, g')]> out).
  split; [by apply fst_insert with g|]. split; try done.
  - unfold items_of in C |- *. rewrite Hall, fmap_cons in C. rewrite Hall', fmap_cons.
    eapply core_grow; try done. simpl. congruence.
  - eapply stocked_le; [done|lia].
  - eapply stocked_le; [done|lia].
  - apply ord_grow_other with g; try done. intros key. by apply segment_no_flow with v6.
Qed.

Lemma buf_ok_insert w b' : Forall (buf_ok off) bufs -> buf_ok off b' -> Forall (buf_ok off) (<[w := b']> bufs).
Proof. intros. by apply Forall_insert. Qed.

(** The buffer with the PSH flag of the segment taken over. *)
Lemma pushed bw (psh : bool) :
  buf_ok off bw -> off + iph v6 + 20 <= len_in bw ->
  let bw' := if psh then push off v6 bw else bw in
  wf_in bw' /\ len_in bw' = len_in bw /\ cap bw' = cap bw /\
  pkt_of off bw' = if psh then with_psh v6 (pkt_of off bw) else pkt_of off bw.
Proof.
  intros [Hwf Hl] Hlong bw'. pose proof off_pos. unfold bw'. destruct psh; [|done].
  split_and!; [by apply wf_push|done|by apply cap_push|by apply pkt_of_push].
Qed.

Section run.
Context (w : nat) (bw : In) (i h : nat) (r : list nat).
Context (Hw : t_bufsIndex it = Z.of_nat w) (Hi : out !! i = Some (w, h :: r)).
Context (Hbw : get_buf bufs (Z.of_nat w) = Some bw) (Hbwok : buf_ok off bw) (Hwk : (w < k)%nat).
Context (Hlen : (length (h :: r) <= k)%nat) (Hti : tcp_item e P v6 it h r (pkt_of off bw)).
Context (Hkey : t_key it = tkey v6 (P k)).

Lemma run_bounds :
  segment v6 (P h) /\ tcphLen it = tcph v6 (P h) /\ zlen (pkt_of off bw) = len_in bw - off /\
  off + iph v6 + tcph v6 (P h) <= len_in bw /\ len_in bw <= 65535 /\ t_numMerged it < 65535 /\ w <> k /\
  (k < length bufs)%nat /\ (w < length bufs)%nat.
Proof.
  assert (segment v6 (P h)) as Hh by (by eapply item_head). pose proof off_pos as Hpos.
  destruct Hbwok as [Hwf Hl]. pose proof (zlen_pkt off bw Hwf ltac:(lia)) as Hz.
  pose proof (item_long _ _ _ _ _ _ _ Hti) as Hlong. pose proof (ti_num _ _ _ _ _ _ _ Hti) as Hn.
  rewrite get_buf_nat in Hbw, Hb. apply lookup_lt_Some in Hbw, Hb. unfold wf_in, zlen in *. simpl in Hlen.
  split_and!; try done; try lia. by eapply ti_tcph.
Qed.

Lemma tcp_append_step it' bufs' :
  tcp_fits v6 (P k) (pkt_of off bw) it coalesceAppend ->
  tcp_outcome e off v6 bufs (Z.of_nat k) (Z.of_nat w) b bw coalesceAppend it coalesceSuccess it' bufs' ->
  exists t', update_item t (t_key it') it' n = Some t' /\ outcome k bufs out groResultCoalesced bufs' t' u.
Proof.
  intros Hf Ho. destruct pkt_bytes as (_ & _ & Hlb). pose proof off_pos as Hpos.
  destruct run_bounds as (Hh & Eh & Hzq & Hlong & Hmax' & Hnum & Hne & Hkl & Hwl).
  unfold tcp_outcome in Ho. rewrite decide_False in Ho by done. rewrite Hp, Eh in Ho.
  destruct Ho as (Hc & Hcq & -> & Hcap & ->). destruct (segment_bounds _ _ Hseg) as (Ht & Hl & _).
  destruct (segment_bounds _ _ Hh) as (Hth & _). pose proof (iph_bounds v6).
  assert (tcph v6 (P k) = tcph v6 (P h)) as Et by (destruct Hf as ((E & _) & _); congruence).
  destruct (pushed bw (tpsh v6 (P k)) Hbwok ltac:(lia)) as (Hwf' & Hlen' & Hcap' & Hpkt').
  set (bw' := if tpsh v6 (P k) then _ else _) in *. set (d := drop _ (P k)).
  assert (zlen d = len_in b - off - (iph v6 + tcph v6 (P h))) as Hzd by (unfold d; len).
  assert (buf_ok off (grow bw' d)) as Hok.
  { split; [apply wf_grow; [done|lia|]|simpl; destruct Hbwok; lia]. apply drop_bytes. by apply Hseg. }
  apply tcp_update_step with w i (h :: r) (h :: r ++ [k]) (grow bw' d); try done.
  - by apply sublist_skip, sublist_inserts_r.
  - apply length_set_buf.
  - rewrite set_buf_nat. apply buf_ok_insert; [|done]. by apply (c_bufs _ _ _ _ _ _ _ (v_core _ _ _ _ _ HI)).
  - intros j Hj _. rewrite set_buf_nat. by apply list_lookup_insert_ne.
  - rewrite set_buf_nat. by apply list_lookup_insert_eq.
  - exists v6, h, (r ++ [k]). split_and!; [done|by destruct r|].
    rewrite pkt_of_grow, Hpkt' by (first [done|lia]).
    apply (tcp_item_append e P v6 it h r (pkt_of off bw) k); try done. lia.
Qed.

Lemma tcp_prepend_step it' bufs' :
  tcp_fits v6 (P k) (pkt_of off bw) it coalescePrepend ->
  tcp_outcome e off v6 bufs (Z.of_nat k) (Z.of_nat w) b bw coalescePrepend it coalesceSuccess it' bufs' ->
  exists t', update_item t (t_key it') it' n = Some t' /\ outcome k bufs out groResultCoalesced bufs' t' u.
Proof.
  intros Hf Ho. destruct pkt_bytes as (_ & _ & Hlb). pose proof off_pos as Hpos.
  destruct run_bounds as (Hh & Eh & Hzq & Hlong & Hmax' & Hnum & Hne & Hkl & Hwl).
  unfold tcp_outcome in Ho. rewrite decide_True in Ho by done. rewrite Hp, Eh in Ho.
  destruct Ho as (Hc & Hcq & -> & Hcap & ->). destruct (segment_bounds _ _ Hseg) as (Ht & Hl & _).
  destruct (segment_bounds _ _ Hh) as (Hth & _). pose proof (iph_bounds v6).
  set (d := drop _ (pkt_of off bw)) in *.
  assert (zlen d = len_in bw - off - (iph v6 + tcph v6 (P h))) as Hzd by (unfold d; len).
  destruct Hbok as [Hwfb Hlb']. destruct Hbwok as [Hwf Hlw].
  assert (buf_ok off (grow b d)) as Hok.
  { split; [apply wf_grow; [done|lia|]|simpl; lia]. by apply drop_bytes, is_bytes_pkt. }
  apply tcp_update_step with w i (h :: r) (k :: h :: r) (grow b d); try done.
  - by rewrite Permutation_app_comm.
  - by apply sublist_cons.
  - by rewrite !length_set_buf.
  - rewrite !set_buf_nat. do 2 (apply Forall_insert; [|done]). by apply (c_bufs _ _ _ _ _ _ _ (v_core _ _ _ _ _ HI)).
  - intros j Hj Hjk. rewrite !set_buf_nat. by rewrite !list_lookup_insert_ne.
  - rewrite !set_buf_nat. rewrite list_lookup_insert_ne by done. by apply list_lookup_insert_eq.
  - exists v6, k, (h :: r). split_and!; [done|done|].
    rewrite pkt_of_grow, Hp by (first [done|lia]).
    by apply (tcp_item_prepend e P v6 it h r (pkt_of off bw) k).
Qed.

End run.

(** What one round of the loop over the items does. *)
Lemma tcp_round :
  exists can,
    tcpPacketsCanCoalesce pkt (u8 (iph v6)) (u8 (tcph v6 (P k))) (tseq v6 (P k)) (tpsh v6 (P k)) (tsize v6 (P k)) it bufs
      off = Some can /\
    (can <> coalesceUnavailable ->
     exists r it' bufs',
       coalesceTCPPackets e can pkt (Z.of_nat k) (tsize v6 (P k)) (tseq v6 (P k)) (tpsh v6 (P k)) it bufs off v6 =
         Some (r, it', bufs') /\
       match r with
       | coalesceSuccess =>
           exists t', update_item t (t_key it') it' n = Some t' /\ outcome k bufs out groResultCoalesced bufs' t' u
       | coalesceItemInvalidCSum =>
           bufs' = bufs /\ it' = it /\
           exists t', delete_item t (t_key it) n = Some t' /\ Inv k bufs t' u out /\
             find_flow (itemsByFlow t') (tkey v6 (P k)) = Some (delete n cur)
       | _ => bufs' = bufs
       end).
Proof.
  destruct tcp_item_inv as (w & g & bw & i & h & r & Hw & Hi & Hbw & Hbwok & Hwk & Hlen & -> & Hone & Hti & Hkey).
  edestruct (run_bounds w bw) as (Hh & Eh & Hzq & Hlong & Hmax' & Hnum & Hne & Hkl & Hwl); try eassumption.
  destruct pkt_bytes as (Hwf & Hbytes & Hlb). pose proof off_pos as Hpos. pose proof Hbwok as [Hwfw Hlw].
  destruct (segment_bounds _ _ Hh) as (Hth & _). destruct (segment_bounds _ _ Hseg) as (Htk & Hlk & _).
  destruct (tcpPacketsCanCoalesce_ok v6 pkt (tail off bw) bufs off Hwf) with (item := it) as (can & Hcan & Hfits).
  { apply wf_tail; [done|lia]. }
  { rewrite Hbytes. by apply Hseg. }
  { rewrite Hbytes. by apply Hseg. }
  { rewrite Hw. apply buf_from_eq; [done|lia]. }
  { by eapply ti_iph. }
  { by rewrite Eh. }
  { rewrite Eh. simpl. lia. }
  { eapply sized_pos, run_sized, ti_run. exact Hti. }
  rewrite Hbytes in Hcan, Hfits. rewrite in_bytes_tail in Hfits by (first [done|lia]). exists can. split; [done|].
  intros Hav. assert (tcph v6 (P k) = tcph v6 (P h)) as Et.
  { rewrite <- Eh. destruct can; [|done|]; by destruct Hfits as ((E & _) & _). }
  edestruct (coalesceTCPPackets_ok e off v6 bufs (Z.of_nat k) (Z.of_nat w) b bw) with (mode := can) (item := it)
    as (rr & it' & bufs' & Hco & Hout); try done; try lia; [by apply Hbok|by eapply ti_iph|].
  rewrite Hp in Hco. exists rr, it', bufs'. split; [done|].
  destruct rr; try (by destruct Hout).
  - destruct Hout as (Hnum0 & Hbad & -> & ->). split_and!; [done|done|]. by eapply tcp_delete_step.
  - destruct can; [|done|].
    + by eapply tcp_prepend_step.
    + by eapply tcp_append_step.
Qed.

End tcp.

(** The loop over the items of the flow. *)
Lemma tcp_loop_ok v6 b t cur items n :
  Inv k bufs t u out -> segment v6 (P k) -> get_buf bufs (Z.of_nat k) = Some b -> buf_ok off b -> pkt_of off b = P k ->
  find_flow (itemsByFlow t) (tkey v6 (P k)) = Some cur -> (n <= length cur)%nat -> take n cur = take n items ->
  exists r bufs' t',
    tcp_loop e (tail off b) (iph v6) (tcph v6 (P k)) (tseq v6 (P k)) (tpsh v6 (P k)) (tsize v6 (P k)) (Z.of_nat k) v6
      off items n bufs t = Some (r, bufs', t') /\
    match r with
    | None => bufs' = bufs /\ Inv k bufs t' u out
    | Some r => outcome k bufs out r bufs' t' u
    end.
Proof.
  intros HI Hseg Hb Hbok Hp. revert t cur HI. induction n as [|n IH]; intros t cur HI Hcur Hn Htake.
  { by exists None, bufs, t. }
  destruct (lookup_lt_is_Some_2 cur n ltac:(lia)) as [it Hit].
  assert (items !! n = Some it) as Hit'.
  { rewrite <- (lookup_take_lt items (S n) n), <- Htake, lookup_take_lt by lia. done. }
  assert (take n cur = take n items) as Htn.
  { apply (f_equal (take n)) in Htake. by rewrite !take_take, !Nat.min_l in Htake by lia. }
  cbn [tcp_loop]. rewrite Hit'. cbn [mbind option_bind].
  destruct (tcp_round v6 b t cur n it HI Hseg Hb Hbok Hp Hcur Hit) as (can & -> & Hround). cbn [mbind option_bind].
  destruct (decide (can = coalesceUnavailable)) as [->|Hav]; [by apply (IH t cur); try done; lia|].
  destruct (Hround Hav) as (r & it' & bufs' & -> & Hr). cbn [mbind option_bind].
  destruct r; try (subst bufs'; by apply (IH t cur); try done; lia).
  - destruct Hr as (-> & -> & t' & -> & HI' & Hf'). cbn [mbind option_bind]. apply (IH t' (delete n cur)); try done.
    + rewrite length_delete by (by eexists). lia.
    + rewrite delete_take_drop, take_app_le by (rewrite length_take; lia). by rewrite take_take, Nat.min_id.
  - subst bufs'. by exists (Some groResultNoop), bufs, t.
  - destruct Hr as (t' & -> & Ho). cbn [mbind option_bind]. by exists (Some groResultCoalesced), bufs', t'.
Qed.

(** [tcpGRO] on a candidate. *)
Lemma tcp_step v6 t :
  Inv k bufs t u out -> version_ok v6 (P k) = true -> proto_of v6 (P k) = IPPROTO_TCP -> iph v6 + 20 <= zlen (P k) ->
  exists r bufs' t', tcpGRO e bufs off (Z.of_nat k) t v6 = Some (r, bufs', t') /\ outcome k bufs out r bufs' t' u.
Proof.
  intros HI Hv Hpr Hl. pose proof (v_core _ _ _ _ _ HI) as C. destruct (current _ C) as (b & _ & Hbok & Hp & Hb).
  pose proof Hbok as [Hwf Hlb]. assert (0 <= off) by (unfold virtioNetHdrLen in Hoff; lia).
  assert (wf_in (tail off b) /\ in_bytes (tail off b) = P k) as [Hwft Hbytes].
  { rewrite <- Hp. split; [apply wf_tail|apply in_bytes_tail]; first [done|lia]. }
  pose proof (buf_from_eq _ _ off _ Hb ltac:(lia)) as Hfrom. pose proof (zlen_pkt off b Hwf ltac:(lia)) as Hz.
  rewrite Hp in Hz. destruct (tcp_ok v6 (P k)) eqn:Hok.
  - assert (segment v6 (P k)) as Hseg.
    { split_and!; [done|done|done|unfold wf_in in Hwf; lia|]. rewrite <- Hp. by apply is_bytes_pkt. }
    rewrite (tcpGRO_accepted e bufs off (Z.of_nat k) v6 (tail off b)) by (rewrite ?Hbytes; done). rewrite Hbytes.
    destruct (find_flow _ _) as [items|] eqn:Hf.
    + edestruct tcp_loop_ok as (r & bufs' & t' & -> & Hr); try done. cbn [mbind option_bind].
      destruct r as [r|]; [by exists r, bufs', t'|]. destruct Hr as (-> & HI').
      destruct (tcp_insert_step v6 t' HI' Hseg) as (t'' & -> & HI''). cbn [mbind option_bind].
      by exists groResultTableInsert, bufs, t''.
    + destruct (tcp_insert_step v6 t HI Hseg) as (t'' & -> & HI''). cbn [mbind option_bind].
      by exists groResultTableInsert, bufs, t''.
  - rewrite (tcpGRO_refused e bufs off (Z.of_nat k) v6 (tail off b)) by (rewrite ?Hbytes; first [done|simpl; lia]).
    by exists groResultNoop, bufs, t.
Qed.

(** ** Merging datagrams *)

Section udp.
Context (v6 : bool) (t : tcpGROTable) (HI : Inv k bufs t u out) (Hdg : datagram v6 (P k)) (Hcan : canUDP = true).

Notation key := (ukey v6 (P k)).

Lemma datagram_in_flow : in_flow P canUDP key k.
Proof. done. Qed.

Lemma udp_insert_step invalid :
  exists u', insert_item u key (udp_new v6 (P k) (Z.of_nat k) invalid) = Some u' /\
    Inv (S k) bufs t u' (out ++ [(k, [k])]).
Proof.
  destruct HI as [C Ht Hu Hst Hsu Ho]. destruct (current _ C) as (b & Hb & Hbok & Hp & _).
  destruct (insert_item_ok u_key u key (udp_new v6 (P k) (Z.of_nat k) invalid) (Z.of_nat k))
    as (u' & E & Hsu' & Hu' & Hall & Hf & Hother); [done|unfold IdealBatchSize; lia|done|done|].
  assert (u_bufsIndex (udp_new v6 (P k) (Z.of_nat k) invalid) = Z.of_nat k) as Hidx.
  { simpl. apply u16_small. unfold is_u16. lia. }
  exists u'. split; [done|]. split; try done.
  - unfold items_of. rewrite (items_inr _ _ _ _ Hall). apply core_add_item with b; try done.
    exists v6, k, []. split_and!; [done|done|]. rewrite Hp. apply udp_item_new; [done|lia].
  - eapply stocked_le; [done|lia].
  - replace (Z.of_nat (S k)) with (Z.of_nat k + 1) by lia. done.
  - eapply (ord_add_item P canUDP k u u' out key); try done; [by eapply c_perm|by eapply c_lt].
Qed.

Context (b : In) (Hb : get_buf bufs (Z.of_nat k) = Some b) (Hbok : buf_ok off b) (Hp : pkt_of off b = P k).
Context (items : list udpGROItem) (it : udpGROItem).
Context (Hf : find_flow (itemsByFlow u) key = Some items) (Hlast : last items = Some it).

Notation pkt := (tail off b).

(** The last item of the flow with its run. *)
Lemma udp_item_inv :
  exists w bw i h r, u_bufsIndex it = Z.of_nat w /\ out !! i = Some (w, h :: r) /\
    get_buf bufs (Z.of_nat w) = Some bw /\ buf_ok off bw /\ (w < k)%nat /\ (length (h :: r) <= k)%nat /\
    (r = [] -> h = w) /\ udp_item e P v6 it h r (pkt_of off bw) /\ u_key it = key.
Proof.
  destruct HI as [C _ Hu _ _ _]. rewrite last_lookup in Hlast. apply list_elem_of_lookup_2 in Hlast as Hin.
  assert (u_key it = key) as Hkey.
  { pose proof (keyed_find _ _ _ _ Hu Hf) as H. rewrite Forall_forall in H. by apply H. }
  destruct (tracked_item (items_of t u) (inr it) C) as (w & g & bw & i & H1 & H2 & H3 & H4 & H5 & H6 & H7).
  { apply elem_of_app. right. apply list_elem_of_fmap_2. by eapply find_flow_items. }
  destruct H5 as (v & h & r & -> & Hw & Hui). exists w, bw, i, h, r. split_and!; try done.
  assert (v = v6) as <-; [|done]. pose proof (ui_key _ _ _ _ _ _ _ Hui) as E. rewrite Hkey in E. by injection E.
Qed.

Lemma udp_update_step it' w bw i h r bufs' :
  u_bufsIndex it = Z.of_nat w -> out !! i = Some (w, h :: r) -> get_buf bufs (Z.of_nat w) = Some bw -> buf_ok off bw ->
  (w < k)%nat -> (length (h :: r) <= k)%nat -> udp_item e P v6 it h r (pkt_of off bw) -> u_key it = key ->
  udp_fits v6 (P k) (pkt_of off bw) it ->
  udp_outcome e off v6 bufs (Z.of_nat w) b bw it coalesceSuccess it' bufs' ->
  exists u', update_item u (u_key it') it' (length items - 1) = Some u' /\
    outcome k bufs out groResultCoalesced bufs' t u'.
Proof.
  intros Hw Hi Hbw [Hwfw Hlw] Hwk Hlen Hui Hkey Hfit Ho. pose proof (off_pos) as Hpos. destruct Hbok as [Hwf Hlb].
  simpl in Ho. rewrite Hp in Ho. destruct Ho as (Hc & Hcq & -> & Hcap & ->).
  destruct HI as [C Ht Hu Hst Hsu Hord]. destruct (datagram_bounds _ _ Hdg) as (Hl & _).
  pose proof Hlast as Hlk. rewrite last_lookup in Hlk. set (it' := it <| u_numMerged := _ |>).
  destruct (update_item_ok u_key u _ items _ it it' _ Hsu Hu Hf Hlk) as (u' & rest & E & Hsu' & Hu' & Hall & Hall' & Hf' & Hother).
  { done. }
  replace (pred (length items)) with (length items - 1)%nat in * by lia.
  change (u_key it') with (u_key it). rewrite Hkey. exists u'. split; [done|].
  set (d := drop _ (P k)). rewrite <- Hp in Hl. rewrite zlen_pkt in Hl by (first [done|lia]).
  assert (zlen d = len_in b - off - (iph v6 + 8)) as Hzd.
  { unfold d. rewrite <- Hp. pose proof (zlen_pkt off b Hwf ltac:(lia)). pose proof (iph_bounds v6). len. }
  assert (buf_ok off (grow bw d)) as Hok.
  { split; [apply wf_grow; [done|lia|]|pose proof (zlen_nonneg d); simpl; lia]. apply drop_bytes. by apply Hdg. }
  exists (<[i := (w, (h :: r) ++ [k])]> out). split; [by eapply fst_insert|].
  split; try done.
  - unfold items_of in C |- *. rewrite (items_inr _ _ _ _ Hall) in C. rewrite (items_inr _ _ _ _ Hall').
    eapply (core_grow _ _ _ _ _ _ _ _ _ _ w (h :: r) _ _ (grow bw d)); try done.
    + apply length_set_buf.
    + rewrite set_buf_nat. apply buf_ok_insert; [by apply C|done].
    + intros j Hj _. rewrite set_buf_nat. by apply list_lookup_insert_ne.
    + rewrite set_buf_nat. apply list_lookup_insert_eq. rewrite get_buf_nat in Hbw. by eapply lookup_lt_Some.
    + exists v6, h, (r ++ [k]). split_and!; [done|by destruct r|]. rewrite pkt_of_grow by (first [done|lia]).
      apply udp_item_append; try done. pose proof (ui_num _ _ _ _ _ _ _ Hui) as En.
      unfold zlen in En. simpl in Hlen. lia.
  - eapply stocked_le; [done|lia].
  - eapply stocked_le; [done|lia].
  - eapply (ord_grow_item P canUDP k u u' out key i w (h :: r) items _ it it'); try done.
    + by eapply c_perm.
    + by eapply c_nodup.
    + rewrite last_lookup, length_insert. replace (pred _) with (length items - 1)%nat by lia.
      apply list_lookup_insert_eq. apply lookup_lt_Some in Hlk. lia.
Qed.

(** What the attempt to merge with the last item does. *)
Lemma udp_round :
  exists can, udpPacketsCanCoalesce pkt (iph v6) (usize v6 (P k)) it bufs off = Some can /\
    (can = coalesceAppend ->
     exists r it' bufs', coalesceUDPPackets e pkt it bufs off v6 = Some (r, it', bufs') /\
       match r with
       | coalesceSuccess =>
           exists u', update_item u (u_key it') it' (length items - 1) = Some u' /\
             outcome k bufs out groResultCoalesced bufs' t u'
       | _ => bufs' = bufs
       end).
Proof.
  destruct udp_item_inv as (w & bw & i & h & r & Hw & Hi & Hbw & Hbwok & Hwk & Hlen & _ & Hui & Hkey).
  pose proof off_pos as Hpos. pose proof Hbwok as [Hwfw Hlw]. pose proof Hbok as [Hwf Hlb].
  assert (wf_in pkt /\ in_bytes pkt = P k) as [Hwft Hbytes].
  { rewrite <- Hp. split; [apply wf_tail|apply in_bytes_tail]; first [done|lia]. }
  assert (datagram v6 (P h)) as Hh by exact (Forall_inv (urun_datagrams _ _ _ _ _ _ (ui_run _ _ _ _ _ _ _ Hui))).
  pose proof (zlen_pkt off bw Hwfw ltac:(lia)) as Hzq. pose proof (zlen_pkt off b Hwf ltac:(lia)) as Hz.
  rewrite Hp in Hz. destruct (datagram_bounds _ _ Hdg) as (Hl & _).
  assert (iph v6 + 8 <= len_in bw - off) as Hlong.
  { rewrite <- Hzq, (ui_pkt _ _ _ _ _ _ _ Hui). destruct (udp_packet_data P v6 h r Hh) as [-> _].
    pose proof (zlen_nonneg (concat (data P (iph v6 + 8) <$> h :: r))). lia. }
  destruct (udpPacketsCanCoalesce_ok v6 pkt (tail off bw) bufs off) with (item := it) as (can & Hcc & Hfits);
    rewrite ?Hbytes; [done|apply wf_tail; [done|lia]|by apply Hdg|by apply Hdg|rewrite Hw; apply buf_from_eq; [done|lia]
    |simpl; lia|eapply sized_pos, urun_sized, ui_run; exact Hui|].
  rewrite Hbytes in Hcc, Hfits. rewrite in_bytes_tail in Hfits by (first [done|lia]).
  exists can. split; [done|]. intros Happ.
  edestruct (coalesceUDPPackets_ok e off v6 bufs (Z.of_nat w) b bw) with (item := it) as (rr & it' & bufs' & Hco & Hout);
    try done; try lia; [by eapply ui_iph|].
  exists rr, it', bufs'. split; [done|]. destruct rr; try (by destruct Hout).
  eapply udp_update_step; try done. by apply Hfits.
Qed.

End udp.

(** [udpGRO] on a candidate. *)
Lemma udp_step v6 t :
  Inv k bufs t u out -> canUDP = true -> version_ok v6 (P k) = true -> proto_of v6 (P k) = IPPROTO_UDP ->
  iph v6 + 8 <= zlen (P k) ->
  exists r bufs' u', udpGRO e bufs off (Z.of_nat k) u v6 = Some (r, bufs', u') /\ outcome k bufs out r bufs' t u' /\
    (r = groResultNoop -> udp_ok v6 (P k) = false).
Proof.
  intros HI Hcan Hv Hpr Hl. pose proof (v_core _ _ _ _ _ HI) as C. destruct (current _ C) as (b & _ & Hbok & Hp & Hb).
  pose proof Hbok as [Hwf Hlb]. assert (0 <= off) by (unfold virtioNetHdrLen in Hoff; lia).
  assert (wf_in (tail off b) /\ in_bytes (tail off b) = P k) as [Hwft Hbytes].
  { rewrite <- Hp. split; [apply wf_tail|apply in_bytes_tail]; first [done|lia]. }
  pose proof (buf_from_eq _ _ off _ Hb ltac:(lia)) as Hfrom. pose proof (zlen_pkt off b Hwf ltac:(lia)) as Hz.
  rewrite Hp in Hz. destruct (udp_ok v6 (P k)) eqn:Hok.
  - assert (datagram v6 (P k)) as Hdg.
    { split_and!; [done|done|done|unfold wf_in in Hwf; lia|]. rewrite <- Hp. by apply is_bytes_pkt. }
    rewrite (udpGRO_accepted e bufs off (Z.of_nat k) v6 (tail off b)) by (rewrite ?Hbytes; done). rewrite Hbytes.
    destruct (find_flow _ _) as [items|] eqn:Hf.
    + destruct (last items) as [it|] eqn:Hlast.
      2:{ apply last_None in Hlast. by destruct (o_items _ _ _ _ _ (v_ord _ _ _ _ _ HI) _ _ Hf). }
      cbn [mbind option_bind].
      edestruct udp_round as (can & -> & Hround); try done. cbn [mbind option_bind].
      destruct (decide (can = coalesceAppend)) as [->|].
      * destruct Hround as (r & it' & bufs' & -> & Hr); [done|]. cbn [mbind option_bind].
        destruct r; try subst bufs'.
        5:{ destruct Hr as (u' & -> & Hout). cbn [mbind option_bind]. by exists groResultCoalesced, bufs', u'. }
        all: edestruct (udp_insert_step v6 t) as (u' & -> & HI'); try done; cbn [mbind option_bind].
        all: by exists groResultTableInsert, bufs, u'.
      * cbn [mbind option_bind]. edestruct (udp_insert_step v6 t) as (u' & -> & HI'); try done. cbn [mbind option_bind].
        by exists groResultTableInsert, bufs, u'.
    + edestruct (udp_insert_step v6 t) as (u' & -> & HI'); try done. cbn [mbind option_bind].
      by exists groResultTableInsert, bufs, u'.
  - rewrite (udpGRO_refused e bufs off (Z.of_nat k) v6 (tail off b)) by (rewrite ?Hbytes; first [done|simpl; lia]).
    by exists groResultNoop, bufs, u.
Qed.

End step.
