(* ===== verification/GroBatch.v ===== *)
(** * A whole batch

    The loop of [handleGRO]: it runs through the batch without a panic or an
    error and leaves every packet in exactly one group. *)

From stdpp Require Import base numbers list.
From S2P Require Import Prelude Setters Slices Checksum Gso GsoCorrect Gro GroBytes GroMerge GroGroups.
From S2P Require Import GroTable GroCore GroOrder GroStep.

Open Scope Z_scope.

(** ** The virtio-net header in front of a packet *)

(** The buffer with the bytes [H] in front of the packet at [off]. *)
Definition headed (off : Z) (H : list Z) (b : In) : In := mkIn (splice (mem b) (off - virtioNetHdrLen) H) (len_in b).

Lemma zlen_hdr_bytes e hdr : zlen (hdr_bytes e hdr) = 10.
Proof. unfold zlen. by rewrite length_hdr_bytes. Qed.

Lemma splice_view m i n H :
  0 <= i -> i <= n <= zlen m -> i + zlen H <= n -> splice m i (splice (drop (Z.to_nat i) (take (Z.to_nat n) m)) 0 H) = splice m i H.
Proof.
  intros Hi Hn HH. unfold splice, zlen in *. rewrite take_0. cbn [app]. f_equal. rewrite <- app_assoc. f_equal.
  rewrite drop_drop, length_app, length_drop, length_take.
  assert (drop (Z.to_nat i + length H) m = drop (Z.to_nat i + length H) (take (Z.to_nat n) m) ++ drop (Z.to_nat n) m) as ->.
  { rewrite <- (take_drop (Z.to_nat n) m) at 1. by rewrite drop_app_le by len. }
  f_equal; f_equal; lia.
Qed.

Lemma encode_at_eq e hdr bufs i b off :
  virtioNetHdrLen <= off -> get_buf bufs i = Some b -> buf_ok off b ->
  encode_at e hdr bufs i (off - virtioNetHdrLen) = Some (None, set_buf bufs i (headed off (hdr_bytes e hdr) b)).
Proof.
  intros Ho Hb [Hwf Hl]. unfold encode_at, virtioNetHdrLen in *. rewrite Hb. cbn [mbind option_bind].
  rewrite tail_from_eq by lia. cbn [mbind option_bind]. rewrite in_bytes_tail by (first [done|lia]).
  unfold encode. pose proof (zlen_pkt (off - 10) b Hwf ltac:(lia)) as Hz. unfold virtioNetHdrLen.
  replace (zlen (pkt_of (off - 10) b) <? 10) with false by lia. do 3 f_equal. unfold headed, virtioNetHdrLen. f_equal.
  unfold pkt_of, in_bytes. apply splice_view; rewrite ?zlen_hdr_bytes; unfold wf_in, cap in Hwf; lia.
Qed.

Lemma headed_ok off H b :
  virtioNetHdrLen <= off -> buf_ok off b -> zlen H = 10 -> is_bytes H ->
  buf_ok off (headed off H b) /\ pkt_of off (headed off H b) = pkt_of off b /\
  front off (headed off H b) = H.
Proof.
  intros Ho [Hwf Hl] Hz HH. unfold virtioNetHdrLen in *.
  assert (in_bytes (headed off H b) = splice (in_bytes b) (off - 10) H) as E.
  { apply in_bytes_splice; [done|lia|lia]. }
  pose proof (zlen_in_bytes b Hwf) as Hzb. split_and!.
  - split; [|done]. apply wf_splice; [done|unfold virtioNetHdrLen; lia| |done]. unfold virtioNetHdrLen, wf_in in *. lia.
  - unfold pkt_of. rewrite E.
    rewrite <- !sub_drop by lia. rewrite zlen_splice by lia. apply sub_splice_out; lia.
  - unfold front, virtioNetHdrLen. rewrite E. apply sub_splice_eq; lia.
Qed.

Section batch.
Context (e : endian) (off : Z) (canUDP : bool) (orig : list In).
Context (Hoff : virtioNetHdrLen <= off) (Horig : Forall (buf_ok off) orig) (Hmax : (length orig <= 128)%nat).

Notation P := (packets off orig).

(** What the classification of a packet means. *)
Lemma candidate_ok pkt :
  wf_in pkt ->
  let p := in_bytes pkt in
  match packetIsGROCandidate pkt canUDP with
  | tcp4GROCandidate => version_ok false p = true /\ proto_of false p = IPPROTO_TCP /\ iph false + 20 <= zlen p
  | tcp6GROCandidate => version_ok true p = true /\ proto_of true p = IPPROTO_TCP /\ iph true + 20 <= zlen p
  | udp4GROCandidate =>
      canUDP = true /\ version_ok false p = true /\ proto_of false p = IPPROTO_UDP /\ iph false + 8 <= zlen p
  | udp6GROCandidate =>
      canUDP = true /\ version_ok true p = true /\ proto_of true p = IPPROTO_UDP /\ iph true + 8 <= zlen p
  | notGROCandidate => forall v6, canUDP = true -> ~ datagram v6 p
  end.
Proof.
  intros Hwf p. unfold packetIsGROCandidate. pose proof (zlen_in_bytes pkt Hwf) as Hz. fold p in Hz.
  destruct (len_in pkt <? 28) eqn:E28; zbool.
  { intros v6 _ Hd. apply datagram_bounds in Hd as (? & _). pose proof (iph_bounds v6). lia. }
  rewrite !at_mem by (first [done|lia]). fold p. unfold version_ok, proto_of, iph.
  destruct (Z.shiftr (at_ p 0) 4 =? 4) eqn:E4; zbool.
  - destruct (Z.land (at_ p 0) 15 =? 5) eqn:E5; cbn [negb].
    2:{ intros v6 _ (Hv & _). unfold version_ok in Hv. destruct v6; rewrite ?E4, ?E5 in Hv; [done|by rewrite andb_false_r in Hv]. }
    destruct ((at_ p 9 =? IPPROTO_TCP) && (len_in pkt >=? 40)) eqn:Et.
    { apply andb_true_iff in Et as [Et1 Et2]. zbool. split_and!; [done|done|lia]. }
    destruct ((at_ p 9 =? IPPROTO_UDP) && canUDP) eqn:Eu.
    { apply andb_true_iff in Eu as [Eu1 Eu2]. zbool. split_and!; [done|done|done|lia]. }
    intros v6 Hc (Hv & Hpr & _). unfold version_ok, proto_of in *. destruct v6; rewrite E4 in Hv; [done|].
    by rewrite Hpr, Hc in Eu.
  - destruct (Z.shiftr (at_ p 0) 4 =? 6) eqn:E6; zbool.
    2:{ intros v6 _ (Hv & _). unfold version_ok in Hv. destruct v6; rewrite ?andb_true_iff, ?Z.eqb_eq in Hv; tauto. }
    destruct ((at_ p 6 =? IPPROTO_TCP) && (len_in pkt >=? 60)) eqn:Et.
    { apply andb_true_iff in Et as [Et1 Et2]. zbool. split_and!; [done|done|lia]. }
    destruct ((at_ p 6 =? IPPROTO_UDP) && (len_in pkt >=? 48) && canUDP) eqn:Eu.
    { rewrite !andb_true_iff in Eu. destruct Eu as [[Eu1 Eu2] Eu3]. zbool. split_and!; [done|done|done|lia]. }
    intros v6 Hc Hd. pose proof (datagram_bounds _ _ Hd) as (Hl & _). destruct Hd as (Hv & Hpr & _).
    unfold version_ok, proto_of in *. destruct v6; rewrite E6 in Hv; [|done].
    rewrite Hpr, Hc in Eu. unfold iph in Hl. replace (len_in pkt >=? 48) with true in Eu by lia. done.
Qed.

(** A packet that is not a datagram to merge is in no flow. *)
Lemma no_flow v6 k :
  version_ok v6 (P k) = true -> proto_of v6 (P k) <> IPPROTO_UDP \/ udp_ok v6 (P k) = false ->
  forall key, ~ in_flow P canUDP key k.
Proof.
  intros Hv H key (_ & (Hv' & Hpr & Hok & _) & _). assert (u_isV6 key = v6) as E.
  { unfold version_ok in *. destruct (u_isV6 key), v6; rewrite ?andb_true_iff, ?Z.eqb_eq in *; [done| | |done].
    all: destruct_and?; lia. }
  rewrite E in *. destruct H; congruence.
Qed.

(** The batch after [k] packets. *)
Definition BInv (k : nat) (s : Batch) (out : groups) : Prop :=
  Inv e off canUDP orig k (b_bufs s) (b_tcp s) (b_udp s) out /\ b_toWrite s = Z.of_nat <$> (fst <$> out).

(** The switch over the kind of the packet; a packet left alone is in no flow. *)
Lemma gro_packet_ok k s out :
  BInv k s out -> (k < length orig)%nat ->
  exists r s', gro_packet e off canUDP (Z.of_nat k) s = Some (r, s') /\ b_toWrite s' = b_toWrite s /\
    outcome e off canUDP orig k (b_bufs s) out r (b_bufs s') (b_tcp s') (b_udp s') /\
    (r = groResultNoop -> forall key, ~ in_flow P canUDP key k).
Proof.
  intros [HI _] Hk. pose proof (v_core _ _ _ _ _ _ _ _ _ HI) as C.
  destruct (current e off orig Horig Hmax _ _ _ Hk _ C) as (b & _ & [Hwf Hl] & Hp & Hb).
  assert (0 <= off) by (unfold virtioNetHdrLen in Hoff; lia).
  unfold gro_packet. rewrite (buf_from_eq _ _ off _ Hb) by lia. cbn [mbind option_bind].
  pose proof (candidate_ok (tail off b) (wf_tail off b Hwf ltac:(lia))) as Hc.
  rewrite in_bytes_tail, Hp in Hc by (first [done|lia]).
  destruct (packetIsGROCandidate _ _).
  - exists groResultNoop, s. split_and!; try done. intros _ key (H1 & H2 & _). by apply (Hc (u_isV6 key)).
  - destruct Hc as (Hv & Hpr & Hlong). edestruct (tcp_step e off canUDP orig) as (r & bufs' & t' & -> & Ho); try done.
    cbn [mbind option_bind]. eexists r, _. split; [done|]. split_and!; [done|done|]. intros _. apply no_flow with false; [done|].
    left. by rewrite Hpr.
  - destruct Hc as (Hv & Hpr & Hlong). edestruct (tcp_step e off canUDP orig) as (r & bufs' & t' & -> & Ho); try done.
    cbn [mbind option_bind]. eexists r, _. split; [done|]. split_and!; [done|done|]. intros _. apply no_flow with true; [done|].
    left. by rewrite Hpr.
  - destruct Hc as (Hcan & Hv & Hpr & Hlong).
    edestruct (udp_step e off canUDP orig) as (r & bufs' & u' & -> & Ho & Hno); try done.
    cbn [mbind option_bind]. eexists r, _. split; [done|]. split_and!; [done|done|]. intros Hr.
    apply no_flow with false; [done|]. right. by apply Hno.
  - destruct Hc as (Hcan & Hv & Hpr & Hlong).
    edestruct (udp_step e off canUDP orig) as (r & bufs' & u' & -> & Ho & Hno); try done.
    cbn [mbind option_bind]. eexists r, _. split; [done|]. split_and!; [done|done|]. intros Hr.
    apply no_flow with true; [done|]. right. by apply Hno.
Qed.

Lemma hdr_none_bytes : is_bytes (hdr_bytes e hdr_none).
Proof. destruct e; decide_closed. Qed.

Lemma gro_step_ok k s out :
  BInv k s out -> (k < length orig)%nat ->
  exists s' out', gro_step e off canUDP (Z.of_nat k) s = Some (None, s') /\ BInv (S k) s' out'.
Proof.
  intros HB Hk. destruct HB as [HI Hw]. pose proof (v_core _ _ _ _ _ _ _ _ _ HI) as C.
  destruct (current e off orig Horig Hmax _ _ _ Hk _ C) as (b & Hbk & Hbok & Hp & Hb). pose proof Hbok as [Hwf Hl].
  unfold gro_step. rewrite Hb. cbn [mbind option_bind].
  replace ((off <? virtioNetHdrLen) || (off >? len_in b - 1)) with false by lia.
  destruct (gro_packet_ok k s out (conj HI Hw) Hk) as (r & s' & -> & Hw' & Ho & Hno). cbn [mbind option_bind].
  destruct r.
  - destruct Ho as (Hbs & HI'). rewrite <- Hbs in Hb. rewrite (encode_at_eq _ _ _ _ _ _ Hoff Hb Hbok). cbn [mbind option_bind].
    eexists _, (out ++ [(k, [k])]). split; [done|]. split; cbn [b_bufs b_tcp b_udp b_toWrite].
    2:{ rewrite Hw', Hw, !fmap_app. done. }
    destruct (headed_ok off (hdr_bytes e hdr_none) b Hoff Hbok (zlen_hdr_bytes _ _) hdr_none_bytes) as (H1 & H2 & H3).
    rewrite <- Hbs in HI'. destruct HI' as [C' Ht Hu Hst Hsu Hord]. split; try done.
    + rewrite set_buf_nat. apply core_add_alone; try done. by rewrite H2.
    + eapply stocked_le; [done|lia].
    + eapply stocked_le; [done|lia].
    + apply ord_add_other; [done|]. by apply Hno.
  - destruct Ho as (Hbs & HI'). eexists _, (out ++ [(k, [k])]). split; [done|]. split; cbn [b_bufs b_tcp b_udp b_toWrite].
    + by rewrite Hbs.
    + rewrite Hw', Hw, !fmap_app. done.
  - destruct Ho as (out' & Hf & HI'). exists s', out'. split; [done|]. split; [done|]. by rewrite Hw', Hw, Hf.
Qed.

Lemma gro_loop_ok m k s out :
  BInv k s out -> (k + m = length orig)%nat ->
  exists s' out', gro_loop e off canUDP (Z.of_nat <$> seq k m) s = Some (None, s') /\ BInv (length orig) s' out'.
Proof.
  revert k s out. induction m as [|m IH]; intros k s out HB Hm.
  - exists s, out. rewrite <- Hm, Nat.add_0_r. done.
  - destruct (gro_step_ok k s out HB ltac:(lia)) as (s' & out' & E & HB').
    cbn [seq fmap list_fmap gro_loop]. rewrite E. cbn [mbind option_bind]. apply (IH (S k) s' out'); [done|lia].
Qed.

(** The start of a batch. *)
Lemma start_inv t u :
  t = newTCPGROTable -> u = newUDPGROTable -> BInv 0 (mkBatch orig t u []) [].
Proof.
  intros -> ->. split; [|done]. split; try done.
  - split; try done. all: cbn; try by constructor. by intros w g ?%not_elem_of_nil.
  - by constructor.
  - by constructor.
  - split; intros; try lia; done.
Qed.

End batch.
