(* ===== verification/GroAccount.v ===== *)
(** * The headers of merged packets

    [applyTCPCoalesceAccounting] and [applyUDPCoalesceAccounting] give every
    packet of an item its virtio-net header, and a merged one the lengths and
    checksums that belong to it. *)

From stdpp Require Import base numbers list.
From S2P Require Import Prelude Setters Slices Checksum Gso GsoCorrect Gro GroBytes GroMerge GroCore GroBatch.

Open Scope Z_scope.

(** ** Packets *)

(** The packet with the length of its IP header set, and for IPv4 its checksum. *)
Definition ip_fixed (e : endian) (v6 : bool) (q : list Z) : list Z :=
  if v6 then splice q 4 (be_put 2 (zlen q - 40))
  else
    let q1 := splice (splice q 10 [0; 0]) 2 (be_put 2 (zlen q)) in
    splice q1 10 (be_put 2 (not16 (checksum e (sub q1 0 20) 0))).

(** The sum of the pseudo header of a packet. *)
Definition pseudo_of (e : endian) (v6 tcp : bool) (q : list Z) : Z :=
  pseudoHeaderChecksumNoFold e (protocol_of tcp) (src_of v6 q) (dst_of v6 q) (zlen q - iph v6).

(** The packet with all its headers set: the checksum field of the transport
    header holds the sum of the pseudo header. *)
Definition fixed (e : endian) (v6 tcp : bool) (q : list Z) : list Z :=
  let q1 := ip_fixed e v6 q in
  let q2 := if tcp then q1 else splice q1 (iph v6 + 4) (be_put 2 (zlen q - iph v6)) in
  splice q2 (iph v6 + csum_at tcp) (be_put 2 (checksum e [] (pseudo_of e v6 tcp q2))).

(** What the headers of a merged packet [q'] say, given the packet [q] as it was
    put together: the lengths are right, the IPv4 header checksum verifies, the
    transport checksum is left to the receiver, and nothing else changed. *)
Record headers_fixed (e : endian) (v6 tcp : bool) (q q' : list Z) : Prop := {
  hf_len : zlen q' = zlen q;
  hf_ip_len : if v6 then be_uint (sub q' 4 6) = zlen q' - 40 else be_uint (sub q' 2 4) = zlen q';
  hf_ip_sum : v6 = false -> not16 (checksum e (sub q' 0 20) 0) = 0;
  hf_udp_len : tcp = false -> be_uint (sub q' (iph v6 + 4) (iph v6 + 6)) = zlen q' - iph v6;
  hf_sum : sub q' (iph v6 + csum_at tcp) (iph v6 + csum_at tcp + 2) = be_put 2 (checksum e [] (pseudo_of e v6 tcp q'));
  hf_rest : forall lo hi, 0 <= lo <= hi -> hi <= zlen q ->
    (if v6 then hi <= 4 \/ 6 <= lo else hi <= 2 \/ 4 <= lo /\ (hi <= 10 \/ 12 <= lo)) ->
    (if tcp then hi <= iph v6 + 16 \/ iph v6 + 18 <= lo else hi <= iph v6 + 4 \/ iph v6 + 8 <= lo) ->
    sub q' lo hi = sub q lo hi
}.

(** ** Writing into a buffer *)

(** The buffer with [y] at [i] of its packet. *)
Definition upd (off i : Z) (y : list Z) (b : In) : In := mkIn (splice (mem b) (off + i) y) (len_in b).

Lemma upd_ok off i y b :
  0 <= off -> buf_ok off b -> 0 <= i -> i + zlen y <= len_in b - off -> is_bytes y ->
  buf_ok off (upd off i y b) /\ pkt_of off (upd off i y b) = splice (pkt_of off b) i y /\
  (virtioNetHdrLen <= off -> front off (upd off i y b) = front off b).
Proof.
  intros Ho [Hwf Hl] Hi Hy Hb. pose proof (zlen_nonneg y). split_and!.
  - split; [|done]. apply wf_splice; [done|lia|unfold wf_in in Hwf; lia|done].
  - apply pkt_of_splice; [done|done|done|lia].
  - intros Hv. unfold front, upd, virtioNetHdrLen in *. rewrite in_bytes_splice by (first [done|lia]).
    apply sub_splice_out; rewrite ?zlen_in_bytes by done; lia.
Qed.

Lemma in_put_be_eq n off i x b :
  0 <= off + i -> off + i + Z.of_nat n <= len_in b -> in_put_be n b (off + i) x = Some (upd off i (be_put n x) b).
Proof. intros. unfold in_put_be. by rewrite decide_True by lia. Qed.

Lemma acc_bounds off b :
  virtioNetHdrLen <= off -> buf_ok off b ->
  0 <= off /\ wf_in b /\ zlen (pkt_of off b) = len_in b - off /\ len_in b <= 65535.
Proof.
  intros Hoff [Hwf Hl]. unfold virtioNetHdrLen in Hoff. rewrite zlen_pkt by (first [done|lia]).
  split_and!; [lia|done|done|unfold wf_in in Hwf; lia].
Qed.

(** A slice of the packet, read in the buffer. *)
Lemma in_slice_pkt off b lo hi :
  virtioNetHdrLen <= off -> buf_ok off b -> 0 <= lo <= hi -> hi <= zlen (pkt_of off b) ->
  in_slice b (off + lo) (off + hi) = Some (sub (pkt_of off b) lo hi).
Proof.
  intros Hoff Hb H1 H2. destruct (acc_bounds off b Hoff Hb) as (Ho & Hwf & Hz & _).
  rewrite in_slice_eq by (first [done|lia]). f_equal.
  unfold pkt_of, sub. rewrite drop_drop. f_equal; [lia|f_equal; lia].
Qed.

Section account.
Context (e : endian) (off : Z) (v6 : bool) (b : In).
Context (Hoff : virtioNetHdrLen <= off) (Hb : buf_ok off b).

Notation q := (pkt_of off b).

Lemma account_ip_ok :
  iph v6 <= zlen q ->
  exists b', account_ip e b off (iph v6) v6 = Some b' /\ buf_ok off b' /\ len_in b' = len_in b /\
    pkt_of off b' = ip_fixed e v6 q.
Proof.
  intros Hl. destruct (acc_bounds off b Hoff Hb) as (Ho & Hwf & Hz & Hm). unfold account_ip, ip_fixed, iph in *.
  rewrite tail_from_eq by (destruct Hb; lia). cbn [mbind option_bind len_in tail]. rewrite <- Hz.
  rewrite (u16_small (zlen q)) by (unfold is_u16; pose proof (zlen_nonneg q); lia). destruct v6.
  - rewrite (u16_small 40), u16_small by (unfold is_u16; lia). rewrite in_put_be_eq by lia.
    destruct (upd_ok off 4 (be_put 2 (zlen q - 40)) b) as (H1 & H2 & _); [done|done|lia|rewrite zlen_be_put; lia
      |apply is_bytes_be_put|].
    by eexists.
  - replace (off + 11) with (off + 10 + 1) by lia.
    rewrite in_set_two by (first [lia|unfold wf_in, cap in Hwf; lia]). fold (upd off 10 [0; 0] b).
    destruct (upd_ok off 10 [0; 0] b) as (A1 & A2 & _); [done|done|lia|change (zlen [0; 0]) with 2; lia|by repeat constructor|].
    rewrite in_put_be_eq by (simpl; lia). cbn [mbind option_bind].
    destruct (upd_ok off 2 (be_put 2 (zlen q)) (upd off 10 [0; 0] b)) as (B1 & B2 & _);
      [done|done|lia|rewrite zlen_be_put; simpl; lia|apply is_bytes_be_put|].
    set (b2 := upd off 2 _ _) in *. assert (zlen (pkt_of off b2) = zlen q) as Hz2.
    { destruct (acc_bounds off b2 Hoff B1) as (_ & _ & -> & _). simpl. lia. }
    replace (in_slice b2 off (off + 20)) with (in_slice b2 (off + 0) (off + 20)) by (f_equal; lia).
    rewrite in_slice_pkt by (first [done|lia]). cbn [mbind option_bind]. rewrite in_put_be_eq by (simpl; lia).
    rewrite B2, A2. set (y := be_put 2 _).
    destruct (upd_ok off 10 y b2) as (C1 & C2 & _); [done|done|lia|unfold y; rewrite zlen_be_put; simpl; lia
      |apply is_bytes_be_put|].
    eexists. split; [done|]. split_and!; [done|done|]. by rewrite C2, B2, A2.
Qed.

Lemma account_pseudo_ok tcp :
  iph v6 + csum_at tcp + 2 <= zlen q ->
  exists b', account_pseudo e b off (iph v6) (protocol_of tcp) (iph v6 + csum_at tcp) v6 = Some b' /\ buf_ok off b' /\
    len_in b' = len_in b /\ front off b' = front off b /\
    pkt_of off b' = splice q (iph v6 + csum_at tcp) (be_put 2 (checksum e [] (pseudo_of e v6 tcp q))).
Proof.
  intros Hl. destruct (acc_bounds off b Hoff Hb) as (Ho & Hwf & Hz & Hm). pose proof (iph_bounds v6).
  assert (0 <= csum_at tcp) as Hct by (by destruct tcp). unfold account_pseudo.
  rewrite tail_from_eq by (destruct Hb; lia). cbn [mbind option_bind len_in tail]. rewrite <- Hz.
  change (if v6 then ipv6SrcAddrOffset else ipv4SrcAddrOffset) with (addr_at v6).
  change (if v6 then 16 else 4) with (addr_len v6). rewrite <- !Z.add_assoc.
  assert (0 <= addr_at v6 /\ 0 <= addr_len v6 /\ addr_at v6 + addr_len v6 * 2 <= iph v6) as (Ha1 & Ha2 & Ha3).
  { unfold addr_at, addr_len, iph. destruct v6; lia. }
  rewrite in_slice_pkt by (first [done|lia]). cbn [mbind option_bind].
  rewrite in_slice_pkt by (first [done|lia]). cbn [mbind option_bind].
  rewrite u16_small by (unfold is_u16; lia). rewrite in_put_be_eq by lia.
  destruct (upd_ok off (iph v6 + csum_at tcp) (be_put 2 (checksum e [] (pseudo_of e v6 tcp q))) b) as (C1 & C2 & C3);
    [done|done|lia|rewrite zlen_be_put; lia|apply is_bytes_be_put|].
  eexists. split; [done|]. split_and!; [done|done|by apply C3|done].
Qed.

End account.

(** ** Items *)

Lemma hdr_bytes_bytes e hdr : is_u8 (flags hdr) -> is_u8 (gsoType hdr) -> is_bytes (hdr_bytes e hdr).
Proof.
  intros H1 H2. unfold hdr_bytes. rewrite !is_bytes_app. split_and!.
  - apply Forall_cons; split; [done|]. apply Forall_cons; split; [done|]. apply Forall_nil_2.
  - destruct e; [apply is_bytes_le_put|apply is_bytes_be_put].
  - destruct e; [apply is_bytes_le_put|apply is_bytes_be_put].
  - destruct e; [apply is_bytes_le_put|apply is_bytes_be_put].
  - destruct e; [apply is_bytes_le_put|apply is_bytes_be_put].
Qed.

(** The buffer [b'] is [b] with its headers in place: those of a merged packet,
    or an empty virtio-net header. *)
Definition accounted (e : endian) (off : Z) (v6 tcp : bool) (merged : bool) (hdr : virtioNetHdr) (b b' : In) : Prop :=
  buf_ok off b' /\
  if merged then front off b' = hdr_bytes e hdr /\ pkt_of off b' = fixed e v6 tcp (pkt_of off b)
  else front off b' = hdr_bytes e hdr_none /\ pkt_of off b' = pkt_of off b.

Section items.
Context (e : endian) (off : Z) (bufs : list In) (w : nat) (b : In).
Context (Hoff : virtioNetHdrLen <= off) (Hw : bufs !! w = Some b) (Hb : buf_ok off b).

Notation q := (pkt_of off b).

Lemma account_none :
  exists b', encode_at e hdr_none bufs (Z.of_nat w) (off - virtioNetHdrLen) = Some (None, <[w := b']> bufs) /\
    buf_ok off b' /\ front off b' = hdr_bytes e hdr_none /\ pkt_of off b' = q.
Proof.
  assert (get_buf bufs (Z.of_nat w) = Some b) as Hg.
  { unfold get_buf. rewrite decide_True by lia. by rewrite Nat2Z.id. }
  rewrite (encode_at_eq _ _ _ _ _ _ Hoff Hg Hb).
  destruct (headed_ok off (hdr_bytes e hdr_none) b Hoff Hb (zlen_hdr_bytes _ _)) as (H1 & H2 & H3).
  { by apply hdr_bytes_bytes. }
  eexists. split; [unfold set_buf; by rewrite Nat2Z.id|done].
Qed.

(** The IP header and the virtio-net header of a merged packet. *)
Lemma account_headed v6 hdr :
  iph v6 <= zlen q -> is_u8 (flags hdr) -> is_u8 (gsoType hdr) ->
  exists b1 b2, get_buf bufs (Z.of_nat w) = Some b /\ account_ip e b off (iph v6) v6 = Some b1 /\
    encode_at e hdr (set_buf bufs (Z.of_nat w) b1) (Z.of_nat w) (off - virtioNetHdrLen) = Some (None, <[w := b2]> bufs) /\
    get_buf (<[w := b2]> bufs) (Z.of_nat w) = Some b2 /\
    buf_ok off b2 /\ len_in b2 = len_in b /\ front off b2 = hdr_bytes e hdr /\ pkt_of off b2 = ip_fixed e v6 q.
Proof.
  intros Hl H8 H8'. destruct (account_ip_ok e off v6 b Hoff Hb Hl) as (b1 & E1 & K1 & L1 & P1).
  assert (forall l x, l !! w = Some x -> get_buf l (Z.of_nat w) = Some x) as Hg.
  { intros l x Hx. unfold get_buf. rewrite decide_True by lia. by rewrite Nat2Z.id. }
  assert (w < length bufs)%nat as Hlt by (by eapply lookup_lt_Some).
  destruct (headed_ok off (hdr_bytes e hdr) b1 Hoff K1 (zlen_hdr_bytes _ _)) as (H1 & H2 & H3).
  { by apply hdr_bytes_bytes. }
  exists b1, (headed off (hdr_bytes e hdr) b1). split_and!; try done.
  - by apply Hg.
  - rewrite (encode_at_eq e hdr _ _ b1) by (first [done|by apply get_set_buf with b, Hg]). rewrite set_set_buf.
    unfold set_buf. by rewrite Nat2Z.id.
  - by apply Hg, list_lookup_insert_eq.
  - by rewrite H2.
Qed.

Lemma account_tcp_ok it :
  let v6 := t_isV6 (t_key it) in
  t_bufsIndex it = Z.of_nat w -> t_iphLen it = iph v6 -> 20 <= tcphLen it <= 60 -> iph v6 + tcphLen it <= zlen q ->
  exists b', account_tcp e off bufs it = Some (None, <[w := b']> bufs) /\
    accounted e off v6 true (t_numMerged it >? 0) (tcp_hdr it) b b'.
Proof.
  intros v6 Hi Hip Ht Hl. unfold account_tcp, accounted. rewrite Hi, Hip. pose proof (iph_bounds v6).
  destruct (t_numMerged it >? 0).
  - destruct (account_headed v6 (tcp_hdr it)) as (b1 & b2 & E0 & E1 & E2 & E3 & K2 & L2 & F2 & P2);
      [lia|done|simpl; fold v6; by destruct v6|].
    rewrite E0. cbn [mbind option_bind]. fold v6. rewrite E1. cbn [mbind option_bind]. rewrite E2. cbn [mbind option_bind].
    rewrite E3. cbn [mbind option_bind]. change (csumStart (tcp_hdr it)) with (t_iphLen it).
    change (csumOffset (tcp_hdr it)) with (csum_at true). rewrite Hip, u16_small by (unfold is_u16; simpl; lia).
    assert (zlen (pkt_of off b2) = zlen q) as Hz2.
    { destruct (acc_bounds off b Hoff Hb) as (_ & _ & -> & _), (acc_bounds off b2 Hoff K2) as (_ & _ & -> & _). lia. }
    destruct (account_pseudo_ok e off v6 b2 Hoff K2 true) as (b3 & E4 & K3 & L3 & F3 & P3); [simpl; lia|].
    change IPPROTO_TCP with (protocol_of true). rewrite E4. cbn [mbind option_bind].
    exists b3. split; [unfold set_buf; by rewrite Nat2Z.id, list_insert_insert_eq|].
    split; [done|]. split; [exact (eq_trans F3 F2)|]. rewrite P3, P2. unfold fixed. reflexivity.
  - destruct account_none as (b' & -> & H1 & H2 & H3). by exists b'.
Qed.

Lemma account_udp_ok it :
  let v6 := u_isV6 (u_key it) in
  u_bufsIndex it = Z.of_nat w -> u_iphLen it = iph v6 -> iph v6 + 8 <= zlen q ->
  exists b', account_udp e off bufs it = Some (None, <[w := b']> bufs) /\
    accounted e off v6 false (u_numMerged it >? 0) (udp_hdr it) b b'.
Proof.
  intros v6 Hi Hip Hl. unfold account_udp, accounted. rewrite Hi, Hip. pose proof (iph_bounds v6).
  destruct (u_numMerged it >? 0).
  - destruct (account_headed v6 (udp_hdr it)) as (b1 & b2 & E0 & E1 & E2 & E3 & K2 & L2 & F2 & P2); [lia|done|done|].
    rewrite E0. cbn [mbind option_bind]. fold v6. rewrite E1. cbn [mbind option_bind]. rewrite E2. cbn [mbind option_bind].
    rewrite E3. cbn [mbind option_bind]. change (csumStart (udp_hdr it)) with (u_iphLen it).
    change (csumOffset (udp_hdr it)) with (csum_at false). rewrite Hip, u16_small by (unfold is_u16; simpl; lia).
    destruct (acc_bounds off b Hoff Hb) as (Ho & _ & Hz & Hm), (acc_bounds off b2 Hoff K2) as (_ & _ & Hz2 & _).
    rewrite tail_from_eq by lia. cbn [mbind option_bind len_in tail]. rewrite (u8_small (iph v6 + 4)) by (unfold is_u8; lia).
    rewrite u16_small by (unfold is_u16; lia). rewrite in_put_be_eq by lia. cbn [mbind option_bind].
    destruct (upd_ok off (iph v6 + 4) (be_put 2 (len_in b2 - (off + iph v6))) b2) as (K3 & P3 & F3);
      [done|done|lia|rewrite zlen_be_put; lia|apply is_bytes_be_put|].
    set (b3 := upd off _ _ b2) in *. assert (zlen (pkt_of off b3) = zlen q) as Hz3.
    { destruct (acc_bounds off b3 Hoff K3) as (_ & _ & -> & _). simpl. lia. }
    destruct (account_pseudo_ok e off v6 b3 Hoff K3 false) as (b4 & E4 & K4 & L4 & F4 & P4); [simpl; lia|].
    change IPPROTO_UDP with (protocol_of false). rewrite E4. cbn [mbind option_bind].
    exists b4. split; [unfold set_buf; by rewrite Nat2Z.id, list_insert_insert_eq|].
    split; [done|]. split; [rewrite F4, (F3 Hoff); exact F2|]. rewrite P4, P3, P2. unfold fixed.
    replace (len_in b2 - (off + iph v6)) with (zlen q - iph v6) by lia. reflexivity.
  - destruct account_none as (b' & -> & H1 & H2 & H3). by exists b'.
Qed.

End items.

(** ** The headers say the right thing *)

Section fixed.
Context (e : endian) (v6 tcp : bool) (q : list Z).
Context (Hl : iph v6 + csum_at tcp + 2 <= zlen q) (Hm : zlen q <= 65535) (Hb : is_bytes q).

Lemma csum_bounds : 6 <= csum_at tcp <= 16.
Proof. destruct tcp; simpl; lia. Qed.

(** The parts of the IP header of [ip_fixed]. *)
Lemma ip_fixed_spec :
  let q1 := ip_fixed e v6 q in
  zlen q1 = zlen q /\ is_bytes q1 /\
  (if v6 then sub q1 4 6 = be_put 2 (zlen q - 40) else sub q1 2 4 = be_put 2 (zlen q)) /\
  (v6 = false -> not16 (checksum e (sub q1 0 20) 0) = 0) /\
  (forall lo hi, 0 <= lo <= hi -> hi <= zlen q ->
    (if v6 then hi <= 4 \/ 6 <= lo else hi <= 2 \/ 4 <= lo /\ (hi <= 10 \/ 12 <= lo)) -> sub q1 lo hi = sub q lo hi).
Proof.
  pose proof csum_bounds. unfold ip_fixed, iph in *. destruct v6.
  - rewrite zlen_splice by (rewrite ?zlen_be_put; lia). split_and!; [done| | |done|].
    + apply is_bytes_splice; [done|apply is_bytes_be_put].
    + reads. done.
    + intros lo hi H1 H2 H3. apply sub_splice_out; rewrite ?zlen_be_put; lia.
  - set (z := splice q 10 [0; 0]). assert (zlen z = zlen q) as Hz by (unfold z; apply zlen_splice; [lia|change (zlen [0; 0]) with 2; lia]).
    set (y := splice z 2 _). assert (zlen y = zlen q) as Hy by (unfold y; rewrite zlen_splice by (rewrite ?zlen_be_put; lia); done).
    assert (is_bytes y) as Hby.
    { unfold y, z. apply is_bytes_splice; [|apply is_bytes_be_put]. apply is_bytes_splice; [done|]. by repeat constructor. }
    set (c := be_put 2 (not16 _)). assert (zlen c = 2) as Hc by apply zlen_be_put.
    split_and!.
    + rewrite zlen_splice by lia. done.
    + apply is_bytes_splice; [done|apply is_bytes_be_put].
    + rewrite sub_splice_out by lia. unfold y. reads. done.
    + intros _. rewrite sub_splice_in by lia. rewrite Hc. unfold c.
      assert (sub y 0 20 = sub y 0 10 ++ [0; 0] ++ sub y 12 20) as ->.
      { rewrite (sub_app_split y 0 10 20), (sub_app_split y 10 12 20) by lia. do 2 f_equal.
        unfold y. rewrite sub_splice_out by (rewrite ?zlen_be_put; lia). unfold z.
        apply sub_splice_eq; [done|done|lia|change (zlen [0; 0]) with 2; lia]. }
      apply fills_checksum; [exists 5%nat; unfold sub; rewrite length_take, length_drop; unfold zlen in *; lia
        |by apply is_bytes_sub|by apply is_bytes_sub|done].
    + intros lo hi H1 H2 H3. rewrite sub_splice_out by lia. unfold y.
      rewrite sub_splice_out by (rewrite ?zlen_be_put; lia). unfold z.
      apply sub_splice_out; change (zlen [0; 0]) with 2; lia.
Qed.

Lemma be_uint_put2 x : 0 <= x < 2 ^ 16 -> be_uint (be_put 2 x) = x.
Proof. intros. by apply (ne_uint_put2 Big). Qed.

(** The pseudo header does not depend on what comes after the IP header. *)
Lemma pseudo_splice a i y :
  iph v6 <= i -> i + zlen y <= zlen a -> pseudo_of e v6 tcp (splice a i y) = pseudo_of e v6 tcp a.
Proof.
  intros Hi Hy. pose proof (iph_bounds v6). pose proof (zlen_nonneg y). unfold pseudo_of.
  rewrite zlen_splice by lia. unfold src_of, dst_of, addr_at, addr_len, iph in *.
  destruct v6; rewrite !sub_splice_out by lia; done.
Qed.

Lemma fixed_ok : headers_fixed e v6 tcp q (fixed e v6 tcp q).
Proof.
  pose proof csum_bounds. pose proof (iph_bounds v6). destruct ip_fixed_spec as (Z1 & B1 & L1 & S1 & R1).
  unfold fixed. set (q1 := ip_fixed e v6 q) in *.
  set (q2 := if tcp then q1 else splice q1 (iph v6 + 4) (be_put 2 (zlen q - iph v6))).
  assert (zlen q2 = zlen q) as Z2 by (unfold q2; destruct tcp; [done|rewrite zlen_splice; rewrite ?zlen_be_put; lia]).
  set (c := be_put 2 (checksum _ _ _)). assert (zlen c = 2) as Hc by apply zlen_be_put.
  assert (forall lo hi, 0 <= lo <= hi -> hi <= zlen q ->
    (if tcp then hi <= iph v6 + 16 \/ iph v6 + 18 <= lo else hi <= iph v6 + 4 \/ iph v6 + 8 <= lo) ->
    sub (splice q2 (iph v6 + csum_at tcp) c) lo hi = sub q1 lo hi) as R2.
  { intros lo hi H1 H2 H3. unfold q2, csum_at in *. destruct tcp; rewrite sub_splice_out by lia; [done|].
    apply sub_splice_out; rewrite ?zlen_be_put; lia. }
  assert (forall lo hi, 0 <= lo <= hi -> hi <= iph v6 -> sub (splice q2 (iph v6 + csum_at tcp) c) lo hi = sub q1 lo hi) as R3.
  { intros lo hi H1 H2. apply R2; [lia|lia|]. destruct tcp; lia. }
  split.
  - rewrite zlen_splice; lia.
  - rewrite zlen_splice, Z2 by lia. unfold iph in *. destruct v6; rewrite R3, L1 by lia; apply be_uint_put2; lia.
  - intros E. rewrite R3 by (rewrite ?E; simpl; lia). by apply S1.
  - intros E. assert (csum_at tcp = 6) as E6 by (by rewrite E). rewrite zlen_splice, Z2 by lia.
    rewrite sub_splice_out by lia. unfold q2. rewrite E.
    rewrite sub_splice_eq by (rewrite ?zlen_be_put; lia). apply be_uint_put2. lia.
  - rewrite pseudo_splice by lia. fold c. apply sub_splice_eq; lia.
  - intros lo hi H1 H2 H3 H4. rewrite R2 by done. by apply R1.
Qed.

End fixed.
