(* ===== verification/GroCorrect.v ===== *)
(** * Writing to the TUN device is correct

    [NativeTun.Write] hands every packet of a batch to the device exactly once,
    alone or as a piece of a merged packet whose headers let the kernel cut it
    into the packets that came in, and the datagrams of a flow in their order. *)

From stdpp Require Import base numbers list.
From S2P Require Import Prelude Setters Slices Checksum Gso GsoCorrect Gro GroBytes GroMerge GroGroups.
From S2P Require Import GroTable GroCore GroOrder GroStep GroBatch GroAccount.

Open Scope Z_scope.

(** ** What is handed to the device *)

(** The virtio-net header of a packet merged from pieces of [size] bytes after
    [hl] bytes of headers. *)
Definition merged_hdr (v6 tcp : bool) (hl size : Z) : virtioNetHdr :=
  mkHdr VIRTIO_NET_HDR_F_NEEDS_CSUM
    (if tcp then (if v6 then VIRTIO_NET_HDR_GSO_TCPV6 else VIRTIO_NET_HDR_GSO_TCPV4) else VIRTIO_NET_HDR_GSO_UDP_L4)
    hl size (iph v6) (csum_at tcp).

(** The frame [x] stands for the packets [g] of the batch: one packet as it came
    in, or a run of segments or datagrams merged into one. A segment with a wrong
    checksum may go out with whatever was in front of it as header. *)
Inductive delivered (e : endian) (P : nat -> list Z) : list nat -> list Z -> Prop :=
| delivered_alone j : delivered e P [j] (hdr_bytes e hdr_none ++ P j)
| delivered_invalid v6 j H :
    segment v6 (P j) -> cs_ok e IPPROTO_TCP v6 (P j) = false -> zlen H = virtioNetHdrLen -> delivered e P [j] (H ++ P j)
| delivered_tcp v6 size psh h r p :
    r <> [] -> tcp_run e P v6 size h r -> (psh = true -> tpsh v6 (P (List.last r h)) = true) ->
    headers_fixed e v6 true (tcp_packet P v6 psh h r) p ->
    delivered e P (h :: r) (hdr_bytes e (merged_hdr v6 true (iph v6 + tcph v6 (P h)) size) ++ p)
| delivered_udp v6 size h r p :
    r <> [] -> udp_run e P v6 size h r -> headers_fixed e v6 false (udp_packet P v6 h r) p ->
    delivered e P (h :: r) (hdr_bytes e (merged_hdr v6 false (iph v6 + 8) size) ++ p).

(** ** The loops over the items *)

Lemma account_all_ok {I : Type} (step : list In -> I -> option (option tun_error * list In)) (ix : I -> nat)
    (good : I -> In -> Prop) (rel : I -> In -> In -> Prop) items bufs :
  (forall l it b, it ∈ items -> l !! ix it = Some b -> good it b ->
    exists b', step l it = Some (None, <[ix it := b']> l) /\ rel it b b') ->
  NoDup (ix <$> items) -> (forall it, it ∈ items -> exists b, bufs !! ix it = Some b /\ good it b) ->
  exists bufs', account_all step items bufs = Some (None, bufs') /\
    (forall it b, it ∈ items -> bufs !! ix it = Some b -> exists b', bufs' !! ix it = Some b' /\ rel it b b') /\
    (forall j, j ∉ ix <$> items -> bufs' !! j = bufs !! j).
Proof.
  revert bufs. induction items as [|it items IH]; intros bufs Hstep Hnd Hgood.
  { exists bufs. split; [done|]. split; [by intros ? ? ?%not_elem_of_nil|done]. }
  rewrite fmap_cons in Hnd. apply NoDup_cons in Hnd as [Hni Hnd].
  destruct (Hgood it ltac:(left)) as (b & Hb & Hg). destruct (Hstep bufs it b ltac:(left) Hb Hg) as (b' & E & Hr).
  assert (forall it0, it0 ∈ items -> ix it <> ix it0) as Hne.
  { intros it0 H0 E0. apply Hni. rewrite E0. by apply list_elem_of_fmap_2. }
  destruct (IH (<[ix it := b']> bufs)) as (bufs' & E' & H1 & H2).
  - intros l it0 b0 H0. apply Hstep. by right.
  - done.
  - intros it0 H0. rewrite list_lookup_insert_ne by by apply Hne. apply Hgood. by right.
  - exists bufs'. cbn [account_all]. rewrite E. cbn [mbind option_bind]. split; [done|]. split.
    + intros it0 b0 [->|H0]%elem_of_cons H0b.
      * exists b'. rewrite H2 by done. rewrite list_lookup_insert_eq by (by eapply lookup_lt_Some).
        rewrite Hb in H0b. by injection H0b as <-.
      * apply H1; [done|]. by rewrite list_lookup_insert_ne by by apply Hne.
    + intros j Hj. rewrite fmap_cons, not_elem_of_cons in Hj. destruct Hj as [Hj1 Hj2].
      rewrite H2 by done. by apply list_lookup_insert_ne.
Qed.

Lemma visit_all {K I : Type} (order : list (K * list I) -> list (K * list I)) (t : GROTable K I) :
  (forall l, order l ≡ₚ l) -> visit order t ≡ₚ all_items (itemsByFlow t).
Proof.
  intros Ho. unfold visit, all_items. pose proof (fmap_Permutation snd _ _ (Ho (itemsByFlow t))) as H.
  induction H; simpl; [done|by rewrite IHPermutation|apply Permutation_app_swap_app|by etrans].
Qed.

(** ** The packets of the items *)

Lemma zlen_cons_pos {A} (x : A) l : (zlen (x :: l) >? 0) = true.
Proof. unfold zlen. rewrite length_cons. apply Z.gtb_lt. lia. Qed.

Section packets.
Context (e : endian) (off : Z) (P : nat -> list Z).
Context (Hoff : virtioNetHdrLen <= off).

Lemma tcp_delivered v6 it h r b b' :
  buf_ok off b -> tcp_item e P v6 it h r (pkt_of off b) ->
  accounted e off v6 true (t_numMerged it >? 0) (tcp_hdr it) b b' -> delivered e P (h :: r) (front off b' ++ pkt_of off b').
Proof.
  intros Hb Hti [_ Hacc]. assert (segment v6 (P h)) as Hh by (by eapply item_head).
  destruct (segment_bounds _ _ Hh) as (Ht & _). pose proof (iph_bounds v6).
  pose proof (item_long _ _ _ _ _ _ _ Hti) as Hlong. destruct (acc_bounds off b Hoff Hb) as (Ho & Hwf & Hz & Hm).
  destruct Hti as [Hrun Hkey Hip Hth Hn _ _ (psh & Hq & Hpsh)]. rewrite Hn in Hacc. destruct r as [|x r].
  - destruct Hacc as [-> ->]. destruct psh; [by destruct Hpsh|]. rewrite Hq, segment_split by done. constructor.
  - rewrite zlen_cons_pos in Hacc. destruct Hacc as [-> ->].
    assert (tcp_hdr it = merged_hdr v6 true (iph v6 + tcph v6 (P h)) (t_gsoSize it)) as ->.
    { unfold tcp_hdr, merged_hdr. rewrite Hkey, Hip, Hth, u8_small by (unfold is_u8; lia). done. }
    apply delivered_tcp with psh; [done|done|by intros [_ ?]%Hpsh|]. rewrite <- Hq.
    apply fixed_ok; [simpl; lia|lia|by apply is_bytes_pkt].
Qed.

Lemma udp_delivered v6 it h r b b' :
  buf_ok off b -> udp_item e P v6 it h r (pkt_of off b) ->
  accounted e off v6 false (u_numMerged it >? 0) (udp_hdr it) b b' -> delivered e P (h :: r) (front off b' ++ pkt_of off b').
Proof.
  intros Hb [Hrun Hkey Hip Hn Hq] [_ Hacc]. pose proof (Forall_inv (urun_datagrams _ _ _ _ _ _ Hrun)) as Hh.
  destruct (udp_packet_data P v6 h r Hh) as [Hz' _]. pose proof (iph_bounds v6).
  pose proof (zlen_nonneg (concat (data P (iph v6 + 8) <$> h :: r))). rewrite <- Hq in Hz'.
  destruct (acc_bounds off b Hoff Hb) as (Ho & Hwf & Hz & Hm). rewrite Hn in Hacc. destruct r as [|x r].
  - destruct Hacc as [-> ->]. rewrite Hq, udp_packet_new. constructor.
  - rewrite zlen_cons_pos in Hacc. destruct Hacc as [-> ->].
    assert (udp_hdr it = merged_hdr v6 false (iph v6 + 8) (u_gsoSize it)) as ->.
    { unfold udp_hdr, merged_hdr, udphLen. rewrite Hip, u8_small by (unfold is_u8; lia). done. }
    apply delivered_udp; [done|done|]. rewrite <- Hq. apply fixed_ok; [simpl; lia|lia|by apply is_bytes_pkt].
Qed.

End packets.

Section accounting.
Context (e : endian) (off : Z) (orig : list In) (n : nat) (bufs : list In) (t : tcpGROTable) (u : udpGROTable).
Context (out : groups) (C : Core e off orig n bufs (items_of t u) out).
Context (Hoff : virtioNetHdrLen <= off).
Context (torder : tcp_order) (uorder : udp_order) (Ht : forall l, torder l ≡ₚ l) (Hu : forall l, uorder l ≡ₚ l).

Notation P := (packets off orig).

Definition tix (it : tcpGROItem) : nat := Z.to_nat (t_bufsIndex it).

Definition uix (it : udpGROItem) : nat := Z.to_nat (u_bufsIndex it).

(** An item, its group and its buffer. *)
Lemma item_buffer x :
  x ∈ items_of t u ->
  exists w g b, idx x = Z.of_nat w /\ (w, g) ∈ out /\ bufs !! w = Some b /\ buf_ok off b /\
    describes e off orig x w g (pkt_of off b).
Proof.
  intros Hx. pose proof (c_its _ _ _ _ _ _ _ C) as H. rewrite Forall_forall in H.
  destruct (H x Hx) as (w & g & b & Hi & Hg & Hb & Hd). exists w, g, b. split_and!; try done.
  pose proof (c_bufs _ _ _ _ _ _ _ C) as Hbs. rewrite Forall_forall in Hbs. by eapply Hbs, list_elem_of_lookup_2.
Qed.

Lemma tcp_in_items it : it ∈ visit torder t <-> inl it ∈ items_of t u.
Proof.
  rewrite (visit_all _ _ Ht). unfold items_of. rewrite elem_of_app, !list_elem_of_fmap. split.
  - intros H. left. by exists it.
  - by intros [(? & [= ->] & ?)|(? & ? & _)].
Qed.

Lemma udp_in_items it : it ∈ visit uorder u <-> inr it ∈ items_of t u.
Proof.
  rewrite (visit_all _ _ Hu). unfold items_of. rewrite elem_of_app, !list_elem_of_fmap. split.
  - intros H. right. by exists it.
  - by intros [(? & ? & _)|(? & [= ->] & ?)].
Qed.

(** The buffers of all items are different. *)
Lemma indices_differ : NoDup ((tix <$> visit torder t) ++ (uix <$> visit uorder u)).
Proof.
  assert (NoDup (Z.to_nat <$> (idx <$> items_of t u))) as H.
  { apply NoDup_fmap_2_strong; [|by eapply c_idx]. intros a b Ha Hb Hab.
    apply list_elem_of_fmap in Ha as (x & -> & Hx), Hb as (y & -> & Hy).
    destruct (item_buffer x Hx) as (? & _ & _ & E & _), (item_buffer y Hy) as (? & _ & _ & E' & _). lia. }
  unfold items_of in H. rewrite !fmap_app, <- !list_fmap_compose in H.
  assert ((tix <$> visit torder t) ++ (uix <$> visit uorder u) ≡ₚ
    (tix <$> all_items (itemsByFlow t)) ++ (uix <$> all_items (itemsByFlow u))) as ->; [|done].
  apply Permutation_app; apply fmap_Permutation; by apply visit_all.
Qed.

(** The buffer holds the packet of an item. *)
Definition tcp_good (it : tcpGROItem) (b : In) : Prop :=
  buf_ok off b /\ exists v6 h r, tcp_item e P v6 it h r (pkt_of off b).

Definition udp_good (it : udpGROItem) (b : In) : Prop :=
  buf_ok off b /\ exists v6 h r, udp_item e P v6 it h r (pkt_of off b).

(** The buffer holds a frame for the packets [g]. *)
Definition frame_ok (g : list nat) (b' : In) : Prop := buf_ok off b' /\ delivered e P g (front off b' ++ pkt_of off b').

Definition tcp_sent (it : tcpGROItem) (b b' : In) : Prop :=
  forall v6 h r, tcp_item e P v6 it h r (pkt_of off b) -> frame_ok (h :: r) b'.

Definition udp_sent (it : udpGROItem) (b b' : In) : Prop :=
  forall v6 h r, udp_item e P v6 it h r (pkt_of off b) -> frame_ok (h :: r) b'.

Lemma account_tcp_sent l it b :
  inl it ∈ items_of t u -> l !! tix it = Some b -> tcp_good it b ->
  exists b', account_tcp e off l it = Some (None, <[tix it := b']> l) /\ tcp_sent it b b'.
Proof.
  intros Hit Hl [Hb (v6 & h & r & Hd)]. destruct (item_buffer _ Hit) as (w & _ & _ & Hw & _).
  pose proof (item_long _ _ _ _ _ _ _ Hd) as Hlong. assert (segment v6 (P h)) as Hh by (by eapply item_head).
  destruct (segment_bounds _ _ Hh) as (Hth & _). pose proof (ti_key _ _ _ _ _ _ _ Hd) as Hk.
  destruct (account_tcp_ok e off l (tix it) b Hoff Hl Hb it) as (b' & E & Ha).
  - unfold tix. simpl in Hw. lia.
  - rewrite Hk. by eapply ti_iph.
  - by rewrite (ti_tcph _ _ _ _ _ _ _ Hd).
  - by rewrite Hk, (ti_tcph _ _ _ _ _ _ _ Hd).
  - exists b'. split; [done|]. intros v6' h' r' Hd'. pose proof (ti_key _ _ _ _ _ _ _ Hd') as Hk'.
    rewrite Hk' in Ha. split; [apply Ha|]. by eapply tcp_delivered.
Qed.

Lemma account_udp_sent l it b :
  inr it ∈ items_of t u -> l !! uix it = Some b -> udp_good it b ->
  exists b', account_udp e off l it = Some (None, <[uix it := b']> l) /\ udp_sent it b b'.
Proof.
  intros Hit Hl [Hb (v6 & h & r & Hd)]. destruct (item_buffer _ Hit) as (w & _ & _ & Hw & _).
  pose proof (ui_key _ _ _ _ _ _ _ Hd) as Hk.
  destruct (udp_packet_data P v6 h r (Forall_inv (urun_datagrams _ _ _ _ _ _ (ui_run _ _ _ _ _ _ _ Hd)))) as [Hz _].
  rewrite <- (ui_pkt _ _ _ _ _ _ _ Hd) in Hz. pose proof (zlen_nonneg (concat (data P (iph v6 + 8) <$> h :: r))).
  destruct (account_udp_ok e off l (uix it) b Hoff Hl Hb it) as (b' & E & Ha).
  - unfold uix. simpl in Hw. lia.
  - rewrite Hk. by eapply ui_iph.
  - rewrite Hk. simpl. lia.
  - exists b'. split; [done|]. intros v6' h' r' Hd'. pose proof (ui_key _ _ _ _ _ _ _ Hd') as Hk'.
    rewrite Hk' in Ha. split; [apply Ha|]. by eapply udp_delivered.
Qed.

(** A packet that goes alone is not touched. *)
Lemma alone_sent (bufs2 : list In) w g :
  (forall j, j ∉ tix <$> visit torder t -> j ∉ uix <$> visit uorder u -> bufs2 !! j = bufs !! j) ->
  Z.of_nat w ∉ idx <$> items_of t u -> alone e off orig bufs w g -> exists b', bufs2 !! w = Some b' /\ frame_ok g b'.
Proof.
  intros Hsame Hno (-> & b & Hb & Hp & Hf). exists b.
  pose proof (c_bufs _ _ _ _ _ _ _ C) as Hok. rewrite Forall_forall in Hok.
  assert (buf_ok off b) as Hbok by (by eapply Hok, list_elem_of_lookup_2). split.
  - rewrite <- Hb. apply Hsame; intros (it & -> & Hit)%list_elem_of_fmap; apply Hno.
    + apply tcp_in_items in Hit. destruct (item_buffer _ Hit) as (w' & _ & _ & Hw & _). simpl in Hw.
      apply list_elem_of_fmap. exists (inl it). split; [|done]. simpl. unfold tix. lia.
    + apply udp_in_items in Hit. destruct (item_buffer _ Hit) as (w' & _ & _ & Hw & _). simpl in Hw.
      apply list_elem_of_fmap. exists (inr it). split; [|done]. simpl. unfold uix. lia.
  - split; [done|]. rewrite Hp. destruct Hf as [->|(v6 & Hs & Hc)]; [constructor|]. apply delivered_invalid with v6; [done..|].
    destruct Hbok as [Hwf Hl]. unfold front, virtioNetHdrLen in *. rewrite zlen_sub; [lia|lia|]. rewrite zlen_in_bytes by done. lia.
Qed.

Lemma accounting_ok :
  exists bufs1 bufs2,
    applyTCPCoalesceAccounting e torder bufs off t = Some (None, bufs1) /\
    applyUDPCoalesceAccounting e uorder bufs1 off u = Some (None, bufs2) /\
    (forall w g, (w, g) ∈ out -> exists b', bufs2 !! w = Some b' /\ frame_ok g b').
Proof.
  pose proof indices_differ as Hnd. apply NoDup_app in Hnd as (Hnd1 & Hdis & Hnd2).
  destruct (account_all_ok (account_tcp e off) tix tcp_good tcp_sent (visit torder t) bufs) as (bufs1 & E1 & H1 & F1).
  { intros l it b ?%tcp_in_items. by apply account_tcp_sent. }
  { done. }
  { intros it (w & g & b & Hw & _ & Hb & Hok & v6 & h & r & _ & _ & Hd)%tcp_in_items%item_buffer. exists b.
    simpl in Hw. unfold tix. rewrite Hw, Nat2Z.id. split; [done|]. split; [done|]. by exists v6, h, r. }
  assert (forall it, it ∈ visit uorder u -> bufs1 !! uix it = bufs !! uix it) as Hsame.
  { intros it Hit. apply F1. intros Hin. apply (Hdis _ Hin). by apply list_elem_of_fmap_2. }
  destruct (account_all_ok (account_udp e off) uix udp_good udp_sent (visit uorder u) bufs1) as (bufs2 & E2 & H2 & F2).
  { intros l it b ?%udp_in_items. by apply account_udp_sent. }
  { done. }
  { intros it Hit. destruct (item_buffer _ (proj1 (udp_in_items it) Hit)) as (w & g & b & Hw & _ & Hb & Hok & v6 & h & r & _ & _ & Hd).
    exists b. rewrite Hsame by done. simpl in Hw. unfold uix. rewrite Hw, Nat2Z.id. split; [done|]. split; [done|].
    by exists v6, h, r. }
  exists bufs1, bufs2. split; [done|]. split; [done|]. intros w g Hg.
  destruct (decide (Z.of_nat w ∈ idx <$> items_of t u)) as [(x & Hw & Hx)%list_elem_of_fmap|Hno].
  - destruct (item_buffer x Hx) as (w' & g' & b & Hi & Hg' & Hb & _ & v6 & h & r & -> & _ & Hd).
    assert (w' = w) as -> by lia. rewrite (entry_unique out w g _ (c_nodup _ _ _ _ _ _ _ C) Hg Hg').
    destruct x as [it|it]; simpl in Hi.
    + assert (it ∈ visit torder t) as Hit by (by apply tcp_in_items).
      destruct (H1 it b Hit) as (b' & Hb' & Hs); [unfold tix; by rewrite Hi, Nat2Z.id|].
      exists b'. split; [|by apply (Hs v6)]. unfold tix in Hb'. rewrite Hi, Nat2Z.id in Hb'. rewrite F2; [done|].
      apply Hdis. replace w with (tix it) by (unfold tix; lia). by apply list_elem_of_fmap_2.
    + assert (it ∈ visit uorder u) as Hit by (by apply udp_in_items).
      destruct (H2 it b Hit) as (b' & Hb' & Hs); [rewrite Hsame by done; unfold uix; by rewrite Hi, Nat2Z.id|].
      exists b'. split; [|by apply (Hs v6)]. unfold uix in Hb'. by rewrite Hi, Nat2Z.id in Hb'.
  - destruct (c_alone _ _ _ _ _ _ _ C w g Hg) as [?|Ha]; [done|]. apply alone_sent; [|done|done].
    intros j Hj1 Hj2. by rewrite F2, F1.
Qed.

End accounting.

(** ** Handing the packets to the file *)

(** What a buffer hands to the file: the packet with the bytes in front of it. *)
Definition frame (off : Z) (b : In) : list Z := front off b ++ pkt_of off b.

Lemma frame_view off b :
  virtioNetHdrLen <= off -> buf_ok off b ->
  0 <= off - virtioNetHdrLen <= len_in b /\ in_bytes (tail (off - virtioNetHdrLen) b) = frame off b.
Proof.
  intros Ho [Hwf Hl]. unfold frame, front, virtioNetHdrLen in *. rewrite in_bytes_tail by (first [done|lia]).
  split; [lia|]. unfold pkt_of. pose proof (zlen_in_bytes b Hwf). rewrite <- !sub_drop by lia. apply sub_app_split; lia.
Qed.

Definition total_bytes (frames : list (list Z)) : Z := foldr (fun x n => zlen x + n) 0 frames.

Lemma write_loop_ok file off (bufs : list In) (bs : list In) k ixs total errs :
  virtioNetHdrLen <= off -> Forall (buf_ok off) bs -> Forall2 (fun i b => get_buf bufs i = Some b) ixs bs ->
  exists wr n errs', write_loop file k bufs (off - virtioNetHdrLen) ixs total errs = Some (wr, n, errs') /\
    wr `prefix_of` (frame off <$> bs) /\ (wr = frame off <$> bs \/ errs' = [werr_ErrClosed]) /\
    ((forall j x, file j x = file_ok (zlen x)) -> n = total + total_bytes wr /\ errs' = errs).
Proof.
  intros Ho Hok Hix. revert k total errs. induction Hix as [|i b ixs bs Hi Hix IH]; intros k total errs.
  { exists [], total, errs. split_and!; [done|done|by left|]. intros _. split; [unfold total_bytes; simpl; lia|done]. }
  apply Forall_cons in Hok as [Hb Hok]. destruct (frame_view off b Ho Hb) as [Hv1 Hv2].
  cbn [write_loop]. rewrite (buf_from_eq _ _ _ _ Hi Hv1). cbn [mbind option_bind]. rewrite Hv2.
  destruct (file k (frame off b)) as [m| |] eqn:Ef.
  - destruct (IH Hok (S k) (total + m) errs) as (wr & n & errs' & -> & Hp & Hc & Hn). cbn [mbind option_bind].
    eexists _, n, errs'. split; [done|]. split; [by apply prefix_cons|]. split.
    + destruct Hc as [->|]; [by left|by right].
    + intros Hf. rewrite Hf in Ef. injection Ef as <-. destruct (Hn Hf) as [-> ->]. split; [|done].
      unfold total_bytes. simpl. lia.
  - exists [frame off b], total, [werr_ErrClosed]. split; [done|]. split; [apply prefix_cons, prefix_nil|]. split; [by right|].
    intros Hf. by rewrite Hf in Ef.
  - destruct (IH Hok (S k) total (errs ++ [werr_file])) as (wr & n & errs' & -> & Hp & Hc & Hn). cbn [mbind option_bind].
    eexists _, n, errs'. split; [done|]. split; [by apply prefix_cons|]. split.
    + destruct Hc as [->|]; [by left|by right].
    + intros Hf. by rewrite Hf in Ef.
Qed.

Section write.
Context (e : endian) (torder : tcp_order) (uorder : udp_order) (file : nat -> list Z -> file_result).
Context (Ht : forall l, torder l ≡ₚ l) (Hu : forall l, uorder l ≡ₚ l).
Context (tun : NativeTun) (bufs : list In) (off : Z).
Context (Hoff : virtioNetHdrLen <= off) (Hbufs : Forall (buf_ok off) bufs) (Hmax : (length bufs <= 128)%nat).
Context (Hvnet : vnetHdr tun = true) (Htcp : tcpTable tun = newTCPGROTable) (Hudp : udpTable tun = newUDPGROTable).

Notation P := (packets off bufs).

Lemma handleGRO_ok :
  exists s out bs, handleGRO e torder uorder off (udpGSO tun) (mkBatch bufs (tcpTable tun) (udpTable tun) []) = Some ([], s) /\
    reset (b_tcp s) = newTCPGROTable /\ reset (b_udp s) = newUDPGROTable /\ b_toWrite s = Z.of_nat <$> (fst <$> out) /\
    concat (snd <$> out) ≡ₚ seq 0 (length bufs) /\
    (forall key a b, in_flow P (udpGSO tun) key a -> in_flow P (udpGSO tun) key b -> (a < b < length bufs)%nat ->
      sublist [a; b] (concat (snd <$> out))) /\
    Forall2 (fun en b => b_bufs s !! en.1 = Some b /\ frame_ok e off bufs en.2 b) out bs.
Proof.
  assert (BInv e off (udpGSO tun) bufs 0 (mkBatch bufs (tcpTable tun) (udpTable tun) []) []) as Hs by (by apply start_inv).
  destruct (gro_loop_ok e off (udpGSO tun) bufs Hoff Hbufs Hmax (length bufs) 0 _ _ Hs eq_refl) as (s & out & E & HI & Hw).
  pose proof (v_core _ _ _ _ _ _ _ _ _ HI) as C.
  destruct (accounting_ok e off bufs _ _ _ _ _ C Hoff torder uorder Ht Hu) as (bufs1 & bufs2 & E1 & E2 & Hf).
  destruct (list_choice (fun en b => bufs2 !! en.1 = Some b /\ frame_ok e off bufs en.2 b) out) as (bs & Hbs).
  { intros [w g] Hg. by apply Hf. }
  exists (mkBatch bufs2 (b_tcp s) (b_udp s) (b_toWrite s)), out, bs. unfold handleGRO. cbn [b_bufs]. unfold range. rewrite E.
  cbn [mbind option_bind]. rewrite E1. cbn [mbind option_bind]. rewrite E2. cbn [mbind option_bind b_bufs b_tcp b_udp b_toWrite].
  destruct (v_tstock _ _ _ _ _ _ _ _ _ HI) as [Hst _], (v_ustock _ _ _ _ _ _ _ _ _ HI) as [Hsu _].
  unfold reset. rewrite Hst, Hsu. split_and!; try done.
  - by eapply c_perm.
  - by eapply o_before, v_ord.
Qed.

(** What [Write] does with a batch: its groups, the frames they become, what is
    handed to the file and what is returned. *)
Definition batch_written (groups : list (list nat)) (frames : list (list Z)) : Prop :=
  exists tun' bufs' wr n errs,
    Write e torder uorder file tun bufs off = Some (tun', bufs', wr, (n, errs)) /\
    tcpTable tun' = newTCPGROTable /\ udpTable tun' = newUDPGROTable /\ vnetHdr tun' = true /\
    Forall2 (delivered e P) groups frames /\ concat groups ≡ₚ seq 0 (length bufs) /\
    wr `prefix_of` frames /\ (wr = frames \/ errs = [werr_ErrClosed]) /\
    ((forall k x, file k x = file_ok (zlen x)) -> n = total_bytes frames /\ errs = []).

Lemma write_ok :
  exists groups frames, batch_written groups frames /\
    (forall key a b, in_flow P (udpGSO tun) key a -> in_flow P (udpGSO tun) key b -> (a < b < length bufs)%nat ->
      sublist [a; b] (concat groups)).
Proof.
  destruct handleGRO_ok as (s & out & bs & E & Et & Eu & Ew & Hp & Ho & Hf).
  exists (snd <$> out), (frame off <$> bs). split; [|done]. unfold batch_written, Write. rewrite Hvnet, E.
  cbn [mbind option_bind]. rewrite Ew.
  destruct (write_loop_ok file off (b_bufs s) bs 0 (Z.of_nat <$> (fst <$> out)) 0 []) as (wr & n & errs & -> & H1 & H2 & H3).
  - done.
  - apply Forall_forall. intros b (i & Hi)%list_elem_of_lookup. destruct (Forall2_lookup_r _ _ _ _ _ Hf Hi) as (en & _ & _ & Hb).
    apply Hb.
  - rewrite <- list_fmap_compose. apply Forall2_fmap_l. eapply Forall2_impl; [exact Hf|]. intros en b [Hb _]. simpl.
    unfold get_buf. rewrite decide_True by lia. by rewrite Nat2Z.id.
  - eexists _, _, _, _, _. split; [cbn [mbind option_bind]; reflexivity|]. cbn [tcpTable udpTable vnetHdr].
    split_and!; try done.
    + apply Forall2_fmap. eapply Forall2_impl; [exact Hf|]. intros en b [_ Hb]. apply Hb.
    + intros Hall. destruct (H3 Hall) as [-> ->]. destruct H2 as [->|?]; [|done]. split; [lia|done].
Qed.

End write.

(** ** [Write] *)

(** C12: a device with a virtio-net header takes any batch of at most 128 packets
    that leave room for the header. [Write] does not panic and the tables are
    empty after it, ready for the next batch. Every packet of the batch goes into
    exactly one frame. A frame is one packet as it came in, or a run of TCP
    segments or UDP datagrams of one flow with the same headers, contiguous
    sequence numbers, valid checksums and pieces of one size, merged under headers
    whose lengths and checksums belong to the merged packet. The frames are handed
    to the file in order, all of them unless the file says that the device is
    closed, which is reported. The datagrams of a flow keep their order, whatever
    the order in which Go visits the flows. *)
Theorem write_batch e torder uorder file tun bufs off :
  (forall l, torder l ≡ₚ l) -> (forall l, uorder l ≡ₚ l) ->
  virtioNetHdrLen <= off -> Forall (buf_ok off) bufs -> (length bufs <= 128)%nat ->
  vnetHdr tun = true -> tcpTable tun = newTCPGROTable -> udpTable tun = newUDPGROTable ->
  exists groups frames, batch_written e torder uorder file tun bufs off groups frames /\
    (forall key a b, in_flow (packets off bufs) (udpGSO tun) key a -> in_flow (packets off bufs) (udpGSO tun) key b ->
      (a < b < length bufs)%nat -> sublist [a; b] (concat groups)).
Proof. intros. by apply write_ok. Qed.

(** ** Examples *)

(** A buffer with a packet at 16 and 200 bytes of room after it. *)
Definition sample_buf (p : list Z) : In := mkIn (repeat 255 16 ++ p ++ zeros 200) (16 + zlen p).

(** A datagram with a valid checksum. *)
Definition sample_datagram (payload : list Z) : list Z :=
  let ip := [0x45; 0; 0; 28 + zlen payload; 0; 0; 0x40; 0; 64; 17; 0; 0; 10; 0; 0; 1; 10; 0; 0; 2] in
  let udp c := be_put 2 1000 ++ be_put 2 2000 ++ be_put 2 (8 + zlen payload) ++ c ++ payload in
  let ps := pseudoHeaderChecksumNoFold Little IPPROTO_UDP [10; 0; 0; 1] [10; 0; 0; 2] (8 + zlen payload) in
  ip ++ udp (be_put 2 (not16 (checksum Little (udp [0; 0]) ps))).

(** A segment with a valid checksum, or with one that is off by one. *)
Definition sample_segment (bad : bool) (sq flags : Z) (payload : list Z) : list Z :=
  let ip := [0x45; 0; 0; 40 + zlen payload; 0; 0; 0x40; 0; 64; 6; 0; 0; 10; 0; 0; 1; 10; 0; 0; 2] in
  let tcp c := be_put 2 1000 ++ be_put 2 2000 ++ be_put 4 sq ++ be_put 4 7 ++ [0x50; flags; 1; 0] ++ c ++ [0; 0] ++ payload in
  let ps := pseudoHeaderChecksumNoFold Little IPPROTO_TCP [10; 0; 0; 1] [10; 0; 0; 2] (20 + zlen payload) in
  let sum := not16 (checksum Little (tcp [0; 0]) ps) in
  ip ++ tcp (be_put 2 (if bad then sum - 1 else sum)).

Definition sample_batch : list In :=
  Eval vm_compute in [sample_buf (sample_datagram [1; 2; 3]); sample_buf (sample_segment false 100 16 [7; 8]);
    sample_buf (sample_datagram [4; 5]); sample_buf (sample_segment false 102 24 [9])].

Definition sample_tun : NativeTun := mkTun true true newTCPGROTable newUDPGROTable [] [].

Definition accepts : nat -> list Z -> file_result := fun _ x => file_ok (zlen x).

Lemma write_batch_witness :
  exists groups frames, batch_written Little id id accepts sample_tun sample_batch 16 groups frames.
Proof.
  destruct (write_batch Little id id accepts sample_tun sample_batch 16) as (groups & frames & H & _).
  - done.
  - done.
  - vm_compute. done.
  - unfold buf_ok, wf_in, is_bytes. decide_closed.
  - vm_compute. lia.
  - done.
  - done.
  - done.
  - by exists groups, frames.
Defined.

(** What the device is handed and what [Write] returns. *)
Definition handed (r : option (NativeTun * list In * list (list Z) * (Z * list write_error))) :
    option (list (list Z) * (Z * list write_error)) :=
  match r with Some (_, _, wr, ret) => Some (wr, ret) | None => None end.

(** The datagrams of the batch are merged, and so are its segments. *)
Lemma sample_merged :
  exists ip udp ip' tcp, handed (Write Little id id accepts sample_tun sample_batch 16) =
    Some ([[1; 5; 28; 0; 3; 0; 20; 0; 6; 0] ++ ip ++ udp ++ [1; 2; 3; 4; 5];
           [1; 1; 40; 0; 2; 0; 20; 0; 16; 0] ++ ip' ++ tcp ++ [7; 8; 9]], (96, [])) /\
    length ip = 20%nat /\ length udp = 8%nat /\ length ip' = 20%nat /\ length tcp = 20%nat.
Proof.
  destruct (handed _) as [[[|x [|y [|]]] ret]|] eqn:E; vm_compute in E; try done.
  eexists (sub x 10 30), (sub x 30 38), (sub y 10 30), (sub y 30 50). injection E as <- <- <-. by vm_compute.
Qed.

(** Two segments of a flow, the first one with a wrong checksum. *)
Definition invalid_batch : list In :=
  Eval vm_compute in [sample_buf (sample_segment true 100 16 [7; 8]); sample_buf (sample_segment false 102 16 [9; 10])].

(** A segment with a wrong checksum that the next segment of its flow could
    have joined is dropped from the table, but stays among the packets to write,
    and no virtio-net header is written for it. It is handed to the file with the
    ten bytes that happen to be in front of it. *)
Theorem write_header_missing :
  handed (Write Little id id accepts sample_tun invalid_batch 16) =
    Some ([repeat 255 10 ++ packets 16 invalid_batch 0; hdr_bytes Little hdr_none ++ packets 16 invalid_batch 1], (104, [])).
Proof. vm_compute. reflexivity. Qed.

(** Two segments of a flow in the wrong order, the last one with PSH. *)
Definition swapped_batch : list In :=
  Eval vm_compute in [sample_buf (sample_segment false 102 24 [9]); sample_buf (sample_segment false 100 16 [7; 8])].

(** They are merged in their right order, but PSH is gone: the flags are those of
    the segment in front. *)
Lemma prepend_loses_psh :
  tpsh false (packets 16 swapped_batch 0) = true /\
  exists x ret, handed (Write Little id id accepts sample_tun swapped_batch 16) = Some ([x], ret) /\
    drop 50 x = [7; 8; 9] /\ tpsh false (drop 10 x) = false.
Proof. split; [vm_compute; reflexivity|]. eexists _, _. split; [vm_compute; reflexivity|]. by vm_compute. Qed.
