(* ===== verification/Control.v ===== *)
(** * Socket control messages (src/wireguard-go/conn/gso_linux.go,
    src/wireguard-go/conn/sticky_linux.go)

    A datagram is sent and received with control messages: the address and
    interface of the local end, which an endpoint keeps so that answers leave
    where questions came in, and the size of the pieces of a datagram the kernel
    splits or has merged. The layout of a control message is that of
    golang.org/x/sys/unix, which is not part of the sources: it is the class
    [Unix], and what the code relies on is [UnixLaws]. An instance at the end
    shows that the laws can hold. *)

From stdpp Require Import base numbers list.
From S2P Require Import Prelude Slices Checksum Gso.

Open Scope Z_scope.

(** ** The platform *)

Record Cmsghdr := mkCmsghdr { Len : Z; Level : Z; Type_ : Z }.

(** [CmsgLen] is the length of a message with that much data, [CmsgSpace] the
    room it takes; [cmsghdr_bytes] is the struct in memory. Parsing gives the
    header, the data and what follows the message. *)
Class Unix := {
  SizeofCmsghdr : Z;
  CmsgLen : Z -> Z;
  CmsgSpace : Z -> Z;
  cmsghdr_bytes : Cmsghdr -> list Z;
  ParseOneSocketControlMessage : list Z -> option (Cmsghdr * list Z * list Z)
}.

Definition SOL_UDP : Z := 17.

Definition UDP_SEGMENT : Z := 103.

Definition UDP_GRO : Z := 104.

Definition IPPROTO_IP : Z := 0.

Definition IP_PKTINFO : Z := 8.

Definition IPPROTO_IPV6 : Z := 41.

Definition IPV6_PKTINFO : Z := 50.

Definition SizeofInet4Pktinfo : Z := 12.

Definition SizeofInet6Pktinfo : Z := 20.

Definition sizeOfGSOData : Z := 2.

(** The capacity of a slice. *)
Definition cap_in (b : In) : Z := zlen (mem b).

Section control.
Context `{Unix} (e : endian).

Definition gsoControlSize : Z := CmsgSpace sizeOfGSOData.

Definition stickyControlSize : Z := CmsgSpace SizeofInet6Pktinfo.

(** ** Piece sizes *)

(** The loop of [getGSOSize]. Every message takes some bytes, the length is
    fuel. [None] is the error. *)
Fixpoint getGSO_loop (fuel : nat) (rem : list Z) : option Z :=
  match fuel with
  | O => None
  | S fuel =>
      if zlen rem >? SizeofCmsghdr then
        '(hdr, data, rem) ← ParseOneSocketControlMessage rem;
        if (Level hdr =? SOL_UDP) && (Type_ hdr =? UDP_GRO) && (zlen data >=? sizeOfGSOData) then
          Some (ne_uint e (take 2 data))
        else getGSO_loop fuel rem
      else Some 0
  end.

Definition getGSOSize (control : list Z) : option Z := getGSO_loop (S (length control)) control.

(** What is in [control] stays; without room for a message nothing happens. *)
Definition setGSOSize (control : In) (gsoSize : Z) : In :=
  let existingLen := len_in control in
  let avail := cap_in control - existingLen in
  let space := CmsgSpace sizeOfGSOData in
  if avail <? space then control
  else
    let hdr := mkCmsghdr (CmsgLen sizeOfGSOData) SOL_UDP UDP_SEGMENT in
    let m := copy_at (mem control) (Z.to_nat existingLen) (cmsghdr_bytes hdr) in
    let m := copy_at m (Z.to_nat (existingLen + CmsgLen 0)) (ne_put e 2 gsoSize) in
    mkIn m (existingLen + space).

(** ** Local addresses *)

(** [netip.AddrPort]: the bytes of the address, its zone and the port. *)
Record AddrPort := mkAddrPort { ap_addr : list Z; ap_zone : list Z; ap_port : Z }.

(** [src] is a slice; a nil slice has no capacity. *)
Record StdNetEndpoint := mkEndpoint { ep_AddrPort : AddrPort; ep_src : In }.

Definition nil_slice : In := mkIn [] 0.

Definition ClearSrc (ep : StdNetEndpoint) : StdNetEndpoint :=
  mkEndpoint (ep_AddrPort ep) (mkIn (mem (ep_src ep)) 0).

(** [ep.src] with the header and the data of a message that takes [space] bytes;
    a slice that is too small is replaced. *)
Definition put_src (space : Z) (hdr : Cmsghdr) (data : list Z) (src : In) : In :=
  let src := if cap_in src <? space then mkIn (zeros (Z.to_nat space)) 0 else src in
  let m := take (Z.to_nat space) (mem src) in
  let m := copy m (cmsghdr_bytes hdr) in
  let m := copy_at m (Z.to_nat (CmsgLen 0)) data in
  mkIn (m ++ drop (Z.to_nat space) (mem src)) space.

(** The loop of [getSrcFromControl], with the length as fuel. *)
Fixpoint src_loop (fuel : nat) (rem : list Z) (src : In) : In :=
  match fuel with
  | O => src
  | S fuel =>
      if zlen rem >? SizeofCmsghdr then
        match ParseOneSocketControlMessage rem with
        | None => src
        | Some (hdr, data, rem) =>
            if (Level hdr =? IPPROTO_IP) && (Type_ hdr =? IP_PKTINFO) then
              put_src (CmsgSpace SizeofInet4Pktinfo) hdr data src
            else if (Level hdr =? IPPROTO_IPV6) && (Type_ hdr =? IPV6_PKTINFO) then
              put_src (CmsgSpace SizeofInet6Pktinfo) hdr data src
            else src_loop fuel rem src
        end
      else src
  end.

Definition getSrcFromControl (control : list Z) (ep : StdNetEndpoint) : StdNetEndpoint :=
  let ep := ClearSrc ep in
  mkEndpoint (ep_AddrPort ep) (src_loop (S (length control)) control (ep_src ep)).

Definition setSrcControl (control : In) (ep : StdNetEndpoint) : In :=
  if cap_in control <? len_in (ep_src ep) then control
  else mkIn (copy_at (mem control) 0 (in_bytes (ep_src ep))) (len_in (ep_src ep)).

(** The local address and interface in [src]: [Inet4Pktinfo] is the interface,
    the local address and the address of the packet; [Inet6Pktinfo] the address
    and the interface. No bytes are the zero address. *)
Definition SrcIP (ep : StdNetEndpoint) : list Z :=
  let src := in_bytes (ep_src ep) in
  let at_info := CmsgLen 0 in
  if zlen src =? CmsgSpace SizeofInet4Pktinfo then sub src (at_info + 4) (at_info + 8)
  else if zlen src =? CmsgSpace SizeofInet6Pktinfo then sub src at_info (at_info + 16)
  else [].

(** An [int32]. *)
Definition i32 (x : Z) : Z := (x + 2 ^ 31) mod 2 ^ 32 - 2 ^ 31.

Definition SrcIfidx (ep : StdNetEndpoint) : Z :=
  let src := in_bytes (ep_src ep) in
  let at_info := CmsgLen 0 in
  if zlen src =? CmsgSpace SizeofInet4Pktinfo then i32 (ne_uint e (sub src at_info (at_info + 4)))
  else if zlen src =? CmsgSpace SizeofInet6Pktinfo then i32 (ne_uint e (sub src (at_info + 16) (at_info + 20)))
  else 0.

End control.

(** ** What the code relies on *)

Section message.
Context `{Unix}.

(** The bytes [b] are one control message; what is between the header and the
    data, and after the data, does not matter. *)
Definition message (level ty : Z) (data b : list Z) : Prop :=
  exists gap pad, b = cmsghdr_bytes (mkCmsghdr (CmsgLen (zlen data)) level ty) ++ gap ++ data ++ pad /\
    zlen gap = CmsgLen 0 - SizeofCmsghdr /\ zlen b = CmsgSpace (zlen data).

(** A level, type and data that fit their fields. *)
Definition message_ok (m : Z * Z * list Z) : Prop :=
  let '(level, ty, data) := m in 0 <= level < 2 ^ 31 /\ 0 <= ty < 2 ^ 31 /\ 1 <= zlen data < 2 ^ 16.

(** The bytes [b] are the control messages [msgs]. *)
Inductive control_of : list (Z * Z * list Z) -> list Z -> Prop :=
| control_nil : control_of [] []
| control_cons level ty data b msgs rest :
    message_ok (level, ty, data) -> message level ty data b -> control_of msgs rest ->
    control_of ((level, ty, data) :: msgs) (b ++ rest).

End message.

Class UnixLaws `{Unix} := {
  SizeofCmsghdr_pos : 0 < SizeofCmsghdr;
  cmsghdr_len h : zlen (cmsghdr_bytes h) = SizeofCmsghdr;
  CmsgLen_sizeof : SizeofCmsghdr <= CmsgLen 0;
  CmsgLen_add n : 0 <= n -> CmsgLen n = CmsgLen 0 + n;
  CmsgSpace_len n : 0 <= n -> CmsgLen n <= CmsgSpace n;
  CmsgSpace_pktinfo : CmsgSpace SizeofInet4Pktinfo <> CmsgSpace SizeofInet6Pktinfo;
  parse_message level ty data b rest :
    message_ok (level, ty, data) -> message level ty data b ->
    ParseOneSocketControlMessage (b ++ rest) = Some (mkCmsghdr (CmsgLen (zlen data)) level ty, data, rest);
  parse_shrinks b h data rest : ParseOneSocketControlMessage b = Some (h, data, rest) -> zlen rest < zlen b
}.

Section laws.
Context `{UnixLaws} (e : endian).

Lemma message_longer level ty data b : message_ok (level, ty, data) -> message level ty data b -> SizeofCmsghdr < zlen b.
Proof.
  intros (_ & _ & Hd) (gap & pad & _ & _ & ->). pose proof CmsgLen_sizeof. pose proof (CmsgSpace_len (zlen data)).
  pose proof (CmsgLen_add (zlen data)). lia.
Qed.

Lemma no_message : (zlen (@nil Z) >? SizeofCmsghdr) = false.
Proof. pose proof SizeofCmsghdr_pos. change (zlen (@nil Z)) with 0. lia. Qed.

(** More fuel than bytes makes no difference. *)
Lemma getGSO_fuel fuel fuel' rem :
  (length rem < fuel)%nat -> (length rem < fuel')%nat -> getGSO_loop e fuel rem = getGSO_loop e fuel' rem.
Proof.
  revert fuel' rem. induction fuel as [|fuel IH]; intros [|fuel'] rem H1 H2; try lia. cbn [getGSO_loop].
  destruct (zlen rem >? SizeofCmsghdr); [|done]. destruct (ParseOneSocketControlMessage rem) as [[[h d] r]|] eqn:E; [|done].
  cbn [mbind option_bind]. apply parse_shrinks in E. unfold zlen in E. destruct (_ && _); [done|]. apply IH; lia.
Qed.

Lemma src_fuel fuel fuel' rem src :
  (length rem < fuel)%nat -> (length rem < fuel')%nat -> src_loop fuel rem src = src_loop fuel' rem src.
Proof.
  revert fuel' rem. induction fuel as [|fuel IH]; intros [|fuel'] rem H1 H2; try lia. cbn [src_loop].
  destruct (zlen rem >? SizeofCmsghdr); [|done]. destruct (ParseOneSocketControlMessage rem) as [[[h d] r]|] eqn:E; [|done].
  apply parse_shrinks in E. unfold zlen in E. do 2 (destruct (_ && _); [done|]). apply IH; lia.
Qed.

(** ** Piece sizes *)

(** The first message that says how large the pieces of a datagram are. *)
Fixpoint gro_of (ty : Z) (msgs : list (Z * Z * list Z)) : Z :=
  match msgs with
  | [] => 0
  | (level, ty', data) :: msgs =>
      if (level =? SOL_UDP) && (ty' =? ty) && (zlen data >=? sizeOfGSOData) then ne_uint e (take 2 data) else gro_of ty msgs
  end.

Lemma getGSOSize_spec msgs control : control_of msgs control -> getGSOSize e control = Some (gro_of UDP_GRO msgs).
Proof.
  unfold getGSOSize. induction 1 as [|level ty data b msgs rest Hok Hm Hc IH].
  - cbn [getGSO_loop length gro_of]. by rewrite no_message.
  - cbn [getGSO_loop gro_of]. pose proof (message_longer _ _ _ _ Hok Hm). pose proof (zlen_nonneg rest).
    replace (zlen (b ++ rest) >? SizeofCmsghdr) with true by (rewrite zlen_app; lia).
    rewrite (parse_message _ _ _ _ _ Hok Hm). cbn [mbind option_bind Level Type_]. destruct (_ && _); [done|].
    rewrite <- IH. pose proof SizeofCmsghdr_pos. apply getGSO_fuel; [|lia]. rewrite length_app. unfold zlen in *. lia.
Qed.

(** ** Local addresses *)

Definition is_pktinfo (m : Z * Z * list Z) : bool :=
  let '(level, ty, _) := m in
  (level =? IPPROTO_IP) && (ty =? IP_PKTINFO) || (level =? IPPROTO_IPV6) && (ty =? IPV6_PKTINFO).

(** The room of a [pktinfo] message. *)
Definition pktinfo_size (level : Z) : Z := if level =? IPPROTO_IP then SizeofInet4Pktinfo else SizeofInet6Pktinfo.

Definition src_of_msgs (msgs : list (Z * Z * list Z)) (src : In) : In :=
  match List.find is_pktinfo msgs with
  | Some (level, ty, data) =>
      put_src (CmsgSpace (pktinfo_size level)) (mkCmsghdr (CmsgLen (zlen data)) level ty) data src
  | None => src
  end.

Lemma src_loop_spec msgs control src :
  control_of msgs control -> src_loop (S (length control)) control src = src_of_msgs msgs src.
Proof.
  unfold src_of_msgs. induction 1 as [|level ty data b msgs rest Hok Hm Hc IH].
  - cbn [src_loop length List.find]. by rewrite no_message.
  - cbn [src_loop List.find is_pktinfo]. pose proof (message_longer _ _ _ _ Hok Hm). pose proof (zlen_nonneg rest).
    replace (zlen (b ++ rest) >? SizeofCmsghdr) with true by (rewrite zlen_app; lia).
    rewrite (parse_message _ _ _ _ _ Hok Hm). cbn [Level Type_].
    destruct (level =? IPPROTO_IP) eqn:E1, (ty =? IP_PKTINFO), (level =? IPPROTO_IPV6) eqn:E2, (ty =? IPV6_PKTINFO);
      cbn [andb orb]; try (by unfold pktinfo_size; rewrite E1); try (unfold IPPROTO_IP, IPPROTO_IPV6 in *; lia).
    all: rewrite <- IH; pose proof SizeofCmsghdr_pos; apply src_fuel; [|lia]; rewrite length_app; unfold zlen in *; lia.
Qed.

(** Reading inside the data of a message. *)
Lemma sub_message level ty data b lo hi :
  message level ty data b -> 0 <= lo <= hi -> hi <= zlen data -> sub b (CmsgLen 0 + lo) (CmsgLen 0 + hi) = sub data lo hi.
Proof.
  intros (gap & pad & -> & Hg & _) H1 H2. pose proof CmsgLen_sizeof. pose proof SizeofCmsghdr_pos.
  set (hd := cmsghdr_bytes _). assert (zlen (hd ++ gap) = CmsgLen 0) as Hz by (rewrite zlen_app, Hg; unfold hd; rewrite cmsghdr_len; lia).
  rewrite (app_assoc hd). unfold sub, zlen in *. rewrite drop_app_ge by lia.
  replace (Z.to_nat (CmsgLen 0 + lo) - length (hd ++ gap))%nat with (Z.to_nat lo) by lia.
  rewrite drop_app_le by lia. rewrite take_app_le; [f_equal; lia|]. rewrite length_drop. lia.
Qed.

Lemma copy_short (dst src : list Z) : (length src <= length dst)%nat -> copy dst src = src ++ drop (length src) dst.
Proof. intros Hl. unfold copy. by rewrite take_ge. Qed.

(** A message put into [src] is there as it came. *)
Lemma put_src_message level ty data src :
  let b := put_src (CmsgSpace (zlen data)) (mkCmsghdr (CmsgLen (zlen data)) level ty) data src in
  1 <= zlen data -> message level ty data (in_bytes b) /\ len_in b = CmsgSpace (zlen data) /\ zlen (in_bytes b) = len_in b.
Proof.
  intros b Hd. pose proof CmsgLen_sizeof. pose proof SizeofCmsghdr_pos. pose proof (CmsgSpace_len (zlen data)).
  pose proof (CmsgLen_add (zlen data)). unfold b, put_src.
  set (sp := CmsgSpace (zlen data)) in *. set (s0 := if cap_in src <? sp then mkIn (zeros (Z.to_nat sp)) 0 else src).
  assert (sp <= cap_in s0) as Hc.
  { unfold s0. destruct (cap_in src <? sp) eqn:E; [unfold cap_in, zlen; simpl; rewrite length_zeros; lia|lia]. }
  set (m0 := take (Z.to_nat sp) (mem s0)). unfold cap_in in Hc. assert (zlen m0 = sp) as Hz0 by (unfold m0; len).
  set (hd := cmsghdr_bytes _). assert (zlen hd = SizeofCmsghdr) as Hh by apply cmsghdr_len.
  rewrite (copy_short m0 hd) by (unfold zlen in *; lia). unfold copy_at.
  rewrite take_app_ge, drop_app_ge by (unfold zlen in *; lia).
  rewrite (copy_short _ data) by (rewrite !length_drop; unfold zlen in *; lia).
  set (gap := take _ (drop (length hd) m0)). set (pad := drop (length data) _).
  assert (zlen gap = CmsgLen 0 - SizeofCmsghdr) as Hg by (unfold gap, zlen in *; rewrite length_take, length_drop; lia).
  assert (zlen ((hd ++ gap) ++ data ++ pad) = sp) as Hall.
  { rewrite !zlen_app, Hg, Hh. unfold pad, zlen in *. rewrite !length_drop. lia. }
  unfold in_bytes. cbn [mem len_in]. rewrite take_app_le by (unfold zlen in Hall; lia). rewrite take_ge by (unfold zlen in Hall; lia).
  split_and!; [|done|done]. exists gap, pad. rewrite <- app_assoc in *. done.
Qed.

Lemma setSrcControl_bytes room ep :
  len_in (ep_src ep) = zlen (in_bytes (ep_src ep)) -> len_in (ep_src ep) <= cap_in room ->
  in_bytes (setSrcControl room ep) = in_bytes (ep_src ep).
Proof.
  intros Hl Hc. unfold setSrcControl. replace (cap_in room <? _) with false by lia. unfold copy_at, cap_in, zlen in *.
  rewrite take_0, drop_0, copy_short by lia. unfold in_bytes at 1. cbn [app mem len_in]. rewrite take_app_le by lia. apply take_ge. lia.
Qed.

(** An endpoint that came with a [pktinfo] message keeps it: the local address and
    the interface read from it are those of the message, and a datagram to the
    endpoint is sent with the same message. *)
Lemma sticky_src msgs control ep level ty data :
  control_of msgs control -> List.find is_pktinfo msgs = Some (level, ty, data) -> zlen data = pktinfo_size level ->
  let ep' := getSrcFromControl control ep in
  SrcIP ep' = (if level =? IPPROTO_IP then sub data 4 8 else sub data 0 16) /\
  SrcIfidx e ep' = i32 (ne_uint e (if level =? IPPROTO_IP then sub data 0 4 else sub data 16 20)) /\
  forall room, CmsgSpace (zlen data) <= cap_in room -> message level ty data (in_bytes (setSrcControl room ep')).
Proof.
  intros Hc Hf Hd ep'. unfold ep', getSrcFromControl. rewrite (src_loop_spec _ _ _ Hc). unfold src_of_msgs. rewrite Hf, <- Hd.
  set (s := put_src _ _ _ _). assert (1 <= zlen data) as H1 by (rewrite Hd; unfold pktinfo_size; by destruct (_ =? _)).
  destruct (put_src_message level ty data (ep_src (ClearSrc ep)) H1) as (Hm & Hl & Hz). fold s in Hm, Hl, Hz.
  pose proof CmsgSpace_pktinfo as Hne. unfold SrcIP, SrcIfidx. cbn [ep_src]. rewrite Hz, Hl, Hd. unfold pktinfo_size in *.
  split_and!.
  - destruct (level =? IPPROTO_IP).
    + rewrite Z.eqb_refl. by apply (sub_message level ty data _ 4 8); rewrite ?Hd.
    + rewrite (proj2 (Z.eqb_neq _ _)), Z.eqb_refl by done. rewrite <- (Z.add_0_r (CmsgLen 0)) at 1.
      by apply (sub_message level ty data _ 0 16); rewrite ?Hd.
  - destruct (level =? IPPROTO_IP).
    + rewrite Z.eqb_refl. rewrite <- (Z.add_0_r (CmsgLen 0)) at 1. by rewrite (sub_message level ty data _ 0 4) by (rewrite ?Hd; done).
    + rewrite (proj2 (Z.eqb_neq _ _)), Z.eqb_refl by done. by rewrite (sub_message level ty data _ 16 20) by (rewrite ?Hd; done).
  - intros room Hr. rewrite setSrcControl_bytes; cbn [ep_src]; [done|by rewrite Hz|]. by rewrite Hl, Hd.
Qed.

End laws.

(** ** An instance: Linux on 64 bits *)

Definition align8 (n : Z) : Z := (n + 7) / 8 * 8.

Section linux64.
Context (e : endian).

Definition linux64_parse (b : list Z) : option (Cmsghdr * list Z * list Z) :=
  let len := ne_uint e (sub b 0 8) in
  if (zlen b <? 16) || (len <? 16) || (len >? zlen b) then None
  else Some (mkCmsghdr len (i32 (ne_uint e (sub b 8 12))) (i32 (ne_uint e (sub b 12 16))), sub b 16 len,
             drop (Z.to_nat (align8 len)) b).

#[local] Instance linux64 : Unix := {|
  SizeofCmsghdr := 16;
  CmsgLen n := 16 + n;
  CmsgSpace n := 16 + align8 n;
  cmsghdr_bytes h := ne_put e 8 (Len h) ++ ne_put e 4 (Level h) ++ ne_put e 4 (Type_ h);
  ParseOneSocketControlMessage := linux64_parse
|}.

Lemma length_ne_put n x : length (ne_put e n x) = n.
Proof. unfold ne_put. destruct e; [apply length_le_put|apply length_be_put]. Qed.

Lemma ne_uint_put n x : 0 <= x < 256 ^ Z.of_nat n -> ne_uint e (ne_put e n x) = x.
Proof. intros. unfold ne_uint, ne_put. destruct e; [rewrite le_uint_put|rewrite be_uint_put]; by apply Z.mod_small. Qed.

Lemma align8_spec n : 0 <= n -> n <= align8 n < n + 8.
Proof. unfold align8. intros. pose proof (Z.div_mod (n + 7) 8). pose proof (Z.mod_pos_bound (n + 7) 8). lia. Qed.

Lemma sub_pre a b lo hi : 0 <= lo <= hi -> hi <= zlen a -> sub (a ++ b) lo hi = sub a lo hi.
Proof.
  intros H1 H2. unfold sub, zlen in *. rewrite drop_app_le by lia. apply take_app_le. rewrite length_drop. lia.
Qed.

Lemma sub_post a b lo hi : zlen a <= lo <= hi -> sub (a ++ b) lo hi = sub b (lo - zlen a) (hi - zlen a).
Proof. intros H1. unfold sub, zlen in *. rewrite drop_app_ge by lia. f_equal; [lia|f_equal; lia]. Qed.

Lemma i32_small x : 0 <= x < 2 ^ 31 -> i32 x = x.
Proof. intros. unfold i32. rewrite Z.mod_small; lia. Qed.

#[local] Instance linux64_laws : UnixLaws.
Proof.
  split; cbn; try lia.
  - intros h. unfold zlen. rewrite !length_app, !length_ne_put. done.
  - intros n Hn. pose proof (align8_spec n Hn). lia.
  - done.
  - intros level ty data b rest (Hl & Ht & Hd) (gap & pad & -> & Hg & Hz). cbn in *.
    destruct gap; [|unfold zlen in Hg; simpl in Hg; lia]. cbn [app] in *.
    set (A := ne_put e 8 (16 + zlen data)) in *. set (B := ne_put e 4 level) in *. set (C := ne_put e 4 ty) in *.
    assert (zlen A = 8) as HA by (unfold zlen, A; by rewrite length_ne_put).
    assert (zlen B = 4) as HB by (unfold zlen, B; by rewrite length_ne_put).
    assert (zlen C = 4) as HC by (unfold zlen, C; by rewrite length_ne_put).
    rewrite <- !app_assoc in *. unfold linux64_parse. pose proof (zlen_nonneg rest). pose proof (zlen_nonneg pad).
    assert (sub (A ++ B ++ C ++ data ++ pad ++ rest) 0 8 = A) as ->.
    { rewrite sub_pre by lia. rewrite <- HA. apply sub_full. }
    assert (sub (A ++ B ++ C ++ data ++ pad ++ rest) 8 12 = B) as ->.
    { rewrite sub_post, sub_pre by lia. rewrite HA. replace (12 - 8) with (zlen B) by lia. apply sub_full. }
    assert (sub (A ++ B ++ C ++ data ++ pad ++ rest) 12 16 = C) as ->.
    { rewrite !sub_post, sub_pre by lia. rewrite HA, HB. replace (16 - 8 - 4) with (zlen C) by lia. apply sub_full. }
    assert (ne_uint e A = 16 + zlen data) as -> by (apply ne_uint_put; cbn; lia).
    assert (ne_uint e B = level) as -> by (apply ne_uint_put; cbn; lia).
    assert (ne_uint e C = ty) as -> by (apply ne_uint_put; cbn; lia). rewrite !i32_small by (cbn; lia).
    rewrite !zlen_app in *. rewrite HA, HB, HC in *.
    replace (_ || _) with false by lia. do 2 f_equal; [f_equal|].
    + rewrite !sub_post, sub_pre by lia. rewrite HA, HB, HC. replace (16 + zlen data - 8 - 4 - 4) with (zlen data) by lia. apply sub_full.
    + assert (align8 (16 + zlen data) = 16 + align8 (zlen data)) as ->.
      { unfold align8. replace (16 + zlen data + 7) with (zlen data + 7 + 2 * 8) by lia. rewrite Z.div_add by lia. lia. }
      rewrite <- Hz. rewrite !app_assoc. rewrite <- (app_assoc _ pad rest). rewrite drop_app_ge.
      all: rewrite ?length_app; unfold zlen in *; try lia.
      rewrite drop_app_ge by lia. replace (_ - _ - _)%nat with 0%nat by lia. done.
  - intros b h data rest. unfold linux64_parse. destruct (_ || _) eqn:E; [done|]. intros [= _ _ <-]. unfold zlen in *.
    rewrite length_drop. pose proof (align8_spec (ne_uint e (sub b 0 8))). lia.
Qed.

End linux64.
