(* ===== verification/Bind.v ===== *)
(** * Sockets (src/wireguard-go/conn/bind_std.go)

    The bind of Linux: a socket per address family, batches of datagrams sent
    and received with one system call, and the merging and splitting of
    datagrams that the kernel offers (UDP_SEGMENT and UDP_GRO). The branches for
    other systems are left out. Slices share arrays: a heap is the list of
    arrays, a slice an array with a length. [ReadBatch] and [WriteBatch] of
    golang.org/x/net and the system calls behind them are arguments. *)

From Stdlib Require Import String.
From stdpp Require Import base numbers list.
From S2P Require Import Prelude Setters GoStrings AllowedIPs Netip Slices Checksum Gso Gro Control.

Open Scope Z_scope.

(** ** Slices *)

Notation heap := (list (list Z)) (only parsing).

(** A slice from the start of an array; its capacity is that of the array. *)
Record Slice := mkSlice { s_arr : nat; s_len : Z }.

Definition array_of (h : heap) (s : Slice) : option (list Z) := h !! s_arr s.

Definition bytes_of (h : heap) (s : Slice) : option (list Z) :=
  a ← array_of h s; Some (take (Z.to_nat (s_len s)) a).

(** [append(s, b...)]: in place where the capacity allows it. *)
Definition append_bytes (h : heap) (s : Slice) (b : list Z) : option (heap * Slice) :=
  a ← array_of h s;
  let n := s_len s + zlen b in
  if n <=? zlen a then Some (<[s_arr s := splice a (s_len s) b]> h, mkSlice (s_arr s) n)
  else Some (h ++ [take (Z.to_nat (s_len s)) a ++ b], mkSlice (length h) n).

(** ** Endpoints *)

Section endpoints.

(** [netip.ParseAddrPort] *)
Definition splitAddrPort (s : list Z) : option (list Z * list Z * bool) :=
  '(ip, port) ← cut_last COLON s;
  match ip with
  | [] => None
  | c :: ip' =>
      if bool_decide (port = []) then None
      else if c =? 91 then
        match rev ip' with
        | 93 :: r => Some (rev r, port, true)
        | _ => None
        end
      else Some (ip, port, false)
  end.

Definition ParseAddrPort (s : list Z) : option AddrPort :=
  '(ip, port, v6) ← splitAddrPort s;
  port16 ← ParseUint port 16;
  '(addr, zoned) ← ParseAddr ip;
  let zone := if zoned : bool then from_option snd [] (cut PERCENT ip) else [] in
  if negb (Bool.eqb v6 (Is6 addr)) then None else Some (mkAddrPort addr zone port16).

Definition Addr_String (addr zone : list Z) : list Z :=
  if Is4 addr then addr4_string addr
  else
    (if Is4In6 addr then lit "::ffff:" ++ addr4_string (drop 12 addr) else addr6_string addr) ++
    (if bool_decide (zone = []) then [] else PERCENT :: zone).

(** [AddrPort.String] of a valid address *)
Definition AddrPort_String (p : AddrPort) : list Z :=
  let ip := Addr_String (ap_addr p) (ap_zone p) in
  (if Is4 (ap_addr p) then ip else [91] ++ ip ++ [93]) ++ [COLON] ++ decimal (ap_port p).

(** [AddrPort.MarshalBinary] *)
Definition AddrPort_MarshalBinary (p : AddrPort) : list Z := ap_addr p ++ ap_zone p ++ le_put 2 (ap_port p).

Definition ParseEndpoint (s : list Z) : option StdNetEndpoint :=
  p ← ParseAddrPort s; Some (mkEndpoint p nil_slice).

Definition DstIP (ep : StdNetEndpoint) : list Z := ap_addr (ep_AddrPort ep).

Definition DstToBytes (ep : StdNetEndpoint) : list Z := AddrPort_MarshalBinary (ep_AddrPort ep).

Definition DstToString (ep : StdNetEndpoint) : list Z := AddrPort_String (ep_AddrPort ep).

End endpoints.

(** ** Messages *)

(** [Buffers[0]], nil where it was never set. [Addr] is the address a message is
    sent to or came from. *)
Record Message := mkMessage {
  m_Buffer : option Slice;
  m_OOB : In;
  m_Addr : option AddrPort;
  m_N : Z;
  m_NN : Z
}.

#[export] Instance eta_Message : Settable Message := fun r =>
  mkMessage (m_Buffer r) (m_OOB r) (m_Addr r) (m_N r) (m_NN r).

Definition get_msg (msgs : list Message) (i : Z) : option Message :=
  if decide (0 <= i) then msgs !! Z.to_nat i else None.

Definition set_msg (msgs : list Message) (i : Z) (m : Message) : list Message := <[Z.to_nat i := m]> msgs.

Section messages.
Context `{Unix} (e : endian).

(** The messages of [msgsPool.New] *)
Definition new_messages : list Message :=
  replicate (Z.to_nat IdealBatchSize)
    (mkMessage None (mkIn (zeros (Z.to_nat (stickyControlSize + gsoControlSize))) 0) None 0 0).

(** [putMessages] before the messages go back to the pool. *)
Definition reset_messages (msgs : list Message) : list Message :=
  map (fun m => mkMessage (m_Buffer m) (mkIn (mem (m_OOB m)) 0) None 0 0) msgs.

Definition maxIPv4PayloadLen : Z := 2 ^ 16 - 1 - 20 - 8.

Definition maxIPv6PayloadLen : Z := 2 ^ 16 - 1 - 8.

Definition udpSegmentMaxDatagrams : Z := 64.

(** ** Merging *)

(** The variables of [coalesceMessages], with the heap and the messages. *)
Record Coalesce := mkCoalesce {
  co_heap : heap;
  co_msgs : list Message;
  base : Z;
  co_gsoSize : Z;
  dgramCnt : Z;
  endBatch : bool
}.

(** [setGSO(&msgs[base].OOB, uint16(gsoSize))] *)
Definition set_gso_at (msgs : list Message) (i gsoSize : Z) : option (list Message) :=
  m ← get_msg msgs i; Some (set_msg msgs i (m <| m_OOB := setGSOSize e (m_OOB m) (u16 gsoSize) |>)).

(** The attempt to append [buf] to the message being built; [None] inside is
    that it does not fit. [last] is that [buf] is the last buffer. *)
Definition coalesce_join (maxPayloadLen : Z) (buf : Slice) (last : bool) (s : Coalesce) : option (option Coalesce) :=
  m ← get_msg (co_msgs s) (base s);
  b ← m_Buffer m;
  a ← array_of (co_heap s) b;
  let msgLen := s_len buf in
  let baseLenBefore := s_len b in
  let freeBaseCap := zlen a - baseLenBefore in
  if (msgLen + baseLenBefore <=? maxPayloadLen) && (msgLen <=? co_gsoSize s) && (msgLen <=? freeBaseCap) &&
     (dgramCnt s <? udpSegmentMaxDatagrams) && negb (endBatch s) then
    data ← bytes_of (co_heap s) buf;
    '(h, b) ← append_bytes (co_heap s) b data;
    let msgs := set_msg (co_msgs s) (base s) (m <| m_Buffer := Some b |>) in
    msgs ← (if last then set_gso_at msgs (base s) (co_gsoSize s) else Some msgs);
    Some (Some (mkCoalesce h msgs (base s) (co_gsoSize s) (dgramCnt s + 1) (msgLen <? co_gsoSize s)))
  else Some None.

(** A new message with [buf]. *)
Definition coalesce_start (addr : AddrPort) (ep : StdNetEndpoint) (buf : Slice) (s : Coalesce) : option Coalesce :=
  msgs ← (if dgramCnt s >? 1 then set_gso_at (co_msgs s) (base s) (co_gsoSize s) else Some (co_msgs s));
  let base := base s + 1 in
  m ← get_msg msgs base;
  let m := m <| m_OOB := setSrcControl (m_OOB m) ep |> <| m_Buffer := Some buf |> <| m_Addr := Some addr |> in
  Some (mkCoalesce (co_heap s) (set_msg msgs base m) base (s_len buf) 1 false).

(** The loop, from buffer [i]. *)
Fixpoint coalesce_loop (maxPayloadLen : Z) (addr : AddrPort) (ep : StdNetEndpoint) (i : Z) (bufs : list Slice)
    (s : Coalesce) : option Coalesce :=
  match bufs with
  | [] => Some s
  | buf :: bufs =>
      joined ← (if i >? 0 then coalesce_join maxPayloadLen buf (bool_decide (bufs = [])) s else Some None);
      s ← (match joined with Some s => Some s | None => coalesce_start addr ep buf s end);
      coalesce_loop maxPayloadLen addr ep (i + 1) bufs s
  end.

(** The heap, the messages and how many of them to send. *)
Definition coalesceMessages (h : heap) (addr : AddrPort) (ep : StdNetEndpoint) (bufs : list Slice)
    (msgs : list Message) : option (heap * list Message * Z) :=
  let maxPayloadLen := if Is6 (DstIP ep) then maxIPv6PayloadLen else maxIPv4PayloadLen in
  s ← coalesce_loop maxPayloadLen addr ep 0 bufs (mkCoalesce h msgs (-1) 0 0 false);
  Some (co_heap s, co_msgs s, base s + 1).

(** ** Splitting *)

Inductive receive_error :=
| rcv_read
| rcv_control
| rcv_overflow.

(** [copy(msgs[n].Buffers[0], msg.Buffers[0][start:end])] and the fields of
    [msgs[n]] *)
Definition split_copy (h : heap) (msgs : list Message) (i n start end_ : Z) : option (heap * list Message) :=
  msg ← get_msg msgs i;
  b ← m_Buffer msg;
  a ← array_of h b;
  data ← slice a start end_;
  dst ← get_msg msgs n;
  d ← m_Buffer dst;
  da ← array_of h d;
  let copied := Z.min (s_len d) (zlen data) in
  Some (<[s_arr d := splice da 0 (take (Z.to_nat copied) data)]> h,
        set_msg msgs n (dst <| m_N := copied |> <| m_Addr := m_Addr msg |>)).

(** The loop over the [k] pieces left of message [i]; the boolean is that they
    do not fit. *)
Fixpoint split_pieces (k : nat) (h : heap) (msgs : list Message) (i n start end_ gsoSize : Z) :
    option (heap * list Message * Z * bool) :=
  match k with
  | O => Some (h, msgs, n, false)
  | S k =>
      if n >? i then Some (h, msgs, n, true)
      else
        '(h, msgs) ← split_copy h msgs i n start end_;
        msg ← get_msg msgs i;
        let next := end_ + gsoSize in
        let next := if next >? m_N msg then m_N msg else next in
        split_pieces k h msgs i (n + 1) end_ next gsoSize
  end.

(** The loop over the messages [ixs]. *)
Fixpoint split_loop (h : heap) (msgs : list Message) (ixs : list Z) (n : Z) :
    option (heap * list Message * Z * option receive_error) :=
  match ixs with
  | [] => Some (h, msgs, n, None)
  | i :: ixs =>
      msg ← get_msg msgs i;
      if m_N msg =? 0 then Some (h, msgs, n, None)
      else
        match getGSOSize e (take (Z.to_nat (m_NN msg)) (mem (m_OOB msg))) with
        | None => Some (h, msgs, n, Some rcv_control)
        | Some gsoSize =>
            let split := gsoSize >? 0 in
            let numToSplit := if split then (m_N msg + gsoSize - 1) / gsoSize else 1 in
            let end_ := if split then gsoSize else m_N msg in
            '(h, msgs, n, overflow) ← split_pieces (Z.to_nat numToSplit) h msgs i n 0 end_ gsoSize;
            if overflow : bool then Some (h, msgs, n, Some rcv_overflow)
            else
              msg ← get_msg msgs i;
              let msgs := if i =? n - 1 then msgs else set_msg msgs i (msg <| m_N := 0 |>) in
              split_loop h msgs ixs n
        end
  end.

Definition splitCoalescedMessages (h : heap) (msgs : list Message) (firstMsgAt : Z) :
    option (heap * list Message * Z * option receive_error) :=
  split_loop h msgs (seqZ firstMsgAt (zlen msgs - firstMsgAt)) 0.

End messages.

(** ** Receiving *)

Section receive.
Context `{Unix} (e : endian).

(** The buffers and the room for control messages, before a read. *)
Definition fill_buffers (msgs : list Message) (bufs : list Slice) : option (list Message) :=
  if decide (length bufs <= length msgs)%nat then
    Some (zip_with (fun m b => m <| m_Buffer := Some b |> <| m_OOB := mkIn (mem (m_OOB m)) (cap_in (m_OOB m)) |>) msgs bufs ++
          drop (length bufs) msgs)
  else None.

(** The loop that hands out sizes and endpoints. *)
Fixpoint deliver_msgs (msgs : list Message) (i : nat) (sizes : list Z) (eps : list (option StdNetEndpoint)) :
    option (list Z * list (option StdNetEndpoint)) :=
  match msgs with
  | [] => Some (sizes, eps)
  | msg :: msgs =>
      if decide (i < length sizes)%nat then
        let sizes := <[i := m_N msg]> sizes in
        if m_N msg =? 0 then deliver_msgs msgs (S i) sizes eps
        else
          addrPort ← m_Addr msg;
          let ep := getSrcFromControl (take (Z.to_nat (m_NN msg)) (mem (m_OOB msg))) (mkEndpoint addrPort nil_slice) in
          if decide (i < length eps)%nat then deliver_msgs msgs (S i) sizes (<[i := Some ep]> eps) else None
      else None
  end.

(** What [receiveIP] leaves: the heap, the messages for the pool, the sizes and
    endpoints, and what it returns. [ReadBatch] fills some of the messages it is
    given and says how many; [None] is its error. *)
Definition receiveIP (ReadBatch : heap -> list Message -> option (heap * list Message * Z)) (rxOffload : bool) (h : heap)
    (msgs : list Message) (bufs : list Slice) (sizes : list Z) (eps : list (option StdNetEndpoint)) :
    option (heap * list Message * list Z * list (option StdNetEndpoint) * (Z * option receive_error)) :=
  msgs ← fill_buffers msgs bufs;
  let fail h msgs err := Some (h, reset_messages msgs, sizes, eps, (0, Some err)) in
  let finish h msgs n :=
    if decide (n <= zlen msgs) then
      '(sizes, eps) ← deliver_msgs (take (Z.to_nat n) msgs) 0 sizes eps;
      Some (h, reset_messages msgs, sizes, eps, (n, None))
    else None in
  if rxOffload then
    let readAt := zlen msgs - IdealBatchSize / udpSegmentMaxDatagrams in
    match ReadBatch h (drop (Z.to_nat readAt) msgs) with
    | None => fail h msgs rcv_read
    | Some (h, read, _) =>
        '(h, msgs, n, err) ← splitCoalescedMessages e h (take (Z.to_nat readAt) msgs ++ read) readAt;
        match err with
        | Some err => fail h msgs err
        | None => finish h msgs n
        end
    end
  else
    match ReadBatch h msgs with
    | None => fail h msgs rcv_read
    | Some (h, msgs, n) => finish h msgs n
    end.

End receive.

(** ** The bind *)

(** A socket. *)
Notation Conn := Z (only parsing).

Record StdNetBind := mkBind {
  ipv4 : option Conn;
  ipv6 : option Conn;
  ipv4PC : option Conn;
  ipv6PC : option Conn;
  ipv4TxOffload : bool;
  ipv4RxOffload : bool;
  ipv6TxOffload : bool;
  ipv6RxOffload : bool;
  udpAddrPool : list In;
  msgsPool : list (list Message);
  blackhole4 : bool;
  blackhole6 : bool
}.

#[export] Instance eta_StdNetBind : Settable StdNetBind := fun r =>
  mkBind (ipv4 r) (ipv6 r) (ipv4PC r) (ipv6PC r) (ipv4TxOffload r) (ipv4RxOffload r) (ipv6TxOffload r) (ipv6RxOffload r)
    (udpAddrPool r) (msgsPool r) (blackhole4 r) (blackhole6 r).

Definition NewStdNetBind : StdNetBind := mkBind None None None None false false false false [] [] false false.

(** [sync.Pool.Get]: any item of the pool, or a new one. *)
Definition pool_get {A} (pick : option nat) (new : A) (pool : list A) : A * list A :=
  match pick with
  | Some k => match pool !! k with Some x => (x, delete k pool) | None => (new, pool) end
  | None => (new, pool)
  end.

(** The [IP] of a new [net.UDPAddr]. *)
Definition new_ip : In := mkIn (zeros 16) 16.

(** [copy(ua.IP, b); ua.IP = ua.IP[:n]] *)
Definition set_ip (ip : In) (b : list Z) (n : Z) : option In :=
  if decide (n <= cap_in ip) then Some (mkIn (copy (in_bytes ip) b ++ drop (Z.to_nat (len_in ip)) (mem ip)) n) else None.

Inductive send_error :=
| err_EAFNOSUPPORT
| err_EIO
| err_other.

#[export] Instance send_error_eq_dec : EqDecision send_error.
Proof. solve_decision. Defined.

Definition errShouldDisableUDPGSO (err : send_error) : bool := bool_decide (err = err_EIO).

(** A message as it is handed to the kernel: data, control messages, address. *)
Notation wire := (list Z * list Z * option AddrPort)%type.

Definition on_wire (h : heap) (m : Message) : option wire :=
  b ← m_Buffer m; data ← bytes_of h b; Some (data, in_bytes (m_OOB m), m_Addr m).

(** [WriteBatch], for its [k]th call: how many messages were written, and the
    error. *)
Notation batch_writer := (nat -> list wire -> Z * option send_error).

(** [send]: what was written, the number of calls and the error. A call that
    writes nothing without an error would be repeated forever. *)
Fixpoint send_loop (fuel : nat) (WriteBatch : batch_writer) (k : nat) (msgs : list wire) :
    option (list wire * nat * option send_error) :=
  match fuel with
  | O => None
  | S fuel =>
      let '(n, err) := WriteBatch k msgs in
      match err with
      | Some err => Some (take (Z.to_nat n) msgs, S k, Some err)
      | None =>
          if n =? zlen msgs then Some (msgs, S k, None)
          else if decide (0 <= n <= zlen msgs) then
            '(sent, k, err) ← send_loop fuel WriteBatch (S k) (drop (Z.to_nat n) msgs);
            Some (take (Z.to_nat n) msgs ++ sent, k, err)
          else None
      end
  end.

Definition send (WriteBatch : batch_writer) (k : nat) (h : heap) (msgs : list Message) :
    option (list wire * nat * option send_error) :=
  ws ← mapM (on_wire h) msgs; send_loop (S (length ws)) WriteBatch k ws.

Section bind.
Context `{Unix} (e : endian).

(** The messages of a send without merging. *)
Definition plain_messages (msgs : list Message) (bufs : list Slice) (addr : AddrPort) (ep : StdNetEndpoint) :
    option (list Message) :=
  if decide (length bufs <= length msgs)%nat then
    Some (zip_with (fun m b => m <| m_Addr := Some addr |> <| m_Buffer := Some b |> <| m_OOB := setSrcControl (m_OOB m) ep |>)
            msgs bufs ++ drop (length bufs) msgs)
  else None.

(** The end of [Send], from call [k] of [WriteBatch]: no merging. *)
Definition send_plain (WriteBatch : batch_writer) (k : nat) (h : heap) (msgs : list Message) (bufs : list Slice)
    (addr : AddrPort) (ep : StdNetEndpoint) : option (list wire * list Message * option send_error) :=
  msgs ← plain_messages msgs bufs addr ep;
  '(sent, _, err) ← send WriteBatch k h (take (length bufs) msgs);
  Some (sent, msgs, err).

(** The part of [Send] from the label [retry] on: the bind, the heap, what was
    written, the messages and the result. *)
Definition send_batch (WriteBatch : batch_writer) (is6 : bool) (s : StdNetBind) (h : heap) (msgs : list Message)
    (bufs : list Slice) (ua : AddrPort) (ep : StdNetEndpoint) :
    option (StdNetBind * heap * list wire * list Message * (bool * option send_error)) :=
  let offload := if is6 then ipv6TxOffload s else ipv4TxOffload s in
  if offload then
    '(h, msgs, n) ← coalesceMessages e h ua ep bufs msgs;
    '(sent, k, err) ← send WriteBatch 0 h (take (Z.to_nat n) msgs);
    match err with
    | Some err =>
        if errShouldDisableUDPGSO err then
          let s := if is6 then s <| ipv6TxOffload := false |> else s <| ipv4TxOffload := false |> in
          '(sent', msgs, err) ← send_plain WriteBatch k h msgs bufs ua ep;
          Some (s, h, sent ++ sent', msgs, (true, err))
        else Some (s, h, sent, msgs, (false, Some err))
    | None => Some (s, h, sent, msgs, (false, None))
    end
  else
    '(sent, msgs, err) ← send_plain WriteBatch 0 h msgs bufs ua ep;
    Some (s, h, sent, msgs, (false, err)).

(** [Send]: the bind and the heap after it, what was written, and the result:
    whether it is an [ErrUDPGSODisabled], and the error. The picks are those of
    the two pools. *)
Definition Send (WriteBatch : batch_writer) (pickMsgs pickAddr : option nat) (s : StdNetBind) (h : heap)
    (bufs : list Slice) (ep : StdNetEndpoint) :
    option (StdNetBind * heap * list wire * (bool * option send_error)) :=
  let is6 := Is6 (DstIP ep) in
  if (if is6 then blackhole6 s else blackhole4 s) then Some (s, h, [], (false, None))
  else
    match (if is6 then ipv6 s else ipv4 s) with
    | None => Some (s, h, [], (false, Some err_EAFNOSUPPORT))
    | Some _ =>
        let '(msgs, msgsPool') := pool_get pickMsgs new_messages (msgsPool s) in
        let '(ip, addrPool') := pool_get pickAddr new_ip (udpAddrPool s) in
        if negb is6 && negb (Is4 (DstIP ep)) then None
        else
          ip ← set_ip ip (DstIP ep) (if is6 then 16 else 4);
          let ua := mkAddrPort (in_bytes ip) [] (ap_port (ep_AddrPort ep)) in
          '(s, h, sent, msgs, ret) ← send_batch WriteBatch is6 s h msgs bufs ua ep;
          Some (s <| msgsPool := msgsPool' ++ [reset_messages msgs] |> <| udpAddrPool := addrPool' ++ [ip] |>, h, sent, ret)
    end.

End bind.

Inductive listen_error :=
| listen_EAFNOSUPPORT
| listen_EADDRINUSE
| listen_other.

#[export] Instance listen_error_eq_dec : EqDecision listen_error.
Proof. solve_decision. Defined.

Inductive open_error :=
| ErrBindAlreadyOpen
| open_listen (err : listen_error).

(** The sockets [Open] asked for: a socket opened, and a socket closed. *)
Inductive socket_event :=
| sock_open (c : Conn)
| sock_close (c : Conn).

(** [ListenPacket] and [ResolveUDPAddr] in the [k]th call of [listenNet]: the error
    of the first, or the socket and the port or the error that the second gives
    for its address. *)
Notation listener := (nat -> bool -> Z -> listen_error + (Conn * (listen_error + Z))).

(** [v4conn.Close()], a method of the [conn] embedded in [*v4conn]: [None] is the
    panic of selecting it through a nil pointer. *)
Definition close_conn (c : option Conn) : option (list socket_event) :=
  c ← c; Some [sock_close c].

(** [conn, port, err = listenNet(...)]. *)
Definition listenNet (listen : listener) (k : nat) (v6 : bool) (port : Z) :
    option Conn * Z * option listen_error * list socket_event :=
  match listen k v6 port with
  | inl err => (None, 0, Some err, [])
  | inr (c, inl err) => (None, 0, Some err, [sock_open c])
  | inr (c, inr p) => (Some c, p, None, [sock_open c])
  end.

(** [err != nil && !errors.Is(err, syscall.EAFNOSUPPORT)] *)
Definition fatal (err : option listen_error) : option listen_error :=
  match err with
  | Some listen_EAFNOSUPPORT | None => None
  | Some err => Some err
  end.

(** The end of an attempt, [evs] being what happened to sockets so far. *)
Definition open_end (v4conn v6conn : option Conn) (port : Z) (err : option listen_error) (evs : list socket_event) :
    option ((listen_error + (option Conn * option Conn * Z)) * list socket_event) :=
  match fatal err with
  | Some err => closed ← close_conn v4conn; Some (inl err, evs ++ closed)
  | None => Some (inr (v4conn, v6conn, port), evs)
  end.

(** The attempts of [Open] from call [k] of [listenNet]; [tries] more may follow.
    The sockets of both families and the port, or the error, and what happened to
    sockets; [None] is a panic. *)
Fixpoint open_loop (listen : listener) (uport : Z) (tries : nat) (k : nat) :
    option ((listen_error + (option Conn * option Conn * Z)) * list socket_event) :=
  let '(v4conn, port, err, ev4) := listenNet listen k false uport in
  match fatal err with
  | Some err => Some (inl err, ev4)
  | None =>
      let '(v6conn, port, err, ev6) := listenNet listen (S k) true port in
      match tries with
      | S tries =>
          if (uport =? 0) && bool_decide (err = Some listen_EADDRINUSE) then
            closed ← close_conn v4conn;
            '(r, evs) ← open_loop listen uport tries (S (S k));
            Some (r, (ev4 ++ ev6) ++ closed ++ evs)
          else open_end v4conn v6conn port err (ev4 ++ ev6)
      | O => open_end v4conn v6conn port err (ev4 ++ ev6)
      end
  end.

(** [Open]: the bind after it, the families it receives on with the port, or the
    error; [supports] is [supportsUDPOffload]. *)
Definition Open (listen : listener) (supports : Conn -> bool * bool) (uport : Z) (s : StdNetBind) :
    option (StdNetBind * list socket_event * (open_error + (list bool * Z))) :=
  match ipv4 s, ipv6 s with
  | None, None =>
      '(r, evs) ← open_loop listen uport 100 0;
      match r with
      | inl err => Some (s, evs, inl (open_listen err))
      | inr (v4conn, v6conn, port) =>
          let s := match v4conn with
                   | Some c => let '(tx, rx) := supports c in
                       s <| ipv4TxOffload := tx |> <| ipv4RxOffload := rx |> <| ipv4PC := Some c |> <| ipv4 := Some c |>
                   | None => s
                   end in
          let s := match v6conn with
                   | Some c => let '(tx, rx) := supports c in
                       s <| ipv6TxOffload := tx |> <| ipv6RxOffload := rx |> <| ipv6PC := Some c |> <| ipv6 := Some c |>
                   | None => s
                   end in
          let fns := (match v4conn with Some _ => [false] | None => [] end) ++
                     (match v6conn with Some _ => [true] | None => [] end) in
          match fns with
          | [] => Some (s, evs, inl (open_listen listen_EAFNOSUPPORT))
          | _ => Some (s, evs, inr (fns, u16 port))
          end
      end
  | _, _ => Some (s, [], inl ErrBindAlreadyOpen)
  end.

(** [Close], with the errors of closing the sockets: the bind, the sockets closed
    and whether it failed. *)
Definition BindClose (err4 err6 : bool) (s : StdNetBind) : StdNetBind * list socket_event * bool :=
  let evs := match ipv4 s with Some c => [sock_close c] | None => [] end ++
             match ipv6 s with Some c => [sock_close c] | None => [] end in
  let failed := match ipv4 s with Some _ => err4 | None => false end || match ipv6 s with Some _ => err6 | None => false end in
  (mkBind None None (match ipv4 s with Some _ => None | None => ipv4PC s end) (match ipv6 s with Some _ => None | None => ipv6PC s end)
     false false false false (udpAddrPool s) (msgsPool s) false false, evs, failed).

Definition BatchSize : Z := IdealBatchSize.

(** [SetMark] on Linux: the sockets it is set on, in order; [err] are the errors
    of the system calls on a socket. *)
Definition SetMark (err : Conn -> bool) (mark : Z) (s : StdNetBind) : list (Conn * Z) * bool :=
  let on c := match c with
              | Some c => if err c then ([], true) else ([(c, mark)], false)
              | None => ([], false)
              end in
  let '(m4, failed) := on (ipv4 s) in
  if failed : bool then (m4, true) else let '(m6, failed) := on (ipv6 s) in (m4 ++ m6, failed).
