(* ===== verification/BindCoalesce.v ===== *)
(** * Datagrams merged for the kernel

    [coalesceMessages] puts the datagrams of a batch into fewer messages: what the
    kernel sends for the messages, cutting each where its control messages say,
    are the datagrams of the batch in their order, and no message is larger than
    the kernel takes. *)

From stdpp Require Import base numbers list.
From S2P Require Import Prelude Setters AllowedIPs Netip Slices Checksum Gso Gro GroGroups Control Bind.

Open Scope Z_scope.

(** ** Control messages *)

Section control.
Context `{UnixLaws} (e : endian).

Lemma control_of_app a b ca cb : control_of a ca -> control_of b cb -> control_of (a ++ b) (ca ++ cb).
Proof. induction 1; intros Hb; cbn [app]; [done|]. rewrite <- app_assoc. constructor; [done|done|by apply IHcontrol_of]. Qed.

Lemma control_of_one level ty data b : message_ok (level, ty, data) -> message level ty data b -> control_of [(level, ty, data)] b.
Proof. intros Hok Hm. rewrite <- (app_nil_r b). by constructor; [..|constructor]. Qed.

Lemma gro_of_app ty a b : Forall (fun m => m.1.1 <> SOL_UDP) a -> gro_of e ty (a ++ b) = gro_of e ty b.
Proof.
  induction 1 as [|[[level ty'] data] a Hl Ha IH]; [done|]. cbn [app gro_of]. simpl in Hl.
  by rewrite (proj2 (Z.eqb_neq _ _) Hl).
Qed.

(** The message [setGSOSize] adds. *)
Lemma setGSOSize_message control size :
  len_in control = zlen (in_bytes control) -> len_in control + gsoControlSize <= cap_in control -> 0 <= size < 2 ^ 16 ->
  exists b, in_bytes (setGSOSize e control size) = in_bytes control ++ b /\
    message SOL_UDP UDP_SEGMENT (ne_put e 2 size) b /\ cap_in (setGSOSize e control size) = cap_in control.
Proof.
  intros Hl Hc Hs. unfold setGSOSize. fold gsoControlSize. replace (_ <? gsoControlSize) with false by lia.
  set (n := len_in control) in *. unfold gsoControlSize, sizeOfGSOData in *. set (sp := CmsgSpace 2) in *.
  set (hd := cmsghdr_bytes _). set (data := ne_put e 2 size). pose proof CmsgLen_sizeof. pose proof SizeofCmsghdr_pos.
  assert (zlen data = 2) as Hd by (unfold zlen, data; by rewrite length_ne_put).
  assert (zlen hd = SizeofCmsghdr) as Hh by apply cmsghdr_len. pose proof (CmsgSpace_len 2) as Hsp. rewrite CmsgLen_add in Hsp by lia. fold sp in Hsp.
  unfold cap_in in *. set (m := mem control) in *. assert (0 <= n) by (rewrite Hl; apply zlen_nonneg).
  assert (in_bytes control = take (Z.to_nat n) m) as Hb by done. clearbody n m.
  rewrite (copy_at_splice m n hd) by lia. rewrite copy_at_splice by (rewrite ?zlen_splice; lia).
  set (m2 := splice _ _ data). assert (zlen m2 = zlen m) as Hz by (unfold m2; rewrite !zlen_splice; rewrite ?zlen_splice; lia).
  exists (sub m2 n (n + sp)). split_and!.
  - unfold in_bytes at 1. cbn [mem len_in]. rewrite <- sub_0_take. rewrite (sub_app_split m2 0 n) by lia. f_equal.
    rewrite Hb, <- sub_0_take. unfold m2. by rewrite !sub_splice_out by (rewrite ?zlen_splice; lia).
  - exists (sub m2 (n + SizeofCmsghdr) (n + CmsgLen 0)), (sub m2 (n + CmsgLen 0 + 2) (n + sp)). rewrite Hd. split_and!.
    + rewrite (sub_app_split m2 n (n + SizeofCmsghdr)), (sub_app_split m2 (n + SizeofCmsghdr) (n + CmsgLen 0)),
        (sub_app_split m2 (n + CmsgLen 0) (n + CmsgLen 0 + 2)) by lia.
      f_equal; [|do 2 f_equal]; unfold m2.
      * rewrite sub_splice_out by (rewrite ?zlen_splice; lia). fold hd. apply sub_splice_eq; lia.
      * apply sub_splice_eq; rewrite ?zlen_splice; lia.
    + rewrite zlen_sub; lia.
    + rewrite zlen_sub by lia. unfold sp. lia.
  - done.
Qed.

End control.

(** ** Slices *)

Lemma bytes_of_insert_ne h a x s : s_arr s <> a -> bytes_of (<[a := x]> h) s = bytes_of h s.
Proof. intros Hne. unfold bytes_of, array_of. by rewrite list_lookup_insert_ne. Qed.

(** Appending in place: the slice grows, and what ends before it stays. *)
Lemma append_bytes_ok h s a b d :
  h !! s_arr s = Some a -> bytes_of h s = Some d -> s_len s = zlen d -> s_len s + zlen b <= zlen a ->
  append_bytes h s b = Some (<[s_arr s := splice a (s_len s) b]> h, mkSlice (s_arr s) (s_len s + zlen b)) /\
  bytes_of (<[s_arr s := splice a (s_len s) b]> h) (mkSlice (s_arr s) (s_len s + zlen b)) = Some (d ++ b) /\
  (forall t, s_len t <= s_len s -> bytes_of (<[s_arr s := splice a (s_len s) b]> h) t = bytes_of h t) /\
  zlen (splice a (s_len s) b) = zlen a.
Proof.
  intros Ha Hd Hl Hc. pose proof (zlen_nonneg d). pose proof (zlen_nonneg b). unfold append_bytes, array_of. rewrite Ha.
  cbn [mbind option_bind]. replace (_ <=? zlen a) with true by lia. unfold bytes_of, array_of in *. rewrite Ha in Hd. cbn in Hd.
  injection Hd as Hd. apply lookup_lt_Some in Ha as Hlt. split_and!; [done| | |apply zlen_splice; lia].
  - cbn [s_arr s_len]. rewrite list_lookup_insert_eq by done. cbn [mbind option_bind]. f_equal.
    rewrite <- sub_0_take. rewrite (sub_app_split _ 0 (s_len s)) by (rewrite ?zlen_splice; lia). f_equal.
    + rewrite sub_splice_out by lia. rewrite sub_0_take. done.
    + apply sub_splice_eq; lia.
  - intros t Ht. destruct (decide (s_arr t = s_arr s)) as [E|Hne]; [|by rewrite list_lookup_insert_ne].
    rewrite E, list_lookup_insert_eq, Ha by done. cbn. f_equal. rewrite <- !sub_0_take.
    destruct (decide (0 <= s_len t)); [apply sub_splice_out; lia|]. unfold sub. by replace (Z.to_nat _) with 0%nat by lia.
Qed.

(** ** Messages *)

Lemma on_wire_inv h m d c a :
  on_wire h m = Some (d, c, a) ->
  exists s, m_Buffer m = Some s /\ bytes_of h s = Some d /\ c = in_bytes (m_OOB m) /\ m_Addr m = a.
Proof.
  unfold on_wire. destruct (m_Buffer m) as [s|]; [|done]. cbn. destruct (bytes_of h s) as [d'|] eqn:E; [|done]. cbn.
  intros [= -> <- <-]. by exists s.
Qed.

Lemma on_wire_intro h m s d :
  m_Buffer m = Some s -> bytes_of h s = Some d -> on_wire h m = Some (d, in_bytes (m_OOB m), m_Addr m).
Proof. intros Hb Hd. unfold on_wire. rewrite Hb. cbn. by rewrite Hd. Qed.

(** What the kernel makes of a message with pieces of [size] bytes: without a size
    it is one datagram. *)
Definition segmented (size : Z) (data : list Z) (ds : list (list Z)) : Prop :=
  if size =? 0 then ds = [data] else concat ds = data /\ sized size ds.

Section messages.
Context `{UnixLaws} (e : endian) (ep : StdNetEndpoint) (addr : AddrPort) (srcmsgs : list (Z * Z * list Z)).

(** The control messages of a message: the local address, and the piece size. *)
Definition controls (size : Z) : list (Z * Z * list Z) :=
  srcmsgs ++ if size =? 0 then [] else [(SOL_UDP, UDP_SEGMENT, ne_put e 2 size)].

(** The message as it goes out: the datagrams [g], cut at [size]. *)
Definition carries (h : heap) (m : Message) (g : list (list Z)) (size : Z) : Prop :=
  exists control, on_wire h m = Some (concat g, control, Some addr) /\ control_of (controls size) control.

(** A message that is complete. *)
Definition transmits (max : Z) (h : heap) (m : Message) (g : list (list Z)) : Prop :=
  exists size, carries h m g size /\ 0 <= size < 2 ^ 16 /\ segmented size (concat g) g /\
    zlen g <= udpSegmentMaxDatagrams /\ zlen (concat g) <= max.

Lemma controls_size size :
  Forall (fun m => m.1.1 <> SOL_UDP) srcmsgs -> 0 <= size < 2 ^ 16 -> gro_of e UDP_SEGMENT (controls size) = size.
Proof.
  intros Hs Hz. unfold controls. rewrite gro_of_app by done. destruct (size =? 0) eqn:E; zbool; [done|]. cbn [gro_of].
  assert (zlen (ne_put e 2 size) = 2) as -> by (unfold zlen; by rewrite length_ne_put). cbn.
  rewrite take_ge by (by rewrite length_ne_put). by apply ne_uint_put.
Qed.

End messages.

(** ** The loop *)

Section loop.
Context `{UnixLaws} (e : endian) (ep : StdNetEndpoint) (addr : AddrPort) (srcmsgs : list (Z * Z * list Z)) (max : Z).
Context (Hmax : max < 2 ^ 16) (Hsrc : control_of srcmsgs (in_bytes (ep_src ep))).
Context (Hlen : len_in (ep_src ep) = zlen (in_bytes (ep_src ep))).
Context (room : Z) (Hroom : len_in (ep_src ep) + gsoControlSize <= room).
Context (h0 : heap) (bufs : list Slice) (nmsgs : nat) (Hnd : NoDup (s_arr <$> bufs)).

(** A message with room for its control messages. *)
Definition roomy (m : Message) : Prop := room <= cap_in (m_OOB m).

(** The datagram in a buffer. *)
Definition datagram_in (h : heap) (b : Slice) (d : list Z) : Prop :=
  bytes_of h b = Some d /\ s_len b = zlen d /\ 1 <= zlen d <= max.

(** The messages of the groups are complete. Each uses an array of its own, and
    none of those of the buffers to come. *)
Record Closed (h : heap) (msgs : list Message) (groups : list (list (list Z))) (owners : list nat) (rest : list Slice) : Prop := {
  cl_msgs : length msgs = nmsgs;
  cl_fit : (length groups + length rest <= nmsgs)%nat;
  cl_roomy : Forall roomy msgs;
  cl_heap : forall b, b ∈ bufs -> bytes_of h b = bytes_of h0 b;
  cl_nodup : NoDup (owners ++ (s_arr <$> rest));
  cl_owners : length owners = length groups;
  cl_rest : rest ⊆ bufs;
  cl_groups : forall k g, groups !! k = Some g -> exists m a n, msgs !! k = Some m /\ owners !! k = Some a /\
    m_Buffer m = Some (mkSlice a n) /\ transmits e addr srcmsgs max h m g
}.

(** The size that is set on the message being built: none before its last buffer. *)
Definition size_now (gso : Z) (rest : list Slice) (cur : list (list Z)) : Z :=
  if bool_decide (rest = []) && (1 <? zlen cur) then gso else 0.

(** The message being built, from buffer [b0] on. *)
Record Current (s : Coalesce) (closed : list (list (list Z))) (owners : list nat) (b0 : Slice) (cur : list (list Z))
    (rest : list Slice) : Prop := {
  cu_closed : Closed (co_heap s) (co_msgs s) closed owners (b0 :: rest);
  cu_base : base s = zlen closed;
  cu_gso : co_gsoSize s = s_len b0;
  cu_small : 1 <= s_len b0 < 2 ^ 16;
  cu_cnt : dgramCnt s = zlen cur;
  cu_sized : sized (s_len b0) cur;
  cu_open : endBatch s = false -> zlen (concat cur) mod s_len b0 = 0;
  cu_max : zlen cur <= udpSegmentMaxDatagrams /\ zlen (concat cur) <= max;
  cu_msg : exists m, co_msgs s !! length closed = Some m /\
    m_Buffer m = Some (mkSlice (s_arr b0) (zlen (concat cur))) /\ carries e addr srcmsgs (co_heap s) m cur (size_now (s_len b0) rest cur) /\
    len_in (m_OOB m) = zlen (in_bytes (m_OOB m)) /\
    (size_now (s_len b0) rest cur = 0 -> in_bytes (m_OOB m) = in_bytes (ep_src ep));
  cu_first : s_len b0 <= zlen (concat cur)
}.

Lemma sized_segmented n ds : sized n ds -> zlen ds <= 1 -> ds = [concat ds].
Proof. destruct ds as [|d [|]]; simpl; [done|by rewrite app_nil_r|]. intros _ Hl. unfold zlen in Hl. simpl in Hl. lia. Qed.

Lemma transmits_cur h m gso cur size :
  carries e addr srcmsgs h m cur size -> sized gso cur -> 1 <= gso < 2 ^ 16 -> size = (if 1 <? zlen cur then gso else 0) ->
  zlen cur <= udpSegmentMaxDatagrams /\ zlen (concat cur) <= max -> transmits e addr srcmsgs max h m cur.
Proof.
  intros Hc Hs Hg -> [H1 H2]. exists (if 1 <? zlen cur then gso else 0). split_and!; try done; try (destruct (1 <? _); lia).
  unfold segmented. destruct (1 <? zlen cur) eqn:E; zbool.
  - by replace (gso =? 0) with false by lia.
  - cbn. by eapply sized_segmented.
Qed.

(** The size is set on the current message. *)
Lemma set_gso_carries h m cur size :
  carries e addr srcmsgs h m cur 0 -> in_bytes (m_OOB m) = in_bytes (ep_src ep) -> len_in (m_OOB m) = zlen (in_bytes (m_OOB m)) ->
  roomy m -> 1 <= size < 2 ^ 16 ->
  let m' := m <| m_OOB := setGSOSize e (m_OOB m) (u16 size) |> in
  carries e addr srcmsgs h m' cur size /\ roomy m' /\ len_in (m_OOB m') = zlen (in_bytes (m_OOB m')).
Proof.
  intros (control & Hw & Hc) Hb Hl Hr Hs m'. unfold roomy in *. assert (len_in (m_OOB m) + gsoControlSize <= cap_in (m_OOB m)) as Hr'.
  { pose proof Hroom as Hr0. rewrite Hlen, <- Hb, <- Hl in Hr0. lia. }
  destruct (setGSOSize_message e (m_OOB m) size Hl Hr' ltac:(lia)) as (b & Hb' & Hm & Hcap).
  assert (u16 size = size) as Hu by (apply u16_small; unfold is_u16; lia). unfold m'. rewrite Hu. split_and!.
  - apply on_wire_inv in Hw as (s & Hbuf & Hd & -> & Ha). exists (in_bytes (ep_src ep) ++ b). split.
    { rewrite (on_wire_intro h _ s (concat cur)) by done. cbn. by rewrite Ha, Hb', Hb. }
    unfold controls. replace (size =? 0) with false by lia. apply control_of_app; [done|].
    apply control_of_one; [|done]. split_and!; try done; unfold zlen; by rewrite length_ne_put.
  - cbn. by rewrite Hcap.
  - cbn. rewrite Hb'. destruct Hm as (gap & pad & _ & _ & Hz). rewrite zlen_app, Hz, <- Hl.
    assert (zlen (ne_put e 2 size) = 2) as -> by (unfold zlen; by rewrite length_ne_put). unfold setGSOSize.
    fold gsoControlSize. by replace (_ <? gsoControlSize) with false by lia.
Qed.

(** The current message is complete. *)
Lemma closed_extend h msgs closed owners b0 rest m m' cur n :
  Closed h msgs closed owners (b0 :: rest) -> msgs !! length closed = Some m -> roomy m' ->
  m_Buffer m' = Some (mkSlice (s_arr b0) n) -> transmits e addr srcmsgs max h m' cur ->
  Closed h (<[length closed := m']> msgs) (closed ++ [cur]) (owners ++ [s_arr b0]) rest.
Proof.
  intros [H1 H2 H3 H4 H5 H6 H7 H8] Hm Hr Hb Ht. split.
  - by rewrite length_insert.
  - rewrite length_app. simpl in *. lia.
  - by apply Forall_insert.
  - done.
  - rewrite fmap_cons in H5. by rewrite <- app_assoc.
  - rewrite !length_app. simpl. lia.
  - intros x Hx. apply H7. by right.
  - intros k g Hk. apply lookup_app_Some in Hk as [Hk|[Hle Hk]].
    + destruct (H8 k g Hk) as (mk & a & nk & E1 & E2 & E3 & E4). exists mk, a, nk. apply lookup_lt_Some in Hk.
      rewrite list_lookup_insert_ne by lia. split_and!; try done. by rewrite lookup_app_l by lia.
    + apply list_lookup_singleton_Some in Hk as [Hk <-]. exists m', (s_arr b0), n. assert (k = length closed) as -> by lia.
      rewrite list_lookup_insert_eq by (by eapply lookup_lt_Some). split_and!; try done.
      rewrite lookup_app_r by lia. by rewrite H6, Nat.sub_diag.
Qed.

Lemma get_msg_nat msgs k : get_msg msgs (Z.of_nat k) = msgs !! k.
Proof. unfold get_msg. rewrite decide_True by lia. by rewrite Nat2Z.id. Qed.

Lemma set_msg_nat msgs k m : set_msg msgs (Z.of_nat k) m = <[k := m]> msgs.
Proof. unfold set_msg. by rewrite Nat2Z.id. Qed.

Lemma get_msg_zlen {A} msgs (l : list A) : get_msg msgs (zlen l) = msgs !! length l.
Proof. apply get_msg_nat. Qed.

Lemma set_msg_zlen {A} msgs (l : list A) m : set_msg msgs (zlen l) m = <[length l := m]> msgs.
Proof. apply set_msg_nat. Qed.

(** Before the next message starts, the current one gets its size. *)
Lemma close_mid s closed owners b0 cur rest :
  Current s closed owners b0 cur rest -> rest <> [] ->
  exists msgs, (if dgramCnt s >? 1 then set_gso_at e (co_msgs s) (base s) (co_gsoSize s) else Some (co_msgs s)) = Some msgs /\
    Closed (co_heap s) msgs (closed ++ [cur]) (owners ++ [s_arr b0]) rest.
Proof.
  intros [HC Hbase Hg Hsm Hcnt Hsz _ Hmx (m & Hm & Hb & Hc & Hl & Hs) _] Hr. unfold size_now in *.
  rewrite bool_decide_eq_false_2 in * by done. cbn [andb] in *. rewrite Hcnt, Hbase, Hg.
  assert (roomy m) as Hrm by (pose proof (cl_roomy _ _ _ _ _ HC) as HF; rewrite Forall_forall in HF; by eapply HF, list_elem_of_lookup_2).
  destruct (zlen cur >? 1) eqn:E; zbool.
  - unfold set_gso_at, zlen. rewrite get_msg_nat, Hm. cbn [mbind option_bind]. rewrite set_msg_nat.
    destruct (set_gso_carries _ m cur (s_len b0) Hc (Hs eq_refl) Hl Hrm Hsm) as (Hc' & Hr' & _). eexists. split; [done|].
    eapply closed_extend; [done|done|done|done|]. eapply transmits_cur; [done|done|done| |done].
    by replace (1 <? zlen cur) with true by lia.
  - exists (co_msgs s). split; [done|]. rewrite <- (list_insert_id (co_msgs s) _ m Hm).
    eapply closed_extend; [done|done|done|done|]. eapply transmits_cur; [done|done|done| |done].
    by replace (1 <? zlen cur) with false by lia.
Qed.

(** After the last buffer all messages are complete. *)
Lemma close_end s closed owners b0 cur :
  Current s closed owners b0 cur [] -> Closed (co_heap s) (co_msgs s) (closed ++ [cur]) (owners ++ [s_arr b0]) [].
Proof.
  intros [HC Hbase Hg Hsm Hcnt Hsz _ Hmx (m & Hm & Hb & Hc & Hl & Hs) _].
  rewrite <- (list_insert_id (co_msgs s) _ m Hm).
  assert (roomy m) as Hrm by (pose proof (cl_roomy _ _ _ _ _ HC) as HF; rewrite Forall_forall in HF; by eapply HF, list_elem_of_lookup_2).
  eapply closed_extend; [done|done|done|done|]. eapply transmits_cur; [done|done|done| |done]. done.
Qed.

(** A message starts with buffer [b]. *)
Lemma start_current s msgs groups owners b d rest :
  Closed (co_heap s) msgs groups owners (b :: rest) -> base s + 1 = zlen groups -> datagram_in (co_heap s) b d ->
  exists m, get_msg msgs (base s + 1) = Some m /\
    let m' := m <| m_OOB := setSrcControl (m_OOB m) ep |> <| m_Buffer := Some b |> <| m_Addr := Some addr |> in
    Current (mkCoalesce (co_heap s) (set_msg msgs (base s + 1) m') (base s + 1) (s_len b) 1 false) groups owners b [d] rest.
Proof.
  intros HC Hb (Hd & Hl & Hd1). assert (length groups < length msgs)%nat as Hlt.
  { rewrite (cl_msgs _ _ _ _ _ HC). pose proof (cl_fit _ _ _ _ _ HC) as Hf. simpl in Hf. lia. }
  apply lookup_lt_is_Some_2 in Hlt as [m Hm]. exists m. rewrite Hb. unfold zlen at 1. rewrite get_msg_nat. split; [done|].
  set (m' := m <| m_OOB := _ |> <| m_Buffer := _ |> <| m_Addr := _ |>). unfold zlen at 1. rewrite set_msg_nat.
  pose proof (cl_roomy _ _ _ _ _ HC) as HF. rewrite Forall_forall in HF. pose proof (HF m ltac:(by eapply list_elem_of_lookup_2)) as Hr.
  unfold roomy in Hr. assert (0 <= gsoControlSize) as Hg0.
  { unfold gsoControlSize, sizeOfGSOData. pose proof (CmsgSpace_len 2). pose proof (CmsgLen_add 2). pose proof CmsgLen_sizeof.
    pose proof SizeofCmsghdr_pos. lia. }
  assert (in_bytes (m_OOB m') = in_bytes (ep_src ep)) as Hob by (apply setSrcControl_bytes; [done|lia]).
  assert (roomy m') as Hr'.
  { unfold roomy, m'. cbn. unfold setSrcControl. replace (cap_in (m_OOB m) <? _) with false by lia. unfold cap_in in *. cbn [mem].
    unfold copy_at. rewrite take_0, drop_0. cbn [app]. unfold zlen in *. by rewrite length_copy. }
  split; cbn [co_heap co_msgs base co_gsoSize dgramCnt endBatch]; try done.
  - destruct HC as [H1 H2 H3 H4 H5 H6 H7 H8]. split; try done; [by rewrite length_insert|by apply Forall_insert|].
    intros k g Hk. apply lookup_lt_Some in Hk as Hk'. rewrite list_lookup_insert_ne by lia. by apply H8.
  - lia.
  - rewrite Hl. simpl. lia.
  - intros _. simpl. rewrite app_nil_r, <- Hl. by rewrite Z.mod_same by lia.
  - simpl. rewrite app_nil_r. unfold udpSegmentMaxDatagrams. split; [done|lia].
  - exists m'. rewrite list_lookup_insert_eq by (by eapply lookup_lt_Some). unfold size_now. rewrite andb_false_r. cbn [concat].
    rewrite app_nil_r. split_and!; [done| | | |done].
    + unfold m'. cbn. rewrite <- Hl. by destruct b.
    + exists (in_bytes (ep_src ep)). split; [|unfold controls; cbn; by rewrite app_nil_r].
      rewrite (on_wire_intro _ _ b d) by done. cbn [concat]. by rewrite app_nil_r, Hob.
    + rewrite Hob, <- Hlen. unfold m'. cbn. unfold setSrcControl. by replace (cap_in (m_OOB m) <? _) with false by lia.
  - simpl. rewrite app_nil_r. lia.
Qed.

Lemma carries_frame h m g size a n x arr :
  carries e addr srcmsgs h m g size -> m_Buffer m = Some (mkSlice a n) -> a <> x -> carries e addr srcmsgs (<[x := arr]> h) m g size.
Proof.
  intros (c & Hw & Hc) Hb Hne. exists c. split; [|done]. apply on_wire_inv in Hw as (sl & Hs & Hd & -> & <-).
  rewrite Hb in Hs. injection Hs as <-. eapply on_wire_intro; [done|]. by rewrite bytes_of_insert_ne.
Qed.

Lemma unique_buffer b c : b ∈ bufs -> c ∈ bufs -> s_arr b = s_arr c -> b = c.
Proof.
  intros (i & Hi)%list_elem_of_lookup (j & Hj)%list_elem_of_lookup E. assert (i = j) as ->; [|congruence].
  eapply NoDup_lookup; [exact Hnd| |]; rewrite list_lookup_fmap; [by rewrite Hi|]. rewrite Hj. simpl. by rewrite E.
Qed.

(** The array of the current message changes after its data; all else stays. *)
Lemma closed_append h msgs closed owners b0 rest m a n d :
  Closed h msgs closed owners (b0 :: rest) -> h !! s_arr b0 = Some a -> s_len b0 <= n -> n + zlen d <= zlen a -> roomy m ->
  bytes_of h (mkSlice (s_arr b0) n) = Some (take (Z.to_nat n) a) -> zlen (take (Z.to_nat n) a) = n ->
  forall b rest', rest = b :: rest' ->
  Closed (<[s_arr b0 := splice a n d]> h) (<[length closed := m]> msgs) closed owners (b0 :: rest').
Proof.
  intros [H1 H2 H3 H4 H5 H6 H7 H8] Ha Hn Hc Hr Hby Hz b rest' ->.
  destruct (append_bytes_ok h (mkSlice (s_arr b0) n) a d _ Ha Hby) as (_ & _ & Hkeep & _); [by rewrite Hz|done|].
  cbn [s_arr s_len] in Hkeep. split.
  - by rewrite length_insert.
  - simpl in *. lia.
  - by apply Forall_insert.
  - intros x Hx. rewrite <- (H4 x Hx). destruct (decide (s_arr x = s_arr b0)) as [E|Hne]; [|by apply bytes_of_insert_ne].
    apply Hkeep. rewrite (unique_buffer x b0) by (try done; apply H7; left). done.
  - rewrite !fmap_cons in *. eapply sublist_NoDup; [exact H5|]. apply sublist_app; [done|].
    apply sublist_skip, sublist_cons. done.
  - done.
  - intros x [->|Hx]%elem_of_cons; apply H7; [left|by right; right].
  - intros k g Hk. destruct (H8 k g Hk) as (mk & o & nk & E1 & E2 & E3 & size & E4 & E5). apply lookup_lt_Some in Hk.
    exists mk, o, nk. rewrite list_lookup_insert_ne by lia. split_and!; try done. exists size. split; [|done].
    eapply carries_frame; [done|done|]. intros ->. rewrite fmap_cons in H5. apply NoDup_app in H5 as (_ & H5 & _).
    apply (H5 (s_arr b0)); [by eapply list_elem_of_lookup_2|left].
Qed.

Lemma join_current s closed owners b0 cur b d rest :
  Current s closed owners b0 cur (b :: rest) -> datagram_in (co_heap s) b d ->
  exists r, coalesce_join e max b (bool_decide (rest = [])) s = Some r /\
    match r with Some s' => Current s' closed owners b0 (cur ++ [d]) rest | None => True end.
Proof.
  intros [HC Hbase Hg Hsm Hcnt Hsz Hop Hmx (m & Hm & Hb & Hc & Hl & Hs) Hfirst] (Hd & Hdl & Hd1).
  assert (size_now (s_len b0) (b :: rest) cur = 0) as Hz0 by done. rewrite Hz0 in *.
  assert (roomy m) as Hrm by (pose proof (cl_roomy _ _ _ _ _ HC) as HF; rewrite Forall_forall in HF; by eapply HF, list_elem_of_lookup_2).
  destruct Hc as (ctl & Hw & Hctl). pose proof Hw as Hw0. apply on_wire_inv in Hw as (sl & Hsl & Hby & -> & Haddr).
  rewrite Hb in Hsl. injection Hsl as <-.
  unfold coalesce_join. rewrite Hbase, get_msg_zlen, Hm. cbn [mbind option_bind]. rewrite Hb. cbn [mbind option_bind].
  pose proof Hby as Hby'. unfold bytes_of in Hby'. destruct (array_of (co_heap s) _) as [a|] eqn:Ha; [|done]. cbn [mbind option_bind s_len] in *.
  injection Hby' as Hby'. rewrite Hg, Hcnt, Hdl.
  destruct (_ && _ && _ && _ && _) eqn:E; [|by eexists]. rewrite !andb_true_iff in E. destruct E as ((((E1 & E2) & E3) & E4) & E5). zbool.
  rewrite Hd. cbn [mbind option_bind].
  set (n := zlen (concat cur)) in *. destruct (append_bytes_ok (co_heap s) (mkSlice (s_arr b0) n) a d (concat cur) Ha Hby eq_refl)
    as (-> & Hby2 & _ & _); [cbn; lia|]. cbn [mbind option_bind s_arr s_len] in *.
  set (h' := <[s_arr b0 := _]> (co_heap s)) in *. set (m1 := m <| m_Buffer := _ |>).
  destruct (sized_snoc (s_len b0) cur d Hsz (Hop E5)) as [Hsz' _]; [lia|].
  assert (zlen (concat (cur ++ [d])) = n + zlen d) as Hzc by (rewrite concat_app, zlen_app; cbn [concat]; by rewrite app_nil_r).
  assert (carries e addr srcmsgs h' m1 (cur ++ [d]) 0) as Hc1.
  { exists (in_bytes (m_OOB m)). split; [|done]. rewrite concat_app. cbn [concat]. rewrite app_nil_r.
    rewrite (on_wire_intro h' m1 (mkSlice (s_arr b0) (n + zlen d)) (concat cur ++ d)) by done. cbn. by rewrite Haddr. }
  assert (forall m2, roomy m2 -> Closed h' (<[length closed := m2]> (co_msgs s)) closed owners (b0 :: rest)) as HC'.
  { intros m2 Hr2. eapply closed_append; [done|done|done|lia|done|by rewrite Hby'|by rewrite Hby'|done]. }
  assert (forall m2 size, roomy m2 -> m_Buffer m2 = Some (mkSlice (s_arr b0) (n + zlen d)) -> carries e addr srcmsgs h' m2 (cur ++ [d]) size ->
    size = size_now (s_len b0) rest (cur ++ [d]) -> len_in (m_OOB m2) = zlen (in_bytes (m_OOB m2)) ->
    (size = 0 -> in_bytes (m_OOB m2) = in_bytes (ep_src ep)) ->
    Current (mkCoalesce h' (<[length closed := m2]> (co_msgs s)) (zlen closed) (s_len b0) (zlen cur + 1) (zlen d <? s_len b0))
      closed owners b0 (cur ++ [d]) rest) as Hcur.
  { intros m2 size Hr2 Hb2 Hc2 -> Hl2 Hs2. split; cbn [co_heap co_msgs base co_gsoSize dgramCnt endBatch]; try done.
    - by apply HC'.
    - by rewrite zlen_app.
    - intros Hend. rewrite Hzc. assert (zlen d = s_len b0) as -> by lia. pose proof (Hop E5) as Hmod. unfold n.
      rewrite <- (Z.mul_1_l (s_len b0)) at 1. rewrite Z.mod_add by lia. done.
    - rewrite Hzc, zlen_app. unfold zlen at 2. cbn [length]. lia.
    - exists m2. rewrite list_lookup_insert_eq by (by eapply lookup_lt_Some). by rewrite Hzc.
    - lia. }
  assert (roomy m1) as Hr1 by done. rewrite set_msg_zlen. destruct (decide (rest = [])) as [->|Hne].
  - rewrite bool_decide_eq_true_2 by done. unfold set_gso_at. rewrite get_msg_zlen, list_lookup_insert_eq by (by eapply lookup_lt_Some).
    cbn [mbind option_bind]. rewrite set_msg_zlen, list_insert_insert_eq. eexists. split; [done|].
    destruct (set_gso_carries h' m1 (cur ++ [d]) (s_len b0) Hc1 (Hs eq_refl) Hl Hr1 Hsm) as (Hc2 & Hr2 & Hl2).
    eapply (Hcur _ (s_len b0)); try done; [|lia]. unfold size_now. rewrite bool_decide_eq_true_2 by done. cbn [andb].
    destruct cur; [done|]. rewrite (proj2 (Z.ltb_lt _ _)); [done|]. rewrite zlen_app. unfold zlen. cbn [length]. lia.
  - rewrite bool_decide_eq_false_2 by done. cbn [mbind option_bind]. eexists. split; [done|].
    apply (Hcur m1 0); [done|done|done| |done|by intros _; apply Hs]. unfold size_now. by rewrite bool_decide_eq_false_2.
Qed.

Lemma datagram_kept s closed owners b0 cur b d rest :
  Current s closed owners b0 cur (b :: rest) -> datagram_in h0 b d -> datagram_in (co_heap s) b d.
Proof.
  intros HC (Hd & Hrest). split; [|done]. rewrite <- Hd. pose proof (cu_closed _ _ _ _ _ _ HC) as Hcl.
  apply (cl_heap _ _ _ _ _ Hcl), (cl_rest _ _ _ _ _ Hcl). right. left.
Qed.

Lemma coalesce_loop_ok rest ds : forall i s closed owners b0 cur,
  0 < i -> Current s closed owners b0 cur rest -> Forall2 (datagram_in h0) rest ds ->
  exists s' groups owners', coalesce_loop e max addr ep i rest s = Some s' /\
    Closed (co_heap s') (co_msgs s') groups owners' [] /\ concat groups = concat closed ++ cur ++ ds /\ base s' + 1 = zlen groups.
Proof.
  intros i s closed owners b0 cur Hi HC Hds. revert i s closed owners b0 cur Hi HC.
  induction Hds as [|b d rest ds Hd Hds IH]; intros i s closed owners b0 cur Hi HC.
  - exists s, (closed ++ [cur]), (owners ++ [s_arr b0]). split; [done|]. split; [by apply close_end|].
    rewrite concat_app, zlen_app, (cu_base _ _ _ _ _ _ HC). split; [done|]. done.
  - cbn [coalesce_loop]. replace (i >? 0) with true by lia.
    pose proof (datagram_kept _ _ _ _ _ _ _ _ HC Hd) as Hd'.
    destruct (join_current _ _ _ _ _ _ _ _ HC Hd') as (r & -> & Hr). cbn [mbind option_bind]. destruct r as [s'|]; cbn [mbind option_bind].
    + destruct (IH (i + 1) s' closed owners b0 (cur ++ [d])) as (s2 & groups & owners' & -> & H1 & H2 & H3); [lia|done|].
      exists s2, groups, owners'. split; [done|]. split; [done|]. by rewrite H2, <- app_assoc.
    + destruct (close_mid _ _ _ _ _ _ HC) as (msgs & E & Hcl); [done|].
      destruct (start_current s msgs (closed ++ [cur]) (owners ++ [s_arr b0]) b d rest Hcl) as (m & Em & Hcur).
      { rewrite (cu_base _ _ _ _ _ _ HC), zlen_app. done. }
      { done. }
      unfold coalesce_start. rewrite E. cbn [mbind option_bind]. rewrite Em. cbn [mbind option_bind].
      destruct (IH (i + 1) _ _ _ _ _ ltac:(lia) Hcur) as (s2 & groups & owners' & -> & H1 & H2 & H3).
      exists s2, groups, owners'. split; [done|]. split; [done|]. split; [|done].
      rewrite H2, concat_app. cbn [concat]. by rewrite app_nil_r, <- app_assoc.
Qed.

Lemma coalesce_all_ok msgs ds :
  Forall2 (datagram_in h0) bufs ds -> length msgs = nmsgs -> (length bufs <= nmsgs)%nat -> Forall roomy msgs ->
  exists s groups owners, coalesce_loop e max addr ep 0 bufs (mkCoalesce h0 msgs (-1) 0 0 false) = Some s /\
    Closed (co_heap s) (co_msgs s) groups owners [] /\ concat groups = ds /\ base s + 1 = zlen groups.
Proof.
  intros Hds Hn Hl Hr. assert (Closed h0 msgs [] [] bufs) as HC by (by split).
  inversion Hds as [E1 E2|b d rest ds' Hd Hds' E1 E2].
  - exists (mkCoalesce h0 msgs (-1) 0 0 false), [], []. split; [done|]. split; [|done]. by rewrite E1.
  - assert (Closed h0 msgs [] [] (b :: rest)) as HC' by (by rewrite E1).
    destruct (start_current (mkCoalesce h0 msgs (-1) 0 0 false) msgs [] [] b d rest HC' eq_refl Hd) as (m & Em & Hcur).
    cbn [coalesce_loop]. cbn [Z.gtb Z.compare mbind option_bind]. unfold coalesce_start. cbn [dgramCnt co_msgs].
    cbn [Z.gtb Z.compare mbind option_bind]. rewrite Em. cbn [mbind option_bind].
    destruct (coalesce_loop_ok rest ds' (0 + 1) _ _ _ _ _ ltac:(lia) Hcur Hds') as (s2 & groups & owners' & -> & H1 & H2 & H3).
    by exists s2, groups, owners'.
Qed.

End loop.
