(* ===== verification/BindSend.v ===== *)
(** * Sending is correct

    [Send] hands every datagram of a batch to the kernel, in order and addressed to
    the endpoint, merged where the socket supports it, with the local address of
    the endpoint; when the kernel refuses to split, it falls back to one message
    per datagram. A recycled address of the wrong length is the exception. *)

From stdpp Require Import base numbers list.
From S2P Require Import Prelude Setters AllowedIPs Netip Slices Checksum Gso Gro GroGroups Control Bind BindCoalesce.

Open Scope Z_scope.

Lemma Forall2_by_index {A B} (R : A -> B -> Prop) (l : list A) (k : list B) :
  (forall i y, k !! i = Some y -> exists x, l !! i = Some x /\ R x y) -> Forall2 R (take (length k) l) k.
Proof.
  revert l. induction k as [|y k IH]; intros l Hk; [done|]. destruct (Hk 0%nat y eq_refl) as (x & Hx & Hr).
  destruct l as [|x' l]; [done|]. injection Hx as ->. cbn. constructor; [done|]. apply IH. intros i z. apply (Hk (S i)).
Qed.

Lemma Forall2_middle {A B C} (R : A -> B -> Prop) (S : B -> C -> Prop) l k :
  Forall2 (fun x z => exists y, R x y /\ S y z) l k -> exists m, Forall2 R l m /\ Forall2 S m k.
Proof.
  induction 1 as [|x z l k (y & Hr & Hs) _ (m & H1 & H2)]; [by exists []|]. exists (y :: m). split; by constructor.
Qed.

Section wires.
Context `{UnixLaws} (e : endian).

(** What a message means to the kernel: the datagrams [g], sent to [addr] with the
    control messages [srcmsgs], the piece size being that of UDP_SEGMENT. *)
Definition sends (addr : AddrPort) (srcmsgs : list (Z * Z * list Z)) (max : Z) (w : wire) (g : list (list Z)) : Prop :=
  exists msgs control, w = (concat g, control, Some addr) /\ control_of msgs control /\ srcmsgs `prefix_of` msgs /\
    segmented (gro_of e UDP_SEGMENT msgs) (concat g) g /\ zlen g <= udpSegmentMaxDatagrams /\ zlen (concat g) <= max.

Lemma transmits_sends addr srcmsgs max h m g :
  Forall (fun m => m.1.1 <> SOL_UDP) srcmsgs -> transmits e addr srcmsgs max h m g ->
  exists w, on_wire h m = Some w /\ sends addr srcmsgs max w g.
Proof.
  intros Hs (size & (control & Hw & Hc) & Hz & Hseg & H1 & H2). exists (concat g, control, Some addr). split; [done|].
  exists (controls e srcmsgs size), control. rewrite controls_size by done. split_and!; try done. unfold controls. by eexists.
Qed.

(** ** The loop over [WriteBatch] *)

(** [WriteBatch] makes progress and reports no error, from call [k] on. *)
Definition writes (WriteBatch : batch_writer) (k : nat) : Prop :=
  forall j ws, (k <= j)%nat -> exists n, WriteBatch j ws = (n, None) /\ 0 <= n <= zlen ws /\ (ws <> [] -> 1 <= n).

Lemma send_loop_ok WriteBatch fuel k ws :
  writes WriteBatch k -> (length ws < fuel)%nat -> exists k', send_loop fuel WriteBatch k ws = Some (ws, k', None).
Proof.
  revert k ws. induction fuel as [|fuel IH]; intros k ws Hw Hf; [lia|]. cbn [send_loop].
  destruct (Hw k ws ltac:(lia)) as (n & -> & Hn & Hp). destruct (n =? zlen ws) eqn:E; zbool; [by eexists|].
  rewrite decide_True by done. assert (1 <= n) as H1.
  { apply Hp. intros ->. unfold zlen in *. simpl in *. lia. }
  destruct (IH (S k) (drop (Z.to_nat n) ws)) as (k' & ->).
  - intros j ws' Hj. apply Hw. lia.
  - rewrite length_drop. unfold zlen in *. lia.
  - cbn [mbind option_bind]. rewrite take_drop. by eexists.
Qed.

Lemma send_ok WriteBatch k h msgs ws :
  writes WriteBatch k -> Forall2 (fun m w => on_wire h m = Some w) msgs ws ->
  exists k', send WriteBatch k h msgs = Some (ws, k', None).
Proof.
  intros Hw Hm. unfold send. rewrite (proj2 (mapM_Some _ _ _) Hm). cbn [mbind option_bind]. apply send_loop_ok; [done|lia].
Qed.

End wires.

(** ** One message per datagram *)

Section plain.
Context `{UnixLaws} (e : endian) (ep : StdNetEndpoint) (addr : AddrPort) (srcmsgs : list (Z * Z * list Z)) (max room : Z).
Context (Hsrc : control_of srcmsgs (in_bytes (ep_src ep))) (Hlen : len_in (ep_src ep) = zlen (in_bytes (ep_src ep))).
Context (Hroom : len_in (ep_src ep) <= room) (Hno : Forall (fun m => m.1.1 <> SOL_UDP) srcmsgs).

Lemma gro_of_src ty : gro_of e ty srcmsgs = 0.
Proof. rewrite <- (app_nil_r srcmsgs). by rewrite gro_of_app. Qed.

Lemma plain_ok h msgs bufs ds :
  Forall2 (datagram_in max h) bufs ds -> (length bufs <= length msgs)%nat -> Forall (roomy room) msgs ->
  exists msgs' ws, plain_messages msgs bufs addr ep = Some msgs' /\ length msgs' = length msgs /\ Forall (roomy room) msgs' /\
    Forall2 (fun m w => on_wire h m = Some w) (take (length bufs) msgs') ws /\
    Forall2 (sends e addr srcmsgs max) ws (map (fun d => [d]) ds).
Proof.
  intros Hds Hl Hr. unfold plain_messages. rewrite decide_True by done.
  set (f := fun m b => _). assert (forall m b, roomy room m -> roomy room (f m b)) as Hf.
  { intros m b Hm. unfold roomy, f in *. cbn. unfold setSrcControl. destruct (_ <? _); [done|]. unfold cap_in in *. cbn [mem].
    unfold copy_at. rewrite take_0, drop_0. cbn [app]. unfold zlen in *. by rewrite length_copy. }
  assert (exists ws, Forall2 (fun m w => on_wire h m = Some w) (zip_with f msgs bufs) ws /\
    Forall2 (sends e addr srcmsgs max) ws (map (fun d => [d]) ds)) as (ws & H1 & H2).
  { clear Hf. revert msgs Hl Hr. induction Hds as [|b d bufs ds (Hd & Hdl & Hd1) Hds IH]; intros [|m msgs] Hl Hr; simpl in Hl; try lia.
    - by exists [].
    - by exists [].
    - apply Forall_cons in Hr as [Hm Hr]. destruct (IH msgs) as (ws & H1 & H2); [lia|done|].
      exists ((d, in_bytes (ep_src ep), Some addr) :: ws). split; cbn; constructor; try done.
      + rewrite (on_wire_intro h _ b d) by done. do 3 f_equal. apply setSrcControl_bytes; [done|]. unfold roomy in Hm. lia.
      + exists srcmsgs, (in_bytes (ep_src ep)). cbn [concat]. rewrite app_nil_r, gro_of_src. unfold udpSegmentMaxDatagrams.
        split_and!; try done. lia. }
  assert (length (zip_with f msgs bufs) = length bufs) as Hz by (rewrite length_zip_with; lia).
  eexists _, ws. split; [done|]. split_and!.
  - rewrite length_app, Hz, length_drop. lia.
  - apply Forall_app. split; [|by apply Forall_drop]. apply Forall_lookup. intros i x (m & b & -> & Hm & _)%lookup_zip_with_Some.
    apply Hf. by eapply (Forall_lookup_1 _ _ _ _ Hr).
  - rewrite <- Hz at 1. by rewrite take_app_length.
  - done.
Qed.

End plain.

(** ** [Send] *)

Section send.
Context `{UnixLaws} (e : endian).

(** The messages of the pool. *)
Definition pooled (msgs : list Message) : Prop :=
  length msgs = Z.to_nat IdealBatchSize /\ Forall (roomy (stickyControlSize + gsoControlSize)) msgs.

(** The largest datagram to an address. *)
Definition max_payload (addr : list Z) : Z := if Is6 addr then maxIPv6PayloadLen else maxIPv4PayloadLen.

Definition addr_size (addr : list Z) : Z := if Is6 addr then 16 else 4.

(** An address of the pool that [Send] may use: its slice is as long as the
    address to be copied into it. *)
Definition usable (addr : list Z) (ip : In) : Prop := cap_in ip = 16 /\ addr_size addr <= len_in ip <= 16.

(** A batch of datagrams that can be sent. *)
Record sendable (s : StdNetBind) (h : heap) (bufs : list Slice) (ep : StdNetEndpoint) (srcmsgs : list (Z * Z * list Z))
    (ds : list (list Z)) : Prop := {
  sd_addr : zlen (DstIP ep) = addr_size (DstIP ep);
  sd_conn : (if Is6 (DstIP ep) then ipv6 s else ipv4 s) <> None;
  sd_open : (if Is6 (DstIP ep) then blackhole6 s else blackhole4 s) = false;
  sd_pool : Forall pooled (msgsPool s);
  sd_bufs : Forall2 (datagram_in (max_payload (DstIP ep)) h) bufs ds;
  sd_nodup : NoDup (s_arr <$> bufs);
  sd_batch : (length bufs <= Z.to_nat IdealBatchSize)%nat;
  sd_src : control_of srcmsgs (in_bytes (ep_src ep));
  sd_len : len_in (ep_src ep) = zlen (in_bytes (ep_src ep)) /\ len_in (ep_src ep) <= stickyControlSize;
  sd_udp : Forall (fun m => m.1.1 <> SOL_UDP) srcmsgs
}.

(** Where the datagrams go when [Send] fills in the address [a]: without a zone. *)
Definition aimed (ep : StdNetEndpoint) (a : list Z) : AddrPort := mkAddrPort a [] (ap_port (ep_AddrPort ep)).

Definition destination (ep : StdNetEndpoint) : AddrPort := aimed ep (DstIP ep).

(** The address that [Send] fills in, with the slice [ip] of the pool. *)
Definition filled (ip : In) (ep : StdNetEndpoint) (a : list Z) : Prop :=
  exists ip', set_ip ip (DstIP ep) (addr_size (DstIP ep)) = Some ip' /\ in_bytes ip' = a.

Lemma set_ip_ok ip ep :
  zlen (DstIP ep) = addr_size (DstIP ep) -> usable (DstIP ep) ip ->
  filled ip ep (DstIP ep).
Proof.
  intros Hz [Hc Hl]. unfold filled, set_ip. assert (4 <= addr_size (DstIP ep) <= 16) by (unfold addr_size; by destruct (Is6 _)).
  rewrite decide_True by lia. eexists. split; [done|].
  assert (length (in_bytes ip) = Z.to_nat (len_in ip)) as Hn by (unfold in_bytes, cap_in, zlen in *; rewrite length_take; lia).
  rewrite copy_short by (unfold zlen in *; lia). unfold in_bytes at 1. cbn [mem len_in]. rewrite <- app_assoc.
  rewrite take_app_le by (unfold zlen in *; lia). apply take_ge. unfold zlen in *. lia.
Qed.

Lemma CmsgSpace_nonneg n : 0 <= n -> 0 <= CmsgSpace n.
Proof.
  intros. pose proof (CmsgSpace_len n). pose proof (CmsgLen_add n). pose proof CmsgLen_sizeof. pose proof SizeofCmsghdr_pos. lia.
Qed.

Lemma new_messages_pooled : pooled new_messages.
Proof.
  split; [unfold new_messages; by rewrite length_replicate|]. apply Forall_replicate. unfold roomy, cap_in, zlen. cbn [m_OOB mem]. rewrite length_zeros.
  pose proof (CmsgSpace_nonneg SizeofInet6Pktinfo ltac:(done)). pose proof (CmsgSpace_nonneg sizeOfGSOData ltac:(done)).
  unfold stickyControlSize, gsoControlSize in *. lia.
Qed.

Lemma pool_get_forall {A} (P : A -> Prop) pick new pool x pool' :
  pool_get pick new pool = (x, pool') -> P new -> Forall P pool -> P x /\ Forall P pool'.
Proof.
  unfold pool_get. intros E Hn Hp. destruct pick as [k|]; [|by injection E as <- <-].
  destruct (pool !! k) as [y|] eqn:Ek; injection E as <- <-; [|done].
  split; [by eapply Forall_lookup_1|by apply Forall_delete].
Qed.

Lemma reset_pooled msgs : pooled msgs -> pooled (reset_messages msgs).
Proof.
  intros [Hl Hr]. split; [unfold reset_messages; by rewrite length_map|]. unfold reset_messages. apply Forall_fmap.
  eapply Forall_impl; [exact Hr|]. done.
Qed.

Lemma datagrams_kept max h h' bufs ds :
  Forall2 (datagram_in max h) bufs ds -> (forall b, b ∈ bufs -> bytes_of h' b = bytes_of h b) -> Forall2 (datagram_in max h') bufs ds.
Proof.
  induction 1 as [|b d bufs ds (Hd & Hr) _ IH]; intros Hk; constructor.
  - split; [|done]. rewrite <- Hd. apply Hk. left.
  - apply IH. intros c Hc. apply Hk. by right.
Qed.

(** The messages of a batch and what they mean. *)
Lemma coalesce_wires s h bufs ep addr srcmsgs ds msgs :
  sendable s h bufs ep srcmsgs ds -> pooled msgs ->
  exists h' msgs' ws groups, coalesceMessages e h addr ep bufs msgs = Some (h', msgs', zlen groups) /\
    concat groups = ds /\ Forall2 (fun m w => on_wire h' m = Some w) (take (Z.to_nat (zlen groups)) msgs') ws /\
    Forall2 (sends e addr srcmsgs (max_payload (DstIP ep))) ws groups /\ pooled msgs' /\
    Forall2 (datagram_in (max_payload (DstIP ep)) h') bufs ds.
Proof.
  intros [Ha _ _ _ Hb Hnd Hbt Hsrc [Hl1 Hl2] Hudp] [Hm Hr].
  assert (max_payload (DstIP ep) < 2 ^ 16) as Hmax by (unfold max_payload; by destruct (Is6 _)).
  assert (len_in (ep_src ep) + gsoControlSize <= stickyControlSize + gsoControlSize) as Hroom by lia.
  destruct (coalesce_all_ok e ep addr srcmsgs (max_payload (DstIP ep)) Hmax Hsrc Hl1
    _ Hroom h bufs _ Hnd msgs ds Hb Hm Hbt Hr) as (st & groups & owners & E & HC & Hg & Hbase).
  unfold coalesceMessages. fold (max_payload (DstIP ep)). rewrite E. cbn [mbind option_bind]. rewrite Hbase.
  destruct (Forall2_middle (fun m w => on_wire (co_heap st) m = Some w)
    (sends e addr srcmsgs (max_payload (DstIP ep))) (take (length groups) (co_msgs st)) groups) as (ws & H1 & H2).
  { apply Forall2_by_index. intros k g Hk. destruct (cl_groups _ _ _ _ _ _ _ _ _ _ _ _ _ HC k g Hk) as (m & _ & _ & Hk' & _ & _ & Ht).
    exists m. split; [done|]. by apply transmits_sends. }
  exists (co_heap st), (co_msgs st), ws, groups. split_and!; try done.
  - unfold zlen. by rewrite Nat2Z.id.
  - split; [by eapply cl_msgs|by eapply cl_roomy].
  - eapply datagrams_kept; [exact Hb|]. by eapply cl_heap.
Qed.

(** What [Send] leaves: the same sockets, messages fit for the pool. *)
Definition send_keeps (s s' : StdNetBind) : Prop :=
  ipv4 s' = ipv4 s /\ ipv6 s' = ipv6 s /\ blackhole4 s' = blackhole4 s /\ blackhole6 s' = blackhole6 s /\ Forall pooled (msgsPool s').

Section one.
Context (WriteBatch : batch_writer) (pickMsgs pickAddr : option nat) (s : StdNetBind) (h : heap) (bufs : list Slice).
Context (ep : StdNetEndpoint) (srcmsgs : list (Z * Z * list Z)) (ds : list (list Z)).
Context (HS : sendable s h bufs ep srcmsgs ds) (a : list Z) (Hip : filled (pool_get pickAddr new_ip (udpAddrPool s)).1 ep a).

Notation sent_as := (Forall2 (sends e (aimed ep a) srcmsgs (max_payload (DstIP ep)))).

Lemma plain_send k h' msgs :
  writes WriteBatch k -> pooled msgs -> Forall2 (datagram_in (max_payload (DstIP ep)) h') bufs ds ->
  exists sent msgs', send_plain WriteBatch k h' msgs bufs (aimed ep a) ep = Some (sent, msgs', None) /\ pooled msgs' /\
    sent_as sent (map (fun d => [d]) ds).
Proof.
  intros Hw [Hm Hr] Hb. destruct (sd_len _ _ _ _ _ _ HS) as [Hl1 Hl2].
  pose proof (CmsgSpace_nonneg sizeOfGSOData ltac:(done)) as Hg. change (0 <= gsoControlSize) in Hg.
  assert (len_in (ep_src ep) <= stickyControlSize + gsoControlSize) as Hroom by lia.
  destruct (plain_ok e ep (aimed ep a) srcmsgs (max_payload (DstIP ep)) (stickyControlSize + gsoControlSize)
    (sd_src _ _ _ _ _ _ HS) Hl1 Hroom (sd_udp _ _ _ _ _ _ HS) h' msgs bufs ds Hb) as (msgs' & ws & E & H1 & H2 & H3 & H4).
  { rewrite Hm. apply (sd_batch _ _ _ _ _ _ HS). }
  { done. }
  unfold send_plain. rewrite E. cbn [mbind option_bind]. destruct (send_ok WriteBatch k h' _ ws Hw H3) as (k' & ->).
  cbn [mbind option_bind]. exists ws, msgs'. split; [done|]. split; [|done]. split; [by rewrite H1|done].
Qed.

Lemma addr_guard : negb (Is6 (DstIP ep)) && negb (Is4 (DstIP ep)) = false.
Proof.
  pose proof (sd_addr _ _ _ _ _ _ HS) as Ha. unfold addr_size, Is4, Is6, zlen in *. destruct (bool_decide (length _ = IPv6len)); [done|].
  rewrite bool_decide_eq_true_2; [done|]. unfold IPv4len. lia.
Qed.

(** [Send] up to the label [retry]. *)
Lemma send_start :
  exists msgs mp ap ip, pooled msgs /\ Forall pooled mp /\
    Send e WriteBatch pickMsgs pickAddr s h bufs ep =
      '(s', h', sent, msgs', ret) ← send_batch e WriteBatch (Is6 (DstIP ep)) s h msgs bufs (aimed ep a) ep;
      Some (s' <| msgsPool := mp ++ [reset_messages msgs'] |> <| udpAddrPool := ap ++ [ip] |>, h', sent, ret).
Proof.
  unfold Send. rewrite (sd_open _ _ _ _ _ _ HS). pose proof (sd_conn _ _ _ _ _ _ HS) as Hc.
  destruct (if Is6 (DstIP ep) then ipv6 s else ipv4 s) as [c|]; [clear Hc|done].
  destruct (pool_get pickMsgs new_messages (msgsPool s)) as [msgs mp] eqn:Em.
  destruct (pool_get_forall pooled _ _ _ _ _ Em new_messages_pooled (sd_pool _ _ _ _ _ _ HS)) as [Hm Hmp].
  destruct (pool_get pickAddr new_ip (udpAddrPool s)) as [ip ap]. cbn [fst] in Hip. rewrite addr_guard.
  destruct Hip as (ip' & Eip & Hin). fold (addr_size (DstIP ep)). rewrite Eip.
  cbn [mbind option_bind]. rewrite Hin. by exists msgs, mp, ap, ip'.
Qed.

(** The bind with its pools as [Send] leaves them. *)
Lemma keeps_pools t ms mp ap ip :
  pooled ms -> Forall pooled mp -> ipv4 t = ipv4 s -> ipv6 t = ipv6 s -> blackhole4 t = blackhole4 s -> blackhole6 t = blackhole6 s ->
  send_keeps s (t <| msgsPool := mp ++ [reset_messages ms] |> <| udpAddrPool := ap ++ [ip] |>).
Proof.
  intros Hms Hmp H1 H2 H3 H4. split_and!; try done. cbn. apply Forall_app. split; [done|]. constructor; [|done]. by apply reset_pooled.
Qed.

Lemma singles_concat (l : list (list Z)) : concat (map (fun d => [d]) l) = l.
Proof. induction l as [|d l IH]; [done|]. cbn. by rewrite IH. Qed.

Lemma send_delivered :
  writes WriteBatch 0 ->
  exists s' h' sent groups, Send e WriteBatch pickMsgs pickAddr s h bufs ep = Some (s', h', sent, (false, None)) /\
    sent_as sent groups /\ concat groups = ds /\ send_keeps s s'.
Proof.
  intros Hw. destruct send_start as (msgs & mp & ap & ip & Hm & Hmp & ->). unfold send_batch.
  destruct (if Is6 (DstIP ep) then ipv6TxOffload s else ipv4TxOffload s).
  - destruct (coalesce_wires s h bufs ep (aimed ep a) srcmsgs ds msgs HS Hm) as (h' & msgs' & ws & groups & -> & Hg & H1 & H2 & H3 & H4).
    cbn [mbind option_bind]. destruct (send_ok WriteBatch 0 h' _ ws Hw H1) as (k' & ->). cbn [mbind option_bind].
    eexists _, h', ws, groups. split; [done|]. split_and!; try done. by apply keeps_pools.
  - destruct (plain_send 0 h msgs Hw Hm (sd_bufs _ _ _ _ _ _ HS)) as (sent & msgs' & -> & H1 & H2). cbn [mbind option_bind].
    eexists _, h, sent, (map (fun d => [d]) ds). split; [done|]. split; [done|]. split; [apply singles_concat|]. by apply keeps_pools.
Qed.

(** The kernel refuses to split the first batch. *)
Lemma send_fell_back :
  (if Is6 (DstIP ep) then ipv6TxOffload s else ipv4TxOffload s) = true ->
  (forall ws, WriteBatch 0%nat ws = (0, Some err_EIO)) -> writes WriteBatch 1 ->
  exists s' h' sent, Send e WriteBatch pickMsgs pickAddr s h bufs ep = Some (s', h', sent, (true, None)) /\
    sent_as sent (map (fun d => [d]) ds) /\ send_keeps s s' /\
    (if Is6 (DstIP ep) then ipv6TxOffload s' else ipv4TxOffload s') = false.
Proof.
  intros Hoff Heio Hw. destruct send_start as (msgs & mp & ap & ip & Hm & Hmp & ->). unfold send_batch. rewrite Hoff.
  destruct (coalesce_wires s h bufs ep (aimed ep a) srcmsgs ds msgs HS Hm) as (h' & msgs' & ws & groups & -> & Hg & H1 & H2 & H3 & H4).
  cbn [mbind option_bind]. unfold send. rewrite (proj2 (mapM_Some _ _ _) H1). cbn [mbind option_bind send_loop].
  rewrite Heio. cbn [mbind option_bind]. cbn. destruct (plain_send 1 h' msgs' Hw H3 H4) as (sent & msgs2 & -> & H5 & H6).
  cbn [mbind option_bind]. eexists _, h', sent. split; [done|]. split; [done|].
  destruct (Is6 (DstIP ep)); (split; [by apply keeps_pools|done]).
Qed.

End one.

End send.

(** C13: on an open bind, [Send] hands every datagram of a batch to the kernel. With
    sockets that merge, the messages it writes stand for the datagrams in their
    order: each goes to the address of the endpoint with the local address the
    endpoint keeps, has a size the kernel takes, and is cut into its datagrams at the
    size of its control message. If the kernel refuses to cut, the merging is
    switched off and the datagrams are sent again, one message each. The address
    comes from a pool and must be as long as the one copied into it. *)
Theorem send_delivers `{UnixLaws} e WriteBatch pickMsgs pickAddr s h bufs ep srcmsgs ds :
  sendable s h bufs ep srcmsgs ds -> usable (DstIP ep) (pool_get pickAddr new_ip (udpAddrPool s)).1 ->
  (writes WriteBatch 0 ->
    exists s' h' sent groups, Send e WriteBatch pickMsgs pickAddr s h bufs ep = Some (s', h', sent, (false, None)) /\
      Forall2 (sends e (destination ep) srcmsgs (max_payload (DstIP ep))) sent groups /\ concat groups = ds /\ send_keeps s s') /\
  ((if Is6 (DstIP ep) then ipv6TxOffload s else ipv4TxOffload s) = true ->
    (forall ws, WriteBatch 0%nat ws = (0, Some err_EIO)) -> writes WriteBatch 1 ->
    exists s' h' sent, Send e WriteBatch pickMsgs pickAddr s h bufs ep = Some (s', h', sent, (true, None)) /\
      Forall2 (sends e (destination ep) srcmsgs (max_payload (DstIP ep))) sent (map (fun d => [d]) ds) /\ send_keeps s s' /\
      (if Is6 (DstIP ep) then ipv6TxOffload s' else ipv4TxOffload s') = false).
Proof.
  intros HS Hip. pose proof (set_ip_ok _ ep (sd_addr _ _ _ _ _ _ HS) Hip).
  split; intros; [by apply (send_delivered e)|by apply (send_fell_back e)].
Qed.

(** ** Stale addresses *)

Lemma set_ip_cap ip a n ip' : set_ip ip a n = Some ip' -> cap_in ip = 16 -> cap_in ip' = 16 /\ len_in ip' = n.
Proof.
  unfold set_ip. case_decide; [|done]. intros [= <-] Hc. split; [|done]. unfold cap_in, in_bytes, zlen in *. cbn [mem].
  rewrite length_app, length_copy, <- length_app, take_drop. done.
Qed.

Lemma stale_filled ip ep :
  zlen (DstIP ep) = 16 -> Is6 (DstIP ep) = true -> cap_in ip = 16 -> len_in ip = 4 ->
  filled ip ep (take 4 (DstIP ep) ++ drop 4 (mem ip)).
Proof.
  intros Hz H6 Hc Hl. unfold filled, set_ip, addr_size. rewrite H6, decide_True by lia. eexists. split; [done|].
  assert (length (in_bytes ip) = 4%nat) as Hn by (unfold in_bytes, cap_in, zlen in *; rewrite length_take; lia).
  unfold copy. rewrite Hn, (drop_ge (in_bytes ip)), app_nil_r by (unfold zlen in *; lia).
  unfold in_bytes. cbn [mem len_in]. rewrite Hl. change (Z.to_nat 4) with 4%nat. apply take_ge.
  rewrite length_app, length_take, length_drop. unfold cap_in, zlen in *. lia.
Qed.

(** The slice that [Send] filled in goes to the pool. *)
Lemma send_pool `{Unix} e WriteBatch pickMsgs pickAddr s h bufs ep s' h' sent ret :
  Send e WriteBatch pickMsgs pickAddr s h bufs ep = Some (s', h', sent, ret) ->
  (if Is6 (DstIP ep) then blackhole6 s else blackhole4 s) = false -> (if Is6 (DstIP ep) then ipv6 s else ipv4 s) <> None ->
  exists ap ip', set_ip (pool_get pickAddr new_ip (udpAddrPool s)).1 (DstIP ep) (if Is6 (DstIP ep) then 16 else 4) = Some ip' /\
    udpAddrPool s' = ap ++ [ip'].
Proof.
  unfold Send. intros Hr Hb Hc. rewrite Hb in Hr. destruct (if Is6 (DstIP ep) then ipv6 s else ipv4 s); [clear Hc|done].
  destruct (pool_get pickMsgs _ _) as [msgs mp]. destruct (pool_get pickAddr _ _) as [ip ap]. cbn [fst].
  destruct (_ && _); [done|]. destruct (set_ip _ _ _) as [ip'|]; [|done]. cbn [mbind option_bind] in Hr.
  destruct (send_batch _ _ _ _ _ _ _ _ _) as [[[[[s1 h1] sent1] msgs1] ret1]|]; [|done]. injection Hr as <- _ _ _.
  by exists ap, ip'.
Qed.

(** ** Examples *)

Definition sample_ep4 : StdNetEndpoint := mkEndpoint (mkAddrPort [192; 0; 2; 1] [] 51820) nil_slice.

Definition sample_ep6 : StdNetEndpoint :=
  mkEndpoint (mkAddrPort [32; 1; 13; 184; 0; 0; 0; 0; 0; 0; 0; 0; 0; 0; 0; 1] [] 51820) nil_slice.

Definition sample_bind : StdNetBind := mkBind (Some 3) (Some 4) (Some 3) (Some 4) true true true true [] [] false false.

Definition sample_heap : list (list Z) := [[1; 2; 3; 0; 0; 0]; [4; 5; 6; 0]; [7; 8; 9; 0; 0; 0]].

Definition sample_slices : list Slice := [mkSlice 0 3; mkSlice 1 2; mkSlice 2 3].

Definition accepting : nat -> list wire -> Z * option send_error := fun _ ws => (zlen ws, None).

Lemma send_delivers_witness :
  exists s' h' sent groups,
    @Send (linux64 Little) Little accepting None None sample_bind sample_heap sample_slices sample_ep4 = Some (s', h', sent, (false, None)) /\
    concat groups = [[1; 2; 3]; [4; 5]; [7; 8; 9]].
Proof.
  destruct (@send_delivers (linux64 Little) (linux64_laws Little) Little accepting None None sample_bind sample_heap sample_slices
    sample_ep4 [] [[1; 2; 3]; [4; 5]; [7; 8; 9]]) as [Hok _].
  - split; try done.
    + repeat (constructor; [by vm_compute|]). constructor.
    + decide_closed.
    + vm_compute. lia.
    + constructor.
  - split; by vm_compute.
  - destruct Hok as (s' & h' & sent & groups & E & _ & Hg & _); [|by exists s', h', sent, groups].
    intros j ws _. exists (zlen ws). split_and!; [done|unfold zlen; lia..|]. intros Hne. unfold zlen. destruct ws; [done|]. cbn. lia.
Defined.

(** The three datagrams are two messages: the second datagram joins the first. *)
Lemma sample_sent :
  exists s' h' control, @Send (linux64 Little) Little accepting None None sample_bind sample_heap sample_slices sample_ep4 =
    Some (s', h', [([1; 2; 3; 4; 5], control, Some (destination sample_ep4)); ([7; 8; 9], [], Some (destination sample_ep4))],
          (false, None)).
Proof. eexists _, _, _. vm_compute. reflexivity. Qed.

(** C34: stale addresses. A [net.UDPAddr] that served for an IPv4 address goes back
    to the pool with a slice of 4 bytes. When a batch of datagrams to an IPv6 address
    picks such a slice, only 4 bytes are copied, and every datagram goes to an
    address that has the first 4 bytes of its destination, followed by the 12 bytes
    that the array held before. *)
Theorem send_stale_address `{UnixLaws} e WriteBatch pickMsgs pickAddr s h bufs ep srcmsgs ds :
  sendable s h bufs ep srcmsgs ds -> writes WriteBatch 0 ->
  let ip := (pool_get pickAddr new_ip (udpAddrPool s)).1 in
  (Is6 (DstIP ep) = false -> usable (DstIP ep) ip ->
    exists s' h' sent ap ip', Send e WriteBatch pickMsgs pickAddr s h bufs ep = Some (s', h', sent, (false, None)) /\
      udpAddrPool s' = ap ++ [ip'] /\ cap_in ip' = 16 /\ len_in ip' = 4) /\
  (Is6 (DstIP ep) = true -> cap_in ip = 16 -> len_in ip = 4 ->
    exists s' h' sent groups, Send e WriteBatch pickMsgs pickAddr s h bufs ep = Some (s', h', sent, (false, None)) /\
      Forall2 (sends e (aimed ep (take 4 (DstIP ep) ++ drop 4 (mem ip))) srcmsgs (max_payload (DstIP ep))) sent groups /\
      concat groups = ds).
Proof.
  intros HS Hw ip. split.
  - intros H4 Hip. pose proof (set_ip_ok _ ep (sd_addr _ _ _ _ _ _ HS) Hip) as Hf.
    destruct (send_delivered e WriteBatch pickMsgs pickAddr s h bufs ep srcmsgs ds HS _ Hf Hw) as (s' & h' & sent & groups & E & _).
    destruct (send_pool _ _ _ _ _ _ _ _ _ _ _ _ E) as (ap & ip' & Hs & Hp).
    { by rewrite (sd_open _ _ _ _ _ _ HS). }
    { apply (sd_conn _ _ _ _ _ _ HS). }
    exists s', h', sent, ap, ip'. split; [done|]. split; [done|]. fold ip in Hs. rewrite H4 in Hs. by apply (set_ip_cap _ _ _ _ Hs (proj1 Hip)).
  - intros H6 Hc Hl. assert (Hf : filled ip ep (take 4 (DstIP ep) ++ drop 4 (mem ip))).
    { apply stale_filled; [|done..]. rewrite (sd_addr _ _ _ _ _ _ HS). unfold addr_size. by rewrite H6. }
    destruct (send_delivered e WriteBatch pickMsgs pickAddr s h bufs ep srcmsgs ds HS _ Hf Hw) as (s' & h' & sent & groups & E & H1 & H2 & _).
    by exists s', h', sent, groups.
Qed.

(** The pool holds the slice of an IPv4 address. *)
Definition stale_bind : StdNetBind := sample_bind <| udpAddrPool := [mkIn ([192; 0; 2; 1] ++ zeros 12) 4] |>.

Lemma send_stale_address_witness :
  exists s' h' sent groups,
    @Send (linux64 Little) Little accepting None (Some 0%nat) stale_bind sample_heap sample_slices sample_ep6 = Some (s', h', sent, (false, None)) /\
    Forall2 (@sends (linux64 Little) Little (aimed sample_ep6 ([32; 1; 13; 184] ++ zeros 12)) [] maxIPv6PayloadLen) sent groups /\
    concat groups = [[1; 2; 3]; [4; 5]; [7; 8; 9]] /\ DstIP sample_ep6 <> [32; 1; 13; 184] ++ zeros 12.
Proof.
  destruct (@send_stale_address (linux64 Little) (linux64_laws Little) Little accepting None (Some 0%nat)
    stale_bind sample_heap sample_slices sample_ep6 [] [[1; 2; 3]; [4; 5]; [7; 8; 9]]) as [_ H6].
  - split; try done.
    + repeat (constructor; [by vm_compute|]). constructor.
    + decide_closed.
    + vm_compute. lia.
    + constructor.
  - intros j ws _. exists (zlen ws). split_and!; [done|unfold zlen; lia..|]. intros Hne. unfold zlen. destruct ws; [done|]. cbn. lia.
  - destruct H6 as (s' & h' & sent & groups & E & Hs & Hg); [vm_compute; reflexivity..|].
    exists s', h', sent, groups. split; [exact E|]. split; [exact Hs|]. split; [exact Hg|done].
Defined.
