(* ===== verification/BindReceive.v ===== *)
(** * Receiving is correct

    The kernel delivers datagrams of one flow merged into one message and says how
    large the pieces are. [splitCoalescedMessages] cuts them, and [receiveIP] hands
    out the datagrams that arrived, in their order, with the address they came
    from. *)

From stdpp Require Import base numbers list.
From S2P Require Import Prelude Setters AllowedIPs Netip Slices Checksum Gso Gro GroGroups Control Bind BindCoalesce BindSend.

Open Scope Z_scope.

(** A message the kernel delivers: the data, its control messages, where it came
    from, and the datagrams it was merged from. *)
Record Packet := mkPacket {
  p_data : list Z;
  p_control : list (Z * Z * list Z);
  p_addr : AddrPort;
  p_pieces : list (list Z)
}.

Section receive.
Context `{UnixLaws} (e : endian).

(** The data is not empty and cut at the size of UDP_GRO. *)
Definition packet_ok (p : Packet) : Prop :=
  1 <= zlen (p_data p) <= 65535 /\ segmented (gro_of e UDP_GRO (p_control p)) (p_data p) (p_pieces p) /\
  0 <= gro_of e UDP_GRO (p_control p) <= zlen (p_data p).

(** ** The buffers *)

Context (bufs : list Slice) (Hnd : NoDup (s_arr <$> bufs)).

(** Buffer [k] starts with [x]. *)
Definition holds (h : heap) (k : nat) (x : list Z) : Prop :=
  exists b a, bufs !! k = Some b /\ h !! s_arr b = Some a /\ x `prefix_of` a.

(** The messages use the buffers, and these are large enough. *)
Record Rx (h : heap) (msgs : list Message) : Prop := {
  rx_len : length msgs = length bufs;
  rx_buf : forall k m b, msgs !! k = Some m -> bufs !! k = Some b -> m_Buffer m = Some b;
  rx_arr : forall b, b ∈ bufs -> exists a, h !! s_arr b = Some a /\ 65535 <= s_len b <= zlen a
}.

Lemma buffer_index j k b c : bufs !! j = Some b -> bufs !! k = Some c -> s_arr b = s_arr c -> j = k.
Proof.
  intros Hj Hk E. eapply NoDup_lookup; [exact Hnd| |]; rewrite list_lookup_fmap; [by rewrite Hj|]. rewrite Hk. simpl. by rewrite E.
Qed.

(** Writing to the front of buffer [n]. *)
Lemma write_front h msgs n b a x m :
  Rx h msgs -> bufs !! n = Some b -> h !! s_arr b = Some a -> zlen x <= zlen a -> m_Buffer m = Some b ->
  Rx (<[s_arr b := splice a 0 x]> h) (<[n := m]> msgs) /\ holds (<[s_arr b := splice a 0 x]> h) n x /\
  (forall k y, k <> n -> holds h k y -> holds (<[s_arr b := splice a 0 x]> h) k y).
Proof.
  intros [H1 H2 H3] Hb Ha Hx Hm. apply lookup_lt_Some in Ha as Hlt. split_and!.
  - split.
    + by rewrite length_insert.
    + intros k m' b' Hk Hb'. destruct (decide (k = n)) as [->|Hne].
      * rewrite list_lookup_insert_eq in Hk by (apply lookup_lt_Some in Hb'; lia). injection Hk as <-. congruence.
      * rewrite list_lookup_insert_ne in Hk by done. by eapply H2.
    + intros c Hc. destruct (H3 c Hc) as (ac & Hac & Hl). destruct (decide (s_arr c = s_arr b)) as [E|Hne].
      * exists (splice a 0 x). rewrite E, list_lookup_insert_eq by done. rewrite E, Ha in Hac. injection Hac as ->.
        pose proof (zlen_nonneg x). rewrite zlen_splice by lia. done.
      * exists ac. by rewrite list_lookup_insert_ne.
  - exists b, (splice a 0 x). rewrite list_lookup_insert_eq by done. split_and!; try done. unfold splice. rewrite take_0. by eexists.
  - intros k y Hk (c & ac & Hc & Hac & Hy). exists c, ac. split_and!; try done. rewrite list_lookup_insert_ne; [done|].
    intros E. apply Hk. by eapply buffer_index.
Qed.

Lemma split_copy_ok h msgs i n mi data start end_ :
  Rx h msgs -> msgs !! i = Some mi -> (n < length msgs)%nat -> holds h i data -> zlen data <= 65535 ->
  0 <= start <= end_ -> end_ <= zlen data ->
  exists h' mn, split_copy h msgs (Z.of_nat i) (Z.of_nat n) start end_ =
      Some (h', <[n := mn <| m_N := end_ - start |> <| m_Addr := m_Addr mi |>]> msgs) /\ msgs !! n = Some mn /\
    Rx h' (<[n := mn <| m_N := end_ - start |> <| m_Addr := m_Addr mi |>]> msgs) /\
    holds h' n (sub data start end_) /\ (forall k y, k <> n -> holds h k y -> holds h' k y).
Proof.
  intros HR Hi Hn (b & a & Hb & Ha & (tl & ->)) Hd H1 H2. pose proof HR as [R1 R2 R3].
  apply lookup_lt_is_Some_2 in Hn as [mn Hmn].
  destruct (lookup_lt_is_Some_2 bufs n) as [bn Hbn]; [apply lookup_lt_Some in Hmn; lia|].
  destruct (R3 bn ltac:(by eapply list_elem_of_lookup_2)) as (an & Han & Hlen).
  assert (sub (data ++ tl) start end_ = sub data start end_) as Hsub by (apply sub_pre; lia).
  assert (zlen (sub data start end_) = end_ - start) as Hz by (apply zlen_sub; lia).
  unfold split_copy, array_of. rewrite !get_msg_nat, Hi. cbn [mbind option_bind]. rewrite (R2 _ _ _ Hi Hb). cbn [mbind option_bind].
  rewrite Ha. cbn [mbind option_bind]. rewrite slice_sub by (rewrite ?zlen_app; pose proof (zlen_nonneg tl); lia). cbn [mbind option_bind].
  rewrite Hmn. cbn [mbind option_bind]. rewrite (R2 _ _ _ Hmn Hbn). cbn [mbind option_bind]. rewrite Han. cbn [mbind option_bind].
  rewrite Hsub, Hz, Z.min_r by lia. rewrite take_ge by (unfold zlen in Hz; lia). rewrite set_msg_nat.
  destruct (write_front h msgs n bn an (sub data start end_) (mn <| m_N := end_ - start |> <| m_Addr := m_Addr mi |>) HR Hbn Han)
    as (W1 & W2 & W3); [lia|by apply (R2 _ _ _ Hmn Hbn)|].
  by eexists _, mn.
Qed.

(** The datagrams [ds] are in the buffers from [n] on, and the messages say so;
    the control messages are those of [old]. *)
Definition got (h : heap) (msgs old : list Message) (n : nat) (ds : list (list Z)) (addr : option AddrPort) : Prop :=
  forall j d, ds !! j = Some d -> holds h (n + j) d /\
    exists m m0, msgs !! (n + j)%nat = Some m /\ old !! (n + j)%nat = Some m0 /\ m_N m = zlen d /\ m_Addr m = addr /\
      m_OOB m = m_OOB m0 /\ m_NN m = m_NN m0.

(** Nothing outside the messages from [n] to [n'] changes. *)
Definition untouched (h h' : heap) (msgs msgs' : list Message) (n n' : nat) : Prop :=
  (forall k, (k < n \/ n' <= k)%nat -> msgs' !! k = msgs !! k) /\
  (forall k y, (k < n \/ n' <= k)%nat -> holds h k y -> holds h' k y).

Lemma piece_at data d rest start :
  0 <= start -> drop (Z.to_nat start) data = d ++ rest -> 1 <= zlen d ->
  sub data start (start + zlen d) = d /\ start + zlen d <= zlen data /\
  drop (Z.to_nat (start + zlen d)) data = rest.
Proof.
  intros Hs Hd H1. assert (length (drop (Z.to_nat start) data) = length d + length rest)%nat as Hl by (by rewrite Hd, length_app).
  rewrite length_drop in Hl. unfold zlen in *. split_and!.
  - unfold sub. rewrite Hd. rewrite take_app_le by lia. apply take_ge. lia.
  - lia.
  - replace (Z.to_nat (start + Z.of_nat (length d))) with (Z.to_nat start + length d)%nat by lia.
    rewrite <- drop_drop, Hd. apply drop_app_length.
Qed.

Lemma got_cons h msgs old n d ds addr mn m0 :
  holds h n d -> msgs !! n = Some mn -> old !! n = Some m0 -> m_N mn = zlen d -> m_Addr mn = addr -> m_OOB mn = m_OOB m0 -> m_NN mn = m_NN m0 ->
  (forall j x, ds !! j = Some x -> holds h (S n + j) x /\
    exists m m1, msgs !! (S n + j)%nat = Some m /\ old !! (S n + j)%nat = Some m1 /\ m_N m = zlen x /\ m_Addr m = addr /\
      m_OOB m = m_OOB m1 /\ m_NN m = m_NN m1) ->
  got h msgs old n (d :: ds) addr.
Proof.
  intros Hh Hm Ho HN HA HO HNN Hds [|j] x Hx.
  - injection Hx as <-. rewrite Nat.add_0_r. split; [done|]. by exists mn, m0.
  - rewrite Nat.add_succ_r. by apply Hds.
Qed.

Lemma split_pieces_ok ds : forall h msgs n start data i mi g,
  Rx h msgs -> msgs !! i = Some mi -> m_N mi = zlen data -> holds h i data -> zlen data <= 65535 -> 0 <= start -> sized g ds ->
  drop (Z.to_nat start) data = concat ds -> (n + length ds <= S i)%nat ->
  exists h' msgs', split_pieces (length ds) h msgs (Z.of_nat i) (Z.of_nat n) start (start + zlen (hd [] ds)) g =
      Some (h', msgs', Z.of_nat (n + length ds), false) /\ Rx h' msgs' /\ got h' msgs' msgs n ds (m_Addr mi) /\
    untouched h h' msgs msgs' n (n + length ds).
Proof.
  induction ds as [|d ds IH]; intros h msgs n start data i mi g HR Hi HN Hh Hz Hs Hsz Hd Hn; [done|].
  cbn [length concat hd] in *. assert (1 <= zlen d) as Hd1 by (apply (sized_head_pos g d ds Hsz)).
  destruct (piece_at data d (concat ds) start Hs Hd Hd1) as (P1 & P2 & P3). cbn [split_pieces].
  replace (Z.of_nat n >? Z.of_nat i) with false by lia. apply lookup_lt_Some in Hi as Hlt.
  destruct (split_copy_ok h msgs i n mi data start (start + zlen d) HR Hi ltac:(lia) Hh Hz ltac:(lia) P2)
    as (h1 & mn & -> & Hmn & HR1 & Hh1 & Hk1). cbn [mbind option_bind]. rewrite P1 in Hh1.
  replace (start + zlen d - start) with (zlen d) in * by lia.
  set (mn' := mn <| m_N := zlen d |> <| m_Addr := m_Addr mi |>) in *. set (msgs1 := <[n := mn']> msgs) in *.
  assert (msgs1 !! n = Some mn') as Hn1 by (apply list_lookup_insert_eq; by eapply lookup_lt_Some).
  rewrite get_msg_nat. destruct ds as [|d2 ds].
  - destruct (lookup_lt_is_Some_2 msgs1 i) as [mi' ->]; [unfold msgs1; by rewrite length_insert|]. cbn [mbind option_bind split_pieces length].
    exists h1, msgs1. split; [by replace (Z.of_nat (n + _)) with (Z.of_nat n + 1) by lia|]. split; [done|]. split.
    + by eapply got_cons.
    + split; intros k; [|intros y]; intros Hk; [unfold msgs1; apply list_lookup_insert_ne; cbn in Hk; lia|apply Hk1; cbn in Hk; lia].
  - assert (n <> i) as Hne by (cbn in Hn; lia).
    assert (msgs1 !! i = Some mi) as Hi1 by (unfold msgs1; by rewrite list_lookup_insert_ne). rewrite Hi1. cbn [mbind option_bind].
    assert (1 <= zlen d2) as Hd2 by (destruct Hsz as [_ Hsz]; apply (sized_head_pos g d2 ds Hsz)).
    destruct (piece_at data d2 (concat ds) (start + zlen d) ltac:(lia) P3 Hd2) as (_ & Q2 & Q3).
    assert ((if start + zlen d + g >? m_N mi then m_N mi else start + zlen d + g) = start + zlen d + zlen (hd [] (d2 :: ds))) as ->.
    { cbn [hd]. rewrite HN. destruct Hsz as [_ Hsz]. destruct ds as [|d3 ds].
      - assert (zlen (drop (Z.to_nat (start + zlen d)) data) = zlen d2) as Hl by (rewrite P3; cbn [concat]; by rewrite app_nil_r).
        unfold zlen in Hl at 1. rewrite length_drop in Hl. destruct Hsz as [Hs1 Hs2]. unfold zlen in *.
        destruct (_ >? _) eqn:E; zbool; lia.
      - destruct Hsz as [Hg _]. replace (_ >? _) with false by lia. lia. }
    replace (Z.of_nat n + 1) with (Z.of_nat (S n)) by lia.
    destruct (IH h1 msgs1 (S n) (start + zlen d) data i mi g HR1 Hi1 HN (Hk1 _ _ ltac:(done) Hh) Hz ltac:(lia)) as (h2 & msgs2 & E & R2 & G2 & U2 & V2).
    { by destruct Hsz. }
    { done. }
    { cbn in *. lia. }
    cbn [length] in *. rewrite E. exists h2, msgs2. split; [by replace (S n + S (length ds))%nat with (n + S (S (length ds)))%nat by lia|]. split; [done|]. split.
    + eapply got_cons; [by apply V2; [lia|]|rewrite U2 by lia; exact Hn1|done|done|done|done|done|].
      intros j x Hx. destruct (G2 j x Hx) as (G3 & m & m1 & G4 & G5 & G6). split; [done|]. exists m, m1. split; [done|].
      split; [|done]. rewrite <- G5. unfold msgs1. rewrite list_lookup_insert_ne by lia. done.
    + split.
      * intros k Hk. rewrite U2 by lia. unfold msgs1. apply list_lookup_insert_ne. lia.
      * intros k y Hk Hy. apply V2; [lia|]. apply Hk1; [lia|done].
Qed.

(** ** All messages *)

(** The datagrams of the packets, with where they came from. *)
Definition datagrams_of (l : list Packet) : list (list Z * AddrPort) :=
  concat (map (fun p => map (fun d => (d, p_addr p)) (p_pieces p)) l).

(** The datagrams fit: no message is reached before it was cut. *)
Fixpoint fits (i n : nat) (l : list Packet) : Prop :=
  match l with
  | [] => True
  | p :: l => (n + length (p_pieces p) <= S i)%nat /\ fits (S i) (n + length (p_pieces p)) l
  end.

(** Message [k] is the packet as the kernel delivered it. *)
Definition is_packet (h : heap) (msgs : list Message) (k : nat) (p : Packet) : Prop :=
  exists m, msgs !! k = Some m /\ m_N m = zlen (p_data p) /\ m_Addr m = Some (p_addr p) /\
    control_of (p_control p) (take (Z.to_nat (m_NN m)) (mem (m_OOB m))) /\ holds h k (p_data p).

(** The messages from [i] on are the packets, the others are empty. *)
Definition unread (h : heap) (msgs : list Message) (i : nat) (l : list Packet) : Prop :=
  forall k, (i <= k < length msgs)%nat ->
    match l !! (k - i)%nat with
    | Some p => is_packet h msgs k p
    | None => exists m, msgs !! k = Some m /\ m_N m = 0
    end.

(** What [got] says, for datagrams from several senders. *)
Definition got_all (h : heap) (msgs old : list Message) (n : nat) (ds : list (list Z * AddrPort)) : Prop :=
  forall j d a, ds !! j = Some (d, a) -> holds h (n + j) d /\
    exists m m0, msgs !! (n + j)%nat = Some m /\ old !! (n + j)%nat = Some m0 /\ m_N m = zlen d /\ m_Addr m = Some a /\
      m_OOB m = m_OOB m0 /\ m_NN m = m_NN m0.

Lemma sized_count g ds : sized g ds -> (zlen (concat ds) + g - 1) / g = zlen ds.
Proof.
  intros Hs. pose proof (sized_pos _ _ Hs) as Hg. induction ds as [|d [|d2 ds] IH]; [done| |].
  - destruct Hs as [H1 H2]. cbn [concat]. rewrite app_nil_r. symmetry. apply (Z.div_unique _ _ _ (zlen d - 1)); [lia|].
    unfold zlen at 2. cbn [length]. lia.
  - destruct Hs as [Hd Hs]. specialize (IH Hs). change (concat (d :: d2 :: ds)) with (d ++ concat (d2 :: ds)). rewrite zlen_app, Hd.
    replace (g + zlen (concat (d2 :: ds)) + g - 1) with (zlen (concat (d2 :: ds)) + g - 1 + 1 * g) by lia.
    rewrite Z.div_add by lia. rewrite IH. unfold zlen. cbn [length]. lia.
Qed.

Lemma sized_all_pos g ds : sized g ds -> Forall (fun d => 1 <= zlen d) ds.
Proof.
  induction ds as [|d [|d2 ds] IH]; intros Hs; [done| |].
  - constructor; [by eapply sized_head_pos|done].
  - constructor; [by eapply sized_head_pos|]. apply IH. by destruct Hs.
Qed.

(** The pieces of one packet. *)
Lemma split_one h msgs i n p :
  Rx h msgs -> is_packet h msgs i p -> packet_ok p -> (n + length (p_pieces p) <= S i)%nat ->
  let g := gro_of e UDP_GRO (p_control p) in
  let N := zlen (p_data p) in
  exists h' msgs', split_pieces (Z.to_nat (if g >? 0 then (N + g - 1) / g else 1)) h msgs (Z.of_nat i) (Z.of_nat n) 0
      (if g >? 0 then g else N) g = Some (h', msgs', Z.of_nat (n + length (p_pieces p)), false) /\ Rx h' msgs' /\
    got h' msgs' msgs n (p_pieces p) (Some (p_addr p)) /\ untouched h h' msgs msgs' n (n + length (p_pieces p)).
Proof.
  intros HR (m & Hm & HN & HA & _ & Hh) ((Hd1 & Hd2) & Hseg & Hg0 & Hg1) Hn g N. fold g in Hg0, Hg1, Hseg. unfold segmented in Hseg.
  destruct (g =? 0) eqn:Eg; zbool.
  - replace (g >? 0) with false by lia. rewrite Hseg in *. cbn [length] in *.
    destruct (split_pieces_ok [p_data p] h msgs n 0 (p_data p) i m N HR Hm HN Hh Hd2) as (h' & msgs' & E & H1 & H2 & H3).
    { done. }
    { cbn. fold N. lia. }
    { cbn [concat]. by rewrite app_nil_r. }
    { done. }
    exists h', msgs'. rewrite HA in H2. split; [|done]. exact E.
  - destruct Hseg as [Hc Hs]. replace (g >? 0) with true by lia. unfold N. rewrite <- Hc, (sized_count _ _ Hs).
    destruct (split_pieces_ok (p_pieces p) h msgs n 0 (p_data p) i m g HR Hm HN Hh Hd2) as (h' & msgs' & E & H1 & H2 & H3); try done.
    exists h', msgs'. rewrite HA in H2. split; [|done]. unfold zlen at 1. rewrite Nat2Z.id. rewrite <- E. f_equal.
    destruct (p_pieces p) as [|d [|d2 ds]]; [done| |].
    + destruct Hs as [_ Hs]. cbn [hd]. cbn [concat] in Hc. rewrite app_nil_r in Hc. rewrite <- Hc in Hg1. lia.
    + destruct Hs as [Hs _]. cbn [hd]. lia.
Qed.

Lemma got_all_cons h msgs old n p l :
  got h msgs old n (p_pieces p) (Some (p_addr p)) -> got_all h msgs old (n + length (p_pieces p)) (datagrams_of l) ->
  got_all h msgs old n (datagrams_of (p :: l)).
Proof.
  intros H1 H2 j d a Hj. unfold datagrams_of in Hj. cbn [map concat] in Hj. apply lookup_app_Some in Hj as [Hj|[Hle Hj]].
  - apply list_lookup_fmap_Some in Hj as (d' & [= -> ->] & Hj). by apply H1.
  - rewrite length_map in *. destruct (H2 _ _ _ Hj) as (G1 & G2).
    by replace (n + length (p_pieces p) + (j - length (p_pieces p)))%nat with (n + j)%nat in * by lia.
Qed.

(** Later pieces leave those of a packet alone. *)
Lemma got_later h h' msgs msgs' old n ds addr :
  got h msgs old n ds addr -> (forall k, (k < n + length ds)%nat -> msgs' !! k = msgs !! k) ->
  (forall k y, (k < n + length ds)%nat -> holds h k y -> holds h' k y) -> got h' msgs' old n ds addr.
Proof.
  intros HG H1 H2 j d Hj. destruct (HG j d Hj) as (G1 & G2). apply lookup_lt_Some in Hj. rewrite H1 by lia.
  split; [apply H2; [lia|done]|done].
Qed.

Lemma got_all_old h msgs old old' n ds :
  got_all h msgs old n ds ->
  (forall k m, (n <= k)%nat -> old !! k = Some m -> exists m', old' !! k = Some m' /\ m_OOB m = m_OOB m' /\ m_NN m = m_NN m') ->
  got_all h msgs old' n ds.
Proof.
  intros HG Ho j d a Hj. destruct (HG j d a Hj) as (G1 & m & m0 & G2 & G3 & G4 & G5 & G6 & G7). split; [done|].
  destruct (Ho (n + j)%nat m0 ltac:(lia) G3) as (m' & E1 & E2 & E3). exists m, m'. by rewrite <- E2, <- E3.
Qed.

Lemma unread_next h h' msgs msgs' i p l :
  unread h msgs i (p :: l) -> length msgs' = length msgs -> (forall k, (i < k)%nat -> msgs' !! k = msgs !! k) ->
  (forall k y, (i < k)%nat -> holds h k y -> holds h' k y) -> unread h' msgs' (S i) l.
Proof.
  intros Hun Hl H1 H2 k Hk. specialize (Hun k ltac:(lia)). replace (k - i)%nat with (S (k - S i)) in Hun by lia. cbn in Hun.
  destruct (l !! (k - S i)%nat) as [q|]; [|rewrite H1 by lia; done].
  destruct Hun as (m & E1 & E2 & E3 & E4 & E5). exists m. rewrite H1 by lia. split_and!; try done. by apply H2; [lia|].
Qed.

(** The size of message [i] becomes 0 unless it holds the last piece. *)
Definition retire (msgs : list Message) (i n : nat) (m : Message) : list Message :=
  if Z.of_nat i =? Z.of_nat n - 1 then msgs else set_msg msgs (Z.of_nat i) (m <| m_N := 0 |>).

Lemma retire_same msgs i n m k : k <> i \/ (k < n)%nat -> (n <= S i)%nat -> retire msgs i n m !! k = msgs !! k.
Proof.
  intros Hk Hn. unfold retire. destruct (_ =? _) eqn:E; [done|]. zbool. rewrite set_msg_nat. apply list_lookup_insert_ne. lia.
Qed.

Lemma retire_control msgs i n m k m' :
  msgs !! i = Some m -> retire msgs i n m !! k = Some m' ->
  exists m0, msgs !! k = Some m0 /\ m_OOB m' = m_OOB m0 /\ m_NN m' = m_NN m0.
Proof.
  intros Hm. unfold retire. destruct (_ =? _); [by exists m'|]. rewrite set_msg_nat. destruct (decide (k = i)) as [->|Hne].
  - rewrite list_lookup_insert_eq by (by eapply lookup_lt_Some). intros [= <-]. by exists m.
  - rewrite list_lookup_insert_ne by done. by exists m'.
Qed.

Lemma retire_rx h msgs i n m : Rx h msgs -> msgs !! i = Some m -> Rx h (retire msgs i n m).
Proof.
  intros [H1 H2 H3] Hm. unfold retire. destruct (_ =? _); [done|]. rewrite set_msg_nat. split; [by rewrite length_insert| |done].
  intros k m' b Hk Hb. destruct (decide (k = i)) as [->|Hne].
  - rewrite list_lookup_insert_eq in Hk by (by eapply lookup_lt_Some). injection Hk as <-. by apply (H2 i m b).
  - rewrite list_lookup_insert_ne in Hk by done. by apply (H2 k m' b).
Qed.

Lemma split_loop_ok l : forall h msgs i n,
  Rx h msgs -> unread h msgs i l -> Forall packet_ok l -> fits i n l -> (i + length l <= length msgs)%nat ->
  exists h' msgs', split_loop e h msgs (seqZ (Z.of_nat i) (zlen msgs - Z.of_nat i)) (Z.of_nat n) =
      Some (h', msgs', Z.of_nat (n + length (datagrams_of l)), None) /\ Rx h' msgs' /\ got_all h' msgs' msgs n (datagrams_of l) /\
    (forall k, (k < n)%nat -> msgs' !! k = msgs !! k) /\ (forall k y, (k < n)%nat -> holds h k y -> holds h' k y).
Proof.
  induction l as [|p l IH]; intros h msgs i n HR Hun Hok Hfit Hl.
  - exists h, msgs. split; [|split_and!; try done; by intros j d a Hj]. unfold datagrams_of. cbn [map concat length]. rewrite Nat.add_0_r.
    destruct (decide (i < length msgs)%nat) as [Hi|Hi]; [|by rewrite seqZ_nil by (unfold zlen; lia)].
    rewrite seqZ_cons by (unfold zlen; lia). cbn [split_loop]. rewrite get_msg_nat.
    destruct (Hun i ltac:(lia)) as (m & -> & HN). cbn [mbind option_bind]. by rewrite HN.
  - cbn [length fits] in *. destruct Hfit as [Hf1 Hf2]. apply Forall_cons in Hok as [Hp Hok].
    assert (is_packet h msgs i p) as Hpk by (pose proof (Hun i ltac:(lia)) as Hx; by rewrite Nat.sub_diag in Hx).
    destruct (split_one h msgs i n p HR Hpk Hp Hf1) as (h1 & msgs1 & E1 & R1 & G1 & U1 & V1).
    destruct Hpk as (m & Hm & HN & HA & Hctl & _). rewrite seqZ_cons by (unfold zlen; lia). cbn [split_loop].
    rewrite get_msg_nat, Hm. cbn [mbind option_bind]. rewrite HN. destruct Hp as ((Hp1 & _) & _).
    replace (zlen (p_data p) =? 0) with false by lia. rewrite (getGSOSize_spec e _ _ Hctl). cbv zeta in E1. rewrite E1.
    cbn [mbind option_bind]. rewrite get_msg_nat. assert (length msgs1 = length msgs) as Hl1.
    { by rewrite (rx_len _ _ R1), <- (rx_len _ _ HR). }
    destruct (lookup_lt_is_Some_2 msgs1 i ltac:(lia)) as [m1 Hm1]. rewrite Hm1. cbn [mbind option_bind].
    set (n1 := (n + length (p_pieces p))%nat) in *. fold (retire msgs1 i n1 m1). pose proof (retire_rx _ _ i n1 m1 R1 Hm1) as R2.
    assert (length (retire msgs1 i n1 m1) = length msgs) as Hl2 by (by rewrite (rx_len _ _ R2), <- (rx_len _ _ HR)).
    destruct (IH h1 (retire msgs1 i n1 m1) (S i) n1) as (h2 & msgs3 & E2 & R3 & G3 & U3 & V3); [done| |done|done|lia|].
    { eapply unread_next; [exact Hun|done| |]; [intros k Hk; rewrite retire_same by lia; apply U1; lia|intros k y Hk; apply V1; lia]. }
    exists h2, msgs3. split_and!; [|done| | |].
    + replace (Z.succ (Z.of_nat i)) with (Z.of_nat (S i)) by lia.
      replace (Z.pred (zlen msgs - Z.of_nat i)) with (zlen (retire msgs1 i n1 m1) - Z.of_nat (S i)) by (unfold zlen; lia).
      rewrite E2. unfold datagrams_of. cbn [map concat]. rewrite length_app, length_map. by rewrite Nat.add_assoc.
    + apply got_all_cons.
      * eapply got_later; [exact G1| |by apply V3]. intros k Hk. rewrite U3 by done. apply retire_same; [lia|done].
      * eapply got_all_old; [exact G3|]. intros k m' Hk Hm'. destruct (retire_control _ _ _ _ _ _ Hm1 Hm') as (m0 & E & E').
        exists m0. rewrite <- U1 by lia. done.
    + intros k Hk. rewrite U3 by lia. rewrite retire_same by lia. apply U1. lia.
    + intros k y Hk Hy. apply V3; [lia|]. apply V1; [lia|done].
Qed.

(** ** Handing out *)

(** The endpoint of a message from [a]. *)
Definition endpoint_of (m : Message) (a : AddrPort) : StdNetEndpoint :=
  getSrcFromControl (take (Z.to_nat (m_NN m)) (mem (m_OOB m))) (mkEndpoint a nil_slice).

Lemma deliver_ok ms : forall i sizes eps,
  (forall j m, ms !! j = Some m -> m_N m = 0 \/ exists a, m_Addr m = Some a) ->
  (i + length ms <= length sizes)%nat -> (i + length ms <= length eps)%nat ->
  exists sizes' eps', deliver_msgs ms i sizes eps = Some (sizes', eps') /\ length sizes' = length sizes /\ length eps' = length eps /\
    (forall k, (k < i)%nat -> sizes' !! k = sizes !! k /\ eps' !! k = eps !! k) /\
    (forall j m, ms !! j = Some m -> sizes' !! (i + j)%nat = Some (m_N m) /\
      (m_N m <> 0 -> exists a, m_Addr m = Some a /\ eps' !! (i + j)%nat = Some (Some (endpoint_of m a)))).
Proof.
  induction ms as [|m ms IH]; intros i sizes eps Hms Hs He; [by exists sizes, eps|]. cbn [length deliver_msgs] in *.
  rewrite decide_True by lia. set (sizes1 := <[i := m_N m]> sizes).
  assert (length sizes1 = length sizes) as Hl1 by apply length_insert.
  assert (forall eps1, length eps1 = length eps -> (forall k, (k < i)%nat -> eps1 !! k = eps !! k) ->
    (m_N m <> 0 -> exists a, m_Addr m = Some a /\ eps1 !! i = Some (Some (endpoint_of m a))) ->
    exists sizes' eps', deliver_msgs ms (S i) sizes1 eps1 = Some (sizes', eps') /\ length sizes' = length sizes /\ length eps' = length eps /\
    (forall k, (k < i)%nat -> sizes' !! k = sizes !! k /\ eps' !! k = eps !! k) /\
    (forall j m', (m :: ms) !! j = Some m' -> sizes' !! (i + j)%nat = Some (m_N m') /\
      (m_N m' <> 0 -> exists a, m_Addr m' = Some a /\ eps' !! (i + j)%nat = Some (Some (endpoint_of m' a))))) as Hnext.
  { intros eps1 He1 Hk Hm. destruct (IH (S i) sizes1 eps1) as (s' & e' & E & E1 & E2 & E3 & E4); [|lia..|].
    { intros j m' Hj. by apply (Hms (S j)). }
    exists s', e'. split_and!; [done|congruence|congruence| |].
    - intros k Hlt. destruct (E3 k ltac:(lia)) as [-> ->]. split; [apply list_lookup_insert_ne; lia|by apply Hk].
    - intros [|j] m' Hj; cbn in Hj.
      + injection Hj as <-. rewrite Nat.add_0_r. destruct (E3 i ltac:(lia)) as [-> ->]. split; [|done].
        apply list_lookup_insert_eq. lia.
      + rewrite Nat.add_succ_r. by apply E4. }
  destruct (m_N m =? 0) eqn:E; zbool; [by apply Hnext|].
  destruct (Hms 0%nat m eq_refl) as [?|[a Ha]]; [done|]. rewrite Ha. cbn [mbind option_bind]. rewrite decide_True by lia.
  apply Hnext; [apply length_insert|intros k Hk; apply list_lookup_insert_ne; lia|].
  intros _. exists a. split; [done|]. apply list_lookup_insert_eq. lia.
Qed.

(** ** [ReadBatch] *)

(** What [ReadBatch] does: the packets [l] are in the first messages, the other
    messages are as they were, and no array changes its size. *)
Record read_ok (h : heap) (msgs : list Message) (l : list Packet) (h' : heap) (msgs' : list Message) : Prop := {
  rd_len : length msgs' = length msgs;
  rd_count : (length l <= length msgs)%nat;
  rd_read : forall k p m, l !! k = Some p -> msgs !! k = Some m -> exists m' b a,
    msgs' !! k = Some m' /\ m_Buffer m = Some b /\ m_Buffer m' = Some b /\ m_N m' = zlen (p_data p) /\ m_Addr m' = Some (p_addr p) /\
    control_of (p_control p) (take (Z.to_nat (m_NN m')) (mem (m_OOB m'))) /\ h' !! s_arr b = Some a /\ p_data p `prefix_of` a;
  rd_rest : forall k, (length l <= k)%nat -> msgs' !! k = msgs !! k;
  rd_heap : forall x a, h !! x = Some a -> exists a', h' !! x = Some a' /\ zlen a' = zlen a
}.

(** A message of the pool that nothing was received into. *)
Definition idle (m : Message) : Prop := m_N m = 0 /\ m_NN m = 0.

(** The buffers of the caller hold a datagram of any size. *)
Definition buffers_ok (h : heap) : Prop :=
  forall b, b ∈ bufs -> exists a, h !! s_arr b = Some a /\ 65535 <= s_len b <= zlen a.

Lemma fill_ok h msgs :
  length msgs = length bufs -> buffers_ok h -> Forall idle msgs ->
  exists msgs0, fill_buffers msgs bufs = Some msgs0 /\ Rx h msgs0 /\ Forall idle msgs0.
Proof.
  intros Hl Hb Hi. unfold fill_buffers. rewrite decide_True by lia. eexists. split; [done|]. rewrite drop_ge, app_nil_r by lia. split.
  - split; [rewrite length_zip_with; lia| |done]. intros k m b Hk Hkb.
    apply lookup_zip_with_Some in Hk as (m' & b' & -> & _ & Hb'). cbn. congruence.
  - apply Forall_lookup. intros k m (m' & b' & -> & Hm & _)%lookup_zip_with_Some. apply (Forall_lookup_1 _ _ _ _ Hi Hm).
Qed.

(** Reading into the messages from [i] on. *)
Lemma read_rx h msgs i l h' read :
  Rx h msgs -> (i <= length msgs)%nat -> read_ok h (drop i msgs) l h' read -> Rx h' (take i msgs ++ read).
Proof.
  intros [R1 R2 R3] Hi [D1 D2 D3 D4 D5]. rewrite length_drop in D1. assert (length (take i msgs) = i) as Ht by (rewrite length_take; lia). split.
  - rewrite length_app. lia.
  - intros k m b Hk Hb. apply lookup_app_Some in Hk as [Hk|[Hle Hk]].
    + apply lookup_take_Some in Hk as [Hk _]. by eapply R2.
    + rewrite Ht in *. destruct (decide (k - i < length l)%nat) as [Hlt|Hge].
      * apply lookup_lt_is_Some_2 in Hlt as [p Hp]. destruct (lookup_lt_is_Some_2 (drop i msgs) (k - i)) as [m0 Hm0].
        { rewrite length_drop. apply lookup_lt_Some in Hk. lia. }
        destruct (D3 _ _ _ Hp Hm0) as (m' & b' & a & E1 & E2 & E3 & _). rewrite lookup_drop in Hm0.
        replace (i + (k - i))%nat with k in Hm0 by lia. pose proof (R2 _ _ _ Hm0 Hb). congruence.
      * rewrite D4, lookup_drop in Hk by lia. replace (i + (k - i))%nat with k in Hk by lia. by eapply R2.
  - intros b Hb. destruct (R3 b Hb) as (a & Ha & Hl). destruct (D5 _ _ Ha) as (a' & Ha' & Hz). exists a'. rewrite Hz. done.
Qed.

Lemma read_unread h msgs i l h' read :
  Rx h msgs -> (i <= length msgs)%nat -> Forall idle msgs -> read_ok h (drop i msgs) l h' read ->
  unread h' (take i msgs ++ read) i l.
Proof.
  intros [R1 R2 R3] Hi Hidle [D1 D2 D3 D4 D5] k Hk. rewrite length_app in Hk. rewrite length_drop in D1.
  assert (length (take i msgs) = i) as Ht by (rewrite length_take; lia). rewrite Ht in Hk.
  destruct (lookup_lt_is_Some_2 msgs k ltac:(lia)) as [m0 Hm0].
  assert (drop i msgs !! (k - i)%nat = Some m0) as Hd by (rewrite lookup_drop; by replace (i + (k - i))%nat with k by lia).
  destruct (l !! (k - i)%nat) as [p|] eqn:El.
  - destruct (D3 _ _ _ El Hd) as (m' & b & a & E1 & E2 & E3 & E4 & E5 & E6 & E7 & E8). exists m'.
    rewrite lookup_app_r, Ht by lia. split_and!; try done. exists b, a. split_and!; try done.
    destruct (lookup_lt_is_Some_2 bufs k ltac:(lia)) as [b' Hb']. pose proof (R2 _ _ _ Hm0 Hb'). congruence.
  - exists m0. rewrite lookup_app_r, Ht by lia. rewrite D4 by (by apply lookup_ge_None). split; [done|].
    by apply (Forall_lookup_1 _ _ _ _ Hidle Hm0).
Qed.

Lemma reset_idle msgs : Forall idle (reset_messages msgs).
Proof. unfold reset_messages. apply Forall_fmap. apply Forall_true. done. Qed.

(** ** [receiveIP] *)

Lemma fits_count l : forall i n, fits i n l -> (n <= i)%nat -> (n + length (datagrams_of l) <= i + length l)%nat.
Proof.
  induction l as [|p l IH]; intros i n Hf Hn; [cbn; lia|]. destruct Hf as [H1 H2]. unfold datagrams_of. cbn [map concat length].
  rewrite length_app, length_map. specialize (IH _ _ H2 H1). unfold datagrams_of in IH. lia.
Qed.

(** Two messages of at most 64 pieces fit. *)
Lemma two_fit l :
  (length l <= 2)%nat -> Forall (fun p => zlen (p_pieces p) <= udpSegmentMaxDatagrams) l -> fits 126 0 l.
Proof.
  unfold zlen, udpSegmentMaxDatagrams. intros Hl Hp. destruct l as [|p [|q [|r l]]]; [done| | |simpl in Hl; lia].
  - apply Forall_cons in Hp as [Hp _]. cbn [fits]. lia.
  - apply Forall_cons in Hp as [Hp Hq]. apply Forall_cons in Hq as [Hq _]. cbn [fits]. lia.
Qed.

Lemma no_source m a : m_NN m = 0 -> endpoint_of m a = mkEndpoint a nil_slice.
Proof. intros HN. unfold endpoint_of, getSrcFromControl. rewrite HN. cbn [Z.to_nat take length src_loop]. by rewrite no_message. Qed.

(** What the caller has: the datagram [d] from [a] in buffer [j]. *)
Definition delivered (h : heap) (sizes : list Z) (eps : list (option StdNetEndpoint)) (j : nat) (d : list Z) (a : AddrPort) (src : In) : Prop :=
  holds h j d /\ sizes !! j = Some (zlen d) /\ eps !! j = Some (Some (mkEndpoint a src)).

Lemma datagrams_nonempty l j d a : Forall packet_ok l -> datagrams_of l !! j = Some (d, a) -> zlen d <> 0.
Proof.
  intros Hok Hj. apply list_elem_of_lookup_2 in Hj. unfold datagrams_of in Hj. apply list_elem_of_In, in_concat in Hj as (x & Hx & Hd).
  apply in_map_iff in Hx as (p & <- & Hp). apply in_map_iff in Hd as (d' & [= -> _] & Hd). apply list_elem_of_In in Hp, Hd.
  pose proof (proj1 (Forall_forall _ _) Hok p Hp) as ((H1 & _) & Hs & _). unfold segmented in Hs. destruct (_ =? 0).
  - rewrite Hs in Hd. apply list_elem_of_singleton in Hd as ->. lia.
  - destruct Hs as [_ Hs]. pose proof (sized_all_pos _ _ Hs) as Hpos. rewrite Forall_forall in Hpos. specialize (Hpos _ Hd). lia.
Qed.

Section call.
Context (h : heap) (msgs : list Message) (sizes : list Z) (eps : list (option StdNetEndpoint)).
Context (Hbufs : length bufs = Z.to_nat IdealBatchSize) (Hok : buffers_ok h).
Context (Hmsgs : length msgs = length bufs) (Hidle : Forall idle msgs).
Context (Hsizes : length sizes = length bufs) (Heps : length eps = length bufs).

Lemma receive_split ReadBatch l h1 msgs0 read n :
  fill_buffers msgs bufs = Some msgs0 -> ReadBatch h (drop 126 msgs0) = Some (h1, read, n) -> read_ok h (drop 126 msgs0) l h1 read ->
  Forall packet_ok l -> Forall (fun p => zlen (p_pieces p) <= udpSegmentMaxDatagrams) l ->
  exists h' msgs' sizes' eps', receiveIP e ReadBatch true h msgs bufs sizes eps =
      Some (h', msgs', sizes', eps', (zlen (datagrams_of l), None)) /\ buffers_ok h' /\ length msgs' = length msgs /\ Forall idle msgs' /\
    forall j d a, datagrams_of l !! j = Some (d, a) ->
      exists src, delivered h' sizes' eps' j d a src /\ ((j < 126)%nat -> src = nil_slice).
Proof.
  intros Hf Hr Hrd Hpk Hsz. destruct (fill_ok h msgs Hmsgs Hok Hidle) as (msgs1 & E & R0 & I0). rewrite E in Hf. injection Hf as ->.
  change (Z.to_nat IdealBatchSize) with 128%nat in Hbufs. pose proof (rx_len _ _ R0) as Hl0. unfold receiveIP. rewrite E. cbn [mbind option_bind].
  replace (zlen msgs0 - _) with 126 by (unfold zlen; rewrite Hl0, Hbufs; done). change (Z.to_nat 126) with 126%nat. rewrite Hr.
  pose proof (read_rx _ _ 126 _ _ _ R0 ltac:(lia) Hrd) as R1. pose proof (read_unread _ _ 126 _ _ _ R0 ltac:(lia) I0 Hrd) as U1.
  assert (length l <= 2)%nat as Hl by (pose proof (rd_count _ _ _ _ _ Hrd) as Hc; rewrite length_drop in Hc; lia).
  pose proof (two_fit l Hl Hsz) as Hfit. set (ms := take 126 msgs0 ++ read) in *. pose proof (rx_len _ _ R1) as Hlm.
  destruct (split_loop_ok l h1 ms 126 0 R1 U1 Hpk Hfit ltac:(lia)) as (h2 & ms2 & E2 & R2 & G2 & _).
  change (Z.of_nat 126) with 126 in E2. change (Z.of_nat 0) with 0 in E2. unfold splitCoalescedMessages. rewrite E2. cbn [mbind option_bind].
  pose proof (fits_count l 126 0 Hfit ltac:(lia)) as Hcnt. pose proof (rx_len _ _ R2) as Hl2. rewrite Nat.add_0_l in *.
  rewrite decide_True by (unfold zlen; lia). rewrite Nat2Z.id. set (c := length (datagrams_of l)) in *.
  assert (forall j m, take c ms2 !! j = Some m -> exists d a m0, datagrams_of l !! j = Some (d, a) /\ ms !! j = Some m0 /\
    m_N m = zlen d /\ m_Addr m = Some a /\ m_NN m = m_NN m0) as Hms.
  { intros j m Hj. apply lookup_take_Some in Hj as [Hj Hlt]. destruct (lookup_lt_is_Some_2 _ _ Hlt) as [[d a] Hd].
    destruct (G2 j d a Hd) as (_ & m' & m0 & E3 & E4 & E5 & E6 & _ & E7). exists d, a, m0. cbn in E3. rewrite Hj in E3. by injection E3 as ->. }
  destruct (deliver_ok (take c ms2) 0 sizes eps) as (s' & e' & -> & _ & _ & _ & D).
  { intros j m Hj. destruct (Hms j m Hj) as (d & a & m0 & _ & _ & _ & Ha & _). right. by exists a. }
  { rewrite length_take. lia. }
  { rewrite length_take. lia. }
  cbn [mbind option_bind]. exists h2, (reset_messages ms2), s', e'. split_and!; [done|exact (rx_arr _ _ R2)| |apply reset_idle|].
  { unfold reset_messages. rewrite length_map. lia. }
  intros j d a Hj. destruct (G2 j d a Hj) as (Hh & m & m0 & E3 & E4 & E5 & E6 & _ & E7). apply lookup_lt_Some in Hj as Hlt.
  destruct (D j m) as [D1 D2]; [by rewrite lookup_take_lt|]. cbn [Nat.add] in *.
  destruct D2 as (a' & Ha' & D2); [rewrite E5; by eapply datagrams_nonempty|]. rewrite E6 in Ha'. injection Ha' as <-.
  exists (ep_src (endpoint_of m a)). split; [by rewrite E5 in D1|]. intros H126.
  unfold ms in E4. rewrite lookup_app_l, lookup_take_lt in E4 by (rewrite ?length_take; lia).
  rewrite no_source; [done|]. rewrite E7. apply (Forall_lookup_1 _ _ _ _ I0 E4).
Qed.

Lemma receive_whole ReadBatch l h1 msgs0 msgs1 :
  fill_buffers msgs bufs = Some msgs0 -> ReadBatch h msgs0 = Some (h1, msgs1, zlen l) -> read_ok h msgs0 l h1 msgs1 ->
  exists msgs' sizes' eps', receiveIP e ReadBatch false h msgs bufs sizes eps = Some (h1, msgs', sizes', eps', (zlen l, None)) /\
    buffers_ok h1 /\ length msgs' = length msgs /\ Forall idle msgs' /\
    forall j p, l !! j = Some p -> holds h1 j (p_data p) /\ sizes' !! j = Some (zlen (p_data p)) /\
      (p_data p <> [] -> exists control, control_of (p_control p) control /\
        eps' !! j = Some (Some (getSrcFromControl control (mkEndpoint (p_addr p) nil_slice)))).
Proof.
  intros Hf Hr Hrd. destruct (fill_ok h msgs Hmsgs Hok Hidle) as (msgs2 & E & R0 & I0). rewrite E in Hf. injection Hf as ->.
  pose proof (read_rx _ _ 0 _ _ _ R0 ltac:(lia) Hrd) as R1. pose proof (read_unread _ _ 0 _ _ _ R0 ltac:(lia) I0 Hrd) as U1.
  cbn [take app] in R1, U1. pose proof (rd_count _ _ _ _ _ Hrd) as Hc. pose proof (rd_len _ _ _ _ _ Hrd) as Hl1.
  pose proof (rx_len _ _ R0) as Hl0. pose proof (rx_len _ _ R1) as Hl.
  unfold receiveIP. rewrite E. cbn [mbind option_bind]. rewrite Hr. rewrite decide_True by (unfold zlen; lia).
  replace (Z.to_nat (zlen l)) with (length l) by (unfold zlen; lia).
  assert (forall j m, take (length l) msgs1 !! j = Some m -> exists p, l !! j = Some p /\ is_packet h1 msgs1 j p) as Hms.
  { intros j m Hj. apply lookup_take_Some in Hj as [Hj Hlt]. specialize (U1 j ltac:(lia)). rewrite Nat.sub_0_r in U1.
    destruct (lookup_lt_is_Some_2 _ _ Hlt) as [p Hp]. rewrite Hp in U1. by exists p. }
  destruct (deliver_ok (take (length l) msgs1) 0 sizes eps) as (s' & e' & -> & _ & _ & _ & D).
  { intros j m Hj. destruct (Hms j m Hj) as (p & _ & m' & Hm & _ & Ha & _). apply lookup_take_Some in Hj as [Hj _].
    rewrite Hj in Hm. injection Hm as <-. right. by eexists. }
  { rewrite length_take. lia. }
  { rewrite length_take. lia. }
  cbn [mbind option_bind]. exists (reset_messages msgs1), s', e'. split_and!; [done|exact (rx_arr _ _ R1)| |apply reset_idle|].
  { unfold reset_messages. rewrite length_map. lia. }
  intros j p Hp. apply lookup_lt_Some in Hp as Hlt. specialize (U1 j ltac:(lia)). rewrite Nat.sub_0_r, Hp in U1.
  destruct U1 as (m & Hm & HN & HA & Hctl & Hh). destruct (D j m) as [D1 D2]; [by rewrite lookup_take_lt|]. rewrite Nat.add_0_l in *.
  split; [done|]. rewrite <- HN. split; [done|]. intros Hne. destruct D2 as (a & Ha & D2).
  { rewrite HN. unfold zlen. destruct (p_data p); [done|]. cbn. lia. }
  rewrite HA in Ha. injection Ha as <-. by eexists.
Qed.

End call.

End receive.

(** C14: when the socket merges datagrams, a call of [receiveIP] hands out every
    datagram that [ReadBatch] delivered: it cuts the messages at the sizes the kernel
    reports and leaves the datagrams in the first buffers, in the order of arrival,
    with their sizes and the addresses they came from. It returns how many there are,
    and its messages go back to the pool unused. The endpoints have no local address,
    except in the two last buffers: the control messages are not copied. *)
Theorem receive_delivers `{UnixLaws} e ReadBatch h msgs bufs sizes eps l h1 msgs0 read n :
  NoDup (s_arr <$> bufs) -> length bufs = Z.to_nat IdealBatchSize -> buffers_ok bufs h ->
  length msgs = length bufs -> Forall idle msgs -> length sizes = length bufs -> length eps = length bufs ->
  fill_buffers msgs bufs = Some msgs0 -> ReadBatch h (drop 126 msgs0) = Some (h1, read, n) -> read_ok h (drop 126 msgs0) l h1 read ->
  Forall (packet_ok e) l -> Forall (fun p => zlen (p_pieces p) <= udpSegmentMaxDatagrams) l ->
  exists h' msgs' sizes' eps', receiveIP e ReadBatch true h msgs bufs sizes eps =
      Some (h', msgs', sizes', eps', (zlen (datagrams_of l), None)) /\
    buffers_ok bufs h' /\ length msgs' = length msgs /\ Forall idle msgs' /\
    forall j d a, datagrams_of l !! j = Some (d, a) ->
      exists src, delivered bufs h' sizes' eps' j d a src /\ ((j < 126)%nat -> src = nil_slice).
Proof. intros. by eapply receive_split. Qed.

(** C33: without merging, a call of [receiveIP] hands out the messages as they
    arrived. The endpoint of a message with a packet-information control message has
    the local address and interface of that message, and a datagram sent to the
    endpoint later carries the same control message: replies leave from the address
    the peer wrote to. *)
Theorem receive_sticky `{UnixLaws} e ReadBatch h msgs bufs sizes eps l h1 msgs0 msgs1 :
  length bufs = Z.to_nat IdealBatchSize -> buffers_ok bufs h ->
  length msgs = length bufs -> Forall idle msgs -> length sizes = length bufs -> length eps = length bufs ->
  fill_buffers msgs bufs = Some msgs0 -> ReadBatch h msgs0 = Some (h1, msgs1, zlen l) -> read_ok h msgs0 l h1 msgs1 ->
  exists msgs' sizes' eps', receiveIP e ReadBatch false h msgs bufs sizes eps = Some (h1, msgs', sizes', eps', (zlen l, None)) /\
    buffers_ok bufs h1 /\ length msgs' = length msgs /\ Forall idle msgs' /\
    forall j p, l !! j = Some p ->
      holds bufs h1 j (p_data p) /\ sizes' !! j = Some (zlen (p_data p)) /\
      (p_data p <> [] -> exists ep, eps' !! j = Some (Some ep) /\ ep_AddrPort ep = p_addr p /\
        forall level ty data, List.find is_pktinfo (p_control p) = Some (level, ty, data) -> zlen data = pktinfo_size level ->
          SrcIP ep = (if level =? IPPROTO_IP then sub data 4 8 else sub data 0 16) /\
          SrcIfidx e ep = i32 (ne_uint e (if level =? IPPROTO_IP then sub data 0 4 else sub data 16 20)) /\
          forall room, CmsgSpace (zlen data) <= cap_in room -> message level ty data (in_bytes (setSrcControl room ep))).
Proof.
  intros Hb Hok Hm Hi Hs He Hf Hr Hrd.
  destruct (receive_whole e bufs h msgs sizes eps Hb Hok Hm Hi Hs He ReadBatch l h1 msgs0 msgs1 Hf Hr Hrd)
    as (msgs' & s' & e' & E & H1 & H2 & H3 & D).
  exists msgs', s', e'. split_and!; try done. intros j p Hp. destruct (D j p Hp) as (D1 & D2 & D3). split; [done|]. split; [done|].
  intros Hne. destruct (D3 Hne) as (control & Hc & Hep). eexists. split; [exact Hep|]. split; [done|].
  intros level ty data Hfind Hz. by apply (sticky_src e (p_control p) control).
Qed.

(** ** Examples *)

Definition large_buffers : list Slice := (fun k => mkSlice k 65535) <$> seq 0 128.

Definition large_heap : list (list Z) := replicate 128 (zeros (Z.to_nat 65535)).

Lemma large_buffers_nodup : NoDup (s_arr <$> large_buffers).
Proof. unfold large_buffers. rewrite <- list_fmap_compose. apply NoDup_fmap_2; [by intros x y|apply NoDup_seq]. Qed.

Lemma large_buffers_ok : buffers_ok large_buffers large_heap.
Proof.
  intros b (k & -> & Hk)%list_elem_of_fmap. apply elem_of_seq in Hk. exists (zeros (Z.to_nat 65535)). unfold large_heap.
  rewrite lookup_replicate. split; [split; [done|cbn; lia]|]. unfold zlen. rewrite length_zeros. cbn [s_len]. lia.
Qed.

(** Three datagrams merged into a message that came to 192.0.2.7. *)
Definition sample_addr : AddrPort := mkAddrPort [192; 0; 2; 1] [] 51820.

Definition sample_packet : Packet :=
  mkPacket [1; 2; 3; 4; 5]
    [(IPPROTO_IP, IP_PKTINFO, [3; 0; 0; 0; 192; 0; 2; 7; 192; 0; 2; 7]); (SOL_UDP, UDP_GRO, [2; 0])] sample_addr
    [[1; 2]; [3; 4]; [5]].

Definition sample_control : list Z :=
  Eval vm_compute in
    @cmsghdr_bytes (linux64 Little) (mkCmsghdr 28 IPPROTO_IP IP_PKTINFO) ++ [3; 0; 0; 0; 192; 0; 2; 7; 192; 0; 2; 7] ++ zeros 4 ++
    @cmsghdr_bytes (linux64 Little) (mkCmsghdr 18 SOL_UDP UDP_GRO) ++ [2; 0] ++ zeros 6.

(** A [ReadBatch] that delivers the message. *)
Definition sample_read (h : list (list Z)) (msgs : list Message) : option (list (list Z) * list Message * Z) :=
  match msgs with
  | m :: msgs =>
      b ← m_Buffer m;
      a ← h !! s_arr b;
      Some (<[s_arr b := splice a 0 (p_data sample_packet)]> h,
            m <| m_N := 5 |> <| m_Addr := Some sample_addr |> <| m_OOB := mkIn sample_control (zlen sample_control) |>
              <| m_NN := zlen sample_control |> :: msgs, 1)
  | [] => None
  end.

Lemma sample_control_ok : @control_of (linux64 Little) (p_control sample_packet) sample_control.
Proof.
  assert (sample_control = take 32 sample_control ++ drop 32 sample_control ++ []) as -> by reflexivity.
  constructor; [done| |constructor; [done| |constructor]]; [exists [], (zeros 4)|exists [], (zeros 6)]; by vm_compute.
Qed.

Lemma sample_read_ok k msgs m :
  (k < 128)%nat -> msgs !! 0%nat = Some m -> m_Buffer m = Some (mkSlice k 65535) ->
  exists h' msgs', sample_read large_heap msgs = Some (h', msgs', 1) /\
    @read_ok (linux64 Little) large_heap msgs [sample_packet] h' msgs'.
Proof.
  intros Hk Hm Hb. destruct msgs as [|m' msgs]; [done|]. injection Hm as ->. cbn [sample_read]. rewrite Hb. cbn [mbind option_bind s_arr].
  assert (large_heap !! k = Some (zeros (Z.to_nat 65535))) as Ha by (unfold large_heap; by rewrite lookup_replicate).
  rewrite Ha. cbn [mbind option_bind]. eexists _, _. split; [done|]. apply lookup_lt_Some in Ha as Hlt. set (z := zeros _) in *.
  split; [done|cbn; lia| | |].
  - intros [|j] p m0 Hp Hm0; [|done]. injection Hp as <-. injection Hm0 as <-. eexists _, (mkSlice k 65535), (splice z 0 _).
    split_and!; try done.
    + apply sample_control_ok.
    + cbn [s_arr]. by rewrite list_lookup_insert_eq.
    + unfold splice. rewrite take_0. by eexists.
  - intros [|j] Hj; [cbn in Hj; lia|done].
  - intros x a Hx. destruct (decide (x = k)) as [->|Hne].
    + rewrite list_lookup_insert_eq by done. eexists. split; [done|]. rewrite Ha in Hx. injection Hx as <-.
      apply zlen_splice; unfold z, zlen; rewrite ?length_zeros; cbn; lia.
    + rewrite list_lookup_insert_ne by done. by exists a.
Qed.

Lemma sample_filled :
  exists msgs0, fill_buffers (@new_messages (linux64 Little)) large_buffers = Some msgs0 /\
    (m_Buffer <$> msgs0 !! 0%nat = Some (Some (mkSlice 0 65535))) /\ (m_Buffer <$> drop 126 msgs0 !! 0%nat = Some (Some (mkSlice 126 65535))).
Proof. eexists. split; [vm_compute; reflexivity|]. by vm_compute. Qed.

Lemma receive_delivers_witness :
  exists h' msgs' sizes' eps',
    @receiveIP (linux64 Little) Little sample_read true large_heap (@new_messages (linux64 Little)) large_buffers (replicate 128 0)
      (replicate 128 None) = Some (h', msgs', sizes', eps', (3, None)) /\
    delivered large_buffers h' sizes' eps' 2 [5] sample_addr nil_slice.
Proof.
  destruct sample_filled as (msgs0 & Hf & _ & Hd). destruct (drop 126 msgs0 !! 0%nat) as [m|] eqn:Em; [|done]. injection Hd as Hd.
  destruct (sample_read_ok 126 (drop 126 msgs0) m ltac:(lia) Em Hd) as (h1 & read & Hr & Hok).
  destruct (@receive_delivers (linux64 Little) (linux64_laws Little) Little sample_read large_heap (@new_messages (linux64 Little))
    large_buffers (replicate 128 0) (replicate 128 None) [sample_packet] h1 msgs0 read 1 large_buffers_nodup eq_refl large_buffers_ok
    eq_refl ltac:(by apply Forall_replicate) eq_refl eq_refl Hf Hr Hok) as (h' & ms & s' & e' & E & _ & _ & _ & D).
  - constructor; [|done]. by vm_compute.
  - by constructor.
  - exists h', ms, s', e'. split; [done|]. destruct (D 2%nat [5] sample_addr eq_refl) as (src & Hdl & Hsrc).
    by rewrite <- (Hsrc ltac:(lia)).
Defined.

Lemma receive_sticky_witness :
  exists h' msgs' sizes' eps' ep,
    @receiveIP (linux64 Little) Little sample_read false large_heap (@new_messages (linux64 Little)) large_buffers (replicate 128 0)
      (replicate 128 None) = Some (h', msgs', sizes', eps', (1, None)) /\
    eps' !! 0%nat = Some (Some ep) /\ @SrcIP (linux64 Little) ep = [192; 0; 2; 7] /\ @SrcIfidx (linux64 Little) Little ep = 3.
Proof.
  destruct sample_filled as (msgs0 & Hf & Hd & _). destruct (msgs0 !! 0%nat) as [m|] eqn:Em; [|done]. injection Hd as Hd.
  destruct (sample_read_ok 0 msgs0 m ltac:(lia) Em Hd) as (h1 & read & Hr & Hok).
  destruct (@receive_sticky (linux64 Little) (linux64_laws Little) Little sample_read large_heap (@new_messages (linux64 Little))
    large_buffers (replicate 128 0) (replicate 128 None) [sample_packet] h1 msgs0 read eq_refl large_buffers_ok
    eq_refl ltac:(by apply Forall_replicate) eq_refl eq_refl Hf Hr Hok) as (ms & s' & e' & E & _ & _ & _ & D).
  destruct (D 0%nat sample_packet eq_refl) as (_ & _ & Hep). destruct Hep as (ep & Hep & _ & Hsrc); [done|].
  destruct (Hsrc _ _ _ eq_refl eq_refl) as (H1 & H2 & _). exists h1, ms, s', e', ep. by rewrite H1, H2.
Defined.

(** C35: a message without data ends the splitting. When the first message that
    [ReadBatch] delivers is an empty datagram, which anybody can send, [receiveIP]
    reports no datagrams at all: the message delivered after it, whatever it is, is
    lost. *)
Theorem empty_datagram_hides `{Unix} e ReadBatch h msgs bufs sizes eps msgs0 h1 m rest n :
  fill_buffers msgs bufs = Some msgs0 -> length msgs0 = Z.to_nat IdealBatchSize ->
  ReadBatch h (drop 126 msgs0) = Some (h1, m :: rest, n) -> m_N m = 0 ->
  exists msgs', receiveIP e ReadBatch true h msgs bufs sizes eps = Some (h1, msgs', sizes, eps, (0, None)).
Proof.
  intros Hf Hl Hr Hm. change (Z.to_nat IdealBatchSize) with 128%nat in Hl. unfold receiveIP. rewrite Hf. cbn [mbind option_bind].
  replace (zlen msgs0 - _) with 126 by (unfold zlen; rewrite Hl; done). change (Z.to_nat 126) with 126%nat. rewrite Hr.
  unfold splitCoalescedMessages. rewrite seqZ_cons by (unfold zlen; rewrite length_app, length_take, Hl; cbn [length]; lia).
  cbn [split_loop]. change (get_msg ?l 126) with (get_msg l (Z.of_nat 126)). rewrite get_msg_nat, lookup_app_r by (rewrite length_take; lia).
  rewrite length_take, Hl. cbn [Nat.min Nat.sub lookup list_lookup mbind option_bind]. rewrite Hm. cbn [Z.eqb mbind option_bind].
  rewrite decide_True by (unfold zlen; lia). cbn [Z.to_nat take deliver_msgs mbind option_bind]. by eexists.
Qed.

(** A [ReadBatch] that delivers an empty datagram, and then the message. *)
Definition empty_first (h : list (list Z)) (msgs : list Message) : option (list (list Z) * list Message * Z) :=
  match msgs with
  | m :: msgs => '(h, msgs, n) ← sample_read h msgs; Some (h, m <| m_Addr := Some sample_addr |> :: msgs, n + 1)
  | [] => None
  end.

Lemma empty_datagram_hides_witness :
  exists h' msgs', @receiveIP (linux64 Little) Little empty_first true large_heap (@new_messages (linux64 Little)) large_buffers
    (replicate 128 0) (replicate 128 None) = Some (h', msgs', replicate 128 0, replicate 128 None, (0, None)).
Proof.
  assert (exists msgs0 a1 a2 b1, fill_buffers (@new_messages (linux64 Little)) large_buffers = Some msgs0 /\ length msgs0 = 128%nat /\
    drop 126 msgs0 = [mkMessage a1 b1 None 0 0; mkMessage (Some (mkSlice 127 65535)) a2 None 0 0]) as (msgs0 & a1 & a2 & b1 & Hf & Hl & Hd).
  { eexists _, _, _, _. split; [vm_compute; reflexivity|]. split; vm_compute; reflexivity. }
  assert (exists h1 rest n m, empty_first large_heap (drop 126 msgs0) = Some (h1, m :: rest, n) /\ m_N m = 0) as (h1 & rest & n & m & Hr & Hm).
  { rewrite Hd. cbn [empty_first sample_read m_Buffer mbind option_bind s_arr]. unfold large_heap. rewrite (proj2 (lookup_replicate _ _ _ _)) by (split; [done|lia]).
    cbn [mbind option_bind]. by eexists _, _, _, _. }
  destruct (@empty_datagram_hides (linux64 Little) Little empty_first large_heap (@new_messages (linux64 Little)) large_buffers
    (replicate 128 0) (replicate 128 None) msgs0 h1 m rest n Hf Hl Hr Hm) as [msgs' E].
  by exists h1, msgs'.
Defined.
