(* ===== verification/BindOpen.v ===== *)
(** * Opening and closing the sockets

    [Open] of [Bind] either leaves a bind whose sockets are open and listen on one
    port, or leaves nothing open; [Close] closes them. Without IPv6 the port it
    reports is wrong; without IPv4 an error of IPv6 makes it panic; and a socket
    whose address does not resolve stays open. *)

From stdpp Require Import base numbers list.
From S2P Require Import Prelude Setters Control Bind.

Open Scope Z_scope.

(** ** Open sockets *)

(** The sockets open after the events, [l] being open before. *)
Fixpoint open_from (l : list Z) (evs : list socket_event) : list Z :=
  match evs with
  | [] => l
  | sock_open c :: evs => open_from (l ++ [c]) evs
  | sock_close c :: evs => open_from (filter (fun d => d <> c) l) evs
  end.

Notation left_open := (open_from []).

Definition sockets (s : StdNetBind) : list Z := option_list (ipv4 s) ++ option_list (ipv6 s).

Lemma open_from_app l evs evs' : open_from l (evs ++ evs') = open_from (open_from l evs) evs'.
Proof. revert l. by induction evs as [|[c|c] evs IH]; intros l; cbn [app open_from]; [|rewrite IH..]. Qed.

Lemma left_open_app evs evs' : left_open evs = [] -> left_open (evs ++ evs') = left_open evs'.
Proof. intros E. by rewrite open_from_app, E. Qed.

Lemma opened_closed c : left_open [sock_open c; sock_close c] = [].
Proof. cbn [open_from app]. rewrite filter_cons_False; [done|]. by intros []. Qed.

Section open.
Context (listen : nat -> bool -> Z -> listen_error + (Z * (listen_error + Z))).

(** The address of a socket resolves. *)
Hypothesis resolves : forall k v6 p c err, listen k v6 p <> inr (c, inl err).

(** The two calls of an attempt that succeeded: the sockets and the port that
    [Open] returns. *)
Definition attempt (uport : Z) (k : nat) (c4 c6 : option Z) (port : Z) : Prop :=
  exists q, match c4 with
            | Some c => listen k false uport = inr (c, inr q)
            | None => listen k false uport = inl listen_EAFNOSUPPORT /\ q = 0
            end /\
            match c6 with
            | Some c => listen (S k) true q = inr (c, inr port)
            | None => listen (S k) true q = inl listen_EAFNOSUPPORT /\ port = 0
            end.

(** An attempt without IPv4 in which IPv6 fails. *)
Definition unsupported (uport : Z) (k : nat) : Prop :=
  listen k false uport = inl listen_EAFNOSUPPORT /\
  exists err, listen (S k) true 0 = inl err /\ err <> listen_EAFNOSUPPORT.

(** What the attempts leave open, or the attempt that panics. *)
Definition opens (uport : Z) (res : option ((listen_error + (option Z * option Z * Z)) * list socket_event)) : Prop :=
  match res with
  | None => exists j, unsupported uport j
  | Some (inl _, evs) => left_open evs = []
  | Some (inr (c4, c6, port), evs) =>
      left_open evs = option_list c4 ++ option_list c6 /\ exists j, attempt uport j c4 c6 port
  end.

Lemma close_left evs c4 closed : left_open evs = option_list c4 -> close_conn c4 = Some closed -> left_open (evs ++ closed) = [].
Proof.
  intros E Hc. rewrite open_from_app, E. destruct c4 as [c|]; [|done]. injection Hc as <-. apply (opened_closed c).
Qed.

(** The sockets of the two calls of an attempt. *)
Lemma attempt_calls uport k c4 q err4 ev4 c6 p err6 ev6 :
  listenNet listen k false uport = (c4, q, err4, ev4) -> fatal err4 = None -> listenNet listen (S k) true q = (c6, p, err6, ev6) ->
  left_open (ev4 ++ ev6) = option_list c4 ++ option_list c6 /\
  match fatal err6 with
  | Some _ => c6 = None /\ (c4 = None -> unsupported uport k)
  | None => attempt uport k c4 c6 p
  end.
Proof.
  unfold listenNet, attempt, unsupported.
  destruct (listen k false uport) as [e4|[d4 [e4|q4]]] eqn:E4; [|by apply resolves in E4|]; intros [= <- <- <- <-] H4;
    (destruct (listen (S k) true _) as [e6|[d6 [e6|q6]]] eqn:E6; [|by apply resolves in E6|]); intros [= <- <- <- <-]; (split; [done|]).
  - destruct e4; try done. destruct e6; cbn [fatal]; [by exists 0|..]; eauto.
  - destruct e4; try done. by exists 0.
  - destruct e6; cbn [fatal]; [by exists q4|done..].
  - by exists q4.
Qed.

(** The end of an attempt. *)
Lemma open_end_ok uport k c4 c6 p err6 evs :
  left_open evs = option_list c4 ++ option_list c6 ->
  match fatal err6 with
  | Some _ => c6 = None /\ (c4 = None -> unsupported uport k)
  | None => attempt uport k c4 c6 p
  end -> opens uport (open_end c4 c6 p err6 evs).
Proof.
  intros Hl. unfold open_end. destruct (fatal err6) as [err|]; [|by intros; split; [|exists k]]. intros [-> Hn].
  destruct c4 as [c|]; [|by exists k; apply Hn]. cbn [close_conn mbind option_bind opens].
  by eapply (close_left _ (Some c)).
Qed.

Lemma open_loop_ok uport tries : forall k, opens uport (open_loop listen uport tries k).
Proof.
  induction tries as [|tries IH]; intros k; cbn [open_loop];
    destruct (listenNet listen k false uport) as [[[c4 q] err4] ev4] eqn:E4; destruct (fatal err4) as [err|] eqn:Ef4.
  1, 3: unfold listenNet in E4; destruct (listen _ _ _) as [?|[? [?|?]]] eqn:El; [|by apply resolves in El|];
    by injection E4 as <- <- <- <-.
  all: destruct (listenNet listen (S k) true q) as [[[c6 p] err6] ev6] eqn:E6;
    destruct (attempt_calls uport k c4 q err4 ev4 c6 p err6 ev6 E4 Ef4 E6) as [Hleft Ha].
  - by apply (open_end_ok _ k).
  - destruct (_ && _) eqn:Eg; [|by apply (open_end_ok _ k)].
    apply andb_prop in Eg as [_ Eg%bool_decide_eq_true]. subst err6. destruct Ha as [-> Hn].
    destruct c4 as [c|]; [|by exists k; apply Hn]. cbn [close_conn mbind option_bind].
    specialize (IH (S (S k))). destruct (open_loop listen uport tries (S (S k))) as [[r evs]|]; [|done].
    cbn [mbind option_bind]. assert (left_open ((ev4 ++ ev6) ++ [sock_close c]) = []) as Hnone.
    { apply (close_left _ (Some c)); [by rewrite Hleft|done]. }
    rewrite (app_assoc (ev4 ++ ev6)). destruct r as [err|[[d4 d6] port]]; cbn [opens] in *; by rewrite (left_open_app _ evs Hnone).
Qed.

End open.

(** ** [Open] and [Close] *)

(** A socket has the port that was asked for, and some port when it was 0; its
    address resolves to that port. *)
Definition gives_ports (listen : nat -> bool -> Z -> listen_error + (Z * (listen_error + Z))) : Prop :=
  forall k v6 p c r, listen k v6 p = inr (c, r) -> exists q, r = inr q /\ 1 <= q < 2 ^ 16 /\ (p <> 0 -> q = p).

Lemma close_all s evs err4 err6 :
  left_open evs = sockets s -> let '(s', evs', _) := BindClose err4 err6 s in left_open (evs ++ evs') = [] /\ sockets s' = [].
Proof.
  intros E. unfold BindClose. split; [|done]. rewrite open_from_app, E. unfold sockets.
  destruct (ipv4 s) as [c|], (ipv6 s) as [d|]; try done; cbn [option_list app open_from]; [|apply (opened_closed c)|apply (opened_closed d)].
  change (option_list (Some c) ++ option_list (Some d)) with [c; d].
  rewrite filter_cons_False by (by intros []). destruct (decide (d = c)) as [->|Hne].
  - rewrite filter_cons_False by (by intros []). done.
  - rewrite filter_cons_True by done. apply (opened_closed d).
Qed.

(** The bind with the sockets of [Open]. *)
Lemma open_sets listen supports uport s :
  (forall k v6 p c err, listen k v6 p <> inr (c, inl err)) -> ipv4 s = None -> ipv6 s = None ->
  match Open listen supports uport s with
  | None => exists k, unsupported listen uport k
  | Some (s', evs, inl _) => s' = s /\ left_open evs = []
  | Some (s', evs, inr (fns, port)) =>
      left_open evs = sockets s' /\ sockets s' <> [] /\ length fns = length (sockets s') /\
      exists k p, attempt listen uport k (ipv4 s') (ipv6 s') p /\ port = u16 p
  end.
Proof.
  intros Hres H4 H6. unfold Open. rewrite H4, H6. pose proof (open_loop_ok listen Hres uport 100 0) as Hr.
  destruct (open_loop listen uport 100 0) as [[[err|[[c4 c6] p]] evs]|]; cbn [mbind option_bind opens] in *; [done| |done].
  destruct Hr as [Hl [k Hk]]. destruct c4 as [c4|], c6 as [c6|]; cbn [app].
  - destruct (supports c4), (supports c6). split_and!; try done. by exists k, p.
  - destruct (supports c4). unfold sockets. cbn. rewrite H6. split_and!; try done. by exists k, p.
  - destruct (supports c6). unfold sockets. cbn. rewrite H4. split_and!; try done. by exists k, p.
  - done.
Qed.

(** C15: [Open] on a closed bind, where sockets get the ports asked for, ends after
    at most 101 attempts, in one of three ways. It panics only in an attempt in
    which IPv4 is not supported and IPv6 fails with another error. When it fails,
    every socket it opened is closed again and the bind is as before. When it
    succeeds, the open sockets are those of the bind, with one receive function
    each; if there are two, both listen on the port it returns. [Close] then closes
    all of them, and the bind can be opened again. *)
Theorem open_close listen supports uport s :
  ipv4 s = None -> ipv6 s = None -> gives_ports listen ->
  match Open listen supports uport s with
  | None => exists k, unsupported listen uport k
  | Some (s', evs, inl _) => s' = s /\ left_open evs = []
  | Some (s', evs, inr (fns, port)) =>
      left_open evs = sockets s' /\ sockets s' <> [] /\ length fns = length (sockets s') /\
      (forall c4 c6, ipv4 s' = Some c4 -> ipv6 s' = Some c6 ->
         exists k, listen k false uport = inr (c4, inr port) /\ listen (S k) true port = inr (c6, inr port)) /\
      forall err4 err6, let '(s2, evs2, _) := BindClose err4 err6 s' in left_open (evs ++ evs2) = [] /\ sockets s2 = []
  end.
Proof.
  intros H4 H6 Hp. assert (Hres : forall k v6 p c err, listen k v6 p <> inr (c, inl err)).
  { intros k v6 p c err E. by destruct (Hp _ _ _ _ _ E) as (q & [=] & _). }
  pose proof (open_sets listen supports uport s Hres H4 H6) as Hr.
  destruct (Open listen supports uport s) as [[[s' evs] [err|[fns port]]]|]; [done| |done].
  destruct Hr as (H1 & H2 & H3 & k & p & (q & A1 & A2) & ->). split_and!; try done.
  - intros c4 c6 E4 E6. rewrite E4 in A1. rewrite E6 in A2. destruct (Hp _ _ _ _ _ A1) as (q1 & [= <-] & Hq & _).
    destruct (Hp _ _ _ _ _ A2) as (q2 & [= <-] & Hq' & Hpq).
    rewrite (Hpq ltac:(lia)) in *. exists k. assert (u16 q = q) as -> by (apply Z.mod_small; lia). done.
  - intros err4 err6. by apply close_all.
Qed.

(** The first two sockets. *)
Definition sample_listen (k : nat) (v6 : bool) (p : Z) : listen_error + (Z * (listen_error + Z)) :=
  if p =? 0 then inr (Z.of_nat k + 3, inr 40000)
  else if (1 <=? p) && (p <? 2 ^ 16) then inr (Z.of_nat k + 3, inr p)
  else inl listen_other.

Lemma open_close_witness :
  exists s' evs, Open sample_listen (fun _ => (true, true)) 0 NewStdNetBind = Some (s', evs, inr ([false; true], 40000)) /\
    left_open evs = [3; 4] /\ let '(_, evs2, _) := BindClose false false s' in left_open (evs ++ evs2) = [].
Proof.
  pose proof (open_close sample_listen (fun _ => (true, true)) 0 NewStdNetBind eq_refl eq_refl) as Hr.
  destruct (Open sample_listen (fun _ => (true, true)) 0 NewStdNetBind) as [[[s' evs] r]|] eqn:E; [|done].
  injection E as <- <- <-. eexists _, _. split; [reflexivity|]. split; [reflexivity|].
  destruct Hr as (_ & _ & _ & _ & Hc); [|apply (Hc false false)].
  intros k v6 p c q. unfold sample_listen. destruct (p =? 0) eqn:E0; [|destruct (_ && _) eqn:E1]; zbool; intros [=]; subst;
    eexists; split; try reflexivity; lia.
Defined.

(** C36: the port is lost when one family is not supported. Without IPv6, [Open]
    succeeds but returns port 0 instead of the port its socket has; without IPv4,
    the IPv6 socket is asked for any port instead of the one wanted. *)
Theorem open_port_lost listen supports uport s c q :
  ipv4 s = None -> ipv6 s = None ->
  (listen 0%nat false uport = inr (c, inr q) -> listen 1%nat true q = inl listen_EAFNOSUPPORT ->
    exists s', Open listen supports uport s = Some (s', [sock_open c], inr ([false], 0)) /\ ipv4 s' = Some c) /\
  (listen 0%nat false uport = inl listen_EAFNOSUPPORT -> listen 1%nat true 0 = inr (c, inr q) ->
    exists s', Open listen supports uport s = Some (s', [sock_open c], inr ([true], u16 q)) /\ ipv6 s' = Some c).
Proof.
  intros H4 H6. unfold Open. rewrite H4, H6. split; intros L4 L6.
  - cbn [open_loop]. unfold listenNet. rewrite L4. cbn [fatal]. rewrite L6. cbn [fatal]. rewrite bool_decide_eq_false_2, andb_false_r by done.
    cbn [open_end fatal mbind option_bind]. destruct (supports c). by eexists.
  - cbn [open_loop]. unfold listenNet. rewrite L4. cbn [fatal]. rewrite L6. cbn [fatal]. rewrite bool_decide_eq_false_2, andb_false_r by done.
    cbn [open_end fatal mbind option_bind]. destruct (supports c). by eexists.
Qed.

(** No IPv6: the socket has port 51820. *)
Lemma open_port_lost_witness :
  exists s', Open (fun _ v6 p => if v6 : bool then inl listen_EAFNOSUPPORT else inr (3, inr p)) (fun _ => (false, false)) 51820 NewStdNetBind =
    Some (s', [sock_open 3], inr ([false], 0)).
Proof.
  destruct (proj1 (open_port_lost (fun _ v6 p => if v6 : bool then inl listen_EAFNOSUPPORT else inr (3, inr p)) (fun _ => (false, false))
    51820 NewStdNetBind 3 51820 eq_refl eq_refl) eq_refl eq_refl) as (s' & E & _). by exists s'.
Defined.

(** Two faults of [Open]. When the address of a socket that was just opened does
    not resolve, [Open] returns the error and the socket stays open, although the
    bind does not know it: the IPv4 socket of a first attempt, and the IPv6 socket
    as well, while the IPv4 socket is closed. When IPv4 is not supported and IPv6
    fails with another error, [Open] closes the socket it does not have and
    panics. *)
Theorem open_faults listen supports uport s err :
  ipv4 s = None -> ipv6 s = None -> err <> listen_EAFNOSUPPORT ->
  (forall c, listen 0%nat false uport = inr (c, inl err) ->
    Open listen supports uport s = Some (s, [sock_open c], inl (open_listen err))) /\
  (forall c q d, listen 0%nat false uport = inr (c, inr q) -> listen 1%nat true q = inr (d, inl err) ->
    err <> listen_EADDRINUSE ->
    Open listen supports uport s = Some (s, [sock_open c; sock_open d; sock_close c], inl (open_listen err))) /\
  (listen 0%nat false uport = inl listen_EAFNOSUPPORT -> listen 1%nat true 0 = inl err ->
    Open listen supports uport s = None).
Proof.
  intros H4 H6 He. assert (Hf : fatal (Some err) = Some err) by (by destruct err).
  unfold Open. rewrite H4, H6. cbn [open_loop]. unfold listenNet, open_end. split_and!.
  - intros c L4. by rewrite L4, Hf.
  - intros c q d L4 L6 Hu. rewrite L4. cbn [fatal]. rewrite L6, bool_decide_eq_false_2, andb_false_r by congruence. by rewrite Hf.
  - intros L4 L6. rewrite L4. cbn [fatal]. rewrite L6, Hf. by destruct (_ && _).
Qed.

