(* ===== verification/GoText.v ===== *)
(** * Text and paths: the parts of [strings], [html], [strconv] and
    [path/filepath] the upload server uses, on byte strings. *)

From Stdlib Require Import Ascii String.
From stdpp Require Import base numbers list sets.
From S2P Require Import Prelude GoStrings.

Open Scope Z_scope.

(** ** Prefixes and white space *)

(** [strings.CutPrefix] *)
Fixpoint strip_prefix (p s : list Z) : option (list Z) :=
  match p, s with
  | [], _ => Some s
  | x :: p, y :: s => if x =? y then strip_prefix p s else None
  | _ :: _, [] => None
  end.

(** [strings.HasPrefix], [strings.HasSuffix] *)
Definition HasPrefix (s p : list Z) : bool := bool_decide (is_Some (strip_prefix p s)).

Definition HasSuffix (s p : list Z) : bool := HasPrefix (rev s) (rev p).

(** The UTF-8 encodings of the runes of [unicode.IsSpace]. *)
Definition spaces : list (list Z) :=
  [[9]; [10]; [11]; [12]; [13]; [32]; [0xc2; 0x85]; [0xc2; 0xa0]; [0xe1; 0x9a; 0x80]] ++
  map (fun k => [0xe2; 0x80; k])
    [0x80; 0x81; 0x82; 0x83; 0x84; 0x85; 0x86; 0x87; 0x88; 0x89; 0x8a; 0xa8; 0xa9; 0xaf] ++
  [[0xe2; 0x81; 0x9f]; [0xe3; 0x80; 0x80]].

(** One rune of [runes] off the front. *)
Fixpoint strip_any (runes : list (list Z)) (s : list Z) : option (list Z) :=
  match runes with
  | [] => None
  | r :: runes =>
      match strip_prefix r s with
      | Some s' => Some s'
      | None => strip_any runes s
      end
  end.

(** [strings.TrimLeftFunc(s, unicode.IsSpace)], with the runes to strip as an
    argument; every round strips a byte, so the length of [s] is fuel enough. *)
Fixpoint trim_front (fuel : nat) (runes : list (list Z)) (s : list Z) : list Z :=
  match fuel with
  | O => s
  | S fuel =>
      match strip_any runes s with
      | Some s' => trim_front fuel runes s'
      | None => s
      end
  end.

Definition TrimLeft (s : list Z) : list Z := trim_front (length s) spaces s.

Definition TrimRight (s : list Z) : list Z :=
  rev (trim_front (length s) (map (@rev Z) spaces) (rev s)).

(** [strings.TrimSpace] *)
Definition TrimSpace (s : list Z) : list Z := TrimRight (TrimLeft s).

(** [strings.ToLower] on ASCII; no other rune lowers to an ASCII letter but
    the Kelvin sign, to [k]. *)
Definition ToLower (s : list Z) : list Z :=
  map (fun c => if (65 <=? c) && (c <=? 90) then c + 32 else c) s.

(** [strings.Contains(s, c)] for one byte *)
Definition Contains (s : list Z) (c : Z) : bool := existsb (Z.eqb c) s.

(** [strings.Split(s, sep)] for a separator of one byte. *)
Fixpoint Split (sep : Z) (s : list Z) : list (list Z) :=
  match s with
  | [] => [[]]
  | c :: s =>
      if c =? sep then [] :: Split sep s
      else
        match Split sep s with
        | w :: ws => (c :: w) :: ws
        | [] => [[c]]
        end
  end.

(** [strings.Join(l, sep)] for a separator of one byte. *)
Fixpoint Join (sep : Z) (l : list (list Z)) : list Z :=
  match l with
  | [] => []
  | [w] => w
  | w :: l => w ++ sep :: Join sep l
  end.

(** ** [html.EscapeString] *)

Definition escape_byte (c : Z) : list Z :=
  if c =? 38 then lit "&amp;"
  else if c =? 39 then lit "&#39;"
  else if c =? 60 then lit "&lt;"
  else if c =? 62 then lit "&gt;"
  else if c =? 34 then lit "&#34;"
  else [c].

Definition EscapeString (s : list Z) : list Z := concat (map escape_byte s).

(** ** [strconv.Atoi] for an [int] of [bits] bits *)

Definition Atoi (bits : Z) (s : list Z) : option Z :=
  match s with
  | c :: t =>
      let neg := c =? 45 in
      let digits := if neg || (c =? 43) then t else s in
      n ← ParseUint digits bits;
      let cutoff := 2 ^ (bits - 1) in
      if negb neg then (if n >=? cutoff then None else Some n)
      else (if n >? cutoff then None else Some (- n))
  | [] => None
  end.

(** ** [path/filepath] on Unix *)

Definition slash : Z := 47.

Fixpoint drop_slashes (s : list Z) : list Z :=
  match s with
  | c :: t => if c =? slash then drop_slashes t else s
  | [] => []
  end.

(** The bytes before the first slash. *)
Fixpoint until_slash (s : list Z) : list Z :=
  match s with
  | c :: t => if c =? slash then [] else c :: until_slash t
  | [] => []
  end.

(** [filepath.Base] *)
Definition Base (path : list Z) : list Z :=
  match path with
  | [] => lit "."
  | _ =>
      match rev (until_slash (drop_slashes (rev path))) with
      | [] => lit "/"
      | s => s
      end
  end.

(** The elements [filepath.Clean] keeps, last first. *)
Fixpoint clean_elems (rooted : bool) (elems kept : list (list Z)) : list (list Z) :=
  match elems with
  | [] => kept
  | e :: elems =>
      if bytes_eqb e [] || bytes_eqb e (lit ".") then clean_elems rooted elems kept
      else if bytes_eqb e (lit "..") then
        match kept with
        | [] => clean_elems rooted elems (if rooted then [] else [e])
        | k :: kept' =>
            if bytes_eqb k (lit "..") then clean_elems rooted elems (e :: kept)
            else clean_elems rooted elems kept'
        end
      else clean_elems rooted elems (e :: kept)
  end.

(** [filepath.Clean] *)
Definition Clean (path : list Z) : list Z :=
  let rooted := HasPrefix path [slash] in
  let body := Join slash (rev (clean_elems rooted (Split slash path) [])) in
  if rooted then slash :: body
  else match body with [] => lit "." | _ => body end.

(** [filepath.Join]: empty elements in front are ignored, the rest is joined
    and cleaned. *)
Fixpoint path_Join (elems : list (list Z)) : list Z :=
  match elems with
  | [] => []
  | [] :: elems => path_Join elems
  | _ => Clean (Join slash elems)
  end.

(** ** Lemmas on prefixes and trimming *)

Lemma strip_prefix_Some p s t : strip_prefix p s = Some t <-> s = p ++ t.
Proof.
  revert s. induction p as [|x p IH]; intros [|y s]; cbn; split; try congruence.
  - case_if; [|done]. rewrite IH. congruence.
  - intros [= -> ->]. rewrite Z.eqb_refl. by apply IH.
Qed.

Lemma strip_prefix_None p s : strip_prefix p s = None <-> forall t, s <> p ++ t.
Proof.
  destruct (strip_prefix p s) as [t|] eqn:E.
  - apply strip_prefix_Some in E. split; [done|]. intros H. by destruct (H t).
  - split; [|done]. intros _ t Ht. apply strip_prefix_Some in Ht. congruence.
Qed.

Lemma HasPrefix_spec s p : HasPrefix s p = true <-> exists t, s = p ++ t.
Proof.
  unfold HasPrefix. rewrite bool_decide_eq_true. unfold is_Some.
  split; intros [t Ht]; exists t; by apply strip_prefix_Some.
Qed.

Lemma HasSuffix_spec s p : HasSuffix s p = true <-> exists t, s = t ++ p.
Proof.
  unfold HasSuffix. rewrite HasPrefix_spec. split; intros [t Ht]; exists (rev t).
  - rewrite <- (rev_involutive s), Ht, rev_app_distr. by rewrite rev_involutive.
  - by rewrite Ht, rev_app_distr.
Qed.

Lemma strip_any_Some rs s t : strip_any rs s = Some t -> exists r, r ∈ rs /\ s = r ++ t.
Proof.
  induction rs as [|r rs IH]; cbn; [done|]. destruct (strip_prefix r s) as [t'|] eqn:E.
  - intros [= <-]. exists r. split; [left|by apply strip_prefix_Some].
  - intros H. destruct (IH H) as (r' & ? & ?). exists r'. split; [by right|done].
Qed.

Lemma strip_any_None rs s : strip_any rs s = None <-> forall r, r ∈ rs -> strip_prefix r s = None.
Proof.
  induction rs as [|r rs IH]; cbn; [set_solver|].
  destruct (strip_prefix r s) eqn:E.
  - split; [done|]. intros H. specialize (H r ltac:(left)). congruence.
  - rewrite IH. split; [|set_solver]. intros H r' [-> |]%elem_of_cons; auto.
Qed.

(** A byte no rune contains stops a rune that did not match before it. *)
Lemma strip_prefix_stop r s c t :
  strip_prefix r s = None -> c ∉ r \/ (length r <= length s)%nat -> strip_prefix r (s ++ c :: t) = None.
Proof.
  revert s. induction r as [|x r IH]; intros [|y s]; cbn; [done|done| |].
  - intros _ [Hc|]; [|lia]. rewrite (proj2 (Z.eqb_neq x c)); [done|]. set_solver.
  - case_if; [|done]. intros Hr Hc. apply IH; [done|]. destruct Hc; [left; set_solver|right; lia].
Qed.

(** [s] does not start with a rune of [rs]. *)
Definition clear (rs : list (list Z)) (s : list Z) : Prop := strip_any rs s = None.

Definition trimmed (s : list Z) : Prop := clear spaces s /\ clear (map (@rev Z) spaces) (rev s).

Lemma clear_stop rs s c t :
  clear rs s -> (forall r, r ∈ rs -> c ∉ r \/ (length r <= length s)%nat) -> clear rs (s ++ c :: t).
Proof.
  unfold clear. rewrite !strip_any_None. intros Hs Hc r Hr. apply strip_prefix_stop; auto.
Qed.

Lemma clear_prefix rs s t : clear rs (s ++ t) -> clear rs s.
Proof.
  unfold clear. rewrite !strip_any_None. intros H r Hr. specialize (H r Hr).
  rewrite strip_prefix_None in *. intros u ->. apply (H (u ++ t)). by rewrite app_assoc.
Qed.

Lemma trim_front_clear fuel rs s : clear rs s -> trim_front fuel rs s = s.
Proof. unfold clear. destruct fuel; cbn; [done|]. by intros ->. Qed.

(** What trimming leaves: a suffix that starts with no rune. *)
Lemma trim_front_spec fuel rs s :
  (forall r, r ∈ rs -> r <> []) -> (length s <= fuel)%nat ->
  clear rs (trim_front fuel rs s) /\ exists pre, s = pre ++ trim_front fuel rs s.
Proof.
  intros Hrs. revert s. induction fuel as [|fuel IH]; intros s Hl; cbn.
  { destruct s; [|cbn in Hl; lia]. split; [|by exists []]. apply strip_any_None. intros [|x r] Hr; [|done].
    by destruct (Hrs [] Hr). }
  destruct (strip_any rs s) as [s'|] eqn:E.
  - apply strip_any_Some in E as (r & Hr & ->). specialize (Hrs r Hr).
    destruct (IH s') as [H1 [pre H2]].
    { rewrite length_app in Hl. destruct r; [done|]. cbn in Hl. lia. }
    split; [done|]. exists (r ++ pre). by rewrite <- app_assoc, <- H2.
  - split; [done|]. by exists [].
Qed.

Lemma spaces_nonempty r : r ∈ spaces -> r <> [].
Proof.
  intros Hr ->. revert Hr. apply (bool_decide_unpack ([] ∉ spaces)). vm_compute. exact I.
Qed.

Lemma rev_spaces_nonempty r : r ∈ map (@rev Z) spaces -> r <> [].
Proof.
  intros Hr ->. revert Hr. apply (bool_decide_unpack ([] ∉ map (@rev Z) spaces)). vm_compute. exact I.
Qed.

Lemma TrimLeft_spec s : clear spaces (TrimLeft s) /\ exists pre, s = pre ++ TrimLeft s.
Proof. apply trim_front_spec; [apply spaces_nonempty|done]. Qed.

Lemma TrimRight_spec s :
  clear (map (@rev Z) spaces) (rev (TrimRight s)) /\ exists post, s = TrimRight s ++ post.
Proof.
  unfold TrimRight. rewrite rev_involutive.
  destruct (trim_front_spec (length s) (map (@rev Z) spaces) (rev s)) as [H [pre Hp]].
  - apply rev_spaces_nonempty.
  - by rewrite length_rev.
  - split; [done|]. exists (rev pre). rewrite <- rev_app_distr, <- Hp. by rewrite rev_involutive.
Qed.

Lemma TrimSpace_trimmed s : trimmed (TrimSpace s).
Proof.
  unfold TrimSpace. destruct (TrimLeft_spec s) as [Hl _].
  destruct (TrimRight_spec (TrimLeft s)) as [Hr [post Hp]]. split; [|done].
  rewrite Hp in Hl. by apply clear_prefix in Hl.
Qed.

(** The trimmed string is a part of the string. *)
Lemma TrimSpace_part s : exists pre post, s = pre ++ TrimSpace s ++ post.
Proof.
  unfold TrimSpace. destruct (TrimLeft_spec s) as [_ [pre Hp]].
  destruct (TrimRight_spec (TrimLeft s)) as [_ [post Hq]].
  exists pre, post. by rewrite <- Hq.
Qed.

Lemma TrimLeft_id s : clear spaces s -> TrimLeft s = s.
Proof. apply trim_front_clear. Qed.

Lemma TrimRight_id s : clear (map (@rev Z) spaces) (rev s) -> TrimRight s = s.
Proof. intros H. unfold TrimRight. rewrite trim_front_clear by done. apply rev_involutive. Qed.

Lemma TrimSpace_id s : trimmed s -> TrimSpace s = s.
Proof. intros [Hl Hr]. unfold TrimSpace. by rewrite TrimLeft_id, TrimRight_id. Qed.

Lemma TrimSpace_in s c : c ∈ TrimSpace s -> c ∈ s.
Proof. destruct (TrimSpace_part s) as (pre & post & E). rewrite E at 2. set_solver. Qed.

(** One leading or trailing space more is trimmed away. *)
Lemma trim_front_space rs s :
  [32] ∈ rs -> (forall r, r ∈ rs -> r <> [] /\ (head r = Some 32 -> r = [32])) ->
  clear rs s -> trim_front (S (length s)) rs (32 :: s) = s.
Proof.
  intros H32 Hrs Hs. cbn. destruct (strip_any rs (32 :: s)) as [t|] eqn:E.
  - apply strip_any_Some in E as (r & Hr & Er). destruct (Hrs r Hr) as [Hn Hh].
    destruct r as [|x r]; [done|]. injection Er as <- ->.
    specialize (Hh eq_refl). injection Hh as ->. by apply trim_front_clear.
  - rewrite strip_any_None in E. specialize (E [32] H32). by rewrite strip_prefix_None in E; destruct (E s).
Qed.

Lemma spaces_with_32 r :
  (r ∈ spaces \/ r ∈ map (@rev Z) spaces) -> 32 ∉ r \/ (length r <= 1)%nat.
Proof.
  intros H. assert (Forall (fun r => 32 ∉ r \/ (length r <= 1)%nat) (spaces ++ map (@rev Z) spaces)) as HF
    by decide_closed.
  rewrite Forall_forall in HF. apply HF. rewrite elem_of_app. tauto.
Qed.

Lemma spaces_head_32 r :
  (r ∈ spaces \/ r ∈ map (@rev Z) spaces) -> r <> [] /\ (head r = Some 32 -> r = [32]).
Proof.
  intros H.
  assert (Forall (fun r => r <> [] /\ (head r <> Some 32 \/ r = [32])) (spaces ++ map (@rev Z) spaces)) as HF
    by decide_closed.
  rewrite Forall_forall in HF. destruct (HF r) as [? ?]; [rewrite elem_of_app; tauto|].
  split; [done|]. tauto.
Qed.

Lemma TrimLeft_space s : clear spaces s -> TrimLeft (32 :: s) = s.
Proof.
  apply trim_front_space; [decide_closed|]. intros r Hr. apply spaces_head_32. by left.
Qed.

Lemma TrimRight_space s : clear (map (@rev Z) spaces) (rev s) -> TrimRight (s ++ [32]) = s.
Proof.
  intros H. unfold TrimRight. rewrite rev_app_distr. change (rev [32] ++ rev s) with (32 :: rev s).
  replace (length (s ++ [32])) with (S (length (rev s))) by (rewrite length_rev, length_app; cbn; lia).
  rewrite trim_front_space; [apply rev_involutive|decide_closed| |done].
  intros r Hr. apply spaces_head_32. by right.
Qed.

Lemma TrimSpace_space s : trimmed s -> TrimSpace (32 :: s) = s.
Proof. intros [Hl Hr]. unfold TrimSpace. by rewrite TrimLeft_space, TrimRight_id. Qed.

(** Nothing is trimmed off a word that follows a space. *)
Lemma clear_back_space s t :
  t <> [] -> clear (map (@rev Z) spaces) (rev t) -> clear (map (@rev Z) spaces) (rev (s ++ 32 :: t)).
Proof.
  intros Hn Ht. rewrite rev_app_distr. cbn [rev]. rewrite <- app_assoc. cbn [app].
  apply clear_stop; [done|]. intros r Hr. destruct (spaces_with_32 r) as [|Hl]; [by right|by left|].
  right. rewrite length_rev. destruct t; [done|]. cbn. lia.
Qed.

(** ** Lemmas on splitting and scanning *)

Lemma cut_spec sep s a b : cut sep s = Some (a, b) -> s = a ++ sep :: b /\ sep ∉ a.
Proof.
  revert a. induction s as [|c s IH]; intros a; cbn; [done|]. case_if.
  - intros [= <- <-]. subst. split; [done|]. apply not_elem_of_nil.
  - destruct (cut sep s) as [[a' b']|] eqn:E; cbn; [|done]. intros [= <- <-].
    destruct (IH a' eq_refl) as [-> Hn]. split; [done|]. rewrite elem_of_cons. intros [|]; [congruence|done].
Qed.

Lemma Split_nonempty sep s : Split sep s <> [].
Proof. destruct s as [|c s]; cbn; [done|]. case_if; [done|]. by destruct (Split sep s). Qed.

Lemma Split_app sep a s : sep ∉ a -> Split sep (a ++ sep :: s) = a :: Split sep s.
Proof.
  induction a as [|c a IH]; cbn; intros H; [by rewrite Z.eqb_refl|].
  rewrite elem_of_cons in H. rewrite (proj2 (Z.eqb_neq c sep)) by (intros ->; tauto).
  by rewrite IH by tauto.
Qed.

Lemma Split_single sep a : sep ∉ a -> Split sep a = [a].
Proof.
  induction a as [|c a IH]; cbn; intros H; [done|].
  rewrite elem_of_cons in H. rewrite (proj2 (Z.eqb_neq c sep)) by (intros ->; tauto).
  by rewrite IH by tauto.
Qed.

Lemma Split_words sep s w : w ∈ Split sep s -> sep ∉ w /\ (forall c, c ∈ w -> c ∈ s).
Proof.
  revert w. induction s as [|c s IH]; intros w; cbn.
  { intros ->%list_elem_of_singleton. split; [apply not_elem_of_nil|set_solver]. }
  case_if.
  - intros [-> |Hw]%elem_of_cons; [split; [apply not_elem_of_nil|set_solver]|].
    destruct (IH w Hw) as [H1 H2]. split; [done|]. intros d Hd. right. auto.
  - destruct (Split sep s) as [|w' ws]; [intros ->%list_elem_of_singleton; set_solver|].
    intros [-> |Hw]%elem_of_cons.
    + destruct (IH w' ltac:(left)) as [H1 H2]. split; [set_solver|].
      intros d [-> |Hd]%elem_of_cons; [left|right; auto].
    + destruct (IH w ltac:(by right)) as [H1 H2]. split; [done|]. intros d Hd. right. auto.
Qed.

Lemma Split_Join sep L : L <> [] -> Forall (fun l => sep ∉ l) L -> Split sep (Join sep L) = L.
Proof.
  intros Hn HF. induction HF as [|l L Hl HL IH]; [done|]. destruct L as [|l' L]; [by apply Split_single|].
  change (Join sep (l :: l' :: L)) with (l ++ sep :: Join sep (l' :: L)).
  rewrite Split_app by done. by rewrite IH.
Qed.

Lemma Join_cons sep l L : L <> [] -> Join sep (l :: L) = l ++ sep :: Join sep L.
Proof. by destruct L. Qed.

Lemma Join_snoc sep L l : L <> [] -> Join sep (L ++ [l]) = Join sep L ++ sep :: l.
Proof.
  induction L as [|x L IH]; intros Hn; [done|]. destruct L as [|y L]; [done|].
  change ((x :: y :: L) ++ [l]) with (x :: ((y :: L) ++ [l])).
  rewrite (Join_cons sep x ((y :: L) ++ [l])), (Join_cons sep x (y :: L)), IH by done.
  by rewrite <- app_assoc.
Qed.

#[local] Opaque MaxScanTokenSize.

Definition short (l : list Z) : Prop := (length l < MaxScanTokenSize)%nat.

Lemma scan_lines_split_acc s acc w ws :
  Split 10 s = w :: ws -> short (rev acc ++ w) -> Forall short ws ->
  scan_lines (s ++ [10]) acc = (dropCR (rev acc ++ w) :: map dropCR ws, true).
Proof.
  revert acc w ws. induction s as [|c s IH]; intros acc w ws; cbn [Split app].
  - intros [= <- <-] Ha _. cbn. rewrite app_nil_r in *. unfold short in Ha. rewrite length_rev in Ha.
    rewrite bool_decide_eq_false_2 by lia. done.
  - destruct (c =? 10) eqn:Ec.
    + intros [= <- <-] Ha Hs. cbn [scan_lines]. rewrite Ec, app_nil_r in *.
      unfold short in Ha. rewrite length_rev in Ha. rewrite bool_decide_eq_false_2 by lia.
      destruct (Split 10 s) as [|w' ws'] eqn:E; [by apply Split_nonempty in E|].
      inversion Hs; subst. by rewrite (IH [] w' ws').
    + destruct (Split 10 s) as [|w' ws'] eqn:E; [by apply Split_nonempty in E|].
      intros [= <- <-] Ha Hs. cbn [scan_lines]. rewrite Ec.
      rewrite (IH (c :: acc) w' ws'); cbn [rev]; rewrite <- ?app_assoc; done.
Qed.

(** A text of short lines ended by a newline is scanned line by line. *)
Lemma scan_lines_split s :
  Forall short (Split 10 s) -> scan_lines (s ++ [10]) [] = (map dropCR (Split 10 s), true).
Proof.
  destruct (Split 10 s) as [|w ws] eqn:E; [by apply Split_nonempty in E|].
  intros H. inversion H; subst. by rewrite (scan_lines_split_acc s [] w ws).
Qed.

Lemma elem_of_rev {A} (x : A) l : x ∈ rev l <-> x ∈ l.
Proof. rewrite !list_elem_of_In. symmetry. apply in_rev. Qed.

Lemma dropCR_in l c : c ∈ dropCR l -> c ∈ l.
Proof.
  unfold dropCR. destruct (rev l) as [|x r] eqn:E; [done|].
  intros H. assert (c ∈ rev r \/ c ∈ l) as [Hc|]; [|rewrite elem_of_rev in Hc|done].
  { destruct x as [|p|p]; auto. do 4 (destruct p as [p|p|]; auto). }
  rewrite <- (elem_of_rev c l), E. by apply elem_of_cons; right.
Qed.

Lemma scan_lines_no_newline s acc lines ok :
  10 ∉ acc -> scan_lines s acc = (lines, ok) -> Forall (fun l => 10 ∉ l) lines.
Proof.
  revert acc lines ok. induction s as [|c s IH]; intros acc lines ok Ha; cbn [scan_lines].
  - destruct acc as [|x acc]; [by intros [= <- <-]|]. case_if; intros [= <- <-]; [done|].
    constructor; [|done]. intros H%dropCR_in. by apply Ha, (elem_of_rev 10 (x :: acc)).
  - destruct (c =? 10) eqn:Ec.
    + case_if; [by intros [= <- <-]|]. destruct (scan_lines s []) as [ls ok'] eqn:E. intros [= <- <-].
      constructor; [intros H%dropCR_in; by rewrite elem_of_rev in H|]. eapply IH; [|done]. apply not_elem_of_nil.
    + apply IH. rewrite elem_of_cons. zbool. intros [|]; [congruence|done].
Qed.
