(* ===== verification/Resolver.v ===== *)
(** * Name resolution (src/wireguard-go/tun/netstack/tun.go)

    The user-space network stack resolves host names itself: it asks the DNS
    servers of the tunnel in turn, over UDP and over TCP when the answer was cut.
    Messages are read and written by golang.org/x/net/dns/dnsmessage, a parameter
    of the model; what a connection delivers is an input. *)

From Stdlib Require Import String.
From stdpp Require Import base numbers list.
From S2P Require Import Prelude Setters GoStrings AllowedIPs Netip Control Bind GoText.

Open Scope Z_scope.

(** ** Errors *)

(** The errors of the file, those of package context, and an error of the network
    stack with what the code asks about it. *)
Inductive error :=
| errNoSuchHost
| errLameReferral
| errCannotUnmarshalDNSMessage
| errCannotMarshalDNSMessage
| errServerMisbehaving
| errInvalidDNSResponse
| errNoAnswerFromDNSServer
| errServerTemporarilyMisbehaving
| errCanceled
| errTimeout
| errNumericPort
| errNoSuitableAddress
| errMissingAddress
| ctx_Canceled
| ctx_DeadlineExceeded
| stack_error (text : list Z) (Timeout : bool) (is_OpError : bool).

#[export] Instance error_eq_dec : EqDecision error.
Proof. solve_decision. Defined.

(** [err.Error()] *)
Definition Error (err : error) : list Z :=
  match err with
  | errNoSuchHost => lit "no such host"
  | errLameReferral => lit "lame referral"
  | errCannotUnmarshalDNSMessage => lit "cannot unmarshal DNS message"
  | errCannotMarshalDNSMessage => lit "cannot marshal DNS message"
  | errServerMisbehaving | errServerTemporarilyMisbehaving => lit "server misbehaving"
  | errInvalidDNSResponse => lit "invalid DNS response"
  | errNoAnswerFromDNSServer => lit "no answer from DNS server"
  | errCanceled => lit "operation was canceled"
  | errTimeout => lit "i/o timeout"
  | errNumericPort => lit "port must be numeric"
  | errNoSuitableAddress => lit "no suitable address found"
  | errMissingAddress => lit "missing address"
  | ctx_Canceled => lit "context canceled"
  | ctx_DeadlineExceeded => lit "context deadline exceeded"
  | stack_error text _ _ => text
  end.

(** [err.(net.Error)] with [Timeout()] *)
Definition is_timeout (err : error) : bool :=
  match err with
  | ctx_DeadlineExceeded => true
  | stack_error _ timeout _ => timeout
  | _ => false
  end.

(** Whether [err] is a pointer to a [net.OpError]. *)
Definition is_op (err : error) : bool := match err with stack_error _ _ op => op | _ => false end.

(** [err == context.Canceled] and [err == context.DeadlineExceeded] translated. *)
Definition context_error (err : error) : error :=
  match err with
  | ctx_Canceled => errCanceled
  | ctx_DeadlineExceeded => errTimeout
  | _ => err
  end.

Record DNSError := mkDNSError {
  de_Err : list Z;
  de_Name : list Z;
  de_Server : list Z;
  de_IsTimeout : bool;
  de_IsTemporary : bool;
  de_IsNotFound : bool
}.

#[export] Instance eta_DNSError : Settable DNSError := fun r =>
  mkDNSError (de_Err r) (de_Name r) (de_Server r) (de_IsTimeout r) (de_IsTemporary r) (de_IsNotFound r).

Inductive lookup_error :=
| plain_error (err : error)
| dns_error (err : DNSError).

(** ** Messages *)

Record Header := mkHeader {
  h_ID : Z;
  h_Response : bool;
  h_Authoritative : bool;
  h_Truncated : bool;
  h_RecursionAvailable : bool;
  h_RCode : Z
}.

Record Question := mkQuestion { q_Name : list Z; q_Type : Z; q_Class : Z }.

Definition TypeA : Z := 1.

Definition TypeAAAA : Z := 28.

Definition ClassINET : Z := 1.

Definition RCodeSuccess : Z := 0.

Definition RCodeServerFailure : Z := 2.

Definition RCodeNameError : Z := 3.

(** What reading an item of a section gives: [ErrSectionDone], another error or
    the item. *)
Inductive parsed (A : Type) :=
| section_done
| malformed
| item (a : A).

Arguments section_done {A}.
Arguments malformed {A}.
Arguments item {A} a.

(** The package dnsmessage. A method with a pointer receiver also gives the parser
    after it. [query] builds a message with one question, recursion desired and
    compression. [answers_left] is the number of answers a parser has not read. *)
Class Dns := {
  Parser : Type;
  no_parser : Parser;
  Start : list Z -> option (Parser * Header);
  ParseQuestion : Parser -> parsed Question * Parser;
  SkipQuestion : Parser -> parsed unit * Parser;
  AnswerHeader : Parser -> parsed Z * Parser;
  SkipAnswer : Parser -> bool * Parser;
  AResource : Parser -> option (list Z) * Parser;
  AAAAResource : Parser -> option (list Z) * Parser;
  NewName : list Z -> option (list Z);
  query : Z -> Question -> option (list Z);
  answers_left : Parser -> nat
}.

(** ** Names *)

Definition is_alpha (c : Z) : bool := (97 <=? c) && (c <=? 122) || (65 <=? c) && (c <=? 90) || (c =? 95).

(** The loop of [isDomainName]: the last byte, the length of the label and whether
    something but digits and dots was seen. *)
Fixpoint domain_loop (s : list Z) (last partlen : Z) (nonNumeric : bool) : bool :=
  match s with
  | [] => if (last =? 45) || (partlen >? 63) then false else nonNumeric
  | c :: s =>
      if is_alpha c then domain_loop s c (partlen + 1) true
      else if is_digit c then domain_loop s c (partlen + 1) nonNumeric
      else if c =? 45 then if last =? DOT then false else domain_loop s c (partlen + 1) true
      else if c =? DOT then
        if (last =? DOT) || (last =? 45) then false
        else if (partlen >? 63) || (partlen =? 0) then false
        else domain_loop s c 0 nonNumeric
      else false
  end.

Definition isDomainName (s : list Z) : bool :=
  let l := zlen s in
  if (l =? 0) || (l >? 254) || (l =? 254) && negb (bool_decide (List.last s 0 = DOT)) then false
  else domain_loop s DOT 0 false.

(** [a += 0x20] for upper case *)
Definition lower (a : Z) : Z := if (65 <=? a) && (a <=? 90) then u8 (a + 32) else a.

Definition equalASCIIName (x y : list Z) : bool := bool_decide (length x = length y) && bool_decide (map lower x = map lower y).

Definition checkResponse (reqID : Z) (reqQues : Question) (respHdr : Header) (respQues : Question) : bool :=
  if negb (h_Response respHdr) then false
  else if negb (reqID =? h_ID respHdr) then false
  else if negb (q_Type reqQues =? q_Type respQues) || negb (q_Class reqQues =? q_Class respQues) ||
          negb (equalASCIIName (q_Name reqQues) (q_Name respQues)) then false
  else true.

(** ** Connections *)

(** A connection: the errors of setting its deadline and of writing, what the
    reads give, and the error that ends them. *)
Record DnsConn := mkDnsConn {
  c_SetDeadline : option error;
  c_Write : option error;
  c_reads : list (list Z);
  c_end : error
}.

(** One exchange: the random bytes, and the connections over UDP and TCP. *)
Record Dialed := mkDialed {
  d_rand : list Z;
  d_udp : error + DnsConn;
  d_tcp : error + DnsConn
}.

Definition randU16 (b : list Z) : Z := le_uint b.

Section dns.
Context `{Dns}.

(** The request for UDP and the one for TCP, which starts with the length. The
    error that [Finish] may return stands for a builder that was never started,
    which does not occur after [StartQuestions]. *)
Definition newRequest (b : list Z) (q : Question) : option (Z * list Z * list Z) :=
  let id := randU16 b in
  udpReq ← query id q;
  let l := zlen udpReq in
  Some (id, udpReq, u8 (Z.shiftr l 8) :: u8 l :: udpReq).

(** The loop over the datagrams that arrive. *)
Fixpoint packet_loop (id : Z) (q : Question) (reads : list (list Z)) (end_ : error) : error + (Parser * Header) :=
  match reads with
  | [] => inl end_
  | b :: reads =>
      match Start (take 512 b) with
      | None => packet_loop id q reads end_
      | Some (p, h) =>
          match ParseQuestion p with
          | (item q', p) => if checkResponse id q h q' then inr (p, h) else packet_loop id q reads end_
          | _ => packet_loop id q reads end_
          end
      end
  end.

Definition dnsPacketRoundTrip (c : DnsConn) (id : Z) (q : Question) : error + (Parser * Header) :=
  match c_Write c with
  | Some err => inl err
  | None => packet_loop id q (c_reads c) (c_end c)
  end.

(** [io.ReadFull] *)
Definition ReadFull (n : Z) (s : list Z) (end_ : error) : error + (list Z * list Z) :=
  if n <=? zlen s then inr (take (Z.to_nat n) s, drop (Z.to_nat n) s) else inl end_.

Definition dnsStreamRoundTrip (c : DnsConn) (id : Z) (q : Question) : error + (Parser * Header) :=
  match c_Write c with
  | Some err => inl err
  | None =>
      match ReadFull 2 (concat (c_reads c)) (c_end c) with
      | inl err => inl err
      | inr (b, s) =>
          let l := Z.lor (Z.shiftl (nth 0 b 0) 8) (nth 1 b 0) in
          match ReadFull l s (c_end c) with
          | inl err => inl err
          | inr (b, _) =>
              match Start b with
              | None => inl errCannotUnmarshalDNSMessage
              | Some (p, h) =>
                  match ParseQuestion p with
                  | (item q', p) => if checkResponse id q h q' then inr (p, h) else inl errInvalidDNSResponse
                  | _ => inl errCannotUnmarshalDNSMessage
                  end
              end
          end
      end
  end.

(** One pass of the loop of [exchange]; [None] inside is to go on. *)
Definition exchange_on (useUDP : bool) (dialed : error + DnsConn) (id : Z) (q : Question) : error + option (Parser * Header) :=
  match dialed with
  | inl err => inl err
  | inr c =>
      match c_SetDeadline c with
      | Some err => inl err
      | None =>
          match (if useUDP then dnsPacketRoundTrip c id q else dnsStreamRoundTrip c id q) with
          | inl err => inl (context_error err)
          | inr (p, h) =>
              match SkipQuestion p with
              | (section_done, p) => if h_Truncated h then inr None else inr (Some (p, h))
              | _ => inl errInvalidDNSResponse
              end
          end
      end
  end.

Definition exchange (d : Dialed) (q : Question) : error + (Parser * Header) :=
  let q := mkQuestion (q_Name q) (q_Type q) ClassINET in
  match newRequest (d_rand d) q with
  | None => inl errCannotMarshalDNSMessage
  | Some (id, _, _) =>
      match exchange_on true (d_udp d) id q with
      | inl err => inl err
      | inr (Some r) => inr r
      | inr None =>
          match exchange_on false (d_tcp d) id q with
          | inl err => inl err
          | inr (Some r) => inr r
          | inr None => inl errNoAnswerFromDNSServer
          end
      end
  end.

(** ** Answers *)

Definition checkHeader (p : Parser) (h : Header) : option error * Parser :=
  if h_RCode h =? RCodeNameError then (Some errNoSuchHost, p)
  else
    let '(r, p) := AnswerHeader p in
    match r with
    | malformed => (Some errCannotUnmarshalDNSMessage, p)
    | _ =>
        let done := match r with section_done => true | _ => false end in
        if (h_RCode h =? RCodeSuccess) && negb (h_Authoritative h) && negb (h_RecursionAvailable h) && done then
          (Some errLameReferral, p)
        else if negb (h_RCode h =? RCodeSuccess) && negb (h_RCode h =? RCodeNameError) then
          if h_RCode h =? RCodeServerFailure then (Some errServerTemporarilyMisbehaving, p)
          else (Some errServerMisbehaving, p)
        else (None, p)
    end.

(** The loop of [skipToAnswer]. *)
Fixpoint skip_loop (fuel : nat) (p : Parser) (qtype : Z) : option error * Parser :=
  match fuel with
  | O => (Some errNoSuchHost, p)
  | S fuel =>
      match AnswerHeader p with
      | (section_done, p) => (Some errNoSuchHost, p)
      | (malformed, p) => (Some errCannotUnmarshalDNSMessage, p)
      | (item type, p) =>
          if type =? qtype then (None, p)
          else
            match SkipAnswer p with
            | (false, p) => (Some errCannotUnmarshalDNSMessage, p)
            | (true, p) => skip_loop fuel p qtype
            end
      end
  end.

Definition skipToAnswer (p : Parser) (qtype : Z) : option error * Parser := skip_loop (S (answers_left p)) p qtype.

(** ** Servers *)

(** What one server gives in [tryOneName]: a result to return, or the error to
    remember. *)
Definition try_server (d : Dialed) (name server : list Z) (q : Question) :
    DNSError + (Parser * option DNSError) :=
  let failed err := mkDNSError (Error err) name server false false false in
  match exchange d q with
  | inl err => inl (failed err <| de_IsTimeout := is_timeout err |> <| de_IsTemporary := is_op err |>)
  | inr (p, h) =>
      match checkHeader p h with
      | (Some err, p) =>
          let dnsErr := failed err <| de_IsTemporary := bool_decide (err = errServerTemporarilyMisbehaving) |> in
          if bool_decide (err = errNoSuchHost) then inr (p, Some (dnsErr <| de_IsNotFound := true |>)) else inl dnsErr
      | (None, p) =>
          match skipToAnswer p (q_Type q) with
          | (None, p) => inr (p, None)
          | (Some err, p) =>
              if bool_decide (err = errNoSuchHost) then inr (p, Some (failed err <| de_IsNotFound := true |>)) else inl (failed err)
          end
      end
  end.

(** The loops over two rounds and the servers, flattened. *)
Fixpoint try_loop (l : list (list Z * Dialed)) (name : list Z) (q : Question) (lastErr : option lookup_error) :
    Parser * list Z * option lookup_error :=
  match l with
  | [] => (no_parser, [], lastErr)
  | (server, d) :: l =>
      match try_server d name server q with
      | inl err => try_loop l name q (Some (dns_error err))
      | inr (p, err) => (p, server, dns_error <$> err)
      end
  end.

(** The addresses of the servers as text, with what asking them gives in the round. *)
Definition attempts (servers : list (list Z)) (dials : nat -> nat -> Dialed) : list (list Z * Dialed) :=
  concat (map (fun i => imap (fun j server => (server, dials i j)) servers) (seq 0 2)).

Definition tryOneName (servers : list (list Z)) (dials : nat -> nat -> Dialed) (name : list Z) (qtype : Z) :
    Parser * list Z * option lookup_error :=
  match NewName name with
  | None => (no_parser, [], Some (plain_error errCannotMarshalDNSMessage))
  | Some n => try_loop (attempts servers dials) name (mkQuestion n qtype ClassINET) None
  end.

(** ** Hosts *)

Record Found := mkFound {
  addrsV4 : list (list Z);
  addrsV6 : list (list Z);
  f_lastErr : option lookup_error
}.

#[export] Instance eta_Found : Settable Found := fun r => mkFound (addrsV4 r) (addrsV6 r) (f_lastErr r).

(** The loop over the answers of one result. *)
Fixpoint collect_loop (fuel : nat) (host server : list Z) (p : Parser) (f : Found) : Found :=
  let failed := f <| f_lastErr := Some (dns_error (mkDNSError (Error errCannotMarshalDNSMessage) host server false false false)) |> in
  match fuel with
  | O => f
  | S fuel =>
      match AnswerHeader p with
      | (section_done, _) => f
      | (malformed, _) => failed
      | (item type, p) =>
          if type =? TypeA then
            match AResource p with
            | (None, _) => failed
            | (Some a, p) => collect_loop fuel host server p (f <| addrsV4 := addrsV4 f ++ [a] |>)
            end
          else if type =? TypeAAAA then
            match AAAAResource p with
            | (None, _) => failed
            | (Some a, p) => collect_loop fuel host server p (f <| addrsV6 := addrsV6 f ++ [a] |>)
            end
          else
            match SkipAnswer p with
            | (false, _) => failed
            | (true, p) => collect_loop fuel host server p f
            end
      end
  end.

(** A result that arrives. *)
Definition collect (host : list Z) (f : Found) (r : Parser * list Z * option lookup_error) : Found :=
  let '(p, server, err) := r in
  match err with
  | Some err => match f_lastErr f with None => f <| f_lastErr := Some err |> | Some _ => f end
  | None => collect_loop (S (answers_left p)) host server p f
  end.

(** The part of a literal address before its zone. *)
Definition without_zone (host : list Z) : list Z :=
  if Contains host COLON then match cut_last PERCENT host with Some (a, _) => a | None => host end else host.

Definition not_found (host : list Z) : lookup_error :=
  dns_error (mkDNSError (Error errNoSuchHost) host [] false false true).

(** [LookupContextHost]. The results of the two questions arrive in any order:
    [v6first] is that the one about IPv6 is the first. *)
Definition LookupContextHost (hasV4 hasV6 : bool) (servers : list (list Z)) (dials4 dials6 : nat -> nat -> Dialed) (v6first : bool)
    (host : list Z) : lookup_error + list (list Z) :=
  if bool_decide (host = []) || negb hasV6 && negb hasV4 then inl (not_found host)
  else
    let literal := without_zone host in
    match ParseAddr literal with
    | Some (ip, zoned) => inr [Addr_String ip (if zoned : bool then from_option snd [] (cut PERCENT literal) else [])]
    | None =>
        if negb (isDomainName host) then inl (not_found host)
        else
          let r4 := if hasV4 then [tryOneName servers dials4 (host ++ [DOT]) TypeA] else [] in
          let r6 := if hasV6 then [tryOneName servers dials6 (host ++ [DOT]) TypeAAAA] else [] in
          let f := foldl (collect host) (mkFound [] [] None) (if v6first then r6 ++ r4 else r4 ++ r6) in
          let addrs := if hasV6 then addrsV6 f ++ addrsV4 f else addrsV4 f ++ addrsV6 f in
          match addrs, f_lastErr f with
          | [], Some err => inl err
          | _, _ => inr (map (fun ip => Addr_String ip []) addrs)
          end
    end.

End dns.
