(* ===== verification/ResolverCorrect.v ===== *)
(** * Name resolution is correct

    An answer is used only if it belongs to the question, whatever else arrives;
    a lookup gives the addresses of the first server that knows them, whatever the
    order of the answers for the two families. *)

From Stdlib Require Import String.
From stdpp Require Import base numbers list.
From S2P Require Import Prelude Setters GoStrings AllowedIPs Netip NetipCorrect Slices Control Bind GoText Resolver.

Open Scope Z_scope.

(** ** What the code relies on *)

(** An answer: its type and its data. *)
Notation answer := (Z * list Z)%type (only parsing).

(** The documented behaviour of dnsmessage. [at_answers p l] says that the answers
    [l] are next, all of them well formed. A header is read without going on, a
    parser that was not started gives no header, a name is packed label by label
    and no label but the root is empty. *)
Class DnsLaws `{Dns} := {
  at_answers : Parser -> list answer -> Prop;
  answers_left_spec p l : at_answers p l -> answers_left p = length l;
  AnswerHeader_end p : at_answers p [] -> exists p', AnswerHeader p = (section_done, p') /\ at_answers p' [];
  AnswerHeader_next p t d l : at_answers p ((t, d) :: l) -> exists p', AnswerHeader p = (item t, p') /\ at_answers p' ((t, d) :: l);
  SkipAnswer_next p r l : at_answers p (r :: l) -> exists p', SkipAnswer p = (true, p') /\ at_answers p' l;
  AResource_next p d l : at_answers p ((TypeA, d) :: l) -> exists p', AResource p = (Some d, p') /\ at_answers p' l;
  AAAAResource_next p d l : at_answers p ((TypeAAAA, d) :: l) -> exists p', AAAAResource p = (Some d, p') /\ at_answers p' l;
  no_parser_header : exists p, AnswerHeader no_parser = (malformed, p);
  NewName_same name n : NewName name = Some n -> n = name;
  query_empty_label id q a b : q_Name q = a ++ [DOT; DOT] ++ b -> query id q = None
}.

Section resolver.
Context `{DnsLaws}.

(** ** Only matching answers *)

(** What a message is to a question: the parser after the question, and the header,
    if it is a response to it. *)
Definition response_to (id : Z) (q : Question) (b : list Z) : option (Parser * Header) :=
  match Start b with
  | Some (p, h) => match ParseQuestion p with
                   | (item q', p) => if checkResponse id q h q' then Some (p, h) else None
                   | _ => None
                   end
  | None => None
  end.

(** The first response decides. *)
Fixpoint first_response (id : Z) (q : Question) (reads : list (list Z)) : option (Parser * Header) :=
  match reads with
  | [] => None
  | b :: reads => match response_to id q (take 512 b) with Some r => Some r | None => first_response id q reads end
  end.

Lemma packet_loop_first id q reads err :
  packet_loop id q reads err = match first_response id q reads with Some r => inr r | None => inl err end.
Proof.
  induction reads as [|b reads IH]; [done|]. cbn [packet_loop first_response]. unfold response_to at 1.
  destruct (Start (take 512 b)) as [[p h]|]; [|done]. destruct (ParseQuestion p) as [[| |q'] p']; [done..|]. by destruct (checkResponse _ _ _ _).
Qed.

Lemma first_response_skip id q l x l' :
  response_to id q (take 512 x) = None -> first_response id q (l ++ x :: l') = first_response id q (l ++ l').
Proof.
  intros Hx. induction l as [|y l IH]; cbn [app first_response]; [by rewrite Hx|]. by rewrite IH.
Qed.

Lemma first_response_in id q l r : first_response id q l = Some r -> exists b, b ∈ l /\ response_to id q (take 512 b) = Some r.
Proof.
  induction l as [|b l IH]; [done|]. cbn [first_response]. destruct (response_to _ _ _) eqn:E.
  - intros [= ->]. exists b. split; [left|done].
  - intros Hr. destruct (IH Hr) as (b' & Hb & Hr'). exists b'. split; [by right|done].
Qed.

(** A response has the identifier of the request, and its question up to case. *)
Lemma response_matches id q b p h :
  response_to id q b = Some (p, h) ->
  exists p0 q', Start b = Some (p0, h) /\ ParseQuestion p0 = (item q', p) /\ h_Response h = true /\ h_ID h = id /\
    q_Type q' = q_Type q /\ q_Class q' = q_Class q /\ map lower (q_Name q') = map lower (q_Name q).
Proof.
  unfold response_to. destruct (Start b) as [[p0 h0]|] eqn:Es; [|done]. destruct (ParseQuestion p0) as [[| |q'] p1] eqn:Eq; [done..|].
  destruct (checkResponse id q h0 q') eqn:Ec; [|done]. intros [= -> ->]. exists p0, q'. unfold checkResponse, equalASCIIName in Ec.
  destruct (h_Response h); [|done]. cbn [negb] in Ec. destruct (id =? h_ID h) eqn:E1; [|done]. cbn [negb] in Ec.
  destruct (q_Type q =? q_Type q') eqn:E2, (q_Class q =? q_Class q') eqn:E3; cbn [negb orb] in Ec; try done.
  destruct (bool_decide (length _ = _)); cbn [andb negb] in Ec; [|done].
  destruct (bool_decide (map lower _ = _)) eqn:E4; [|done]. apply bool_decide_eq_true in E4. zbool. by split_and!.
Qed.

(** The message a stream carries behind its length. *)
Definition stream_message (s : list Z) : list Z :=
  let l := Z.lor (Z.shiftl (nth 0 s 0) 8) (nth 1 s 0) in take (Z.to_nat l) (drop 2 s).

Lemma stream_response c id q p h :
  dnsStreamRoundTrip c id q = inr (p, h) -> response_to id q (stream_message (concat (c_reads c))) = Some (p, h).
Proof.
  unfold dnsStreamRoundTrip, ReadFull, stream_message. set (s := concat _). destruct (c_Write c); [done|].
  destruct (2 <=? zlen s) eqn:E2; [|done]. assert (exists a b t, s = a :: b :: t) as (a & b & t & ->).
  { unfold zlen in E2. destruct s as [|a [|b t]]; [done|done|]. by eexists _, _, _. }
  change (Z.to_nat 2) with 2%nat. cbn [take drop nth]. set (l := Z.lor _ _).
  rewrite drop_0. destruct (l <=? zlen t); [|done].
  unfold response_to. destruct (Start _) as [[p0 h0]|]; [|done]. destruct (ParseQuestion p0) as [[| |q'] p1]; [done..|].
  destruct (checkResponse _ _ _ _); [|done]. by intros [= -> ->].
Qed.

(** The question as [exchange] asks it. *)
Definition asked (q : Question) : Question := mkQuestion (q_Name q) (q_Type q) ClassINET.

(** The messages that arrive in an exchange. *)
Definition arrives (d : Dialed) (b : list Z) : Prop :=
  (exists c x, d_udp d = inr c /\ x ∈ c_reads c /\ b = take 512 x) \/
  (exists c, d_tcp d = inr c /\ b = stream_message (concat (c_reads c))).

Lemma exchange_on_response useUDP dialed id q r :
  exchange_on useUDP dialed id q = inr (Some r) ->
  exists c p b, dialed = inr c /\ response_to id q b = Some (p, r.2) /\ SkipQuestion p = (section_done, r.1) /\ h_Truncated r.2 = false /\
    (if useUDP then exists x, x ∈ c_reads c /\ b = take 512 x else b = stream_message (concat (c_reads c))).
Proof.
  unfold exchange_on. destruct dialed as [err|c]; [done|]. destruct (c_SetDeadline c); [done|].
  destruct (if useUDP then _ else _) as [err|[p h]] eqn:E; [done|]. destruct (SkipQuestion p) as [[| |] p'] eqn:Ep; try done.
  destruct (h_Truncated h) eqn:Et; [done|]. intros [= <-]. destruct useUDP.
  - unfold dnsPacketRoundTrip in E. destruct (c_Write c); [done|]. rewrite packet_loop_first in E.
    destruct (first_response _ _ _) as [r|] eqn:Ef; [|done]. injection E as ->.
    destruct (first_response_in _ _ _ _ Ef) as (x & Hx & Hr). exists c, p, (take 512 x). split_and!; try done. by exists x.
  - exists c, p, (stream_message (concat (c_reads c))). split_and!; try done. by apply stream_response.
Qed.

Lemma exchange_response d q p h :
  exchange d q = inr (p, h) ->
  exists b p0, arrives d b /\ response_to (randU16 (d_rand d)) (asked q) b = Some (p0, h) /\ SkipQuestion p0 = (section_done, p) /\
    h_Truncated h = false.
Proof.
  unfold exchange, newRequest. fold (asked q). destruct (query _ _); [|done]. cbn [mbind option_bind]. set (id := randU16 _).
  destruct (exchange_on true _ id _) as [err|[r|]] eqn:E1; [done| |].
  - intros [= ->]. destruct (exchange_on_response _ _ _ _ _ E1) as (c & p0 & b & Hd & Hr & Hs & Ht & x & Hx & ->).
    exists (take 512 x), p0. split_and!; try done. left. by exists c, x.
  - destruct (exchange_on false _ id _) as [err|[r|]] eqn:E2; [done| |done]. intros [= ->].
    destruct (exchange_on_response _ _ _ _ _ E2) as (c & p0 & b & Hd & Hr & Hs & Ht & ->).
    eexists _, p0. split_and!; try done. right. by exists c.
Qed.

(** A datagram that does not belong to the question makes no difference. *)
Lemma exchange_skips d q c l x l' :
  d_udp d = inr c -> c_reads c = l ++ x :: l' -> response_to (randU16 (d_rand d)) (asked q) (take 512 x) = None ->
  exchange d q = exchange (mkDialed (d_rand d) (inr (mkDnsConn (c_SetDeadline c) (c_Write c) (l ++ l') (c_end c))) (d_tcp d)) q.
Proof.
  intros Hd Hc Hx. unfold exchange, newRequest. fold (asked q). cbn [d_rand d_udp d_tcp]. destruct (query _ _); [|done].
  cbn [mbind option_bind]. set (id := randU16 _) in *. rewrite Hd.
  assert (exchange_on true (inr c) id (asked q) =
    exchange_on true (inr (mkDnsConn (c_SetDeadline c) (c_Write c) (l ++ l') (c_end c))) id (asked q)) as ->; [|done].
  unfold exchange_on, dnsPacketRoundTrip. cbn [c_SetDeadline c_Write c_reads c_end]. destruct (c_SetDeadline c), (c_Write c); try done.
  by rewrite !packet_loop_first, Hc, (first_response_skip _ _ _ _ _ Hx).
Qed.

(** ** The answers of a message *)

(** The data of the answers of one type. *)
Definition datas (t : Z) (l : list answer) : list (list Z) := snd <$> filter (fun r => r.1 = t) l.

Lemma datas_cons t r l : datas t (r :: l) = (if decide (r.1 = t) then [r.2] else []) ++ datas t l.
Proof. unfold datas. rewrite filter_cons. by destruct (decide _). Qed.

Lemma skip_loop_ok qtype l : forall fuel p, at_answers p l -> (length l < fuel)%nat ->
  exists p', (datas qtype l <> [] -> skip_loop fuel p qtype = (None, p') /\
      exists l', at_answers p' l' /\ l' `suffix_of` l /\ datas qtype l' = datas qtype l) /\
    (datas qtype l = [] -> skip_loop fuel p qtype = (Some errNoSuchHost, p')).
Proof.
  induction l as [|[t d] l IH]; intros [|fuel] p Hp Hf; simpl in Hf; try lia; cbn [skip_loop].
  - destruct (AnswerHeader_end p Hp) as (p' & -> & _). by exists p'.
  - destruct (AnswerHeader_next p t d l Hp) as (p1 & -> & H1). rewrite datas_cons. cbn [fst snd]. destruct (t =? qtype) eqn:E; zbool.
    + rewrite decide_True by done. exists p1. split; [|done]. intros _. split; [done|]. exists ((t, d) :: l).
      split_and!; try done. rewrite datas_cons. cbn [fst snd]. by rewrite decide_True.
    + rewrite decide_False by done. cbn [app]. destruct (SkipAnswer_next p1 _ l H1) as (p2 & -> & H2).
      destruct (IH fuel p2 H2 ltac:(lia)) as (p' & G1 & G2). exists p'. split; [|done]. intros Hne.
      destruct (G1 Hne) as (E' & l' & A & B & C). split; [done|]. exists l'. split_and!; try done. by apply suffix_cons_r.
Qed.

Lemma collect_loop_ok host server l : forall fuel p f, at_answers p l -> (length l < fuel)%nat ->
  collect_loop fuel host server p f = mkFound (addrsV4 f ++ datas TypeA l) (addrsV6 f ++ datas TypeAAAA l) (f_lastErr f).
Proof.
  induction l as [|[t d] l IH]; intros [|fuel] p f Hp Hf; simpl in Hf; try lia; cbn [collect_loop].
  - destruct (AnswerHeader_end p Hp) as (p' & -> & _). unfold datas. cbn. rewrite !app_nil_r. by destruct f.
  - destruct (AnswerHeader_next p t d l Hp) as (p1 & -> & H1). rewrite !datas_cons. cbn [fst snd]. destruct (t =? TypeA) eqn:E4; zbool.
    + subst t. destruct (AResource_next p1 d l H1) as (p2 & -> & H2). rewrite (IH fuel p2 _ H2) by lia. cbn. by rewrite <- app_assoc.
    + rewrite (decide_False (P := t = TypeA)) by done. destruct (t =? TypeAAAA) eqn:E6; zbool.
      * subst t. destruct (AAAAResource_next p1 d l H1) as (p2 & -> & H2). rewrite (IH fuel p2 _ H2) by lia. cbn. by rewrite <- app_assoc.
      * rewrite decide_False by done. destruct (SkipAnswer_next p1 _ l H1) as (p2 & -> & H2). by rewrite (IH fuel p2 _ H2) by lia.
Qed.

(** ** Servers *)

(** The server gives an answer to the question: no error, and a record of the type. *)
Definition answers (d : Dialed) (q : Question) (l : list answer) : Prop :=
  exists p h, exchange d q = inr (p, h) /\ h_RCode h = RCodeSuccess /\ at_answers p l /\ datas (q_Type q) l <> [].

(** The server has to be given up: no response, or one that says nothing. *)
Definition gives_up (d : Dialed) (name server : list Z) (q : Question) : Prop :=
  exists err, try_server d name server q = inl err.

Lemma try_server_answers d name server q l :
  answers d q l -> exists p l', try_server d name server q = inr (p, None) /\ at_answers p l' /\ l' `suffix_of` l /\
    datas (q_Type q) l' = datas (q_Type q) l.
Proof.
  intros (p & h & E & Hc & Hp & Hne). unfold try_server. rewrite E. unfold checkHeader. rewrite Hc. cbn [RCodeSuccess RCodeNameError Z.eqb].
  destruct l as [|[t dt] l]; [done|]. destruct (AnswerHeader_next p t dt l Hp) as (p1 & -> & H1). rewrite andb_false_r. cbn [negb andb].
  unfold skipToAnswer. destruct (skip_loop_ok (q_Type q) _ (S (answers_left p1)) p1 H1) as (p2 & G & _).
  { rewrite (answers_left_spec _ _ H1). lia. }
  destruct (G Hne) as (-> & l' & A & B & C). by exists p2, l'.
Qed.

Lemma try_loop_found pre server d post name q l lastErr :
  Forall (fun x => gives_up x.2 name x.1 q) pre -> answers d q l ->
  exists p l', try_loop (pre ++ (server, d) :: post) name q lastErr = (p, server, None) /\ at_answers p l' /\ l' `suffix_of` l /\
    datas (q_Type q) l' = datas (q_Type q) l.
Proof.
  intros Hpre Ha. revert lastErr. induction Hpre as [|[s d'] pre [err Herr] _ IH]; intros lastErr; cbn [app try_loop].
  - destruct (try_server_answers d name server q l Ha) as (p & l' & -> & Hr). by exists p, l'.
  - cbn [fst snd] in Herr. rewrite Herr. apply IH.
Qed.

(** ** Lookups *)

(** What the question of type [qtype] about [host] gives: the addresses that the
    first server with an answer has, in a message without those of type [other], or
    nothing because it fails. *)
Definition lane (servers : list (list Z)) (dials : nat -> nat -> Dialed) (host : list Z) (qtype other : Z) (addrs : list (list Z)) : Prop :=
  let name := host ++ [DOT] in
  let q := mkQuestion name qtype ClassINET in
  (exists pre server d post l, NewName name = Some name /\ attempts servers dials = pre ++ (server, d) :: post /\
    Forall (fun x => gives_up x.2 name x.1 q) pre /\ answers d q l /\ datas other l = [] /\ addrs = datas qtype l) \/
  (addrs = [] /\ exists p server err, tryOneName servers dials name qtype = (p, server, Some err)).

Lemma datas_suffix t l l' : l' `suffix_of` l -> datas t l = [] -> datas t l' = [].
Proof.
  intros [k ->]. unfold datas. rewrite filter_app, fmap_app. by intros [_ ?]%app_eq_nil.
Qed.

(** What a lane adds to the addresses found. *)
Lemma collect_lane servers dials host qtype other addrs f :
  lane servers dials host qtype other addrs ->
  (qtype = TypeA /\ other = TypeAAAA -> exists err, collect host f (tryOneName servers dials (host ++ [DOT]) qtype) =
    mkFound (addrsV4 f ++ addrs) (addrsV6 f) err) /\
  (qtype = TypeAAAA /\ other = TypeA -> exists err, collect host f (tryOneName servers dials (host ++ [DOT]) qtype) =
    mkFound (addrsV4 f) (addrsV6 f ++ addrs) err).
Proof.
  intros [(pre & server & d & post & l & Hn & Ha & Hpre & Hans & Ho & ->)|(-> & p & server & err & ->)].
  - unfold tryOneName. rewrite Hn, Ha. destruct (try_loop_found _ server d post _ _ l None Hpre Hans) as (p & l' & -> & Hp & Hs & Hd).
    cbn [collect q_Type] in *. rewrite (collect_loop_ok host server l') by (try done; rewrite (answers_left_spec _ _ Hp); lia).
    pose proof (datas_suffix _ _ _ Hs Ho) as Ho'. split; intros [-> ->]; rewrite Ho', Hd, app_nil_r; by eexists.
  - cbn [collect]. rewrite !app_nil_r. split; intros _; destruct f as [? ? [?|]]; by eexists.
Qed.

Lemma digit_not_alpha c : is_digit c = true -> is_alpha c = false /\ c <> 45.
Proof. unfold is_digit, is_alpha. lia. Qed.

(** An IPv4 address has digits and dots only, so it is not a name. *)
Lemma numeric_not_name s : forall last partlen, Forall (fun c => c = DOT \/ is_digit c = true) s -> domain_loop s last partlen false = false.
Proof.
  induction s as [|c s IH]; intros last partlen Hs; cbn [domain_loop]; [by destruct (_ || _)|]. apply Forall_cons in Hs as [[->|Hc] Hs].
  - cbn [is_alpha is_digit]. cbn. destruct (_ || _); [done|]. destruct (_ || _); [done|]. by apply IH.
  - destruct (digit_not_alpha c Hc) as [-> Hne]. rewrite Hc. by apply IH.
Qed.

Lemma ipv4_loop_chars s : forall fields val n d ip, ipv4_loop s fields val n d = Some ip -> Forall (fun c => c = DOT \/ is_digit c = true) s.
Proof.
  induction s as [|c s IH]; intros fields val n d ip; cbn [ipv4_loop]; [constructor|]. destruct (is_digit c) eqn:Ed.
  - destruct (_ && _); [done|]. destruct (_ >? _); [done|]. intros E. constructor; [by right|by eapply IH].
  - destruct (c =? DOT) eqn:Ec; [|done]. zbool. destruct (_ || _); [done|]. intros E. constructor; [by left|by eapply IH].
Qed.

Lemma name_chars s : forall last partlen nn, domain_loop s last partlen nn = true -> COLON ∉ s /\ PERCENT ∉ s.
Proof.
  induction s as [|c s IH]; intros last partlen nn; cbn [domain_loop]; [split; apply not_elem_of_nil|]. rewrite !not_elem_of_cons.
  destruct (is_alpha c) eqn:Ea; [|destruct (is_digit c) eqn:Ed; [|destruct (c =? 45) eqn:Eh; [|destruct (c =? DOT) eqn:Et; [|done]]]].
  - intros E. destruct (IH _ _ _ E). unfold is_alpha in Ea. split; (split; [lia|done]).
  - intros E. destruct (IH _ _ _ E). unfold is_digit in Ed. split; (split; [lia|done]).
  - destruct (last =? DOT); [done|]. intros E. destruct (IH _ _ _ E). split; (split; [lia|done]).
  - destruct (_ || _); [done|]. destruct (_ || _); [done|]. intros E. destruct (IH _ _ _ E). split; (split; [lia|done]).
Qed.

(** A name is never taken for an address. *)
Lemma name_not_address host : isDomainName host = true -> host <> [] /\ ParseAddr (without_zone host) = None.
Proof.
  unfold isDomainName. destruct (_ || _ || _) eqn:E; [done|]. intros Hd. split; [by intros ->|]. destruct (name_chars _ _ _ _ Hd) as [Hc Hp].
  unfold without_zone. replace (Contains host COLON) with false.
  - unfold ParseAddr. destruct (addr_kind host =? DOT).
    + unfold parseIPv4. destruct (ipv4_loop host [] 0 0 true) as [ip|] eqn:E4; [|done].
      rewrite (numeric_not_name _ _ _ (ipv4_loop_chars _ _ _ _ _ _ E4)) in Hd. done.
    + destruct (addr_kind host =? COLON) eqn:Ek; [|done]. zbool. exfalso. apply Hc. clear -Ek. induction host as [|c s IH]; [done|].
      cbn [addr_kind] in Ek. destruct (_ || _); [subst c; left|right; by apply IH].
  - symmetry. unfold Contains. apply not_true_is_false. intros (x & Hx & Ex)%existsb_exists. zbool. subst x. apply Hc. by apply list_elem_of_In.
Qed.

(** The addresses of a lookup, IPv6 first. *)
Definition found (hasV4 hasV6 : bool) (a4 a6 : list (list Z)) : list (list Z) := (if hasV6 then a6 else []) ++ (if hasV4 then a4 else []).

(** A lookup of a name gives the addresses that the first servers with an answer
    have, those of IPv6 first, whichever of the two questions is answered first. If
    one question fails, the addresses of the other family are still found. *)
Lemma lookup_lanes hasV4 hasV6 servers dials4 dials6 v6first host a4 a6 :
  isDomainName host = true -> lane servers dials4 host TypeA TypeAAAA a4 -> lane servers dials6 host TypeAAAA TypeA a6 ->
  found hasV4 hasV6 a4 a6 <> [] ->
  LookupContextHost hasV4 hasV6 servers dials4 dials6 v6first host = inr (map (fun ip => Addr_String ip []) (found hasV4 hasV6 a4 a6)).
Proof.
  intros Hd H4 H6 Hne. destruct (name_not_address _ Hd) as [Hh Hl]. unfold LookupContextHost. rewrite Hl, Hd. cbn [negb].
  rewrite bool_decide_eq_false_2 by done. destruct (negb hasV6 && negb hasV4) eqn:E; [by destruct hasV4, hasV6|]. cbn [orb].
  assert (forall f, exists err, collect host f (tryOneName servers dials4 (host ++ [DOT]) TypeA) = mkFound (addrsV4 f ++ a4) (addrsV6 f) err) as C4
    by (intros f; by apply (collect_lane _ _ _ _ _ _ f H4)).
  assert (forall f, exists err, collect host f (tryOneName servers dials6 (host ++ [DOT]) TypeAAAA) = mkFound (addrsV4 f) (addrsV6 f ++ a6) err) as C6
    by (intros f; by apply (collect_lane _ _ _ _ _ _ f H6)).
  set (f := foldl _ _ _).
  assert (exists err, f = mkFound (if hasV4 then a4 else []) (if hasV6 then a6 else []) err) as [err Hf].
  { unfold f. destruct hasV4, hasV6, v6first; try done; cbn [app foldl].
    - destruct (C6 (mkFound [] [] None)) as [e1 ->]. destruct (C4 (mkFound [] a6 e1)) as [e2 E2]. exists e2. exact E2.
    - destruct (C4 (mkFound [] [] None)) as [e1 ->]. destruct (C6 (mkFound a4 [] e1)) as [e2 E2]. exists e2. exact E2.
    - apply (C4 (mkFound [] [] None)).
    - apply (C4 (mkFound [] [] None)).
    - apply (C6 (mkFound [] [] None)).
    - apply (C6 (mkFound [] [] None)). }
  rewrite Hf. cbn [addrsV4 addrsV6 f_lastErr]. unfold found in *. destruct hasV6; cbn [app] in *.
  - destruct (a6 ++ _); [done|]. by destruct err.
  - rewrite app_nil_r. destruct (if hasV4 then a4 else []); [done|]. by destruct err.
Qed.

(** ** Names that end in a dot *)

Lemma exchange_empty_label d q a b : q_Name q = a ++ [DOT; DOT] ++ b -> exchange d q = inl errCannotMarshalDNSMessage.
Proof.
  intros Hn. unfold exchange, newRequest. rewrite (query_empty_label _ (mkQuestion (q_Name q) (q_Type q) ClassINET) a b) by done. done.
Qed.

Lemma try_loop_empty_label l name q a b lastErr :
  q_Name q = a ++ [DOT; DOT] ++ b -> exists err, try_loop l name q lastErr = (no_parser, [], err) /\ (l = [] -> err = lastErr) /\ (l <> [] -> is_Some err).
Proof.
  intros Hn. revert lastErr. induction l as [|[server d] l IH]; intros lastErr; cbn [try_loop]; [by exists lastErr|].
  unfold try_server. rewrite (exchange_empty_label d q a b Hn). destruct (IH (Some (dns_error
    (mkDNSError (Error errCannotMarshalDNSMessage) name server false false false)))) as (err & E & E0 & E1).
  exists err. split; [exact E|]. split; [done|]. intros _. destruct l; [by rewrite E0|by apply E1].
Qed.

(** Nothing comes of such a question. *)
Lemma collect_empty_label servers dials host name qtype a b f :
  name = a ++ [DOT; DOT] ++ b ->
  exists err, collect host f (tryOneName servers dials name qtype) = mkFound (addrsV4 f) (addrsV6 f) (Some err).
Proof.
  intros Hn. unfold tryOneName. destruct (NewName name) as [n|] eqn:En.
  - apply NewName_same in En. subst n.
    destruct (try_loop_empty_label (attempts servers dials) name (mkQuestion name qtype ClassINET) a b None Hn) as (err & -> & _).
    cbn [collect]. destruct err as [err|].
    + destruct f as [? ? [?|]]; by eexists.
    + cbn [collect_loop]. destruct no_parser_header as [p ->]. by eexists.
  - cbn [collect]. destruct f as [? ? [?|]]; by eexists.
Qed.

Lemma lookup_rooted hasV4 hasV6 servers dials4 dials6 v6first host :
  isDomainName (host ++ [DOT]) = true ->
  exists err, LookupContextHost hasV4 hasV6 servers dials4 dials6 v6first (host ++ [DOT]) = inl err.
Proof.
  intros Hd. destruct (name_not_address _ Hd) as [Hh Hl]. unfold LookupContextHost. rewrite Hl, Hd. cbn [negb].
  rewrite bool_decide_eq_false_2 by done. destruct (negb hasV6 && negb hasV4) eqn:E; [by eexists|]. cbn [orb].
  assert (forall dials qtype f, exists err, collect (host ++ [DOT]) f (tryOneName servers dials ((host ++ [DOT]) ++ [DOT]) qtype) =
    mkFound (addrsV4 f) (addrsV6 f) (Some err)) as C.
  { intros. apply (collect_empty_label _ _ _ _ _ host []). by rewrite <- app_assoc. }
  set (f := foldl _ _ _). assert (exists err, f = mkFound [] [] (Some err)) as [err ->]; [|cbn; by destruct hasV6; eexists].
  unfold f. destruct hasV4, hasV6, v6first; try done; cbn [app foldl].
  - destruct (C dials6 TypeAAAA (mkFound [] [] None)) as [e1 ->]. apply (C dials4 TypeA (mkFound [] [] (Some e1))).
  - destruct (C dials4 TypeA (mkFound [] [] None)) as [e1 ->]. apply (C dials6 TypeAAAA (mkFound [] [] (Some e1))).
  - apply (C dials4 TypeA (mkFound [] [] None)).
  - apply (C dials4 TypeA (mkFound [] [] None)).
  - apply (C dials6 TypeAAAA (mkFound [] [] None)).
  - apply (C dials6 TypeAAAA (mkFound [] [] None)).
Qed.

End resolver.

(** ** Which strings are names *)

Definition label_char (c : Z) : bool := is_alpha c || is_digit c || (c =? 45).

Definition nonnumeric (c : Z) : bool := is_alpha c || (c =? 45).

(** A label: up to 63 letters, digits, underscores and hyphens, no hyphen at the
    ends. *)
Definition is_label (w : list Z) : Prop :=
  1 <= zlen w <= 63 /\ Forall (fun c => label_char c = true) w /\ head w <> Some 45 /\ List.last w 0 <> 45.

(** The labels of a name; the last may be empty. *)
Fixpoint labels_ok (ls : list (list Z)) : Prop :=
  match ls with
  | [] => False
  | [w] => w = [] \/ is_label w
  | w :: ls => is_label w /\ labels_ok ls
  end.

Lemma name_bytes s : forall last partlen nn, domain_loop s last partlen nn = true -> Forall (fun c => label_char c = true \/ c = DOT) s.
Proof.
  induction s as [|c s IH]; intros last partlen nn; cbn [domain_loop]; [constructor|]. unfold label_char.
  destruct (is_alpha c) eqn:Ea; [|destruct (is_digit c) eqn:Ed; [|destruct (c =? 45) eqn:Eh; [|destruct (c =? DOT) eqn:Et; [|done]]]].
  - intros E. constructor; [by rewrite Ea; left|by eapply IH].
  - intros E. constructor; [by rewrite Ed, orb_true_r; left|by eapply IH].
  - destruct (last =? DOT); [done|]. intros E. constructor; [by rewrite Eh, orb_true_r; left|by eapply IH].
  - destruct (_ || _); [done|]. destruct (_ || _); [done|]. intros E. constructor; [right; lia|by eapply IH].
Qed.

Lemma domain_name_bytes s : isDomainName s = true -> Forall (fun c => label_char c = true \/ c = DOT) s.
Proof. unfold isDomainName. destruct (_ || _ || _); [done|]. apply name_bytes. Qed.

Lemma labels_head w ls : labels_ok (w :: ls) -> w <> [] -> is_label w.
Proof. destruct ls; [by intros [?|?]|by intros [? _]]. Qed.

Lemma last_default (w : list Z) a b : w <> [] -> List.last w a = List.last w b.
Proof. induction w as [|c [|d w] IH]; intros Hw; [done|done|]. by apply IH. Qed.

Lemma last_in_label w : w <> [] -> Forall (fun c => label_char c = true) w -> List.last w DOT <> DOT.
Proof.
  intros Hw Hc. destruct (exists_last Hw) as (w' & c & ->). rewrite last_last. apply Forall_app in Hc as [_ Hc].
  apply Forall_cons in Hc as [Hc _]. by intros ->.
Qed.

(** Reading a label that started with [w]. *)
Definition reading (w s : list Z) : list (list Z) :=
  match Split DOT s with
  | x :: xs => (w ++ x) :: xs
  | [] => [w]
  end.

Lemma reading_char w c s : c <> DOT -> reading w (c :: s) = reading (w ++ [c]) s.
Proof.
  intros Hc. unfold reading. cbn [Split]. rewrite (proj2 (Z.eqb_neq c DOT)) by done.
  destruct (Split DOT s) as [|x xs] eqn:E; [by apply Split_nonempty in E|]. by rewrite <- app_assoc.
Qed.

Lemma reading_dot w s : reading w (DOT :: s) = w :: Split DOT s.
Proof. unfold reading. cbn [Split]. by rewrite Z.eqb_refl, app_nil_r. Qed.

Lemma reading_start s : reading [] s = Split DOT s.
Proof. unfold reading. destruct (Split DOT s) eqn:E; [by apply Split_nonempty in E|done]. Qed.

(** What is left to check at the end of a label. *)
Lemma is_label_started a w :
  Forall (fun c => label_char c = true) (a :: w) -> head (a :: w) <> Some 45 ->
  is_label (a :: w) <-> List.last (a :: w) 0 <> 45 /\ zlen (a :: w) <= 63.
Proof.
  intros Hw Hh. unfold is_label. assert (1 <= zlen (a :: w)) by (unfold zlen; cbn [length]; lia).
  split; [intros ((? & ?) & _ & _ & ?)|intros (? & ?)]; by split_and!.
Qed.

(** A byte that a label cannot have. *)
Lemma reading_bad w s : (exists c, c ∈ w /\ label_char c = false) \/ head w = Some 45 -> ~ labels_ok (reading w s).
Proof.
  intros Hw Hl. assert (w <> []) as Hne by (destruct Hw as [(c & Hc & _)|Hh]; intros ->; [by apply not_elem_of_nil in Hc|done]).
  unfold reading in Hl. destruct (Split DOT s) as [|x xs]; apply labels_head in Hl as (_ & Hc & Hh & _); [..|by destruct w]; try done.
  - destruct Hw as [(c & Hin & Hbad)|?]; [|done]. rewrite Forall_forall in Hc. specialize (Hc c Hin). congruence.
  - destruct Hw as [(c & Hin & Hbad)|Hd]; [|by destruct w]. rewrite Forall_forall in Hc. specialize (Hc c ltac:(apply elem_of_app; by left)). congruence.
Qed.

Lemma domain_loop_labels s : forall w nn,
  Forall (fun c => label_char c = true) w -> head w <> Some 45 ->
  domain_loop s (List.last w DOT) (zlen w) nn = true <-> labels_ok (reading w s) /\ nn || existsb nonnumeric s = true.
Proof.
  induction s as [|c s IH]; intros w nn Hw Hh; cbn [domain_loop existsb].
  - unfold reading. cbn [Split labels_ok]. rewrite app_nil_r, orb_false_r. destruct w as [|a w].
    + cbn. destruct nn; naive_solver.
    + rewrite (last_default _ DOT 0) by done.
      rewrite (is_label_started a w Hw Hh). destruct (_ || _) eqn:E; zbool.
      * split; [done|]. intros [[?|[? ?]] _]; [done|lia].
      * split; [intros ->; split; [right; split; [done|lia]|done]|by intros [_ ?]].
  - assert (label_char c = true -> (w = [] -> c <> 45) -> forall nn',
      domain_loop s c (zlen w + 1) nn' = true <-> labels_ok (reading (w ++ [c]) s) /\ nn' || existsb nonnumeric s = true) as Hstep.
    { intros Hc H45 nn'. rewrite <- (IH (w ++ [c]) nn').
      - rewrite last_last, zlen_app. done.
      - apply Forall_app. by repeat constructor.
      - destruct w; [|done]. intros [= ->]. by apply H45. }
    destruct (is_alpha c) eqn:Ea; [|destruct (is_digit c) eqn:Ed; [|destruct (c =? 45) eqn:Eh; [|destruct (c =? DOT) eqn:Et]]]; zbool.
    + rewrite reading_char by (unfold is_alpha in Ea; lia). rewrite Hstep by (unfold label_char, is_alpha in *; lia).
      unfold nonnumeric. rewrite Ea. by rewrite orb_true_r.
    + rewrite reading_char by (unfold is_digit in Ed; lia). rewrite Hstep by (unfold label_char, is_digit in *; lia).
      unfold nonnumeric. rewrite Ea. destruct (digit_not_alpha c Ed) as [_ Hne]. by rewrite (proj2 (Z.eqb_neq c 45)) by done.
    + subst c. rewrite reading_char by done. destruct w as [|a w].
      * cbn [List.last]. split; [done|]. intros [Hl _]. exfalso. revert Hl. apply reading_bad. by right.
      * rewrite (proj2 (Z.eqb_neq _ DOT)) by (by apply last_in_label). rewrite Hstep by done. cbn. by rewrite orb_true_r.
    + subst c. rewrite reading_dot. destruct w as [|a w].
      * cbn [List.last]. split; [done|]. intros [Hl _]. exfalso. destruct (Split DOT s) eqn:E; [by apply Split_nonempty in E|].
        destruct Hl as [[[Hl _] _] _]. unfold zlen in Hl. simpl in Hl. lia.
      * rewrite (proj2 (Z.eqb_neq _ DOT)) by (by apply last_in_label). cbn [orb]. rewrite (last_default _ DOT 0) by done.
        specialize (IH [] nn (List.Forall_nil _) ltac:(done)). cbn [List.last] in IH. change (zlen []) with 0 in IH. rewrite reading_start in IH.
        assert (1 <= zlen (a :: w)) by (unfold zlen; cbn [length]; lia). change (nonnumeric DOT) with false. cbn [orb].
        assert (labels_ok ((a :: w) :: Split DOT s) <-> is_label (a :: w) /\ labels_ok (Split DOT s)) as ->.
        { destruct (Split DOT s) eqn:E; [by apply Split_nonempty in E|done]. }
        rewrite (is_label_started a w Hw Hh). destruct (List.last (a :: w) 0 =? 45) eqn:E1; zbool; [by split; [|intros [[[] _] _]]|].
        destruct ((zlen (a :: w) >? 63) || _) eqn:E2; zbool; [split; [done|intros [[[_ ?] _] _]; lia]|]. rewrite IH. split; [intros [? ?]|intros [[_ ?] ?]]; [|done].
        split; [|done]. split; [|done]. split; [done|lia].
    + rewrite reading_char by done. split; [done|]. intros [Hl _]. exfalso. revert Hl. apply reading_bad. left. exists c.
      split; [apply elem_of_app; right; left|]. unfold label_char. rewrite Ea, Ed. lia.
Qed.

(** [isDomainName] accepts exactly the names that fit a DNS message: at most 253
    bytes, and a dot at the end besides; labels of 1 to 63 letters, digits,
    underscores and hyphens without a hyphen at the ends; and something that is not
    a number. *)
Theorem isDomainName_labels s :
  isDomainName s = true <->
  1 <= zlen s <= 254 /\ (zlen s = 254 -> List.last s 0 = DOT) /\ labels_ok (Split DOT s) /\ existsb nonnumeric s = true.
Proof.
  unfold isDomainName. pose proof (domain_loop_labels s [] false (List.Forall_nil _) ltac:(done)) as Hd.
  cbn [List.last] in Hd. change (zlen []) with 0 in Hd. rewrite reading_start in Hd. cbn [orb] in Hd. pose proof (zlen_nonneg s).
  destruct (_ || _) eqn:E.
  - split; [done|]. intros (H1 & H2 & _). exfalso. apply orb_prop in E as [E|E]; [zbool; lia|].
    apply andb_prop in E as [E1 E2]. zbool. by apply E2, H2.
  - rewrite Hd. apply orb_false_iff in E as [E1 E2]. split; [intros [? ?]|naive_solver]. split_and!; try done; [lia..|].
    intros E. apply andb_false_iff in E2 as [E2|E2]; [lia|]. apply negb_false_iff, bool_decide_eq_true in E2. done.
Qed.

(** C16: the answer of an exchange is a message that arrived on one of its connections,
    says it is a response, has the random identifier of the request, asks the question
    that was asked, up to case, and no other, and is complete. A datagram without
    these properties makes no difference, whenever it arrives. *)
Theorem exchange_authentic `{Dns} d q :
  (forall p h, exchange d q = inr (p, h) ->
    exists b p0 q' p1, arrives d b /\ Start b = Some (p0, h) /\ ParseQuestion p0 = (item q', p1) /\ SkipQuestion p1 = (section_done, p) /\
      h_Response h = true /\ h_ID h = randU16 (d_rand d) /\ h_Truncated h = false /\
      q_Type q' = q_Type q /\ q_Class q' = ClassINET /\ map lower (q_Name q') = map lower (q_Name q)) /\
  (forall c l x l', d_udp d = inr c -> c_reads c = l ++ x :: l' -> response_to (randU16 (d_rand d)) (asked q) (take 512 x) = None ->
    exchange d q = exchange (mkDialed (d_rand d) (inr (mkDnsConn (c_SetDeadline c) (c_Write c) (l ++ l') (c_end c))) (d_tcp d)) q).
Proof.
  split; [|intros; by eapply exchange_skips]. intros p h E. destruct (exchange_response d q p h E) as (b & p1 & Hb & Hr & Hs & Ht).
  destruct (response_matches _ _ _ _ _ Hr) as (p0 & q' & H1 & H2 & H3 & H4 & H5 & H6 & H7). by exists b, p0, q', p1.
Qed.

(** C37: a name that ends in a dot is a valid name, but a lookup of it always fails: a
    second dot is appended, and no message can be built for the empty label. *)
Theorem rooted_name_fails `{DnsLaws} hasV4 hasV6 servers dials4 dials6 v6first host :
  isDomainName (host ++ [DOT]) = true ->
  exists err, LookupContextHost hasV4 hasV6 servers dials4 dials6 v6first (host ++ [DOT]) = inl err.
Proof. apply lookup_rooted. Qed.

(** ** An instance: messages without compressed names *)

(** A name: its labels, each followed by a dot. A pointer ends the name. *)
Fixpoint wire_name (fuel : nat) (b : list Z) : option (list Z * list Z) :=
  match fuel with
  | O => None
  | S fuel =>
      match b with
      | [] => None
      | n :: b =>
          if n =? 0 then Some ([], b)
          else if n >=? 192 then Some ([], drop 1 b)
          else if zlen b <? n then None
          else '(rest, b') ← wire_name fuel (drop (Z.to_nat n) b); Some (take (Z.to_nat n) b ++ [DOT] ++ rest, b')
      end
  end.

Definition wire_question (b : list Z) : option (Question * list Z) :=
  '(name, b) ← wire_name (length b) b;
  if zlen b <? 4 then None else Some (mkQuestion name (be_uint (take 2 b)) (be_uint (take 2 (drop 2 b))), drop 4 b).

(** The type and the data of a record. *)
Definition wire_record (b : list Z) : option (answer * list Z) :=
  '(_, b) ← wire_name (length b) b;
  let n := Z.to_nat (be_uint (take 2 (drop 8 b))) in
  if zlen b <? 10 + Z.of_nat n then None else Some ((be_uint (take 2 b), take n (drop 10 b)), drop (10 + n) b).

Fixpoint wire_items {A} (parse : list Z -> option (A * list Z)) (n : nat) (b : list Z) : option (list A * list Z) :=
  match n with
  | O => Some ([], b)
  | S n => '(a, b) ← parse b; '(l, b) ← wire_items parse n b; Some (a :: l, b)
  end.

Definition wire_header (b : list Z) : Header :=
  let bits := be_uint (take 2 (drop 2 b)) in
  mkHeader (be_uint (take 2 b)) (Z.testbit bits 15) (Z.testbit bits 10) (Z.testbit bits 9) (Z.testbit bits 7) (bits mod 16).

(** Two dots in a row. *)
Fixpoint empty_label (s : list Z) : bool :=
  match s with
  | c :: s => (c =? DOT) && bool_decide (head s = Some DOT) || empty_label s
  | [] => false
  end.

(** The parser holds the questions and the answers that are left. *)
#[local] Instance wire : Dns := {|
  Parser := option (list Question * list answer);
  no_parser := None;
  Start b :=
    if zlen b <? 12 then None
    else
      '(qs, b') ← wire_items wire_question (Z.to_nat (be_uint (take 2 (drop 4 b)))) (drop 12 b);
      '(rs, _) ← wire_items wire_record (Z.to_nat (be_uint (take 2 (drop 6 b)))) b';
      Some (Some (qs, rs), wire_header b);
  ParseQuestion p := match p with Some (q :: qs, rs) => (item q, Some (qs, rs)) | Some ([], _) => (section_done, p) | None => (malformed, p) end;
  SkipQuestion p := match p with Some (_ :: qs, rs) => (item tt, Some (qs, rs)) | Some ([], _) => (section_done, p) | None => (malformed, p) end;
  AnswerHeader p := match p with Some ([], (t, _) :: _) => (item t, p) | Some ([], []) => (section_done, p) | _ => (malformed, p) end;
  SkipAnswer p := match p with Some ([], _ :: rs) => (true, Some ([], rs)) | _ => (false, p) end;
  AResource p := match p with Some ([], (1, d) :: rs) => (Some d, Some ([], rs)) | _ => (None, p) end;
  AAAAResource p := match p with Some ([], (28, d) :: rs) => (Some d, Some ([], rs)) | _ => (None, p) end;
  NewName name := if zlen name >? 255 then None else Some name;
  query id q :=
    if empty_label (q_Name q) then None
    else Some (be_put 2 id ++ [1; 0; 0; 1; 0; 0; 0; 0; 0; 0] ++
               concat (map (fun w => u8 (zlen w) :: w) (Split DOT (q_Name q))) ++ be_put 2 (q_Type q) ++ be_put 2 (q_Class q));
  answers_left p := match p with Some (_, rs) => length rs | None => 0%nat end
|}.

Lemma empty_label_dots a b : empty_label (a ++ [DOT; DOT] ++ b) = true.
Proof. induction a as [|c a IH]; [done|]. cbn [app empty_label]. change (a ++ DOT :: DOT :: b) with (a ++ [DOT; DOT] ++ b). by rewrite IH, orb_true_r. Qed.

#[local] Instance wire_laws : DnsLaws.
Proof.
  refine {| at_answers p l := p = Some ([], l) |}; try (intros; subst; by eexists); try (by intros ? ? ->).
  - intros name n. cbn. destruct (_ >? _); congruence.
  - intros id q a b E. cbn. by rewrite E, empty_label_dots.
Defined.

(** ** Examples *)

Definition sample_host : list Z := Eval vm_compute in lit "tv.example".

Definition sample_question (qtype : Z) : Question := mkQuestion (sample_host ++ [DOT]) qtype ClassINET.

(** A response with the flags for a response and available recursion. *)
Definition sample_reply (id : Z) (q : Question) (rs : list answer) : list Z :=
  be_put 2 id ++ [129; 128; 0; 1] ++ be_put 2 (zlen rs) ++ [0; 0; 0; 0] ++
  concat (map (fun w => zlen w :: w) (Split DOT (q_Name q))) ++ be_put 2 (q_Type q) ++ be_put 2 (q_Class q) ++
  concat (map (fun r => [192; 12] ++ be_put 2 r.1 ++ [0; 1; 0; 0; 1; 0] ++ be_put 2 (zlen r.2) ++ r.2) rs).

Definition io_timeout : error := stack_error [] true true.

(** A server that sends the datagrams. *)
Definition sample_server (reads : list (list Z)) : Dialed :=
  mkDialed [1; 2] (inr (mkDnsConn None None reads io_timeout)) (inl io_timeout).

(** A forged response with a wrong identifier, and the right one: an alias and an
    address. *)
Definition sample_reads : list (list Z) := Eval vm_compute in
  [sample_reply 7 (sample_question TypeA) [(TypeA, [6; 6; 6; 6])];
   sample_reply 513 (sample_question TypeA) [(5, [0]); (TypeA, [192; 0; 2; 5])]].

(** The first server is silent. *)
Definition sample_dials (_ j : nat) : Dialed := if decide (j = 0%nat) then sample_server [] else sample_server sample_reads.

Definition sample_servers : list (list Z) := Eval vm_compute in [lit "10.0.0.1"; lit "10.0.0.2"].

Lemma exchange_authentic_witness :
  exchange (sample_server sample_reads) (sample_question TypeA) =
    exchange (sample_server (drop 1 sample_reads)) (sample_question TypeA) /\
  exists b p0, arrives (sample_server sample_reads) b /\ Start b = Some (p0, mkHeader 513 true false false true 0).
Proof.
  destruct (exchange_authentic (sample_server sample_reads) (sample_question TypeA)) as [Hans Hskip]. split.
  - apply (Hskip _ [] (hd [] sample_reads) (drop 1 sample_reads) eq_refl eq_refl). vm_compute. reflexivity.
  - destruct (Hans (Some ([], [(5, [0]); (TypeA, [192; 0; 2; 5])])) (mkHeader 513 true false false true 0)) as (b & p0 & q' & p1 & Hb & Hs & _).
    + vm_compute. reflexivity.
    + by exists b, p0.
Defined.

Lemma sample_lane4 : lane sample_servers sample_dials sample_host TypeA TypeAAAA [[192; 0; 2; 5]].
Proof.
  left. exists (take 1 (attempts sample_servers sample_dials)), (lit "10.0.0.2"), (sample_server sample_reads),
    (drop 2 (attempts sample_servers sample_dials)), [(5, [0]); (TypeA, [192; 0; 2; 5])].
  split_and!; try (vm_compute; reflexivity).
  - constructor; [|constructor]. eexists. vm_compute. reflexivity.
  - eexists _, _. split; [vm_compute; reflexivity|]. split; [reflexivity|]. split; [reflexivity|]. done.
Qed.

Lemma sample_lane6 : lane sample_servers (fun _ _ => sample_server []) sample_host TypeAAAA TypeA [].
Proof. right. split; [done|]. eexists _, _, _. vm_compute. reflexivity. Qed.

(** The silent server, the forged response and the lost question about IPv6 do not
    matter. *)
Lemma sample_lookup :
  LookupContextHost true true sample_servers sample_dials (fun _ _ => sample_server []) false sample_host = inr [lit "192.0.2.5"].
Proof.
  rewrite (lookup_lanes true true sample_servers sample_dials (fun _ _ => sample_server []) false sample_host [[192; 0; 2; 5]] []);
    [vm_compute; reflexivity|vm_compute; reflexivity|apply sample_lane4|apply sample_lane6|done].
Qed.

Lemma rooted_name_fails_witness :
  exists err, LookupContextHost true true sample_servers sample_dials sample_dials true (sample_host ++ [DOT]) = inl err.
Proof. apply rooted_name_fails. vm_compute. reflexivity. Defined.
