(* ===== verification/Netstack.v ===== *)
(** * The user-space network stack (src/wireguard-go/tun/netstack/tun.go)

    The TUN device of a program that brings its own network stack, and dialing
    through it: addresses for the stack, ping sockets, and connections to the
    addresses of a host within a deadline. Name resolution is [Resolver]. The stack
    of gvisor.dev is a parameter. *)

From Stdlib Require Import String.
From stdpp Require Import base numbers list.
From S2P Require Import Prelude Setters GoStrings AllowedIPs Netip Slices Control Bind GoText Resolver.

Open Scope Z_scope.

(** ** The device *)

Definition IPv4ProtocolNumber : Z := 2048.

Definition IPv6ProtocolNumber : Z := 34525.

(** The queue of the channel endpoint, the packets whose sender waits for a reader,
    the events, and whether the channels are open. *)
Record netTun := mkNetTun {
  nt_queue : list (list Z);
  incomingPacket : list (list Z);
  events : list bool;
  nt_open : bool;
  mtu : Z;
  dnsServers : list (list Z);
  hasV4 : bool;
  hasV6 : bool
}.

#[export] Instance eta_netTun : Settable netTun := fun r =>
  mkNetTun (nt_queue r) (incomingPacket r) (events r) (nt_open r) (mtu r) (dnsServers r) (hasV4 r) (hasV6 r).

(** What [CreateNetTUN] asks the stack for: an address with its protocol, and a
    route for a family. *)
Inductive stack_call :=
| AddProtocolAddress (protocol : Z) (addr : list Z)
| AddRoute (v6 : bool).

(** The loop over the local addresses; [add_error] are the errors of the stack.
    The error is the address it is about. *)
Fixpoint add_addresses (add_error : Z -> list Z -> bool) (addrs : list (list Z)) (dev : netTun) :
    list stack_call * (list Z + netTun) :=
  match addrs with
  | [] => ([], inr dev)
  | ip :: addrs =>
      let protocol := if Is4 ip then IPv4ProtocolNumber else if Is6 ip then IPv6ProtocolNumber else 0 in
      let call := AddProtocolAddress protocol ip in
      if add_error protocol ip then ([call], inl ip)
      else
        let dev := if Is4 ip then dev <| hasV4 := true |> else if Is6 ip then dev <| hasV6 := true |> else dev in
        let '(calls, r) := add_addresses add_error addrs dev in
        (call :: calls, r)
  end.

(** [CreateNetTUN] after the stack is made and has its interface. [true] is
    [EventUp]. *)
Definition CreateNetTUN (add_error : Z -> list Z -> bool) (localAddresses servers : list (list Z)) (mtu_ : Z) :
    list stack_call * (list Z + netTun) :=
  let '(calls, r) := add_addresses add_error localAddresses (mkNetTun [] [] [] true mtu_ servers false false) in
  match r with
  | inl ip => (calls, inl ip)
  | inr dev =>
      (calls ++ (if hasV4 dev then [AddRoute false] else []) ++ (if hasV6 dev then [AddRoute true] else []),
       inr (dev <| events := [true] |>))
  end.

(** [Write]: the packets handed to the stack with their protocol, and the result;
    [None] inside is [EAFNOSUPPORT]. *)
Fixpoint write_packets (bufs : list (list Z)) (offset : nat) : option (list (Z * list Z) * bool) :=
  match bufs with
  | [] => Some ([], true)
  | buf :: bufs =>
      if decide (offset <= length buf)%nat then
        match drop offset buf with
        | [] => write_packets bufs offset
        | b :: _ as packet =>
            let version := Z.shiftr b 4 in
            if version =? 4 then '(l, ok) ← write_packets bufs offset; Some ((IPv4ProtocolNumber, packet) :: l, ok)
            else if version =? 6 then '(l, ok) ← write_packets bufs offset; Some ((IPv6ProtocolNumber, packet) :: l, ok)
            else Some ([], false)
        end
      else None
  end.

Definition net_Write (bufs : list (list Z)) (offset : nat) : option (list (Z * list Z) * option Z) :=
  '(l, ok) ← write_packets bufs offset; Some (l, if ok : bool then Some (zlen bufs) else None).

(** [WriteNotify]: a packet leaves the endpoint, and its sender waits for a reader.
    Sending on a closed channel panics. *)
Definition WriteNotify (dev : netTun) : option netTun :=
  match nt_queue dev with
  | [] => Some dev
  | pkt :: rest =>
      if nt_open dev then Some (dev <| nt_queue := rest |> <| incomingPacket := incomingPacket dev ++ [pkt] |>) else None
  end.

(** The stack emits a packet: the endpoint queues it and notifies. *)
Definition emit (pkt : list Z) (dev : netTun) : option netTun := WriteNotify (dev <| nt_queue := nt_queue dev ++ [pkt] |>).

(** [Read] into a buffer with [room] bytes after the offset: it blocks without a
    packet, unless the channel is closed. *)
Inductive read_result :=
| read_blocks
| read_closed
| read_packet (data : list Z).

Definition net_Read (room : nat) (dev : netTun) : netTun * read_result :=
  match incomingPacket dev with
  | view :: rest => (dev <| incomingPacket := rest |>, read_packet (take room view))
  | [] => (dev, if nt_open dev then read_blocks else read_closed)
  end.

(** [Close]: closing a closed channel panics, and so does a sender that waits on
    the channel. *)
Definition net_Close (dev : netTun) : option netTun :=
  if nt_open dev then match incomingPacket dev with [] => Some (dev <| nt_open := false |>) | _ => None end else None.

(** ** Addresses *)

(** [tcpip.FullAddress] *)
Record FullAddress := mkFullAddress { fa_NIC : Z; fa_Addr : list Z; fa_Port : Z }.

(** An [AddrPort]; the empty list is the invalid address. *)
Notation IsValid a := (bool_decide (a <> [])).

Definition no_addr : AddrPort := mkAddrPort [] [] 0.

Definition convertToFullAddr (ap : AddrPort) : FullAddress * Z :=
  (mkFullAddress 1 (ap_addr ap) (ap_port ap), if Is4 (ap_addr ap) then IPv4ProtocolNumber else IPv6ProtocolNumber).

(** [netip.AddrFromSlice] *)
Definition AddrFromSlice (ip : list Z) : list Z := if Is4 ip || Is6 ip then ip else [].

(** [*net.TCPAddr] and [*net.UDPAddr]: an IP and a port, or nil *)
Definition addr_of (addr : option (list Z * Z)) : AddrPort :=
  match addr with
  | None => no_addr
  | Some (ip, port) => mkAddrPort (AddrFromSlice ip) [] (u16 port)
  end.

(** ** The stack *)

(** Calls of the stack, numbered: they give an error or a connection. A deadline is
    that of the context. *)
Class Stack := {
  gonet_DialContextTCP : nat -> option Z -> FullAddress -> Z -> error + Z;
  gonet_ListenTCP : nat -> FullAddress -> Z -> error + Z;
  gonet_DialUDP : nat -> option FullAddress -> option FullAddress -> Z -> error + Z;
  NewEndpoint : nat -> Z -> Z -> error + Z;
  ep_Bind : nat -> Z -> FullAddress -> option error;
  ep_Connect : nat -> Z -> FullAddress -> option error;
  ep_Write : nat -> Z -> list Z -> FullAddress -> error + Z;
  ep_Read : nat -> Z -> error + (list Z * list Z)
}.

Definition ICMPv4ProtocolNumber : Z := 1.

Definition ICMPv6ProtocolNumber : Z := 58.

Record PingConn := mkPingConn { pc_laddr : list Z; pc_raddr : list Z; pc_ep : Z }.

Section stack.
Context `{Stack} (k : nat).

Definition DialContextTCPAddrPort (deadline : option Z) (addr : AddrPort) : error + Z :=
  let '(fa, pn) := convertToFullAddr addr in gonet_DialContextTCP k deadline fa pn.

Definition DialContextTCP (deadline : option Z) (addr : option (list Z * Z)) : error + Z :=
  DialContextTCPAddrPort deadline (addr_of addr).

Definition ListenTCPAddrPort (addr : AddrPort) : error + Z := let '(fa, pn) := convertToFullAddr addr in gonet_ListenTCP k fa pn.

Definition ListenTCP (addr : option (list Z * Z)) : error + Z := ListenTCPAddrPort (addr_of addr).

(** The protocol is that of the remote address, if there is one. *)
Definition DialUDPAddrPort (laddr raddr : AddrPort) : error + Z :=
  let '(lfa, pn) := if IsValid (ap_addr laddr) || (ap_port laddr >? 0)
                    then let '(fa, pn) := convertToFullAddr laddr in (Some fa, pn) else (None, 0) in
  let '(rfa, pn) := if IsValid (ap_addr raddr) || (ap_port raddr >? 0)
                    then let '(fa, pn) := convertToFullAddr raddr in (Some fa, pn) else (None, pn) in
  gonet_DialUDP k lfa rfa pn.

Definition ListenUDPAddrPort (laddr : AddrPort) : error + Z := DialUDPAddrPort laddr no_addr.

Definition DialUDP (laddr raddr : option (list Z * Z)) : error + Z := DialUDPAddrPort (addr_of laddr) (addr_of raddr).

(** ** Ping *)

Inductive ping_error :=
| ping_invalid_address
| ping_wrong_type
| ping_mismatched
| ping_deadline
| ping_stack (err : error).

Definition DialPingAddr (laddr raddr : list Z) : ping_error + PingConn :=
  if negb (IsValid laddr) && negb (IsValid raddr) then inl ping_invalid_address
  else
    let v6 := Is6 laddr || Is6 raddr in
    let bind := IsValid laddr in
    let laddr := if bind then laddr else if v6 then zeros 16 else zeros 4 in
    let tn := if v6 then ICMPv6ProtocolNumber else ICMPv4ProtocolNumber in
    let pn := if v6 then IPv6ProtocolNumber else IPv4ProtocolNumber in
    match NewEndpoint k tn pn with
    | inl err => inl (ping_stack err)
    | inr ep =>
        let bound := if bind then ep_Bind k ep (convertToFullAddr (mkAddrPort laddr [] 0)).1 else None in
        match bound with
        | Some err => inl (ping_stack err)
        | None =>
            if IsValid raddr then
              match ep_Connect k ep (convertToFullAddr (mkAddrPort raddr [] 0)).1 with
              | Some err => inl (ping_stack err)
              | None => inr (mkPingConn laddr raddr ep)
              end
            else inr (mkPingConn laddr [] ep)
        end
    end.

(** A [net.Addr]: a ping address, an IP address, or another type. *)
Inductive net_addr :=
| PingAddr_of (addr : list Z)
| IPAddr_of (ip : list Z)
| other_addr.

Definition WriteTo (pc : PingConn) (p : list Z) (addr : net_addr) : ping_error + Z :=
  match addr with
  | other_addr => inl ping_wrong_type
  | PingAddr_of a | IPAddr_of a =>
      let na := match addr with IPAddr_of ip => AddrFromSlice ip | _ => a end in
      if negb (Is4 na && Is4 (pc_laddr pc) || Is6 na && Is6 (pc_laddr pc)) then inl ping_mismatched
      else
        match ep_Write k (pc_ep pc) p (convertToFullAddr (mkAddrPort na [] 0)).1 with
        | inl err => inl (ping_stack err)
        | inr n => inr n
        end
  end.

(** [expired] is that the deadline comes before a packet. *)
Definition ReadFrom (pc : PingConn) (expired : bool) (room : nat) : ping_error + (list Z * list Z) :=
  if expired then inl ping_deadline
  else
    match ep_Read k (pc_ep pc) with
    | inl err => inl (ping_stack err)
    | inr (data, from) => inr (take room data, AddrFromSlice from)
    end.

End stack.

(** ** Dialing a host *)

Definition second : Z := 1000000000.

(** [partialDeadline], with times in nanoseconds; no deadline is the zero time. *)
Definition partialDeadline (now : Z) (deadline : option Z) (addrsRemaining : Z) : error + option Z :=
  match deadline with
  | None => inr None
  | Some d =>
      let timeRemaining := d - now in
      if timeRemaining <=? 0 then inl errTimeout
      else
        let timeout := Z.quot timeRemaining addrsRemaining in
        let saneMinimum := 2 * second in
        let timeout := if timeout <? saneMinimum then if timeRemaining <? saneMinimum then timeRemaining else saneMinimum else timeout in
        inr (Some (now + timeout))
  end.

Inductive proto := proto_tcp | proto_udp | proto_ping.

(** The regular expression for networks: the protocol and the version. *)
Definition protoSplitter (network : list Z) : option (proto * list Z) :=
  let try p name := match strip_prefix name network with
                    | Some v => if bool_decide (v = [] \/ v = lit "4" \/ v = lit "6") then Some (p, v) else None
                    | None => None
                    end in
  match try proto_tcp (lit "tcp"), try proto_udp (lit "udp"), try proto_ping (lit "ping") with
  | Some r, _, _ | None, Some r, _ | None, None, Some r => Some r
  | None, None, None => None
  end.

(** [net.SplitHostPort] *)
Definition SplitHostPort (hostport : list Z) : option (list Z * list Z) :=
  '(before, port) ← cut_last COLON hostport;
  match hostport with
  | 91 :: rest =>
      '(host, after) ← cut 93 rest;
      if negb (bool_decide (after = COLON :: port)) then None
      else if Contains rest 91 || Contains after 93 then None
      else Some (host, port)
  | _ =>
      if Contains before COLON then None
      else if Contains hostport 91 || Contains hostport 93 then None
      else Some (before, port)
  end.

(** The context: its deadline, the clock and whether it is done, before each
    attempt. *)
Record Context := mkContext {
  ctx_deadline : option Z;
  ctx_now : nat -> Z;
  ctx_done : nat -> option error
}.

Inductive dial_error :=
| op_error (err : error)
| op_lookup (err : lookup_error)
| op_unknown_network
| op_address
| dial_stack (err : error)
| dial_ping (err : ping_error).

Section dial.
Context `{Stack}.

(** The deadline for attempt [i] of [n]. *)
Definition dial_deadline (ctx : Context) (i n : nat) : error + option Z :=
  match ctx_deadline ctx with
  | None => inr None
  | Some d =>
      match partialDeadline (ctx_now ctx i) (Some d) (Z.of_nat n - Z.of_nat i) with
      | inl err => inl err
      | inr (Some partial) => inr (Some (if partial <? d then partial else d))
      | inr None => inr (Some d)
      end
  end.

(** A connection is the one of the stack or a ping socket. *)
Definition dial_one (i : nat) (p : proto) (deadline : option Z) (addr : AddrPort) : dial_error + (Z + PingConn) :=
  match p with
  | proto_tcp => match DialContextTCPAddrPort i deadline addr with inl err => inl (dial_stack err) | inr c => inr (inl c) end
  | proto_udp => match DialUDPAddrPort i no_addr addr with inl err => inl (dial_stack err) | inr c => inr (inl c) end
  | proto_ping => match DialPingAddr i [] (ap_addr addr) with inl err => inl (dial_ping err) | inr c => inr (inr c) end
  end.

(** The loop over the addresses, from attempt [i] of [n]. *)
Fixpoint dial_loop (p : proto) (ctx : Context) (n i : nat) (addrs : list AddrPort) (firstErr : option dial_error) :
    dial_error + (Z + PingConn) :=
  let first err := match firstErr with Some e => e | None => err end in
  match addrs with
  | [] => inl (first (op_error errMissingAddress))
  | addr :: addrs =>
      match ctx_done ctx i with
      | Some err => inl (op_error (context_error err))
      | None =>
          match dial_deadline ctx i n with
          | inl err => inl (first (op_error err))
          | inr deadline =>
              match dial_one i p deadline addr with
              | inr c => inr c
              | inl err => dial_loop p ctx n (S i) addrs (Some (first err))
              end
          end
      end
  end.

(** The addresses of the accepted families. *)
Definition accepted (acceptV4 acceptV6 : bool) (port : Z) (all : list (list Z)) : list AddrPort :=
  omap (fun s => '(ip, zoned) ← ParseAddr s;
                 if Is4 ip && acceptV4 || Is6 ip && acceptV6
                 then Some (mkAddrPort ip (if zoned : bool then from_option snd [] (cut PERCENT s) else []) (u16 port)) else None) all.

(** The host and the port of an address. *)
Definition dial_target (p : proto) (address : list Z) : dial_error + (list Z * Z) :=
  match p with
  | proto_ping => inr (address, 0)
  | _ =>
      match SplitHostPort address with
      | None => inl op_address
      | Some (host, sport) =>
          match Atoi 64 sport with
          | Some port => if (port <? 0) || (port >? 65535) then inl (op_error errNumericPort) else inr (host, port)
          | None => inl (op_error errNumericPort)
          end
      end
  end.

(** [DialContext]; [lookup] is [LookupContextHost]. *)
Definition DialContext (lookup : list Z -> lookup_error + list (list Z)) (ctx : Context) (network address : list Z) :
    dial_error + (Z + PingConn) :=
  match protoSplitter network with
  | None => inl op_unknown_network
  | Some (p, version) =>
      let acceptV4 := bool_decide (version = []) || bool_decide (version = lit "4") in
      let acceptV6 := bool_decide (version = []) || negb (bool_decide (version = lit "4")) in
      match dial_target p address with
      | inl err => inl err
      | inr (host, port) =>
          match lookup host with
          | inl err => inl (op_lookup err)
          | inr allAddr =>
              let addrs := accepted acceptV4 acceptV6 port allAddr in
              if bool_decide (addrs = []) && negb (bool_decide (allAddr = [])) then inl (op_error errNoSuitableAddress)
              else dial_loop p ctx (length addrs) 0 addrs None
          end
      end
  end.

End dial.
