(* ===== verification/NetstackCorrect.v ===== *)
(** * The user-space network stack is correct

    Packets of the stack are read in order; every address of a host gets a fair part
    of the time there is, and the first that can be reached is used. *)

From Stdlib Require Import String.
From stdpp Require Import base numbers list.
From S2P Require Import BitTrie.
From S2P Require Import Prelude Setters GoStrings AllowedIPs Netip NetipCorrect Slices Control Bind GoText Resolver ResolverCorrect Netstack.

Open Scope Z_scope.

(** ** The device *)

Inductive net_action :=
| act_emit (pkt : list Z)
| act_read (room : nat)
| act_close.

(** A run of the device and what the reads gave; [None] is a panic. *)
Fixpoint net_run (acts : list net_action) (dev : netTun) : option (netTun * list (list Z)) :=
  match acts with
  | [] => Some (dev, [])
  | act_emit pkt :: acts => dev ← emit pkt dev; net_run acts dev
  | act_read room :: acts =>
      let '(dev, r) := net_Read room dev in
      '(dev, got) ← net_run acts dev;
      Some (dev, match r with read_packet data => data :: got | _ => got end)
  | act_close :: acts => dev ← net_Close dev; net_run acts dev
  end.

Definition emitted (acts : list net_action) : list (list Z) :=
  omap (fun a => match a with act_emit pkt => Some pkt | _ => None end) acts.

(** Packets of at most [m] bytes, and reads with room for them. *)
Definition fitting (m : nat) (a : net_action) : Prop :=
  match a with
  | act_emit pkt => (length pkt <= m)%nat
  | act_read room => (m <= room)%nat
  | act_close => True
  end.

Lemma net_run_order m acts : forall dev dev' got,
  Forall (fitting m) acts -> nt_queue dev = [] -> Forall (fun pkt => (length pkt <= m)%nat) (incomingPacket dev) ->
  net_run acts dev = Some (dev', got) -> incomingPacket dev ++ emitted acts = got ++ incomingPacket dev'.
Proof.
  induction acts as [|a acts IH]; intros dev dev' got Hm Hq Hw E; cbn [net_run] in E.
  - injection E as <- <-. by rewrite app_nil_r.
  - apply Forall_cons in Hm as [Ha Hm]. destruct a as [pkt|room|]; cbn [fitting] in Ha.
    + unfold emit, WriteNotify in E. cbn in E. rewrite Hq in E. cbn in E. destruct (nt_open dev); [|done]. cbn in E.
      apply IH in E; [|done|done|]; cbn in *; [by rewrite <- E, <- app_assoc|]. apply Forall_app. by split; [|constructor].
    + unfold net_Read in E. destruct (incomingPacket dev) as [|view rest] eqn:Ei.
      * destruct (net_run acts dev) as [[d g]|] eqn:Er; [|done]. cbn in E. destruct (nt_open dev); injection E as <- <-;
          apply IH in Er; try done; rewrite ?Ei in *; done.
      * destruct (net_run acts _) as [[d g]|] eqn:Er; [|done]. cbn in E. injection E as <- <-. apply Forall_cons in Hw as [Hv Hw].
        apply IH in Er; [|done|done|done]. cbn in Er. cbn [app emitted]. rewrite take_ge by lia. f_equal. exact Er.
    + unfold net_Close in E. destruct (nt_open dev); [|done]. destruct (incomingPacket dev) as [|? ?] eqn:Ei; [|done]. cbn in E.
      apply IH in E; [|done|done|]; cbn in *; by rewrite Ei in *.
Qed.

Lemma net_run_open acts : forall dev dev' got,
  Forall (fun a => a <> act_close) acts -> nt_open dev = true -> net_run acts dev = Some (dev', got) -> nt_open dev' = true.
Proof.
  induction acts as [|a acts IH]; intros dev dev' got Ha Ho E; cbn [net_run] in E; [by injection E as <- _|].
  apply Forall_cons in Ha as [Ha Hacts]. destruct a as [pkt|room|]; [| |done].
  - unfold emit, WriteNotify in E. cbn in E. destruct (nt_queue dev ++ [pkt]); cbn in E; [by eapply IH; [..|exact E]|].
    rewrite Ho in E. cbn in E. by eapply IH; [..|exact E].
  - unfold net_Read in E. destruct (incomingPacket dev); destruct (net_run acts _) as [[d g]|] eqn:Er; try done; cbn in E;
      injection E as <- _; by eapply IH; [..|exact Er].
Qed.

Lemma net_run_app acts1 acts2 dev :
  net_run (acts1 ++ acts2) dev = '(dev1, got1) ← net_run acts1 dev; '(dev2, got2) ← net_run acts2 dev1; Some (dev2, got1 ++ got2).
Proof.
  revert dev. induction acts1 as [|a acts1 IH]; intros dev; cbn [app net_run].
  - cbn. by destruct (net_run acts2 dev) as [[? ?]|].
  - destruct a as [pkt|room|].
    + destruct (emit pkt dev) as [d|]; [|done]. cbn. apply IH.
    + destruct (net_Read room dev) as [d r]. rewrite IH. destruct (net_run acts1 d) as [[d1 g1]|]; [|done]. cbn.
      destruct (net_run acts2 d1) as [[d2 g2]|]; [|done]. cbn. by destruct r.
    + destruct (net_Close dev) as [d|]; [|done]. cbn. apply IH.
Qed.

(** The device as [CreateNetTUN] makes it. *)
Lemma create_fresh add_error addrs servers m calls dev :
  CreateNetTUN add_error addrs servers m = (calls, inr dev) -> nt_queue dev = [] /\ incomingPacket dev = [] /\ nt_open dev = true /\ mtu dev = m.
Proof.
  unfold CreateNetTUN. set (d0 := mkNetTun _ _ _ _ _ _ _ _). assert (forall addrs d c r, add_addresses add_error addrs d = (c, inr r) ->
    nt_queue r = nt_queue d /\ incomingPacket r = incomingPacket d /\ nt_open r = nt_open d /\ mtu r = mtu d) as Hadd.
  { clear. induction addrs as [|ip addrs IH]; intros d c r; cbn [add_addresses]; [by intros [= _ ->]|].
    destruct (add_error _ ip); [done|]. destruct (add_addresses _ addrs _) as [c' r'] eqn:E. intros [= _ ->]. apply IH in E.
    by destruct (Is4 ip), (Is6 ip). }
  destruct (add_addresses add_error addrs d0) as [c [ip|d]] eqn:E; [done|]. intros [= _ <-]. apply Hadd in E. done.
Qed.

(** What the stack emits is read from the device once and in order: the packets
    read and those that wait are the packets emitted. *)
Theorem net_tun_order add_error addrs servers m calls dev acts dev' got :
  CreateNetTUN add_error addrs servers m = (calls, inr dev) -> Forall (fitting (Z.to_nat m)) acts ->
  net_run acts dev = Some (dev', got) -> emitted acts = got ++ incomingPacket dev'.
Proof.
  intros Hc Hm E. destruct (create_fresh _ _ _ _ _ _ Hc) as (Hq & Hi & _). apply (net_run_order _ _ _ _ _ Hm Hq) in E; by rewrite Hi in *.
Qed.

(** Closing the device while a packet waits for a reader makes its sender panic:
    after any run from a new device, [Close] fails if a packet was emitted and not
    read, and only then. *)
Theorem net_close_panics add_error addrs servers m calls dev acts dev' got :
  CreateNetTUN add_error addrs servers m = (calls, inr dev) -> Forall (fitting (Z.to_nat m)) acts -> Forall (fun a => a <> act_close) acts ->
  net_run acts dev = Some (dev', got) -> (net_run (acts ++ [act_close]) dev = None <-> emitted acts <> got).
Proof.
  intros Hc Hm Hno E. destruct (create_fresh _ _ _ _ _ _ Hc) as (Hq & Hi & Ho & _). rewrite net_run_app, E. cbn. unfold net_Close.
  rewrite (net_run_open acts dev dev' got Hno Ho E). pose proof (net_run_order _ _ _ _ _ Hm Hq ltac:(by rewrite Hi) E) as Hord.
  rewrite Hi in Hord. cbn in Hord. rewrite Hord. destruct (incomingPacket dev') as [|pkt rest]; cbn.
  - by rewrite app_nil_r.
  - split; [|done]. intros _ Hx. apply (f_equal length) in Hx. rewrite length_app in Hx. simpl in Hx. lia.
Qed.

Definition sample_tun (waiting : list (list Z)) : netTun := mkNetTun [] waiting [true] true 1280 [] true false.

Lemma sample_close_panics : net_run [act_emit [69; 0]; act_close] (sample_tun []) = None.
Proof.
  apply (net_close_panics (fun _ _ => false) [[10; 0; 0; 2]] [] 1280 [AddProtocolAddress IPv4ProtocolNumber [10; 0; 0; 2]; AddRoute false]
    (sample_tun []) [act_emit [69; 0]] (sample_tun [[69; 0]]) []); [reflexivity| |by constructor|reflexivity|done].
  constructor; [cbn; lia|constructor].
Defined.

(** ** Dialing *)

(** A share of the time that is at least the minimum is what an attempt gets. *)
Lemma partialDeadline_share now d k share :
  1 <= k -> 2 * second <= share -> k * share <= d - now ->
  exists p, partialDeadline now (Some d) k = inr (Some p) /\ now + share <= p <= d /\ (k - 1) * share <= d - p.
Proof.
  intros Hk Hs Hr. unfold partialDeadline, second in *. replace (d - now <=? 0) with false by nia. rewrite Z.quot_div_nonneg by nia.
  set (t := (d - now) / k). assert (share <= t) as Ht by (apply Z.div_le_lower_bound; lia).
  assert (k * t <= d - now) as Hkt by (apply Z.mul_div_le; lia). replace (t <? _) with false by lia.
  exists (now + t). split; [done|]. nia.
Qed.

(** C21: if the time until the deadline is enough to give two seconds to each of the [n]
    addresses of a host, and no attempt overruns its own deadline, then each attempt
    gets at least an equal share of the time there was at the start, and none goes past
    the deadline. *)
Theorem dial_fair ctx d n :
  ctx_deadline ctx = Some d -> (0 < n)%nat ->
  let share := (d - ctx_now ctx 0) / Z.of_nat n in
  2 * second <= share ->
  (forall i p, (S i < n)%nat -> dial_deadline ctx i n = inr (Some p) -> ctx_now ctx (S i) <= p) ->
  forall i, (i < n)%nat -> exists p, dial_deadline ctx i n = inr (Some p) /\ ctx_now ctx i + share <= p <= d.
Proof.
  intros Hd Hn share Hs Hover.
  assert (forall i, (i < n)%nat -> (Z.of_nat n - Z.of_nat i) * share <= d - ctx_now ctx i /\
    exists p, dial_deadline ctx i n = inr (Some p) /\ ctx_now ctx i + share <= p <= d) as Hall; [|intros i Hi; by apply Hall].
  assert (forall i, (i < n)%nat -> (Z.of_nat n - Z.of_nat i) * share <= d - ctx_now ctx i ->
    exists p, dial_deadline ctx i n = inr (Some p) /\ ctx_now ctx i + share <= p <= d /\ (Z.of_nat n - Z.of_nat i - 1) * share <= d - p) as Hstep.
  { intros i Hi Hr. unfold dial_deadline. rewrite Hd.
    destruct (partialDeadline_share (ctx_now ctx i) d (Z.of_nat n - Z.of_nat i) share ltac:(lia) Hs Hr) as (p & -> & H1 & H2).
    exists (if p <? d then p else d). split; [done|]. destruct (p <? d) eqn:E; nia. }
  induction i as [|i IH]; intros Hi.
  - assert ((Z.of_nat n - Z.of_nat 0) * share <= d - ctx_now ctx 0) as Hr.
    { unfold share. pose proof (Z.mul_div_le (d - ctx_now ctx 0) (Z.of_nat n)). lia. }
    split; [done|]. destruct (Hstep 0%nat Hi Hr) as (p & E & H1 & _). by exists p.
  - destruct (IH ltac:(lia)) as [Hr _]. destruct (Hstep i ltac:(lia) Hr) as (p & E & H1 & H2). specialize (Hover i p Hi E).
    assert ((Z.of_nat n - Z.of_nat (S i)) * share <= d - ctx_now ctx (S i)) as Hr' by lia.
    split; [done|]. destruct (Hstep (S i) Hi Hr') as (p' & E' & H3 & _). by exists p'.
Qed.

(** Three addresses and nine seconds, the first two of which are lost. *)
Lemma dial_fair_witness :
  exists p, dial_deadline (mkContext (Some (9 * second)) (fun i => Z.of_nat i * 3 * second) (fun _ => None)) 2 3 = inr (Some p) /\ p = 9 * second.
Proof.
  set (ctx := mkContext _ _ _).
  destruct (dial_fair ctx (9 * second) 3 eq_refl ltac:(lia) ltac:(vm_compute; congruence)) with (i := 2%nat) as (p & E & _); [|lia|].
  - intros i p Hi. destruct i as [|[|i]]; [vm_compute; intros [= <-]; congruence..|lia].
  - exists p. split; [exact E|]. revert E. vm_compute. congruence.
Defined.

(** The dialing goes on as long as there is time. *)
Definition in_time (ctx : Context) (i n : nat) : Prop := ctx_done ctx i = None /\ exists t, dial_deadline ctx i n = inr t.

Lemma dial_loop_first `{Stack} p ctx n addrs : forall i firstErr j addr c,
  addrs !! j = Some addr -> (forall l, (i <= l <= i + j)%nat -> in_time ctx l n) ->
  (forall l a t, (l < j)%nat -> addrs !! l = Some a -> exists err, dial_one (i + l) p t a = inl err) ->
  (forall t, dial_one (i + j) p t addr = inr c) -> dial_loop p ctx n i addrs firstErr = inr c.
Proof.
  induction addrs as [|a addrs IH]; intros i firstErr j addr c Hj Ht Hf Hc; [done|]. cbn [dial_loop].
  destruct (Ht i ltac:(lia)) as [-> [t ->]]. destruct j as [|j]; cbn in Hj.
  - injection Hj as ->. rewrite Nat.add_0_r in Hc. by rewrite Hc.
  - destruct (Hf 0%nat a t ltac:(lia) eq_refl) as [err E]. rewrite Nat.add_0_r in E. rewrite E.
    apply (IH (S i) _ j addr c Hj).
    + intros l Hl. apply Ht. lia.
    + intros l b t' Hl Hb. replace (S i + l)%nat with (i + S l)%nat by lia. by apply (Hf (S l)); [lia|].
    + intros t'. by replace (S i + j)%nat with (i + S j)%nat by lia.
Qed.

(** ** From a host to a connection *)

Lemma Addr_String_parse ip : addr_len (length ip) -> is_bytes ip -> ParseAddr (Addr_String ip []) = Some (ip, false).
Proof.
  intros Hl Hb. rewrite <- (addr_text_roundtrip ip Hl Hb). unfold Addr_String, addr_text. destruct (Is4 ip); [done|].
  rewrite bool_decide_eq_true_2, app_nil_r by done. done.
Qed.

(** The family of an address is wanted. *)
Definition wanted (version : list Z) (ip : list Z) : bool :=
  Is4 ip && (bool_decide (version = []) || bool_decide (version = lit "4")) ||
  Is6 ip && (bool_decide (version = []) || negb (bool_decide (version = lit "4"))).

(** The addresses of a lookup as they are dialed. *)
Definition dialed (version : list Z) (port : Z) (ips : list (list Z)) : list AddrPort :=
  (fun ip => mkAddrPort ip [] port) <$> filter (fun ip => wanted version ip = true) ips.

Lemma accepted_found version port ips :
  0 <= port < 2 ^ 16 -> Forall (fun ip => addr_len (length ip) /\ is_bytes ip) ips ->
  accepted (bool_decide (version = []) || bool_decide (version = lit "4")) (bool_decide (version = []) || negb (bool_decide (version = lit "4")))
    port (map (fun ip => Addr_String ip []) ips) = dialed version port ips.
Proof.
  intros Hp. unfold accepted, dialed. induction 1 as [|ip ips [Hl Hb] _ IH]; [done|]. cbn [map omap list_omap]. rewrite Addr_String_parse by done.
  cbn [mbind option_bind]. fold (wanted version ip). rewrite filter_cons. destruct (wanted version ip) eqn:E.
  - rewrite decide_True by done. cbn [fmap list_fmap]. rewrite IH. unfold u16. by rewrite Z.mod_small by lia.
  - rewrite decide_False by done. exact IH.
Qed.

Lemma Contains_not s c : c ∉ s -> Contains s c = false.
Proof.
  intros Hs. unfold Contains. apply not_true_is_false. intros (x & Hx & E)%existsb_exists. zbool. subst x. apply Hs. by apply list_elem_of_In.
Qed.

(** A name and a port are found again in their text. *)
Lemma SplitHostPort_name host port :
  isDomainName host = true -> 0 <= port < 2 ^ 16 -> SplitHostPort (host ++ COLON :: decimal port) = Some (host, decimal port).
Proof.
  intros Hd Hp. pose proof (domain_name_bytes _ Hd) as Hb. pose proof (decimal_digits port ltac:(lia)) as Hn.
  assert (forall c, label_char c = false -> c <> DOT -> c ∉ host) as Hh.
  { intros c Hc Hne Hin. rewrite Forall_forall in Hb. destruct (Hb _ Hin); congruence. }
  assert (forall c, (c < 48 \/ 57 < c) -> c ∉ decimal port) as Hdec.
  { intros c Hc Hin. rewrite Forall_forall in Hn. specialize (Hn _ Hin). lia. }
  assert (forall c, c <> COLON -> label_char c = false -> c <> DOT -> (c < 48 \/ 57 < c) -> Contains (host ++ COLON :: decimal port) c = false) as Hall.
  { intros c H1 H2 H3 H4. apply Contains_not. rewrite elem_of_app, elem_of_cons. intros [Hin|[?|Hin]]; [by eapply Hh|done|by eapply Hdec]. }
  unfold SplitHostPort. rewrite cut_last_app by (apply Hdec; lia). cbn [mbind option_bind].
  assert (head (host ++ COLON :: decimal port) <> Some 91) as H91.
  { destruct host as [|c host]; [done|]. cbn. intros [= ->]. apply (Hh 91); [done|done|left]. }
  destruct (host ++ COLON :: decimal port) as [|c rest] eqn:E; [by destruct host|]. cbn in H91.
  rewrite !Hall, (Contains_not host COLON) by (try done; try lia; by apply Hh).
  destruct c as [|c|c]; try done. repeat (destruct c as [c|c|]; try done).
Qed.


Lemma Atoi_decimal n : 0 <= n < 2 ^ 16 -> Atoi 64 (decimal n) = Some n.
Proof.
  intros Hn. pose proof (decimal_digits n ltac:(lia)) as Hd. pose proof (decimal_roundtrip n 64 ltac:(lia)) as Hr. unfold Atoi.
  destruct (decimal n) as [|c s]; [done|]. apply Forall_cons in Hd as [Hc _]. replace (c =? 45) with false by lia.
  replace (c =? 43) with false by lia. cbn [orb]. rewrite Hr. cbn [mbind option_bind negb]. by replace (n >=? _) with false by lia.
Qed.

Lemma dial_target_name p host port :
  p <> proto_ping -> isDomainName host = true -> 0 <= port < 2 ^ 16 -> dial_target p (host ++ COLON :: decimal port) = inr (host, port).
Proof.
  intros Hp Hd Hr. unfold dial_target. rewrite SplitHostPort_name, Atoi_decimal by done. replace (_ || _) with false by lia. by destruct p.
Qed.

(** C17: dialing a name gives the connection to the first of its addresses that can be
    reached. The addresses are those of the lookup, IPv6 first, of the family that the
    network asks for, with the port; they are tried in this order as long as there is
    time. *)
Theorem dial_host `{DnsLaws} `{Stack} hasV4 hasV6 servers dials4 dials6 v6first host a4 a6 ctx network p version port j addr c :
  isDomainName host = true -> lane servers dials4 host TypeA TypeAAAA a4 -> lane servers dials6 host TypeAAAA TypeA a6 ->
  let ips := found hasV4 hasV6 a4 a6 in
  let addrs := dialed version port ips in
  Forall (fun ip => addr_len (length ip) /\ is_bytes ip) ips ->
  protoSplitter network = Some (p, version) -> p <> proto_ping -> 0 <= port < 2 ^ 16 ->
  addrs !! j = Some addr -> (forall l, (l <= j)%nat -> in_time ctx l (length addrs)) ->
  (forall l a t, (l < j)%nat -> addrs !! l = Some a -> exists err, dial_one l p t a = inl err) -> (forall t, dial_one j p t addr = inr c) ->
  DialContext (LookupContextHost hasV4 hasV6 servers dials4 dials6 v6first) ctx network (host ++ COLON :: decimal port) = inr c.
Proof.
  intros Hd H4 H6 ips addrs Hips Hproto Hping Hport Hj Ht Hf Hc. unfold DialContext. rewrite Hproto, dial_target_name by done.
  assert (ips <> []) as Hne by (intros E; unfold addrs in Hj; by rewrite E in Hj).
  rewrite (lookup_lanes hasV4 hasV6 servers dials4 dials6 v6first host a4 a6 Hd H4 H6 Hne). fold ips.
  rewrite (accepted_found version port ips Hport Hips). fold addrs.
  rewrite (bool_decide_eq_false_2 (addrs = [])) by (intros E; by rewrite E in Hj). cbn [andb].
  apply (dial_loop_first p ctx (length addrs) addrs 0 None j addr c Hj); [|done|done]. intros l Hl. apply Ht. lia.
Qed.

#[local] Existing Instances wire wire_laws.

(** A stack in which one address can be reached over TCP. *)
#[local] Instance sample_stack : Stack := {|
  gonet_DialContextTCP _ _ fa _ := if decide (fa_Addr fa = [192; 0; 2; 5]) then inr 1 else inl errTimeout;
  gonet_ListenTCP _ _ _ := inl errTimeout;
  gonet_DialUDP _ _ _ _ := inl errTimeout;
  NewEndpoint _ _ _ := inl errTimeout;
  ep_Bind _ _ _ := None;
  ep_Connect _ _ _ := None;
  ep_Write _ _ _ _ := inl errTimeout;
  ep_Read _ _ := inl errTimeout
|}.

Definition no_deadline : Context := mkContext None (fun _ => 0) (fun _ => None).

Lemma dial_host_witness :
  DialContext (LookupContextHost true true sample_servers sample_dials (fun _ _ => sample_server []) false) no_deadline (lit "tcp4")
    (sample_host ++ COLON :: decimal 443) = inr (inl 1).
Proof.
  apply (dial_host true true sample_servers sample_dials (fun _ _ => sample_server []) false sample_host [[192; 0; 2; 5]] [] no_deadline
    (lit "tcp4") proto_tcp (lit "4") 443 0 (mkAddrPort [192; 0; 2; 5] [] 443)); try (vm_compute; reflexivity); try done; try lia.
  - apply sample_lane4.
  - apply sample_lane6.
  - constructor; [|constructor]. split; [by left|decide_closed].
  - intros l Hl. split; [done|]. by exists None.
Defined.
