(* ===== verification/Upload.v ===== *)
(** * The upload server (src/uploader/wg-upload.go)

    A small HTTP server on the television that accepts a [wg-quick]
    configuration, converts it and stores it. [Server] holds the package
    variables, the clock, the files and the outcome of the system calls still
    to come; the handlers are programs over it; [step] is the server with its
    timers. A request is what [net/http] has parsed; a page is the list of
    the values the handler formats into the page. *)

From Stdlib Require Import Ascii String.
From stdpp Require Import base numbers list gmap.
From S2P Require Import Prelude Setters GoStrings GoText Env.

Open Scope Z_scope.

(** ** Configuration conversion *)

Inductive convert_error :=
| UnrecognisedLine (line : list Z)
| UnsupportedKey (key : list Z)
| TokenTooLong
| AddressNotFound.

(** [err.Error()] *)
Definition convert_error_text (e : convert_error) : list Z :=
  match e with
  | UnrecognisedLine line => lit "unrecognised line: " ++ line
  | UnsupportedKey key => lit "unsupported key: " ++ key
  | TokenTooLong => lit "bufio.Scanner: token too long"
  | AddressNotFound => lit "Address not found in the file"
  end.

Definition allowed_keys : list (list Z) :=
  map lit ["PrivateKey"; "ListenPort"; "FwMark"; "PublicKey"; "PresharedKey"; "AllowedIPs";
           "Endpoint"; "PersistentKeepalive"]%string.

Definition dropped_keys : list (list Z) :=
  map lit ["DNS"; "MTU"; "Table"; "SaveConfig"; "PostUp"; "PostDown"; "PreUp"; "PreDown"]%string.

(** The loop of [firstIPv4OrFirst], [first] the first entry seen. *)
Fixpoint first_loop (parts : list (list Z)) (first : list Z) : list Z :=
  match parts with
  | [] => first
  | p :: parts =>
      let p := TrimSpace p in
      if bytes_eqb p [] then first_loop parts first
      else
        let first := if bytes_eqb first [] then p else first in
        if negb (Contains p 58) then p else first_loop parts first
  end.

Definition firstIPv4OrFirst (s : list Z) : list Z := first_loop (Split 44 s) [].

(** The body of the loop of [convertConfig] on one scanned line: what it
    appends to [out], and [address] after it. *)
Definition convert_line (line address : list Z) : convert_error + (list (list Z) * list Z) :=
  let line := TrimSpace line in
  if bytes_eqb line [] then inr ([], address)
  else if HasPrefix line (lit "#") then inr ([], address)
  else if HasPrefix line (lit "[") && HasSuffix line (lit "]") then inr ([[]; line], address)
  else
    match cut 61 line with
    | None => inl (UnrecognisedLine line)
    | Some (k, v) =>
        let key := TrimSpace k in
        let val := TrimSpace v in
        if bytes_eqb key (lit "Address") then
          inr ([], if bytes_eqb address [] then firstIPv4OrFirst val else address)
        else if existsb (bytes_eqb key) dropped_keys then inr ([], address)
        else if negb (existsb (bytes_eqb key) allowed_keys) then inl (UnsupportedKey key)
        else inr ([key ++ lit " = " ++ val], address)
    end.

Fixpoint convert_lines (lines out : list (list Z)) (address : list Z) :
    convert_error + (list (list Z) * list Z) :=
  match lines with
  | [] => inr (out, address)
  | line :: lines =>
      match convert_line line address with
      | inl e => inl e
      | inr (new, address) => convert_lines lines (out ++ new) address
      end
  end.

Definition convertConfig (input : list Z) : convert_error + (list Z * list Z) :=
  let '(lines, ok) := scan_lines input [] in
  match convert_lines lines [] [] with
  | inl e => inl e
  | inr (out, address) =>
      if negb ok then inl TokenTooLong
      else if bytes_eqb address [] then inl AddressNotFound
      else inr (TrimSpace (Join 10 out) ++ [10], address)
  end.

(** ** Languages *)

Definition normalizeLang (lang : list Z) : list Z :=
  let l := ToLower (TrimSpace lang) in
  if bytes_eqb l (lit "es") || bytes_eqb l (lit "es-es") then lit "es" else lit "en".

Definition messages_en : list (string * string) := [
  ("methodNotAllowed", "Method not allowed");
  ("badUpload", "The upload could not be processed.");
  ("invalidPin", "Invalid access code.");
  ("tooManyAttempts", "Too many incorrect access codes. Start the upload server again.");
  ("missingFile", "Missing configuration file.");
  ("readFailed", "Could not read the uploaded file.");
  ("invalidConfig", "Invalid WireGuard configuration");
  ("successTitle", "Configuration uploaded");
  ("successText", "Your WireGuard configuration has been saved on the TV. The upload server has stopped.");
  ("backup", "Backup");
  ("address", "Address");
  ("next", "Return to the app and press Stop VPN, then Start VPN.");
  ("back", "Upload another file");
  ("errorTitle", "Upload failed")]%string.

Definition messages_es : list (string * string) := [
  ("methodNotAllowed", "Método no permitido");
  ("badUpload", "No se ha podido procesar la subida.");
  ("invalidPin", "Código de acceso incorrecto.");
  ("tooManyAttempts", "Demasiados códigos incorrectos. Inicia de nuevo el servidor de subida.");
  ("missingFile", "Falta el archivo de configuración.");
  ("readFailed", "No se ha podido leer el archivo subido.");
  ("invalidConfig", "Configuración WireGuard no válida");
  ("successTitle", "Configuración subida");
  ("successText", "La configuración WireGuard se ha guardado en la TV. El servidor de subida se ha detenido.");
  ("backup", "Copia de seguridad");
  ("address", "Address");
  ("next", "Vuelve a la app y pulsa Parar VPN, y luego Arrancar VPN.");
  ("back", "Subir otro archivo");
  ("errorTitle", "Error al subir")]%string.

Fixpoint find_message (key : string) (m : list (string * string)) : option (list Z) :=
  match m with
  | [] => None
  | (k, v) :: m => if String.eqb k key then Some (lit v) else find_message key m
  end.

(** A key missing from both maps reads as the empty string. *)
Definition tr (lang : list Z) (key : string) : list Z :=
  let m := if bytes_eqb (normalizeLang lang) (lit "es") then messages_es else messages_en in
  match find_message key m with
  | Some v => v
  | None => default [] (find_message key messages_en)
  end.

(** ** Requests and pages *)

Record FileHeader := mkFile {
  Filename : list Z;
  content : option (list Z)   (* [None]: reading the part fails *)
}.

Definition values : Type := list (list Z * list Z).

(** The body of a request by its content type, with its size in bytes. *)
Inductive Body :=
| OtherBody
| Urlencoded (size : Z) (form : values)
| Multipart (size : Z) (form : values) (files : list (list Z * FileHeader)).

Record Request := mkRequest {
  Method : list Z;
  Path : list Z;
  Query : values;
  query_ok : bool;   (* the raw query parses *)
  r_Body : Body
}.

(** [Values.Get]: the first value of the key, or the empty string. *)
Fixpoint Get (key : list Z) (v : values) : list Z :=
  match v with
  | [] => []
  | (k, x) :: v => if bytes_eqb k key then x else Get key v
  end.

(** [http.MaxBytesReader] lets [n] bytes through; [None] is no limit. *)
Definition fits (limit : option Z) (size : Z) : bool :=
  match limit with None => true | Some n => size <=? n end.

(** [r.FormValue]: a urlencoded body first, then the query, then a multipart
    body. *)
Definition FormValue (limit : option Z) (r : Request) (key : list Z) : list Z :=
  let post :=
    match r_Body r with
    | Urlencoded size form =>
        if fits limit size &&
           existsb (bytes_eqb (Method r)) (map lit ["POST"; "PUT"; "PATCH"]%string) then form else []
    | _ => []
    end in
  let multi :=
    match r_Body r with
    | Multipart size form _ => if fits limit size then form else []
    | _ => []
    end in
  Get key (post ++ Query r ++ multi).

(** [r.ParseMultipartForm]: succeeds on a multipart body within the limit and
    a well-formed query. *)
Definition ParseMultipartForm (limit : option Z) (r : Request) : option (list (list Z * FileHeader)) :=
  match r_Body r with
  | Multipart size _ files => if fits limit size && query_ok r then Some files else None
  | _ => None
  end.

(** [r.FormFile]: the first file of that name. *)
Fixpoint FormFile (key : list Z) (files : list (list Z * FileHeader)) : option FileHeader :=
  match files with
  | [] => None
  | (k, f) :: files => if bytes_eqb k key then Some f else FormFile key files
  end.

Definition langFromRequest (limit : option Z) (r : option Request) : list Z :=
  match r with
  | None => lit "en"
  | Some r =>
      let lang := Get (lit "lang") (Query r) in
      let lang := if bytes_eqb lang [] then FormValue limit r (lit "lang") else lang in
      normalizeLang lang
  end.

Inductive Page :=
| IndexPage
| HealthPage
| ErrorPage (args : list (list Z))
| SuccessPage (args : list (list Z)).

Record Response := mkResponse { status : Z; page : Page }.

Definition StatusOK : Z := 200.

Definition StatusBadRequest : Z := 400.

Definition StatusForbidden : Z := 403.

Definition StatusNotFound : Z := 404.

Definition StatusMethodNotAllowed : Z := 405.

Definition StatusTooManyRequests : Z := 429.

Definition StatusInternalServerError : Z := 500.

(** [http.StatusText] on the codes the server writes *)
Definition StatusText (code : Z) : list Z :=
  if code =? StatusBadRequest then lit "Bad Request"
  else if code =? StatusForbidden then lit "Forbidden"
  else if code =? StatusNotFound then lit "Not Found"
  else if code =? StatusMethodNotAllowed then lit "Method Not Allowed"
  else if code =? StatusTooManyRequests then lit "Too Many Requests"
  else if code =? StatusInternalServerError then lit "Internal Server Error"
  else [].

Definition writeSuccess (lang backup address : list Z) : Response :=
  let title := EscapeString (tr lang "successTitle") in
  let text := EscapeString (tr lang "successText") in
  let backupLabel := EscapeString (tr lang "backup") in
  let addressLabel := EscapeString (tr lang "address") in
  let next := EscapeString (tr lang "next") in
  let back := EscapeString (tr lang "back") in
  mkResponse StatusOK (SuccessPage
    [normalizeLang lang; title; text; backupLabel; EscapeString backup; addressLabel;
     EscapeString address; next; back]).

Definition writeError (lang : list Z) (code : Z) (message : list Z) : Response :=
  let title := EscapeString (tr lang "errorTitle") in
  let text := EscapeString message in
  let back := EscapeString (tr lang "back") in
  mkResponse code (ErrorPage [normalizeLang lang; title; StatusText code; text; back]).

(** ** The server's state *)

(** How a system call ends. A failed write may leave the file with some
    content. *)
Inductive os_outcome :=
| Done
| Failed (err : list Z) (left_ : option (list Z)).

(** [fs] maps a path to content and mode; [dirs] a directory to its mode.
    [shutdown] is the time at which the goroutine of [shutdownServer] wakes,
    once [shutdownOnce] has run. *)
Record Server := mkServer {
  token : list Z;
  tokenFile : list Z;
  failedAttempts : Z;
  timer : Z;
  shutdown : option Z;
  listening : bool;
  s_clock : Z;
  zone : Z;
  fs : gmap (list Z) (list Z * Z);
  dirs : gmap (list Z) Z;
  os_calls : list os_outcome
}.

#[export] Instance eta_Server : Settable Server := fun r =>
  mkServer (token r) (tokenFile r) (failedAttempts r) (timer r) (shutdown r) (listening r)
    (s_clock r) (zone r) (fs r) (dirs r) (os_calls r).

Notation U := (ST Server).

Definition base : list Z := lit "/var/lib/webosbrew/wireguard".

Definition maxFailedAttempts : Z := 5.

Definition maxUpload : Z := Z.shiftl 2 20.

(** 0700 and 0600 *)
Definition mode_dir : Z := 448.

Definition mode_file : Z := 384.

(** The outcome of the next system call. *)
Definition next_call : U os_outcome := fun s =>
  Some (default Done (head (os_calls s)), s <| os_calls := tail (os_calls s) |>).

(** The paths of the directories on the way to [p], [p] included. *)
Fixpoint ancestors (pre p : list Z) : list (list Z) :=
  match p with
  | [] => [pre]
  | c :: p => (if (c =? slash) && negb (bytes_eqb pre []) then [pre] else []) ++ ancestors (pre ++ [c]) p
  end.

(** [os.MkdirAll]: an existing directory keeps its mode. *)
Definition MkdirAll (path : list Z) (mode : Z) : U (option (list Z)) :=
  o ← next_call;
  match o with
  | Failed err _ => mret (Some err)
  | Done =>
      modify (fun s => s <| dirs := dirs s ∪ list_to_map (map (fun d => (d, mode)) (ancestors [] path)) |>);;
      mret None
  end.

(** The content replaced; an existing file keeps its mode. *)
Definition put_file (path data : list Z) (mode : Z) (m : gmap (list Z) (list Z * Z)) :
    gmap (list Z) (list Z * Z) :=
  let mode := match m !! path with Some (_, old) => old | None => mode end in
  <[path := (data, mode)]> m.

(** [os.WriteFile] *)
Definition WriteFile (path data : list Z) (mode : Z) : U (option (list Z)) :=
  o ← next_call;
  match o with
  | Done => modify (fun s => s <| fs := put_file path data mode (fs s) |>);; mret None
  | Failed err left_ =>
      match left_ with
      | None => mret tt
      | Some d => modify (fun s => s <| fs := put_file path d mode (fs s) |>)
      end;;
      mret (Some err)
  end.

(** [shutdownServer]: only the first call has an effect. *)
Definition shutdownServer : U unit :=
  modify (fun s =>
    match shutdown s with
    | None => s <| shutdown := Some (s_clock s + 300 * Millisecond) |>
    | Some _ => s
    end).

(** *** [time.Now().Format("20060102-150405")] *)

(** [n] decimal digits of [x]. *)
Fixpoint pad (n : nat) (x : Z) : list Z :=
  match n with
  | O => []
  | S n => pad n (x / 10) ++ [48 + x mod 10]
  end.

(** Year, month and day of a day counted from 1970-01-01. *)
Definition civil (days : Z) : Z * Z * Z :=
  let z := days + 719468 in
  let era := z / 146097 in
  let doe := z - era * 146097 in
  let yoe := (doe - doe / 1460 + doe / 36524 - doe / 146096) / 365 in
  let doy := doe - (365 * yoe + yoe / 4 - yoe / 100) in
  let mp := (5 * doy + 2) / 153 in
  let d := doy - (153 * mp + 2) / 5 + 1 in
  let m := if mp <? 10 then mp + 3 else mp - 9 in
  (yoe + era * 400 + (if m <=? 2 then 1 else 0), m, d).

(** The clock in nanoseconds since 1970, the zone in seconds east. *)
Definition Format (t zone : Z) : list Z :=
  let secs := t / Second + zone in
  let '(y, m, d) := civil (secs / 86400) in
  let r := secs mod 86400 in
  pad 4 y ++ pad 2 m ++ pad 2 d ++ [45] ++ pad 2 (r / 3600) ++ pad 2 (r / 60 mod 60) ++ pad 2 (r mod 60).

(** ** Handlers *)

Definition index (r : Request) : U Response :=
  if negb (bytes_eqb (Path r) (lit "/")) then
    mret (writeError (langFromRequest None (Some r)) StatusNotFound (lit "Page not found"))
  else mret (mkResponse StatusOK IndexPage).

(** The branch of [upload] for a wrong access code. *)
Definition reject (lang : list Z) : U Response :=
  modify (fun s => s <| failedAttempts := failedAttempts s + 1 |>);;
  locked ← gets (fun s => failedAttempts s >=? maxFailedAttempts);
  if locked : bool then
    shutdownServer;;
    mret (writeError lang StatusTooManyRequests (tr lang "tooManyAttempts"))
  else mret (writeError lang StatusForbidden (tr lang "invalidPin")).

(** [if err := call; err != nil { writeError(500); return }; rest] *)
Definition or_500 (lang : list Z) (call : U (option (list Z))) (rest : U Response) : U Response :=
  err ← call;
  match err with
  | Some e => mret (writeError lang StatusInternalServerError e)
  | None => rest
  end.

Definition backup_path (ts name : list Z) : list Z :=
  path_Join [base; lit "uploads"; lit "uploaded-" ++ ts ++ lit "-" ++ Base name].

Definition conf_path : list Z := path_Join [base; lit "conf"; lit "wg0.conf"].

Definition address_path : list Z := path_Join [base; lit "conf"; lit "address"].

(** [upload] from the directories on. *)
Definition store (lang name data converted address : list Z) : U Response :=
  or_500 lang (MkdirAll (path_Join [base; lit "conf"]) mode_dir)
  (or_500 lang (MkdirAll (path_Join [base; lit "uploads"]) mode_dir)
  (ts ← gets (fun s => Format (s_clock s) (zone s));
   let backup := backup_path ts name in
   or_500 lang (WriteFile backup data mode_file)
   (or_500 lang (WriteFile conf_path converted mode_file)
   (or_500 lang (WriteFile address_path (address ++ [10]) mode_file)
   (shutdownServer;; mret (writeSuccess lang backup address)))))).

(** [io.ReadAll(io.LimitReader(file, n))] *)
Definition limited (n : Z) (data : list Z) : list Z :=
  if zlen data <=? n then data else take (Z.to_nat n) data.

Definition upload (r : Request) : U Response :=
  if negb (bytes_eqb (Method r) (lit "POST")) then
    let lang := langFromRequest None (Some r) in
    mret (writeError lang StatusMethodNotAllowed (tr lang "methodNotAllowed"))
  else
    let limit := Some maxUpload in
    match ParseMultipartForm limit r with
    | None =>
        let lang := langFromRequest limit (Some r) in
        mret (writeError lang StatusBadRequest (tr lang "badUpload"))
    | Some files =>
        let lang := normalizeLang (FormValue limit r (lit "lang")) in
        tok ← gets token;
        if negb (bytes_eqb (FormValue limit r (lit "token")) tok) then reject lang
        else
          match FormFile (lit "conf") files with
          | None => mret (writeError lang StatusBadRequest (tr lang "missingFile"))
          | Some file =>
              match content file with
              | None => mret (writeError lang StatusBadRequest (tr lang "readFailed"))
              | Some bytes =>
                  let data := limited maxUpload bytes in
                  match convertConfig data with
                  | inl e =>
                      mret (writeError lang StatusBadRequest
                        (tr lang "invalidConfig" ++ lit ": " ++ convert_error_text e))
                  | inr (converted, address) => store lang (Filename file) data converted address
                  end
              end
          end
    end.

(** The routes of the [http.ServeMux], for a clean path. *)
Definition serve (r : Request) : U Response :=
  if bytes_eqb (Path r) (lit "/upload") then upload r
  else if bytes_eqb (Path r) (lit "/health") then mret (mkResponse StatusOK HealthPage)
  else index r.

(** ** [main] *)

(** [hex.EncodeToString] of four random bytes; [None]: the source fails and
    the program exits. *)
Definition randomToken (rand : option (list Z)) : option (list Z) :=
  b ← rand; Some (hex_encode b).

(** The lifetime of the server, for an [int] of [bits] bits. *)
Definition parse_timeout (bits : Z) (raw : list Z) : Z :=
  match raw with
  | [] => 600 * Second
  | _ =>
      match Atoi bits raw with
      | Some seconds => if seconds >? 0 then i64 (seconds * Second) else 600 * Second
      | None => 600 * Second
      end
  end.

(** The server [main] starts; [None]: it exits before listening. *)
Definition start (bits : Z) (env_token env_tokenFile env_timeout : list Z) (rand : option (list Z))
    (t0 z : Z) (files : gmap (list Z) (list Z * Z)) (ds : gmap (list Z) Z) (calls : list os_outcome) :
    option Server :=
  tok ← match env_token with [] => randomToken rand | _ => Some env_token end;
  let s := mkServer tok env_tokenFile 0 0 None true t0 z files ds calls in
  '(err, s) ← match env_tokenFile with
              | [] => Some (None, s)
              | _ => WriteFile env_tokenFile (tok ++ [10]) mode_file s
              end;
  match err with
  | Some _ => None
  | None => Some (s <| timer := t0 + parse_timeout bits env_timeout |>)
  end.

(** [server.Shutdown] makes [ListenAndServe] return; [main] removes the token
    file and ends. *)
Definition stop : U unit :=
  f ← gets tokenFile;
  modify (fun s => s <| listening := false |>
    <| fs := match f with [] => fs s | _ => delete f (fs s) end |>).

(** ** The running server *)

Inductive event :=
| Elapse (d : Z)
| Serve (r : Request)
| FireTimer
| FireShutdown.

(** One event; [None]: it is not enabled. Requests are served while the
    server listens; the timer of [time.AfterFunc] and the goroutine of
    [shutdownServer] run once their time has come. *)
Definition step (e : event) (s : Server) : option (option Response * Server) :=
  if negb (listening s) then None
  else
    match e with
    | Elapse d => if d >=? 0 then Some (None, s <| s_clock := s_clock s + d |>) else None
    | Serve r => '(resp, s) ← serve r s; Some (Some resp, s)
    | FireTimer =>
        if timer s <=? s_clock s then '(_, s) ← shutdownServer s; Some (None, s) else None
    | FireShutdown =>
        match shutdown s with
        | Some t => if t <=? s_clock s then '(_, s) ← stop s; Some (None, s) else None
        | None => None
        end
    end.

(** A run, with the responses in order. *)
Fixpoint run (es : list event) (s : Server) : option (list Response * Server) :=
  match es with
  | [] => Some ([], s)
  | e :: es =>
      '(o, s) ← step e s;
      '(rs, s) ← run es s;
      Some (match o with Some r => r :: rs | None => rs end, s)
  end.
