(* ===== verification/UploadConfig.v ===== *)
(** * What the configuration conversion of the upload server produces

    [convertConfig] turns a [wg-quick] file into one [wg setconf] reads. Its
    output is a list of sections and of settings with a key of the list
    [allowed_keys]; no command of the input survives, no setting is lost, and
    converting the output again changes nothing. *)

From Stdlib Require Import Ascii String.
From stdpp Require Import base numbers list sets.
From S2P Require Import Prelude GoStrings GoText Upload.

Open Scope Z_scope.

#[local] Opaque MaxScanTokenSize.

#[local] Arguments lit : simpl never.

#[local] Arguments allowed_keys : simpl never.

(** ** Entries *)

Inductive entry :=
| Section_ (line : list Z)
| Setting (key val : list Z).

Definition entry_lines (e : entry) : list (list Z) :=
  match e with
  | Section_ l => [[]; l]
  | Setting k v => [k ++ lit " = " ++ v]
  end.

Definition entry_ok (e : entry) : Prop :=
  match e with
  | Section_ l => trimmed l /\ 10 ∉ l /\ HasPrefix l (lit "[") = true /\ HasSuffix l (lit "]") = true
  | Setting k v => k ∈ allowed_keys /\ trimmed v /\ 10 ∉ v
  end.

Definition lines_of (es : list entry) : list (list Z) := concat (map entry_lines es).

(** The line an entry is printed as: at the end of the text the blank after
    an empty value is trimmed. *)
Definition shows (e : entry) (l : list Z) : Prop :=
  match e with
  | Section_ s => l = s
  | Setting k v => l = k ++ lit " = " ++ v \/ (v = [] /\ l = k ++ lit " =")
  end.

(** The lines [L] show the entries, with blank lines between them. *)
Inductive Shown : list (list Z) -> list entry -> Prop :=
| Shown_nil : Shown [] []
| Shown_blank L es : Shown L es -> Shown ([] :: L) es
| Shown_cons l e L es : shows e l -> Shown L es -> Shown (l :: L) (e :: es).

(** An address the scan of the file found: one trimmed entry. *)
Definition address_ok (a : list Z) : Prop := trimmed a /\ 44 ∉ a /\ 10 ∉ a.

(** The conversion at the level of entries: what one line stands for. *)
Definition line_entry (line : list Z) : option entry :=
  let line := TrimSpace line in
  if HasPrefix line (lit "[") && HasSuffix line (lit "]") then Some (Section_ line)
  else
    '(k, v) ← cut 61 line;
    if negb (HasPrefix line (lit "#")) && existsb (bytes_eqb (TrimSpace k)) allowed_keys
    then Some (Setting (TrimSpace k) (TrimSpace v)) else None.

(** ** Keys *)

Lemma existsb_key k l : existsb (bytes_eqb k) l = true <-> k ∈ l.
Proof.
  rewrite existsb_exists. split.
  - intros (x & Hx & Hk%bytes_eqb_eq). subst. by apply list_elem_of_In.
  - intros H. exists k. split; [by apply list_elem_of_In|apply bytes_eqb_refl].
Qed.

(** What the conversion needs to know of its keys, whatever follows them. *)
Lemma key_facts k :
  k ∈ lit "Address" :: allowed_keys ->
  61 ∉ k /\ 10 ∉ k /\ TrimSpace (k ++ [32]) = k /\ clear (map (@rev Z) spaces) (rev (k ++ lit " =")) /\
  existsb (bytes_eqb k) dropped_keys = false /\
  (forall t, clear spaces (k ++ t) /\ k ++ t <> [] /\
     HasPrefix (k ++ t) (lit "#") = false /\ HasPrefix (k ++ t) (lit "[") = false).
Proof.
  intros H. repeat (apply elem_of_cons in H as [-> |H];
    [split; [decide_closed|]; split; [decide_closed|]; repeat split; try reflexivity; done|]).
  by apply elem_of_nil in H.
Qed.

Lemma allowed_not_address k : k ∈ allowed_keys -> bytes_eqb k (lit "Address") = false.
Proof.
  intros H. apply bool_decide_eq_false. intros ->. revert H. decide_closed.
Qed.

Lemma dropped_not_allowed k : k ∈ dropped_keys -> k ∉ allowed_keys.
Proof.
  intros H. assert (Forall (fun k => k ∉ allowed_keys) dropped_keys) as HF by decide_closed.
  rewrite Forall_forall in HF. auto.
Qed.

(** ** The address *)

Lemma address_ok_nil : address_ok [].
Proof. split; [done|]. split; apply not_elem_of_nil. Qed.

Lemma first_loop_ok parts first :
  address_ok first -> Forall (fun p => 44 ∉ p /\ 10 ∉ p) parts -> address_ok (first_loop parts first).
Proof.
  intros Hf HF. revert first Hf. induction HF as [|p parts [Hc Hn] _ IH]; intros first Hf; cbn; [done|].
  assert (address_ok (TrimSpace p)) as Hp.
  { split; [apply TrimSpace_trimmed|]. split; intros H%TrimSpace_in; done. }
  case_if; [by apply IH|]. destruct (negb (Contains (TrimSpace p) 58)); [done|].
  apply IH. by case_if.
Qed.

Lemma firstIPv4OrFirst_ok s : 10 ∉ s -> address_ok (firstIPv4OrFirst s).
Proof.
  intros H. apply first_loop_ok; [apply address_ok_nil|]. apply Forall_forall. intros w Hw.
  apply Split_words in Hw as [? Hw]. split; [done|]. intros Hc. by apply H, Hw.
Qed.

(** An address found stands for itself. *)
Lemma firstIPv4OrFirst_id a : address_ok a -> a <> [] -> firstIPv4OrFirst a = a.
Proof.
  intros (Ht & Hc & _) Hn. unfold firstIPv4OrFirst. rewrite Split_single by done. cbn.
  rewrite TrimSpace_id by done. assert (bytes_eqb a [] = false) as -> by by apply bool_decide_eq_false.
  rewrite bytes_eqb_refl. by destruct (negb _).
Qed.

(** ** One line *)

Lemma convert_line_entry line a new a' :
  10 ∉ line -> address_ok a -> convert_line line a = inr (new, a') ->
  new = from_option entry_lines [] (line_entry line) /\
  (forall e, line_entry line = Some e -> entry_ok e) /\ address_ok a'.
Proof.
  intros Hn Ha. unfold convert_line, line_entry.
  assert (10 ∉ TrimSpace line) as Hn' by (intros H%TrimSpace_in; done).
  pose proof (TrimSpace_trimmed line) as Ht. set (l := TrimSpace line) in *.
  destruct (bytes_eqb l []) eqn:E1.
  { apply bytes_eqb_eq in E1. rewrite E1. by intros [= <- <-]. }
  destruct (HasPrefix l (lit "#")) eqn:E2.
  { intros [= <- <-]. apply HasPrefix_spec in E2 as [t E2]. rewrite E2.
    change (HasPrefix (lit "#" ++ t) (lit "[")) with false. cbn [andb].
    destruct (cut 61 _) as [[k v]|]; done. }
  destruct (HasPrefix l (lit "[") && HasSuffix l (lit "]")) eqn:E3.
  { intros [= <- <-]. split; [done|]. split; [|done]. intros e [= <-]. apply andb_true_iff in E3 as [? ?]. done. }
  destruct (cut 61 l) as [[k v]|] eqn:E4; [|done]. apply cut_spec in E4 as [E4 _].
  assert (10 ∉ TrimSpace v) as Hv.
  { intros H%TrimSpace_in. apply Hn'. rewrite E4. set_solver. }
  cbn [negb andb mbind option_bind]. destruct (bytes_eqb (TrimSpace k) (lit "Address")) eqn:E5.
  { apply bytes_eqb_eq in E5. rewrite E5. intros [= <- <-]. split; [done|]. split; [done|].
    case_if; [by apply firstIPv4OrFirst_ok|done]. }
  destruct (existsb (bytes_eqb (TrimSpace k)) dropped_keys) eqn:E6.
  { intros [= <- <-]. destruct (existsb (bytes_eqb (TrimSpace k)) allowed_keys) eqn:E7; [|done].
    apply existsb_key in E6, E7. by apply dropped_not_allowed in E6. }
  destruct (existsb (bytes_eqb (TrimSpace k)) allowed_keys) eqn:E7; [|done].
  intros [= <- <-]. split; [done|]. split; [|done]. intros e [= <-].
  apply existsb_key in E7. split; [done|]. split; [apply TrimSpace_trimmed|done].
Qed.

Lemma convert_lines_entries lines out a out' a' :
  Forall (fun l => 10 ∉ l) lines -> address_ok a -> convert_lines lines out a = inr (out', a') ->
  out' = out ++ lines_of (omap line_entry lines) /\ Forall entry_ok (omap line_entry lines) /\ address_ok a'.
Proof.
  intros HF. revert out a. induction HF as [|l lines Hl _ IH]; intros out a Ha; cbn [convert_lines].
  { intros [= <- <-]. rewrite app_nil_r. done. }
  destruct (convert_line l a) as [e|[new a1]] eqn:E; [done|]. intros Hc.
  destruct (convert_line_entry _ _ _ _ Hl Ha E) as (-> & Hok & Ha1).
  destruct (IH _ _ Ha1 Hc) as (-> & HFe & Ha'). cbn. destruct (line_entry l) as [e|] eqn:El; cbn.
  - unfold lines_of. cbn. rewrite <- app_assoc. split; [done|]. split; [constructor; auto|done].
  - rewrite app_nil_r. done.
Qed.

(** ** The text *)

(** The lines of an entry before its last line, the last line and how the
    last line reads at the end of the text. *)
Definition entry_blank (e : entry) : list (list Z) :=
  match e with Section_ _ => [[]] | Setting _ _ => [] end.

Definition entry_last (e : entry) : list Z :=
  match e with Section_ l => l | Setting k v => k ++ lit " = " ++ v end.

Definition entry_end (e : entry) : list Z :=
  match e with
  | Section_ l => l
  | Setting k v => k ++ (if bytes_eqb v [] then lit " =" else lit " = " ++ v)
  end.

Lemma entry_lines_eq e : entry_lines e = entry_blank e ++ [entry_last e].
Proof. by destruct e. Qed.

Lemma key_allowed k : k ∈ allowed_keys -> k ∈ lit "Address" :: allowed_keys.
Proof. by right. Qed.

Lemma entry_shows_last e : shows e (entry_last e).
Proof. destruct e; cbn; auto. Qed.

Lemma entry_shows_end e : shows e (entry_end e).
Proof. destruct e as [l|k v]; cbn; [done|]. destruct (bytes_eqb v []) eqn:E; [apply bytes_eqb_eq in E|]; auto. Qed.

Lemma shows_props e l : entry_ok e -> shows e l -> 10 ∉ l /\ l <> [].
Proof.
  destruct e as [s|k v]; cbn.
  - intros (_ & ? & [t ->]%HasPrefix_spec & _) ->. done.
  - intros (Hk%key_allowed%key_facts & _ & Hv) Hl.
    destruct Hk as (_ & H10 & _ & _ & _ & Hk). destruct (Hk (lit " = " ++ v)) as (_ & Hn & _).
    assert (10 ∉ lit " = " /\ 10 ∉ lit " =") as [? ?] by decide_closed.
    destruct Hl as [-> |[-> ->]]; [set_solver|]. split; [set_solver|]. by destruct k.
Qed.

Lemma TrimRight_end pre e : entry_ok e -> TrimRight (pre ++ entry_last e) = pre ++ entry_end e.
Proof.
  destruct e as [l|k v]; cbn.
  - intros (_ & _ & _ & [t ->]%HasSuffix_spec). apply TrimRight_id.
    rewrite app_assoc, rev_app_distr. done.
  - intros (Hk & [_ Hv] & _). destruct (bytes_eqb v []) eqn:E.
    + apply bytes_eqb_eq in E as ->.
      replace (pre ++ k ++ lit " = " ++ []) with ((pre ++ k ++ lit " =") ++ [32]) by by rewrite <- !app_assoc.
      apply TrimRight_space. rewrite app_assoc, rev_app_distr. done.
    + assert (v <> []) as Hn by (intros ->; done). apply TrimRight_id.
      replace (pre ++ k ++ lit " = " ++ v) with ((pre ++ k ++ lit " =") ++ 32 :: v) by by rewrite <- !app_assoc.
      by apply clear_back_space.
Qed.

(** Trimming on the left takes the blank line before a first section. *)
Lemma lines_front e es :
  entry_ok e -> exists M, M <> [] /\ (lines_of (e :: es) = M \/ lines_of (e :: es) = [] :: M) /\
  TrimLeft (Join 10 (lines_of (e :: es))) = Join 10 M.
Proof.
  destruct e as [l|k v]; cbn [entry_ok].
  - intros (_ & _ & [t ->]%HasPrefix_spec & _). set (l := lit "[" ++ t).
    assert (lines_of (Section_ l :: es) = [] :: l :: lines_of es) as -> by done.
    exists (l :: lines_of es). split; [done|]. split; [by right|].
    rewrite (Join_cons 10 []) by done. unfold TrimLeft. cbn [app length trim_front].
    change (strip_any spaces (10 :: Join 10 (l :: lines_of es))) with (Some (Join 10 (l :: lines_of es))).
    apply trim_front_clear. by destruct (lines_of es).
  - intros (Hk%key_allowed%key_facts & _). destruct Hk as (_ & _ & _ & _ & _ & Hk).
    exists (lines_of (Setting k v :: es)). split; [done|]. split; [by left|]. apply TrimLeft_id.
    unfold lines_of. cbn. destruct (concat _); rewrite <- ?app_assoc; apply Hk.
Qed.

Lemma Join_last sep L : exists pre, forall l, Join sep (L ++ [l]) = pre ++ l.
Proof.
  destruct L as [|x L]; [by exists []|]. exists (Join sep (x :: L) ++ [sep]). intros l.
  rewrite Join_snoc by done. by rewrite <- app_assoc.
Qed.

Lemma Shown_app L es L' es' : Shown L es -> Shown L' es' -> Shown (L ++ L') (es ++ es').
Proof. induction 1; cbn; auto using Shown. Qed.

Lemma Shown_lines es : Shown (lines_of es) es.
Proof.
  induction es as [|e es IH]; [constructor|]. unfold lines_of. cbn. rewrite entry_lines_eq, <- app_assoc.
  destruct e; cbn; auto 6 using Shown, entry_shows_last.
Qed.

Lemma Shown_unblank L es : Forall entry_ok es -> Shown ([] :: L) es -> Shown L es.
Proof.
  intros Hok H. inversion H as [|? ? H'|? e ? ? Hs]; subst; [done|].
  inversion Hok; subst. by destruct (shows_props e []).
Qed.

Lemma Shown_clean L es : Forall entry_ok es -> Shown L es -> Forall (fun l => 10 ∉ l) L.
Proof.
  intros Hok. induction 1 as [|L es _ IH|l e L es Hs _ IH]; constructor; try apply not_elem_of_nil; auto.
  - inversion Hok; subst. by destruct (shows_props e l).
  - inversion Hok; subst. auto.
Qed.

(** The converted text is the lines of its entries. *)
Lemma text_shown es :
  Forall entry_ok es -> exists L, Shown L es /\ TrimSpace (Join 10 (lines_of es)) = Join 10 L.
Proof.
  intros Hok. destruct es as [|e0 es0 _] using rev_ind; [exists []; split; [constructor|done]|].
  pose proof Hok as [Hok0 He]%Forall_app. apply Forall_inv in He.
  set (full := lines_of es0 ++ entry_blank e0).
  assert (lines_of (es0 ++ [e0]) = full ++ [entry_last e0]) as Hfull.
  { unfold lines_of, full. rewrite map_app, concat_app. cbn.
    by rewrite app_nil_r, entry_lines_eq, app_assoc. }
  assert (Shown (full ++ [entry_end e0]) (es0 ++ [e0])) as Hsh.
  { unfold full. rewrite <- app_assoc. apply Shown_app; [apply Shown_lines|].
    pose proof (entry_shows_end e0). destruct e0; cbn [entry_blank app]; auto using Shown. }
  assert (exists M, M <> [] /\ (full ++ [entry_last e0] = M \/ full ++ [entry_last e0] = [] :: M) /\
    TrimLeft (Join 10 (full ++ [entry_last e0])) = Join 10 M) as (M & HM & HMe & Ht).
  { rewrite <- Hfull. destruct (es0 ++ [e0]) as [|e es] eqn:E; [by destruct es0|].
    apply lines_front. by inversion Hok. }
  assert (exists M0, M = M0 ++ [entry_last e0] /\ Shown (M0 ++ [entry_end e0]) (es0 ++ [e0])) as (M0 & -> & HM0).
  { destruct HMe as [<- |HMe]; [by exists full|]. destruct full as [|x M0].
    { cbn in HMe. injection HMe as _ HMe. congruence. }
    injection HMe as -> <-. exists M0. split; [done|]. by apply Shown_unblank. }
  exists (M0 ++ [entry_end e0]). split; [done|]. unfold TrimSpace. rewrite Hfull, Ht.
  destruct (Join_last 10 M0) as [pre Hpre]. rewrite !Hpre.
  by apply TrimRight_end.
Qed.

(** ** Converting the output again *)

Lemma convert_shows e l a :
  entry_ok e -> shows e l -> convert_line l a = inr (entry_lines e, a).
Proof.
  destruct e as [s|k v]; cbn [entry_ok shows].
  - intros (Ht & _ & Hp & Hs) ->. unfold convert_line. rewrite TrimSpace_id by done. rewrite Hp, Hs.
    apply HasPrefix_spec in Hp as [t ->]. done.
  - intros Hok Hl. pose proof Hok as (Hk & Hv & _). pose proof (allowed_not_address k Hk) as Hna. pose proof (key_facts k (key_allowed k Hk)) as
      (H61 & _ & Htk & Heq & Hd & Hc). apply existsb_key in Hk as Hk'.
    assert (TrimSpace l = k ++ (if bytes_eqb v [] then lit " =" else lit " = " ++ v)) as Ht.
    { unfold TrimSpace. rewrite TrimLeft_id by (destruct Hl as [-> |[_ ->]]; apply Hc).
      destruct Hl as [-> |[-> ->]]; [by apply (TrimRight_end [] (Setting k v))|by apply TrimRight_id]. }
    unfold convert_line. rewrite Ht.
    destruct (Hc (if bytes_eqb v [] then lit " =" else lit " = " ++ v)) as (_ & Hn & -> & ->).
    assert (bytes_eqb (k ++ (if bytes_eqb v [] then lit " =" else lit " = " ++ v)) [] = false) as ->
      by by apply bool_decide_eq_false.
    assert (cut 61 (k ++ (if bytes_eqb v [] then lit " =" else lit " = " ++ v)) =
      Some (k ++ [32], if bytes_eqb v [] then [] else 32 :: v)) as ->.
    { assert (61 ∉ k ++ [32]) as Hn' by (rewrite not_elem_of_app; split; [done|decide_closed]).
      rewrite <- (cut_app 61 (k ++ [32])) by done. f_equal. rewrite <- app_assoc. by case_if. }
    cbn [andb]. rewrite Htk, Hna, Hd, Hk'. cbn [negb]. repeat f_equal. cbn.
    destruct (bytes_eqb v []) eqn:E; [apply bytes_eqb_eq in E as ->; done|]. by rewrite TrimSpace_space.
Qed.

Lemma convert_shown L es out a :
  Shown L es -> Forall entry_ok es -> convert_lines L out a = inr (out ++ lines_of es, a).
Proof.
  intros Hs. revert out. induction Hs as [|L es _ IH|l e L es Hl _ IH]; intros out Hok; cbn [convert_lines].
  - by rewrite app_nil_r.
  - change (convert_line [] a) with (@inr convert_error _ (@nil (list Z), a)).
    cbv beta iota. rewrite app_nil_r. auto.
  - inversion Hok; subst. rewrite (convert_shows e) by done. rewrite IH by done.
    by rewrite <- app_assoc.
Qed.

Lemma dropCR_snoc t c : c <> 13 -> dropCR (t ++ [c]) = t ++ [c].
Proof.
  intros Hc. unfold dropCR. rewrite rev_app_distr. cbn.
  destruct c as [|p|p]; auto. do 4 (destruct p as [p|p|]; auto). done.
Qed.

(** No line that begins and ends in something visible loses a byte to the
    scanner. *)
Lemma dropCR_clear l : clear (map (@rev Z) spaces) (rev l) -> dropCR l = l.
Proof.
  destruct l as [|c l _] using rev_ind; [done|]. intros H. apply dropCR_snoc. intros ->.
  rewrite rev_app_distr in H. done.
Qed.

Lemma dropCR_shows e l : entry_ok e -> shows e l -> dropCR l = l.
Proof.
  destruct e as [s|k v]; cbn [entry_ok shows].
  - intros ([_ H] & _) ->. by apply dropCR_clear.
  - intros (_ & [_ Hv] & _) [-> |[-> ->]].
    + destruct v as [|c v _] using rev_ind.
      * rewrite app_nil_r. change (lit " = ") with (lit " =" ++ [32]). rewrite app_assoc. by apply dropCR_snoc.
      * replace (k ++ lit " = " ++ v ++ [c]) with ((k ++ lit " = " ++ v) ++ [c]) by by rewrite <- !app_assoc.
        apply dropCR_snoc. intros ->. rewrite rev_app_distr in Hv. done.
    + change (lit " =") with (lit " " ++ [61]). rewrite app_assoc. by apply dropCR_snoc.
Qed.

Lemma dropCR_shown L es : Shown L es -> Forall entry_ok es -> map dropCR L = L.
Proof.
  induction 1 as [|L es _ IH|l e L es Hs _ IH]; intros Hok; cbn; [done| |].
  - by rewrite IH.
  - inversion Hok; subst. rewrite (dropCR_shows e), IH; done.
Qed.

(** ** The conversion *)

Lemma convertConfig_inv input out addr :
  convertConfig input = inr (out, addr) ->
  exists L, let es := omap line_entry (scan_lines input []).1 in
  out = Join 10 L ++ [10] /\ Shown L es /\ Forall entry_ok es /\ address_ok addr /\ addr <> [] /\
  TrimSpace (Join 10 (lines_of es)) = Join 10 L.
Proof.
  unfold convertConfig. destruct (scan_lines input []) as [lines ok] eqn:Es. cbn [fst].
  apply scan_lines_no_newline in Es; [|apply not_elem_of_nil].
  destruct (convert_lines lines [] []) as [e|[o a]] eqn:Ec; [done|].
  destruct (convert_lines_entries _ _ _ _ _ Es address_ok_nil Ec) as (-> & Hok & Ha).
  destruct ok; [|done]. destruct (bytes_eqb a []) eqn:Ea; [done|]. cbn [negb app]. intros [= <- <-].
  destruct (text_shown _ Hok) as (L & HL & HJ). exists L. rewrite HJ.
  split; [done|]. split; [done|]. split; [done|]. split; [done|]. split; [|done]. intros ->. done.
Qed.

Lemma Split_text L es :
  Shown L es -> Forall entry_ok es -> Split 10 (Join 10 L) = match L with [] => [[]] | _ => L end.
Proof.
  intros Hs Hok. destruct L as [|l L]; [done|]. apply Split_Join; [done|]. by apply (Shown_clean _ es).
Qed.

Lemma Split_end sep s : Split sep (s ++ [sep]) = Split sep s ++ [[]].
Proof.
  induction s as [|c s IH]; cbn; [by rewrite Z.eqb_refl|]. case_if; [by rewrite IH|].
  rewrite IH. by destruct (Split sep s) as [|w ws] eqn:E; [apply Split_nonempty in E|].
Qed.

(** A line of a configuration the [wg] tool reads. *)
Definition config_line (l : list Z) : Prop :=
  l = [] \/ (HasPrefix l (lit "[") = true /\ HasSuffix l (lit "]") = true) \/
  exists key val, key ∈ allowed_keys /\ (l = key ++ lit " = " ++ val \/ l = key ++ lit " =").

Lemma Shown_config L es : Shown L es -> Forall entry_ok es -> Forall config_line L.
Proof.
  induction 1 as [|L es _ IH|l e L es Hs _ IH]; intros Hok; constructor; auto; [by left| |].
  - inversion Hok as [|? ? He]; subst. right. destruct e as [s|k v]; cbn in He, Hs.
    + subst. left. tauto.
    + right. exists k, v. tauto.
  - inversion Hok; auto.
Qed.

(** C31: Every line of a configuration [convertConfig] accepts is blank, a
    section header or a setting with one of the keys [wg] knows: no [PostUp]
    or other command of the uploaded file is left in it. The sections and
    settings are those of the upload, all of them and in their order, and the
    address is one trimmed entry. *)
Theorem convert_sanitized (input out addr : list Z) :
  convertConfig input = inr (out, addr) ->
  Forall config_line (Split 10 out) /\
  (exists L, out = Join 10 L ++ [10] /\ Shown L (omap line_entry (scan_lines input []).1)) /\
  addr <> [] /\ TrimSpace addr = addr /\ 44 ∉ addr.
Proof.
  intros (L & -> & Hs & Hok & (Ht & Hc & _) & Hn & _)%convertConfig_inv.
  split; [|split; [by exists L|split; [done|split; [by apply TrimSpace_id|done]]]].
  rewrite Split_end, (Split_text L _ Hs Hok). apply Forall_app. split; [|constructor; [by left|done]].
  destruct L as [|l L]; [constructor; [by left|done]|]. by apply (Shown_config _ _ Hs).
Qed.

(** Converting is idempotent: the output with the address put back is
    converted to itself, if no line is too long for the scanner. *)
Theorem convert_idempotent (input out addr : list Z) :
  convertConfig input = inr (out, addr) ->
  Forall short (Split 10 (lit "Address = " ++ addr ++ [10] ++ out)) ->
  convertConfig (lit "Address = " ++ addr ++ [10] ++ out) = inr (out, addr).
Proof.
  intros (L & -> & Hs & Hok & Ha & Hn & HJ)%convertConfig_inv.
  set (es := omap line_entry _) in *. pose proof Ha as ([_ Hb] & _ & H10).
  assert (lit "Address = " ++ addr ++ [10] ++ Join 10 L ++ [10] =
    ((lit "Address = " ++ addr) ++ 10 :: Join 10 L) ++ [10]) as -> by by rewrite <- !app_assoc.
  rewrite Split_end. intros [Hsh _]%Forall_app.
  unfold convertConfig. rewrite scan_lines_split by done.
  rewrite Split_app by (rewrite not_elem_of_app; split; [decide_closed|done]).
  rewrite (Split_text L _ Hs Hok). cbn [map].
  assert (clear (map (@rev Z) spaces) (rev (lit "Address = " ++ addr))) as Hb'
    by by apply (clear_back_space (lit "Address =")).
  rewrite dropCR_clear by done.
  assert (convert_line (lit "Address = " ++ addr) [] = inr ([], addr)) as E.
  { unfold convert_line. rewrite TrimSpace_id by done. cbn -[TrimSpace firstIPv4OrFirst lit].
    assert (cut 61 (lit "Address = " ++ addr) = Some (lit "Address ", 32 :: addr)) as -> by done.
    change (TrimSpace (lit "Address ")) with (lit "Address"). rewrite bytes_eqb_refl.
    rewrite TrimSpace_space by apply Ha. by rewrite firstIPv4OrFirst_id. }
  cbn [convert_lines]. rewrite E. cbn [app].
  assert (convert_lines (map dropCR match L with [] => [[]] | _ => L end) [] addr = inr (lines_of es, addr)) as ->.
  { destruct L as [|l L]; [inversion Hs; done|]. rewrite (dropCR_shown _ _ Hs Hok). by rewrite (convert_shown _ es). }
  cbn [negb]. rewrite HJ. assert (bytes_eqb addr [] = false) as -> by by apply bool_decide_eq_false. done.
Qed.

(** ** A sample upload *)

Definition sample_conf : list Z := lit "[Interface]
PrivateKey = aGk=
Address = fd00::2/64, 10.0.0.2/32
PostUp = reboot

[Peer]
 PublicKey=eA==
PersistentKeepalive =
".

Definition sample_out : list Z := lit "[Interface]
PrivateKey = aGk=

[Peer]
PublicKey = eA==
PersistentKeepalive =
".

Lemma sample_converts : convertConfig sample_conf = inr (sample_out, lit "10.0.0.2/32").
Proof. vm_compute. reflexivity. Qed.

Lemma convert_sanitized_witness :
  convertConfig sample_conf = inr (sample_out, lit "10.0.0.2/32") /\ Forall config_line (Split 10 sample_out).
Proof.
  split; [exact sample_converts|]. exact (proj1 (convert_sanitized _ _ _ sample_converts)).
Defined.

Lemma sample_short :
  Forall short (Split 10 (lit "Address = " ++ lit "10.0.0.2/32" ++ [10] ++ sample_out)).
Proof.
  apply Forall_forall. intros l Hl. unfold short.
  assert (Forall (fun l => length l <= 30)%nat (Split 10 (lit "Address = " ++ lit "10.0.0.2/32" ++ [10] ++ sample_out)))
    as HF by decide_closed.
  rewrite Forall_forall in HF. specialize (HF l Hl). transitivity 31%nat; [lia|].
  apply Nat.leb_le. vm_compute. reflexivity.
Qed.

