(* ===== verification/UploadServer.v ===== *)
(** * The upload server: who may write what, and when it stops

    Every request is answered. Files change only for a request that carries
    the access code and a configuration that converts, and only in the two
    directories of the program. Five wrong codes, an accepted upload or the
    timer schedule the end of the server. Nothing a client sends appears
    unescaped in a page. *)

From Stdlib Require Import Ascii String.
From stdpp Require Import base numbers list gmap.
From S2P Require Import Prelude Setters GoStrings GoText Env Upload UploadConfig.

Open Scope Z_scope.

#[local] Arguments lit : simpl never.

#[local] Opaque maxUpload.

(** ** Paths *)

Lemma until_slash_no_slash s : slash ∉ until_slash s.
Proof.
  induction s as [|c s IH]; cbn; [apply not_elem_of_nil|]. case_if; [apply not_elem_of_nil|].
  rewrite elem_of_cons. intros [|]; [congruence|done].
Qed.

Lemma Base_no_slash path : Base path = lit "/" \/ slash ∉ Base path.
Proof.
  unfold Base. destruct path as [|c path]; [right; decide_closed|].
  destruct (rev (until_slash _)) as [|x s] eqn:E; [by left|]. right. rewrite <- E, elem_of_rev.
  apply until_slash_no_slash.
Qed.

Lemma pad_no_slash n x : slash ∉ pad n x.
Proof.
  revert x. induction n as [|n IH]; intros x; cbn; [apply not_elem_of_nil|].
  rewrite not_elem_of_app. split; [apply IH|]. rewrite list_elem_of_singleton. unfold slash.
  pose proof (Z.mod_pos_bound x 10). lia.
Qed.

Lemma Format_no_slash t z : slash ∉ Format t z.
Proof.
  unfold Format. destruct (civil _) as [[y m] d].
  rewrite !not_elem_of_app. repeat split; try apply pad_no_slash. decide_closed.
Qed.

Definition uploads_prefix : list Z := lit "/var/lib/webosbrew/wireguard/uploads/uploaded-".

(** A file below [uploads], in the directory itself. *)
Definition upload_file (p : list Z) : Prop := exists x, slash ∉ x /\ p = uploads_prefix ++ x.

Definition uploads_dir : list Z := lit "/var/lib/webosbrew/wireguard/uploads/".

Lemma Split_uploads e :
  Split slash (uploads_dir ++ e) =
  [[]; lit "var"; lit "lib"; lit "webosbrew"; lit "wireguard"; lit "uploads"] ++ Split slash e.
Proof. reflexivity. Qed.

Lemma Clean_uploads e : slash ∉ e -> Clean (uploads_dir ++ 117 :: e) = uploads_dir ++ 117 :: e.
Proof.
  intros He. unfold Clean. rewrite Split_uploads, Split_single; [reflexivity|].
  rewrite elem_of_cons. intros [|]; done.
Qed.

Lemma Clean_uploads_slash e : slash ∉ e -> Clean (uploads_dir ++ (117 :: e) ++ [slash]) = uploads_dir ++ 117 :: e.
Proof.
  intros He. unfold Clean. rewrite Split_uploads, Split_app; [reflexivity|].
  rewrite elem_of_cons. intros [|]; done.
Qed.

Lemma backup_path_upload ts name : slash ∉ ts -> upload_file (backup_path ts name).
Proof.
  intros Hts. unfold backup_path. set (pre := lit "ploaded-" ++ ts ++ lit "-").
  assert (forall b, path_Join [base; lit "uploads"; lit "uploaded-" ++ ts ++ lit "-" ++ b] =
    Clean (uploads_dir ++ 117 :: (pre ++ b))) as ->.
  { intros b. unfold pre. rewrite <- !app_assoc. reflexivity. }
  assert (slash ∉ pre) as Hpre.
  { unfold pre. rewrite !not_elem_of_app. split; [decide_closed|]. split; [done|decide_closed]. }
  destruct (Base_no_slash name) as [-> |Hb].
  - exists (ts ++ lit "-"). split; [rewrite not_elem_of_app; split; [done|decide_closed]|].
    change (117 :: pre ++ lit "/") with ((117 :: pre) ++ [slash]). rewrite Clean_uploads_slash by done. reflexivity.
  - exists (ts ++ lit "-" ++ Base name).
    split; [rewrite !not_elem_of_app; split; [done|split; [decide_closed|done]]|].
    rewrite Clean_uploads by (rewrite not_elem_of_app; done). unfold pre, uploads_prefix.
    rewrite <- !app_assoc. reflexivity.
Qed.

Lemma conf_path_eq : conf_path = lit "/var/lib/webosbrew/wireguard/conf/wg0.conf".
Proof. reflexivity. Qed.

Lemma address_path_eq : address_path = lit "/var/lib/webosbrew/wireguard/conf/address".
Proof. reflexivity. Qed.

Lemma conf_address_path : address_path <> conf_path.
Proof. decide_closed. Qed.

Lemma upload_file_other p : upload_file p -> p <> conf_path /\ p <> address_path.
Proof. intros (x & _ & ->). rewrite conf_path_eq, address_path_eq. done. Qed.

#[local] Opaque conf_path address_path.

(** ** What a request may change *)

Definition confined (p : list Z) : Prop := p = conf_path \/ p = address_path \/ upload_file p.

(** A path keeps its entry, or it is confined and has been written: a new file
    with mode 0600, an old one with the mode it had. *)
Definition touched (m m' : gmap (list Z) (list Z * Z)) (p : list Z) : Prop :=
  m' !! p = m !! p \/
  (confined p /\ exists d, m' !! p = Some (d, from_option snd mode_file (m !! p))).

Record writes (s s' : Server) : Prop := {
  w_token : token s' = token s;
  w_tokenFile : tokenFile s' = tokenFile s;
  w_failed : failedAttempts s' = failedAttempts s;
  w_timer : timer s' = timer s;
  w_listening : listening s' = listening s;
  w_clock : s_clock s' = s_clock s;
  w_zone : zone s' = zone s;
  w_fs : forall p, touched (fs s) (fs s') p;
  w_shutdown : forall t, shutdown s = Some t -> shutdown s' = Some t
}.

Lemma touched_refl m p : touched m m p.
Proof. by left. Qed.

Lemma touched_trans m1 m2 m3 p : touched m1 m2 p -> touched m2 m3 p -> touched m1 m3 p.
Proof.
  intros [E1|[C1 [d1 E1]]] [E2|[C2 [d2 E2]]].
  - left. congruence.
  - right. split; [done|]. exists d2. by rewrite <- E1.
  - right. split; [done|]. exists d1. congruence.
  - right. split; [done|]. exists d2. rewrite E1 in E2. exact E2.
Qed.

#[export] Instance writes_preorder : PreOrder writes.
Proof.
  split.
  - intros s. split; auto using touched_refl.
  - intros s1 s2 s3 [] []. split; try congruence; eauto using touched_trans.
Qed.

Lemma put_file_touched p d m : confined p -> forall q, touched m (put_file p d mode_file m) q.
Proof.
  intros Hp q. unfold put_file. destruct (decide (q = p)) as [-> |Hq].
  - right. split; [done|]. exists d. rewrite lookup_insert_eq. by destruct (m !! p) as [[? ?]|].
  - left. by rewrite lookup_insert_ne.
Qed.

Lemma next_call_writes : pres writes next_call.
Proof. intros s a s' [= <- <-]. split; auto using touched_refl. Qed.

Lemma MkdirAll_writes p mode : pres writes (MkdirAll p mode).
Proof.
  unfold MkdirAll. apply pres_bind; [apply _|apply next_call_writes|]. intros [|]; [|apply pres_ret; apply _].
  apply pres_bind; [apply _| |intros _; apply pres_ret; apply _].
  apply pres_modify. intros s. split; auto using touched_refl.
Qed.

Lemma put_writes p d : confined p -> pres writes (modify (fun s => s <| fs := put_file p d mode_file (fs s) |>)).
Proof. intros Hp. apply pres_modify. intros s. split; try done. by apply put_file_touched. Qed.

Lemma WriteFile_writes p d : confined p -> pres writes (WriteFile p d mode_file).
Proof.
  intros Hp. unfold WriteFile. apply pres_bind; [apply _|apply next_call_writes|]. intros [|err [x|]].
  all: apply pres_bind; try apply _; auto using put_writes; try apply pres_ret; try apply _.
  all: intros _; apply pres_ret; apply _.
Qed.

Lemma shutdownServer_writes : pres writes shutdownServer.
Proof.
  apply pres_modify. intros s. destruct (shutdown s) eqn:E; [reflexivity|].
  split; auto using touched_refl. congruence.
Qed.

Lemma or_500_writes lang call rest : pres writes call -> pres writes rest -> pres writes (or_500 lang call rest).
Proof.
  intros Hc Hr. apply pres_bind; [apply _|done|]. intros [e|]; [apply pres_ret; apply _|done].
Qed.

Lemma store_writes lang name data converted address : pres writes (store lang name data converted address).
Proof.
  unfold store. apply or_500_writes; [apply MkdirAll_writes|]. apply or_500_writes; [apply MkdirAll_writes|].
  intros s a s' (ts & s1 & [= <- <-] & H)%bind_inv. revert s a s' H.
  assert (forall t z, pres writes
    (or_500 lang (WriteFile (backup_path (Format t z) name) data mode_file)
      (or_500 lang (WriteFile conf_path converted mode_file)
        (or_500 lang (WriteFile address_path (address ++ [10]) mode_file)
          (shutdownServer;; mret (writeSuccess lang (backup_path (Format t z) name) address)))))) as H;
    [|intros s; apply (H (s_clock s) (zone s))].
  intros t z. apply or_500_writes.
  { apply WriteFile_writes. right. right. apply backup_path_upload, Format_no_slash. }
  apply or_500_writes; [apply WriteFile_writes; by left|].
  apply or_500_writes; [apply WriteFile_writes; right; by left|].
  apply pres_bind; [apply _|apply shutdownServer_writes|]. intros _. apply pres_ret; apply _.
Qed.

(** ** The outcome of a request *)

Lemma or_500_run lang call rest s :
  (exists err s1, call s = Some (err, s1)) -> (forall s, exists resp s', rest s = Some (resp, s')) ->
  exists resp s', or_500 lang call rest s = Some (resp, s').
Proof.
  intros (err & s1 & E) Hr. unfold or_500. rewrite (bind_run _ _ _ _ _ E). destruct err; [by eauto|]. apply Hr.
Qed.

Lemma MkdirAll_run p mode s : exists err s1, MkdirAll p mode s = Some (err, s1).
Proof.
  unfold MkdirAll, next_call. rewrite bind_eq. destruct (default Done (head (os_calls s))); eexists _, _; reflexivity.
Qed.

Lemma WriteFile_run p d mode s : exists err s1, WriteFile p d mode s = Some (err, s1).
Proof.
  unfold WriteFile, next_call. rewrite bind_eq.
  destruct (default Done (head (os_calls s))) as [|e [x|]]; eexists _, _; reflexivity.
Qed.

Lemma store_run lang name data converted address s :
  exists resp s', store lang name data converted address s = Some (resp, s').
Proof.
  unfold store. apply or_500_run; [apply MkdirAll_run|]. intros s1.
  apply or_500_run; [apply MkdirAll_run|]. intros s2. rewrite bind_eq, gets_eq.
  apply or_500_run; [apply WriteFile_run|]. intros s3.
  apply or_500_run; [apply WriteFile_run|]. intros s4.
  apply or_500_run; [apply WriteFile_run|]. intros s5. eexists _, _; reflexivity.
Qed.

Lemma or_500_inv lang call rest s resp s' :
  or_500 lang call rest s = Some (resp, s') ->
  (exists e, resp = writeError lang StatusInternalServerError e) \/
  exists s1, call s = Some (None, s1) /\ rest s1 = Some (resp, s').
Proof.
  intros (err & s1 & E & H)%bind_inv. destruct err as [e|]; [|by eauto].
  injection H as <- <-. by eauto.
Qed.

Lemma WriteFile_ok p d mode s s1 : WriteFile p d mode s = Some (None, s1) -> exists m, fs s1 !! p = Some (d, m).
Proof.
  unfold WriteFile, next_call. rewrite bind_eq.
  destruct (default Done (head (os_calls s))) as [|e [x|]]; cbn; [|done..].
  intros [= <-]. cbn. unfold put_file. eexists. apply lookup_insert_eq.
Qed.

(** A file written before another one is still there. *)
Lemma WriteFile_other p q d mode s r s1 : p <> q -> WriteFile p d mode s = Some (r, s1) -> fs s1 !! q = fs s !! q.
Proof.
  intros Hn. unfold WriteFile, next_call. rewrite bind_eq.
  destruct (default Done (head (os_calls s))) as [|e [x|]]; cbn; intros [= <- <-]; cbn; [|..|done];
    unfold put_file; by rewrite lookup_insert_ne.
Qed.

(** The three files are stored and the end is scheduled. *)
Definition stored (data converted address : list Z) (s : Server) : Prop :=
  (exists m, fs s !! conf_path = Some (converted, m)) /\
  (exists m, fs s !! address_path = Some (address ++ [10], m)) /\
  (exists p m, upload_file p /\ fs s !! p = Some (data, m)).

Lemma store_inv lang name data converted address s resp s' :
  store lang name data converted address s = Some (resp, s') ->
  (exists e, resp = writeError lang StatusInternalServerError e) \/
  ((exists backup, resp = writeSuccess lang backup address) /\
   stored data converted address s' /\ exists t, shutdown s' = Some t).
Proof.
  unfold store. intros [He|(s1 & _ & H)]%or_500_inv; [by left|].
  apply or_500_inv in H as [He|(s2 & _ & H)]; [by left|].
  apply bind_inv in H as (ts & ? & [= <- <-] & H).
  set (b := backup_path (Format (s_clock s2) (zone s2)) name) in *.
  assert (upload_file b) as Hb by apply backup_path_upload, Format_no_slash.
  destruct (upload_file_other b Hb) as [Hc Ha].
  apply or_500_inv in H as [He|(s3 & W1 & H)]; [by left|].
  apply or_500_inv in H as [He|(s4 & W2 & H)]; [by left|].
  apply or_500_inv in H as [He|(s5 & W3 & H)]; [by left|].
  right. rewrite bind_eq in H. unfold shutdownServer in H. rewrite modify_eq in H. injection H as <- <-.
  destruct (WriteFile_ok _ _ _ _ _ W1) as [m1 F1]. destruct (WriteFile_ok _ _ _ _ _ W2) as [m2 F2].
  destruct (WriteFile_ok _ _ _ _ _ W3) as [m3 F3].
  pose proof (WriteFile_other _ b _ _ _ _ _ (not_eq_sym Hc) W2) as O2.
  pose proof (WriteFile_other _ b _ _ _ _ _ (not_eq_sym Ha) W3) as O3.
  pose proof (WriteFile_other _ conf_path _ _ _ _ _ conf_address_path W3) as O4.
  split; [by eexists|]. split; [|destruct (shutdown s5) eqn:E; cbn; eauto].
  assert (stored data converted address s5) as Hs.
  { split; [exists m2; congruence|]. split; [by exists m3|]. exists b, m1. split; [done|congruence]. }
  destruct (shutdown s5); exact Hs.
Qed.

(** The request that may store: a POST with the access code. *)
Definition authorised (r : Request) (s : Server) : Prop :=
  Path r = lit "/upload" /\ Method r = lit "POST" /\
  is_Some (ParseMultipartForm (Some maxUpload) r) /\ FormValue (Some maxUpload) r (lit "token") = token s.

(** A multipart POST with another code. *)
Definition wrong_code (r : Request) (s : Server) : Prop :=
  Path r = lit "/upload" /\ Method r = lit "POST" /\
  is_Some (ParseMultipartForm (Some maxUpload) r) /\ FormValue (Some maxUpload) r (lit "token") <> token s.

(** The configuration a request carries. *)
Definition carries (r : Request) (name data : list Z) : Prop :=
  exists files file bytes, ParseMultipartForm (Some maxUpload) r = Some files /\
    FormFile (lit "conf") files = Some file /\ Filename file = name /\ content file = Some bytes /\
    data = limited maxUpload bytes.

Inductive outcome (r : Request) (s : Server) (resp : Response) (s' : Server) : Prop :=
| Answered :
    s' = s -> ~ wrong_code r s -> status resp <> StatusForbidden -> status resp <> StatusTooManyRequests ->
    (forall args, page resp <> SuccessPage args) -> outcome r s resp s'
| Rejected lang :
    wrong_code r s -> reject lang s = Some (resp, s') -> outcome r s resp s'
| Stored lang name data converted address :
    authorised r s -> carries r name data -> convertConfig data = inr (converted, address) ->
    store lang name data converted address s = Some (resp, s') -> outcome r s resp s'.

Lemma reject_run lang s : exists resp s', reject lang s = Some (resp, s').
Proof.
  unfold reject. st. destruct (_ >=? _); eexists _, _; reflexivity.
Qed.

Lemma serve_outcome r s : exists resp s', serve r s = Some (resp, s') /\ outcome r s resp s'.
Proof.
  unfold serve. destruct (bytes_eqb (Path r) (lit "/upload")) eqn:Ep.
  2:{ assert (~ wrong_code r s) by (intros (E & _); rewrite E in Ep; done).
      case_if; [by eexists _, _; split; [done|apply Answered]|]. unfold index.
      case_if; eexists _, _; (split; [reflexivity|apply Answered; done]). }
  apply bytes_eqb_eq in Ep. unfold upload. destruct (bytes_eqb (Method r) (lit "POST")) eqn:Em; cbn [negb].
  2:{ assert (~ wrong_code r s) by (intros (_ & E & _); rewrite E in Em; done).
      eexists _, _; split; [reflexivity|by apply Answered]. }
  apply bytes_eqb_eq in Em. destruct (ParseMultipartForm (Some maxUpload) r) as [files|] eqn:Ef.
  2:{ assert (~ wrong_code r s) by (intros (_ & _ & [? E] & _); congruence).
      eexists _, _; split; [reflexivity|by apply Answered]. }
  rewrite bind_eq, gets_eq. set (lang := normalizeLang _).
  destruct (bytes_eqb (FormValue (Some maxUpload) r (lit "token")) (token s)) eqn:Et; cbn [negb].
  2:{ destruct (reject_run lang s) as (resp & s' & E). exists resp, s'. split; [done|].
      apply (Rejected _ _ _ _ lang); [|done]. split; [done|]. split; [done|]. split; [by rewrite Ef|].
      by apply bool_decide_eq_false in Et. }
  apply bytes_eqb_eq in Et.
  assert (~ wrong_code r s) by (intros (_ & _ & _ & E); congruence).
  destruct (FormFile (lit "conf") files) as [file|] eqn:Eff; [|eexists _, _; split; [reflexivity|by apply Answered]].
  destruct (content file) as [bytes|] eqn:Eb; [|eexists _, _; split; [reflexivity|by apply Answered]].
  destruct (convertConfig (limited maxUpload bytes)) as [e|[converted address]] eqn:Ec;
    [eexists _, _; split; [reflexivity|by apply Answered]|].
  destruct (store_run lang (Filename file) (limited maxUpload bytes) converted address s) as (resp & s' & E).
  exists resp, s'. split; [done|]. apply (Stored _ _ _ _ lang (Filename file) (limited maxUpload bytes) converted address);
    [|by exists files, file, bytes|done|done].
  split; [done|]. split; [done|]. split; [by rewrite Ef|done].
Qed.

Definition accepted (resp : Response) : Prop := exists args, page resp = SuccessPage args.

Lemma outcome_effect r s resp s' :
  outcome r s resp s' ->
  (forall p, touched (fs s) (fs s') p) /\
  (fs s' <> fs s \/ dirs s' <> dirs s \/ accepted resp ->
   exists name data converted address, authorised r s /\ carries r name data /\
     convertConfig data = inr (converted, address) /\ (accepted resp -> stored data converted address s')).
Proof.
  intros [-> _ _ _ Hp|lang _ Hr|lang name data converted address Ha Hc Hv Hst].
  - split; [apply touched_refl|]. intros [|[|[args E]]]; [done|done|]. by destruct (Hp args).
  - assert (fs s' = fs s /\ dirs s' = dirs s /\ ~ accepted resp) as (Ef & Ed & Hna).
    { revert Hr. unfold reject. st. unfold shutdownServer. destruct (_ >=? _).
      - rewrite bind_eq, modify_eq. intros [= <- <-]. cbn.
        destruct (shutdown s); (split; [done|]; split; [done|]; by intros [? [=]]).
      - intros [= <- <-]. split; [done|]. split; [done|]. by intros [? [=]]. }
    split; [intros p; left; by rewrite Ef|]. intros [|[|]]; done.
  - split; [apply (store_writes _ _ _ _ _ _ _ _ Hst)|]. intros _.
    exists name, data, converted, address. split; [done|]. split; [done|]. split; [done|].
    intros [args Hargs]. apply store_inv in Hst as [[e ->]|(_ & H & _)]; [discriminate Hargs|done].
Qed.

(** C30: Every request is answered, and only the holder of the access code
    changes anything: the file system or a directory changes, or the upload is
    accepted, only for a multipart POST to [/upload] with the server's token and
    a configuration that converts. Only [conf/wg0.conf], [conf/address] and files
    directly in [uploads] are written, whatever file name the client sends, new
    ones with mode 0600; an accepted upload leaves the converted configuration,
    its address and the original text in them. *)
Theorem upload_authorised (r : Request) (s : Server) :
  exists resp s', serve r s = Some (resp, s') /\
  (forall p, touched (fs s) (fs s') p) /\
  (fs s' <> fs s \/ dirs s' <> dirs s \/ accepted resp ->
   exists name data converted address, authorised r s /\ carries r name data /\
     convertConfig data = inr (converted, address) /\ (accepted resp -> stored data converted address s')).
Proof.
  destruct (serve_outcome r s) as (resp & s' & E & Ho). exists resp, s'. split; [done|]. by apply outcome_effect in Ho.
Qed.

(** ** When the server stops *)

(** The answer to a wrong access code. *)
Definition guess (resp : Response) : bool :=
  (status resp =? StatusForbidden) || (status resp =? StatusTooManyRequests).

Definition guesses (rs : list Response) : Z := zlen (List.filter guess rs).

(** What every event keeps and what the answer says of the state after it. *)
Record serves (s : Server) (o : option Response) (s' : Server) : Prop := {
  sv_token : token s' = token s;
  sv_tokenFile : tokenFile s' = tokenFile s;
  sv_timer : timer s' = timer s;
  sv_failed : failedAttempts s' = failedAttempts s + guesses (option_list o);
  sv_shutdown : forall t, shutdown s = Some t -> shutdown s' = Some t;
  sv_locked : guesses (option_list o) > 0 -> maxFailedAttempts <= failedAttempts s' -> is_Some (shutdown s');
  sv_accepted : (exists resp, o = Some resp /\ accepted resp) -> is_Some (shutdown s')
}.

Lemma serves_quiet s s' :
  token s' = token s -> tokenFile s' = tokenFile s -> timer s' = timer s ->
  failedAttempts s' = failedAttempts s -> (forall t, shutdown s = Some t -> shutdown s' = Some t) ->
  serves s None s'.
Proof. intros. split; try done; unfold guesses, zlen; cbn; [lia|]. intros (? & [=] & _). Qed.

Lemma reject_serves lang s resp s' : reject lang s = Some (resp, s') -> serves s (Some resp) s'.
Proof.
  unfold reject, shutdownServer. st. destruct (_ >=? _) eqn:E.
  - rewrite bind_eq, modify_eq. intros [= <- <-]. cbn.
    destruct (shutdown s) eqn:Es; split; try done; cbn; try (by intros; simplify_eq); eauto;
      intros (? & [= <-] & [? [=]]).
  - intros [= <- <-]. zbool. split; try done; cbn in *; try lia. intros (? & [= <-] & [? [=]]).
Qed.

Lemma serve_serves r s resp s' : serve r s = Some (resp, s') -> serves s (Some resp) s'.
Proof.
  intros E. destruct (serve_outcome r s) as (resp1 & s1 & E1 & Ho). rewrite E1 in E. injection E as -> ->.
  destruct Ho as [-> _ H1 H2 Hp|lang _ Hr|lang name data converted address Ha Hc Hv Hst].
  - assert (guesses (option_list (Some resp)) = 0) as Hg.
    { unfold guesses. cbn. unfold guess. by rewrite (proj2 (Z.eqb_neq _ _) H1), (proj2 (Z.eqb_neq _ _) H2). }
    split; try done; rewrite ?Hg; try lia. intros (? & [= <-] & [args Ea]). by destruct (Hp args).
  - by apply reject_serves in Hr.
  - pose proof (store_writes _ _ _ _ _ _ _ _ Hst) as []. apply store_inv in Hst.
    destruct Hst as [[e ->]|([b ->] & _ & [t Ht])]; split; try done;
      match goal with |- context [guesses ?l] => change (guesses l) with 0 | _ => idtac end; try lia.
    intros (? & [= <-] & [? [=]]).
Qed.

Lemma step_serves e s o s' : step e s = Some (o, s') -> serves s o s'.
Proof.
  unfold step. destruct (listening s) eqn:El; cbn [negb]; [|done]. destruct e as [d|r| |].
  - case_if; [|done]. intros [= <- <-]. by apply serves_quiet.
  - destruct (serve r s) as [[resp s1]|] eqn:E; [|done]. intros [= <- <-]. by apply serve_serves in E.
  - case_if; [|done]. cbn. intros [= <- <-]. destruct (shutdown s) eqn:Es; apply serves_quiet; cbn; congruence.
  - destruct (shutdown s) as [t|] eqn:Es; [|done]. case_if; [|done]. cbn. intros [= <- <-]. by apply serves_quiet.
Qed.

(** The facts of [serves] over a run. *)
Record ran (s : Server) (rs : list Response) (s' : Server) : Prop := {
  rn_tokenFile : tokenFile s' = tokenFile s;
  rn_failed : failedAttempts s' = failedAttempts s + guesses rs;
  rn_shutdown : forall t, shutdown s = Some t -> shutdown s' = Some t;
  rn_locked : guesses rs > 0 -> maxFailedAttempts <= failedAttempts s' -> is_Some (shutdown s');
  rn_accepted : Exists accepted rs -> is_Some (shutdown s')
}.

Lemma run_ran es s rs s' : run es s = Some (rs, s') -> ran s rs s'.
Proof.
  revert s rs s'. induction es as [|e es IH]; intros s rs s'; cbn [run].
  { intros [= <- <-]. split; try done; cbn; [unfold guesses, zlen; cbn; lia|]. by intros []%Exists_nil. }
  destruct (step e s) as [[o s1]|] eqn:E1; [|done]. cbn.
  destruct (run es s1) as [[rs1 s2]|] eqn:E2; [|done]. cbn. intros [= <- <-].
  destruct (step_serves _ _ _ _ E1) as [Ht Hf Htm Hfa Hsh Hlk Hac]. destruct (IH _ _ _ E2) as [Hf' Hfa' Hsh' Hlk' Hac'].
  assert (guesses (match o with Some r => r :: rs1 | None => rs1 end) = guesses (option_list o) + guesses rs1) as Hg.
  { destruct o as [r|]; [|unfold guesses, zlen; cbn; lia].
    unfold guesses, zlen. cbn. destruct (guess r); cbn; lia. }
  assert (forall P : Prop, (is_Some (shutdown s1) \/ P) -> (P -> is_Some (shutdown s2)) -> is_Some (shutdown s2)) as Hor.
  { intros P [[t Es]|HP] HP'; [exists t; by apply Hsh'|by apply HP']. }
  split; [congruence|lia|auto| |].
  - rewrite Hg. intros Hpos Hmax. assert (0 <= guesses rs1) as Hnn by (unfold guesses, zlen; lia).
    destruct (decide (guesses rs1 > 0)) as [|Hz]; [auto|].
    apply (Hor False); [|done]. left. apply Hlk; lia.
  - intros Hex. apply (Hor (Exists accepted rs1)); [|auto].
    destruct o as [r|]; [|by right]. apply Exists_cons in Hex as [Ha|]; [|by right]. left. apply Hac. eauto.
Qed.

Lemma start_state bits tok file timeout rand t0 z files ds calls s0 :
  start bits tok file timeout rand t0 z files ds calls = Some s0 ->
  failedAttempts s0 = 0 /\ shutdown s0 = None /\ tokenFile s0 = file /\
  timer s0 = t0 + parse_timeout bits timeout /\ listening s0 = true.
Proof.
  unfold start. destruct (match tok with [] => _ | _ => _ end) as [tk|]; [|done]. cbn.
  destruct file as [|c file]; cbn; [by intros [= <-]|].
  unfold WriteFile. rewrite bind_eq. unfold next_call. cbn.
  destruct (default Done (head calls)) as [|err [x|]]; cbn; try done; by intros [= <-].
Qed.

(** The server ends. In every run from the start the counter is the number
    of wrong codes answered; once five codes were wrong or an upload was
    accepted the end is scheduled, and when its lifetime is over the timer
    schedules it. Once scheduled the time of the end never moves, and from then
    on the server can stop, which removes the token file, after which it takes
    no event at all. *)
Theorem upload_stops (bits : Z) (tok file timeout : list Z) (rand : option (list Z)) (t0 z : Z)
    (files : gmap (list Z) (list Z * Z)) (ds : gmap (list Z) Z) (calls : list os_outcome)
    (s0 s : Server) (es : list event) (rs : list Response) :
  start bits tok file timeout rand t0 z files ds calls = Some s0 -> run es s0 = Some (rs, s) ->
  failedAttempts s = guesses rs /\
  (maxFailedAttempts <= guesses rs \/ Exists accepted rs -> is_Some (shutdown s)) /\
  (listening s = true -> timer s <= s_clock s ->
     exists s1, step FireTimer s = Some (None, s1) /\ is_Some (shutdown s1)) /\
  (forall t es' rs' s', shutdown s = Some t -> run es' s = Some (rs', s') -> listening s' = true ->
     shutdown s' = Some t /\
     (t <= s_clock s' -> exists s1, step FireShutdown s' = Some (None, s1) /\
        (file <> [] -> fs s1 !! file = None) /\ (forall e, step e s1 = None))).
Proof.
  intros (H0 & Hs0 & Hf & _)%start_state Hr. apply run_ran in Hr as [Htf Hfa _ Hlk Hac].
  split; [lia|]. split; [|split].
  - intros [Hg|Ha]; [|auto]. apply Hlk; unfold maxFailedAttempts in *; lia.
  - intros Hl Ht. unfold step. rewrite Hl, (proj2 (Z.leb_le _ _) Ht). cbn. eexists. split; [done|].
    destruct (shutdown s) eqn:E; cbn; eauto.
  - intros t es' rs' s' Es Hr Hl. apply run_ran in Hr as [Htf' _ Hsh _ _]. pose proof (Hsh t Es) as Es'.
    split; [done|]. intros Ht. unfold step. rewrite Hl, Es', (proj2 (Z.leb_le _ _) Ht). cbn.
    eexists. split; [done|]. cbn. split; [|done]. intros Hn. rewrite Htf', Htf, Hf.
    destruct file; [done|]. apply lookup_delete_eq.
Qed.

(** ** Pages *)

(** No byte that could open a tag, a quote or end one. *)
Definition html_safe (s : list Z) : Prop := Forall (fun c => c ∉ [60; 62; 34; 39]) s.

Lemma EscapeString_safe s : html_safe (EscapeString s).
Proof.
  unfold html_safe, EscapeString. induction s as [|c s IH]; cbn; [constructor|]. apply Forall_app. split; [|done].
  unfold escape_byte. repeat (case_if; [decide_closed|]). constructor; [|done].
  rewrite !not_elem_of_cons. repeat split; try done. apply not_elem_of_nil.
Qed.

Lemma normalizeLang_safe l : html_safe (normalizeLang l).
Proof. unfold normalizeLang. case_if; decide_closed. Qed.

Lemma StatusText_safe code : html_safe (StatusText code).
Proof. unfold StatusText. repeat (case_if; [decide_closed|]). constructor. Qed.

Definition page_args (p : Page) : list (list Z) :=
  match p with ErrorPage args | SuccessPage args => args | _ => [] end.

Lemma writeError_safe lang code message : Forall html_safe (page_args (page (writeError lang code message))).
Proof. repeat constructor; auto using normalizeLang_safe, EscapeString_safe, StatusText_safe. Qed.

Lemma writeSuccess_safe lang backup address : Forall html_safe (page_args (page (writeSuccess lang backup address))).
Proof. repeat constructor; auto using normalizeLang_safe, EscapeString_safe. Qed.

(** A program that only answers with safe pages. *)
Definition safe_pages (m : U Response) : Prop :=
  forall s resp s', m s = Some (resp, s') -> Forall html_safe (page_args (page resp)).

Lemma safe_ret resp : Forall html_safe (page_args (page resp)) -> safe_pages (mret resp).
Proof. by intros H s r s' [= <- <-]. Qed.

Lemma safe_bind {A} (m : U A) k : (forall a, safe_pages (k a)) -> safe_pages (m ≫= k).
Proof. intros Hk s resp s' (a & s1 & _ & H)%bind_inv. by apply Hk in H. Qed.

Create HintDb pages.

#[local] Hint Resolve safe_ret writeError_safe writeSuccess_safe : pages.

Ltac safe_pages :=
  repeat first
    [ solve [eauto with pages]
    | match goal with
      | |- safe_pages (mbind _ _) => apply safe_bind; intros ?
      | |- safe_pages (match ?x with _ => _ end) => destruct x
      | |- safe_pages (if ?x then _ else _) => destruct x
      end ].

(** Nothing a client sends is interpreted as markup: every value the server
    formats into a page is free of angle brackets and quotes, so a file name, a
    line or a key of a rejected configuration cannot inject HTML. *)
Theorem pages_escaped (r : Request) (s : Server) :
  exists resp s', serve r s = Some (resp, s') /\ Forall html_safe (page_args (page resp)).
Proof.
  destruct (serve_outcome r s) as (resp & s' & E & _). exists resp, s'. split; [done|].
  revert s resp s' E. change (safe_pages (serve r)).
  unfold serve, upload, index, reject, store, or_500. safe_pages; apply safe_ret; constructor.
Qed.

(** ** A valid upload is accepted *)

(** No system call is going to fail. *)
Definition calm (s : Server) : Prop := Forall (fun o => o = Done) (os_calls s).

Definition accepts (m : U Response) (s : Server) : Prop :=
  exists resp s', m s = Some (resp, s') /\ accepted resp.

Lemma calm_next s : calm s -> exists s1, next_call s = Some (Done, s1) /\ calm s1.
Proof.
  unfold calm, next_call. intros H. destruct (os_calls s) as [|o os]; [by eexists|].
  inversion H; subst. eexists. split; [reflexivity|done].
Qed.

Lemma MkdirAll_calm p mode s : calm s -> exists s1, MkdirAll p mode s = Some (None, s1) /\ calm s1.
Proof.
  intros (s1 & E & Hc)%calm_next. unfold MkdirAll. rewrite (bind_run _ _ _ _ _ E). eexists. split; [reflexivity|done].
Qed.

Lemma WriteFile_calm p d mode s : calm s -> exists s1, WriteFile p d mode s = Some (None, s1) /\ calm s1.
Proof.
  intros (s1 & E & Hc)%calm_next. unfold WriteFile. rewrite (bind_run _ _ _ _ _ E). eexists. split; [reflexivity|done].
Qed.

Lemma or_500_calm lang call rest s :
  (exists s1, call s = Some (None, s1) /\ calm s1) -> (forall s1, calm s1 -> accepts rest s1) ->
  accepts (or_500 lang call rest) s.
Proof.
  intros (s1 & E & Hc) Hr. destruct (Hr s1 Hc) as (resp & s' & Er & Ha). exists resp, s'. split; [|done].
  unfold or_500. by rewrite (bind_run _ _ _ _ _ E).
Qed.

Lemma accepts_gets {A} (f : Server -> A) k s : accepts (k (f s)) s -> accepts (gets f ≫= k) s.
Proof.
  intros (resp & s' & E & H). exists resp, s'. split; [|done]. by rewrite (bind_run _ _ _ _ _ (gets_eq f s)).
Qed.

Lemma store_accepts lang name data converted address s :
  calm s -> accepts (store lang name data converted address) s.
Proof.
  intros Hs. unfold store. apply or_500_calm; [by apply MkdirAll_calm|]. intros s1 H1.
  apply or_500_calm; [by apply MkdirAll_calm|]. intros s2 H2.
  apply accepts_gets. cbv zeta. apply or_500_calm; [by apply WriteFile_calm|]. intros s3 H3.
  apply or_500_calm; [by apply WriteFile_calm|]. intros s4 H4.
  apply or_500_calm; [by apply WriteFile_calm|]. intros s5 H5.
  eexists _, _. split; [reflexivity|]. by eexists.
Qed.

(** While the server listens it accepts every valid upload: a request with
    the access code and a configuration that converts is stored, if no system
    call fails. The number of wrong codes before it plays no part: the server
    still accepts between the fifth wrong code and the moment it stops. *)
Theorem upload_accepted (r : Request) (s : Server) (name data converted address : list Z) :
  listening s = true -> authorised r s -> carries r name data ->
  convertConfig data = inr (converted, address) -> calm s ->
  exists resp s', step (Serve r) s = Some (Some resp, s') /\ accepted resp /\ stored data converted address s'.
Proof.
  intros Hl (Hp & Hm & _ & Ht) (files & file & bytes & Hf & Hff & Hname & Hb & ->) Hc Hos.
  set (lang := normalizeLang (FormValue (Some maxUpload) r (lit "lang"))).
  destruct (store_accepts lang name (limited maxUpload bytes) converted address s Hos) as (resp & s' & E & Ha).
  exists resp, s'. split; [|split; [done|]].
  - unfold step. rewrite Hl. cbn [negb]. unfold serve. rewrite Hp. change (bytes_eqb (lit "/upload") (lit "/upload")) with true.
    cbv beta iota. unfold upload. rewrite Hm, Hf. change (bytes_eqb (lit "POST") (lit "POST")) with true. cbn [negb].
    rewrite (bind_run _ _ _ _ _ (gets_eq token s)). rewrite Ht, bytes_eqb_refl. cbn [negb].
    rewrite Hff, Hb, Hc, Hname. fold lang. by rewrite E.
  - apply store_inv in E as [[e ->]|(_ & H & _)]; [by destruct Ha|done].
Qed.

(** ** A sample server *)

Definition sample_file : list (list Z * FileHeader) := [(lit "conf", mkFile (lit "../../etc/x") (Some sample_conf))].

Definition sample_request (code : list Z) : Request :=
  mkRequest (lit "POST") (lit "/upload") [] true (Multipart 500 [(lit "token", code)] sample_file).

Definition sample_start : option Server :=
  start 32 (lit "k") (lit "/t") (lit "60") None 0 0 ∅ ∅ [].

(** Five wrong codes in a row. *)
Definition sample_guesses : list event := replicate 5 (Serve (sample_request (lit "x"))).

Definition sample_locked : option (list Response * Server) := s ← sample_start; run sample_guesses s.

Definition sample_server : Server :=
  Eval vm_compute in match sample_start with Some s => s | None => mkServer [] [] 0 0 None false 0 0 ∅ ∅ [] end.

Definition locked_server : Server :=
  Eval vm_compute in match sample_locked with Some (_, s) => s | None => mkServer [] [] 0 0 None false 0 0 ∅ ∅ [] end.

Definition locked_answers : list Response :=
  Eval vm_compute in match sample_locked with Some (rs, _) => rs | None => [] end.

Lemma sample_started : sample_start = Some sample_server.
Proof. vm_compute. reflexivity. Qed.

Lemma sample_ran : run sample_guesses sample_server = Some (locked_answers, locked_server).
Proof. vm_compute. reflexivity. Qed.

